(* ===== verification/_CoqProject ===== *)
-Q . S2P
Prelude.v
Umm.v
UmmInv.v
UmmSpec.v
UmmThm.v
Lzvn.v
LzvnThm.v
Sha256.v
Sha256Thm.v
Hde.v
HdeThm.v
Disasm.v
Printf.v
SStream.v
McInst.v
McReg.v
CsUtils.v
Ubsan.v
UbsanThm.v
UbsanRace.v
Vector.v
ThreadLocal.v
KUtil.v
KPatch.v
Find.v
Route.v
RouteThm.v
PatcherPlus.v
NDeck.v
NDeckThm.v
Backlight.v
QSort.v
Cs.v
CsThm.v
DisasmCs.v
Lzss.v
LzssTree.v
LzssThm.v
Compression.v
X86Tables.v
X86Dec.v
X86DecThm.v
X86Insns.v
X86Dis.v
X86DisThm.v
X86Cs.v
Mach.v
MachThm.v
MachFile.v
MachFileThm.v
NDeckMods.v
NDeckModsThm.v
