(* ===== verification/Prelude.v ===== *)
(** * Verification of NootedDeck and Lilu

    NootedDeck ([src/NootedDeck]) is a macOS kernel extension for the graphics
    of AMD Van Gogh; it is a plugin of Lilu ([src/Lilu]), the kernel patching
    framework, which carries its own allocator, decompressor, hash, length
    disassembler, a copy of the Capstone disassembler and a sanitizer runtime in
    C.  This library models those C parts, the patcher and the containers of
    Lilu, and the core of the kext, and proves them correct.

    ** The parts and how they interact

    The kext asks the patcher of Lilu to find code by pattern, to replace it, and
    to route functions of Apple's drivers to its own ([Patcher+.cpp] over
    [kern_patcher.cpp]).  The patcher writes kernel memory with the write
    protection of the processor lifted ([kern_mach.cpp], which also reads the
    images of the kernel and of kexts for their symbols), finds the length of
    the instructions it moves with [Disassembler::quickInstructionSize] over
    [hde64_disasm], and keeps its patches in the vectors of [kern_util.hpp].
    Lilu also unpacks prelinked kernels and kexts ([kern_compression.cpp] over
    [lzvn_decode_buffer], LZSS and zlib),
    identifies data by hash ([sha256.c]), and gives Capstone, which expects
    [malloc], the pool of [umm_malloc].  Capstone's core keeps decoded
    instructions ([MCInst]), register tables ([MCRegisterInfo]), text streams
    ([SStream]) and instruction maps ([utils]); [cs.c] disassembles code into an
    array of instructions, and [kern_disasm.cpp] searches such arrays.  A build with the sanitizer calls
    the runtime of [kern_ubsan.c] from everywhere.

    ** Files

    - [Prelude.v]: machine integers as [Z] with explicit wrap-around ([wrap],
      [u8] to [u64], [sext]), the bit operations of C in [c_scope], byte memory
      ([mem], [ldb], [ldn], [stn]), the result monad [res] ([Ok], [Fault] for a
      bad access, [NoFuel] for a loop that outlives its bound), counted loops,
      and the lemmas and tactics all files share.
    - [Umm.v]: [umm_malloc/umm_malloc.c], one definition per function, over the
      heap as bytes; [UmmInv.v]: the heap invariant (block chain, doubly linked
      free list, no adjacent free blocks); [UmmSpec.v]: the abstract allocator
      and what each list operation does to the invariant; [UmmThm.v]: the
      theorems on init, malloc, free, realloc and calloc, and the system of a
      client and the allocator as a step relation.
    - [Lzvn.v]: [lzvn/lzvn.c], one definition per label of [lzvn_decode], every
      access checked against the source and destination buffers; [LzvnThm.v]: a
      reference decoder on lists, the refinement, safety and the store round trip.
    - [Sha256.v], [Sha256Thm.v]: [sha256/sha256.c] and its equivalence with the
      definitions of FIPS 180-4, for messages in any chunks.
    - [Hde.v], [HdeThm.v]: [hde/hde64.c] and [hde/hde32.c] with their tables; the
      stages both engines share are definitions over a configuration, the
      differing ones are in [Module Hde64] and [Module Hde32].
    - [Disasm.v]: [quickInstructionSize] of [kern_disasm.cpp], proved against the
      class [LengthDisasm], which both engines instantiate.
    - [Printf.v]: texts, the integer conversions of [printf] and reading numbers
      back, for the two components that print.
    - [SStream.v], [McInst.v], [McReg.v], [CsUtils.v]: [capstone/SStream.c],
      [MCInst.c] with [MCInstrDesc.c], [MCRegisterInfo.c] and [utils.c].
    - [Ubsan.v]: [kern_ubsan.c] with [kern_ubsan.h], kernel configuration, in a
      monad over the marked locations, the operand memory and the log;
      [UbsanThm.v]: its public handlers as calls of one type and what they do;
      [UbsanRace.v]: the compare-and-swap loop of [isAlreadyReported] as a step
      relation on interleaved threads.
    - [Vector.v]: [evector_base] and [CircularBuffer] of [kern_util.hpp], over the
      class [os_alloc] of an allocator that may fail; [ThreadLocal.v]: the
      [ThreadLocal] container, one atomic access per step of a thread;
      [KUtil.v]: bit fields, buffers and the string functions of [kern_util.cpp].
    - [KPatch.v]: the state of the patcher (memory, processor, patches, address
      slots, answers of the environment) and its monad [K], the protection
      functions of [kern_mach.cpp] and the patches of the private
      [kern_patcher.hpp]; [Find.v]: pattern search, search and replace, lookup
      patches; [Route.v]: routes, trampolines, blocks and requests;
      [RouteThm.v]: what a route does to memory and that unloading undoes it.
    - [PatcherPlus.v]: the requests of NootedDeck's [Patcher+.cpp]; [NDeck.v]:
      [SKU.cpp] ([Module Sku]), [NDeckAttributes.hpp] and [StartModule]
      ([Module Attr]), [ObjectField.hpp] ([Module Field]), and of [NDeck.cpp]
      the registers and the firmware's mailbox ([Module Mmio]), the video BIOS
      ([Module Vbios]) and the injected drivers ([Module Drivers]);
      [NDeckThm.v]: their theorems; [Backlight.v]: [Backlight.cpp];
      [NDeckMods.v]: the hot fixes ([Module Agdp], [Module FbFix]), the audio and
      frame buffer drivers ([Module Hda], [Module Fb]) and the wrappers of
      [DebugEnabler.cpp] ([Module Debug]); [NDeckModsThm.v]: their theorems.
    - [QSort.v]: [kern_qsort.cpp], on positions of an array, and the byte level of
      its exchanges.
    - [Cs.v]: [capstone/cs.c] and the X86 module, over the class [backend] of a
      decoder with its table of public ids and a memory of blocks whose
      allocations may fail, what new blocks hold being the class [fresh_memory];
      the cache of ids that [insn_find] makes is a block of the handle, and the
      use of a null pointer an outcome of its own ([WNull]); [CsThm.v]: the
      reference disassembly, both ways to disassemble, opening, closing and
      whole sessions; [DisasmCs.v]: the rest of [kern_disasm.cpp] over it.
    - [Lzss.v]: the LZSS encoder and decoder of [kern_compression.cpp], on the
      arrays of the code with every index checked; [LzssTree.v]: its search trees,
      kept in three arrays, against trees as data; [LzssThm.v]: the invariant of
      the ring buffer and the trees, and the round trip; [Compression.v]: the
      public functions over memory and the allocation functions given to zlib.
    - [X86Tables.v], [X86Dec.v]: Capstone's X86 decoder
      ([arch/X86/X86DisassemblerDecoder.c]) in the reduced configuration of Lilu,
      its generated tables as numbers and one definition per function over the
      members of the internal instruction; [X86DecThm.v]: a weakest precondition
      for its monad, the stages of a decoding and safety; [X86Insns.v]: the
      reduced table of public ids of [X86Mapping.c] and the opcodes it lacks;
      [X86Dis.v]: the translation to operands and the entry point of
      [X86Disassembler.c]; [X86DisThm.v]: its safety; [X86Cs.v]: decoder,
      translation and table as an instance of [backend].
    - [Mach.v]: of [kern_mach.cpp] the headers of images in memory: load commands,
      sections, symbols, the base of the kernel and where an image runs, over loads
      that may fault; [MachThm.v]: its theorems; [MachFile.v]: images in files,
      compressed files and the prelinked kernel, with the reads of [kern_file.cpp],
      over blocks of memory and the file nodes that are held; [MachFileThm.v]: its
      theorems.

    ** What the theorems show

    - Allocator: for requests of at most 524276 bytes, in every reachable state
      the objects a client holds lie in the heap and do not overlap; malloc finds
      the best fit or fails only when nothing fits; free merges neighbours;
      realloc keeps the contents or fails only when there is no room.  A larger
      request is reduced modulo 512 KiB by the 16-bit block count.
    - Decoder: it ends on every input, stays inside its buffers, and computes the
      output of the reference decoder on well-formed streams, cut to the
      destination; the jump table is the switch it replaces.
    - Hash: init, update and final compute SHA-256; the 32-bit counter of update
      never ends for lengths of [2^32] and more.
    - Length disassembler: on any bytes it ends, stays inside its tables and the
      first 32 bytes, and returns a length from 1 to 15;
      [quickInstructionSize] returns whole instructions that cover the minimum,
      and zero exactly when one in the way is rejected.
    - Capstone: streams append and printed numbers read back; operands are
      inserted and built where they should be; register walks compute the decoded
      lists; the instruction cache is right.  The cases outside are stated too: a
      stream that overruns, the scratch operand that is overwritten, the cache
      entry that was never written.
    - Sanitizer: a location is reported once, sequentially and under any
      interleaving; the first report produces one text, which names the location;
      numbers read back; shifts and bad accesses are classified by their values;
      which handlers panic, with the exceptions of the code.
    - Containers: a vector behaves as a list whatever the allocator answers and
      deletes every element once; a circular buffer as a bounded queue with its
      lock balanced; thread-local values are isolated in every interleaving and
      its operations are wait-free.
    - Patcher: a search returns the first match, an occurrence being a statement
      on every byte; with a replacement as long as the pattern search and replace
      replaces the leftmost occurrences; a wrapped function starts with a jump to
      the replacement and its trampoline runs the moved instructions and continues
      behind them; earlier trampolines, all other memory and the protection are
      kept; unloading restores every byte.
      The error paths are stated as they are: an error number taken for an
      address, a truth value taken for an index.
    - Kext: branches are followed to where the processor goes; drivers are
      injected once and none is lost; the video BIOS is that of the first source
      to have one, and it is one; the accesses of a message to the firmware, the
      waits before and after it and their answers are pinned, for mapped and
      indexed registers; the attributes follow the kernel version; up to the
      maximum that 32 bits allow, the backlight level becomes a duty cycle and
      reads back;
      display paths without a device are dropped and no other; the hot fixes change
      only what they name.
    - Sorting: qsort ends, sorts and permutes within its range.
    - Compression: the LZSS encoder keeps its trees well formed, stays inside its
      arrays and ends; what it sends decodes to its input; the decoder is safe on
      any input; the public functions restore the bytes of a buffer.
    - Disassembly: [cs_disasm] computes the reference disassembly whatever the
      allocations answer, its array never overflows and nothing stays but the
      handle's cache of ids, which closing frees: a session gives every block back.
      The two allocations that are not checked are stated as they are.  The
      searches and sizes of Lilu's front end, operands included, are those of the
      reference.
    - X86 decoder: on any bytes it ends inside its tables and arrays and gives
      instructions of 1 to 15 bytes that are there, whose registers, immediates and
      operands the translation finds in its tables; with it [cs_disasm] is a sweep
      over the code that gives the public ids of the table.  The reduced
      configuration loses the type of two-byte opcodes and has opcodes that the
      table of ids lacks; theorems state what becomes of them.
    - Images: a header collects what its commands say; a symbol is the first with
      the name and is moved by the slide of the running kernel, whose base the
      search finds; lookups of sections stay close to any image; loading ends on
      files it copes with and, whatever the files, releases files and memory when
      it ends.  Headers that make it read behind its buffers, recurse
      without end, use an old buffer or lose one are stated as they are.

    ** Bounds and fuel

    Loops run on fuel that the theorems prove sufficient: the search of
    [umm_malloc] visits every block at most once, [lzvn_decode] consumes a source
    byte per opcode, [quickInstructionSize] covers a byte per iteration, a
    register walk ends within its table, the table loops of HDE end within the
    table, a search and replace passes its data once, [WrapAddDrivers] looks at
    every driver once, the walk over the ACPI table moves by a header, every level
    of [qsort] is shorter, [cs_disasm] consumes a byte per instruction, the LZSS
    decoder a byte per round and the encoder a character, a path in a search
    tree is no longer than the nodes it has, the X86 decoder consumes a byte per
    prefix, and a duplicate operand stands for one that is none.  A lookup of a
    section descends once; the search for the kernel takes a round per step down;
    [readMachHeader] has its fuel as an argument, because it need not end.  [cs_disasm]
    is proved for code below [2^28] bytes, where its 32-bit cache size cannot wrap,
    and [qsort] for arrays below [2^31] bytes, because it keeps distances in [int].
    [sha256_update], [findAndReplaceWithMask] and [applyLookupPatch] have their
    fuel as an argument, because there are arguments for which they do not end.
    Sizes and pointers are 64 bits wide, little endian, as on the only target.

    ** Arguments and hypotheses

    The allocator of Capstone ([malloc_t]) and its generated register and
    instruction tables are arguments; what a theorem needs of them is a named
    predicate ([malloc_ok], [table_ok], [reg_ok]) with a witness.  [SStream.v]
    models the configuration that prints; Lilu's build leaves the printers empty.
    The kernel's allocator is the class [os_alloc], with an instance that runs
    out of memory.  Failures of allocations and of the processor to accept a new
    protection are answers that the patcher's state carries as a list.  The
    disassembler, the address of the trampoline memory, the symbol tables and the
    positions of images are arguments of the patcher; register numbers, the GPU,
    the layout of the ACPI table, the XML of drivers and the original functions
    are arguments of the kext's definitions, because the sources do not have them;
    so are zlib and the places of new buffers in [Compression.v], and what the
    printer does to an instruction in [X86Cs.v]; that back end is put behind memory
    functions that clear their blocks, as those Lilu gives to Capstone do;
    [MachFile.v] has the allocator, the files and the parser of property lists.

    ** Not modelled

    Of Capstone the back ends of other processors, which Lilu does not build, and
    the implicit registers, groups and texts of instructions; of Lilu the
    notifications of loaded kexts, writing files, the user patcher and the services
    around IOKit, EFI and NVRAM; of NootedDeck the registration of modules, tables
    of patches that are not used, the stores into a structure that it does not
    declare, and device properties; the kernel headers. *)
From stdpp Require Import prelude.
From Stdlib Require Import ZArith Lia Zbitwise.
Open Scope Z_scope.

(** ** C integers at their width *)

Definition wrap (w z : Z) : Z := z mod 2 ^ w.
Abbreviation u8 := (wrap 8).
Abbreviation u16 := (wrap 16).
Abbreviation u32 := (wrap 32).
Abbreviation u64 := (wrap 64).

(** Two's complement reading of the low [w] bits of [z]. *)
Definition sext (w z : Z) : Z :=
  let v := wrap w z in if v <? 2 ^ (w - 1) then v else v - 2 ^ w.

Declare Scope c_scope.
Delimit Scope c_scope with c.
Notation "x .& y" := (Z.land x y) (at level 40, left associativity) : c_scope.
Notation "x .| y" := (Z.lor x y) (at level 50, left associativity) : c_scope.
Notation "x .^ y" := (Z.lxor x y) (at level 48, left associativity) : c_scope.
Notation "x .<< y" := (Z.shiftl x y) (at level 38, left associativity) : c_scope.
Notation "x .>> y" := (Z.shiftr x y) (at level 38, left associativity) : c_scope.
Open Scope c_scope.

(** A C condition on an integer: [e] holds when it is non-zero. *)
Definition truth (z : Z) : bool := negb (z =? 0).

(** ** Tactics *)

(** Case split on the first integer comparison of the goal or a hypothesis. *)
Ltac case_cmp :=
  match goal with
  | |- context [?a =? ?b] => destruct (Z.eqb_spec a b)
  | |- context [?a <? ?b] => destruct (Z.ltb_spec a b)
  | |- context [?a <=? ?b] => destruct (Z.leb_spec a b)
  | H : context [?a =? ?b] |- _ => destruct (Z.eqb_spec a b)
  | H : context [?a <? ?b] |- _ => destruct (Z.ltb_spec a b)
  | H : context [?a <=? ?b] |- _ => destruct (Z.leb_spec a b)
  end.

Ltac cmp_solve := repeat (case_cmp; simpl in *; try lia; try done).

(** [lia] after exposing quotients and remainders. *)
Ltac zdm := Z.div_mod_to_equations; lia.

(** Splits an integer hypothesis range into its [n] values from [lo] on. *)
Ltac range_cases x lo n :=
  lazymatch n with
  | O => exfalso; lia
  | S ?n => destruct (Z.eq_dec x lo) as [->|];
            [|let lo' := eval vm_compute in (lo + 1) in range_cases x lo' n]
  end.

Create HintDb cmod discriminated.
Create Rewrite HintDb cmem.

(** ** Facts on machine integers *)

Section wrap_facts.
Context (w : Z) (Hw : 0 <= w).

Lemma wrap_range z : 0 <= wrap w z < 2 ^ w.
Proof using Hw. apply Z.mod_pos_bound, Z.pow_pos_nonneg; lia. Qed.

Lemma wrap_small z : 0 <= z < 2 ^ w -> wrap w z = z.
Proof using Type. apply Z.mod_small. Qed.

Lemma wrap_wrap z : wrap w (wrap w z) = wrap w z.
Proof using Hw. apply wrap_small, wrap_range. Qed.

Lemma wrap_add_l a b : wrap w (wrap w a + b) = wrap w (a + b).
Proof using Hw.
  unfold wrap. apply Z.add_mod_idemp_l. pose proof (Z.pow_pos_nonneg 2 w). lia.
Qed.

Lemma wrap_add_r a b : wrap w (a + wrap w b) = wrap w (a + b).
Proof using Hw. rewrite Z.add_comm, wrap_add_l. f_equal. lia. Qed.

Lemma wrap_land z : wrap w z = z .& Z.ones w.
Proof using Hw. unfold wrap. by rewrite Z.land_ones. Qed.

Lemma wrap_testbit z i :
  Z.testbit (wrap w z) i = (i <? w) && Z.testbit z i.
Proof using Hw.
  unfold wrap. destruct (Z.ltb_spec i w).
  - destruct (Z.ltb_spec i 0); [by rewrite !Z.testbit_neg_r|].
    by rewrite Z.mod_pow2_bits_low.
  - by rewrite Z.mod_pow2_bits_high by lia.
Qed.
End wrap_facts.

#[export] Hint Resolve wrap_range wrap_small : cmod.

Lemma u8_range z : 0 <= u8 z < 256.
Proof. exact (wrap_range 8 ltac:(lia) z). Qed.
Lemma u16_range z : 0 <= u16 z < 65536.
Proof. exact (wrap_range 16 ltac:(lia) z). Qed.
Lemma u32_range z : 0 <= u32 z < 4294967296.
Proof. exact (wrap_range 32 ltac:(lia) z). Qed.

Lemma u8_small z : 0 <= z < 256 -> u8 z = z.
Proof. apply (wrap_small 8). Qed.
Lemma u16_small z : 0 <= z < 65536 -> u16 z = z.
Proof. apply (wrap_small 16). Qed.
Lemma u32_small z : 0 <= z < 4294967296 -> u32 z = z.
Proof. apply (wrap_small 32). Qed.

Lemma sext_range w z : 0 < w -> - 2 ^ (w - 1) <= sext w z < 2 ^ (w - 1).
Proof.
  intros Hw. unfold sext.
  pose proof (wrap_range w ltac:(lia) z) as Hr.
  assert (2 ^ w = 2 * 2 ^ (w - 1)) as E.
  { rewrite <- Z.pow_succ_r by lia. f_equal; lia. }
  destruct (Z.ltb_spec (wrap w z) (2 ^ (w - 1))); lia.
Qed.

Lemma sext_wrap w z : 0 < w -> wrap w (sext w z) = wrap w z.
Proof.
  intros Hw. unfold sext. case_cmp; [by apply wrap_wrap; lia|].
  unfold wrap at 1. rewrite <- (Z.mod_add _ 1); [|pose proof (Z.pow_pos_nonneg 2 w); lia].
  replace (wrap w z - 2 ^ w + 1 * 2 ^ w) with (wrap w z) by lia.
  apply wrap_wrap; lia.
Qed.

(** Fields that do not overlap are joined by addition. *)
Lemma lor_add_low k hi lo : 0 <= k -> 0 <= lo < 2 ^ k -> (hi * 2 ^ k) .| lo = hi * 2 ^ k + lo.
Proof.
  intros Hk Hlo. rewrite <- Z.add_nocarry_lor; [done|].
  rewrite <- (Z.mod_small lo (2 ^ k) Hlo), <- Z.land_ones, Z.land_comm, <- Z.land_assoc by lia.
  rewrite (Z.land_comm (Z.ones k)), Z.land_ones, Z.mod_mul by (try apply Z.pow_nonzero; lia).
  apply Z.land_0_r.
Qed.

(** [truth] of a mask test against a single bit. *)
Lemma truth_pow2_testbit v i : 0 <= i -> truth (v .& 2 ^ i) = Z.testbit v i.
Proof.
  intros Hi. unfold truth. destruct (Z.testbit v i) eqn:E.
  - destruct (Z.eqb_spec (v .& 2 ^ i) 0) as [H0|]; [|done].
    apply (f_equal (fun x => Z.testbit x i)) in H0.
    by rewrite Z.land_spec, E, Z.pow2_bits_true, Z.testbit_0_l in H0.
  - assert (v .& 2 ^ i = 0) as ->; [|done].
    apply Z.bits_inj'. intros j Hj. rewrite Z.land_spec, Z.testbit_0_l.
    destruct (decide (i = j)) as [<-|]; [by rewrite E|].
    by rewrite Z.pow2_bits_false, andb_false_r.
Qed.

(** ** Byte memory

    A memory maps every address to the byte it holds; loads and stores wider
    than a byte are little-endian, as on the x86 targets of the code. *)

Definition mem := Z -> Z.

Definition ldb (m : mem) (a : Z) : Z := u8 (m a).
Definition stb (m : mem) (a v : Z) : mem := fun x => if x =? a then u8 v else m x.

Fixpoint ldn (n : nat) (m : mem) (a : Z) : Z :=
  match n with
  | O => 0
  | S n' => ldb m a + 256 * ldn n' m (a + 1)
  end.

Fixpoint stn (n : nat) (m : mem) (a v : Z) : mem :=
  match n with
  | O => m
  | S n' => stn n' (stb m a v) (a + 1) (v / 256)
  end.

(** [memmove(dst, src, n)], [memset(dst, v, n)]. *)
Definition mem_move (m : mem) (dst src n : Z) : mem :=
  fun x => if (dst <=? x) && (x <? dst + n) then m (x - dst + src) else m x.

Definition mem_set (m : mem) (dst v n : Z) : mem :=
  fun x => if (dst <=? x) && (x <? dst + n) then u8 v else m x.

Lemma ldb_range m a : 0 <= ldb m a < 256.
Proof. apply u8_range. Qed.

Lemma ldn_range n m a : 0 <= ldn n m a < 256 ^ Z.of_nat n.
Proof.
  revert a. induction n as [|n IH]; intros a; [done|].
  cbn [ldn]. rewrite Nat2Z.inj_succ, Z.pow_succ_r by lia.
  pose proof (ldb_range m a). specialize (IH (a + 1)). lia.
Qed.

Lemma stn_other n m a v x : x < a \/ a + Z.of_nat n <= x -> stn n m a v x = m x.
Proof.
  revert m a v. induction n as [|n IH]; intros m a v Hx; [done|].
  cbn [stn]. rewrite IH by lia. unfold stb. case_cmp; lia.
Qed.

Lemma ldn_ext n m m' a :
  (forall x, a <= x < a + Z.of_nat n -> m' x = m x) -> ldn n m' a = ldn n m a.
Proof.
  revert a. induction n as [|n IH]; intros a Hx; [done|].
  cbn [ldn]. unfold ldb. rewrite Hx by lia. rewrite IH; [done|].
  intros x ?. apply Hx. lia.
Qed.

Lemma ldn_stn_other n k m a b v :
  a + Z.of_nat n <= b \/ b + Z.of_nat k <= a -> ldn n (stn k m b v) a = ldn n m a.
Proof. intros Hd. apply ldn_ext. intros x ?. apply stn_other. lia. Qed.

Lemma ldn_stn_same n m a v : ldn n (stn n m a v) a = v mod 256 ^ Z.of_nat n.
Proof.
  revert m a v. induction n as [|n IH]; intros m a v; [by rewrite Z.mod_1_r|].
  cbn [ldn stn]. rewrite IH, Nat2Z.inj_succ, Z.pow_succ_r by lia.
  unfold ldb at 1. rewrite stn_other by lia. unfold stb. case_cmp; [|lia].
  rewrite wrap_wrap by lia. change (u8 v) with (v mod 256).
  rewrite Z.rem_mul_r by (pose proof (Z.pow_pos_nonneg 256 (Z.of_nat n)); lia).
  done.
Qed.

Definition ld16 := ldn 2.
Definition st16 := stn 2.
Definition ld32 := ldn 4.
Definition st32 := stn 4.
Definition ld64 := ldn 8.
Definition st64 := stn 8.

Lemma ld16_range m a : 0 <= ld16 m a < 65536.
Proof. apply (ldn_range 2). Qed.
Lemma ld16_st16_same m a v : ld16 (st16 m a v) a = u16 v.
Proof. apply (ldn_stn_same 2). Qed.
Lemma ld16_st16_other m a b v :
  a + 2 <= b \/ b + 2 <= a -> ld16 (st16 m b v) a = ld16 m a.
Proof. intros. apply (ldn_stn_other 2 2). lia. Qed.

(** [m'] differs from [m] only on the addresses of [W]. *)
Definition only_differ (W : Z -> Prop) (m m' : mem) : Prop :=
  forall a, ~ W a -> m' a = m a.

Lemma only_differ_refl W m : only_differ W m m.
Proof. done. Qed.
Lemma only_differ_trans W m1 m2 m3 :
  only_differ W m1 m2 -> only_differ W m2 m3 -> only_differ W m1 m3.
Proof. intros H1 H2 a Ha. by rewrite H2, H1. Qed.
Lemma only_differ_mono (W W' : Z -> Prop) m m' :
  (forall a, W a -> W' a) -> only_differ W m m' -> only_differ W' m m'.
Proof. intros HW H a Ha. apply H. auto. Qed.

(** ** Adjacent pairs of a list

    [adj R l] says that [R] holds between every two consecutive elements: the
    shape of both doubly linked lists of the allocator. *)

Section adj.
Context {A : Type}.

Fixpoint adj (R : A -> A -> Prop) (l : list A) : Prop :=
  match l with
  | x :: (y :: _) as tl => R x y /\ adj R tl
  | _ => True
  end.

Lemma adj_cons R x y l : adj R (x :: y :: l) <-> R x y /\ adj R (y :: l).
Proof. done. Qed.

Lemma adj_app R l1 x l2 :
  adj R (l1 ++ x :: l2) <-> adj R (l1 ++ [x]) /\ adj R (x :: l2).
Proof.
  induction l1 as [|y l1 IH]; [simpl; tauto|].
  destruct l1 as [|z l1]; [simpl in *; tauto|].
  rewrite <- !app_comm_cons in *. rewrite !adj_cons. tauto.
Qed.

Lemma adj_impl (R R' : A -> A -> Prop) l :
  (forall x y, R x y -> R' x y) -> adj R l -> adj R' l.
Proof.
  intros HR. induction l as [|x [|y l] IH]; [done..|].
  rewrite !adj_cons. naive_solver.
Qed.

Lemma adj_conj (R R' : A -> A -> Prop) l :
  adj R l -> adj R' l -> adj (fun x y => R x y /\ R' x y) l.
Proof. induction l as [|x [|y l] IH]; [done..|]. rewrite !adj_cons. naive_solver. Qed.
End adj.

(** ** Results of code that can go wrong

    [Ok a] for a normal result, [Fault] for an access outside the objects the
    code was given (undefined behaviour in C), [NoFuel] when the bound on the
    number of loop iterations of the model was too small. *)

Inductive res (A : Type) : Type :=
  | Ok (a : A)
  | Fault
  | NoFuel.
Arguments Ok {A} a.
Arguments Fault {A}.
Arguments NoFuel {A}.

Definition rbind {A B} (x : res A) (f : A -> res B) : res B :=
  match x with
  | Ok a => f a
  | Fault => Fault
  | NoFuel => NoFuel
  end.

Notation "'let!' x := e 'in' k" := (rbind e (fun x => k))
  (at level 200, x name, e at level 100, k at level 200) : c_scope.
Notation "'let!' ' p := e 'in' k" := (rbind e (fun p => k))
  (at level 200, p strict pattern, e at level 100, k at level 200) : c_scope.

Lemma rbind_ext {A B} (r : res A) (f g : A -> res B) :
  (forall a, f a = g a) -> rbind r f = rbind r g.
Proof. intros H. destruct r; cbn; auto. Qed.

(** [for (i = i0; i < n; i += inc) body]. *)
Fixpoint for_loop {S} (fuel : nat) (i n inc : Z) (body : Z -> S -> res S) (s : S) : res S :=
  if i <? n then
    match fuel with
    | O => NoFuel
    | S fuel => let! s := body i s in for_loop fuel (i + inc) n inc body s
    end
  else Ok s.

(** A loop that keeps [P i s], where the body is safe, returns normally. *)
Lemma for_loop_inv {S} (P : Z -> S -> Prop) (n inc : Z) (body : Z -> S -> res S) :
  0 < inc ->
  (forall i s, i < n -> P i s -> exists s', body i s = Ok s' /\ P (i + inc) s') ->
  forall fuel i s, P i s -> n <= i + inc * Z.of_nat fuel ->
  exists s' j, for_loop fuel i n inc body s = Ok s' /\ P j s' /\ n <= j /\ (j < n + inc \/ j = i).
Proof.
  intros Hinc Hb. induction fuel as [|fuel IH]; intros i s HP Hf; cbn [for_loop].
  - destruct (Z.ltb_spec i n); [lia|]. exists s, i. auto with lia.
  - destruct (Z.ltb_spec i n) as [Hi|]; [|exists s, i; auto with lia].
    destruct (Hb i s Hi HP) as (s1 & -> & HP1). cbn [rbind].
    destruct (IH (i + inc) s1 HP1 ltac:(lia)) as (s2 & j & -> & ? & ? & ?).
    exists s2, j. split_and!; [done..|lia].
Qed.

(** ** Byte strings in memory *)

(** The [n] bytes at [a]. *)
Fixpoint bytes (m : mem) (a : Z) (n : nat) : list Z :=
  match n with
  | O => []
  | S n => ldb m a :: bytes m (a + 1) n
  end.

Lemma bytes_length m a n : length (bytes m a n) = n.
Proof. revert a. induction n as [|n IH]; intros a; simpl; [done|]. by rewrite IH. Qed.

Lemma bytes_app m a n k : bytes m a (n + k) = bytes m a n ++ bytes m (a + Z.of_nat n) k.
Proof.
  revert a. induction n as [|n IH]; intros a; [simpl; f_equal; lia|].
  cbn [Nat.add bytes app]. rewrite IH. do 3 f_equal. lia.
Qed.

Lemma bytes_snoc m a n : bytes m a (S n) = bytes m a n ++ [ldb m (a + Z.of_nat n)].
Proof. replace (S n) with (n + 1)%nat by lia. by rewrite bytes_app. Qed.

Lemma bytes_ext m m' a n :
  (forall k, 0 <= k < Z.of_nat n -> ldb m' (a + k) = ldb m (a + k)) -> bytes m' a n = bytes m a n.
Proof.
  revert a. induction n as [|n IH]; intros a H; [done|].
  cbn [bytes]. pose proof (H 0 ltac:(lia)) as H0. rewrite Z.add_0_r in H0. rewrite H0. f_equal.
  apply IH. intros k Hk. rewrite <- !Z.add_assoc. apply H. lia.
Qed.

Lemma bytes_copy m m' a b n :
  (forall k, 0 <= k < Z.of_nat n -> ldb m' (a + k) = ldb m (b + k)) -> bytes m' a n = bytes m b n.
Proof.
  revert a b. induction n as [|n IH]; intros a b H; [done|].
  cbn [bytes]. pose proof (H 0 ltac:(lia)) as H0. rewrite !Z.add_0_r in H0. rewrite H0. f_equal.
  apply IH. intros k Hk. rewrite <- !Z.add_assoc. apply H. lia.
Qed.

Lemma bytes_lookup m a n k : (k < n)%nat -> bytes m a n !! k = Some (ldb m (a + Z.of_nat k)).
Proof.
  revert a k. induction n as [|n IH]; intros a [|k] Hk; [lia..| |]; cbn [bytes lookup list_lookup].
  - do 2 f_equal. lia.
  - rewrite IH by lia. do 2 f_equal. lia.
Qed.

Lemma bytes_nth m a n k d : (k < n)%nat -> nth k (bytes m a n) d = ldb m (a + Z.of_nat k).
Proof. intros Hk. apply nth_lookup_Some, bytes_lookup, Hk. Qed.

Lemma bytes_take m a n k : (k <= n)%nat -> take k (bytes m a n) = bytes m a k.
Proof.
  intros Hk. replace n with (k + (n - k))%nat by lia. rewrite bytes_app.
  apply take_app_length'. symmetry. apply bytes_length.
Qed.

Lemma bytes_drop m a n k :
  (k <= n)%nat -> drop k (bytes m a n) = bytes m (a + Z.of_nat k) (n - k).
Proof.
  intros Hk. replace n with (k + (n - k))%nat at 1 by lia. rewrite bytes_app.
  apply drop_app_length'. symmetry. apply bytes_length.
Qed.

Lemma bytes_range m a n : Forall (fun x => 0 <= x < 256) (bytes m a n).
Proof. revert a. induction n; intros a; constructor; auto using ldb_range. Qed.

(** Wide stores of wide loads are byte copies. *)
Lemma ldb_stn n m a v x :
  ldb (stn n m a v) x =
  if (a <=? x) && (x <? a + Z.of_nat n) then u8 (v / 256 ^ (x - a)) else ldb m x.
Proof.
  revert m a v. induction n as [|n IH]; intros m a v; cbn [stn].
  - cmp_solve.
  - rewrite IH. unfold ldb at 1, stb.
    destruct (Z.eqb_spec x a) as [->|Hne].
    + rewrite Z.sub_diag, Z.div_1_r, wrap_wrap by lia. cmp_solve.
    + destruct (Z.leb_spec a x); [|cmp_solve].
      rewrite (proj2 (Z.leb_le (a + 1) x)) by lia.
      replace (x <? a + 1 + Z.of_nat n) with (x <? a + Z.of_nat (S n)) by cmp_solve.
      destruct (x <? a + Z.of_nat (S n)); [|done]. cbn [andb].
      rewrite Z.div_div by (try apply Z.pow_nonzero; lia). f_equal. f_equal.
      rewrite <- Z.pow_succ_r by lia. f_equal. lia.
Qed.

Lemma ldn_byte n m a k :
  0 <= k < Z.of_nat n -> u8 (ldn n m a / 256 ^ k) = ldb m (a + k).
Proof.
  revert a k. induction n as [|n IH]; intros a k Hk; [lia|]. cbn [ldn].
  pose proof (ldb_range m a). destruct (Z.eq_dec k 0) as [->|].
  - rewrite Z.div_1_r, Z.add_0_r. unfold wrap. rewrite Z.mul_comm, Z.mod_add by lia.
    by apply Z.mod_small.
  - replace k with (Z.succ (k - 1)) at 1 by lia. rewrite Z.pow_succ_r by lia.
    rewrite <- Z.div_div by (try apply Z.pow_pos_nonneg; lia).
    rewrite Z.mul_comm, Z.div_add, (Z.div_small (ldb m a)), Z.add_0_l by lia.
    rewrite IH by lia. f_equal. lia.
Qed.

Lemma ldb_stn_ldn n m a b x :
  ldb (stn n m a (ldn n m b)) x =
  if (a <=? x) && (x <? a + Z.of_nat n) then ldb m (x - a + b) else ldb m x.
Proof.
  rewrite ldb_stn. destruct (Z.leb_spec a x), (Z.ltb_spec x (a + Z.of_nat n)); cbn [andb]; try done.
  rewrite ldn_byte by lia. f_equal. lia.
Qed.

(** Distinct numbers below a bound are at most as many. *)
Lemma NoDup_range_length l n :
  NoDup l -> (forall x, x ∈ l -> 0 <= x < Z.of_nat n) -> (length l <= n)%nat.
Proof.
  intros Hnd Hr. rewrite <- (length_fmap Z.to_nat l).
  transitivity (length (seq 0 n)); [|by rewrite length_seq].
  apply NoDup_incl_length.
  - apply NoDup_ListNoDup. apply NoDup_fmap_2_strong; [|done].
    intros x y Hx Hy E. pose proof (Hr x Hx). pose proof (Hr y Hy). lia.
  - intros x Hx. apply list_elem_of_In, list_elem_of_fmap in Hx as (y & -> & Hy).
    specialize (Hr y Hy). apply in_seq. lia.
Qed.

(** Storing the bytes of [l]. *)
Fixpoint write_list (m : mem) (a : Z) (l : list Z) : mem :=
  match l with
  | [] => m
  | x :: l' => write_list (stb m a x) (a + 1) l'
  end.

Lemma write_list_other m a l x :
  x < a \/ a + Z.of_nat (length l) <= x -> write_list m a l x = m x.
Proof.
  revert m a. induction l as [|y l IH]; intros m a Hx; simpl in *; [done|].
  rewrite IH by lia. unfold stb. case_cmp; [lia|done].
Qed.

Lemma write_list_same m a l i y :
  l !! i = Some y -> write_list m a l (a + Z.of_nat i) = u8 y.
Proof.
  revert m a i. induction l as [|z l IH]; intros m a [|i] Hy; simpl in *; try done.
  - injection Hy as ->. rewrite write_list_other by lia. unfold stb. case_cmp; [done|lia].
  - rewrite <- (IH (stb m a z) (a + 1) i Hy). f_equal. lia.
Qed.

Lemma ldb_write_list m a l x :
  ldb (write_list m a l) x =
  match (if a <=? x then l !! Z.to_nat (x - a) else None) with
  | Some y => u8 y
  | None => ldb m x
  end.
Proof.
  unfold ldb. destruct (Z.leb_spec a x).
  - destruct (l !! Z.to_nat (x - a)) as [y|] eqn:E.
    + replace x with (a + Z.of_nat (Z.to_nat (x - a))) at 1 by lia.
      rewrite (write_list_same _ _ _ _ _ E). by apply wrap_wrap.
    + apply lookup_ge_None in E. by rewrite write_list_other by lia.
  - by rewrite write_list_other by lia.
Qed.

Lemma bytes_write_list m a l :
  Forall (fun c => 0 <= c < 256) l -> bytes (write_list m a l) a (length l) = l.
Proof.
  intros Hl. apply list_eq. intros i. destruct (decide (i < length l)%nat) as [Hi|Hi].
  - rewrite bytes_lookup by done. destruct (lookup_lt_is_Some_2 l i Hi) as [c Hc]. rewrite Hc. f_equal.
    unfold ldb. rewrite (write_list_same _ _ _ _ _ Hc). rewrite Forall_lookup in Hl. specialize (Hl i c Hc).
    by rewrite !u8_small by (rewrite ?u8_small; lia).
  - rewrite !(proj2 (lookup_ge_None _ _)); [done|lia|rewrite bytes_length; lia].
Qed.
