(* ===== verification/Umm.v ===== *)
(** * The static heap allocator of Lilu: umm_malloc/umm_malloc.c

    The heap is an array of 8-byte [umm_block]s.  A block in use or free starts
    at a block index; its header holds the index of the next and of the
    previous block, with bit 15 of the next index saying that the block is
    free.  Free blocks are also on a doubly linked circular list through block
    0, in the first four bytes of their body.  This file models the data
    layout and every function of the source; the well-formedness invariant and
    the correctness theorems are in UmmInv.v and UmmSpec.v. *)

From S2P Require Import Prelude.
From stdpp Require Import prelude.
Open Scope Z_scope.

(** ** Configuration and layout *)

(** Set in Lilu's build to 0x10000, with UMM_BEST_FIT. *)
Definition UMM_MALLOC_CFG_HEAP_SIZE : Z := 0x10000.
Definition sizeof_umm_block : Z := 8.
Definition sizeof_header : Z := 4.
Definition sizeof_body : Z := 4.

Definition UMM_FREELIST_MASK : Z := 0x8000.
Definition UMM_BLOCKNO_MASK : Z := 0x7FFF.

(** The globals [umm_heap] (NULL until [umm_init] ran) and [umm_numblocks],
    and the bytes of memory, addressed from the start of [default_umm_heap]. *)
Record umm := mk_umm {
  umm_heap_set : bool;
  umm_numblocks : Z;
  umm_mem : mem;
}.

Definition with_mem (h : umm) (m : mem) : umm :=
  mk_umm (umm_heap_set h) (umm_numblocks h) m.

(** The fields of [struct umm_block_t]: header.used.next, header.used.prev,
    body.free.next, body.free.prev, and the address of body.data. *)
Definition UMM_NBLOCK (m : mem) (b : Z) : Z := ld16 m (8 * b).
Definition UMM_PBLOCK (m : mem) (b : Z) : Z := ld16 m (8 * b + 2).
Definition UMM_NFREE (m : mem) (b : Z) : Z := ld16 m (8 * b + 4).
Definition UMM_PFREE (m : mem) (b : Z) : Z := ld16 m (8 * b + 6).
Definition UMM_DATA (b : Z) : Z := 8 * b + 4.

Definition set_NBLOCK (m : mem) (b v : Z) : mem := st16 m (8 * b) v.
Definition set_PBLOCK (m : mem) (b v : Z) : mem := st16 m (8 * b + 2) v.
Definition set_NFREE (m : mem) (b v : Z) : mem := st16 m (8 * b + 4) v.
Definition set_PFREE (m : mem) (b v : Z) : mem := st16 m (8 * b + 6) v.

(** A pointer is NULL or the address of a byte, relative to the heap. *)
Definition ptr := option Z.

(** ** Helpers *)

(** [size] is a [size_t]; the result is an [unsigned short]. *)
Definition umm_blocks (size : Z) : Z :=
  if size <=? sizeof_body then 1
  else
    let size := u64 (size - (1 + sizeof_body)) in
    u16 (2 + size / sizeof_umm_block).

Definition umm_split_block (m : mem) (c blocks new_freemask : Z) : mem :=
  let m := set_NBLOCK m (c + blocks) ((UMM_NBLOCK m c .& UMM_BLOCKNO_MASK) .| new_freemask) in
  let m := set_PBLOCK m (c + blocks) c in
  let m := set_PBLOCK m (UMM_NBLOCK m c .& UMM_BLOCKNO_MASK) (c + blocks) in
  set_NBLOCK m c (c + blocks).

Definition umm_disconnect_from_free_list (m : mem) (c : Z) : mem :=
  let m := set_NFREE m (UMM_PFREE m c) (UMM_NFREE m c) in
  let m := set_PFREE m (UMM_NFREE m c) (UMM_PFREE m c) in
  set_NBLOCK m c (UMM_NBLOCK m c .& Z.lnot UMM_FREELIST_MASK).

Definition umm_assimilate_up (m : mem) (c : Z) : mem :=
  if truth (UMM_NBLOCK m (UMM_NBLOCK m c) .& UMM_FREELIST_MASK) then
    let m := umm_disconnect_from_free_list m (UMM_NBLOCK m c) in
    let m := set_PBLOCK m (UMM_NBLOCK m (UMM_NBLOCK m c) .& UMM_BLOCKNO_MASK) c in
    set_NBLOCK m c (UMM_NBLOCK m (UMM_NBLOCK m c) .& UMM_BLOCKNO_MASK)
  else m.

(** Returns the new memory and [UMM_PBLOCK(c)]. *)
Definition umm_assimilate_down (m : mem) (c freemask : Z) : mem * Z :=
  let m := set_NBLOCK m (UMM_PBLOCK m c) (UMM_NBLOCK m c .| freemask) in
  let m := set_PBLOCK m (UMM_NBLOCK m c) (UMM_PBLOCK m c) in
  (m, UMM_PBLOCK m c).

(** ** The allocator's operations *)

Definition umm_init (h : umm) : umm :=
  let numblocks := u16 (UMM_MALLOC_CFG_HEAP_SIZE / sizeof_umm_block) in
  let m := mem_set (umm_mem h) 0 0x00 UMM_MALLOC_CFG_HEAP_SIZE in
  let block_0th := 0 in
  let block_1th := 1 in
  let block_last := u16 (numblocks - 1) in
  let m := set_NBLOCK m block_0th block_1th in
  let m := set_NFREE m block_0th block_1th in
  let m := set_PFREE m block_0th block_1th in
  let m := set_NBLOCK m block_1th (block_last .| UMM_FREELIST_MASK) in
  let m := set_NFREE m block_1th 0 in
  let m := set_PBLOCK m block_1th block_0th in
  let m := set_PFREE m block_1th block_0th in
  let m := set_NBLOCK m block_last 0 in
  let m := set_PBLOCK m block_last block_1th in
  mk_umm true numblocks m.

(** [c = (((char * )ptr)-(char * )(&(umm_heap[0])))/sizeof(umm_block)]: the
    division is unsigned, the result an [unsigned short]. *)
Definition block_of (p : Z) : Z := u16 (u64 p / sizeof_umm_block).

Definition umm_free_block (m : mem) (c : Z) : mem :=
  let m := umm_assimilate_up m c in
  if truth (UMM_NBLOCK m (UMM_PBLOCK m c) .& UMM_FREELIST_MASK) then
    (umm_assimilate_down m c UMM_FREELIST_MASK).1
  else
    let m := set_PFREE m (UMM_NFREE m 0) c in
    let m := set_NFREE m c (UMM_NFREE m 0) in
    let m := set_PFREE m c 0 in
    let m := set_NFREE m 0 c in
    set_NBLOCK m c (UMM_NBLOCK m c .| UMM_FREELIST_MASK).

Definition umm_free (h : umm) (p : ptr) : umm :=
  match p with
  | None => h
  | Some p => with_mem h (umm_free_block (umm_mem h) (block_of p))
  end.

(** The local variables of the search loop of [umm_malloc]. *)
Record search := mk_search {
  s_cf : Z; s_blockSize : Z; s_bestBlock : Z; s_bestSize : Z;
}.

(** One iteration of [while (cf)], best fit. *)
Definition search_step (m : mem) (blocks : Z) (s : search) : search :=
  let cf := s_cf s in
  let blockSize := u16 ((UMM_NBLOCK m cf .& UMM_BLOCKNO_MASK) - cf) in
  let best := (blocks <=? blockSize) && (blockSize <? s_bestSize s) in
  mk_search (UMM_NFREE m cf) blockSize
    (if best then cf else s_bestBlock s) (if best then blockSize else s_bestSize s).

(** The loop; [None] when [fuel] iterations were not enough. *)
Fixpoint search_loop (fuel : nat) (m : mem) (blocks : Z) (s : search) : option search :=
  if s_cf s =? 0 then Some s
  else match fuel with
       | O => None
       | S fuel => search_loop fuel m blocks (search_step m blocks s)
       end.

(** The part of [umm_malloc] after the search: the chosen block and its size. *)
Definition search_result (s : search) : Z * Z :=
  if negb (s_bestSize s =? 0x7FFF) then (s_bestBlock s, s_bestSize s)
  else (s_cf s, s_blockSize s).

Definition umm_take (m : mem) (cf blockSize blocks : Z) : mem :=
  if blockSize =? blocks then umm_disconnect_from_free_list m cf
  else
    let m := umm_split_block m cf blocks UMM_FREELIST_MASK in
    let m := set_NFREE m (UMM_PFREE m cf) (cf + blocks) in
    let m := set_PFREE m (cf + blocks) (UMM_PFREE m cf) in
    let m := set_PFREE m (UMM_NFREE m cf) (cf + blocks) in
    set_NFREE m (cf + blocks) (UMM_NFREE m cf).

(** [None]: the search loop does not end within one visit of every block. *)
Definition umm_malloc (h : umm) (size : Z) : option (umm * ptr) :=
  let h := if umm_heap_set h then h else umm_init h in
  if size =? 0 then Some (h, None)
  else
    let m := umm_mem h in
    let blocks := umm_blocks size in
    let s0 := mk_search (UMM_NFREE m 0) 0 (UMM_NFREE m 0) 0x7FFF in
    match search_loop (Z.to_nat (umm_numblocks h)) m blocks s0 with
    | None => None
    | Some s =>
        let '(cf, blockSize) := search_result s in
        if truth (UMM_NBLOCK m cf .& UMM_BLOCKNO_MASK) && (blocks <=? blockSize)
        then Some (with_mem h (umm_take m cf blockSize blocks), Some (UMM_DATA cf))
        else Some (h, None)
    end.

(** The last part of [umm_realloc]: give back what the block has too much. *)
Definition umm_realloc_trim (m : mem) (c blockSize blocks : Z) : mem :=
  if blocks <? blockSize then
    let m := umm_split_block m c blocks 0 in
    umm_free_block m (block_of (UMM_DATA (c + blocks)))
  else m.

Definition umm_realloc (h : umm) (p : ptr) (size : Z) : option (umm * ptr) :=
  let h := if umm_heap_set h then h else umm_init h in
  match p with
  | None => umm_malloc h size
  | Some p =>
    if size =? 0 then Some (umm_free h (Some p), None)
    else
      let m := umm_mem h in
      let blocks := umm_blocks size in
      let c := block_of p in
      let blockSize := u16 (UMM_NBLOCK m c - c) in
      let curSize := u64 (blockSize * sizeof_umm_block - sizeof_header) in
      let nextBlockSize :=
        if truth (UMM_NBLOCK m (UMM_NBLOCK m c) .& UMM_FREELIST_MASK)
        then u16 ((UMM_NBLOCK m (UMM_NBLOCK m c) .& UMM_BLOCKNO_MASK) - UMM_NBLOCK m c)
        else 0 in
      let prevBlockSize :=
        if truth (UMM_NBLOCK m (UMM_PBLOCK m c) .& UMM_FREELIST_MASK)
        then u16 (c - UMM_PBLOCK m c) else 0 in
      if blocks <=? blockSize then
        Some (with_mem h (umm_realloc_trim m c blockSize blocks), Some p)
      else if blocks <=? blockSize + nextBlockSize then
        let m := umm_assimilate_up m c in
        Some (with_mem h
          (umm_realloc_trim m c (u16 (blockSize + nextBlockSize)) blocks), Some p)
      else if blocks <=? prevBlockSize + blockSize then
        let m := umm_disconnect_from_free_list m (UMM_PBLOCK m c) in
        let '(m, c) := umm_assimilate_down m c 0 in
        let m := mem_move m (UMM_DATA c) p curSize in
        Some (with_mem h
          (umm_realloc_trim m c (u16 (blockSize + prevBlockSize)) blocks), Some (UMM_DATA c))
      else if blocks <=? prevBlockSize + blockSize + nextBlockSize then
        let m := umm_assimilate_up m c in
        let m := umm_disconnect_from_free_list m (UMM_PBLOCK m c) in
        let '(m, c) := umm_assimilate_down m c 0 in
        let m := mem_move m (UMM_DATA c) p curSize in
        Some (with_mem h
          (umm_realloc_trim m c (u16 (blockSize + (prevBlockSize + nextBlockSize))) blocks),
          Some (UMM_DATA c))
      else
        match umm_malloc h size with
        | None => None
        | Some (h, Some q) =>
            let h := with_mem h (mem_move (umm_mem h) q p curSize) in
            Some (umm_free h (Some p), Some q)
        | Some (h, None) => Some (h, None)
        end
  end.

Definition umm_calloc (h : umm) (num item_size : Z) : option (umm * ptr) :=
  match umm_malloc h (u64 (item_size * num)) with
  | None => None
  | Some (h, Some q) => Some (with_mem h (mem_set (umm_mem h) q 0x00 (u64 (item_size * num))), Some q)
  | Some (h, None) => Some (h, None)
  end.
