(* ===== verification/UmmInv.v ===== *)
(** * The heap invariant of umm_malloc

    [heap_inv N m bs fl]: the memory [m] represents the block list [bs] (every
    block of the heap from block 0 to the last one, in address order, with its
    free flag) and the free list [fl] (the free blocks in list order).  The
    lemmas of this file say how each primitive change the code makes (taking a
    block off the free list, putting one on it, merging two neighbours,
    splitting a block) moves from one represented heap to another, and which
    bytes it may touch. *)

From S2P Require Import Prelude Umm.
From stdpp Require Import prelude.
Open Scope Z_scope.

(** ** Reading a field after writing one *)

Ltac field_tac :=
  unfold UMM_NBLOCK, UMM_PBLOCK, UMM_NFREE, UMM_PFREE,
    set_NBLOCK, set_PBLOCK, set_NFREE, set_PFREE;
  match goal with
  | |- context [?x =? ?y] =>
      destruct (Z.eqb_spec x y) as [->|];
      [apply ld16_st16_same | apply ld16_st16_other; lia]
  | _ => apply ld16_st16_other; lia
  end.

Lemma NBLOCK_set_NBLOCK m b v x :
  UMM_NBLOCK (set_NBLOCK m b v) x = if x =? b then u16 v else UMM_NBLOCK m x.
Proof. field_tac. Qed.
Lemma NBLOCK_set_PBLOCK m b v x : UMM_NBLOCK (set_PBLOCK m b v) x = UMM_NBLOCK m x.
Proof. field_tac. Qed.
Lemma NBLOCK_set_NFREE m b v x : UMM_NBLOCK (set_NFREE m b v) x = UMM_NBLOCK m x.
Proof. field_tac. Qed.
Lemma NBLOCK_set_PFREE m b v x : UMM_NBLOCK (set_PFREE m b v) x = UMM_NBLOCK m x.
Proof. field_tac. Qed.
Lemma PBLOCK_set_NBLOCK m b v x : UMM_PBLOCK (set_NBLOCK m b v) x = UMM_PBLOCK m x.
Proof. field_tac. Qed.
Lemma PBLOCK_set_PBLOCK m b v x :
  UMM_PBLOCK (set_PBLOCK m b v) x = if x =? b then u16 v else UMM_PBLOCK m x.
Proof. field_tac. Qed.
Lemma PBLOCK_set_NFREE m b v x : UMM_PBLOCK (set_NFREE m b v) x = UMM_PBLOCK m x.
Proof. field_tac. Qed.
Lemma PBLOCK_set_PFREE m b v x : UMM_PBLOCK (set_PFREE m b v) x = UMM_PBLOCK m x.
Proof. field_tac. Qed.
Lemma NFREE_set_NBLOCK m b v x : UMM_NFREE (set_NBLOCK m b v) x = UMM_NFREE m x.
Proof. field_tac. Qed.
Lemma NFREE_set_PBLOCK m b v x : UMM_NFREE (set_PBLOCK m b v) x = UMM_NFREE m x.
Proof. field_tac. Qed.
Lemma NFREE_set_NFREE m b v x :
  UMM_NFREE (set_NFREE m b v) x = if x =? b then u16 v else UMM_NFREE m x.
Proof. field_tac. Qed.
Lemma NFREE_set_PFREE m b v x : UMM_NFREE (set_PFREE m b v) x = UMM_NFREE m x.
Proof. field_tac. Qed.
Lemma PFREE_set_NBLOCK m b v x : UMM_PFREE (set_NBLOCK m b v) x = UMM_PFREE m x.
Proof. field_tac. Qed.
Lemma PFREE_set_PBLOCK m b v x : UMM_PFREE (set_PBLOCK m b v) x = UMM_PFREE m x.
Proof. field_tac. Qed.
Lemma PFREE_set_NFREE m b v x : UMM_PFREE (set_NFREE m b v) x = UMM_PFREE m x.
Proof. field_tac. Qed.
Lemma PFREE_set_PFREE m b v x :
  UMM_PFREE (set_PFREE m b v) x = if x =? b then u16 v else UMM_PFREE m x.
Proof. field_tac. Qed.

#[export] Hint Rewrite NBLOCK_set_NBLOCK NBLOCK_set_PBLOCK NBLOCK_set_NFREE
  NBLOCK_set_PFREE PBLOCK_set_NBLOCK PBLOCK_set_PBLOCK PBLOCK_set_NFREE
  PBLOCK_set_PFREE NFREE_set_NBLOCK NFREE_set_PBLOCK NFREE_set_NFREE
  NFREE_set_PFREE PFREE_set_NBLOCK PFREE_set_PBLOCK PFREE_set_NFREE
  PFREE_set_PFREE : cmem.

Ltac fields := autorewrite with cmem.

(** The bytes of a block's header and of the free pointers in its body. *)
Definition in_header (b a : Z) : Prop := 8 * b <= a < 8 * b + 4.
Definition in_body (b a : Z) : Prop := 8 * b + 4 <= a < 8 * b + 8.

Ltac byte_tac :=
  unfold in_header, in_body, set_NBLOCK, set_PBLOCK, set_NFREE, set_PFREE, st16;
  intros; apply stn_other; lia.

Lemma set_NBLOCK_byte m b v a : ~ in_header b a -> set_NBLOCK m b v a = m a.
Proof. byte_tac. Qed.
Lemma set_PBLOCK_byte m b v a : ~ in_header b a -> set_PBLOCK m b v a = m a.
Proof. byte_tac. Qed.
Lemma set_NFREE_byte m b v a : ~ in_body b a -> set_NFREE m b v a = m a.
Proof. byte_tac. Qed.
Lemma set_PFREE_byte m b v a : ~ in_body b a -> set_PFREE m b v a = m a.
Proof. byte_tac. Qed.

Ltac bytes :=
  repeat first [ rewrite set_NBLOCK_byte by auto | rewrite set_PBLOCK_byte by auto
               | rewrite set_NFREE_byte by auto | rewrite set_PFREE_byte by auto ].

(** Values below 2^15 and the free flag in bit 15. *)
Definition small (i : Z) : Prop := 0 <= i < 0x8000.

Lemma blockno_of_next i (f : bool) :
  small i -> (i + (if f then 0x8000 else 0)) .& UMM_BLOCKNO_MASK = i.
Proof.
  unfold small, UMM_BLOCKNO_MASK. intros Hi.
  change 0x7FFF with (Z.ones 15). rewrite Z.land_ones by lia.
  change (2 ^ 15) with 32768. destruct f; zdm.
Qed.

Lemma freebit_of_next i (f : bool) :
  small i -> truth ((i + (if f then 0x8000 else 0)) .& UMM_FREELIST_MASK) = f.
Proof.
  unfold small, UMM_FREELIST_MASK. intros Hi. change 0x8000 with (2 ^ 15) at 2.
  rewrite truth_pow2_testbit by lia.
  assert (Z.testbit (i + (if f then 0x8000 else 0)) 15
          = Z.odd ((i + (if f then 0x8000 else 0)) / 2 ^ 15)) as ->.
  { rewrite <- Z.bit0_odd, Z.div_pow2_bits by lia. done. }
  change (2 ^ 15) with 32768.
  destruct f.
  - by replace ((i + 0x8000) / 32768) with 1 by zdm.
  - by replace ((i + 0) / 32768) with 0 by zdm.
Qed.

Lemma land_freemask i : small i -> i .& UMM_FREELIST_MASK = 0.
Proof.
  intros Hi. pose proof (freebit_of_next i false Hi) as Hf.
  unfold truth in Hf. rewrite Z.add_0_r in Hf.
  by destruct (Z.eqb_spec (i .& UMM_FREELIST_MASK) 0).
Qed.

Lemma lor_freemask i : small i -> i .| UMM_FREELIST_MASK = i + 0x8000.
Proof. intros Hi. symmetry. apply Z.add_nocarry_lor, land_freemask, Hi. Qed.

Lemma clear_freemask i (f : bool) :
  small i -> (i + (if f then 0x8000 else 0)) .& Z.lnot UMM_FREELIST_MASK = i.
Proof.
  intros Hi. pose proof (land_freemask i Hi) as H0.
  assert (i + (if f then 0x8000 else 0) = i .| (if f then UMM_FREELIST_MASK else 0)) as ->.
  { destruct f; [by rewrite lor_freemask|by rewrite Z.lor_0_r, Z.add_0_r]. }
  apply Z.bits_inj'. intros n Hn. apply (f_equal (fun z => Z.testbit z n)) in H0.
  rewrite Z.land_spec, Z.testbit_0_l in H0.
  rewrite Z.land_spec, Z.lnot_spec, Z.lor_spec by lia.
  destruct f; [|rewrite Z.testbit_0_l];
    destruct (Z.testbit i n), (Z.testbit UMM_FREELIST_MASK n); naive_solver.
Qed.

(** ** The represented heap *)

Record blk := Blk { idx : Z; isfree : bool }.

Definition used (x : blk) : blk := Blk (idx x) false.

(** The word in [header.used.next] of [x] when [y] follows it. *)
Definition next_word (x y : blk) : Z := idx y + (if isfree x then 0x8000 else 0).

(** Neighbours: the header words, the order, and that free blocks are merged. *)
Definition link (m : mem) (x y : blk) : Prop :=
  idx x < idx y /\ UMM_NBLOCK m (idx x) = next_word x y /\
  UMM_PBLOCK m (idx y) = idx x /\ isfree x && isfree y = false.

(** Neighbours of the free list. *)
Definition flink (m : mem) (a b : Z) : Prop := UMM_NFREE m a = b /\ UMM_PFREE m b = a.

Fixpoint free_idx (bs : list blk) : list Z :=
  match bs with
  | [] => []
  | x :: bs => if isfree x then idx x :: free_idx bs else free_idx bs
  end.

Record heap_inv (N : Z) (m : mem) (bs : list blk) (fl : list Z) : Prop := {
  hi_size : 2 < N <= 0x7FFF;
  hi_first : head bs = Some (Blk 0 false);
  hi_last : last bs = Some (Blk (N - 1) false);
  hi_end : UMM_NBLOCK m (N - 1) = 0;
  hi_links : adj (link m) bs;
  hi_flinks : adj (flink m) (0 :: fl ++ [0]);
  hi_free : fl ≡ₚ free_idx bs;
}.

(** ** Order of the block list *)

Definition before (x y : blk) : Prop := idx x < idx y.

Lemma adj_before_head x l y : adj before (x :: l) -> y ∈ l -> idx x < idx y.
Proof.
  revert x. induction l as [|z l IH]; intros x Hadj Hy; [by apply not_elem_of_nil in Hy|].
  apply adj_cons in Hadj as [Hxz Hadj]. unfold before in Hxz.
  apply elem_of_cons in Hy as [->|Hy]; [lia|]. specialize (IH z Hadj Hy). lia.
Qed.

Lemma adj_before_tail l x y : adj before (l ++ [x]) -> y ∈ l -> idx y < idx x.
Proof.
  induction l as [|z l IH]; intros Hadj Hy; [by apply not_elem_of_nil in Hy|].
  rewrite <- app_comm_cons in Hadj.
  apply elem_of_cons in Hy as [->|Hy].
  - eapply adj_before_head; [exact Hadj|]. set_solver.
  - apply IH; [|done]. destruct l; [done|]. by destruct Hadj.
Qed.

Lemma adj_links_before m l : adj (link m) l -> adj before l.
Proof. apply adj_impl. by intros x y [? _]. Qed.

Lemma free_idx_app l1 l2 : free_idx (l1 ++ l2) = free_idx l1 ++ free_idx l2.
Proof. induction l1 as [|x l1 IH]; [done|]. simpl. rewrite IH. by destruct (isfree x). Qed.

Lemma elem_of_free_idx i bs : i ∈ free_idx bs <-> Blk i true ∈ bs.
Proof.
  induction bs as [|[j f] bs IH]; simpl; [set_solver|].
  destruct f; simpl; rewrite ?elem_of_cons, IH; naive_solver.
Qed.

Lemma NoDup_free_idx bs : adj before bs -> NoDup (free_idx bs).
Proof.
  induction bs as [|x bs IH]; intros Hadj; simpl; [constructor|].
  assert (adj before bs) as Hadj' by (destruct bs; [done|by destruct Hadj]).
  destruct (isfree x); [|auto]. constructor; [|auto].
  rewrite elem_of_free_idx. intros Hin.
  pose proof (adj_before_head _ _ _ Hadj Hin). simpl in *. lia.
Qed.

(** Splitting the order at a block: everything left of it is below, everything
    right of it is above. *)
Lemma before_split l1 x l2 :
  adj before (l1 ++ x :: l2) ->
  (forall y, y ∈ l1 -> idx y < idx x) /\ (forall y, y ∈ l2 -> idx x < idx y).
Proof.
  intros H. apply adj_app in H as [H1 H2]. split; intros y Hy.
  - by eapply adj_before_tail.
  - by eapply adj_before_head.
Qed.

(** ** Links and flinks under a change of memory *)

Lemma links_left m m' l x :
  adj (link m) (l ++ [x]) ->
  (forall b, b < idx x -> UMM_NBLOCK m' b = UMM_NBLOCK m b) ->
  (forall b, b <= idx x -> UMM_PBLOCK m' b = UMM_PBLOCK m b) ->
  adj (link m') (l ++ [x]).
Proof.
  intros Hadj HN HP. pose proof (adj_links_before _ _ Hadj) as Hord.
  assert (forall y, y ∈ l -> idx y < idx x) as Hlt by (intros; by eapply adj_before_tail).
  clear Hord. induction l as [|y l IH]; [done|].
  destruct l as [|z l].
  - destruct Hadj as [(?&HNy&?&?) _]. split; [|done]. unfold link. rewrite HN, HP; auto with lia.
  - destruct Hadj as [(?&HNy&?&?) Hadj].
    split; [|apply IH; auto; set_solver]. unfold link.
    assert (idx y < idx x) by (apply Hlt; set_solver).
    assert (idx z < idx x) by (apply Hlt; set_solver).
    rewrite HN, HP by lia. auto.
Qed.

Lemma links_right m m' x l :
  adj (link m) (x :: l) ->
  (forall b, idx x <= b -> UMM_NBLOCK m' b = UMM_NBLOCK m b) ->
  (forall b, idx x < b -> UMM_PBLOCK m' b = UMM_PBLOCK m b) ->
  adj (link m') (x :: l).
Proof.
  revert x. induction l as [|y l IH]; intros x Hadj HN HP; [done|].
  destruct Hadj as [(?&HNx&?&?) Hadj]. split.
  - unfold link. rewrite HN, HP by lia. auto.
  - apply IH; auto with lia.
Qed.

Lemma flinks_frame m m' x l :
  adj (flink m) (x :: l) ->
  (forall b, b ∈ removelast (x :: l) -> UMM_NFREE m' b = UMM_NFREE m b) ->
  (forall b, b ∈ l -> UMM_PFREE m' b = UMM_PFREE m b) ->
  adj (flink m') (x :: l).
Proof.
  revert x. induction l as [|y l IH]; intros x Hadj HN HP; [done|].
  destruct Hadj as [[Hx Hy] Hadj]. split.
  - unfold flink. rewrite HN, HP; set_solver.
  - apply IH; auto.
    + intros b Hb. apply HN. simpl. set_solver.
    + intros b Hb. apply HP. set_solver.
Qed.

(** ** The circular free list

    [0 :: F1 ++ F2 ++ [0]] cut between [F1] and [F2]: [a] is the block before
    the cut and [b] the one after it. *)

Lemma cons_snoc {A} (x : A) l : exists g a, x :: l = g ++ [a].
Proof.
  revert x. induction l as [|y l IH]; intros x; [by exists [], x|].
  destruct (IH y) as (g & a & ->). by exists (x :: g), a.
Qed.

Lemma snoc_cons {A} l (x : A) : exists b h, l ++ [x] = b :: h.
Proof. destruct l as [|y l]; [by exists x, []|by exists y, (l ++ [x])]. Qed.

Section relink.
Context (m m' : mem) (F1 F2 G H : list Z) (a b : Z).
Context (HF1 : 0 :: F1 = G ++ [a]) (HF2 : F2 ++ [0] = b :: H).
Context (Hnd : NoDup (0 :: F1 ++ F2)).
Context (HNF : forall x, x ∈ 0 :: F1 ++ F2 -> x <> a -> UMM_NFREE m' x = UMM_NFREE m x).
Context (HPF : forall x, x ∈ 0 :: F1 ++ F2 -> x <> b -> UMM_PFREE m' x = UMM_PFREE m x).

Lemma cut_left_in : a ∈ 0 :: F1.
Proof using HF1. clear - HF1. rewrite HF1. set_solver. Qed.
Lemma cut_right_in : b ∈ 0 :: F2.
Proof using HF2. clear - HF2. assert (b ∈ F2 ++ [0]) by (rewrite HF2; set_solver). set_solver. Qed.

Lemma relink_left : adj (flink m) (0 :: F1) -> adj (flink m') (0 :: F1).
Proof using HF1 HF2 Hnd HNF HPF.
  rewrite app_comm_cons in Hnd. pose proof cut_right_in.
  apply NoDup_app in Hnd as (Hn1 & Hdis & Hn2).
  intros Hadj. eapply flinks_frame; [exact Hadj| |].
  - rewrite HF1, removelast_last. intros x Hx. apply HNF.
    + rewrite app_comm_cons, HF1. set_solver.
    + intros ->. rewrite HF1 in Hn1. apply NoDup_app in Hn1. set_solver.
  - intros x Hx. apply HPF; [set_solver|]. intros ->.
    apply NoDup_cons in Hn1. set_solver.
Qed.

Lemma relink_right : adj (flink m) (F2 ++ [0]) -> adj (flink m') (F2 ++ [0]).
Proof using HF1 HF2 Hnd HNF HPF.
  pose proof cut_left_in as Hin. rewrite HF2. intros Hadj.
  rewrite app_comm_cons in Hnd.
  apply NoDup_app in Hnd as (Hn1 & Hdis & Hn2).
  assert (0 ∉ F2) as H0 by set_solver.
  eapply flinks_frame; [exact Hadj| |].
  - rewrite <- HF2, removelast_last. intros x Hx. apply HNF; [set_solver|].
    intros ->. set_solver.
  - intros x Hx.
    assert (NoDup (b :: H)) as Hnb.
    { rewrite <- HF2. apply NoDup_app. split; [done|]. split; [set_solver|].
      apply NoDup_singleton. }
    apply NoDup_cons in Hnb as [Hb _].
    assert (x ∈ F2 ++ [0]) by (rewrite HF2; set_solver).
    apply HPF; set_solver.
Qed.

Lemma relink_adj mid :
  adj (flink m) (0 :: F1) -> adj (flink m) (F2 ++ [0]) ->
  adj (flink m') (a :: mid ++ [b]) -> adj (flink m') (0 :: (F1 ++ mid ++ F2) ++ [0]).
Proof using HF1 HF2 Hnd HNF HPF.
  intros Hl%relink_left Hr%relink_right Hmid.
  assert (0 :: (F1 ++ mid ++ F2) ++ [0] = G ++ a :: mid ++ b :: H) as ->.
  { rewrite <- HF2, <- !app_assoc, app_comm_cons, HF1, <- app_assoc. done. }
  rewrite HF1 in Hl. rewrite HF2 in Hr.
  apply adj_app. split; [done|].
  rewrite app_comm_cons. apply adj_app. by split.
Qed.
End relink.

(** The list around one of its members. *)
Lemma flinks_around m F1 c F2 :
  adj (flink m) (0 :: (F1 ++ c :: F2) ++ [0]) ->
  adj (flink m) (0 :: F1) /\ adj (flink m) (F2 ++ [0]) /\
  exists G H, 0 :: F1 = G ++ [UMM_PFREE m c] /\ F2 ++ [0] = UMM_NFREE m c :: H.
Proof.
  destruct (cons_snoc 0 F1) as (G & a & EG), (snoc_cons F2 0) as (b & H & EH).
  rewrite <- app_assoc, app_comm_cons, EG. simpl. rewrite EH.
  rewrite <- app_assoc. simpl. intros Hadj.
  apply adj_app in Hadj as [H1 Hadj].
  destruct Hadj as [[_ Ea] [[Eb _] H2]]. split; [done|]. split; [done|].
  exists G, H. by rewrite Ea, Eb.
Qed.

Lemma flinks_remove m m' F1 c F2 :
  NoDup (0 :: F1 ++ c :: F2) ->
  adj (flink m) (0 :: (F1 ++ c :: F2) ++ [0]) ->
  (forall x, UMM_NFREE m' x = if x =? UMM_PFREE m c then UMM_NFREE m c else UMM_NFREE m x) ->
  (forall x, UMM_PFREE m' x = if x =? UMM_NFREE m c then UMM_PFREE m c else UMM_PFREE m x) ->
  adj (flink m') (0 :: (F1 ++ F2) ++ [0]).
Proof.
  intros Hnd (H1 & H2 & G & H & EG & EH)%flinks_around HNF HPF.
  apply (relink_adj m m' F1 F2 G H _ _ EG EH) with (mid := []); auto.
  - rewrite NoDup_cons, NoDup_app, NoDup_cons in *. set_solver.
  - intros x _ Hx. rewrite HNF. case_cmp; congruence.
  - intros x _ Hx. rewrite HPF. case_cmp; congruence.
  - simpl. split; [|done]. split; [rewrite HNF|rewrite HPF]; case_cmp; congruence.
Qed.

Lemma flinks_push m m' fl c :
  NoDup (0 :: fl) -> c ∉ 0 :: fl ->
  adj (flink m) (0 :: fl ++ [0]) ->
  (forall x, UMM_NFREE m' x = if x =? 0 then c else if x =? c then UMM_NFREE m 0 else UMM_NFREE m x) ->
  (forall x, UMM_PFREE m' x = if x =? c then 0 else if x =? UMM_NFREE m 0 then c else UMM_PFREE m x) ->
  adj (flink m') (0 :: (c :: fl) ++ [0]).
Proof.
  intros Hnd Hc Hadj HNF HPF. destruct (snoc_cons fl 0) as (b & H & EH).
  assert (b = UMM_NFREE m 0) as ->.
  { rewrite EH in Hadj. destruct Hadj as [[<- _] _]. done. }
  assert (c <> 0 /\ c <> UMM_NFREE m 0) as [Hc0 Hcb].
  { assert (UMM_NFREE m 0 ∈ fl ++ [0]) by (rewrite EH; set_solver). set_solver. }
  apply (relink_adj m m' [] fl [] H 0 (UMM_NFREE m 0)) with (mid := [c]); auto.
  - intros x Hx Hx0. rewrite HNF. cmp_solve; set_solver.
  - intros x Hx Hx0. rewrite HPF. cmp_solve; set_solver.
  - done.
  - rewrite EH in *. by destruct Hadj.
  - simpl. unfold flink. rewrite !HNF, !HPF. cmp_solve; congruence.
Qed.

Lemma flinks_replace m m' F1 c c' F2 :
  NoDup (0 :: F1 ++ c :: F2) -> c' ∉ 0 :: F1 ++ c :: F2 ->
  adj (flink m) (0 :: (F1 ++ c :: F2) ++ [0]) ->
  (forall x, UMM_NFREE m' x = if x =? c' then UMM_NFREE m c
    else if x =? UMM_PFREE m c then c' else UMM_NFREE m x) ->
  (forall x, UMM_PFREE m' x = if x =? UMM_NFREE m c then c'
    else if x =? c' then UMM_PFREE m c else UMM_PFREE m x) ->
  adj (flink m') (0 :: (F1 ++ c' :: F2) ++ [0]).
Proof.
  intros Hnd Hc' (H1 & H2 & G & H & EG & EH)%flinks_around HNF HPF.
  pose proof (cut_left_in _ _ _ EG). pose proof (cut_right_in _ _ _ EH).
  apply (relink_adj m m' F1 F2 G H _ _ EG EH) with (mid := [c']); auto.
  - rewrite NoDup_cons, NoDup_app, NoDup_cons in *. set_solver.
  - intros x Hx Hxa. rewrite HNF. cmp_solve; set_solver.
  - intros x Hx Hxb. rewrite HPF. cmp_solve; set_solver.
  - simpl. unfold flink. rewrite !HNF, !HPF.
    assert (c' <> UMM_PFREE m c /\ c' <> UMM_NFREE m c) by set_solver.
    cmp_solve; congruence.
Qed.

(** ** Cutting the block list around a block *)

Lemma links_mid2 m L1 x q L2 :
  adj (link m) (L1 ++ x :: q :: L2) <->
  adj (link m) (L1 ++ [x]) /\ link m x q /\ adj (link m) (q :: L2).
Proof. rewrite adj_app, adj_cons. done. Qed.

Lemma links_mid3 m L1 p c q L2 :
  adj (link m) (L1 ++ p :: c :: q :: L2) <->
  adj (link m) (L1 ++ [p]) /\ link m p c /\ link m c q /\ adj (link m) (q :: L2).
Proof. rewrite adj_app, !adj_cons. done. Qed.

Lemma head_mid {A} (L1 : list A) p L2 : head (L1 ++ p :: L2) = head (L1 ++ [p]).
Proof. by destruct L1. Qed.

Lemma last_mid {A} (L1 : list A) q L2 : last (L1 ++ q :: L2) = last (q :: L2).
Proof. apply last_app_cons. Qed.

Lemma free_mid L1 p l : free_idx (L1 ++ p :: l) = free_idx (L1 ++ [p]) ++ free_idx l.
Proof. by rewrite cons_middle, app_assoc, free_idx_app. Qed.

Lemma perm_replace {A} (l1 l2 l3 l4 : list A) x y :
  l1 ++ x :: l2 ≡ₚ l3 ++ x :: l4 -> l1 ++ y :: l2 ≡ₚ l3 ++ y :: l4.
Proof. intros H%Permutation_app_inv. by rewrite <- !Permutation_middle, H. Qed.

Section inv_facts.
Context {N m bs fl} (Hinv : heap_inv N m bs fl).

Lemma inv_before : adj before bs.
Proof using Hinv. eapply adj_links_before, hi_links, Hinv. Qed.

Lemma inv_range x : x ∈ bs -> 0 <= idx x <= N - 1.
Proof using Hinv.
  intros Hx. pose proof inv_before as Hb.
  pose proof (hi_first _ _ _ _ Hinv) as H1. pose proof (hi_last _ _ _ _ Hinv) as H2.
  destruct bs as [|z l]; [done|]. injection H1 as ->. split.
  - apply elem_of_cons in Hx as [->|Hx]; [done|].
    pose proof (adj_before_head _ _ _ Hb Hx). simpl in *. lia.
  - destruct (cons_snoc (Blk 0 false) l) as (g & a & E). rewrite E in *.
    rewrite last_snoc in H2. simplify_eq.
    apply elem_of_app in Hx as [Hx|Hx%list_elem_of_singleton]; [|subst; simpl; lia].
    pose proof (adj_before_tail _ _ _ Hb Hx). simpl in *. lia.
Qed.

Lemma inv_small x : x ∈ bs -> small (idx x).
Proof using Hinv.
  intros Hx%inv_range. pose proof (hi_size _ _ _ _ Hinv). unfold small. lia.
Qed.

Lemma inv_unique x y : x ∈ bs -> y ∈ bs -> idx x = idx y -> x = y.
Proof using Hinv.
  pose proof inv_before as Hb. clear Hinv. induction bs as [|z l IH]; [by intros ?%not_elem_of_nil|].
  assert (adj before l) by (destruct l; [done|by destruct Hb]).
  intros Hx%elem_of_cons Hy%elem_of_cons Hxy.
  destruct Hx as [->|Hx], Hy as [->|Hy]; [done| | |auto].
  - pose proof (adj_before_head _ _ _ Hb Hy). lia.
  - pose proof (adj_before_head _ _ _ Hb Hx). lia.
Qed.

Lemma inv_fl_elem i : i ∈ fl <-> Blk i true ∈ bs.
Proof using Hinv. by rewrite (hi_free _ _ _ _ Hinv), elem_of_free_idx. Qed.

Lemma inv_zero : Blk 0 false ∈ bs.
Proof using Hinv.
  pose proof (hi_first _ _ _ _ Hinv) as H1. destruct bs; simplify_eq/=. set_solver.
Qed.

Lemma inv_end : Blk (N - 1) false ∈ bs.
Proof using Hinv. apply last_Some_elem_of, (hi_last _ _ _ _ Hinv). Qed.

Lemma inv_fl_range i : i ∈ fl -> 0 < i < N - 1.
Proof using Hinv.
  intros Hi%inv_fl_elem. pose proof (inv_range _ Hi) as Hr. simpl in Hr.
  assert (i <> 0); [|assert (i <> N - 1); [|lia]]; intros ->.
  - by pose proof (inv_unique _ _ Hi inv_zero eq_refl).
  - by pose proof (inv_unique _ _ Hi inv_end eq_refl).
Qed.

Lemma inv_fl_NoDup : NoDup (0 :: fl).
Proof using Hinv.
  constructor; [intros H%inv_fl_range; lia|].
  rewrite (hi_free _ _ _ _ Hinv). apply NoDup_free_idx, inv_before.
Qed.

(** A block other than the first and the last one has two neighbours. *)
Lemma inv_neighbours x :
  x ∈ bs -> 0 < idx x < N - 1 -> exists L1 p q L2, bs = L1 ++ p :: x :: q :: L2.
Proof using Hinv.
  intros Hx Hr. pose proof (hi_first _ _ _ _ Hinv) as H1. pose proof (hi_last _ _ _ _ Hinv) as H2.
  apply list_elem_of_split in Hx as (l1 & l2 & ->).
  destruct l2 as [|q L2]; [rewrite last_snoc in H2; simplify_eq/=; lia|].
  destruct l1 as [|z l1]; [simplify_eq/=; lia|].
  destruct (cons_snoc z l1) as (g & p & ->). exists g, p, q, L2. by rewrite <- app_assoc.
Qed.

Lemma inv_free_neighbours i :
  i ∈ fl -> exists L1 p q L2, bs = L1 ++ p :: Blk i true :: q :: L2.
Proof using Hinv.
  intros Hi. apply inv_neighbours; [by apply inv_fl_elem|]. by apply inv_fl_range.
Qed.
End inv_facts.

(** [meta bs fl a]: the byte at [a] belongs to the allocator, in the header of
    a block or in the free pointers of block 0 or of a free block. *)
Definition meta (bs : list blk) (fl : list Z) (a : Z) : Prop :=
  (exists x, x ∈ bs /\ in_header (idx x) a) \/ (exists i, i ∈ 0 :: fl /\ in_body i a).

Lemma not_meta_header bs fl a x : ~ meta bs fl a -> x ∈ bs -> ~ in_header (idx x) a.
Proof. unfold meta. naive_solver. Qed.
Lemma not_meta_body bs fl a i : ~ meta bs fl a -> i ∈ 0 :: fl -> ~ in_body i a.
Proof. unfold meta. naive_solver. Qed.

(** ** The primitive changes of the heap *)

Lemma u16_ld16 m a : u16 (ld16 m a) = ld16 m a.
Proof. apply u16_small, ld16_range. Qed.
Lemma u16_NFREE m b : u16 (UMM_NFREE m b) = UMM_NFREE m b.
Proof. apply u16_ld16. Qed.
Lemma u16_PFREE m b : u16 (UMM_PFREE m b) = UMM_PFREE m b.
Proof. apply u16_ld16. Qed.
Lemma u16_PBLOCK m b : u16 (UMM_PBLOCK m b) = UMM_PBLOCK m b.
Proof. apply u16_ld16. Qed.
#[export] Hint Rewrite u16_NFREE u16_PFREE u16_PBLOCK : cmem.

Lemma u16_of_small i : small i -> u16 i = i.
Proof. unfold small. intros. apply u16_small. lia. Qed.

Lemma u16_next i (f : bool) :
  small i -> u16 (i + (if f then 0x8000 else 0)) = i + (if f then 0x8000 else 0).
Proof. unfold small. intros. apply u16_small. destruct f; lia. Qed.

(** Reading the header words of neighbours. *)
Section link_words.
Context {m x y} (Hl : link m x y) (Hy : small (idx y)).

Lemma link_blockno : UMM_NBLOCK m (idx x) .& UMM_BLOCKNO_MASK = idx y.
Proof using Hl Hy. destruct Hl as (_ & -> & _). by apply blockno_of_next. Qed.
Lemma link_freebit : truth (UMM_NBLOCK m (idx x) .& UMM_FREELIST_MASK) = isfree x.
Proof using Hl Hy. destruct Hl as (_ & -> & _). by apply freebit_of_next. Qed.
Lemma link_cleared : UMM_NBLOCK m (idx x) .& Z.lnot UMM_FREELIST_MASK = idx y.
Proof using Hl Hy. destruct Hl as (_ & -> & _). by apply clear_freemask. Qed.
Lemma link_prev : UMM_PBLOCK m (idx y) = idx x.
Proof using Hl. by destruct Hl as (_ & _ & -> & _). Qed.
Lemma link_used : isfree x = false -> UMM_NBLOCK m (idx x) = idx y.
Proof using Hl. destruct Hl as (_ & -> & _). unfold next_word. intros ->. lia. Qed.
End link_words.

(** Rebuilding the invariant after a change around a block: the parts left of
    [p] and right of [q] are carried over. *)
Lemma heap_inv_mid N m m' L1 p X q L2 fl Y fl' :
  heap_inv N m (L1 ++ p :: X ++ q :: L2) fl ->
  (forall b, b < idx p \/ idx q <= b -> UMM_NBLOCK m' b = UMM_NBLOCK m b) ->
  (forall b, b <= idx p \/ idx q < b -> UMM_PBLOCK m' b = UMM_PBLOCK m b) ->
  adj (link m') (p :: Y ++ [q]) ->
  adj (flink m') (0 :: fl' ++ [0]) ->
  fl' ≡ₚ free_idx (L1 ++ p :: Y ++ q :: L2) ->
  heap_inv N m' (L1 ++ p :: Y ++ q :: L2) fl'.
Proof.
  intros Hinv HN HP Hmid Hfl Hperm.
  assert (q ∈ L1 ++ p :: X ++ q :: L2) as Hq by set_solver.
  pose proof (inv_range Hinv _ Hq). pose proof (hi_links _ _ _ _ Hinv) as Hl.
  apply adj_app in Hl as [Hl1 Hl2].
  rewrite app_comm_cons in Hl2. apply adj_app in Hl2 as [_ Hl2].
  constructor.
  - apply Hinv.
  - pose proof (hi_first _ _ _ _ Hinv) as H1. by rewrite head_mid in *.
  - pose proof (hi_last _ _ _ _ Hinv) as H1.
    rewrite app_comm_cons, app_assoc, last_mid in *. done.
  - rewrite HN by lia. apply Hinv.
  - apply adj_app. split; [eapply links_left; eauto|].
    rewrite app_comm_cons. apply adj_app. split; [done|]. eapply links_right; eauto.
  - done.
  - done.
Qed.

Lemma disconnect_fields m i :
  let m' := umm_disconnect_from_free_list m i in
  (forall x, UMM_NBLOCK m' x =
     if x =? i then u16 (UMM_NBLOCK m i .& Z.lnot UMM_FREELIST_MASK) else UMM_NBLOCK m x) /\
  (forall x, UMM_PBLOCK m' x = UMM_PBLOCK m x) /\
  (forall x, UMM_NFREE m' x = if x =? UMM_PFREE m i then UMM_NFREE m i else UMM_NFREE m x) /\
  (forall x, UMM_PFREE m' x = if x =? UMM_NFREE m i then UMM_PFREE m i else UMM_PFREE m x).
Proof.
  unfold umm_disconnect_from_free_list. repeat split; intros x; fields; try done.
  by destruct (i =? UMM_PFREE m i).
Qed.

(** [umm_disconnect_from_free_list]: a free block becomes a used one. *)
Lemma disconnect_inv N m L1 p i q L2 F1 F2 :
  heap_inv N m (L1 ++ p :: Blk i true :: q :: L2) (F1 ++ i :: F2) ->
  heap_inv N (umm_disconnect_from_free_list m i)
    (L1 ++ p :: Blk i false :: q :: L2) (F1 ++ F2).
Proof.
  intros Hinv. pose proof (hi_links _ _ _ _ Hinv) as Hl.
  apply links_mid3 in Hl as (_ & Hp & Hq & _).
  assert (small (idx q)) as Hsq by (apply (inv_small Hinv); set_solver).
  destruct (disconnect_fields m i) as (HN & HP & HNF & HPF).
  destruct Hp as (Hpi & ?&?&?), Hq as (Hiq & HNi & HPq & _). simpl in *.
  apply (heap_inv_mid N m _ L1 p [Blk i true] q L2 _ [Blk i false] _ Hinv).
  - intros b Hb. rewrite HN. case_cmp; [lia|done].
  - intros b Hb. by rewrite HP.
  - simpl. unfold link, next_word in *. simpl in *. rewrite !HN, !HP.
    rewrite HNi, (clear_freemask (idx q) true), u16_of_small by done.
    rewrite andb_false_r. cmp_solve.
  - by apply (flinks_remove m _ F1 i F2 (inv_fl_NoDup Hinv) (hi_flinks _ _ _ _ Hinv)).
  - pose proof (hi_free _ _ _ _ Hinv) as Hf.
    rewrite free_mid in Hf |- *. by apply Permutation_app_inv in Hf.
Qed.

(** The tail of [umm_free]: a used block between used blocks is put at the head
    of the free list. *)
Definition free_push (m : mem) (c : Z) : mem :=
  let m := set_PFREE m (UMM_NFREE m 0) c in
  let m := set_NFREE m c (UMM_NFREE m 0) in
  let m := set_PFREE m c 0 in
  let m := set_NFREE m 0 c in
  set_NBLOCK m c (UMM_NBLOCK m c .| UMM_FREELIST_MASK).

Lemma push_inv N m L1 p c q L2 fl :
  heap_inv N m (L1 ++ p :: Blk c false :: q :: L2) fl ->
  isfree p = false -> isfree q = false ->
  heap_inv N (free_push m c) (L1 ++ p :: Blk c true :: q :: L2) (c :: fl).
Proof.
  intros Hinv Hfp Hfq. pose proof (hi_links _ _ _ _ Hinv) as Hl.
  apply links_mid3 in Hl as (_ & Hp & Hq & _).
  assert (Blk c false ∈ L1 ++ p :: Blk c false :: q :: L2) as Hc by set_solver.
  assert (small (idx q)) as Hsq by (apply (inv_small Hinv); set_solver).
  pose proof (inv_small Hinv _ Hc) as Hsc.
  assert (0 < c) as Hc0.
  { destruct Hp as [Hp _]. pose proof (inv_range Hinv p ltac:(set_solver)). simpl in *. lia. }
  assert (c ∉ 0 :: fl) as Hcfl.
  { intros [->|Hin]%elem_of_cons; [lia|]. apply (inv_fl_elem Hinv) in Hin.
    by pose proof (inv_unique Hinv _ _ Hin Hc eq_refl). }
  destruct Hp as (Hpi & ?&?&?), Hq as (Hiq & HNi & HPq & _). simpl in *.
  unfold next_word in *; simpl in *. rewrite Z.add_0_r in HNi.
  apply (heap_inv_mid N m _ L1 p [Blk c false] q L2 _ [Blk c true] _ Hinv).
  - intros b Hb. unfold free_push. fields. case_cmp; [lia|done].
  - intros b Hb. unfold free_push. by fields.
  - simpl. unfold link, next_word, free_push. simpl. fields.
    rewrite HNi, lor_freemask, (u16_next _ true), Hfp, Hfq by done. rewrite Hfp in *. cmp_solve.
  - apply (flinks_push m); [apply (inv_fl_NoDup Hinv)|done|apply Hinv| |];
      intros x; unfold free_push; fields; by rewrite (u16_of_small c Hsc).
  - rewrite (hi_free _ _ _ _ Hinv), (free_mid _ p (_ :: q :: _)), (free_mid _ p (_ ++ _)).
    apply Permutation_middle.
Qed.

(** Merging a used block [y] into the block [x] before it. *)
Lemma merge_inv N m m' L1 x y q L2 fl :
  heap_inv N m (L1 ++ x :: y :: q :: L2) fl ->
  isfree y = false -> isfree x && isfree q = false ->
  (forall b, UMM_NBLOCK m' b = if b =? idx x then next_word x q else UMM_NBLOCK m b) ->
  (forall b, UMM_PBLOCK m' b = if b =? idx q then idx x else UMM_PBLOCK m b) ->
  (forall b, UMM_NFREE m' b = UMM_NFREE m b) ->
  (forall b, UMM_PFREE m' b = UMM_PFREE m b) ->
  heap_inv N m' (L1 ++ x :: q :: L2) fl.
Proof.
  intros Hinv Hy Hxq HN HP HNF HPF. pose proof (hi_links _ _ _ _ Hinv) as Hl.
  apply links_mid3 in Hl as (_ & Hp & Hq & _).
  destruct Hp as (Hxy & _), Hq as (Hyq & _).
  apply (heap_inv_mid N m m' L1 x [y] q L2 fl [] fl Hinv).
  - intros b Hb. rewrite HN. case_cmp; [lia|done].
  - intros b Hb. rewrite HP. case_cmp; [lia|done].
  - simpl. split; [|done]. unfold link. rewrite HN, HP, !Z.eqb_refl.
    repeat split; auto; lia.
  - eapply flinks_frame; [apply Hinv|auto|auto].
  - rewrite (hi_free _ _ _ _ Hinv). simpl. rewrite !free_idx_app. simpl. by rewrite Hy.
Qed.

(** Splitting a used block into two used blocks. *)
Lemma split_used_inv N m m' L1 c k q L2 fl :
  heap_inv N m (L1 ++ Blk c false :: q :: L2) fl ->
  0 < k -> c + k < idx q ->
  (forall b, UMM_NBLOCK m' b = if b =? c then c + k else if b =? c + k then idx q else UMM_NBLOCK m b) ->
  (forall b, UMM_PBLOCK m' b = if b =? idx q then c + k else if b =? c + k then c else UMM_PBLOCK m b) ->
  (forall b, UMM_NFREE m' b = UMM_NFREE m b) ->
  (forall b, UMM_PFREE m' b = UMM_PFREE m b) ->
  heap_inv N m' (L1 ++ Blk c false :: Blk (c + k) false :: q :: L2) fl.
Proof.
  intros Hinv Hk Hkq HN HP HNF HPF.
  apply (heap_inv_mid N m m' L1 (Blk c false) [] q L2 fl [Blk (c + k) false] fl Hinv); simpl.
  - intros b Hb. rewrite HN. cmp_solve.
  - intros b Hb. rewrite HP. cmp_solve.
  - unfold link, next_word. simpl. rewrite !HN, !HP. cmp_solve. 
  - eapply flinks_frame; [apply Hinv|auto|auto].
  - rewrite (hi_free _ _ _ _ Hinv). rewrite !free_idx_app. done.
Qed.

(** Splitting a free block: the first part becomes used, the rest takes its
    place on the free list. *)
Lemma split_free_inv N m m' L1 p c k q L2 F1 F2 :
  heap_inv N m (L1 ++ p :: Blk c true :: q :: L2) (F1 ++ c :: F2) ->
  0 < k -> c + k < idx q ->
  (forall b, UMM_NBLOCK m' b = if b =? c then c + k
     else if b =? c + k then idx q + 0x8000 else UMM_NBLOCK m b) ->
  (forall b, UMM_PBLOCK m' b = if b =? idx q then c + k
     else if b =? c + k then c else UMM_PBLOCK m b) ->
  (forall x, UMM_NFREE m' x = if x =? c + k then UMM_NFREE m c
    else if x =? UMM_PFREE m c then c + k else UMM_NFREE m x) ->
  (forall x, UMM_PFREE m' x = if x =? UMM_NFREE m c then c + k
    else if x =? c + k then UMM_PFREE m c else UMM_PFREE m x) ->
  heap_inv N m' (L1 ++ p :: Blk c false :: Blk (c + k) true :: q :: L2) (F1 ++ (c + k) :: F2).
Proof.
  intros Hinv Hk Hkq HN HP HNF HPF. pose proof (hi_links _ _ _ _ Hinv) as Hl.
  apply links_mid3 in Hl as (_ & Hp & Hq & _).
  assert (c + k ∉ 0 :: F1 ++ c :: F2) as Hfresh.
  { pose proof (inv_range Hinv (Blk c true) ltac:(set_solver)) as Hr. simpl in Hr.
    intros [E|Hin]%elem_of_cons; [lia|]. apply (inv_fl_elem Hinv) in Hin.
    pose proof (inv_before Hinv) as Hb.
    replace (L1 ++ p :: Blk c true :: q :: L2) with ((L1 ++ [p]) ++ Blk c true :: q :: L2)
      in Hb, Hin by (by rewrite <- app_assoc).
    pose proof Hb as Hb'. apply before_split in Hb as [Hb1 Hb2].
    apply elem_of_app in Hin as [Hin%Hb1|Hin]; [simpl in *; lia|].
    rewrite cons_middle, app_assoc in Hb'. apply before_split in Hb' as [_ Hb3].
    set_unfold in Hin. destruct Hin as [E|[E|Hin]].
    - simplify_eq. lia.
    - subst q. simpl in *. lia.
    - apply Hb3 in Hin. simpl in *. lia. }
  destruct Hp as (Hpi & ?&?&?), Hq as (Hiq & HNi & HPq & Hfq). simpl in *.
  apply (heap_inv_mid N m m' L1 p [Blk c true] q L2 _ [Blk c false; Blk (c + k) true] _ Hinv).
  - intros b Hb. rewrite HN. cmp_solve.
  - intros b Hb. rewrite HP. cmp_solve.
  - simpl. unfold link, next_word in *. simpl in *. rewrite !HN, !HP.
    rewrite andb_false_r. cmp_solve. repeat split; try done; lia.
  - by apply (flinks_replace m m' F1 c (c + k) F2 (inv_fl_NoDup Hinv) Hfresh (hi_flinks _ _ _ _ Hinv)).
  - pose proof (hi_free _ _ _ _ Hinv) as Hf.
    rewrite free_mid in Hf |- *. simpl in Hf |- *. by eapply perm_replace.
Qed.
