(* ===== verification/UmmSpec.v ===== *)
(** * Correctness of umm_malloc

    The client's view of a heap is its list of live extents [(s, e)]: a block
    in use that starts at block index [s] and ends before index [e], whose
    payload is the bytes [8*s+4, 8*e).  The theorems say that each operation
    of umm_malloc.c keeps the heap well formed, changes the live extents as
    its C contract promises, and leaves the bytes of every other payload (and
    everything outside the heap) alone. *)

From S2P Require Import Prelude Umm UmmInv.
From stdpp Require Import prelude.
Open Scope Z_scope.

(** ** Live extents *)

Definition extent (x : blk) (e : Z) : list (Z * Z) :=
  if negb (isfree x) && (0 <? idx x) then [(idx x, e)] else [].

Fixpoint live (bs : list blk) : list (Z * Z) :=
  match bs with
  | x :: (y :: _) as tl => extent x (idx y) ++ live tl
  | _ => []
  end.

Lemma live_cons x y l : live (x :: y :: l) = extent x (idx y) ++ live (y :: l).
Proof. done. Qed.

Lemma live_mid L1 x l : live (L1 ++ x :: l) = live (L1 ++ [x]) ++ live (x :: l).
Proof.
  induction L1 as [|y L1 IH]; [done|]. destruct L1 as [|z L1].
  - simpl. by rewrite app_nil_r.
  - rewrite <- !app_comm_cons in *. by rewrite !live_cons, IH, <- app_assoc.
Qed.

Lemma live_relabel L1 x x' : idx x = idx x' -> live (L1 ++ [x]) = live (L1 ++ [x']).
Proof.
  intros E. induction L1 as [|y L1 IH]; [done|]. destruct L1 as [|z L1].
  - simpl. by rewrite E.
  - rewrite <- !app_comm_cons in *. by rewrite !live_cons, IH.
Qed.

Definition in_payload (s e a : Z) : Prop := 8 * s + 4 <= a < 8 * e.

(** The bytes that are not the allocator's to touch: payloads of live extents
    and everything outside the heap array. *)
Definition client_byte (N : Z) (L : list (Z * Z)) (a : Z) : Prop :=
  (exists s e, (s, e) ∈ L /\ in_payload s e a) \/ a < 0 \/ 8 * N <= a.

Lemma client_byte_mono N L L' a : L ⊆ L' -> client_byte N L a -> client_byte N L' a.
Proof. unfold client_byte. set_solver. Qed.

Lemma live_elem bs s e :
  (s, e) ∈ live bs -> exists L1 y L2, bs = L1 ++ Blk s false :: y :: L2 /\ e = idx y /\ 0 < s.
Proof.
  induction bs as [|x bs IH]; [by intros ?%not_elem_of_nil|].
  destruct bs as [|y bs]; [by intros ?%not_elem_of_nil|].
  rewrite live_cons. intros [Hx|Hl]%elem_of_app.
  - unfold extent in Hx. destruct x as [i f], f; simpl in *; [by apply not_elem_of_nil in Hx|].
    destruct (Z.ltb_spec 0 i); [|by apply not_elem_of_nil in Hx].
    apply list_elem_of_singleton in Hx. simplify_eq. by exists [], y, bs.
  - destruct (IH Hl) as (L1 & z & L2 & -> & ?). by exists (x :: L1), z, L2.
Qed.

Lemma elem_live L1 s y L2 : 0 < s -> (s, idx y) ∈ live (L1 ++ Blk s false :: y :: L2).
Proof.
  intros Hs. rewrite live_mid, live_cons. unfold extent. simpl.
  destruct (Z.ltb_spec 0 s); [set_solver|lia].
Qed.

Section live_facts.
Context {N m bs fl} (Hinv : heap_inv N m bs fl).

Lemma live_bounds s e : (s, e) ∈ live bs -> 0 < s < e /\ e <= N - 1.
Proof using Hinv.
  intros (L1 & y & L2 & -> & -> & Hs)%live_elem.
  pose proof (hi_links _ _ _ _ Hinv) as Hl. apply links_mid2 in Hl as (_ & [Hlt _] & _).
  pose proof (inv_range Hinv y ltac:(set_solver)). simpl in *. lia.
Qed.

(** No block of the heap starts strictly inside a live extent. *)
Lemma live_no_block_inside s e x :
  (s, e) ∈ live bs -> x ∈ bs -> idx x <= s \/ e <= idx x.
Proof using Hinv.
  intros (L1 & y & L2 & E & -> & Hs)%live_elem Hx. pose proof (inv_before Hinv) as Hb.
  rewrite E in Hb, Hx. apply elem_of_app in Hx as [Hx|Hx].
  - apply before_split in Hb as [Hb _]. left. specialize (Hb _ Hx). simpl in *. lia.
  - apply elem_of_cons in Hx as [->|Hx]; [simpl; lia|].
    apply elem_of_cons in Hx as [->|Hx]; [lia|].
    rewrite cons_middle, app_assoc in Hb. apply before_split in Hb as [_ Hb].
    specialize (Hb _ Hx). lia.
Qed.

Lemma live_disjoint s1 e1 s2 e2 :
  (s1, e1) ∈ live bs -> (s2, e2) ∈ live bs -> (s1, e1) = (s2, e2) \/ e1 <= s2 \/ e2 <= s1.
Proof using Hinv.
  intros H1 H2. pose proof (live_bounds _ _ H1). pose proof (live_bounds _ _ H2).
  pose proof (live_elem _ _ _ H1) as (A1 & y1 & B1 & E1 & -> & _).
  pose proof (live_elem _ _ _ H2) as (A2 & y2 & B2 & E2 & -> & _).
  assert (y1 ∈ bs) as Hy1 by (rewrite E1; set_solver).
  assert (y2 ∈ bs) as Hy2 by (rewrite E2; set_solver).
  assert (Blk s1 false ∈ bs) as Hb1 by (rewrite E1; set_solver).
  assert (Blk s2 false ∈ bs) as Hb2 by (rewrite E2; set_solver).
  pose proof (live_no_block_inside _ _ _ H1 Hb2) as D1.
  pose proof (live_no_block_inside _ _ _ H2 Hb1) as D2.
  pose proof (live_no_block_inside _ _ _ H1 Hy2) as D3.
  pose proof (live_no_block_inside _ _ _ H2 Hy1) as D4. simpl in *.
  destruct (decide (s1 = s2)) as [->|]; [left; f_equal|]; lia.
Qed.

(** The allocator's own bytes are disjoint from the client's. *)
Lemma client_not_meta a : client_byte N (live bs) a -> ~ meta bs fl a.
Proof using Hinv.
  pose proof (hi_size _ _ _ _ Hinv) as HN. unfold in_payload, in_header, in_body.
  intros Hc [(x & Hx & Ha)|(i & Hi & Ha)]; unfold in_header, in_body in Ha.
  - pose proof (inv_range Hinv _ Hx). destruct Hc as [(s & e & Hse & Hp)|Ho]; [|lia].
    unfold in_payload in Hp. pose proof (live_no_block_inside _ _ _ Hse Hx). lia.
  - assert (exists f, Blk i f ∈ bs /\ (i = 0 \/ f = true)) as (f & Hb & Hf).
    { apply elem_of_cons in Hi as [->|Hi].
      - exists false. split; [apply (inv_zero Hinv)|auto].
      - exists true. split; [by apply (inv_fl_elem Hinv)|auto]. }
    pose proof (inv_range Hinv _ Hb) as Hr. simpl in Hr.
    destruct Hc as [(s & e & Hse & Hp)|Ho]; [|lia]. unfold in_payload in Hp.
    pose proof (live_no_block_inside _ _ _ Hse Hb). pose proof (live_bounds _ _ Hse).
    simpl in *. assert (i = s) as -> by lia.
    apply live_elem in Hse as (A & y & B & E & _). destruct Hf as [->| ->]; [lia|].
    pose proof (inv_unique Hinv _ (Blk s false) Hb ltac:(rewrite E; set_solver) eq_refl).
    congruence.
Qed.

(** The free bit of any block of the heap, the last one included. *)
Lemma inv_freebit x : x ∈ bs -> truth (UMM_NBLOCK m (idx x) .& UMM_FREELIST_MASK) = isfree x.
Proof using Hinv.
  intros Hx. pose proof (hi_links _ _ _ _ Hinv) as Hl.
  apply list_elem_of_split in Hx as (L1 & L2 & E). destruct L2 as [|y L2].
  - pose proof (hi_last _ _ _ _ Hinv) as H1. rewrite E, last_snoc in H1. simplify_eq/=.
    by rewrite (hi_end _ _ _ _ Hinv).
  - assert (y ∈ bs) by (rewrite E; set_solver).
    rewrite E in Hl. apply links_mid2 in Hl as (_ & Hl & _).
    apply (link_freebit Hl). by apply (inv_small Hinv).
Qed.

(** Reading the free list. *)
Lemma fl_neighbours i : i ∈ fl -> UMM_NFREE m i ∈ 0 :: fl /\ UMM_PFREE m i ∈ 0 :: fl.
Proof using Hinv.
  intros (F1 & F2 & E)%list_elem_of_split. pose proof (hi_flinks _ _ _ _ Hinv) as Hf.
  rewrite E in Hf. apply flinks_around in Hf as (_ & _ & G & H & EG & EH). rewrite E.
  pose proof (cut_left_in _ _ _ EG). pose proof (cut_right_in _ _ _ EH). set_solver.
Qed.

Lemma fl_first : UMM_NFREE m 0 ∈ 0 :: fl.
Proof using Hinv.
  pose proof (hi_flinks _ _ _ _ Hinv) as Hf. destruct (snoc_cons fl 0) as (b & h & E).
  rewrite E in Hf. destruct Hf as [[-> _] _].
  assert (b ∈ fl ++ [0]) by (rewrite E; set_solver). set_solver.
Qed.
End live_facts.

(** ** Bytes written by the primitives *)

Lemma disconnect_byte N m bs fl i a :
  heap_inv N m bs fl -> i ∈ fl -> ~ meta bs fl a ->
  umm_disconnect_from_free_list m i a = m a.
Proof.
  intros Hinv Hi Ha. destruct (fl_neighbours Hinv i Hi) as [Hn Hp].
  pose proof (not_meta_body _ _ _ _ Ha Hn). pose proof (not_meta_body _ _ _ _ Ha Hp).
  assert (~ in_header i a).
  { apply (not_meta_header _ _ _ (Blk i true) Ha). by apply (inv_fl_elem Hinv). }
  unfold umm_disconnect_from_free_list. fields.
  replace (if i =? UMM_PFREE m i then UMM_NFREE m i else UMM_NFREE m i)
    with (UMM_NFREE m i) by (by destruct (i =? UMM_PFREE m i)).
  by bytes.
Qed.

Lemma free_push_byte N m bs fl c a :
  heap_inv N m bs fl -> Blk c false ∈ bs -> ~ meta bs fl a -> ~ in_body c a ->
  free_push m c a = m a.
Proof.
  intros Hinv Hc Ha Hb. pose proof (not_meta_body _ _ _ _ Ha (fl_first Hinv)).
  pose proof (not_meta_header _ _ _ _ Ha Hc). simpl in *.
  assert (~ in_body 0 a) by (apply (not_meta_body _ _ _ _ Ha); set_solver).
  unfold free_push. by bytes.
Qed.

(** ** umm_assimilate_up *)

(** The block [c] absorbs a free neighbour: the heap after the call, and the
    bytes it left alone. *)
Lemma assimilate_up_free N m L1 c q L2 fl :
  heap_inv N m (L1 ++ Blk c false :: q :: L2) fl -> isfree q = true ->
  exists r L3 F1 F2, L2 = r :: L3 /\ isfree r = false /\ fl = F1 ++ idx q :: F2 /\
    heap_inv N (umm_assimilate_up m c) (L1 ++ Blk c false :: r :: L3) (F1 ++ F2) /\
    forall a, ~ meta (L1 ++ Blk c false :: q :: L2) fl a -> umm_assimilate_up m c a = m a.
Proof.
  intros Hinv Hq. destruct q as [n f]; simpl in Hq; subst f.
  assert (n ∈ fl) as Hn by (apply (inv_fl_elem Hinv); set_solver).
  pose proof Hn as Hn'. apply list_elem_of_split in Hn' as (F1 & F2 & ->).
  destruct L2 as [|r L3].
  { pose proof (hi_last _ _ _ _ Hinv) as Hl. rewrite last_mid in Hl. by simplify_eq/=. }
  exists r, L3, F1, F2. split; [done|].
  pose proof (hi_links _ _ _ _ Hinv) as Hl. apply links_mid3 in Hl as (_ & Hcn & Hnr & _).
  assert (isfree r = false) as Hr by (by destruct Hnr as (_ & _ & _ & Hnr)).
  assert (small n) as Hsn by (apply (inv_small Hinv (Blk n true)); set_solver).
  assert (small (idx r)) as Hsr by (apply (inv_small Hinv); set_solver).
  assert (small c) as Hsc by (apply (inv_small Hinv (Blk c false)); set_solver).
  pose proof (link_used Hcn eq_refl) as Ec. simpl in Ec.
  pose proof (link_freebit Hnr Hsr) as En. simpl in En.
  pose proof (disconnect_inv _ _ _ _ _ _ _ _ _ Hinv) as Hinv1.
  pose proof (fun a => disconnect_byte _ _ _ _ _ a Hinv Hn) as Hbyte.
  set (m1 := umm_disconnect_from_free_list m n) in *.
  pose proof (hi_links _ _ _ _ Hinv1) as Hl1. apply links_mid3 in Hl1 as (_ & Hcn1 & Hnr1 & _).
  assert (UMM_NBLOCK m1 c = n) as Ec1 by exact (link_used Hcn1 eq_refl).
  assert (UMM_NBLOCK m1 n .& UMM_BLOCKNO_MASK = idx r) as En1 by (apply (link_blockno Hnr1 Hsr)).
  assert (umm_assimilate_up m c = set_NBLOCK (set_PBLOCK m1 (idx r) c) c (idx r)) as E.
  { unfold umm_assimilate_up. rewrite Ec, En. fold m1. fields. by rewrite Ec1, En1. }
  split; [done|]. split; [done|]. rewrite E. split.
  - eapply (merge_inv N m1 _ L1 (Blk c false) (Blk n false) r L3); [exact Hinv1|done|done|..];
      intros b; unfold next_word; simpl; fields; rewrite ?Z.add_0_r, ?u16_of_small by done; done.
  - intros a Ha. assert (~ in_header c a) by (apply (not_meta_header _ _ _ (Blk c false) Ha); set_solver).
    assert (~ in_header (idx r) a) by (apply (not_meta_header _ _ _ _ Ha); set_solver).
    bytes. by apply Hbyte.
Qed.

Lemma assimilate_up_used N m L1 c q L2 fl :
  heap_inv N m (L1 ++ Blk c false :: q :: L2) fl -> isfree q = false ->
  umm_assimilate_up m c = m.
Proof.
  intros Hinv Hq. pose proof (hi_links _ _ _ _ Hinv) as Hl. apply links_mid2 in Hl as (_ & Hcq & _).
  pose proof (link_used Hcq eq_refl) as Ec. simpl in Ec.
  pose proof (inv_freebit Hinv q ltac:(set_solver)) as Eq.
  unfold umm_assimilate_up. by rewrite Ec, Eq, Hq.
Qed.

(** Both cases: after the call the next block is in use. *)
Lemma assimilate_up_inv N m L1 c q L2 fl :
  heap_inv N m (L1 ++ Blk c false :: q :: L2) fl ->
  exists r L3 fl', isfree r = false /\ live (r :: L3) = live (q :: L2) /\ idx q <= idx r /\
    heap_inv N (umm_assimilate_up m c) (L1 ++ Blk c false :: r :: L3) fl' /\
    forall a, ~ meta (L1 ++ Blk c false :: q :: L2) fl a -> umm_assimilate_up m c a = m a.
Proof.
  intros Hinv. destruct (isfree q) eqn:Hq.
  - destruct (assimilate_up_free _ _ _ _ _ _ _ Hinv Hq)
      as (r & L3 & F1 & F2 & -> & Hr & -> & Hinv1 & Hb).
    exists r, L3, (F1 ++ F2). split; [done|]. split.
    + rewrite live_cons. unfold extent. by rewrite Hq.
    + split; [|done]. pose proof (hi_links _ _ _ _ Hinv) as Hl.
      apply links_mid3 in Hl as (_ & _ & [Hlt _] & _). lia.
  - rewrite (assimilate_up_used _ _ _ _ _ _ _ Hinv Hq). exists q, L2, fl. auto with lia.
Qed.

(** ** umm_free *)

(** The block [c] absorbed into its neighbour [p] before it: the words of
    [umm_assimilate_down], with the mask of [p]'s state. *)
Lemma assimilate_down_inv N m L1 p c r L3 fl :
  heap_inv N m (L1 ++ p :: Blk c false :: r :: L3) fl -> isfree p && isfree r = false ->
  let mask := if isfree p then UMM_FREELIST_MASK else 0 in
  (umm_assimilate_down m c mask).2 = idx p /\
  heap_inv N (umm_assimilate_down m c mask).1 (L1 ++ p :: r :: L3) fl /\
  forall a, ~ meta (L1 ++ p :: Blk c false :: r :: L3) fl a ->
    (umm_assimilate_down m c mask).1 a = m a.
Proof.
  intros Hinv Hr mask. pose proof (hi_links _ _ _ _ Hinv) as Hl.
  apply links_mid3 in Hl as (_ & Hpc & Hcr & _).
  assert (small (idx r)) as Hsr by (apply (inv_small Hinv); set_solver).
  assert (small (idx p)) as Hsp by (apply (inv_small Hinv); set_solver).
  pose proof (link_prev Hpc) as Ep. pose proof (link_used Hcr eq_refl) as Er. simpl in Ep, Er.
  assert (idx p < c) as Hlt by (by destruct Hpc).
  assert (umm_assimilate_down m c mask =
          (set_PBLOCK (set_NBLOCK m (idx p) (idx r .| mask)) (idx r) (idx p), idx p)) as E.
  { assert (c < idx r) by (by destruct Hcr). unfold umm_assimilate_down. fields.
    rewrite Ep, Er, (proj2 (Z.eqb_neq c (idx p))) by lia.
    by rewrite (proj2 (Z.eqb_neq c (idx r))) by lia. }
  rewrite E. split; [done|]. simpl. split.
  - eapply (merge_inv N m _ L1 p (Blk c false) r L3); [exact Hinv|done|done|..].
    + intros b. fields. unfold next_word, mask. destruct (isfree p).
      * by rewrite lor_freemask, (u16_next _ true).
      * by rewrite Z.lor_0_r, Z.add_0_r, u16_of_small.
    + intros b. fields. by rewrite u16_of_small.
    + intros b. by fields.
    + intros b. by fields.
  - intros a Ha. assert (~ in_header (idx p) a) by (apply (not_meta_header _ _ _ _ Ha); set_solver).
    assert (~ in_header (idx r) a) by (apply (not_meta_header _ _ _ _ Ha); set_solver).
    by bytes.
Qed.

Lemma live_around L1 p c f q L2 :
  live (L1 ++ p :: Blk c f :: q :: L2) =
  (live (L1 ++ [p]) ++ extent p c) ++ extent (Blk c f) (idx q) ++ live (q :: L2).
Proof. by rewrite live_mid, !live_cons, <- app_assoc. Qed.

Lemma extent_used c e : 0 < c -> extent (Blk c false) e = [(c, e)].
Proof. intros Hc. unfold extent. simpl. by rewrite (proj2 (Z.ltb_lt 0 c)). Qed.

Lemma free_block_inv N m L1 p c q L2 fl :
  heap_inv N m (L1 ++ p :: Blk c false :: q :: L2) fl ->
  exists bs' fl', heap_inv N (umm_free_block m c) bs' fl' /\
    (c, idx q) :: live bs' ≡ₚ live (L1 ++ p :: Blk c false :: q :: L2) /\
    forall a, client_byte N (live bs') a -> umm_free_block m c a = m a.
Proof.
  intros Hinv. pose proof (hi_links _ _ _ _ Hinv) as Hl.
  assert (0 < c) as Hc.
  { apply links_mid3 in Hl as (_ & [Hpc _] & _).
    pose proof (inv_range Hinv p ltac:(set_solver)). simpl in *. lia. }
  pose proof Hinv as Hinv0. rewrite cons_middle, app_assoc in Hinv.
  destruct (assimilate_up_inv _ _ _ _ _ _ _ Hinv)
    as (r & L3 & fl1 & Hr & HL3 & _ & Hinv1 & Hb1).
  rewrite <- app_assoc in Hb1, Hinv1. simpl in Hb1, Hinv1. clear Hinv Hl.
  set (A := live (L1 ++ [p]) ++ extent p c). set (B := live (q :: L2)).
  assert (live (L1 ++ p :: Blk c false :: q :: L2) = A ++ (c, idx q) :: B) as E0
    by (by rewrite live_around, extent_used).
  assert (live (L1 ++ p :: Blk c false :: r :: L3) = A ++ (c, idx r) :: B) as E1
    by (by rewrite live_around, extent_used, HL3).
  assert (forall a, client_byte N (A ++ B) a ->
            ~ meta (L1 ++ p :: Blk c false :: q :: L2) fl a /\
            ~ meta (L1 ++ p :: Blk c false :: r :: L3) fl1 a) as Hcb.
  { intros a Ha. split; [apply (client_not_meta Hinv0)|apply (client_not_meta Hinv1)];
      (eapply client_byte_mono; [|exact Ha]); [rewrite E0|rewrite E1]; set_solver. }
  rewrite E0. unfold umm_free_block. set (m1 := umm_assimilate_up m c) in *.
  pose proof (hi_links _ _ _ _ Hinv1) as Hl. apply links_mid3 in Hl as (_ & Hpc & _ & _).
  pose proof (inv_freebit Hinv1 p ltac:(set_solver)) as Hfp.
  rewrite (link_prev Hpc : UMM_PBLOCK m1 c = idx p), Hfp.
  destruct (isfree p) eqn:Ep.
  - assert (isfree p && isfree r = false) as Hpr by (by rewrite Hr, andb_false_r).
    pose proof (assimilate_down_inv _ _ _ _ _ _ _ _ Hinv1 Hpr) as (_ & Hinv2 & Hb2).
    rewrite Ep in *. eexists _, fl1. split; [exact Hinv2|].
    assert (live (L1 ++ p :: r :: L3) = A ++ B) as ->.
    { unfold A. rewrite live_mid, live_cons. unfold extent. rewrite Ep, HL3. simpl.
      by rewrite app_nil_r. }
    split; [apply Permutation_middle|]. intros a [? ?]%Hcb. by rewrite Hb2, Hb1.
  - fold (free_push m1 c).
    pose proof (push_inv _ _ _ _ _ _ _ _ Hinv1 Ep Hr) as Hinv2.
    eexists _, (c :: fl1). split; [exact Hinv2|].
    pose proof (client_not_meta Hinv2) as Hm2.
    assert (live (L1 ++ p :: Blk c true :: r :: L3) = A ++ B) as E2
      by (by rewrite live_around, HL3).
    rewrite E2 in Hm2 |- *.
    split; [apply Permutation_middle|]. intros a Ha. destruct (Hcb a Ha).
    rewrite (free_push_byte _ _ _ _ _ _ Hinv1), Hb1; [done..|set_solver|done|].
    apply (not_meta_body _ _ _ _ (Hm2 a Ha)). set_solver.
Qed.

(** ** umm_malloc: the search loop *)

(** The number of blocks of the free block [i], as the loop computes it. *)
Definition fsize (m : mem) (i : Z) : Z := u16 ((UMM_NBLOCK m i .& UMM_BLOCKNO_MASK) - i).

(** What the loop has found after visiting the free blocks [l]. *)
Definition best_of (m : mem) (blocks : Z) (l : list Z) (s s' : search) : Prop :=
  (s_bestSize s' = s_bestSize s /\ s_bestBlock s' = s_bestBlock s /\
   forall i, i ∈ l -> blocks <= fsize m i -> s_bestSize s <= fsize m i) \/
  (s_bestBlock s' ∈ l /\ s_bestSize s' = fsize m (s_bestBlock s') /\
   blocks <= s_bestSize s' < s_bestSize s /\
   forall i, i ∈ l -> blocks <= fsize m i -> s_bestSize s' <= fsize m i).

Lemma search_loop_spec m blocks l fuel s :
  (length l <= fuel)%nat -> 0 ∉ l -> adj (flink m) (l ++ [0]) -> s_cf s = hd 0 (l ++ [0]) ->
  exists s', search_loop fuel m blocks s = Some s' /\ s_cf s' = 0 /\
    best_of m blocks l s s' /\
    (l = [] /\ s_blockSize s' = s_blockSize s \/ exists i, i ∈ l /\ s_blockSize s' = fsize m i).
Proof.
  revert fuel s. induction l as [|x l IH]; intros fuel s Hfuel H0 Hadj Hcf.
  { exists s. simpl in Hcf. split; [destruct fuel; simpl; by rewrite Hcf|].
    split; [done|]. split; [left; set_solver|auto]. }
  simpl in Hcf. destruct fuel as [|fuel]; [simpl in Hfuel; lia|].
  assert (adj (flink m) (l ++ [0]) /\ UMM_NFREE m x = hd 0 (l ++ [0])) as [Hadj' Hnext].
  { destruct l as [|y l]; simpl in *; destruct Hadj as [[? ?] ?]; auto. }
  destruct (IH fuel (search_step m blocks s)) as (s' & E & Hz & Hbest & Hsz).
  { simpl in Hfuel. lia. } { set_solver. } { done. } { simpl. by rewrite Hcf. }
  exists s'. split.
  { simpl. rewrite Hcf, (proj2 (Z.eqb_neq x 0)) by set_solver. done. }
  split; [done|]. split.
  - unfold best_of in *. unfold search_step in Hbest. rewrite Hcf in Hbest. fold (fsize m x) in Hbest.
    destruct (Z.leb_spec blocks (fsize m x)), (Z.ltb_spec (fsize m x) (s_bestSize s));
      simpl in Hbest; destruct Hbest as [(E1 & E2 & Hm)|(E1 & E2 & Hm & Hm')].
    all: try (left; split; [done|]; split; [done|]; intros i [->|Hi]%elem_of_cons Hbi;
              [lia|by apply Hm]).
    all: try (right; split; [set_solver|]; split; [done|]; split; [lia|];
              intros i [->|Hi]%elem_of_cons Hbi; [lia|by apply Hm']).
    right. rewrite E1, E2. split; [set_solver|]. split; [done|]. split; [lia|].
    intros i [->|Hi]%elem_of_cons Hbi; [lia|by apply Hm].
  - right. destruct Hsz as [[-> ->]|(i & Hi & ->)]; [exists x|exists i]; [|set_solver].
    split; [set_solver|]. simpl. by rewrite Hcf.
Qed.

(** ** umm_malloc: taking the chosen block *)

Lemma take_split_fields N m L1 p c q L2 F1 F2 n :
  heap_inv N m (L1 ++ p :: Blk c true :: q :: L2) (F1 ++ c :: F2) ->
  0 < n -> c + n < idx q ->
  let m' := umm_take m c (idx q - c) n in
  (forall b, UMM_NBLOCK m' b = if b =? c then c + n
     else if b =? c + n then idx q + 0x8000 else UMM_NBLOCK m b) /\
  (forall b, UMM_PBLOCK m' b = if b =? idx q then c + n
     else if b =? c + n then c else UMM_PBLOCK m b) /\
  (forall x, UMM_NFREE m' x = if x =? c + n then UMM_NFREE m c
    else if x =? UMM_PFREE m c then c + n else UMM_NFREE m x) /\
  (forall x, UMM_PFREE m' x = if x =? UMM_NFREE m c then c + n
    else if x =? c + n then UMM_PFREE m c else UMM_PFREE m x) /\
  (forall a, ~ in_header c a -> ~ in_header (c + n) a -> ~ in_header (idx q) a ->
     ~ in_body (c + n) a -> ~ in_body (UMM_PFREE m c) a -> ~ in_body (UMM_NFREE m c) a ->
     m' a = m a).
Proof.
  intros Hinv Hn Hcq m'. pose proof (hi_links _ _ _ _ Hinv) as Hl.
  apply links_mid3 in Hl as (_ & _ & Hcq' & _).
  assert (small (idx q)) as Hsq by (apply (inv_small Hinv); set_solver).
  assert (small c) as Hsc by (apply (inv_small Hinv (Blk c true)); set_solver).
  assert (small (c + n)) as Hsn by (unfold small in *; lia).
  pose proof (link_blockno Hcq' Hsq) as Ec. simpl in Ec.
  assert (c <> UMM_PFREE m c) as Hpf.
  { pose proof (inv_fl_NoDup Hinv) as Hnd. rewrite app_comm_cons in Hnd.
    apply NoDup_app in Hnd as (_ & Hd & _).
    pose proof (hi_flinks _ _ _ _ Hinv) as (_ & _ & G & H & EG & _)%flinks_around.
    pose proof (cut_left_in _ _ _ EG) as Hin. intros E. rewrite <- E in Hin.
    apply (Hd c Hin). set_solver. }
  assert (m' = set_NFREE (set_PFREE (set_PFREE (set_NFREE
     (set_NBLOCK (set_PBLOCK (set_PBLOCK (set_NBLOCK m (c + n) (idx q + 0x8000)) (c + n) c)
        (idx q) (c + n)) c (c + n))
     (UMM_PFREE m c) (c + n)) (c + n) (UMM_PFREE m c)) (UMM_NFREE m c) (c + n))
     (c + n) (UMM_NFREE m c)) as E.
  { unfold m', umm_take. rewrite (proj2 (Z.eqb_neq (idx q - c) n)) by lia.
    unfold umm_split_block. fields. rewrite (proj2 (Z.eqb_neq c (c + n))) by lia.
    rewrite Ec, lor_freemask by done. by rewrite (proj2 (Z.eqb_neq c (UMM_PFREE m c))). }
  rewrite E. clear E. repeat split.
  1-4: intros b; fields; rewrite ?(u16_of_small (c + n)), ?(u16_next (idx q) true),
    ?(u16_of_small c) by done; done.
  intros a **. by bytes.
Qed.

Lemma take_inv N m L1 p c q L2 F1 F2 n :
  heap_inv N m (L1 ++ p :: Blk c true :: q :: L2) (F1 ++ c :: F2) ->
  0 < n <= idx q - c ->
  exists bs' fl', heap_inv N (umm_take m c (idx q - c) n) bs' fl' /\
    live bs' ≡ₚ (c, c + n) :: live (L1 ++ p :: Blk c true :: q :: L2) /\
    forall a, client_byte N (live (L1 ++ p :: Blk c true :: q :: L2)) a ->
      umm_take m c (idx q - c) n a = m a.
Proof.
  intros Hinv Hn. pose proof (hi_links _ _ _ _ Hinv) as Hl.
  assert (0 < c) as Hc by (apply (inv_fl_range Hinv); set_solver).
  pose proof (client_not_meta Hinv) as Hcm.
  assert (c ∈ F1 ++ c :: F2) as Hcin by set_solver.
  destruct (decide (n = idx q - c)) as [->|Hne].
  - unfold umm_take. rewrite Z.eqb_refl. eexists _, _. split; [by apply disconnect_inv|]. split.
    + rewrite !live_around, extent_used by done. unfold extent at 3; simpl.
      replace (c + (idx q - c)) with (idx q) by lia. symmetry. apply Permutation_middle.
    + intros a Ha. eapply disconnect_byte; eauto.
  - assert (0 < n /\ c + n < idx q) as [Hn1 Hn2] by lia.
    destruct (take_split_fields _ _ _ _ _ _ _ _ _ n Hinv Hn1 Hn2)
      as (HN & HP & HNF & HPF & Hb).
    pose proof (split_free_inv _ _ _ _ _ _ _ _ _ _ _ Hinv Hn1 Hn2 HN HP HNF HPF) as Hinv'.
    eexists _, _. split; [exact Hinv'|].
    assert (live (L1 ++ p :: Blk c false :: Blk (c + n) true :: q :: L2) ≡ₚ
            (c, c + n) :: live (L1 ++ p :: Blk c true :: q :: L2)) as Hlive.
    { rewrite !live_around, extent_used by done. simpl. symmetry. apply Permutation_middle. }
    split; [exact Hlive|]. intros a Ha.
    assert (~ meta (L1 ++ p :: Blk c false :: Blk (c + n) true :: q :: L2) (F1 ++ (c + n) :: F2) a) as Hm.
    { apply (client_not_meta Hinv'). eapply client_byte_mono; [|exact Ha]. rewrite Hlive. set_solver. }
    destruct (fl_neighbours Hinv c Hcin). specialize (Hcm a Ha).
    apply Hb.
    + apply (not_meta_header _ _ _ (Blk c true) Hcm). set_solver.
    + apply (not_meta_header _ _ _ (Blk (c + n) true) Hm). set_solver.
    + apply (not_meta_header _ _ _ q Hm). set_solver.
    + apply (not_meta_body _ _ _ _ Hm). set_solver.
    + by apply (not_meta_body _ _ _ _ Hcm).
    + by apply (not_meta_body _ _ _ _ Hcm).
Qed.
