(* ===== verification/UmmThm.v ===== *)
(** * The theorems on umm_malloc.c

    Functional correctness of [umm_init], [umm_malloc], [umm_free],
    [umm_realloc] and [umm_calloc] on well-formed heaps, the refinement of an
    abstract allocator by any run of the C functions, and what happens for
    requests whose block count does not fit in 16 bits. *)

From S2P Require Import Prelude Umm UmmInv UmmSpec.
From stdpp Require Import prelude.
Open Scope Z_scope.

(** The number of blocks of Lilu's heap. *)
Definition NB : Z := 8192.

Record umm_inv (h : umm) (bs : list blk) (fl : list Z) : Prop := {
  ui_set : umm_heap_set h = true;
  ui_num : umm_numblocks h = NB;
  ui_heap : heap_inv NB (umm_mem h) bs fl;
}.

(** ** Block counts *)

(** The largest request whose block count fits in 16 bits; for the next one the
    count is zero. *)
Definition max_request : Z := 524276.

Lemma max_request_sharp : umm_blocks max_request = 65535 /\ umm_blocks (max_request + 1) = 0.
Proof. split; reflexivity. Qed.

Lemma umm_blocks_pos size : 0 < size <= max_request -> 0 < umm_blocks size < 65536.
Proof.
  unfold umm_blocks, sizeof_body, sizeof_umm_block, max_request. intros H.
  destruct (Z.leb_spec size 4); [lia|].
  rewrite (wrap_small 64) by lia. rewrite u16_small; zdm.
Qed.

(** The payload of the blocks is large enough, and no smaller count would be. *)
Lemma umm_blocks_fit size :
  0 < size <= max_request ->
  size <= 8 * umm_blocks size - 4 /\ 8 * (umm_blocks size - 1) - 4 < size.
Proof.
  unfold umm_blocks, sizeof_body, sizeof_umm_block, max_request. intros H.
  destruct (Z.leb_spec size 4); [lia|].
  rewrite (wrap_small 64) by lia. rewrite u16_small; zdm.
Qed.

Lemma block_of_data c : 0 <= c < 65536 -> block_of (UMM_DATA c) = c.
Proof.
  intros Hc. unfold block_of, UMM_DATA, sizeof_umm_block.
  rewrite (wrap_small 64) by lia. rewrite u16_small; zdm.
Qed.

(** ** The free list is short enough for the search's fuel *)

Lemma fl_fuel m bs fl : heap_inv NB m bs fl -> (length fl <= Z.to_nat NB)%nat.
Proof.
  intros Hinv. pose proof (inv_fl_NoDup Hinv) as [_ Hnd]%NoDup_cons.
  apply NoDup_range_length; [done|]. intros x Hx.
  pose proof (inv_fl_range Hinv x Hx). unfold NB in *. lia.
Qed.

Lemma fsize_free m bs fl L1 i q L2 :
  heap_inv NB m bs fl -> bs = L1 ++ Blk i true :: q :: L2 ->
  fsize m i = idx q - i /\ idx q - i < 0x7FFF /\ i ∈ fl.
Proof.
  intros Hinv ->. pose proof (hi_links _ _ _ _ Hinv) as Hl. apply links_mid2 in Hl as (_ & Hl & _).
  assert (small (idx q)) as Hsq by (apply (inv_small Hinv); set_solver).
  pose proof (inv_range Hinv (Blk i true) ltac:(set_solver)) as Hi.
  pose proof (inv_range Hinv q ltac:(set_solver)) as Hq.
  unfold fsize. rewrite (link_blockno Hl Hsq : UMM_NBLOCK m i .& _ = _).
  destruct Hl as [Hlt _]. simpl in *. unfold NB in *.
  split; [apply u16_small; lia|]. split; [lia|]. apply (inv_fl_elem Hinv). set_solver.
Qed.

(** ** umm_malloc *)

(** [c], with its neighbour [q], is a free block of at least [n] blocks and no
    such free block is smaller. *)
Definition best_fit (bs : list blk) (n c : Z) : Prop :=
  exists L1 q L2, bs = L1 ++ Blk c true :: q :: L2 /\ n <= idx q - c /\
    forall K1 i r K2, bs = K1 ++ Blk i true :: r :: K2 -> n <= idx r - i -> idx q - c <= idx r - i.

Definition no_fit (bs : list blk) (n : Z) : Prop :=
  forall L1 i q L2, bs = L1 ++ Blk i true :: q :: L2 -> idx q - i < n.

Lemma search_finds m bs fl n fuel :
  heap_inv NB m bs fl -> 0 < n -> (length fl <= fuel)%nat ->
  exists s, search_loop fuel m n (mk_search (UMM_NFREE m 0) 0 (UMM_NFREE m 0) 0x7FFF) = Some s /\
    let '(cf, blockSize) := search_result s in
    (best_fit bs n cf /\ blockSize = fsize m cf) \/
    (no_fit bs n /\ cf = 0 /\ blockSize < n).
Proof.
  intros Hinv Hn Hfuel. pose proof (inv_fl_NoDup Hinv) as [H0 _]%NoDup_cons.
  assert (adj (flink m) (fl ++ [0]) /\ UMM_NFREE m 0 = hd 0 (fl ++ [0])) as [Hadj Hhd].
  { pose proof (hi_flinks _ _ _ _ Hinv) as Hf. destruct (snoc_cons fl 0) as (b & h & E).
    rewrite E in *. destruct Hf as [[? _] Hf]. by simpl. }
  destruct (search_loop_spec m n fl fuel
    (mk_search (UMM_NFREE m 0) 0 (UMM_NFREE m 0) 0x7FFF) Hfuel H0 Hadj Hhd)
    as (s & E & Hcf & Hbest & Hsz).
  exists s. split; [exact E|]. unfold search_result.
  assert (forall i, i ∈ fl -> fsize m i < 0x7FFF) as Hlt.
  { intros i Hi. destruct (inv_free_neighbours Hinv i Hi) as (L1 & p & q & L2 & Hbs).
    rewrite cons_middle, app_assoc in Hbs.
    destruct (fsize_free _ _ _ _ _ _ _ Hinv Hbs) as (-> & ? & _). lia. }
  destruct Hbest as [(E1 & E2 & Hno)|(Hin & E2 & Hr & Hmin)]; simpl in *.
  - rewrite E1. simpl. rewrite Hcf. right. split.
    + intros L1 i q L2 Hbs. destruct (fsize_free _ _ _ _ _ _ _ Hinv Hbs) as (E3 & ? & Hi).
      specialize (Hno i Hi). specialize (Hlt i Hi). lia.
    + split; [done|]. destruct Hsz as [[-> ->]|(i & Hi & ->)]; [done|].
      specialize (Hno i Hi). specialize (Hlt i Hi). lia.
  - rewrite (proj2 (Z.eqb_neq _ _)) by lia. simpl. left. split; [|done].
    destruct (inv_free_neighbours Hinv _ Hin) as (L1 & p & q & L2 & Hbs).
    rewrite cons_middle, app_assoc in Hbs.
    destruct (fsize_free _ _ _ _ _ _ _ Hinv Hbs) as (E3 & _ & _).
    exists (L1 ++ [p]), q, L2. split; [done|]. split; [lia|].
    intros K1 i r K2 Hbs' Hi. destruct (fsize_free _ _ _ _ _ _ _ Hinv Hbs') as (E4 & _ & Hi').
    specialize (Hmin i Hi'). lia.
Qed.

Lemma malloc_cases h bs fl size :
  umm_inv h bs fl -> 0 < size <= max_request ->
  let n := umm_blocks size in
  (exists c h' bs' fl', umm_malloc h size = Some (h', Some (UMM_DATA c)) /\
     umm_inv h' bs' fl' /\ best_fit bs n c /\
     live bs' ≡ₚ (c, c + n) :: live bs /\
     forall a, client_byte NB (live bs) a -> umm_mem h' a = umm_mem h a) \/
  (umm_malloc h size = Some (h, None) /\ no_fit bs n).
Proof.
  intros [Hset Hnum Hinv] Hsize n. pose proof (umm_blocks_pos size Hsize) as Hn.
  unfold umm_malloc. rewrite Hset, (proj2 (Z.eqb_neq size 0)), Hnum by lia. fold n.
  destruct (search_finds _ _ _ n _ Hinv ltac:(lia) (fl_fuel _ _ _ Hinv)) as (s & -> & Hres).
  destruct (search_result s) as [cf blockSize]. destruct Hres as [[Hfit ->]|(Hno & -> & Hlt)].
  - left. pose proof Hfit as (L1 & q & L2 & Hbs & Hnq & _).
    destruct (fsize_free _ _ _ _ _ _ _ Hinv Hbs) as (E & ? & Hcf). rewrite E.
    destruct (inv_free_neighbours Hinv cf Hcf) as (K1 & p & r & K2 & Hbs').
    assert (idx r = idx q) as Er.
    { pose proof Hbs' as Hbs2. rewrite cons_middle, app_assoc in Hbs2.
      destruct (fsize_free _ _ _ _ _ _ _ Hinv Hbs2) as (E2 & _). lia. }
    pose proof Hcf as (F1 & F2 & Hfl)%list_elem_of_split. subst fl. rewrite Hbs' in Hinv.
    assert (0 < n <= idx r - cf) as Hnr by lia.
    destruct (take_inv _ _ _ _ _ _ _ _ _ n Hinv Hnr) as (bs' & fl' & Hinv' & Hlive & Hfr).
    pose proof (hi_links _ _ _ _ Hinv) as Hl. apply links_mid3 in Hl as (_ & _ & Hl & _).
    assert (small (idx r)) as Hsr by (apply (inv_small Hinv); set_solver).
    rewrite (link_blockno Hl Hsr : UMM_NBLOCK _ cf .& _ = _).
    assert (truth (idx r) = true) as ->.
    { destruct Hl as [Hl _]. simpl in Hl. pose proof (inv_range Hinv (Blk cf true) ltac:(set_solver)).
      simpl in *. unfold truth. by rewrite (proj2 (Z.eqb_neq (idx r) 0)) by lia. }
    rewrite (proj2 (Z.leb_le n (idx q - cf))) by lia. simpl. rewrite <- Er, <- Hbs' in *.
    exists cf. eexists _, bs', fl'. split; [done|]. split; [by constructor|]. done.
  - right. rewrite (proj2 (Z.leb_gt n blockSize)) by lia. by rewrite andb_false_r.
Qed.

(** ** umm_free *)

Lemma live_neighbours N m bs fl c e :
  heap_inv N m bs fl -> (c, e) ∈ live bs ->
  exists L1 p q L2, bs = L1 ++ p :: Blk c false :: q :: L2 /\ e = idx q /\ 0 < c.
Proof.
  intros Hinv Hl. pose proof Hl as (L1 & q & L2 & E & -> & Hc)%live_elem.
  destruct L1 as [|z L1].
  { pose proof (hi_first _ _ _ _ Hinv) as H1. rewrite E in H1. simplify_eq/=. lia. }
  destruct (cons_snoc z L1) as (g & p & Eg). exists g, p, q, L2.
  rewrite E, Eg, <- app_assoc. done.
Qed.

Lemma free_cases h bs fl c e :
  umm_inv h bs fl -> (c, e) ∈ live bs ->
  exists bs' fl', umm_inv (umm_free h (Some (UMM_DATA c))) bs' fl' /\
    (c, e) :: live bs' ≡ₚ live bs /\
    forall a, client_byte NB (live bs') a ->
      umm_mem (umm_free h (Some (UMM_DATA c))) a = umm_mem h a.
Proof.
  intros [Hset Hnum Hinv] Hl. pose proof (live_bounds Hinv _ _ Hl) as Hb. unfold NB in Hb.
  destruct (live_neighbours _ _ _ _ _ _ Hinv Hl) as (L1 & p & q & L2 & -> & -> & Hc).
  unfold umm_free. rewrite block_of_data by lia.
  destruct (free_block_inv _ _ _ _ _ _ _ _ Hinv) as (bs' & fl' & Hinv' & HP & Hfr).
  exists bs', fl'. split; [by constructor|]. done.
Qed.

(** ** umm_realloc *)

(** Only the allocator's bytes matter for the invariant. *)
Lemma heap_inv_ext N m m' bs fl :
  heap_inv N m bs fl -> (forall a, meta bs fl a -> m' a = m a) -> heap_inv N m' bs fl.
Proof.
  intros Hinv Hm.
  assert (forall x, x ∈ bs -> UMM_NBLOCK m' (idx x) = UMM_NBLOCK m (idx x) /\
                              UMM_PBLOCK m' (idx x) = UMM_PBLOCK m (idx x)) as HB.
  { intros x Hx. split; apply (ldn_ext 2); intros a Ha; apply Hm; left; exists x;
      (split; [done|]); unfold in_header; lia. }
  assert (forall i, i ∈ 0 :: fl -> UMM_NFREE m' i = UMM_NFREE m i /\
                                   UMM_PFREE m' i = UMM_PFREE m i) as HF.
  { intros i Hi. split; apply (ldn_ext 2); intros a Ha; apply Hm; right; exists i;
      (split; [done|]); unfold in_body; lia. }
  destruct Hinv as [H1 H2 H3 H4 H5 H6 H7]. constructor; auto.
  - apply last_Some_elem_of in H3. by rewrite (proj1 (HB _ H3) : UMM_NBLOCK m' (N - 1) = _).
  - clear - H5 HB. induction bs as [|x [|y l] IH]; [done..|].
    destruct H5 as [(?&?&?&?) H5]. split; [|apply IH; auto; set_solver].
    unfold link. rewrite (proj1 (HB x ltac:(set_solver))), (proj2 (HB y ltac:(set_solver))). done.
  - eapply flinks_frame; [exact H6| |].
    + intros b Hb. apply HF. rewrite app_comm_cons, removelast_last in Hb. done.
    + intros b Hb. apply HF. set_solver.
Qed.

Lemma client_byte_shrink N A B s e e' a :
  e <= e' -> client_byte N (A ++ (s, e) :: B) a -> client_byte N (A ++ (s, e') :: B) a.
Proof.
  unfold client_byte. intros He [(s1 & e1 & Hin & Hp)|Ho]; [|auto]. left.
  apply elem_of_app in Hin as [Hin|Hin]; [exists s1, e1; set_solver|].
  apply elem_of_cons in Hin as [E|Hin]; [|exists s1, e1; set_solver].
  simplify_eq. exists s, e'. split; [set_solver|]. unfold in_payload in *. lia.
Qed.

(** [umm_split_block(c, n, 0)] on a block in use. *)
Lemma split_used_code m L1 c q L2 fl n :
  heap_inv NB m (L1 ++ Blk c false :: q :: L2) fl -> 0 < n -> c + n < idx q ->
  heap_inv NB (umm_split_block m c n 0) (L1 ++ Blk c false :: Blk (c + n) false :: q :: L2) fl /\
  forall a, ~ meta (L1 ++ Blk c false :: Blk (c + n) false :: q :: L2) fl a ->
    umm_split_block m c n 0 a = m a.
Proof.
  intros Hinv Hn Hlt. pose proof (hi_links _ _ _ _ Hinv) as Hl.
  apply links_mid2 in Hl as (_ & Hcq & _).
  assert (small c) as Hsc by (apply (inv_small Hinv (Blk c false)); set_solver).
  assert (small (idx q)) as Hsq by (apply (inv_small Hinv); set_solver).
  assert (small (c + n)) as Hsn by (unfold small in *; lia).
  assert (umm_split_block m c n 0 =
    set_NBLOCK (set_PBLOCK (set_PBLOCK (set_NBLOCK m (c + n) (idx q)) (c + n) c)
      (idx q) (c + n)) c (c + n)) as ->.
  { unfold umm_split_block. fields. rewrite (proj2 (Z.eqb_neq c (c + n))) by lia.
    rewrite (link_blockno Hcq Hsq : UMM_NBLOCK m c .& _ = _). by rewrite Z.lor_0_r. }
  split.
  - eapply split_used_inv; [exact Hinv|lia|lia|..];
      intros b; fields; rewrite ?u16_of_small by done; done.
  - intros a Hm.
    assert (~ in_header c a) by (apply (not_meta_header _ _ _ (Blk c false) Hm); set_solver).
    assert (~ in_header (c + n) a) by (apply (not_meta_header _ _ _ (Blk (c + n) false) Hm); set_solver).
    assert (~ in_header (idx q) a) by (apply (not_meta_header _ _ _ q Hm); set_solver).
    by bytes.
Qed.

(** The end of [umm_realloc]: the block is cut to [n] blocks and the rest freed. *)
Lemma trim_inv m L1 p c q L2 fl n :
  heap_inv NB m (L1 ++ p :: Blk c false :: q :: L2) fl -> 0 < n <= idx q - c ->
  exists bs' fl' A B, heap_inv NB (umm_realloc_trim m c (idx q - c) n) bs' fl' /\
    live (L1 ++ p :: Blk c false :: q :: L2) = A ++ (c, idx q) :: B /\
    live bs' ≡ₚ A ++ (c, c + n) :: B /\
    forall a, client_byte NB (A ++ (c, c + n) :: B) a -> umm_realloc_trim m c (idx q - c) n a = m a.
Proof.
  intros Hinv Hn. pose proof (hi_links _ _ _ _ Hinv) as Hl.
  apply links_mid3 in Hl as (_ & Hpc & Hcq & _).
  pose proof (inv_range Hinv p ltac:(set_solver)) as Hrp.
  pose proof (inv_range Hinv q ltac:(set_solver)) as Hrq.
  assert (0 < c) as Hc by (destruct Hpc as [Hpc _]; simpl in *; lia).
  assert (live (L1 ++ p :: Blk c false :: q :: L2) =
          (live (L1 ++ [p]) ++ extent p c) ++ (c, idx q) :: live (q :: L2)) as E
    by (by rewrite live_around, extent_used).
  unfold umm_realloc_trim. destruct (Z.ltb_spec n (idx q - c)) as [Hlt|Hge].
  2:{ replace (idx q) with (c + n) in E by lia. replace (idx q) with (c + n) by lia.
      eexists _, fl, _, _. split; [exact Hinv|]. split; [exact E|]. by rewrite E. }
  unfold NB in Hrq. rewrite block_of_data by lia.
  rewrite cons_middle, app_assoc in Hinv.
  destruct (split_used_code _ _ _ _ _ _ n Hinv ltac:(lia) ltac:(lia)) as [Hinv1 Hb1].
  set (m1 := umm_split_block m c n 0) in *. pose proof Hinv1 as Hinv0.
  rewrite <- app_assoc in Hinv1. simpl in Hinv1.
  rewrite cons_middle, app_assoc in Hinv1.
  destruct (free_block_inv _ _ _ _ _ _ _ _ Hinv1) as (bs' & fl' & Hinv2 & HP & Hfr).
  exists bs', fl', (live (L1 ++ [p]) ++ extent p c), (live (q :: L2)).
  assert (live ((L1 ++ [p]) ++ Blk c false :: Blk (c + n) false :: q :: L2) =
    (live (L1 ++ [p]) ++ extent p c) ++ (c, c + n) :: (c + n, idx q) :: live (q :: L2)) as E1.
  { rewrite <- app_assoc. simpl. rewrite live_around, extent_used, live_cons, extent_used by lia. done. }
  rewrite E1 in HP. split; [exact Hinv2|]. split; [exact E|].
  assert (live bs' ≡ₚ (live (L1 ++ [p]) ++ extent p c) ++ (c, c + n) :: live (q :: L2)) as HP'.
  { apply (Permutation_cons_inv (a := (c + n, idx q))). rewrite HP.
    etransitivity; [apply Permutation_app_head, Permutation_swap|].
    symmetry. apply Permutation_middle. }
  split; [exact HP'|]. intros a Ha.
  rewrite Hfr by (eapply client_byte_mono; [|exact Ha]; rewrite HP'; set_solver).
  apply Hb1. apply (client_not_meta Hinv0). rewrite E1. eapply client_byte_mono; [|exact Ha].
  set_solver.
Qed.

Lemma live_others L1 p c q L2 others :
  0 < c -> live (L1 ++ p :: Blk c false :: q :: L2) ≡ₚ (c, idx q) :: others ->
  others ≡ₚ (live (L1 ++ [p]) ++ extent p c) ++ live (q :: L2).
Proof.
  intros Hc. rewrite live_around, extent_used by done. simpl.
  rewrite <- Permutation_middle. intros H%Permutation_cons_inv. by symmetry.
Qed.

Lemma client_byte_perm N L L' a : L ≡ₚ L' -> client_byte N L a -> client_byte N L' a.
Proof. intros HP. apply client_byte_mono. by rewrite HP. Qed.

Lemma trim_others m bs fl L1 p c q L2 n others :
  heap_inv NB m bs fl -> bs = L1 ++ p :: Blk c false :: q :: L2 -> 0 < n <= idx q - c ->
  live bs ≡ₚ (c, idx q) :: others ->
  exists bs' fl', heap_inv NB (umm_realloc_trim m c (idx q - c) n) bs' fl' /\
    live bs' ≡ₚ (c, c + n) :: others /\
    forall a, client_byte NB ((c, c + n) :: others) a -> umm_realloc_trim m c (idx q - c) n a = m a.
Proof.
  intros Hinv -> Hn Hl.
  destruct (trim_inv _ _ _ _ _ _ _ n Hinv Hn) as (bs' & fl' & A & B & Hinv' & E & HP & Hfr).
  rewrite E, <- Permutation_middle in Hl. apply Permutation_cons_inv in Hl.
  exists bs', fl'. split; [done|]. split.
  - by rewrite HP, <- Permutation_middle, Hl.
  - intros a Ha. apply Hfr. eapply client_byte_perm; [|exact Ha].
    by rewrite <- Permutation_middle, Hl.
Qed.

(** Strategies 3 and 4 of [umm_realloc]: the free block before [c] is taken off
    the free list, [c] is merged into it, and the data moved down. *)
Definition pull_down (m : mem) (c ptr curSize : Z) : mem * Z :=
  let m := umm_disconnect_from_free_list m (UMM_PBLOCK m c) in
  let '(m, c) := umm_assimilate_down m c 0 in
  (mem_move m (UMM_DATA c) ptr curSize, c).

Lemma pull_down_merge m L1 b c r L3 fl :
  heap_inv NB m (L1 ++ Blk b true :: Blk c false :: r :: L3) fl ->
  let m1 := umm_disconnect_from_free_list m (UMM_PBLOCK m c) in
  exists L4 p fl', L1 = L4 ++ [p] /\ (umm_assimilate_down m1 c 0).2 = b /\
    heap_inv NB (umm_assimilate_down m1 c 0).1 (L4 ++ p :: Blk b false :: r :: L3) fl' /\
    forall a, ~ meta (L1 ++ Blk b true :: Blk c false :: r :: L3) fl a ->
      (umm_assimilate_down m1 c 0).1 a = m a.
Proof.
  intros Hinv m1. pose proof (hi_links _ _ _ _ Hinv) as Hl.
  apply links_mid3 in Hl as (_ & Hbc & _ & _).
  assert (b ∈ fl) as Hb by (apply (inv_fl_elem Hinv); set_solver).
  pose proof Hb as (F1 & F2 & Efl)%list_elem_of_split.
  assert (exists L4 p, L1 = L4 ++ [p]) as (L4 & p & ->).
  { destruct L1 as [|z L1].
    - pose proof (hi_first _ _ _ _ Hinv). by simplify_eq/=.
    - destruct (cons_snoc z L1) as (g & a & ->). eauto. }
  exists L4, p, (F1 ++ F2). split; [done|].
  rewrite <- app_assoc in Hinv. simpl in Hinv. pose proof Hinv as Hinv1.
  rewrite Efl in Hinv1. apply disconnect_inv in Hinv1.
  assert (m1 = umm_disconnect_from_free_list m b) as Em.
  { unfold m1. by rewrite (link_prev Hbc : UMM_PBLOCK m c = b). }
  rewrite <- Em, cons_middle, app_assoc in Hinv1.
  destruct (assimilate_down_inv _ _ _ _ _ _ _ _ Hinv1 eq_refl) as (E2 & Hinv2 & Hb2).
  cbn [isfree idx] in E2, Hinv2, Hb2. split; [done|]. split.
  - by rewrite <- app_assoc in Hinv2.
  - intros a Ha. rewrite Hb2.
    + rewrite Em. rewrite <- app_assoc in Ha. simpl in Ha. eapply disconnect_byte; eauto.
    + clear - Ha Efl. unfold meta in *. rewrite Efl in Ha. intros [(x & Hx & ?)|(i & Hi & ?)]; apply Ha.
      * left. set_unfold in Hx. destruct Hx as [Hx|[->|Hx]].
        -- exists x. set_solver.
        -- exists (Blk b true). set_solver.
        -- exists x. set_solver.
      * right. exists i. set_solver.
Qed.

Lemma live_NoDup bs : adj before bs -> NoDup (live bs).
Proof.
  induction bs as [|x [|y l] IH]; intros Hb; [constructor..|].
  rewrite live_cons. destruct Hb as [Hxy Hb]. apply NoDup_app. split; [|split; [|auto]].
  - unfold extent. case_match; [apply NoDup_singleton|constructor].
  - intros [s e] Hx Hin. apply live_elem in Hin as (L1 & z & L2 & E & _).
    assert (adj before (x :: y :: l)) as Hxb by done.
    assert (Blk s false ∈ y :: l) as Hs by (rewrite E; set_solver).
    pose proof (adj_before_head _ _ _ Hxb Hs). unfold extent in Hx.
    case_match; [|by apply not_elem_of_nil in Hx].
    apply list_elem_of_singleton in Hx. simplify_eq/=. lia.
Qed.

Lemma others_disjoint N m bs fl c e others a :
  heap_inv N m bs fl -> live bs ≡ₚ (c, e) :: others ->
  client_byte N others a -> ~ in_payload c e a.
Proof.
  intros Hinv Hl Ha Hp. pose proof (live_NoDup _ (inv_before Hinv)) as Hnd.
  rewrite Hl in Hnd. apply NoDup_cons in Hnd as [Hnin _].
  assert ((c, e) ∈ live bs) as Hce by (rewrite Hl; set_solver).
  pose proof (live_bounds Hinv _ _ Hce). unfold in_payload in Hp.
  destruct Ha as [(s & e' & Hin & Hp')|Ho]; [|lia].
  assert ((s, e') ∈ live bs) as Hse by (rewrite Hl; set_solver). unfold in_payload in Hp'.
  destruct (live_disjoint Hinv _ _ _ _ Hce Hse) as [E|D]; [congruence|lia].
Qed.

(** Writing inside a live payload keeps the heap. *)
Lemma heap_inv_payload N m m' bs fl c e :
  heap_inv N m bs fl -> (c, e) ∈ live bs ->
  (forall a, ~ in_payload c e a -> m' a = m a) -> heap_inv N m' bs fl.
Proof.
  intros Hinv Hl Hm. apply (heap_inv_ext N m); [done|]. intros a Ha. apply Hm. intros Hp.
  apply (client_not_meta Hinv a); [|done]. left. eauto.
Qed.

Lemma live_snoc2 L p x : live ((L ++ [p]) ++ [x]) = live (L ++ [p]) ++ extent p (idx x).
Proof. rewrite <- app_assoc. simpl. rewrite live_mid. simpl. by rewrite app_nil_r. Qed.

Lemma pull_down_inv m L1 b c r L3 fl cur others :
  heap_inv NB m (L1 ++ Blk b true :: Blk c false :: r :: L3) fl ->
  live (L1 ++ Blk b true :: Blk c false :: r :: L3) ≡ₚ (c, idx r) :: others ->
  0 < cur <= 8 * (idx r - c) - 4 ->
  let m' := (pull_down m c (UMM_DATA c) cur).1 in
  (pull_down m c (UMM_DATA c) cur).2 = b /\
  exists L4 p fl', heap_inv NB m' (L4 ++ p :: Blk b false :: r :: L3) fl' /\
    live (L4 ++ p :: Blk b false :: r :: L3) ≡ₚ (b, idx r) :: others /\
    (forall a, client_byte NB others a -> m' a = m a) /\
    (forall i, 0 <= i < cur -> m' (UMM_DATA b + i) = m (UMM_DATA c + i)).
Proof.
  intros Hinv Hl Hcur. pose proof (pull_down_merge _ _ _ _ _ _ _ Hinv) as Hm. cbv zeta in Hm.
  unfold pull_down. set (m1 := umm_disconnect_from_free_list m (UMM_PBLOCK m c)) in *.
  destruct (umm_assimilate_down m1 c 0) as [m2 b'].
  destruct Hm as (L4 & p & fl' & -> & E & Hinv2 & Hb2). cbn [fst snd] in *. subst b'.
  split; [done|]. exists L4, p, fl'.
  assert (0 < b < c) as Hbc.
  { pose proof (hi_links _ _ _ _ Hinv) as Hk. apply links_mid3 in Hk as (_ & [Hk _] & _).
    assert (b ∈ fl) as Hb by (apply (inv_fl_elem Hinv); set_solver).
    apply (inv_fl_range Hinv) in Hb. simpl in *. lia. }
  assert (live (L4 ++ p :: Blk b false :: r :: L3) ≡ₚ (b, idx r) :: others) as Hl2.
  { apply live_others in Hl; [|lia]. rewrite Hl, live_around, extent_used by lia.
    rewrite live_snoc2. cbn [idx].
    change (extent (Blk b true) c) with (@nil (Z * Z)). rewrite (app_nil_r (_ ++ _)). symmetry. apply Permutation_middle. }
  assert (forall a, ~ in_payload b (idx r) a -> mem_move m2 (UMM_DATA b) (UMM_DATA c) cur a = m2 a) as Hmv.
  { intros a Ha. unfold mem_move, in_payload, UMM_DATA in *. cmp_solve. }
  split; [eapply (heap_inv_payload _ m2 _ _ _ b (idx r)); [exact Hinv2|rewrite Hl2; set_solver|exact Hmv]|].
  split; [done|].
  assert (forall a, client_byte NB (live ((L4 ++ [p]) ++ Blk b true :: Blk c false :: r :: L3)) a -> m2 a = m a) as Hcl.
  { intros a Ha. apply Hb2. by apply (client_not_meta Hinv). }
  split.
  - intros a Ha. rewrite Hmv by (by eapply others_disjoint).
    apply Hcl. eapply client_byte_mono; [|exact Ha]. rewrite Hl. set_solver.
  - intros i Hi. unfold mem_move.
    rewrite (proj2 (Z.leb_le _ _)), (proj2 (Z.ltb_lt _ _)) by lia. simpl.
    replace (UMM_DATA b + i - UMM_DATA b + UMM_DATA c) with (UMM_DATA c + i) by lia.
    apply Hcl. left. exists c, (idx r). split; [rewrite Hl; set_solver|].
    unfold in_payload, UMM_DATA in *. lia.
Qed.

Lemma pull_down_free m L1 p c r L3 fl cur others :
  isfree p = true ->
  heap_inv NB m (L1 ++ p :: Blk c false :: r :: L3) fl ->
  live (L1 ++ p :: Blk c false :: r :: L3) ≡ₚ (c, idx r) :: others ->
  0 < cur <= 8 * (idx r - c) - 4 ->
  let m' := (pull_down m c (UMM_DATA c) cur).1 in
  (pull_down m c (UMM_DATA c) cur).2 = idx p /\
  exists L4 p0 fl', heap_inv NB m' (L4 ++ p0 :: Blk (idx p) false :: r :: L3) fl' /\
    live (L4 ++ p0 :: Blk (idx p) false :: r :: L3) ≡ₚ (idx p, idx r) :: others /\
    (forall a, client_byte NB others a -> m' a = m a) /\
    (forall i, 0 <= i < cur -> m' (UMM_DATA (idx p) + i) = m (UMM_DATA c + i)).
Proof. destruct p as [b f]. cbn [isfree]. intros ->. apply pull_down_inv. Qed.

(** What a successful [umm_realloc] of the live extent [(c, e)] to [n] blocks
    promises: the heap stays well formed, the extent became [(c', c' + n)], the
    old contents are at the new place up to the smaller of the two sizes, and
    the other payloads and the bytes outside the heap are as before. *)
Definition realloc_ok (m : mem) (bs : list blk) (c e n : Z) (m' : mem) (c' : Z) : Prop :=
  exists bs' fl' others, heap_inv NB m' bs' fl' /\
    live bs ≡ₚ (c, e) :: others /\ live bs' ≡ₚ (c', c' + n) :: others /\
    (forall a, client_byte NB others a -> m' a = m a) /\
    (forall i, 0 <= i < Z.min (8 * (e - c) - 4) (8 * n - 4) ->
       m' (UMM_DATA c' + i) = m (UMM_DATA c + i)).

(** The shared end of strategies 1 to 4: the block [c'], that holds the data of
    [c] and is at least [n] blocks long, is trimmed. *)
Lemma realloc_finish m bs c e n m1 bs1 fl1 L1 p c' q L2 others :
  live bs ≡ₚ (c, e) :: others -> heap_inv NB m1 bs1 fl1 ->
  bs1 = L1 ++ p :: Blk c' false :: q :: L2 -> live bs1 ≡ₚ (c', idx q) :: others ->
  0 < n <= idx q - c' ->
  (forall a, client_byte NB others a -> m1 a = m a) ->
  (forall i, 0 <= i < 8 * (e - c) - 4 -> m1 (UMM_DATA c' + i) = m (UMM_DATA c + i)) ->
  realloc_ok m bs c e n (umm_realloc_trim m1 c' (idx q - c') n) c'.
Proof.
  intros Hl Hinv1 Hbs1 Hl1 Hn Hfr Hdata.
  destruct (trim_others _ _ _ _ _ _ _ _ n others Hinv1 Hbs1 Hn Hl1)
    as (bs' & fl' & Hinv' & Hl' & Hfr').
  exists bs', fl', others. split; [done|]. split; [done|]. split; [done|]. split.
  - intros a Ha. rewrite Hfr', Hfr; [done..|]. eapply client_byte_mono; [|exact Ha]. set_solver.
  - intros i Hi. rewrite Hfr', Hdata; [done|lia|]. left. exists c', (c' + n).
    split; [set_solver|]. unfold in_payload, UMM_DATA. lia.
Qed.

Section realloc.
Context (m : mem) (L1 : list blk) (p : blk) (c : Z) (q : blk) (L2 : list blk) (fl : list Z).
Let bs := L1 ++ p :: Blk c false :: q :: L2.
Context (Hinv : heap_inv NB m bs fl).
Let others := (live (L1 ++ [p]) ++ extent p c) ++ live (q :: L2).

Lemma realloc_c_pos : 0 < c < idx q /\ idx q <= NB - 1.
Proof using Hinv.
  pose proof (hi_links _ _ _ _ Hinv) as Hl. apply links_mid3 in Hl as (_ & [Hp _] & [Hq _] & _).
  pose proof (inv_range Hinv p ltac:(set_solver)). pose proof (inv_range Hinv q ltac:(set_solver)).
  simpl in *. lia.
Qed.

Lemma realloc_others : live bs ≡ₚ (c, idx q) :: others.
Proof using Hinv.
  pose proof realloc_c_pos. unfold bs, others. rewrite live_around, extent_used by lia.
  symmetry. apply Permutation_middle.
Qed.

(** The sizes [umm_realloc] computes from the neighbours. *)
Definition next_size : Z :=
  if isfree q then match L2 with r :: _ => idx r - idx q | [] => 0 end else 0.
Definition prev_size : Z := if isfree p then c - idx p else 0.

Lemma realloc_reads :
  UMM_NBLOCK m c = idx q /\ UMM_PBLOCK m c = idx p /\
  (if truth (UMM_NBLOCK m (UMM_NBLOCK m c) .& UMM_FREELIST_MASK)
   then u16 ((UMM_NBLOCK m (UMM_NBLOCK m c) .& UMM_BLOCKNO_MASK) - UMM_NBLOCK m c) else 0)
  = next_size /\
  (if truth (UMM_NBLOCK m (UMM_PBLOCK m c) .& UMM_FREELIST_MASK)
   then u16 (c - UMM_PBLOCK m c) else 0) = prev_size.
Proof using Hinv.
  pose proof realloc_c_pos as Hc. pose proof (hi_links _ _ _ _ Hinv) as Hl.
  apply links_mid3 in Hl as (_ & Hp & Hq & Hl).
  pose proof (link_used Hq eq_refl) as Eq. pose proof (link_prev Hp) as Ep. cbn [idx] in Eq, Ep.
  rewrite Eq, Ep, (inv_freebit Hinv q), (inv_freebit Hinv p) by set_solver.
  split; [done|]. split; [done|]. unfold next_size, prev_size. split.
  - destruct (isfree q) eqn:Fq; [|done]. destruct L2 as [|r L3].
    { pose proof (hi_last _ _ _ _ Hinv) as Hla. unfold bs in Hla.
      rewrite cons_middle, app_assoc, last_mid in Hla. by simplify_eq/=. }
    assert (r ∈ bs) as Hr by (unfold bs; set_solver).
    destruct Hl as [Hl _]. rewrite (link_blockno Hl (inv_small Hinv r Hr)).
    destruct Hl as [Hl _]. pose proof (inv_range Hinv r Hr). unfold NB in *.
    apply u16_small. lia.
  - destruct (isfree p); [|done]. destruct Hp as [Hp _].
    pose proof (inv_range Hinv p ltac:(set_solver)). simpl in *. unfold NB in *.
    apply u16_small. lia.
Qed.

Lemma realloc_same n :
  0 < n <= idx q - c -> realloc_ok m bs c (idx q) n (umm_realloc_trim m c (idx q - c) n) c.
Proof using Hinv.
  intros Hn. by eapply (realloc_finish m bs c (idx q) n m bs fl L1 p c q L2 others);
    auto using realloc_others.
Qed.

(** The heap after [umm_assimilate_up(c)] when the next block is free. *)
Lemma realloc_up :
  isfree q = true ->
  exists r L3 fl', L2 = r :: L3 /\
    heap_inv NB (umm_assimilate_up m c) (L1 ++ p :: Blk c false :: r :: L3) fl' /\
    live (L1 ++ p :: Blk c false :: r :: L3) ≡ₚ (c, idx r) :: others /\
    idx q < idx r /\
    forall a, client_byte NB (live bs) a -> umm_assimilate_up m c a = m a.
Proof using Hinv.
  intros Fq. pose proof realloc_c_pos as Hc. pose proof Hinv as Hinv0.
  unfold bs in Hinv. rewrite cons_middle, app_assoc in Hinv.
  destruct (assimilate_up_free _ _ _ _ _ _ _ Hinv Fq) as (r & L3 & F1 & F2 & E & Fr & -> & Hinv1 & Hb).
  exists r, L3, (F1 ++ F2). split; [done|]. split; [by rewrite <- app_assoc in Hinv1|].
  split; [|split].
  - rewrite live_around, extent_used by lia. unfold others. rewrite E, live_cons.
    assert (extent q (idx r) = []) as -> by (unfold extent; by rewrite Fq).
    symmetry. apply Permutation_middle.
  - rewrite E in Hinv. pose proof (hi_links _ _ _ _ Hinv) as Hl.
    apply links_mid3 in Hl as (_ & _ & [Hl _] & _). lia.
  - intros a Ha. apply Hb. apply (client_not_meta Hinv0) in Ha.
    by rewrite <- app_assoc.
Qed.

(** The data and the other payloads, read through [client_byte]. *)
Lemma client_of_others a : client_byte NB others a -> client_byte NB (live bs) a.
Proof using Hinv. apply client_byte_mono. rewrite realloc_others. set_solver. Qed.

Lemma client_of_data i :
  0 <= i < 8 * (idx q - c) - 4 -> client_byte NB (live bs) (UMM_DATA c + i).
Proof using Hinv.
  intros Hi. left. exists c, (idx q). split; [rewrite realloc_others; set_solver|].
  unfold in_payload, UMM_DATA. lia.
Qed.

Lemma realloc_next n :
  idx q - c < n <= idx q - c + next_size ->
  realloc_ok m bs c (idx q) n
    (umm_realloc_trim (umm_assimilate_up m c) c (idx q - c + next_size) n) c.
Proof using Hinv.
  intros Hn. pose proof realloc_c_pos as Hc.
  assert (isfree q = true) as Fq by (unfold next_size in Hn; destruct (isfree q); [done|lia]).
  destruct (realloc_up Fq) as (r & L3 & fl' & E & Hinv1 & Hl1 & Hqr & Hb).
  unfold next_size in *. rewrite Fq, E in *.
  replace (idx q - c + (idx r - idx q)) with (idx r - c) in * by lia.
  eapply (realloc_finish m _ c (idx q) n _ _ fl' L1 p c r L3 others); eauto using realloc_others.
  - lia.
  - intros a Ha. apply Hb, client_of_others, Ha.
  - intros i Hi. apply Hb, client_of_data, Hi.
Qed.

Let cur := 8 * (idx q - c) - 4.

Lemma realloc_prev n :
  idx q - c < n <= prev_size + (idx q - c) ->
  realloc_ok m bs c (idx q) n
    (umm_realloc_trim (pull_down m c (UMM_DATA c) cur).1 (pull_down m c (UMM_DATA c) cur).2
       (idx q - c + prev_size) n) (pull_down m c (UMM_DATA c) cur).2.
Proof using Hinv.
  intros Hn. pose proof realloc_c_pos as Hc. unfold prev_size in *.
  destruct (isfree p) eqn:Fp; [|lia].
  assert (0 < cur <= 8 * (idx q - c) - 4) as Hcur by (unfold cur; lia).
  destruct (pull_down_free m L1 p c q L2 fl cur others Fp Hinv realloc_others Hcur)
    as (-> & L4 & p0 & fl' & Hinv1 & Hl1 & Hfr & Hdata).
  replace (idx q - c + (c - idx p)) with (idx q - idx p) by lia.
  eapply (realloc_finish m bs c (idx q) n _ _ fl' L4 p0 (idx p) q L2 others); eauto using realloc_others.
  lia.
Qed.

Lemma realloc_both n :
  prev_size + (idx q - c) < n -> idx q - c + next_size < n ->
  n <= prev_size + (idx q - c) + next_size ->
  let m1 := umm_assimilate_up m c in
  realloc_ok m bs c (idx q) n
    (umm_realloc_trim (pull_down m1 c (UMM_DATA c) cur).1 (pull_down m1 c (UMM_DATA c) cur).2
       (idx q - c + (prev_size + next_size)) n) (pull_down m1 c (UMM_DATA c) cur).2.
Proof using Hinv.
  intros Hn1 Hn2 Hn m1. pose proof realloc_c_pos as Hc.
  assert (isfree q = true) as Fq by (unfold next_size in *; destruct (isfree q); [done|lia]).
  destruct (realloc_up Fq) as (r & L3 & fl1 & E & Hinv1 & Hl1 & Hqr & Hb). fold m1 in Hinv1, Hb.
  unfold next_size, prev_size in *. rewrite Fq, E in Hn2, Hn |- *.
  destruct (isfree p) eqn:Fp; [|lia].
  assert (0 < cur <= 8 * (idx r - c) - 4) as Hcur by (unfold cur; lia).
  destruct (pull_down_free m1 L1 p c r L3 fl1 cur others Fp Hinv1 Hl1 Hcur)
    as (-> & L4 & p0 & fl' & Hinv2 & Hl2 & Hfr & Hdata).
  replace (idx q - c + (c - idx p + (idx r - idx q))) with (idx r - idx p) by lia.
  eapply (realloc_finish m _ c (idx q) n _ _ fl' L4 p0 (idx p) r L3 others); eauto using realloc_others.
  - lia.
  - intros a Ha. rewrite Hfr by done. apply Hb, client_of_others, Ha.
  - intros i Hi. rewrite Hdata by done. apply Hb, client_of_data, Hi.
Qed.
End realloc.

(** Strategy 5 of [umm_realloc]: a new block, a copy, and the old block freed. *)
Definition realloc_fresh (h : umm) (p size curSize : Z) : option (umm * ptr) :=
  match umm_malloc h size with
  | None => None
  | Some (h, Some q) =>
      let h := with_mem h (mem_move (umm_mem h) q p curSize) in
      Some (umm_free h (Some p), Some q)
  | Some (h, None) => Some (h, None)
  end.

Lemma realloc_fresh_cases h bs fl c e size :
  umm_inv h bs fl -> (c, e) ∈ live bs -> 0 < size <= max_request -> e - c < umm_blocks size ->
  (exists h' c', realloc_fresh h (UMM_DATA c) size (8 * (e - c) - 4) = Some (h', Some (UMM_DATA c')) /\
     umm_heap_set h' = true /\ umm_numblocks h' = NB /\
     realloc_ok (umm_mem h) bs c e (umm_blocks size) (umm_mem h') c') \/
  (realloc_fresh h (UMM_DATA c) size (8 * (e - c) - 4) = Some (h, None) /\ no_fit bs (umm_blocks size)).
Proof.
  intros Hu Hce Hsize Hlt. unfold realloc_fresh.
  destruct (malloc_cases h bs fl size Hu Hsize)
    as [(c1 & h1 & bs1 & fl1 & -> & [Hs1 Hn1 Hinv1] & _ & Hl1 & Hfr1)|[-> Hno]]; [|by right].
  left. set (n := umm_blocks size) in *. set (cur := 8 * (e - c) - 4).
  pose proof (ui_heap _ _ _ Hu) as Hinv. pose proof (live_bounds Hinv _ _ Hce) as Hb.
  pose proof Hce as [others Hl]%elem_of_Permutation. rewrite Hl in Hl1.
  set (m2 := mem_move (umm_mem h1) (UMM_DATA c1) (UMM_DATA c) cur).
  assert (forall a, ~ in_payload c1 (c1 + n) a -> m2 a = umm_mem h1 a) as Hmv.
  { intros a Ha. unfold m2, mem_move, in_payload, UMM_DATA, cur in *. cmp_solve. }
  assert (heap_inv NB m2 bs1 fl1) as Hinv2.
  { eapply (heap_inv_payload _ (umm_mem h1) _ _ _ c1 (c1 + n)); [done|rewrite Hl1; set_solver|done]. }
  assert (umm_inv (with_mem h1 m2) bs1 fl1) as Hu2 by (by constructor).
  assert ((c, e) ∈ live bs1) as Hce1 by (rewrite Hl1; set_solver).
  destruct (free_cases _ _ _ c e Hu2 Hce1) as (bs3 & fl3 & [Hs3 Hn3 Hinv3] & Hl3 & Hfr3).
  cbn [umm_mem with_mem] in Hfr3.
  assert (live bs3 ≡ₚ (c1, c1 + n) :: others) as Hl3'.
  { rewrite Hl1, (Permutation_swap (c, e)) in Hl3. by apply Permutation_cons_inv in Hl3. }
  eexists _, c1. split; [done|]. split; [done|]. split; [done|].
  exists bs3, fl3, others. split; [done|]. split; [done|]. split; [done|]. split.
  - intros a Ha. rewrite Hfr3.
    + rewrite Hmv, Hfr1; [done| |].
      * eapply client_byte_mono; [|exact Ha]. rewrite Hl. set_solver.
      * eapply others_disjoint; [exact Hinv3|exact Hl3'|done].
    + eapply client_byte_mono; [|exact Ha]. rewrite Hl3'. set_solver.
  - intros i Hi. rewrite Hfr3.
    + unfold m2, mem_move. rewrite (proj2 (Z.leb_le _ _)), (proj2 (Z.ltb_lt _ _)) by (unfold cur; lia).
      simpl. replace (UMM_DATA c1 + i - UMM_DATA c1 + UMM_DATA c) with (UMM_DATA c + i) by lia.
      apply Hfr1. left. exists c, e. split; [done|]. unfold in_payload, UMM_DATA. lia.
    + left. exists c1, (c1 + n). split; [rewrite Hl3'; set_solver|].
      unfold in_payload, UMM_DATA. lia.
Qed.

(** The code's strategies 3 and 4, folded. *)
Lemma pull_down_fold {A} m c p cur (f : mem -> Z -> A) :
  (let m := umm_disconnect_from_free_list m (UMM_PBLOCK m c) in
   let '(m, c) := umm_assimilate_down m c 0 in f (mem_move m (UMM_DATA c) p cur) c)
  = f (pull_down m c p cur).1 (pull_down m c p cur).2.
Proof. unfold pull_down. cbv zeta. by destruct (umm_assimilate_down _ c 0). Qed.

(** No room for [n] blocks, neither at [c] with its free neighbours nor in a free
    block. *)
Definition no_room (bs : list blk) (c n : Z) : Prop :=
  no_fit bs n /\
  exists L1 p q L2, bs = L1 ++ p :: Blk c false :: q :: L2 /\
    prev_size p c + (idx q - c) + next_size q L2 < n.

Lemma realloc_cases h bs fl c e size :
  umm_inv h bs fl -> (c, e) ∈ live bs -> 0 < size <= max_request ->
  (exists h' c', umm_realloc h (Some (UMM_DATA c)) size = Some (h', Some (UMM_DATA c')) /\
     umm_heap_set h' = true /\ umm_numblocks h' = NB /\
     realloc_ok (umm_mem h) bs c e (umm_blocks size) (umm_mem h') c') \/
  (umm_realloc h (Some (UMM_DATA c)) size = Some (h, None) /\ no_room bs c (umm_blocks size)).
Proof.
  intros Hu Hce Hsize. pose proof Hu as [Hs Hn Hinv].
  pose proof (live_bounds Hinv _ _ Hce) as Hb. pose proof (umm_blocks_pos size Hsize) as Hnp.
  destruct (live_neighbours _ _ _ _ _ _ Hinv Hce) as (L1 & p & q & L2 & -> & -> & Hc).
  destruct (realloc_reads _ _ _ _ _ _ _ Hinv) as (E1 & E2 & E3 & E4).
  unfold umm_realloc. rewrite Hs, (proj2 (Z.eqb_neq size 0)) by lia. unfold NB in Hb.
  rewrite block_of_data by lia. cbv zeta. rewrite E3, E4, E1, u16_small by lia.
  unfold sizeof_umm_block, sizeof_header.
  rewrite (wrap_small 64) by lia. rewrite (Z.mul_comm (idx q - c) 8).
  set (n := umm_blocks size) in *.
  assert (0 <= next_size q L2 < 65536 - (idx q - c) /\ 0 <= prev_size p c /\
          idx q - c + prev_size p c + next_size q L2 < 65536) as (Hnx & Hpv & Hsum).
  { pose proof (hi_links _ _ _ _ Hinv) as Hl. apply links_mid3 in Hl as (_ & [Hp _] & _ & Hl).
    pose proof (inv_range Hinv p ltac:(set_solver)). unfold next_size, prev_size, NB in *.
    destruct L2 as [|r L3]; [destruct (isfree q), (isfree p); simpl in *; lia|].
    pose proof (inv_range Hinv r ltac:(set_solver)). destruct Hl as [[Hl _] _].
    destruct (isfree q), (isfree p); simpl in *; lia. }
  destruct (Z.leb_spec n (idx q - c)).
  { left. eexists _, c. do 3 (split; [done|]). eapply realloc_same; eauto with lia. }
  destruct (Z.leb_spec n (idx q - c + next_size q L2)).
  { left. rewrite u16_small by lia. eexists _, c. do 3 (split; [done|]).
    eapply realloc_next; eauto with lia. }
  destruct (Z.leb_spec n (prev_size p c + (idx q - c))).
  { left. rewrite u16_small by lia.
    rewrite (pull_down_fold _ _ _ _ (fun m c => Some (with_mem h (umm_realloc_trim m c _ n), Some (UMM_DATA c)))).
    eexists _, _. do 3 (split; [done|]). eapply realloc_prev; eauto with lia. }
  destruct (Z.leb_spec n (prev_size p c + (idx q - c) + next_size q L2)).
  { left. rewrite u16_small by lia.
    rewrite (pull_down_fold _ _ _ _ (fun m c => Some (with_mem h (umm_realloc_trim m c _ n), Some (UMM_DATA c)))).
    eexists _, _. do 3 (split; [done|]). eapply realloc_both; eauto with lia. }
  destruct (realloc_fresh_cases h _ fl c (idx q) size Hu Hce Hsize) as [H'|[H' Hno]]; [lia|by left|right].
  split; [exact H'|]. split; [done|]. by exists L1, p, q, L2.
Qed.

(** ** umm_init *)

Lemma init_inv h :
  umm_inv (umm_init h) [Blk 0 false; Blk 1 true; Blk 8191 false] [1].
Proof.
  constructor; [done|done|]. constructor; cbn -[umm_init]; done.
Qed.

(** ** Runs of a client

    The client's own view: the objects it holds, each an address and the size
    it asked for.  It may write inside its objects. *)

Inductive umm_reach : umm -> list (Z * Z) -> Prop :=
  | reach_init h : umm_reach (umm_init h) []
  | reach_malloc h o size h' p :
      umm_reach h o -> 0 <= size <= max_request ->
      umm_malloc h size = Some (h', Some p) -> umm_reach h' ((p, size) :: o)
  | reach_malloc_null h o size h' :
      umm_reach h o -> 0 <= size <= max_request ->
      umm_malloc h size = Some (h', None) -> umm_reach h' o
  | reach_calloc h o num item h' p :
      umm_reach h o -> 0 <= num -> 0 <= item -> item * num <= max_request ->
      umm_calloc h num item = Some (h', Some p) -> umm_reach h' ((p, item * num) :: o)
  | reach_calloc_null h o num item h' :
      umm_reach h o -> 0 <= num -> 0 <= item -> item * num <= max_request ->
      umm_calloc h num item = Some (h', None) -> umm_reach h' o
  | reach_free h o1 p size o2 :
      umm_reach h (o1 ++ (p, size) :: o2) -> umm_reach (umm_free h (Some p)) (o1 ++ o2)
  | reach_free_null h o : umm_reach h o -> umm_reach (umm_free h None) o
  | reach_realloc h o1 p size o2 size' h' q :
      umm_reach h (o1 ++ (p, size) :: o2) -> 0 < size' <= max_request ->
      umm_realloc h (Some p) size' = Some (h', Some q) ->
      umm_reach h' (o1 ++ (q, size') :: o2)
  | reach_realloc_null h o1 p size o2 size' h' :
      umm_reach h (o1 ++ (p, size) :: o2) -> 0 < size' <= max_request ->
      umm_realloc h (Some p) size' = Some (h', None) ->
      umm_reach h' (o1 ++ (p, size) :: o2)
  | reach_realloc_zero h o1 p size o2 h' :
      umm_reach h (o1 ++ (p, size) :: o2) -> umm_realloc h (Some p) 0 = Some (h', None) ->
      umm_reach h' (o1 ++ o2)
  | reach_write h o p size a v :
      umm_reach h o -> (p, size) ∈ o -> p <= a < p + size ->
      umm_reach (with_mem h (stb (umm_mem h) a v)) o.

(** The extent [(c, e)] holds the object [(p, size)]. *)
Definition holds (x : Z * Z) (o : Z * Z) : Prop :=
  o.1 = UMM_DATA x.1 /\ 0 < o.2 <= 8 * (x.2 - x.1) - 4.

Definition represents (h : umm) (o : list (Z * Z)) : Prop :=
  exists bs fl L, umm_inv h bs fl /\ live bs ≡ₚ L /\ Forall2 holds L o.

Lemma malloc_zero h bs fl : umm_inv h bs fl -> umm_malloc h 0 = Some (h, None).
Proof. intros [Hs _ _]. unfold umm_malloc. by rewrite Hs. Qed.

Lemma represents_malloc h o size :
  represents h o -> 0 < size <= max_request ->
  (exists h' p, umm_malloc h size = Some (h', Some p) /\ represents h' ((p, size) :: o) /\
     exists bs fl c, umm_inv h' bs fl /\ p = UMM_DATA c /\ (c, c + umm_blocks size) ∈ live bs) \/
  umm_malloc h size = Some (h, None).
Proof.
  intros (bs & fl & L & Hu & Hl & Hh) Hs.
  destruct (malloc_cases h bs fl size Hu Hs) as [(c & h' & bs' & fl' & E & Hu' & _ & Hl' & _)|[E _]];
    [left|by right].
  pose proof (umm_blocks_fit size Hs). exists h', (UMM_DATA c). split; [done|]. split.
  - exists bs', fl', ((c, c + umm_blocks size) :: L). split; [done|]. split; [by rewrite Hl', Hl|].
    constructor; [|done]. split; simpl; [done|lia].
  - exists bs', fl', c. split; [done|]. split; [done|]. rewrite Hl'. set_solver.
Qed.

(** Finding the extent of one of the client's objects. *)
Lemma represents_object h o1 p size o2 :
  represents h (o1 ++ (p, size) :: o2) ->
  exists bs fl L1 c e L2, umm_inv h bs fl /\ live bs ≡ₚ (c, e) :: L1 ++ L2 /\ p = UMM_DATA c /\
    (c, e) ∈ live bs /\ Forall2 holds L1 o1 /\ Forall2 holds L2 o2 /\ 0 < size <= 8 * (e - c) - 4.
Proof.
  intros (bs & fl & L & Hu & Hl & Hh).
  apply Forall2_app_inv_r in Hh as (L1 & L2' & H1 & H2 & ->).
  apply Forall2_cons_inv_r in H2 as ([c e] & L2 & [Hp Hsz] & H2 & ->). simpl in *. subst.
  rewrite <- Permutation_middle in Hl.
  exists bs, fl, L1, c, e, L2. split; [done|]. split; [done|]. split; [done|].
  split; [rewrite Hl; set_solver|]. auto.
Qed.

Lemma represents_write h o p size a v :
  represents h o -> (p, size) ∈ o -> p <= a < p + size ->
  represents (with_mem h (stb (umm_mem h) a v)) o.
Proof.
  intros Hr (o1 & o2 & ->)%list_elem_of_split Ha. pose proof Hr as (bs0 & fl0 & L0 & Hu0 & Hl0 & Hh0).
  destruct (represents_object _ _ _ _ _ Hr) as (bs & fl & L1 & c & e & L2 & [Hs Hn Hinv] & Hl & -> & Hce & H1 & H2 & Hsz).
  exists bs, fl, (L1 ++ (c, e) :: L2). split; [|split].
  - constructor; [done..|]. eapply heap_inv_payload; [exact Hinv|exact Hce|].
    intros x Hx. cbn [umm_mem with_mem]. unfold stb, in_payload, UMM_DATA in *. case_cmp; [lia|done].
  - by rewrite Hl, Permutation_middle.
  - apply Forall2_app; [done|]. constructor; [|done]. split; simpl; [done|lia].
Qed.

Lemma represents_free h o1 p size o2 :
  represents h (o1 ++ (p, size) :: o2) -> represents (umm_free h (Some p)) (o1 ++ o2).
Proof.
  intros (bs & fl & L1 & c & e & L2 & Hu & Hl & -> & Hce & H1 & H2 & _)%represents_object.
  destruct (free_cases _ _ _ c e Hu Hce) as (bs' & fl' & Hu' & Hl' & _).
  exists bs', fl', (L1 ++ L2). split; [done|]. split; [|by apply Forall2_app].
  rewrite Hl in Hl'. by apply Permutation_cons_inv in Hl'.
Qed.

Lemma represents_realloc h o1 p size o2 size' :
  represents h (o1 ++ (p, size) :: o2) -> 0 < size' <= max_request ->
  (exists h' q, umm_realloc h (Some p) size' = Some (h', Some q) /\
     represents h' (o1 ++ (q, size') :: o2)) \/
  umm_realloc h (Some p) size' = Some (h, None).
Proof.
  intros (bs & fl & L1 & c & e & L2 & Hu & Hl & -> & Hce & H1 & H2 & _)%represents_object Hs.
  destruct (realloc_cases _ _ _ c e size' Hu Hce Hs) as [(h' & c' & E & Hs' & Hn' & Hok)|[E _]]; [left|by right].
  destruct Hok as (bs' & fl' & others & Hinv' & Hlo & Hl' & _).
  exists h', (UMM_DATA c'). split; [done|].
  exists bs', fl', (L1 ++ (c', c' + umm_blocks size') :: L2). split; [by constructor|]. split.
  - rewrite Hl in Hlo. apply Permutation_cons_inv in Hlo.
    by rewrite Hl', <- Hlo, Permutation_middle.
  - pose proof (umm_blocks_fit size' Hs). apply Forall2_app; [done|].
    constructor; [|done]. split; simpl; [done|lia].
Qed.

Lemma represents_calloc h o num item :
  represents h o -> 0 <= num -> 0 <= item -> 0 < item * num <= max_request ->
  (exists h' p, umm_calloc h num item = Some (h', Some p) /\ represents h' ((p, item * num) :: o)) \/
  umm_calloc h num item = Some (h, None).
Proof.
  intros Hr Hnum Hitem Hs. unfold umm_calloc.
  rewrite (wrap_small 64) by (unfold max_request in *; lia).
  destruct (represents_malloc h o (item * num) Hr Hs) as [(h' & p & -> & Hr' & _)| ->]; [left|by right].
  eexists _, p. split; [done|].
  destruct (represents_object h' [] p (item * num) o Hr') as
    (bs' & fl' & L1 & c & e & L2 & [Hs' Hn' Hinv'] & Hl & -> & Hce & H1 & H2 & Hsz).
  exists bs', fl', ((c, e) :: L1 ++ L2). split; [|split; [done|]].
  - constructor; [done..|]. eapply heap_inv_payload; [exact Hinv'|exact Hce|].
    intros x Hx. cbn [umm_mem with_mem]. unfold mem_set, in_payload, UMM_DATA in *. cmp_solve.
  - apply Forall2_nil_inv_r in H1 as ->. constructor; [|done]. split; simpl; [done|lia].
Qed.

Lemma reach_represents h o : umm_reach h o -> represents h o.
Proof.
  induction 1 as [h|h o size h' p _ IH Hs E|h o size h' _ IH Hs E|h o num item h' p _ IH Hn Hi Hs E
    |h o num item h' _ IH Hn Hi Hs E|h o1 p size o2 _ IH|h o _ IH|h o1 p size o2 size' h' q _ IH Hs E
    |h o1 p size o2 size' h' _ IH Hs E|h o1 p size o2 h' _ IH E|h o p size a v _ IH Hin Ha].
  - exists [Blk 0 false; Blk 1 true; Blk 8191 false], [1], []. split; [apply init_inv|]. by split.
  - destruct (decide (size = 0)) as [->|].
    { destruct IH as (bs & fl & L & Hu & _). by rewrite (malloc_zero _ _ _ Hu) in E. }
    destruct (represents_malloc h o size IH ltac:(lia)) as [(? & ? & E' & ? & _)|E']; by simplify_eq.
  - destruct (decide (size = 0)) as [->|].
    { destruct IH as (bs & fl & L & Hu & Hr). rewrite (malloc_zero _ _ _ Hu) in E. simplify_eq.
      by exists bs, fl, L. }
    destruct (represents_malloc h o size IH ltac:(lia)) as [(? & ? & E' & ? & _)|E']; by simplify_eq.
  - destruct (decide (item * num = 0)) as [E0|].
    { destruct IH as (bs & fl & L & Hu & Hr). unfold umm_calloc in E. rewrite E0 in E.
      change (u64 0) with 0 in E. by rewrite (malloc_zero _ _ _ Hu) in E. }
    destruct (represents_calloc h o num item IH Hn Hi ltac:(nia)) as [(? & ? & E' & ?)|E']; by simplify_eq.
  - destruct (decide (item * num = 0)) as [E0|].
    { destruct IH as (bs & fl & L & Hu & Hr). unfold umm_calloc in E. rewrite E0 in E.
      change (u64 0) with 0 in E. rewrite (malloc_zero _ _ _ Hu) in E. simplify_eq. by exists bs, fl, L. }
    destruct (represents_calloc h o num item IH Hn Hi ltac:(nia)) as [(? & ? & E' & ?)|E']; by simplify_eq.
  - by eapply represents_free.
  - done.
  - destruct (represents_realloc h o1 p size o2 size' IH Hs) as [(? & ? & E' & ?)|E']; by simplify_eq.
  - destruct (represents_realloc h o1 p size o2 size' IH Hs) as [(? & ? & E' & ?)|E']; by simplify_eq.
  - pose proof IH as (bs & fl & L & [Hs _ _] & _). unfold umm_realloc in E. rewrite Hs in E.
    simpl in E. injection E as <-. by eapply represents_free.
  - by eapply represents_write.
Qed.

(** ** Properties *)

(** [umm_init], whatever was in memory before, makes a well-formed heap of
    8192 blocks: block 0, one free block and the end block, with the free
    block alone on the free list. *)
Theorem umm_init_correct h :
  umm_inv (umm_init h) [Blk 0 false; Blk 1 true; Blk 8191 false] [1].
Proof. apply init_inv. Qed.

(** C22: [umm_malloc] on a well-formed heap terminates for every request of at
    most [max_request] = 524276 bytes (for larger ones the 16-bit block count
    wraps around).  It returns a block taken from the best-fitting free block,
    large enough for the request, that was not live before; the heap stays well
    formed and no byte of another payload or outside the heap changes.  It
    returns NULL, and changes nothing, exactly when the request is for zero
    bytes or no free block is large enough. *)
Theorem umm_malloc_correct h bs fl size :
  umm_inv h bs fl -> 0 <= size <= max_request ->
  let n := umm_blocks size in
  (exists c h' bs' fl', umm_malloc h size = Some (h', Some (UMM_DATA c)) /\ 0 < size /\
     umm_inv h' bs' fl' /\ best_fit bs n c /\ size <= 8 * n - 4 /\
     live bs' ≡ₚ (c, c + n) :: live bs /\
     forall a, client_byte NB (live bs) a -> umm_mem h' a = umm_mem h a) \/
  (umm_malloc h size = Some (h, None) /\ (size = 0 \/ no_fit bs n)).
Proof.
  intros Hu Hs n. destruct (decide (size = 0)) as [->|Hz].
  { right. split; [by eapply malloc_zero|by left]. }
  pose proof (umm_blocks_fit size ltac:(lia)).
  destruct (malloc_cases h bs fl size Hu ltac:(lia)) as [(c & h' & bs' & fl' & ? & ? & ? & ? & ?)|[? ?]];
    [left|right; auto].
  exists c, h', bs', fl'. split_and!; [done|lia|done..|apply H|done|done].
Qed.

(** C25: [umm_free] of a live block keeps the heap well formed (neighbouring free
    blocks merged), removes exactly that block from the live ones, and leaves
    every other payload and everything outside the heap unchanged. *)
Theorem umm_free_correct h bs fl c e :
  umm_inv h bs fl -> (c, e) ∈ live bs ->
  exists bs' fl', umm_inv (umm_free h (Some (UMM_DATA c))) bs' fl' /\
    (c, e) :: live bs' ≡ₚ live bs /\
    forall a, client_byte NB (live bs') a ->
      umm_mem (umm_free h (Some (UMM_DATA c))) a = umm_mem h a.
Proof. apply free_cases. Qed.

(** C28: [umm_realloc] of a live block to 1 to [max_request] = 524276 bytes (for
    more the 16-bit block count wraps around), in each of its five strategies,
    terminates; either it returns a block of the requested number of blocks
    whose contents are the old ones up to the smaller size, with every other
    payload unchanged and the heap well formed, or it returns NULL and leaves
    the heap exactly as it was: only when neither the block with its free
    neighbours nor any free block is large enough. *)
Theorem umm_realloc_correct h bs fl c e size :
  umm_inv h bs fl -> (c, e) ∈ live bs -> 0 < size <= max_request ->
  (exists h' c', umm_realloc h (Some (UMM_DATA c)) size = Some (h', Some (UMM_DATA c')) /\
     umm_heap_set h' = true /\ umm_numblocks h' = NB /\ size <= 8 * umm_blocks size - 4 /\
     realloc_ok (umm_mem h) bs c e (umm_blocks size) (umm_mem h') c') \/
  (umm_realloc h (Some (UMM_DATA c)) size = Some (h, None) /\ no_room bs c (umm_blocks size)).
Proof.
  intros Hu Hce Hs. pose proof (umm_blocks_fit size Hs).
  destruct (realloc_cases h bs fl c e size Hu Hce Hs) as [(h' & c' & ? & ? & ? & ?)|?]; [left|auto].
  exists h', c'. auto with lia.
Qed.

(** C2: in every state a client can reach from [umm_init] by allocating, zero
    allocating, reallocating (each time at most [max_request] = 524276 bytes,
    the largest request whose block count fits in 16 bits), freeing what it
    holds and writing inside what it holds, the objects it holds lie inside the
    heap array and do not overlap, and every further [umm_malloc] or
    [umm_realloc] of at most [max_request] bytes terminates. *)
Theorem umm_reach_safe h o :
  umm_reach h o ->
  (forall p size, (p, size) ∈ o -> 0 < p /\ p + size <= UMM_MALLOC_CFG_HEAP_SIZE) /\
  (forall i j p1 s1 p2 s2, o !! i = Some (p1, s1) -> o !! j = Some (p2, s2) -> i <> j ->
     p1 + s1 <= p2 \/ p2 + s2 <= p1) /\
  (forall size, 0 <= size <= max_request -> exists r, umm_malloc h size = Some r) /\
  (forall p s size, (p, s) ∈ o -> 0 <= size <= max_request -> exists r, umm_realloc h (Some p) size = Some r).
Proof.
  intros Hr%reach_represents. pose proof Hr as (bs & fl & L & [Hs Hn Hinv] & Hl & Hh).
  pose proof (live_NoDup _ (inv_before Hinv)) as Hnd. rewrite Hl in Hnd.
  split; [|split; [|split]].
  - intros p size (i & Hi)%list_elem_of_lookup.
    destruct (Forall2_lookup_r _ _ _ _ _ Hh Hi) as ([c e] & Hc & [Hp Hsz]). simpl in *.
    assert ((c, e) ∈ live bs) as Hce by (rewrite Hl; by eapply list_elem_of_lookup_2).
    pose proof (live_bounds Hinv _ _ Hce). unfold UMM_MALLOC_CFG_HEAP_SIZE, UMM_DATA, NB in *. lia.
  - intros i j p1 s1 p2 s2 Hi Hj Hij.
    destruct (Forall2_lookup_r _ _ _ _ _ Hh Hi) as ([c1 e1] & Hc1 & [Hp1 Hs1]).
    destruct (Forall2_lookup_r _ _ _ _ _ Hh Hj) as ([c2 e2] & Hc2 & [Hp2 Hs2]). simpl in *.
    assert ((c1, e1) ∈ live bs) as H1 by (rewrite Hl; by eapply list_elem_of_lookup_2).
    assert ((c2, e2) ∈ live bs) as H2 by (rewrite Hl; by eapply list_elem_of_lookup_2).
    destruct (live_disjoint Hinv _ _ _ _ H1 H2) as [E|D].
    + destruct Hij. eapply NoDup_lookup; eauto. congruence.
    + unfold UMM_DATA in *. lia.
  - intros size Hsz. destruct (decide (size = 0)) as [->|].
    { eexists. by eapply malloc_zero. }
    destruct (represents_malloc h o size Hr ltac:(lia)) as [(? & ? & -> & _)| ->]; eauto.
  - intros p s size (o1 & o2 & ->)%list_elem_of_split Hsz. destruct (decide (size = 0)) as [->|].
    { unfold umm_realloc. rewrite Hs. by eexists. }
    destruct (represents_realloc h o1 p s o2 size Hr ltac:(lia)) as [(? & ? & -> & _)| ->]; eauto.
Qed.

(** [umm_calloc] returns NULL without a change when no free block fits, or a
    fresh block, as [umm_malloc] does, whose [num * item_size] bytes are all
    zero. *)
Theorem umm_calloc_correct h bs fl num item :
  umm_inv h bs fl -> 0 <= num -> 0 <= item -> 0 < item * num <= max_request ->
  let n := umm_blocks (item * num) in
  (exists c h' bs' fl', umm_calloc h num item = Some (h', Some (UMM_DATA c)) /\
     umm_inv h' bs' fl' /\ live bs' ≡ₚ (c, c + n) :: live bs /\
     (forall i, 0 <= i < item * num -> ldb (umm_mem h') (UMM_DATA c + i) = 0) /\
     forall a, client_byte NB (live bs) a -> umm_mem h' a = umm_mem h a) \/
  (umm_calloc h num item = Some (h, None) /\ no_fit bs n).
Proof.
  intros Hu Hnum Hitem Hs n. pose proof (umm_blocks_fit _ Hs). unfold umm_calloc.
  rewrite (wrap_small 64) by (unfold max_request in *; lia).
  destruct (malloc_cases h bs fl _ Hu Hs)
    as [(c & h' & bs' & fl' & -> & [Hs' Hn' Hinv'] & _ & Hl & Hfr)|[-> ?]]; [left|auto].
  set (m := umm_mem h') in *.
  assert (forall a, ~ in_payload c (c + n) a -> mem_set m (UMM_DATA c) 0 (item * num) a = m a) as Hms.
  { intros a Ha. unfold mem_set, in_payload, UMM_DATA, n in *. cmp_solve. }
  assert (heap_inv NB (mem_set m (UMM_DATA c) 0 (item * num)) bs' fl') as Hinv2.
  { eapply (heap_inv_payload _ m _ _ _ c (c + n)); [done|rewrite Hl; set_solver|done]. }
  eexists c, _, bs', fl'. split; [done|]. split; [by constructor|]. split; [done|].
  cbn [umm_mem with_mem]. split.
  - intros i Hi. unfold ldb, mem_set.
    rewrite (proj2 (Z.leb_le _ _)), (proj2 (Z.ltb_lt _ _)) by lia. done.
  - intros a Ha. rewrite Hms; [by apply Hfr|]. eapply others_disjoint; [exact Hinv'|exact Hl|done].
Qed.

(** The 16-bit block count of [umm_blocks] makes requests 512 KiB apart
    indistinguishable: on any heap [umm_malloc(size + 524288)] behaves exactly
    as [umm_malloc(size)], so a request of 524293 bytes can succeed with a
    block whose payload is 12 bytes. *)
Theorem umm_malloc_request_wraps h size :
  sizeof_body < size -> size + 524288 < 2 ^ 64 ->
  umm_malloc h (size + 524288) = umm_malloc h size.
Proof.
  intros H4 Hmax. unfold umm_malloc. unfold sizeof_body in *.
  rewrite !(proj2 (Z.eqb_neq _ 0)) by lia.
  assert (umm_blocks (size + 524288) = umm_blocks size) as ->; [|done].
  unfold umm_blocks, sizeof_body, sizeof_umm_block.
  rewrite !(proj2 (Z.leb_gt _ _)), !(wrap_small 64) by lia.
  replace (2 + (size + 524288 - (1 + 4)) / 8) with (2 + (size - (1 + 4)) / 8 + 1 * 2 ^ 16) by zdm.
  apply Z.mod_add. lia.
Qed.

(** ** Witnesses on a concrete heap: one 100-byte block allocated. *)

Definition blank : umm := mk_umm false 0 (fun _ => 0).

Definition demo_heap : umm :=
  match umm_malloc blank 100 with Some (h, _) => h | None => blank end.

Definition demo_blocks : list blk := [Blk 0 false; Blk 1 false; Blk 14 true; Blk 8191 false].

Lemma demo_inv : umm_inv demo_heap demo_blocks [14].
Proof. constructor; [done|done|]. constructor; vm_compute; repeat split; try done; by constructor. Qed.

Lemma demo_fits n : n <= 8177 -> ~ no_fit demo_blocks n.
Proof.
  intros Hn H. specialize (H [Blk 0 false; Blk 1 false] 14 (Blk 8191 false) [] eq_refl).
  cbn [idx] in H. lia.
Qed.

Lemma umm_malloc_correct_witness :
  exists h' c, umm_malloc demo_heap 4000 = Some (h', Some (UMM_DATA c)).
Proof.
  destruct (umm_malloc_correct demo_heap demo_blocks [14] 4000 demo_inv ltac:(unfold max_request; lia))
    as [(c & h' & bs' & fl' & E & _)|[_ [H|H]]]; [by exists h', c|discriminate H|].
  exfalso. revert H. apply demo_fits. vm_compute. discriminate.
Defined.

Lemma umm_free_correct_witness :
  exists bs' fl', umm_inv (umm_free demo_heap (Some 12)) bs' fl' /\ live bs' = [].
Proof.
  destruct (umm_free_correct demo_heap demo_blocks [14] 1 14 demo_inv) as (bs' & fl' & H & HP & _).
  { vm_compute. left. }
  exists bs', fl'. split; [exact H|]. apply Permutation_nil_r.
  apply (Permutation_cons_inv (a := (1, 14))). rewrite HP. reflexivity.
Defined.

Lemma umm_realloc_correct_witness :
  (exists h' c', umm_realloc demo_heap (Some 12) 3000 = Some (h', Some (UMM_DATA c'))).
Proof.
  destruct (umm_realloc_correct demo_heap demo_blocks [14] 1 14 3000 demo_inv) as [(h' & c' & E & _)|[E _]].
  { vm_compute. left. } { unfold max_request; lia. }
  - exists h', c'. exact E.
  - exfalso. assert (option_map snd (umm_realloc demo_heap (Some 12) 3000) = Some (Some 12)) as E2
      by (vm_compute; reflexivity).
    change (UMM_DATA 1) with 12 in E. rewrite E in E2. cbn [option_map snd] in E2. discriminate E2.
Defined.

Lemma umm_reach_safe_witness :
  umm_reach demo_heap [(12, 100)] /\ exists r, umm_malloc demo_heap 8 = Some r.
Proof.
  assert (umm_reach demo_heap [(12, 100)]) as H.
  { apply (reach_malloc (umm_init blank) [] 100); [constructor|unfold max_request; lia|vm_compute; reflexivity]. }
  split; [exact H|]. destruct (umm_reach_safe demo_heap [(12, 100)] H) as (_ & _ & Hm & _).
  apply Hm. unfold max_request; lia.
Defined.

Lemma umm_calloc_correct_witness :
  exists c h', umm_calloc demo_heap 3 50 = Some (h', Some (UMM_DATA c)) /\
    ldb (umm_mem h') (UMM_DATA c + 149) = 0.
Proof.
  destruct (umm_calloc_correct demo_heap demo_blocks [14] 3 50 demo_inv)
    as [(c & h' & bs' & fl' & E & _ & _ & Hz & _)|[_ H]];
    [lia|lia|unfold max_request; lia| |].
  - exists c, h'. split; [exact E|]. apply Hz. lia.
  - exfalso. revert H. apply demo_fits. vm_compute. discriminate.
Defined.

Lemma umm_malloc_request_wraps_witness :
  umm_malloc demo_heap 524293 = umm_malloc demo_heap 5.
Proof. apply (umm_malloc_request_wraps demo_heap 5); unfold sizeof_body; lia. Defined.
