(* ===== verification/Lzvn.v ===== *)
(** The LZVN decompressor of Lilu ([src/Lilu/lzvn/lzvn.c]): decoder state,
    jump table, one definition per label of [lzvn_decode], and
    [lzvn_decode_buffer].

    Pointers are addresses of a byte memory.  Every access goes through [rd] or
    [wr], which fault outside the source and destination buffers, so that a
    result [Ok _] says the run was memory safe.  A label of the C code is a
    function from the local variables to either [Goto] (dispatch on the next
    opcode) or [Return]. *)
From S2P Require Import Prelude.
From stdpp Require Import prelude.
From Stdlib Require Import ZArith Lia.
Open Scope Z_scope.
Open Scope c_scope.

(** ** State *)

Record lzvn_decoder_state := mk_state {
  st_src : Z;
  st_src_end : Z;
  st_dst : Z;
  st_dst_begin : Z;
  st_dst_end : Z;
  st_L : Z;
  st_M : Z;
  st_D : Z;
  st_d_prev : Z;
  st_end_of_stream : bool;
}.

(** The two buffers: accesses outside them fault. *)
Record bufs := mk_bufs {
  b_src : Z;
  b_src_end : Z;
  b_dst : Z;
  b_dst_end : Z;
}.

Definition inside (lo hi a n : Z) : bool := (lo <=? a) && (a + n <=? hi).

Definition rd (b : bufs) (n : nat) (m : mem) (a : Z) : res Z :=
  if inside (b_src b) (b_src_end b) a (Z.of_nat n) || inside (b_dst b) (b_dst_end b) a (Z.of_nat n)
  then Ok (ldn n m a) else Fault.

Definition wr (b : bufs) (n : nat) (m : mem) (a v : Z) : res mem :=
  if inside (b_dst b) (b_dst_end b) a (Z.of_nat n) then Ok (stn n m a v) else Fault.

Definition load2 (b : bufs) := rd b 2.
Definition load4 (b : bufs) := rd b 4.
Definition load8 (b : bufs) := rd b 8.
Definition store4 (b : bufs) := wr b 4.
Definition store8 (b : bufs) := wr b 8.

Definition extract (container lsb width : Z) : Z :=
  if width =? 64 then container
  else u64 (container .>> lsb) .& (u64 (1 .<< width) - 1).

(** ** Dispatch *)

Inductive label :=
  | sml_d | med_d | lrg_d | pre_d | sml_m | lrg_m | sml_l | lrg_l | nop | eos | udef.

#[export] Instance label_eq_dec : EqDecision label.
Proof. solve_decision. Defined.

(** The rows of the jump table. *)
Definition opc_tbl : list label :=
  [sml_d; sml_d; sml_d; sml_d; sml_d; sml_d; eos;   lrg_d;
   sml_d; sml_d; sml_d; sml_d; sml_d; sml_d; nop;   lrg_d;
   sml_d; sml_d; sml_d; sml_d; sml_d; sml_d; nop;   lrg_d;
   sml_d; sml_d; sml_d; sml_d; sml_d; sml_d; udef;  lrg_d;
   sml_d; sml_d; sml_d; sml_d; sml_d; sml_d; udef;  lrg_d;
   sml_d; sml_d; sml_d; sml_d; sml_d; sml_d; udef;  lrg_d;
   sml_d; sml_d; sml_d; sml_d; sml_d; sml_d; udef;  lrg_d;
   sml_d; sml_d; sml_d; sml_d; sml_d; sml_d; udef;  lrg_d;
   sml_d; sml_d; sml_d; sml_d; sml_d; sml_d; pre_d; lrg_d;
   sml_d; sml_d; sml_d; sml_d; sml_d; sml_d; pre_d; lrg_d;
   sml_d; sml_d; sml_d; sml_d; sml_d; sml_d; pre_d; lrg_d;
   sml_d; sml_d; sml_d; sml_d; sml_d; sml_d; pre_d; lrg_d;
   sml_d; sml_d; sml_d; sml_d; sml_d; sml_d; pre_d; lrg_d;
   sml_d; sml_d; sml_d; sml_d; sml_d; sml_d; pre_d; lrg_d;
   udef;  udef;  udef;  udef;  udef;  udef;  udef;  udef;
   udef;  udef;  udef;  udef;  udef;  udef;  udef;  udef;
   sml_d; sml_d; sml_d; sml_d; sml_d; sml_d; pre_d; lrg_d;
   sml_d; sml_d; sml_d; sml_d; sml_d; sml_d; pre_d; lrg_d;
   sml_d; sml_d; sml_d; sml_d; sml_d; sml_d; pre_d; lrg_d;
   sml_d; sml_d; sml_d; sml_d; sml_d; sml_d; pre_d; lrg_d;
   med_d; med_d; med_d; med_d; med_d; med_d; med_d; med_d;
   med_d; med_d; med_d; med_d; med_d; med_d; med_d; med_d;
   med_d; med_d; med_d; med_d; med_d; med_d; med_d; med_d;
   med_d; med_d; med_d; med_d; med_d; med_d; med_d; med_d;
   sml_d; sml_d; sml_d; sml_d; sml_d; sml_d; pre_d; lrg_d;
   sml_d; sml_d; sml_d; sml_d; sml_d; sml_d; pre_d; lrg_d;
   udef;  udef;  udef;  udef;  udef;  udef;  udef;  udef;
   udef;  udef;  udef;  udef;  udef;  udef;  udef;  udef;
   lrg_l; sml_l; sml_l; sml_l; sml_l; sml_l; sml_l; sml_l;
   sml_l; sml_l; sml_l; sml_l; sml_l; sml_l; sml_l; sml_l;
   lrg_m; sml_m; sml_m; sml_m; sml_m; sml_m; sml_m; sml_m;
   sml_m; sml_m; sml_m; sml_m; sml_m; sml_m; sml_m; sml_m].

Definition dispatch (opc : Z) : label := nth (Z.to_nat opc) opc_tbl udef.

(** The [case] labels of the [switch] used where labels are not values. *)
Definition cases_sml_d : list Z :=
  [0; 1; 2; 3; 4; 5; 8; 9; 10; 11; 12; 13; 16; 17; 18; 19; 20; 21; 24; 25; 26; 27; 28; 29;
   32; 33; 34; 35; 36; 37; 40; 41; 42; 43; 44; 45; 48; 49; 50; 51; 52; 53; 56; 57; 58; 59;
   60; 61; 64; 65; 66; 67; 68; 69; 72; 73; 74; 75; 76; 77; 80; 81; 82; 83; 84; 85; 88; 89;
   90; 91; 92; 93; 96; 97; 98; 99; 100; 101; 104; 105; 106; 107; 108; 109; 128; 129; 130;
   131; 132; 133; 136; 137; 138; 139; 140; 141; 144; 145; 146; 147; 148; 149; 152; 153;
   154; 155; 156; 157; 192; 193; 194; 195; 196; 197; 200; 201; 202; 203; 204; 205].
Definition cases_med_d : list Z :=
  [160; 161; 162; 163; 164; 165; 166; 167; 168; 169; 170; 171; 172; 173; 174; 175; 176;
   177; 178; 179; 180; 181; 182; 183; 184; 185; 186; 187; 188; 189; 190; 191].
Definition cases_lrg_d : list Z :=
  [7; 15; 23; 31; 39; 47; 55; 63; 71; 79; 87; 95; 103; 111; 135; 143; 151; 159; 199; 207].
Definition cases_pre_d : list Z :=
  [70; 78; 86; 94; 102; 110; 134; 142; 150; 158; 198; 206].
Definition cases_sml_m : list Z :=
  [241; 242; 243; 244; 245; 246; 247; 248; 249; 250; 251; 252; 253; 254; 255].
Definition cases_lrg_m : list Z :=
  [240].
Definition cases_sml_l : list Z :=
  [225; 226; 227; 228; 229; 230; 231; 232; 233; 234; 235; 236; 237; 238; 239].
Definition cases_lrg_l : list Z :=
  [224].
Definition cases_nop : list Z :=
  [14; 22].
Definition cases_eos : list Z :=
  [6].
Definition cases_udef : list Z :=
  [30; 38; 46; 54; 62; 112; 113; 114; 115; 116; 117; 118; 119; 120; 121; 122; 123; 124;
   125; 126; 127; 208; 209; 210; 211; 212; 213; 214; 215; 216; 217; 218; 219; 220; 221;
   222; 223].

Definition opc_switch (opc : Z) : option label :=
  if bool_decide (opc ∈ cases_sml_d) then Some sml_d
  else if bool_decide (opc ∈ cases_med_d) then Some med_d
  else if bool_decide (opc ∈ cases_lrg_d) then Some lrg_d
  else if bool_decide (opc ∈ cases_pre_d) then Some pre_d
  else if bool_decide (opc ∈ cases_sml_m) then Some sml_m
  else if bool_decide (opc ∈ cases_lrg_m) then Some lrg_m
  else if bool_decide (opc ∈ cases_sml_l) then Some sml_l
  else if bool_decide (opc ∈ cases_lrg_l) then Some lrg_l
  else if bool_decide (opc ∈ cases_nop) then Some nop
  else if bool_decide (opc ∈ cases_eos) then Some eos
  else if bool_decide (opc ∈ cases_udef) then Some udef
  else None.

(** ** The labels *)

(** The variables that live across opcodes. *)
Record locals := mk_locals {
  src_ptr : Z;
  src_len : Z;
  dst_ptr : Z;
  dst_len : Z;
  var_D : Z;
}.

(** [PTR_LEN_INC] on the source and on the destination. *)
Definition src_inc (v : locals) (k : Z) : locals :=
  mk_locals (src_ptr v + k) (u64 (src_len v - k)) (dst_ptr v) (dst_len v) (var_D v).
Definition dst_inc (v : locals) (k : Z) : locals :=
  mk_locals (src_ptr v) (src_len v) (dst_ptr v + k) (u64 (dst_len v - k)) (var_D v).
Definition with_D (v : locals) (d : Z) : locals :=
  mk_locals (src_ptr v) (src_len v) (dst_ptr v) (dst_len v) d.

Definition UPDATE_GOOD (st : lzvn_decoder_state) (v : locals) : lzvn_decoder_state :=
  mk_state (src_ptr v) (st_src_end st) (dst_ptr v) (st_dst_begin st) (st_dst_end st)
    (st_L st) (st_M st) (st_D st) (sext 64 (var_D v)) (st_end_of_stream st).

Definition set_end_of_stream (st : lzvn_decoder_state) : lzvn_decoder_state :=
  mk_state (st_src st) (st_src_end st) (st_dst st) (st_dst_begin st) (st_dst_end st)
    (st_L st) (st_M st) (st_D st) (st_d_prev st) true.

(** The [Save state] blocks. *)
Definition save_partial (st : lzvn_decoder_state) (src dst L M D : Z) : lzvn_decoder_state :=
  mk_state src (st_src_end st) dst (st_dst_begin st) (st_dst_end st)
    L M D (st_d_prev st) (st_end_of_stream st).

Inductive outcome :=
  | Goto (st : lzvn_decoder_state) (v : locals) (opc : Z) (m : mem)
  | Return (st : lzvn_decoder_state) (m : mem).

(** [for (i = 0; i < n; ++i) dst[i] = src[i]]. *)
Definition byte_copy (b : bufs) (m : mem) (dst src n : Z) : res mem :=
  for_loop (Z.to_nat n) 0 n 1
    (fun i m => let! x := rd b 1 m (src + i) in wr b 1 m (dst + i) x) m.

(** [for (i = 0; i < n; i += 8) store8(&dst[i], load8(&src[i]))]. *)
Definition wide_copy (b : bufs) (m : mem) (dst src n : Z) : res mem :=
  for_loop (Z.to_nat n) 0 n 8
    (fun i m => let! x := load8 b m (src + i) in store8 b m (dst + i) x) m.

(** [opc = src_ptr[0]; goto *opc_tbl[opc]]. *)
Definition next_opcode (b : bufs) (st : lzvn_decoder_state) (v : locals) (m : mem) : res outcome :=
  let! opc := rd b 1 m (src_ptr v) in Ok (Goto st v opc m).

Definition copy_match (b : bufs) (st : lzvn_decoder_state) (v : locals) (m : mem) (M : Z)
  : res outcome :=
  let dst := dst_ptr v in
  let dlen := dst_len v in
  let D := var_D v in
  if (u64 (M + 7) <=? dlen) && (8 <=? D) then
    let! m := wide_copy b m dst (dst - D) M in
    next_opcode b st (dst_inc v M) m
  else if M <=? dlen then
    let! m := byte_copy b m dst (dst - D) M in
    next_opcode b st (dst_inc v M) m
  else
    let! m := byte_copy b m dst (dst - D) dlen in
    Ok (Return (save_partial st (src_ptr v) (dst + dlen) 0 (u64 (M - dlen)) D) m).

Definition copy_literal_and_match (b : bufs) (st : lzvn_decoder_state) (v : locals) (m : mem)
    (opc_len L M : Z) : res outcome :=
  let v := src_inc v opc_len in
  let go (m : mem) : res outcome :=
    let v := src_inc (dst_inc v L) L in
    if (u64 (dst_ptr v - st_dst_begin st) <? var_D v) || (var_D v =? 0) then Ok (Return st m)
    else copy_match b st v m M in
  if (4 <=? dst_len v) && (4 <=? src_len v) then
    let! x := load4 b m (src_ptr v) in
    let! m := store4 b m (dst_ptr v) x in
    go m
  else if L <=? dst_len v then
    let! m := byte_copy b m (dst_ptr v) (src_ptr v) L in
    go m
  else
    let! m := byte_copy b m (dst_ptr v) (src_ptr v) (dst_len v) in
    Ok (Return (save_partial st (src_ptr v + dst_len v) (dst_ptr v + dst_len v)
                  (u64 (L - dst_len v)) M (var_D v)) m).

Definition copy_literal (b : bufs) (st : lzvn_decoder_state) (v : locals) (m : mem)
    (opc_len L : Z) : res outcome :=
  if src_len v <=? u64 (opc_len + L) then Ok (Return st m)
  else
    let v := src_inc v opc_len in
    if (u64 (L + 7) <=? dst_len v) && (u64 (L + 7) <=? src_len v) then
      let! m := wide_copy b m (dst_ptr v) (src_ptr v) L in
      next_opcode b st (src_inc (dst_inc v L) L) m
    else if L <=? dst_len v then
      let! m := byte_copy b m (dst_ptr v) (src_ptr v) L in
      next_opcode b st (src_inc (dst_inc v L) L) m
    else
      let! m := byte_copy b m (dst_ptr v) (src_ptr v) (dst_len v) in
      Ok (Return (save_partial st (src_ptr v + dst_len v) (dst_ptr v + dst_len v)
                    (u64 (L - dst_len v)) 0 (var_D v)) m).

Definition do_sml_d (b : bufs) (st : lzvn_decoder_state) (v : locals) (opc : Z) (m : mem)
  : res outcome :=
  let st := UPDATE_GOOD st v in
  let L := extract opc 6 2 in
  let M := extract opc 3 3 + 3 in
  if src_len v <=? 2 + L then Ok (Return st m)
  else
    let! x := rd b 1 m (src_ptr v + 1) in
    copy_literal_and_match b st (with_D v (u64 (extract opc 0 3 .<< 8) .| x)) m 2 L M.

Definition do_med_d (b : bufs) (st : lzvn_decoder_state) (v : locals) (opc : Z) (m : mem)
  : res outcome :=
  let st := UPDATE_GOOD st v in
  let L := extract opc 3 2 in
  if src_len v <=? 3 + L then Ok (Return st m)
  else
    let! opc23 := load2 b m (src_ptr v + 1) in
    let M := (u64 (extract opc 0 3 .<< 2) .| extract opc23 0 2) + 3 in
    copy_literal_and_match b st (with_D v (extract opc23 2 14)) m 3 L M.

Definition do_lrg_d (b : bufs) (st : lzvn_decoder_state) (v : locals) (opc : Z) (m : mem)
  : res outcome :=
  let st := UPDATE_GOOD st v in
  let L := extract opc 6 2 in
  let M := extract opc 3 3 + 3 in
  if src_len v <=? 3 + L then Ok (Return st m)
  else
    let! d := load2 b m (src_ptr v + 1) in
    copy_literal_and_match b st (with_D v d) m 3 L M.

Definition do_pre_d (b : bufs) (st : lzvn_decoder_state) (v : locals) (opc : Z) (m : mem)
  : res outcome :=
  let st := UPDATE_GOOD st v in
  let L := extract opc 6 2 in
  let M := extract opc 3 3 + 3 in
  if src_len v <=? 1 + L then Ok (Return st m)
  else copy_literal_and_match b st v m 1 L M.

Definition do_sml_m (b : bufs) (st : lzvn_decoder_state) (v : locals) (opc : Z) (m : mem)
  : res outcome :=
  let st := UPDATE_GOOD st v in
  if src_len v <=? 1 then Ok (Return st m)
  else copy_match b st (src_inc v 1) m (extract opc 0 4).

Definition do_lrg_m (b : bufs) (st : lzvn_decoder_state) (v : locals) (m : mem) : res outcome :=
  let st := UPDATE_GOOD st v in
  if src_len v <=? 2 then Ok (Return st m)
  else
    let! x := rd b 1 m (src_ptr v + 1) in
    copy_match b st (src_inc v 2) m (x + 16).

Definition do_sml_l (b : bufs) (st : lzvn_decoder_state) (v : locals) (opc : Z) (m : mem)
  : res outcome :=
  copy_literal b (UPDATE_GOOD st v) v m 1 (extract opc 0 4).

Definition do_lrg_l (b : bufs) (st : lzvn_decoder_state) (v : locals) (m : mem) : res outcome :=
  let st := UPDATE_GOOD st v in
  if src_len v <=? 2 then Ok (Return st m)
  else
    let! x := rd b 1 m (src_ptr v + 1) in
    copy_literal b st v m 2 (x + 16).

Definition do_nop (b : bufs) (st : lzvn_decoder_state) (v : locals) (m : mem) : res outcome :=
  let st := UPDATE_GOOD st v in
  if src_len v <=? 1 then Ok (Return st m)
  else next_opcode b st (src_inc v 1) m.

Definition do_eos (st : lzvn_decoder_state) (v : locals) (m : mem) : res outcome :=
  if src_len v <? 8 then Ok (Return st m)
  else Ok (Return (UPDATE_GOOD (set_end_of_stream st) (src_inc v 8)) m).

Definition lzvn_step (b : bufs) (st : lzvn_decoder_state) (v : locals) (opc : Z) (m : mem)
  : res outcome :=
  match dispatch opc with
  | sml_d => do_sml_d b st v opc m
  | med_d => do_med_d b st v opc m
  | lrg_d => do_lrg_d b st v opc m
  | pre_d => do_pre_d b st v opc m
  | sml_m => do_sml_m b st v opc m
  | lrg_m => do_lrg_m b st v m
  | sml_l => do_sml_l b st v opc m
  | lrg_l => do_lrg_l b st v m
  | nop => do_nop b st v m
  | eos => do_eos st v m
  | udef => Ok (Return st m)
  end.

Fixpoint lzvn_run (fuel : nat) (b : bufs) (o : outcome) : res (lzvn_decoder_state * mem) :=
  match o with
  | Return st m => Ok (st, m)
  | Goto st v opc m =>
      match fuel with
      | O => NoFuel
      | S fuel => let! o := lzvn_step b st v opc m in lzvn_run fuel b o
      end
  end.

Definition clear_partial (st : lzvn_decoder_state) : lzvn_decoder_state :=
  save_partial st (st_src st) (st_dst st) 0 0 0.

(** Every opcode consumes at least one source byte, so the source length bounds
    the number of dispatches. *)
Definition lzvn_decode (st : lzvn_decoder_state) (m : mem) : res (lzvn_decoder_state * mem) :=
  let b := mk_bufs (st_src st) (st_src_end st) (st_dst_begin st) (st_dst_end st) in
  let src_len := u64 (st_src_end st - st_src st) in
  let dst_len := u64 (st_dst_end st - st_dst st) in
  if (src_len =? 0) || (dst_len =? 0) then Ok (st, m)
  else
    let v := mk_locals (st_src st) src_len (st_dst st) dst_len (u64 (st_d_prev st)) in
    let! o :=
      if truth (st_L st) || truth (st_M st) then
        let L := st_L st in
        let M := st_M st in
        let v := with_D v (st_D st) in
        let st := clear_partial st in
        if M =? 0 then copy_literal b st v m 0 L
        else if L =? 0 then copy_match b st v m M
        else copy_literal_and_match b st v m 0 L M
      else next_opcode b st v m in
    lzvn_run (Z.to_nat src_len) b o.

Definition lzvn_decode_buffer (m : mem) (dst dst_size src src_size : Z) : res (Z * mem) :=
  let dstate := mk_state src (src + src_size) dst dst (dst + dst_size) 0 0 0 0 false in
  let! '(dstate, m) := lzvn_decode dstate m in
  Ok (u64 (st_dst dstate - dst), m).
