(* ===== verification/LzvnThm.v ===== *)
(** Correctness of the LZVN decoder: memory safety and termination on every
    input, and agreement with a reference decoder on byte lists. *)
From S2P Require Import Prelude Lzvn.
From stdpp Require Import prelude.
From Stdlib Require Import ZArith Lia.
Open Scope Z_scope.
Open Scope c_scope.

(** ** The reference decoder

    Opcodes are described by their bit fields, and matches copy from the list of
    bytes produced so far. *)

Inductive op :=
  | OpLM (len L M : Z) (d : option Z)
  | OpM (len M : Z)
  | OpL (len L : Z)
  | OpNop
  | OpEos
  | OpBad.

Definition byte_at (s : list Z) (k : nat) : Z := nth k s 0.

Definition parse_op (s : list Z) : op :=
  let c := byte_at s 0 in
  let s1 := byte_at s 1 in
  let s12 := s1 + 256 * byte_at s 2 in
  if c =? 6 then OpEos
  else if (c =? 14) || (c =? 22) then OpNop
  else if c =? 0xE0 then OpL 2 (s1 + 16)
  else if c =? 0xF0 then OpM 2 (s1 + 16)
  else if c / 16 =? 0xE then OpL 1 (c mod 16)
  else if c / 16 =? 0xF then OpM 1 (c mod 16)
  else if (c / 16 =? 7) || (c / 16 =? 13) then OpBad
  else if c / 32 =? 5 then
    OpLM 3 (c / 8 mod 4) (c mod 8 * 4 + s12 mod 4 + 3) (Some (s12 / 4))
  else if c mod 8 =? 7 then OpLM 3 (c / 64) (c / 8 mod 8 + 3) (Some s12)
  else if c mod 8 =? 6 then
    if c <? 64 then OpBad else OpLM 1 (c / 64) (c / 8 mod 8 + 3) None
  else OpLM 2 (c / 64) (c / 8 mod 8 + 3) (Some (c mod 8 * 256 + s1)).

(** A match of length [n] at distance [d]: each byte copies the one [d] before. *)
Fixpoint match_copy (n : nat) (d : Z) (out : list Z) : list Z :=
  match n with
  | O => out
  | S n => match_copy n d (out ++ [nth (length out - Z.to_nat d) out 0])
  end.

Definition zlen (s : list Z) : Z := Z.of_nat (length s).

(** One operation on the rest [s] of the stream, the previous distance [d] (0 if
    there is none) and the output so far. *)
Inductive lz_next :=
  | LzDone (out : list Z)
  | LzMore (s : list Z) (d : Z) (out : list Z)
  | LzBad.

Definition lz_op (o : op) (s : list Z) (d : Z) (out : list Z) : lz_next :=
  match o with
  | OpEos => if 8 <=? zlen s then LzDone out else LzBad
  | OpBad => LzBad
  | OpNop => if 1 <? zlen s then LzMore (drop 1 s) d out else LzBad
  | OpL len L =>
      if len + L <? zlen s then
        let s := drop (Z.to_nat len) s in
        LzMore (drop (Z.to_nat L) s) d (out ++ take (Z.to_nat L) s)
      else LzBad
  | OpM len M =>
      if (len <? zlen s) && (0 <? d) then
        LzMore (drop (Z.to_nat len) s) d (match_copy (Z.to_nat M) d out)
      else LzBad
  | OpLM len L M d' =>
      let d := default d d' in
      let s' := drop (Z.to_nat len) s in
      let out := out ++ take (Z.to_nat L) s' in
      if (len + L <? zlen s) && (0 <? d) && (d <=? zlen out) then
        LzMore (drop (Z.to_nat L) s') d (match_copy (Z.to_nat M) d out)
      else LzBad
  end.

(** The output of a whole stream, [None] when it is not well formed. *)
Fixpoint lz_ref (fuel : nat) (s : list Z) (d : Z) (out : list Z) : option (list Z) :=
  match fuel with
  | O => None
  | S fuel =>
      match lz_op (parse_op s) s d out with
      | LzDone out => Some out
      | LzMore s d out => lz_ref fuel s d out
      | LzBad => None
      end
  end.

(** Every operation takes a byte of the stream, so its length is enough fuel. *)
Definition lz_decode (s : list Z) : option (list Z) := lz_ref (length s) s 0 [].

(** ** Dispatch *)

(** The label of each kind of opcode. *)
Definition label_of (c : Z) : label :=
  if c =? 6 then eos
  else if (c =? 14) || (c =? 22) then nop
  else if c =? 0xE0 then lrg_l
  else if c =? 0xF0 then lrg_m
  else if c / 16 =? 0xE then sml_l
  else if c / 16 =? 0xF then sml_m
  else if (c / 16 =? 7) || (c / 16 =? 13) then udef
  else if c / 32 =? 5 then med_d
  else if c mod 8 =? 7 then lrg_d
  else if c mod 8 =? 6 then if c <? 64 then udef else pre_d
  else sml_d.

Lemma byte_cases (P : Z -> bool) :
  forallb P (seqZ 0 256) = true -> forall c, 0 <= c < 256 -> P c = true.
Proof. intros H c Hc. rewrite forallb_forall in H. apply H, list_elem_of_In, elem_of_seqZ. lia. Qed.

Lemma dispatch_label c : 0 <= c < 256 -> dispatch c = label_of c.
Proof.
  intros Hc. assert (bool_decide (dispatch c = label_of c) = true) as H; [|by apply bool_decide_eq_true in H].
  revert c Hc. apply (byte_cases (fun c => bool_decide (dispatch c = label_of c))).
  vm_compute. reflexivity.
Qed.

Lemma extract_field c lsb width :
  0 <= c < 2 ^ 64 -> 0 <= lsb -> 0 <= width < 64 -> extract c lsb width = c / 2 ^ lsb mod 2 ^ width.
Proof.
  intros Hc Hl Hw. unfold extract. rewrite (proj2 (Z.eqb_neq _ _)) by lia.
  rewrite Z.shiftr_div_pow2, Z.shiftl_mul_pow2, Z.mul_1_l by lia.
  assert (2 ^ width < 2 ^ 64) by (apply Z.pow_lt_mono_r; lia).
  assert (0 < 2 ^ width) by (apply Z.pow_pos_nonneg; lia).
  assert (0 < 2 ^ lsb) by (apply Z.pow_pos_nonneg; lia).
  rewrite !(wrap_small 64).
  - rewrite <- (Z.land_ones (c / 2 ^ lsb) width), Z.ones_equiv by lia. f_equal.
  - lia.
  - split; [apply Z.div_pos; lia|]. apply Z.le_lt_trans with c; [|lia]. apply Z.div_le_upper_bound; nia.
Qed.

(** ** Copies *)

(** [m'] is [m] after [n] bytes were copied from [src] to [dst] in ascending
    order; bytes of [dst, hi) past the copy may have changed too. *)
Definition copied (m m' : mem) (dst src n hi : Z) : Prop :=
  (forall a, a < dst \/ hi <= a -> m' a = m a) /\
  (forall k, 0 <= k < n -> ldb m' (dst + k) = ldb m' (src + k)).

Lemma copied_mono m m' dst src n n' hi hi' :
  copied m m' dst src n hi -> n' <= n -> hi <= hi' -> copied m m' dst src n' hi'.
Proof. intros [H1 H2] Hn Hh. split; intros; [apply H1|apply H2]; lia. Qed.

Section copies.
Context (b : bufs).

Definition readable (a n : Z) : Prop :=
  (b_src b <= a /\ a + n <= b_src_end b) \/ (b_dst b <= a /\ a + n <= b_dst_end b).
Definition writable (a n : Z) : Prop := b_dst b <= a /\ a + n <= b_dst_end b.

Lemma inside_true lo hi a n : lo <= a -> a + n <= hi -> inside lo hi a n = true.
Proof using Type. intros. unfold inside. cmp_solve. Qed.

Lemma rd_ok n m a : readable a (Z.of_nat n) -> rd b n m a = Ok (ldn n m a).
Proof using Type.
  intros [[? ?]|[? ?]]; unfold rd.
  - by rewrite (inside_true (b_src b) (b_src_end b)).
  - by rewrite (inside_true (b_dst b) (b_dst_end b)), orb_true_r.
Qed.

Lemma wr_ok n m a v : writable a (Z.of_nat n) -> wr b n m a v = Ok (stn n m a v).
Proof using Type. intros []. unfold wr. by rewrite inside_true. Qed.

Lemma ldn_1 m a : ldn 1 m a = ldb m a.
Proof using Type. cbn [ldn]. lia. Qed.

(** One iteration: a [w]-byte load and store at offset [i]. *)
Lemma copied_step w m mi dst src i :
  copied m mi dst src i (dst + i) -> 0 <= i ->
  src + Z.of_nat w <= dst \/ dst + i + Z.of_nat w <= src \/ (w = 1%nat /\ src <= dst) ->
  copied m (stn w mi (dst + i) (ldn w mi (src + i))) dst src (i + Z.of_nat w) (dst + (i + Z.of_nat w)).
Proof using Type.
  intros [H1 H2] Hi Hd. split.
  - intros a Ha. rewrite stn_other by lia. apply H1. lia.
  - intros k Hk. rewrite !ldb_stn_ldn.
    destruct (Z.ltb_spec k i).
    + rewrite !(proj2 (Z.leb_gt (dst + i) _)) by lia. cbn [andb].
      rewrite H2 by lia.
      destruct (Z.leb_spec (dst + i) (src + k)), (Z.ltb_spec (src + k) (dst + i + Z.of_nat w));
        cbn [andb]; try done. lia.
    + rewrite (proj2 (Z.leb_le (dst + i) _)), (proj2 (Z.ltb_lt (dst + k) _)) by lia. cbn [andb].
      replace (dst + k - (dst + i) + (src + i)) with (src + k) by lia.
      destruct (Z.leb_spec (dst + i) (src + k)), (Z.ltb_spec (src + k) (dst + i + Z.of_nat w));
        cbn [andb]; try done. f_equal. lia.
Qed.

Lemma byte_copy_ok m dst src n :
  0 <= n -> readable src n -> writable dst n -> src <= dst \/ dst + n <= src ->
  exists m', byte_copy b m dst src n = Ok m' /\ copied m m' dst src n (dst + n).
Proof using Type.
  intros Hn Hr Hw Hd. unfold byte_copy.
  destruct (for_loop_inv (fun i mi => 0 <= i <= n /\ copied m mi dst src i (dst + i)) n 1
    (fun i m => let! x := rd b 1 m (src + i) in wr b 1 m (dst + i) x) ltac:(lia)) with
    (fuel := Z.to_nat n) (i := 0) (s := m) as (m' & j & -> & [Hj Hc] & ? & _).
  - intros i mi Hi [Hi0 Hc]. rewrite rd_ok by (unfold readable in *; lia). cbn [rbind].
    rewrite wr_ok by (unfold writable in *; lia). eexists. split; [done|]. split; [lia|].
    apply (copied_step 1); [done|lia|lia].
  - split; [lia|]. split; [done|lia].
  - lia.
  - exists m'. split; [done|]. by replace n with j by lia.
Qed.

Lemma wide_copy_ok m dst src n :
  0 <= n -> readable src (n + 7) -> writable dst (n + 7) ->
  n = 0 \/ src + 8 <= dst \/ dst + n + 7 <= src ->
  exists m', wide_copy b m dst src n = Ok m' /\ copied m m' dst src n (dst + n + 7).
Proof using Type.
  intros Hn Hr Hw Hd. unfold wide_copy.
  destruct (for_loop_inv (fun i mi => 0 <= i <= n + 7 /\ copied m mi dst src i (dst + i)) n 8
    (fun i m => let! x := load8 b m (src + i) in store8 b m (dst + i) x) ltac:(lia)) with
    (fuel := Z.to_nat n) (i := 0) (s := m) as (m' & j & -> & [Hj Hc] & ? & _).
  - intros i mi Hi [Hi0 Hc]. unfold load8, store8.
    rewrite rd_ok by (unfold readable in *; lia). cbn [rbind].
    rewrite wr_ok by (unfold writable in *; lia). eexists. split; [done|]. split; [lia|].
    apply (copied_step 8); [done|lia|lia].
  - split; [lia|]. split; [done|lia].
  - lia.
  - exists m'. split; [done|]. eapply copied_mono; [exact Hc|lia..].
Qed.

(** The four byte copy of a literal. *)
Lemma copy4_ok m dst src :
  readable src 4 -> writable dst 4 -> src + 4 <= dst \/ dst + 4 <= src ->
  exists x m', load4 b m src = Ok x /\ store4 b m dst x = Ok m' /\ copied m m' dst src 4 (dst + 4).
Proof using Type.
  intros Hr Hw Hd. unfold load4, store4. rewrite rd_ok by done.
  eexists _, _. split; [done|]. rewrite wr_ok by done. split; [done|].
  pose proof (copied_step 4 m m dst src 0) as H. rewrite !Z.add_0_r, Z.add_0_l in H.
  apply H; [|lia|lia]. split; [done|lia].
Qed.
End copies.

(** ** The shared copy sequences *)

Record wf_bufs (b : bufs) : Prop := {
  wf_src : 0 <= b_src b <= b_src_end b;
  wf_dst : 0 <= b_dst b <= b_dst_end b;
  wf_src_top : b_src_end b < 2 ^ 63;
  wf_dst_top : b_dst_end b < 2 ^ 63;
  wf_disjoint : b_src_end b <= b_dst b \/ b_dst_end b <= b_src b;
}.

(** The pointers and lengths are in concert and inside the buffers. *)
Record wf_pos (b : bufs) (v : locals) : Prop := {
  wp_src : b_src b <= src_ptr v;
  wp_src_len : 0 <= src_len v;
  wp_src_end : src_ptr v + src_len v = b_src_end b;
  wp_dst : b_dst b <= dst_ptr v;
  wp_dst_len : 0 <= dst_len v;
  wp_dst_end : dst_ptr v + dst_len v = b_dst_end b;
}.

Section labels.
Context (b : bufs) (Hb : wf_bufs b).

Ltac lens :=
  repeat match goal with
  | H : wf_pos _ _ |- _ => destruct H
  end;
  destruct Hb; cbn [src_ptr src_len dst_ptr dst_len var_D src_inc dst_inc with_D] in *;
  try lia.

Lemma src_inc_wf v k : wf_pos b v -> 0 <= k <= src_len v -> wf_pos b (src_inc v k).
Proof using Hb. intros Hv Hk. lens. constructor; cbn; rewrite ?(wrap_small 64); lia. Qed.

Lemma dst_inc_wf v k : wf_pos b v -> 0 <= k <= dst_len v -> wf_pos b (dst_inc v k).
Proof using Hb. intros Hv Hk. lens. constructor; cbn; rewrite ?(wrap_small 64); lia. Qed.

Lemma src_len_inc v k : wf_pos b v -> 0 <= k <= src_len v -> src_len (src_inc v k) = src_len v - k.
Proof using Hb. intros Hv Hk. lens. rewrite (wrap_small 64); lia. Qed.

Lemma dst_len_inc v k : wf_pos b v -> 0 <= k <= dst_len v -> dst_len (dst_inc v k) = dst_len v - k.
Proof using Hb. intros Hv Hk. lens. rewrite (wrap_small 64); lia. Qed.

(** A change inside the destination does not touch the source. *)
Lemma copied_src m m' dst s n a :
  copied m m' dst s n (b_dst_end b) -> b_dst b <= dst -> b_src b <= a < b_src_end b -> m' a = m a.
Proof using Hb. intros [H _] ? ?. apply H. destruct Hb. lia. Qed.

Lemma next_opcode_ok st v m :
  wf_pos b v -> 0 < src_len v ->
  next_opcode b st v m = Ok (Goto st v (ldb m (src_ptr v)) m).
Proof using Hb.
  intros Hv Hs. unfold next_opcode. rewrite rd_ok, ldn_1; [done|]. left. lens.
Qed.

Lemma copy_match_ok st v m M :
  wf_pos b v -> 0 < src_len v -> 0 <= M < 2 ^ 32 -> 0 <= var_D v <= dst_ptr v - b_dst b ->
  exists m', copied m m' (dst_ptr v) (dst_ptr v - var_D v) (Z.min M (dst_len v)) (b_dst_end b) /\
    copy_match b st v m M =
    Ok (if M <=? dst_len v then Goto st (dst_inc v M) (ldb m (src_ptr v)) m'
        else Return (save_partial st (src_ptr v) (b_dst_end b) 0 (M - dst_len v) (var_D v)) m').
Proof using Hb.
  intros Hv Hs HM HD. unfold copy_match. pose proof Hv as [? ? ? ? ? ?]. destruct Hb.
  assert (forall m' n, copied m m' (dst_ptr v) (dst_ptr v - var_D v) n (b_dst_end b) ->
    ldb m' (src_ptr v) = ldb m (src_ptr v)) as Hop.
  { intros m' n Hc. unfold ldb. by rewrite (copied_src _ _ _ _ _ (src_ptr v) Hc) by lia. }
  rewrite !(wrap_small 64 (M + 7)) by lia.
  destruct (Z.leb_spec (M + 7) (dst_len v)); [destruct (Z.leb_spec 8 (var_D v))|]; cbn [andb].
  1: { rewrite (proj2 (Z.leb_le M (dst_len v))), Z.min_l by lia.
    destruct (wide_copy_ok b m (dst_ptr v) (dst_ptr v - var_D v) M) as (m' & -> & Hc);
      [lia|right; lia|split; lia|lia|].
    assert (copied m m' (dst_ptr v) (dst_ptr v - var_D v) M (b_dst_end b)) as Hc'
      by (eapply copied_mono; [exact Hc|lia..]).
    exists m'. split; [done|]. cbn [rbind].
    rewrite next_opcode_ok; [|apply dst_inc_wf; [done|lia]|done]. cbn [dst_inc src_ptr].
    by rewrite (Hop _ _ Hc'). }
  all: destruct (Z.leb_spec M (dst_len v)); try lia.
  all: try (rewrite Z.min_l by lia); try (rewrite Z.min_r by lia).
  all: match goal with |- context [byte_copy ?b0 ?m0 ?d ?s ?n] =>
    destruct (byte_copy_ok b0 m0 d s n) as (m' & -> & Hc); [lia|right; lia|split; lia|lia|];
    assert (copied m0 m' d s n (b_dst_end b0)) as Hc' by (eapply copied_mono; [exact Hc|lia..]);
    exists m'; split; [done|]; cbn [rbind] end.
  all: try (rewrite next_opcode_ok; [|apply dst_inc_wf; [done|lia]|done]; cbn [dst_inc src_ptr];
            by rewrite (Hop _ _ Hc')).
  all: rewrite (wrap_small 64) by lia; do 3 f_equal; lia.
Qed.

(** Where a literal of length [L] after an opcode of length [k] leaves the
    pointers. *)
Definition after_literal (v : locals) (k L : Z) : locals :=
  mk_locals (src_ptr v + k + L) (src_len v - k - L) (dst_ptr v + L) (dst_len v - L) (var_D v).

Lemma after_literal_wf v k L :
  wf_pos b v -> 0 <= k -> 0 <= L <= dst_len v -> k + L <= src_len v -> wf_pos b (after_literal v k L).
Proof using Hb. intros Hv ? ? ?. lens. constructor; cbn; lia. Qed.

Lemma after_literal_eq v k L :
  wf_pos b v -> 0 <= k -> 0 <= L <= dst_len v -> k + L <= src_len v ->
  src_inc (dst_inc (src_inc v k) L) L = after_literal v k L.
Proof using Hb.
  intros Hv ? ? ?. lens. unfold after_literal, src_inc, dst_inc. cbn.
  rewrite !(wrap_small 64) by (rewrite ?(wrap_small 64); lia). done.
Qed.

Lemma copy_literal_and_match_ok st v m k L M :
  wf_pos b v -> st_dst_begin st = b_dst b -> 0 <= k -> 0 <= L <= 3 -> k + L < src_len v ->
  exists m', copied m m' (dst_ptr v) (src_ptr v + k) (Z.min L (dst_len v)) (b_dst_end b) /\
    copy_literal_and_match b st v m k L M =
    if L <=? dst_len v then
      if (dst_ptr v + L - b_dst b <? var_D v) || (var_D v =? 0) then Ok (Return st m')
      else copy_match b st (after_literal v k L) m' M
    else Ok (Return (save_partial st (src_ptr v + k + dst_len v) (b_dst_end b)
                       (L - dst_len v) M (var_D v)) m').
Proof using Hb.
  intros Hv Hst Hk HL Hs. unfold copy_literal_and_match. cbv zeta.
  rewrite (src_len_inc v k) by (done || lia). cbn [src_inc dst_len src_ptr dst_ptr].
  change (mk_locals (src_ptr v + k) (u64 (src_len v - k)) (dst_ptr v) (dst_len v) (var_D v))
    with (src_inc v k).
  pose proof Hv as [? ? ? ? ? ?]. destruct Hb.
  assert (forall m', copied m m' (dst_ptr v) (src_ptr v + k) L (b_dst_end b) -> L <= dst_len v ->
    exists m'0, copied m m'0 (dst_ptr v) (src_ptr v + k) L (b_dst_end b) /\
     (let v' := src_inc (dst_inc (src_inc v k) L) L in
      if (u64 (dst_ptr v' - st_dst_begin st) <? var_D v') || (var_D v' =? 0)
      then Ok (Return st m') else copy_match b st v' m' M) =
      (if (dst_ptr v + L - b_dst b <? var_D v) || (var_D v =? 0) then Ok (Return st m'0)
      else copy_match b st (after_literal v k L) m'0 M)) as Hgo.
  { intros m' Hc HLd. exists m'. split; [done|]. cbv zeta.
    rewrite after_literal_eq by (done || lia). cbn [after_literal dst_ptr var_D].
    by rewrite Hst, (wrap_small 64) by lia. }
  destruct (Z.leb_spec 4 (dst_len v)); [destruct (Z.leb_spec 4 (src_len v - k))|]; cbn [andb].
  1: { rewrite (proj2 (Z.leb_le L (dst_len v))), Z.min_l by lia.
    destruct (copy4_ok b m (dst_ptr v) (src_ptr v + k)) as (x & m' & -> & Hs' & Hc);
      [left; lia|split; lia|lia|]. cbn [rbind]. rewrite Hs'. cbn [rbind].
    apply Hgo; [eapply copied_mono; [exact Hc|lia..]|lia]. }
  all: destruct (Z.leb_spec L (dst_len v)); try lia.
  all: try (rewrite Z.min_l by lia); try (rewrite Z.min_r by lia).
  all: match goal with |- context [byte_copy ?b0 ?m0 ?d ?s ?n] =>
    destruct (byte_copy_ok b0 m0 d s n) as (m' & -> & Hc); [lia|left; lia|split; lia|lia|];
    cbn [rbind] end.
  all: try (apply Hgo; [eapply copied_mono; [exact Hc|lia..]|lia]).
  all: exists m'; split; [eapply copied_mono; [exact Hc|lia..]|].
  all: rewrite (wrap_small 64) by lia; do 3 f_equal; lia.
Qed.

Lemma copy_literal_ok st v m k L :
  wf_pos b v -> 0 <= k <= 2 -> 0 <= L < 2 ^ 32 ->
  (src_len v <= k + L /\ copy_literal b st v m k L = Ok (Return st m)) \/
  (k + L < src_len v /\
  exists m', copied m m' (dst_ptr v) (src_ptr v + k) (Z.min L (dst_len v)) (b_dst_end b) /\
    copy_literal b st v m k L =
    Ok (if L <=? dst_len v
        then Goto st (after_literal v k L) (ldb m (src_ptr v + k + L)) m'
        else Return (save_partial st (src_ptr v + k + dst_len v) (b_dst_end b)
                       (L - dst_len v) 0 (var_D v)) m')).
Proof using Hb.
  intros Hv Hk HL. unfold copy_literal. pose proof Hv as [? ? ? ? ? ?]. pose proof Hb as [].
  rewrite (wrap_small 64 (k + L)) by lia.
  destruct (Z.leb_spec (src_len v) (k + L)); [by left|right; split; [done|]].
  rewrite (src_len_inc v k) by (done || lia). cbn [src_inc dst_len src_ptr dst_ptr].
  change (mk_locals (src_ptr v + k) (u64 (src_len v - k)) (dst_ptr v) (dst_len v) (var_D v))
    with (src_inc v k).
  rewrite !(wrap_small 64 (L + 7)) by lia.
  assert (forall m', copied m m' (dst_ptr v) (src_ptr v + k) L (b_dst_end b) -> L <= dst_len v ->
    exists m'0, copied m m'0 (dst_ptr v) (src_ptr v + k) L (b_dst_end b) /\
     next_opcode b st (src_inc (dst_inc (src_inc v k) L) L) m' =
     Ok (Goto st (after_literal v k L) (ldb m (src_ptr v + k + L)) m'0)) as Hgo.
  { intros m' Hc HLd. exists m'. split; [done|]. rewrite after_literal_eq by (done || lia).
    rewrite next_opcode_ok by (try apply after_literal_wf; cbn; done || lia).
    cbn [after_literal src_ptr]. unfold ldb. by rewrite (copied_src _ _ _ _ _ _ Hc) by lia. }
  destruct (Z.leb_spec (L + 7) (dst_len v)); [destruct (Z.leb_spec (L + 7) (src_len v - k))|]; cbn [andb].
  1: { rewrite (proj2 (Z.leb_le L (dst_len v))), Z.min_l by lia.
    destruct (wide_copy_ok b m (dst_ptr v) (src_ptr v + k) L) as (m' & -> & Hc);
      [lia|left; lia|split; lia|lia|]. cbn [rbind].
    apply Hgo; [eapply copied_mono; [exact Hc|lia..]|lia]. }
  all: destruct (Z.leb_spec L (dst_len v)); try lia.
  all: try (rewrite Z.min_l by lia); try (rewrite Z.min_r by lia).
  all: match goal with |- context [byte_copy ?b0 ?m0 ?d ?s ?n] =>
    destruct (byte_copy_ok b0 m0 d s n) as (m' & -> & Hc); [lia|left; lia|split; lia|lia|];
    cbn [rbind] end.
  all: try (apply Hgo; [eapply copied_mono; [exact Hc|lia..]|lia]).
  all: exists m'; split; [eapply copied_mono; [exact Hc|lia..]|].
  all: rewrite (wrap_small 64) by lia; do 3 f_equal; lia.
Qed.
End labels.

(** ** Opcodes as decoded operations *)

Definition exec_op (b : bufs) (st : lzvn_decoder_state) (v : locals) (m : mem) (o : op) : res outcome :=
  match o with
  | OpLM len L M d =>
      if src_len v <=? len + L then Ok (Return (UPDATE_GOOD st v) m)
      else copy_literal_and_match b (UPDATE_GOOD st v) (with_D v (default (var_D v) d)) m len L M
  | OpM len M =>
      if src_len v <=? len then Ok (Return (UPDATE_GOOD st v) m)
      else copy_match b (UPDATE_GOOD st v) (src_inc v len) m M
  | OpL len L => copy_literal b (UPDATE_GOOD st v) v m len L
  | OpNop => do_nop b st v m
  | OpEos => do_eos st v m
  | OpBad => Ok (Return st m)
  end.

Definition op_wf (o : op) : Prop :=
  match o with
  | OpLM len L M d => 1 <= len <= 3 /\ 0 <= L <= 3 /\ 0 <= M < 64 /\ 0 <= default 0 d < 65536
  | OpM len M => 1 <= len <= 2 /\ 0 <= M < 512
  | OpL len L => 1 <= len <= 2 /\ 0 <= L < 512
  | _ => True
  end.

Lemma byte_at_range s k : Forall (fun x => 0 <= x < 256) s -> 0 <= byte_at s k < 256.
Proof.
  intros H. unfold byte_at. destruct (nth_in_or_default k s 0) as [Hin| ->]; [|lia].
  rewrite Forall_forall in H. apply H. by apply list_elem_of_In.
Qed.

Lemma parse_op_wf s : Forall (fun x => 0 <= x < 256) s -> op_wf (parse_op s).
Proof.
  intros H. pose proof (byte_at_range s 0 H). pose proof (byte_at_range s 1 H).
  pose proof (byte_at_range s 2 H). unfold parse_op.
  repeat case_match; simpl; try done; split_and!; try (Z.div_mod_to_equations; lia).
Qed.

Section step.
Context (b : bufs) (Hb : wf_bufs b).

(** The rest of the source. *)
Definition src_bytes (m : mem) (v : locals) : list Z := bytes m (src_ptr v) (Z.to_nat (src_len v)).

Lemma src_bytes_at m v k :
  Z.of_nat k < src_len v -> byte_at (src_bytes m v) k = ldb m (src_ptr v + Z.of_nat k).
Proof using Type. intros Hk. unfold byte_at, src_bytes. apply bytes_nth. lia. Qed.

Lemma rd_src n m v k :
  wf_pos b v -> 0 <= k -> k + Z.of_nat n <= src_len v ->
  rd b n m (src_ptr v + k) = Ok (ldn n m (src_ptr v + k)).
Proof using Type. intros [] ? ?. apply rd_ok. left. lia. Qed.

Section opcode.
Context (st : lzvn_decoder_state) (v : locals) (m : mem) (c : Z).
Context (Hv : wf_pos b v) (Hc : 0 <= c < 256).
Let s := src_bytes m v.

Lemma fetch1 : 1 < src_len v -> rd b 1 m (src_ptr v + 1) = Ok (byte_at s 1).
Proof using Hv.
  intros. unfold s. rewrite rd_src, ldn_1, src_bytes_at by (done || lia). done.
Qed.

Lemma fetch2 : 2 < src_len v -> load2 b m (src_ptr v + 1) = Ok (byte_at s 1 + 256 * byte_at s 2).
Proof using Hv.
  intros. unfold s, load2. rewrite rd_src, !src_bytes_at by (done || lia). cbn [ldn].
  rewrite Z.mul_0_r, Z.add_0_r. do 4 f_equal. lia.
Qed.

Ltac fields :=
  rewrite ?extract_field by lia; rewrite ?Z.shiftl_mul_pow2 by lia;
  rewrite ?(wrap_small 64) by zdm; rewrite ?lor_add_low by zdm.

Lemma field_6_2 : extract c 6 2 = c / 64.
Proof using Hc. fields. zdm. Qed.
Lemma field_3_3 : extract c 3 3 = c / 8 mod 8.
Proof using Hc. fields. done. Qed.

Lemma do_sml_d_exec :
  do_sml_d b st v c m =
  exec_op b st v m (OpLM 2 (c / 64) (c / 8 mod 8 + 3) (Some (c mod 8 * 256 + byte_at s 1))).
Proof using Hv Hc.
  unfold do_sml_d. rewrite field_6_2, field_3_3. cbn [exec_op default].
  destruct (Z.leb_spec (src_len v) (2 + c / 64)); [done|].
  assert (0 <= c / 64) by zdm. rewrite fetch1 by lia. cbn [rbind].
  pose proof (byte_at_range s 1 (bytes_range _ _ _)). do 2 f_equal.
  fields. by rewrite Z.div_1_r.
Qed.

Lemma do_med_d_exec :
  do_med_d b st v c m =
  let s12 := byte_at s 1 + 256 * byte_at s 2 in
  exec_op b st v m (OpLM 3 (c / 8 mod 4) (c mod 8 * 4 + s12 mod 4 + 3) (Some (s12 / 4))).
Proof using Hv Hc.
  unfold do_med_d. rewrite (extract_field c 3 2) by lia. cbn [exec_op default].
  change (2 ^ 3) with 8; change (2 ^ 2) with 4.
  destruct (Z.leb_spec (src_len v) (3 + c / 8 mod 4)); [done|].
  assert (0 <= c / 8 mod 4) by zdm. rewrite fetch2 by lia. cbn [rbind].
  pose proof (byte_at_range s 1 (bytes_range _ _ _)).
  pose proof (byte_at_range s 2 (bytes_range _ _ _)).
  set (s12 := byte_at s 1 + 256 * byte_at s 2).
  assert (0 <= s12 < 65536) by (subst s12; lia).
  rewrite (extract_field s12 2 14), (extract_field s12 0 2) by lia.
  rewrite (extract_field c 0 3), Z.shiftl_mul_pow2 by lia.
  rewrite Z.div_1_r, (wrap_small 64) by zdm.
  rewrite lor_add_low by zdm. rewrite Z.div_1_r.
  replace (s12 / 2 ^ 2 mod 2 ^ 14) with (s12 / 4) by zdm. done.
Qed.

Lemma do_lrg_d_exec :
  do_lrg_d b st v c m =
  exec_op b st v m (OpLM 3 (c / 64) (c / 8 mod 8 + 3) (Some (byte_at s 1 + 256 * byte_at s 2))).
Proof using Hv Hc.
  unfold do_lrg_d. rewrite field_6_2, field_3_3. cbn [exec_op default].
  destruct (Z.leb_spec (src_len v) (3 + c / 64)); [done|].
  assert (0 <= c / 64) by zdm. by rewrite fetch2 by lia.
Qed.

Lemma do_pre_d_exec :
  do_pre_d b st v c m = exec_op b st v m (OpLM 1 (c / 64) (c / 8 mod 8 + 3) None).
Proof using Hv Hc.
  unfold do_pre_d. rewrite field_6_2, field_3_3. cbn [exec_op default]. by destruct v.
Qed.

Lemma do_sml_m_exec : do_sml_m b st v c m = exec_op b st v m (OpM 1 (c mod 16)).
Proof using Hc. unfold do_sml_m. fields. by rewrite Z.div_1_r. Qed.

Lemma do_lrg_m_exec : do_lrg_m b st v m = exec_op b st v m (OpM 2 (byte_at s 1 + 16)).
Proof using Hv.
  unfold do_lrg_m, exec_op. destruct (Z.leb_spec (src_len v) 2); [done|]. by rewrite fetch1 by lia.
Qed.

Lemma do_sml_l_exec : do_sml_l b st v c m = exec_op b st v m (OpL 1 (c mod 16)).
Proof using Hc. unfold do_sml_l. fields. by rewrite Z.div_1_r. Qed.

Lemma do_lrg_l_exec : do_lrg_l b st v m = exec_op b st v m (OpL 2 (byte_at s 1 + 16)).
Proof using Hv.
  unfold do_lrg_l, exec_op. destruct (Z.leb_spec (src_len v) 2); [|by rewrite fetch1 by lia].
  pose proof (byte_at_range s 1 (bytes_range _ _ _)).
  unfold copy_literal. rewrite (wrap_small 64) by lia. by rewrite (proj2 (Z.leb_le _ _)) by lia.
Qed.
End opcode.

Lemma step_exec st v m :
  wf_pos b v -> 0 < src_len v ->
  lzvn_step b st v (ldb m (src_ptr v)) m = exec_op b st v m (parse_op (src_bytes m v)).
Proof using Hb.
  intros Hv Hs. set (c := ldb m (src_ptr v)).
  assert (0 <= c < 256) as Hc by apply ldb_range.
  assert (byte_at (src_bytes m v) 0 = c) as E0 by (rewrite src_bytes_at by lia; unfold c; f_equal; lia).
  unfold lzvn_step, parse_op. rewrite dispatch_label, E0 by done. unfold label_of.
  repeat match goal with |- context [match (if ?x then _ else _) with _ => _ end] => destruct x end;
  auto using do_sml_d_exec, do_med_d_exec, do_lrg_d_exec, do_pre_d_exec, do_sml_m_exec,
    do_lrg_m_exec, do_sml_l_exec, do_lrg_l_exec.
Qed.
End step.

(** ** The list view of the destination *)

Lemma match_copy_snoc n d out :
  match_copy (S n) d out =
  match_copy n d out ++ [nth (length (match_copy n d out) - Z.to_nat d) (match_copy n d out) 0].
Proof.
  revert out. induction n as [|n IH]; intros out; [done|].
  change (match_copy (S (S n)) d out) with
    (match_copy (S n) d (out ++ [nth (length out - Z.to_nat d) out 0])). by rewrite IH.
Qed.

Lemma match_copy_length n d out : length (match_copy n d out) = (length out + n)%nat.
Proof. revert out. induction n as [|n IH]; intros out; cbn [match_copy]; [lia|]. rewrite IH, length_app. simpl. lia. Qed.

Lemma match_copy_prefix n d out : out `prefix_of` match_copy n d out.
Proof. revert out. induction n as [|n IH]; intros out; [done|]. cbn [match_copy]. etrans; [|apply IH]. by eexists. Qed.

Lemma match_copy_plus n k d out : match_copy (n + k) d out = match_copy k d (match_copy n d out).
Proof. revert out. induction n as [|n IH]; intros out; [done|]. cbn [Nat.add match_copy]. apply IH. Qed.

Lemma take_prefix {A} (l k : list A) : l `prefix_of` k -> take (length l) k = l.
Proof. intros [r ->]. apply take_app_length. Qed.

(** The bytes of [lo, hi). *)
Definition span (m : mem) (lo hi : Z) : list Z := bytes m lo (Z.to_nat (hi - lo)).

Lemma span_length m lo hi : lo <= hi -> zlen (span m lo hi) = hi - lo.
Proof. intros. unfold zlen, span. rewrite bytes_length. lia. Qed.

Lemma span_match m m' lo dp d n hi :
  copied m m' dp (dp - d) n hi -> 0 < d <= dp - lo -> 0 <= n ->
  span m' lo (dp + n) = match_copy (Z.to_nat n) d (span m lo dp).
Proof.
  intros [H1 H2] Hd Hn. unfold span.
  replace (Z.to_nat (dp + n - lo)) with (Z.to_nat (dp - lo) + Z.to_nat n)%nat by lia.
  assert (Z.of_nat (Z.to_nat n) <= n) as Hk by lia. revert Hk. generalize (Z.to_nat n) as k.
  induction k as [|k IH]; intros Hk.
  - rewrite Nat.add_0_r. apply bytes_ext. intros i Hi. unfold ldb. rewrite H1 by lia. done.
  - rewrite match_copy_snoc, Nat.add_succ_r, bytes_snoc, <- IH by lia. do 2 f_equal.
    rewrite bytes_length, bytes_nth by lia.
    replace (lo + Z.of_nat (Z.to_nat (dp - lo) + k)) with (dp + Z.of_nat k) by lia.
    rewrite H2 by lia. f_equal. lia.
Qed.

Lemma span_literal m m' lo dp s n hi :
  copied m m' dp s n hi -> lo <= dp -> 0 <= n ->
  (forall a, s <= a < s + n -> m' a = m a) ->
  span m' lo (dp + n) = span m lo dp ++ bytes m s (Z.to_nat n).
Proof.
  intros [H1 H2] Hlo Hn Hs. unfold span.
  replace (Z.to_nat (dp + n - lo)) with (Z.to_nat (dp - lo) + Z.to_nat n)%nat by lia.
  rewrite bytes_app. f_equal.
  - apply bytes_ext. intros i Hi. unfold ldb. rewrite H1 by lia. done.
  - apply bytes_copy. intros k Hk. replace (lo + Z.of_nat (Z.to_nat (dp - lo))) with dp by lia.
    rewrite H2 by lia. unfold ldb. by rewrite Hs by lia.
Qed.

(** ** Simulation *)

Section simulation.
Context (b : bufs) (Hb : wf_bufs b).

Definition cap : Z := b_dst_end b - b_dst b.
Definition out_bytes (m : mem) (v : locals) : list Z := span m (b_dst b) (dst_ptr v).

(** Only the destination buffer changed. *)
Definition dst_only : mem -> mem -> Prop :=
  only_differ (fun a => b_dst b <= a < b_dst_end b).

Record st_ok (st : lzvn_decoder_state) : Prop := {
  so_begin : st_dst_begin st = b_dst b;
  so_dst : b_dst b <= st_dst st <= b_dst_end b;
}.

Record good (st : lzvn_decoder_state) (v : locals) : Prop := {
  g_pos : wf_pos b v;
  g_D : 0 <= var_D v <= dst_ptr v - b_dst b;
  g_st : st_ok st;
  g_src : 0 < src_len v;
}.

(** What one opcode does, against the reference. *)
Inductive step_result (m : mem) (v : locals) (r : lz_next) : res outcome -> Prop :=
  | step_return st' m' :
      st_ok st' -> dst_only m m' ->
      match r with
      | LzBad => True
      | LzDone out => st_dst st' = b_dst b + zlen out /\ span m' (b_dst b) (st_dst st') = out
      | LzMore _ _ out =>
          cap <= zlen out /\ st_dst st' = b_dst_end b /\
          span m' (b_dst b) (b_dst_end b) = take (Z.to_nat cap) out
      end ->
      step_result m v r (Ok (Return st' m'))
  | step_goto st' v' m' :
      good st' v' -> dst_only m m' -> src_len v' < src_len v ->
      match r with
      | LzBad => True
      | LzDone _ => False
      | LzMore s d out => s = src_bytes m' v' /\ d = var_D v' /\ out = out_bytes m' v'
      end ->
      step_result m v r (Ok (Goto st' v' (ldb m' (src_ptr v')) m')).

Lemma copied_dst_only m m' dst s n :
  copied m m' dst s n (b_dst_end b) -> b_dst b <= dst -> dst_only m m'.
Proof using Type. intros [H _] ? a Ha. apply H. lia. Qed.

Lemma dst_only_src m m' a n :
  dst_only m m' -> b_src b <= a -> a + Z.of_nat n <= b_src_end b -> bytes m' a n = bytes m a n.
Proof using Hb.
  intros H ? ?. apply bytes_ext. intros k Hk. unfold ldb. rewrite H; [done|]. destruct Hb. lia.
Qed.

Lemma UPDATE_GOOD_ok st v : good st v -> st_ok (UPDATE_GOOD st v).
Proof using Type. intros [[] ? [? ?] ?]. constructor; cbn; [done|lia]. Qed.

Lemma save_partial_ok st s L M D : st_ok st -> st_ok (save_partial st s (b_dst_end b) L M D).
Proof using Hb. intros [? ?]. destruct Hb. constructor; cbn; [done|lia]. Qed.

Lemma zlen_src m v : wf_pos b v -> zlen (src_bytes m v) = src_len v.
Proof using Type. intros []. unfold zlen, src_bytes. rewrite bytes_length. lia. Qed.

Lemma src_drop m v k :
  wf_pos b v -> 0 <= k <= src_len v ->
  drop (Z.to_nat k) (src_bytes m v) = bytes m (src_ptr v + k) (Z.to_nat (src_len v - k)).
Proof using Type.
  intros [] Hk. unfold src_bytes. rewrite bytes_drop by lia. f_equal; lia.
Qed.

Lemma zlen_app l1 l2 : zlen (l1 ++ l2) = zlen l1 + zlen l2.
Proof using Type. unfold zlen. rewrite length_app. lia. Qed.

Lemma zlen_bytes m a n : zlen (bytes m a n) = Z.of_nat n.
Proof using Type. unfold zlen. by rewrite bytes_length. Qed.

Lemma zlen_match n d out : zlen (match_copy n d out) = zlen out + Z.of_nat n.
Proof using Type. unfold zlen. rewrite match_copy_length. lia. Qed.

(** The match copy, from a state whose output is [out]. *)
Lemma copy_match_sim st v m M s0 L0 :
  good st v -> 0 <= M < 2 ^ 32 ->
  s0 = src_bytes m v -> src_len v < src_len L0 ->
  step_result m L0
    (if 0 <? var_D v
     then LzMore s0 (var_D v) (match_copy (Z.to_nat M) (var_D v) (out_bytes m v)) else LzBad)
    (copy_match b st v m M).
Proof using Hb.
  intros [Hv HD Hst Hs] HM -> Hlen.
  destruct (copy_match_ok b Hb st v m M Hv Hs HM HD) as (m' & Hc & ->).
  pose proof (copied_dst_only _ _ _ _ _ Hc (wp_dst _ _ Hv)) as Ho.
  pose proof (wp_dst_len _ _ Hv). pose proof (wp_dst_end _ _ Hv).
  destruct (Z.leb_spec M (dst_len v)).
  - rewrite Z.min_l in Hc by lia.
    replace (ldb m (src_ptr v)) with (ldb m' (src_ptr (dst_inc v M))).
    2: { cbn. unfold ldb. rewrite (copied_src b Hb _ _ _ _ _ _ Hc); [done|apply Hv|].
         destruct Hv; lia. }
    constructor; [|done|done|].
    + constructor; [apply dst_inc_wf; [done..|lia]|cbn; lia|done|done].
    + destruct (Z.ltb_spec 0 (var_D v)); [|done]. split_and!; [|done|].
      * symmetry. unfold src_bytes. cbn. apply dst_only_src; [done|apply Hv|]. destruct Hv; lia.
      * symmetry. apply (span_match m m' _ _ _ _ _ Hc); lia.
  - rewrite Z.min_r in Hc by lia.
    constructor; [by apply save_partial_ok|done|].
    destruct (Z.ltb_spec 0 (var_D v)); [|done]. cbn [save_partial st_dst].
    pose proof (span_match m m' (b_dst b) _ _ _ _ Hc ltac:(lia) ltac:(lia)) as Hsp.
    rewrite (wp_dst_end _ _ Hv) in Hsp.
    assert (zlen (out_bytes m v) = dst_ptr v - b_dst b) as Hz by (apply span_length; lia).
    split_and!; [|done|].
    + rewrite zlen_match. unfold cap. lia.
    + rewrite Hsp. replace (Z.to_nat M) with (Z.to_nat (dst_len v) + Z.to_nat (M - dst_len v))%nat by lia.
      rewrite match_copy_plus. symmetry.
      replace (Z.to_nat cap) with (length (match_copy (Z.to_nat (dst_len v)) (var_D v) (span m (b_dst b) (dst_ptr v)))).
      * apply take_prefix, match_copy_prefix.
      * rewrite match_copy_length. unfold cap, zlen, out_bytes in *. lia.
Qed.

(** A literal fills the destination: the output is a prefix. *)
Lemma literal_truncated m m' v s L rest :
  wf_pos b v -> copied m m' (dst_ptr v) s (dst_len v) (b_dst_end b) ->
  b_src b <= s -> s + L <= b_src_end b -> dst_len v <= L ->
  (out_bytes m v ++ bytes m s (Z.to_nat L)) `prefix_of` rest ->
  cap <= zlen rest /\ span m' (b_dst b) (b_dst_end b) = take (Z.to_nat cap) rest.
Proof using Hb.
  intros Hv Hc ? ? ? [r ->]. pose proof Hv as [].
  assert (zlen (out_bytes m v) = dst_ptr v - b_dst b) as Hz by (apply span_length; lia).
  split; [rewrite !zlen_app, zlen_bytes; unfold cap, zlen in *; lia|].
  rewrite <- wp_dst_end0, (span_literal m m' _ _ _ _ _ Hc); [|lia..|].
  2: { intros a Ha. apply (copied_src b Hb _ _ _ _ _ a Hc); [done|lia]. }
  replace (Z.to_nat L) with (Z.to_nat (dst_len v) + Z.to_nat (L - dst_len v))%nat by lia.
  rewrite bytes_app, app_assoc, <- app_assoc. symmetry.
  replace (Z.to_nat cap) with (length (span m (b_dst b) (dst_ptr v) ++ bytes m s (Z.to_nat (dst_len v)))).
  - apply take_app_length.
  - rewrite length_app, bytes_length. unfold cap, zlen, out_bytes in *. lia.
Qed.

Lemma bytes_after m v k L :
  wf_pos b v -> 0 <= k -> 0 <= L -> k + L <= src_len v ->
  take (Z.to_nat L) (drop (Z.to_nat k) (src_bytes m v)) = bytes m (src_ptr v + k) (Z.to_nat L) /\
  drop (Z.to_nat L) (drop (Z.to_nat k) (src_bytes m v)) = src_bytes m (after_literal v k L).
Proof using Type.
  intros Hv ? ? ?. rewrite src_drop by (done || lia). split.
  - apply bytes_take. lia.
  - rewrite bytes_drop by lia. unfold src_bytes. cbn. f_equal; lia.
Qed.

Lemma src_bytes_only m m' v : wf_pos b v -> dst_only m m' -> src_bytes m' v = src_bytes m v.
Proof using Hb. intros [] H. apply dst_only_src; [done|lia..]. Qed.

(** A complete literal. *)
Lemma after_literal_good st v m m' k L :
  good st v -> st_ok st -> 0 <= k -> 0 <= L <= dst_len v -> k + L < src_len v ->
  copied m m' (dst_ptr v) (src_ptr v + k) L (b_dst_end b) ->
  good st (after_literal v k L) /\ dst_only m m' /\
  out_bytes m' (after_literal v k L) = out_bytes m v ++ bytes m (src_ptr v + k) (Z.to_nat L).
Proof using Hb.
  intros [Hv HD _ Hs] Hst ? ? ? Hc. pose proof Hv as [].
  split; [constructor|split]; [by apply after_literal_wf; auto with lia|cbn; lia|done|cbn; lia| |].
  - by eapply copied_dst_only.
  - unfold out_bytes. cbn [after_literal dst_ptr]. apply (span_literal m m' _ _ _ _ _ Hc); [lia..|].
    intros a Ha. apply (copied_src b Hb _ _ _ _ _ a Hc); [done|lia].
Qed.

Lemma exec_L_sim st v m len L :
  good st v -> op_wf (OpL len L) ->
  step_result m v (lz_op (OpL len L) (src_bytes m v) (var_D v) (out_bytes m v))
    (exec_op b st v m (OpL len L)).
Proof using Hb.
  intros Hg [Hl HL]. pose proof (UPDATE_GOOD_ok _ _ Hg) as Hst. pose proof (g_pos _ _ Hg) as Hv.
  cbn [exec_op lz_op]. rewrite zlen_src by done.
  destruct (copy_literal_ok b Hb (UPDATE_GOOD st v) v m len L Hv ltac:(lia) ltac:(lia))
    as [[? ->]|[? (m' & Hc & ->)]].
  { rewrite (proj2 (Z.ltb_ge _ _)) by lia. by constructor. }
  rewrite (proj2 (Z.ltb_lt _ _)) by lia. pose proof Hv as [].
  destruct (bytes_after m v len L Hv ltac:(lia) ltac:(lia) ltac:(lia)) as [-> ->].
  destruct (Z.leb_spec L (dst_len v)).
  - rewrite Z.min_l in Hc by lia.
    destruct (after_literal_good (UPDATE_GOOD st v) v m m' len L) as (Hg' & Ho & E);
      [by destruct Hg|done|lia..|done|].
    replace (ldb m (src_ptr v + len + L)) with (ldb m' (src_ptr (after_literal v len L))).
    2: { cbn. unfold ldb. rewrite Ho; [done|]. destruct Hb. lia. }
    constructor; [done..|cbn; lia|]. split_and!; [|done|done].
    symmetry. apply src_bytes_only; [apply Hg'|done].
  - rewrite Z.min_r in Hc by lia. constructor; [by apply save_partial_ok|by eapply copied_dst_only|].
    destruct (literal_truncated m m' v _ L (out_bytes m v ++ bytes m (src_ptr v + len) (Z.to_nat L)) Hv Hc)
      as [? ?]; [lia..|done|]. done.
Qed.

Lemma exec_M_sim st v m len M :
  good st v -> op_wf (OpM len M) ->
  step_result m v (lz_op (OpM len M) (src_bytes m v) (var_D v) (out_bytes m v))
    (exec_op b st v m (OpM len M)).
Proof using Hb.
  intros Hg [Hl HM]. pose proof (UPDATE_GOOD_ok _ _ Hg) as Hst. pose proof Hg as [Hv HD _ Hs].
  cbn [exec_op lz_op]. rewrite zlen_src by done. destruct (Z.leb_spec (src_len v) len).
  { rewrite (proj2 (Z.ltb_ge _ _)) by lia. by constructor. }
  rewrite (proj2 (Z.ltb_lt _ _)) by lia. cbn [andb].
  change (var_D v) with (var_D (src_inc v len)). change (out_bytes m v) with (out_bytes m (src_inc v len)).
  pose proof (src_len_inc b Hb v len Hv ltac:(lia)).
  apply copy_match_sim; [|lia| |lia].
  - constructor; [apply src_inc_wf; auto with lia|done|done|lia].
  - rewrite src_drop by (done || lia). unfold src_bytes. rewrite H0. done.
Qed.

Lemma step_result_trans m m1 v r x :
  dst_only m m1 -> step_result m1 v r x -> step_result m v r x.
Proof using Type.
  intros H []; constructor; try done; by eapply only_differ_trans.
Qed.

Lemma exec_LM_sim st v m len L M d :
  good st v -> op_wf (OpLM len L M d) ->
  step_result m v (lz_op (OpLM len L M d) (src_bytes m v) (var_D v) (out_bytes m v))
    (exec_op b st v m (OpLM len L M d)).
Proof using Hb.
  intros Hg (Hl & HL & HM & Hd). pose proof (UPDATE_GOOD_ok _ _ Hg) as Hst. pose proof Hg as [Hv HD _ Hs].
  assert (0 <= default (var_D v) d) as Hd0 by (destruct d; simpl in *; lia).
  cbn [exec_op lz_op]. rewrite zlen_src by done. set (D := default (var_D v) d) in *.
  destruct (Z.leb_spec (src_len v) (len + L)).
  { rewrite (proj2 (Z.ltb_ge _ _)) by lia. by constructor. }
  rewrite (proj2 (Z.ltb_lt _ _)) by lia. cbn [andb]. pose proof Hv as [].
  destruct (bytes_after m v len L Hv ltac:(lia) ltac:(lia) ltac:(lia)) as [-> ->].
  set (vD := with_D v D). assert (wf_pos b vD) as HvD by by constructor.
  destruct (copy_literal_and_match_ok b Hb (UPDATE_GOOD st v) vD m len L M HvD)
    as (m' & Hc & ->); [apply Hst|lia|done|done|].
  change (dst_len vD) with (dst_len v) in *. change (var_D vD) with D.
  change (src_ptr vD) with (src_ptr v) in *. change (dst_ptr vD) with (dst_ptr v) in *.
  assert (zlen (out_bytes m v ++ bytes m (src_ptr v + len) (Z.to_nat L)) = dst_ptr v + L - b_dst b) as ->.
  { unfold out_bytes. rewrite zlen_app, span_length, zlen_bytes by lia. lia. }
  destruct (Z.leb_spec L (dst_len v)).
  - rewrite Z.min_l in Hc by lia.
    destruct (after_literal_good (UPDATE_GOOD st v) v m m' len L) as (Hg' & Ho & E);
      [by destruct Hg|done|lia..|done|].
    destruct (Z.ltb_spec (dst_ptr v + L - b_dst b) D); cbn [orb].
    { rewrite (proj2 (Z.leb_gt _ _)), andb_false_r by lia. by constructor. }
    destruct (Z.eqb_spec D 0) as [->|]; [by constructor|].
    rewrite (proj2 (Z.leb_le _ _)), andb_true_r by lia.
    apply (step_result_trans _ m'); [done|].
    change (after_literal vD len L) with (with_D (after_literal v len L) D).
    change D with (var_D (with_D (after_literal v len L) D)) at 1 2 3. rewrite <- E.
    change (out_bytes m' (after_literal v len L)) with (out_bytes m' (with_D (after_literal v len L) D)).
    destruct Hg' as [Hv' ? ? ?]. apply copy_match_sim; [|lia| |cbn; lia].
    + constructor; [by destruct Hv'; constructor|cbn; lia|done|done].
    + rewrite <- (src_bytes_only m m' (after_literal v len L)) by done. done.
  - rewrite Z.min_r in Hc by lia. constructor; [by apply save_partial_ok|by eapply copied_dst_only|].
    destruct ((0 <? D) && _); [|done].
    destruct (literal_truncated m m' v _ L
      (match_copy (Z.to_nat M) D (out_bytes m v ++ bytes m (src_ptr v + len) (Z.to_nat L))) Hv Hc)
      as [? ?]; [lia..|apply match_copy_prefix|]. done.
Qed.

Lemma exec_sim st v m o :
  good st v -> op_wf o ->
  step_result m v (lz_op o (src_bytes m v) (var_D v) (out_bytes m v)) (exec_op b st v m o).
Proof using Hb.
  intros Hg Ho. pose proof Hg as [Hv HD Hst Hs].
  destruct o; [by apply exec_LM_sim|by apply exec_M_sim|by apply exec_L_sim|..];
    cbn [exec_op lz_op]; rewrite ?zlen_src by done.
  - unfold do_nop. pose proof (UPDATE_GOOD_ok _ _ Hg). destruct (Z.leb_spec (src_len v) 1).
    { rewrite (proj2 (Z.ltb_ge _ _)) by lia. by constructor. }
    rewrite (proj2 (Z.ltb_lt _ _)) by lia.
    pose proof (src_len_inc b Hb v 1 Hv ltac:(lia)) as E.
    assert (wf_pos b (src_inc v 1)) by (apply src_inc_wf; auto with lia).
    rewrite next_opcode_ok by (done || lia).
    constructor; [constructor; done || lia|done|lia|]. split_and!; [|done|done].
    change 1%nat with (Z.to_nat 1). rewrite src_drop by (done || lia). unfold src_bytes. by rewrite E.
  - unfold do_eos. destruct (Z.ltb_spec (src_len v) 8).
    { rewrite (proj2 (Z.leb_gt _ _)) by lia. by constructor. }
    rewrite (proj2 (Z.leb_le _ _)) by lia. pose proof Hv as []. destruct Hst.
    constructor; [constructor; cbn; [done|lia]|done|].
    unfold out_bytes. rewrite span_length by lia. cbn. split; [lia|done].
  - by constructor.
Qed.

Lemma lz_ref_prefix fuel s d out full : lz_ref fuel s d out = Some full -> out `prefix_of` full.
Proof using Type.
  revert s d out. induction fuel as [|fuel IH]; intros s d out H; [done|]. cbn [lz_ref] in H.
  assert (forall s' d' out', lz_op (parse_op s) s d out = LzMore s' d' out' -> out `prefix_of` out') as Hp.
  { clear H. intros s' d' out' E. destruct (parse_op s); simpl in E; repeat case_match; simplify_eq; try done.
    - etrans; [|apply match_copy_prefix]. by eexists.
    - apply match_copy_prefix.
    - by eexists. }
  assert (forall out', lz_op (parse_op s) s d out = LzDone out' -> out' = out) as Hd.
  { clear H. intros out' E. destruct (parse_op s); simpl in E; repeat case_match; by simplify_eq. }
  destruct (lz_op (parse_op s) s d out) as [o|s' d' out'|]; [|etrans; [by eapply Hp|by eapply IH]|done].
  simplify_eq. by rewrite (Hd full).
Qed.

(** The whole run: safe, terminating, and the reference's output cut to the
    size of the destination. *)
Lemma run_ok fuel st v m :
  good st v -> src_len v <= Z.of_nat fuel ->
  exists st' m', lzvn_run fuel b (Goto st v (ldb m (src_ptr v)) m) = Ok (st', m') /\
    st_ok st' /\ dst_only m m' /\
    forall full, lz_ref fuel (src_bytes m v) (var_D v) (out_bytes m v) = Some full ->
      st_dst st' = b_dst b + Z.min cap (zlen full) /\
      span m' (b_dst b) (st_dst st') = take (Z.to_nat cap) full.
Proof using Hb.
  revert st v m. induction fuel as [|fuel IH]; intros st v m Hg Hf; [destruct Hg; lia|].
  pose proof Hg as [Hv HD Hst Hs]. cbn [lzvn_run lz_ref]. rewrite (step_exec b Hb) by done.
  destruct (exec_sim st v m (parse_op (src_bytes m v)) Hg (parse_op_wf _ (bytes_range _ _ _)))
    as [st' m' Hst' Ho Hr|st' v' m' Hg' Ho Hl Hr]; cbn [rbind].
  - destruct fuel; cbn [lzvn_run].
    all: exists st', m'; split_and!; [done..|]; intros full Hfull.
    all: destruct (lz_op _ _ _ _) as [o|s' d' out'|] eqn:E; [|try (cbn in Hfull; discriminate)|done].
    1, 2: simplify_eq; destruct Hr as [Hd Hsp]; destruct Hst' as [? Hrng]; rewrite Hd in *.
    1, 2: unfold cap; rewrite Z.min_r by lia; split; [done|]; rewrite Hsp;
      symmetry; apply take_ge; unfold zlen in *; lia.
    destruct Hr as (Hcap & Hd & Hsp). pose proof (lz_ref_prefix _ _ _ _ _ Hfull) as [r ->].
    rewrite zlen_app. pose proof (Nat2Z.is_nonneg (length r)). unfold zlen in *.
    rewrite Z.min_l by lia. rewrite Hd, take_app_le by lia. split; [unfold cap; lia|done].
  - destruct (IH st' v' m' Hg' ltac:(lia)) as (st2 & m2 & -> & Hst2 & Ho2 & Hf2).
    exists st2, m2. split_and!; [done..|by eapply only_differ_trans|]. intros full Hfull.
    destruct (lz_op _ _ _ _) as [o|s' d' out'|]; [done| |done].
    destruct Hr as (-> & -> & ->). by apply Hf2.
Qed.
End simulation.

(** ** Fuel of the reference *)

Lemma lz_op_shrinks s d out s' d' out' :
  Forall (fun x => 0 <= x < 256) s ->
  lz_op (parse_op s) s d out = LzMore s' d' out' ->
  (length s' < length s)%nat /\ Forall (fun x => 0 <= x < 256) s'.
Proof.
  intros Hs E. pose proof (parse_op_wf s Hs) as Ho.
  destruct (parse_op s); cbn [lz_op op_wf] in *; repeat case_match; simplify_eq.
  all: repeat match goal with
    | H : _ && _ = true |- _ => apply andb_true_iff in H as [? ?]
    | H : (_ <? _) = true |- _ => apply Z.ltb_lt in H
    end; unfold zlen in *.
  all: split; [rewrite ?length_drop; lia|auto using Forall_drop].
Qed.

Lemma lz_ref_fuel n k s d out :
  Forall (fun x => 0 <= x < 256) s -> (length s <= n)%nat -> (length s <= k)%nat -> (0 < length s)%nat ->
  lz_ref n s d out = lz_ref k s d out.
Proof.
  revert k s d out. induction n as [|n IH]; intros k s d out Hs Hn Hk H0; [lia|].
  destruct k as [|k]; [lia|]. cbn [lz_ref].
  destruct (lz_op (parse_op s) s d out) as [o|s' d' out'|] eqn:E; [done| |done].
  destruct (lz_op_shrinks _ _ _ _ _ _ Hs E) as [Hl Hs'].
  destruct (decide (length s' = 0%nat)) as [Hz|]; [|apply IH; [done|lia..]].
  destruct s'; [|done]. by destruct n, k.
Qed.

(** ** The buffer interface *)

Lemma buffer_good dst dst_size src src_size :
  0 <= src -> 0 < src_size -> 0 <= dst -> 0 < dst_size ->
  src + src_size < 2 ^ 63 -> dst + dst_size < 2 ^ 63 ->
  src + src_size <= dst \/ dst + dst_size <= src ->
  let b := mk_bufs src (src + src_size) dst (dst + dst_size) in
  wf_bufs b /\
  good b (mk_state src (src + src_size) dst dst (dst + dst_size) 0 0 0 0 false)
    (mk_locals src src_size dst dst_size 0).
Proof.
  intros. split; [constructor; cbn; lia|].
  constructor; [constructor; cbn; lia|cbn; lia|constructor; cbn; lia|cbn; lia].
Qed.

Lemma decode_buffer_run m dst dst_size src src_size :
  0 <= src -> 0 < src_size -> 0 <= dst -> 0 < dst_size ->
  src + src_size < 2 ^ 63 -> dst + dst_size < 2 ^ 63 ->
  src + src_size <= dst \/ dst + dst_size <= src ->
  let b := mk_bufs src (src + src_size) dst (dst + dst_size) in
  let st := mk_state src (src + src_size) dst dst (dst + dst_size) 0 0 0 0 false in
  lzvn_decode_buffer m dst dst_size src src_size =
  let! '(st', m') := lzvn_run (Z.to_nat src_size) b
    (Goto st (mk_locals src src_size dst dst_size 0) (ldb m src) m) in
  Ok (u64 (st_dst st' - dst), m').
Proof.
  intros. destruct (buffer_good dst dst_size src src_size) as [Hb Hg]; [done..|].
  unfold lzvn_decode_buffer, lzvn_decode.
  cbn [st_src st_src_end st_dst st_dst_begin st_dst_end st_L st_M st_D st_d_prev].
  replace (src + src_size - src) with src_size by lia.
  replace (dst + dst_size - dst) with dst_size by lia.
  rewrite (wrap_small 64 src_size), (wrap_small 64 dst_size) by lia.
  rewrite !(proj2 (Z.eqb_neq _ 0)) by lia. cbn [orb truth Z.eqb negb].
  rewrite (next_opcode_ok _ Hb); [done|exact (g_pos _ _ _ Hg)|exact (g_src _ _ _ Hg)].
Qed.

Lemma decode_buffer_empty m dst dst_size src src_size :
  src_size = 0 \/ dst_size = 0 -> 0 <= src_size < 2 ^ 64 -> 0 <= dst_size < 2 ^ 64 ->
  lzvn_decode_buffer m dst dst_size src src_size = Ok (0, m).
Proof.
  intros H ? ?. unfold lzvn_decode_buffer, lzvn_decode.
  cbn [st_src st_src_end st_dst st_dst_begin st_dst_end].
  replace (src + src_size - src) with src_size by lia.
  replace (dst + dst_size - dst) with dst_size by lia.
  rewrite !(wrap_small 64) by lia.
  assert ((src_size =? 0) || (dst_size =? 0) = true) as -> by (destruct H as [-> | ->]; rewrite ?orb_true_r; done).
  cbn [rbind st_dst]. by rewrite Z.sub_diag.
Qed.

Section buffer.
Context (m : mem) (dst dst_size src src_size : Z).
Hypothesis (Hsrc : 0 <= src) (Hss : 0 <= src_size) (Hdst : 0 <= dst) (Hds : 0 <= dst_size).
Hypothesis (Hst : src + src_size < 2 ^ 63) (Hdt : dst + dst_size < 2 ^ 63).
Hypothesis (Hdisj : src + src_size <= dst \/ dst + dst_size <= src).

(** C21: On every source buffer, well formed or not, [lzvn_decode_buffer]
    terminates without reading outside the two buffers or writing outside the
    destination, returns at most [dst_size], and changes nothing but the
    destination buffer. *)
Theorem lzvn_decode_buffer_safe :
  exists n m', lzvn_decode_buffer m dst dst_size src src_size = Ok (n, m') /\
    0 <= n <= dst_size /\ forall a, ~ (dst <= a < dst + dst_size) -> m' a = m a.
Proof using All.
  destruct (decide (src_size = 0 \/ dst_size = 0)) as [He|Hne].
  { exists 0, m. rewrite decode_buffer_empty by (done || lia). split_and!; [done|lia..|done]. }
  rewrite decode_buffer_run by (done || lia).
  destruct (buffer_good dst dst_size src src_size) as [Hb Hg]; [lia..|].
  edestruct (run_ok _ Hb (Z.to_nat src_size)) as (st' & m' & Hrun & Hst' & Ho & _); [exact Hg|cbn; lia|].
  cbn [src_ptr] in Hrun. rewrite Hrun. cbn [rbind]. destruct Hst' as [_ Hr]. cbn in Hr.
  exists (st_dst st' - dst), m'. rewrite (wrap_small 64) by lia. split_and!; [done|lia|lia|exact Ho].
Qed.

(** C3: On every well-formed stream [lzvn_decode_buffer] computes what the
    reference decoder computes on byte lists, cut to the destination: it
    returns the smaller of [dst_size] and the length of the output, and the
    destination starts with that much of the output. *)
Theorem lzvn_decode_buffer_correct out :
  lz_decode (bytes m src (Z.to_nat src_size)) = Some out ->
  exists m', lzvn_decode_buffer m dst dst_size src src_size = Ok (Z.min dst_size (zlen out), m') /\
    bytes m' dst (Z.to_nat (Z.min dst_size (zlen out))) = take (Z.to_nat dst_size) out.
Proof using All.
  unfold lz_decode. rewrite bytes_length. intros Href.
  destruct (decide (src_size = 0)) as [->|]; [done|].
  destruct (decide (dst_size = 0)) as [->|].
  { exists m. rewrite decode_buffer_empty by (lia || by right). unfold zlen.
    rewrite Z.min_l by lia. done. }
  rewrite decode_buffer_run by (done || lia).
  destruct (buffer_good dst dst_size src src_size) as [Hb Hg]; [lia..|].
  edestruct (run_ok _ Hb (Z.to_nat src_size)) as (st' & m' & Hrun & Hst' & _ & Hf); [exact Hg|cbn; lia|].
  unfold out_bytes, src_bytes, span, cap in Hf. cbn in Hf. rewrite Z.sub_diag in Hf.
  destruct (Hf _ Href) as [Hd Hb']. clear Hf. replace (dst + dst_size - dst) with dst_size in * by lia.
  cbn [src_ptr] in Hrun. rewrite Hrun. cbn [rbind]. exists m'. unfold zlen in *.
  rewrite Hd in *. replace (dst + Z.min dst_size (Z.of_nat (length out)) - dst)
    with (Z.min dst_size (Z.of_nat (length out))) in * by lia.
  rewrite (wrap_small 64) by lia. done.
Qed.
End buffer.

(** The jump table used where the compiler has labels as values and the
    [switch] used elsewhere send each of the 256 opcodes to the same label, and
    the [switch] has a case for every opcode. *)
Theorem opc_switch_table opc :
  0 <= opc < 256 -> opc_switch opc = Some (dispatch opc).
Proof.
  intros Hc. assert (bool_decide (opc_switch opc = Some (dispatch opc)) = true) as H;
    [|by apply bool_decide_eq_true in H].
  revert opc Hc. apply (byte_cases (fun c => bool_decide (opc_switch c = Some (dispatch c)))).
  vm_compute. reflexivity.
Qed.

(** *** Streams for a given output *)

(** The stream that stores each byte as a one-byte literal. *)
Definition eos_bytes : list Z := [6; 0; 0; 0; 0; 0; 0; 0].

Fixpoint lz_store (x : list Z) : list Z :=
  match x with
  | [] => eos_bytes
  | c :: x => 0xE1 :: c :: lz_store x
  end.

Lemma lz_store_length x : (8 <= length (lz_store x))%nat.
Proof. induction x; simpl in *; lia. Qed.

Lemma lz_ref_store fuel x d out :
  (length x < fuel)%nat -> lz_ref fuel (lz_store x) d out = Some (out ++ x).
Proof.
  revert x out. induction fuel as [|fuel IH]; intros x out Hf; [lia|].
  destruct x as [|c x]; [by rewrite app_nil_r|]. cbn [lz_store lz_ref].
  change (parse_op (0xE1 :: c :: lz_store x)) with (OpL 1 1). cbn [lz_op].
  pose proof (lz_store_length x). rewrite (proj2 (Z.ltb_lt _ _)) by (unfold zlen; cbn [length]; lia).
  change (Z.to_nat 1) with 1%nat. cbn [drop take]. rewrite ?take_0, ?drop_0.
  simpl in Hf. rewrite IH by lia. by rewrite <- app_assoc.
Qed.

Lemma lz_store_fuel x : (length x < length (lz_store x))%nat.
Proof. induction x; simpl in *; lia. Qed.

(** Every byte string has a stream that decodes to it: storing [x] and
    decoding into a buffer with room for it gives the length of [x] and its
    bytes back. *)
Theorem lzvn_store_roundtrip m dst dst_size src x :
  0 <= src -> 0 <= dst -> src + zlen (lz_store x) < 2 ^ 63 -> dst + dst_size < 2 ^ 63 ->
  src + zlen (lz_store x) <= dst \/ dst + dst_size <= src ->
  zlen x <= dst_size -> bytes m src (length (lz_store x)) = lz_store x ->
  exists m', lzvn_decode_buffer m dst dst_size src (zlen (lz_store x)) = Ok (zlen x, m') /\
    bytes m' dst (length x) = x.
Proof.
  intros ? ? ? ? ? Hfit Hm. unfold zlen in *.
  set (b := mk_bufs src (src + Z.of_nat (length (lz_store x))) dst (dst + dst_size)).
  destruct (decide (dst_size = 0)) as [->|].
  { destruct x; [|simpl in *; lia]. exists m. by rewrite decode_buffer_empty by (auto with lia). }
  pose proof (lz_store_length x).
  rewrite decode_buffer_run by (done || lia).
  destruct (buffer_good dst dst_size src (Z.of_nat (length (lz_store x)))) as [Hb Hg]; [lia..|].
  edestruct (run_ok _ Hb (Z.to_nat (Z.of_nat (length (lz_store x))))) as (st' & m' & Hrun & _ & _ & Hf);
    [exact Hg|cbn; lia|].
  unfold out_bytes, src_bytes, span, cap in Hf. cbn in Hf. rewrite Z.sub_diag, Nat2Z.id, Hm in Hf.
  rewrite (lz_ref_store _ x) in Hf by apply lz_store_fuel.
  destruct (Hf _ eq_refl) as [Hd Hb']. clear Hf. unfold zlen in *. simpl app in *.
  replace (dst + dst_size - dst) with dst_size in * by lia.
  rewrite Z.min_r in Hd by lia. rewrite Hd in Hb'.
  replace (dst + Z.of_nat (length x) - dst) with (Z.of_nat (length x)) in * by lia.
  cbn [src_ptr] in Hrun. rewrite Hrun. cbn [rbind]. exists m'.
  rewrite Hd. replace (dst + Z.of_nat (length x) - dst) with (Z.of_nat (length x)) by lia.
  rewrite (wrap_small 64) by lia. split; [done|]. rewrite Nat2Z.id in Hb'.
  rewrite Hb'. apply take_ge. lia.
Qed.

(** A one-byte match at distance zero stores the byte it has read. *)
Lemma copy_match_zero b (Hb : wf_bufs b) st v m :
  wf_pos b v -> 0 < src_len v -> 0 < dst_len v -> var_D v = 0 ->
  let m' := stn 1 m (dst_ptr v) (ldn 1 m (dst_ptr v)) in
  copy_match b st v m 1 = Ok (Goto st (dst_inc v 1) (ldb m' (src_ptr v)) m').
Proof.
  intros Hv Hs Hd HD. unfold copy_match. rewrite HD. change (8 <=? 0) with false.
  rewrite andb_false_r, (proj2 (Z.leb_le _ _)), Z.sub_0_r by lia.
  unfold byte_copy. change (Z.to_nat 1) with 1%nat. cbn [for_loop]. change (0 <? 1) with true.
  pose proof Hv as []. rewrite !Z.add_0_r.
  rewrite rd_ok by (right; lia). cbn [rbind]. rewrite wr_ok by (split; lia). cbn [rbind].
  change (0 + 1 <? 1) with false. cbn [rbind]. by rewrite next_opcode_ok by (try apply dst_inc_wf; done || lia).
Qed.

(** A match opcode before any distance is known is not rejected, although
    the distance is then zero: the decoder reports one byte of output that it
    never produced, the byte the caller's buffer held before the call. *)
Theorem lzvn_match_without_distance m dst dst_size src :
  0 <= src -> 0 <= dst -> 0 < dst_size -> src + 9 < 2 ^ 63 -> dst + dst_size < 2 ^ 63 ->
  src + 9 <= dst \/ dst + dst_size <= src ->
  bytes m src 9 = 0xF1 :: eos_bytes ->
  lz_decode (0xF1 :: eos_bytes) = None /\
  exists m', lzvn_decode_buffer m dst dst_size src 9 = Ok (1, m') /\ ldb m' dst = ldb m dst.
Proof.
  intros ? ? ? ? ? ? Hm. split; [reflexivity|].
  rewrite decode_buffer_run by (done || lia).
  destruct (buffer_good dst dst_size src 9) as [Hb Hg]; [lia..|]. pose proof Hg as [Hv HD Hst Hs].
  set (v := mk_locals src 9 dst dst_size 0) in *. set (b := mk_bufs src (src + 9) dst (dst + dst_size)) in *.
  change (Z.to_nat 9) with (S (S 7)). cbn [lzvn_run].
  change (ldb m src) with (ldb m (src_ptr v)). rewrite (step_exec _ Hb) by done.
  change (src_bytes m v) with (bytes m src 9). rewrite Hm. change (parse_op _) with (OpM 1 1).
  cbn [exec_op]. change (src_len v <=? 1) with false.
  assert (wf_pos b (src_inc v 1)) as Hv1 by (apply src_inc_wf; [done..|cbn; lia]).
  rewrite (copy_match_zero b Hb) by (done || cbn; lia). cbn [rbind].
  change (dst_ptr (src_inc v 1)) with dst. set (m' := stn 1 m dst (ldn 1 m dst)).
  assert (forall x, ldb m' x = ldb m x) as Hid.
  { intros x. unfold m'. rewrite ldb_stn_ldn. destruct ((dst <=? x) && _); [f_equal; lia|done]. }
  change (src_ptr (src_inc v 1)) with (src_ptr (dst_inc (src_inc v 1) 1)).
  rewrite (step_exec _ Hb); [|apply dst_inc_wf; [done..|cbn; lia]|reflexivity].
  assert (src_bytes m' (dst_inc (src_inc v 1) 1) = eos_bytes) as ->.
  { change (src_bytes m' (dst_inc (src_inc v 1) 1)) with (bytes m' (src + 1) 8).
    rewrite (bytes_ext m) by (intros; apply Hid). exact (f_equal tail Hm). }
  exists m'. split; [|apply Hid]. change (parse_op eos_bytes) with OpEos.
  cbn [exec_op]. unfold do_eos. change (src_len (dst_inc (src_inc v 1) 1) <? 8) with false.
  cbn. by replace (dst + 1 - dst) with 1 by lia.
Qed.

(** ** Witnesses *)

(** The bytes of [l] at [base], zero elsewhere. *)
Definition place (base : Z) (l : list Z) : mem := fun a => if a <? base then 0 else nth (Z.to_nat (a - base)) l 0.

Definition demo_stream : list Z := [0xE3; 65; 66; 67; 0x38; 3; 0xF5] ++ eos_bytes.

Lemma lzvn_decode_buffer_safe_witness :
  exists n m', lzvn_decode_buffer (place 1000 [0x47; 9; 9]) 0 64 1000 3 = Ok (n, m') /\ 0 <= n <= 64.
Proof.
  destruct (lzvn_decode_buffer_safe (place 1000 [0x47; 9; 9]) 0 64 1000 3) as (n & m' & E & Hn & _);
    [lia..|]. exists n, m'. auto.
Defined.

Lemma lzvn_decode_buffer_correct_witness :
  exists m', lzvn_decode_buffer (place 1000 demo_stream) 0 8 1000 15 = Ok (8, m') /\
    bytes m' 0 8 = [65; 66; 67; 65; 66; 67; 65; 66].
Proof.
  exact (lzvn_decode_buffer_correct (place 1000 demo_stream) 0 8 1000 15 ltac:(lia) ltac:(lia) ltac:(lia)
    ltac:(lia) ltac:(lia) ltac:(lia) ltac:(lia)
    [65; 66; 67; 65; 66; 67; 65; 66; 67; 65; 66; 67; 65; 66; 67; 65; 66; 67] eq_refl).
Defined.

Lemma opc_switch_table_witness : opc_switch 0xF1 = Some sml_m.
Proof. exact (opc_switch_table 0xF1 ltac:(lia)). Defined.

Lemma lzvn_store_roundtrip_witness :
  exists m', lzvn_decode_buffer (place 1000 (lz_store [7; 8; 9])) 0 5 1000 14 = Ok (3, m') /\
    bytes m' 0 3 = [7; 8; 9].
Proof.
  exact (lzvn_store_roundtrip (place 1000 (lz_store [7; 8; 9])) 0 5 1000 [7; 8; 9] ltac:(lia) ltac:(lia)
    ltac:(done) ltac:(lia) ltac:(right; lia) ltac:(done) eq_refl).
Defined.

Lemma lzvn_match_without_distance_witness :
  exists m', lzvn_decode_buffer (place 1000 (0xF1 :: eos_bytes)) 0 4 1000 9 = Ok (1, m') /\
    ldb m' 0 = ldb (place 1000 (0xF1 :: eos_bytes)) 0.
Proof.
  exact (proj2 (lzvn_match_without_distance (place 1000 (0xF1 :: eos_bytes)) 0 4 1000 ltac:(lia) ltac:(lia)
    ltac:(lia) ltac:(lia) ltac:(lia) ltac:(right; lia) eq_refl)).
Defined.
