(* ===== verification/Sha256.v ===== *)
(** SHA-256 as Lilu carries it ([src/Lilu/sha256/sha256.c]): the macros, the
    round constants, [sha256_transform], [sha256_init], [sha256_update] and
    [sha256_final].

    The context is a record; its arrays are lists, written through [arr_set],
    which faults outside the array.  The message is read from byte memory.
    [WORD] arithmetic is modulo 2^32, [bitlen] is modulo 2^64. *)
From S2P Require Import Prelude.
From stdpp Require Import prelude.
From Stdlib Require Import ZArith Lia.
Open Scope Z_scope.
Open Scope c_scope.

Record SHA256_CTX := mk_ctx {
  data : list Z;
  datalen : Z;
  bitlen : Z;
  state : list Z;
}.

(** [l[i] = v] and [l[i]]. *)
Definition arr_set (l : list Z) (i v : Z) : res (list Z) :=
  if (0 <=? i) && (i <? Z.of_nat (length l)) then Ok (<[Z.to_nat i := v]> l) else Fault.
Definition arr_get (l : list Z) (i : nat) : Z := nth i l 0.

Definition ROTRIGHT (a b : Z) : Z := (a .>> b) .| u32 (a .<< (32 - b)).
Definition CH (x y z : Z) : Z := (x .& y) .^ (u32 (Z.lnot x) .& z).
Definition MAJ (x y z : Z) : Z := (x .& y) .^ (x .& z) .^ (y .& z).
Definition EP0 (x : Z) : Z := ROTRIGHT x 2 .^ ROTRIGHT x 13 .^ ROTRIGHT x 22.
Definition EP1 (x : Z) : Z := ROTRIGHT x 6 .^ ROTRIGHT x 11 .^ ROTRIGHT x 25.
Definition SIG0 (x : Z) : Z := ROTRIGHT x 7 .^ ROTRIGHT x 18 .^ (x .>> 3).
Definition SIG1 (x : Z) : Z := ROTRIGHT x 17 .^ ROTRIGHT x 19 .^ (x .>> 10).

(** The table, a list per line of the source. *)
Definition k : list Z := concat [
  [0x428a2f98; 0x71374491; 0xb5c0fbcf; 0xe9b5dba5; 0x3956c25b; 0x59f111f1; 0x923f82a4; 0xab1c5ed5];
  [0xd807aa98; 0x12835b01; 0x243185be; 0x550c7dc3; 0x72be5d74; 0x80deb1fe; 0x9bdc06a7; 0xc19bf174];
  [0xe49b69c1; 0xefbe4786; 0x0fc19dc6; 0x240ca1cc; 0x2de92c6f; 0x4a7484aa; 0x5cb0a9dc; 0x76f988da];
  [0x983e5152; 0xa831c66d; 0xb00327c8; 0xbf597fc7; 0xc6e00bf3; 0xd5a79147; 0x06ca6351; 0x14292967];
  [0x27b70a85; 0x2e1b2138; 0x4d2c6dfc; 0x53380d13; 0x650a7354; 0x766a0abb; 0x81c2c92e; 0x92722c85];
  [0xa2bfe8a1; 0xa81a664b; 0xc24b8b70; 0xc76c51a3; 0xd192e819; 0xd6990624; 0xf40e3585; 0x106aa070];
  [0x19a4c116; 0x1e376c08; 0x2748774c; 0x34b0bcb5; 0x391c0cb3; 0x4ed8aa4a; 0x5b9cca4f; 0x682e6ff3];
  [0x748f82ee; 0x78a5636f; 0x84c87814; 0x8cc70208; 0x90befffa; 0xa4506ceb; 0xbef9a3f7; 0xc67178f2]].

(** The body of the first loop of [sha256_transform]: [m[i]] from four bytes. *)
Definition load_word (d m : list Z) (i : nat) : list Z :=
  let j := (4 * i)%nat in
  <[i := u32 ((arr_get d j .<< 24) .| (arr_get d (j + 1) .<< 16) .|
              (arr_get d (j + 2) .<< 8) .| arr_get d (j + 3))]> m.

(** The body of the second loop. *)
Definition extend_word (m : list Z) (i : nat) : list Z :=
  <[i := u32 (SIG1 (arr_get m (i - 2)) + arr_get m (i - 7) +
              SIG0 (arr_get m (i - 15)) + arr_get m (i - 16))]> m.

Record vars := mk_vars { va : Z; vb : Z; vc : Z; vd : Z; ve : Z; vf : Z; vg : Z; vh : Z }.

(** One round. *)
Definition round (m : list Z) (v : vars) (i : nat) : vars :=
  let t1 := u32 (vh v + EP1 (ve v) + CH (ve v) (vf v) (vg v) + arr_get k i + arr_get m i) in
  let t2 := u32 (EP0 (va v) + MAJ (va v) (vb v) (vc v)) in
  mk_vars (u32 (t1 + t2)) (va v) (vb v) (vc v) (u32 (vd v + t1)) (ve v) (vf v) (vg v).

Definition sha256_transform (ctx : SHA256_CTX) (d : list Z) : SHA256_CTX :=
  let m := fold_left (load_word d) (seq 0 16) (replicate 64 0) in
  let m := fold_left extend_word (seq 16 48) m in
  let s := state ctx in
  let v := mk_vars (arr_get s 0) (arr_get s 1) (arr_get s 2) (arr_get s 3)
                   (arr_get s 4) (arr_get s 5) (arr_get s 6) (arr_get s 7) in
  let v := fold_left (round m) (seq 0 64) v in
  mk_ctx (data ctx) (datalen ctx) (bitlen ctx)
    [u32 (arr_get s 0 + va v); u32 (arr_get s 1 + vb v); u32 (arr_get s 2 + vc v);
     u32 (arr_get s 3 + vd v); u32 (arr_get s 4 + ve v); u32 (arr_get s 5 + vf v);
     u32 (arr_get s 6 + vg v); u32 (arr_get s 7 + vh v)].

Definition sha256_init (ctx : SHA256_CTX) : SHA256_CTX :=
  mk_ctx (data ctx) 0 0
    [0x6a09e667; 0xbb67ae85; 0x3c6ef372; 0xa54ff53a; 0x510e527f; 0x9b05688c; 0x1f83d9ab; 0x5be0cd19].

(** The body of the loop of [sha256_update]. *)
Definition update_byte (ctx : SHA256_CTX) (x : Z) : res SHA256_CTX :=
  let! d := arr_set (data ctx) (datalen ctx) x in
  let ctx := mk_ctx d (u32 (datalen ctx + 1)) (bitlen ctx) (state ctx) in
  if datalen ctx =? 64 then
    let ctx := sha256_transform ctx (data ctx) in
    Ok (mk_ctx (data ctx) 0 (u64 (bitlen ctx + 512)) (state ctx))
  else Ok ctx.

(** The counter [i] is a [WORD], the length a [size_t]. *)
Fixpoint update_loop (fuel : nat) (m : mem) (p i len : Z) (ctx : SHA256_CTX) : res SHA256_CTX :=
  if i <? len then
    match fuel with
    | O => NoFuel
    | S fuel =>
        let! ctx := update_byte ctx (ldb m (p + i)) in
        update_loop fuel m p (u32 (i + 1)) len ctx
    end
  else Ok ctx.

Definition sha256_update (fuel : nat) (m : mem) (ctx : SHA256_CTX) (p len : Z) : res SHA256_CTX :=
  update_loop fuel m p 0 len ctx.

(** [while (i < n) ctx->data[i++] = 0x00]. *)
Definition zero_fill (d : list Z) (i n : Z) : res (list Z) :=
  for_loop (Z.to_nat (n - i)) i n 1 (fun i d => arr_set d i 0) d.

(** [memset(ctx->data, 0, 56)]. *)
Definition clear56 (d : list Z) : list Z := replicate 56 0 ++ drop 56 d.

(** The eight stores of the bit length. *)
Definition store_bitlen (d : list Z) (n : Z) : list Z :=
  <[56%nat := u8 (n .>> 56)]> (<[57%nat := u8 (n .>> 48)]> (<[58%nat := u8 (n .>> 40)]>
  (<[59%nat := u8 (n .>> 32)]> (<[60%nat := u8 (n .>> 24)]> (<[61%nat := u8 (n .>> 16)]>
  (<[62%nat := u8 (n .>> 8)]> (<[63%nat := u8 n]> d))))))).

(** The output loop: [hash[i + 4 * s] = (state[s] >> (24 - i * 8)) & 0xff]. *)
Definition store_hash (s hash : list Z) : list Z :=
  fold_left (fun hash i =>
    fold_left (fun hash w =>
      <[(i + 4 * w)%nat := (arr_get s w .>> (24 - Z.of_nat i * 8)) .& 0xff]> hash)
      (seq 0 8) hash) (seq 0 4) hash.

Definition sha256_final (ctx : SHA256_CTX) (hash : list Z) : res (SHA256_CTX * list Z) :=
  let i := datalen ctx in
  let! ctx :=
    if datalen ctx <? 56 then
      let! d := arr_set (data ctx) i 0x80 in
      let! d := zero_fill d (i + 1) 56 in
      Ok (mk_ctx d (datalen ctx) (bitlen ctx) (state ctx))
    else
      let! d := arr_set (data ctx) i 0x80 in
      let! d := zero_fill d (i + 1) 64 in
      let ctx := sha256_transform (mk_ctx d (datalen ctx) (bitlen ctx) (state ctx)) d in
      Ok (mk_ctx (clear56 (data ctx)) (datalen ctx) (bitlen ctx) (state ctx)) in
  let n := u64 (bitlen ctx + u32 (datalen ctx * 8)) in
  let ctx := mk_ctx (store_bitlen (data ctx) n) (datalen ctx) n (state ctx) in
  let ctx := sha256_transform ctx (data ctx) in
  Ok (ctx, store_hash (state ctx) hash).
