(* ===== verification/Sha256Thm.v ===== *)
(** Correctness of the SHA-256 code against the standard (FIPS 180): padding,
    message schedule, compression, and the streaming interface. *)
From S2P Require Import Prelude Sha256.
From stdpp Require Import prelude.
From Stdlib Require Import ZArith Lia.
Open Scope Z_scope.
Open Scope c_scope.

(** ** The standard *)

Definition word32 (x : Z) : Prop := 0 <= x < 2 ^ 32.

Definition rotr (n x : Z) : Z := x / 2 ^ n + x mod 2 ^ n * 2 ^ (32 - n).
Definition Ch (x y z : Z) : Z := (x .& y) .^ (Z.lnot x .& z).
Definition Maj (x y z : Z) : Z := (x .& y) .^ (x .& z) .^ (y .& z).
Definition Sigma0 (x : Z) : Z := rotr 2 x .^ rotr 13 x .^ rotr 22 x.
Definition Sigma1 (x : Z) : Z := rotr 6 x .^ rotr 11 x .^ rotr 25 x.
Definition sigma0 (x : Z) : Z := rotr 7 x .^ rotr 18 x .^ (x / 2 ^ 3).
Definition sigma1 (x : Z) : Z := rotr 17 x .^ rotr 19 x .^ (x / 2 ^ 10).

(** The [t]-th big-endian word of a block. *)
Definition be_word (blk : list Z) (t : nat) : Z :=
  let d i := nth (4 * t + i) blk 0 in
  2 ^ 24 * d 0%nat + 2 ^ 16 * d 1%nat + 2 ^ 8 * d 2%nat + d 3%nat.

(** The first [n] words of the message schedule. *)
Fixpoint schedule (blk : list Z) (n : nat) : list Z :=
  match n with
  | O => []
  | S t =>
      let W := schedule blk t in
      let w i := nth i W 0 in
      W ++ [if (t <? 16)%nat then be_word blk t
            else (sigma1 (w (t - 2)%nat) + w (t - 7)%nat + sigma0 (w (t - 15)%nat) + w (t - 16)%nat)
                 mod 2 ^ 32]
  end.

Definition std_round (W : list Z) (v : vars) (t : nat) : vars :=
  let T1 := vh v + Sigma1 (ve v) + Ch (ve v) (vf v) (vg v) + nth t k 0 + nth t W 0 in
  let T2 := Sigma0 (va v) + Maj (va v) (vb v) (vc v) in
  mk_vars ((T1 + T2) mod 2 ^ 32) (va v) (vb v) (vc v) ((vd v + T1) mod 2 ^ 32) (ve v) (vf v) (vg v).

(** One block. *)
Definition compress (H blk : list Z) : list Z :=
  let h i := nth i H 0 in
  let v := fold_left (std_round (schedule blk 64)) (seq 0 64)
    (mk_vars (h 0%nat) (h 1%nat) (h 2%nat) (h 3%nat) (h 4%nat) (h 5%nat) (h 6%nat) (h 7%nat)) in
  zip_with (fun a b => (a + b) mod 2 ^ 32)
    [h 0%nat; h 1%nat; h 2%nat; h 3%nat; h 4%nat; h 5%nat; h 6%nat; h 7%nat]
    [va v; vb v; vc v; vd v; ve v; vf v; vg v; vh v].

Fixpoint hash_blocks (n : nat) (H msg : list Z) : list Z :=
  match n with
  | O => H
  | S n => hash_blocks n (compress H (take 64 msg)) (drop 64 msg)
  end.

(** The [n] low bytes of [x], the most significant first. *)
Fixpoint be_bytes (n : nat) (x : Z) : list Z :=
  match n with
  | O => []
  | S n => (x / 256 ^ Z.of_nat n) mod 256 :: be_bytes n x
  end.

(** A one bit, the fewest zeros that align the end, and the length in bits. *)
Definition pad (msg : list Z) : list Z :=
  let len := Z.of_nat (length msg) in
  msg ++ [0x80] ++ replicate (Z.to_nat ((55 - len) mod 64)) 0 ++ be_bytes 8 (8 * len).

Definition H0 : list Z :=
  [0x6a09e667; 0xbb67ae85; 0x3c6ef372; 0xa54ff53a; 0x510e527f; 0x9b05688c; 0x1f83d9ab; 0x5be0cd19].

Definition sha256 (msg : list Z) : list Z :=
  let p := pad msg in
  concat (map (be_bytes 4) (hash_blocks (length p / 64) H0 p)).

(** ** The macros *)

Lemma rotright_rotr x n : word32 x -> 0 < n < 32 -> ROTRIGHT x n = rotr n x.
Proof.
  intros Hx Hn. unfold ROTRIGHT, rotr, word32 in *.
  rewrite Z.shiftr_div_pow2, Z.shiftl_mul_pow2 by lia.
  assert (2 ^ 32 = 2 ^ n * 2 ^ (32 - n)) as E by (rewrite <- Z.pow_add_r by lia; f_equal; lia).
  assert (0 < 2 ^ n) by (apply Z.pow_pos_nonneg; lia).
  assert (0 < 2 ^ (32 - n)) by (apply Z.pow_pos_nonneg; lia).
  unfold wrap. rewrite E, Z.mul_mod_distr_r by lia. rewrite Z.lor_comm, Z.add_comm.
  apply lor_add_low; [lia|]. split; [apply Z.div_pos; lia|]. apply Z.div_lt_upper_bound; lia.
Qed.

Lemma rotr_range x n : word32 x -> 0 < n < 32 -> word32 (rotr n x).
Proof.
  intros Hx Hn. unfold rotr, word32 in *.
  assert (2 ^ 32 = 2 ^ n * 2 ^ (32 - n)) as E by (rewrite <- Z.pow_add_r by lia; f_equal; lia).
  assert (0 < 2 ^ n) by (apply Z.pow_pos_nonneg; lia).
  assert (0 < 2 ^ (32 - n)) by (apply Z.pow_pos_nonneg; lia).
  pose proof (Z.mod_pos_bound x (2 ^ n) ltac:(lia)).
  assert (0 <= x / 2 ^ n < 2 ^ (32 - n)).
  { split; [apply Z.div_pos; lia|]. apply Z.div_lt_upper_bound; lia. }
  nia.
Qed.

Lemma CH_Ch x y z : word32 z -> CH x y z = Ch x y z.
Proof.
  intros Hz. unfold CH, Ch. f_equal. apply Z.bits_inj'. intros i Hi. rewrite !Z.land_spec, wrap_testbit by lia.
  destruct (Z.ltb_spec i 32); [done|].
  rewrite (Z.bits_above_log2 z), !andb_false_r; [done|apply Hz|].
  destruct (decide (z = 0)) as [->|]; [simpl; lia|].
  apply Z.lt_le_trans with 32; [|lia]. apply Z.log2_lt_pow2; unfold word32 in *; lia.
Qed.

Lemma EP0_Sigma0 x : word32 x -> EP0 x = Sigma0 x.
Proof. intros. unfold EP0, Sigma0. by rewrite !rotright_rotr by (done || lia). Qed.
Lemma EP1_Sigma1 x : word32 x -> EP1 x = Sigma1 x.
Proof. intros. unfold EP1, Sigma1. by rewrite !rotright_rotr by (done || lia). Qed.
Lemma SIG0_sigma0 x : word32 x -> SIG0 x = sigma0 x.
Proof. intros. unfold SIG0, sigma0. by rewrite !rotright_rotr, Z.shiftr_div_pow2 by (done || lia). Qed.
Lemma SIG1_sigma1 x : word32 x -> SIG1 x = sigma1 x.
Proof. intros. unfold SIG1, sigma1. by rewrite !rotright_rotr, Z.shiftr_div_pow2 by (done || lia). Qed.

Lemma word32_u32 x : word32 (u32 x).
Proof. apply u32_range. Qed.
#[export] Hint Resolve word32_u32 : cmod.

(** ** The message schedule *)

Definition is_byte (x : Z) : Prop := 0 <= x < 256.

Lemma nth_Forall (P : Z -> Prop) l i : P 0 -> Forall P l -> P (nth i l 0).
Proof.
  intros H0 Hl. destruct (nth_in_or_default i l 0) as [Hin| ->]; [|done].
  rewrite Forall_forall in Hl. apply Hl. by apply list_elem_of_In.
Qed.

Lemma be_word_lor a b c d :
  is_byte a -> is_byte b -> is_byte c -> is_byte d ->
  u32 ((a .<< 24) .| (b .<< 16) .| (c .<< 8) .| d) = 2 ^ 24 * a + 2 ^ 16 * b + 2 ^ 8 * c + d.
Proof.
  unfold is_byte. intros. rewrite !Z.shiftl_mul_pow2 by lia.
  rewrite (lor_add_low 24) by lia.
  replace (a * 2 ^ 24 + b * 2 ^ 16) with ((a * 2 ^ 8 + b) * 2 ^ 16) by lia.
  rewrite (lor_add_low 16) by lia.
  replace ((a * 2 ^ 8 + b) * 2 ^ 16 + c * 2 ^ 8) with (((a * 2 ^ 8 + b) * 2 ^ 8 + c) * 2 ^ 8) by lia.
  rewrite (lor_add_low 8) by lia. rewrite u32_small by lia. lia.
Qed.

Lemma be_word_range blk t : Forall is_byte blk -> word32 (be_word blk t).
Proof.
  intros Hb. assert (forall i, is_byte (nth i blk 0)) as H by (intros; by apply nth_Forall).
  unfold be_word, word32, is_byte in *.
  pose proof (H (4 * t + 0)%nat). pose proof (H (4 * t + 1)%nat).
  pose proof (H (4 * t + 2)%nat). pose proof (H (4 * t + 3)%nat). lia.
Qed.

Lemma schedule_length blk n : length (schedule blk n) = n.
Proof. induction n as [|n IH]; [done|]. cbn [schedule]. rewrite length_app, IH. simpl. lia. Qed.

Lemma schedule_range blk n : Forall is_byte blk -> Forall word32 (schedule blk n).
Proof.
  intros Hb. induction n as [|n IH]; [constructor|]. cbn [schedule].
  apply Forall_app. split; [done|]. apply Forall_singleton.
  destruct (n <? 16)%nat; [by apply be_word_range|]. apply word32_u32.
Qed.

Lemma insert_next (l r : list Z) x v : <[length l := v]> (l ++ x :: r) = (l ++ [v]) ++ r.
Proof. rewrite insert_app_r_alt, Nat.sub_diag by lia. simpl. by rewrite <- app_assoc. Qed.

Lemma nth_app_left (l r : list Z) i : (i < length l)%nat -> nth i (l ++ r) 0 = nth i l 0.
Proof. intros. by apply app_nth1. Qed.

(** The array after the words below [n] are written. *)
Definition sched_array (blk : list Z) (n : nat) : list Z := schedule blk n ++ replicate (64 - n) 0.

Lemma sched_array_step blk n v :
  (n < 64)%nat -> schedule blk (S n) = schedule blk n ++ [v] ->
  <[n := v]> (sched_array blk n) = sched_array blk (S n).
Proof.
  intros Hn E. unfold sched_array. rewrite E.
  replace (64 - n)%nat with (S (64 - S n)) by lia. cbn [replicate].
  rewrite <- (schedule_length blk n) at 1. apply insert_next.
Qed.

Lemma load_words blk n :
  Forall is_byte blk -> (n <= 16)%nat ->
  fold_left (load_word blk) (seq 0 n) (replicate 64 0) = sched_array blk n.
Proof.
  intros Hb. induction n as [|n IH]; intros Hn; [done|].
  rewrite seq_S, fold_left_app, IH by lia. cbn [fold_left]. unfold load_word.
  assert (forall i, is_byte (arr_get blk i)) by (intros; by apply (nth_Forall is_byte)).
  rewrite be_word_lor by done. apply sched_array_step; [lia|].
  cbn [schedule]. rewrite (proj2 (Nat.ltb_lt n 16)) by lia. unfold be_word, arr_get. do 3 f_equal.
  by rewrite Nat.add_0_r.
Qed.

Lemma sched_array_get blk n i : (i < n)%nat -> arr_get (sched_array blk n) i = nth i (schedule blk n) 0.
Proof. intros. unfold arr_get, sched_array. apply nth_app_left. by rewrite schedule_length. Qed.

Lemma schedule_extend blk t :
  (16 <= t)%nat ->
  schedule blk (S t) = schedule blk t ++
    [u32 (sigma1 (nth (t - 2) (schedule blk t) 0) + nth (t - 7) (schedule blk t) 0 +
          sigma0 (nth (t - 15) (schedule blk t) 0) + nth (t - 16) (schedule blk t) 0)].
Proof. intros Ht. cbn [schedule]. by rewrite (proj2 (Nat.ltb_ge t 16) Ht). Qed.

Lemma extend_step blk t :
  Forall is_byte blk -> (16 <= t < 64)%nat -> extend_word (sched_array blk t) t = sched_array blk (S t).
Proof.
  intros Hb Ht. unfold extend_word. rewrite !sched_array_get by lia.
  assert (forall i, word32 (nth i (schedule blk t) 0)) as Hr.
  { intros i. apply (nth_Forall word32); [done|by apply schedule_range]. }
  rewrite SIG0_sigma0, SIG1_sigma1 by apply Hr. apply sched_array_step; [lia|].
  apply schedule_extend. lia.
Qed.

Lemma extend_words blk n :
  Forall is_byte blk -> (n <= 48)%nat ->
  fold_left extend_word (seq 16 n) (sched_array blk 16) = sched_array blk (16 + n).
Proof.
  intros Hb. induction n as [|n IH]; intros Hn; [by rewrite Nat.add_0_r|].
  rewrite seq_S, fold_left_app, IH by lia. cbn [fold_left].
  rewrite extend_step by (done || lia). by rewrite Nat.add_succ_r.
Qed.

(** ** Compression *)

Definition vars_ok (v : vars) : Prop :=
  word32 (va v) /\ word32 (vb v) /\ word32 (vc v) /\ word32 (vd v) /\
  word32 (ve v) /\ word32 (vf v) /\ word32 (vg v) /\ word32 (vh v).

Lemma round_std blk v i :
  Forall is_byte blk -> vars_ok v -> (i < 64)%nat ->
  round (sched_array blk 64) v i = std_round (schedule blk 64) v i.
Proof.
  intros Hb Hv Hi. unfold round, std_round. rewrite sched_array_get by done.
  destruct Hv as (? & ? & ? & ? & ? & ? & ? & ?).
  rewrite EP1_Sigma1, EP0_Sigma0, CH_Ch by done.
  rewrite wrap_add_l, wrap_add_r, wrap_add_r by lia. reflexivity.
Qed.

Lemma std_round_ok W v i : vars_ok v -> vars_ok (std_round W v i).
Proof.
  intros (? & ? & ? & ? & ? & ? & ? & ?). unfold vars_ok, std_round.
  cbn [va vb vc vd ve vf vg vh]. split_and!; done || apply word32_u32.
Qed.

Lemma rounds_std blk l v :
  Forall is_byte blk -> vars_ok v -> Forall (fun i => (i < 64)%nat) l ->
  fold_left (round (sched_array blk 64)) l v = fold_left (std_round (schedule blk 64)) l v.
Proof.
  intros Hb. revert v. induction l as [|i l IH]; intros v Hv Hl; [done|].
  apply Forall_cons in Hl as [Hi Hl]. cbn [fold_left]. rewrite round_std by done.
  apply IH; [by apply std_round_ok|done].
Qed.

Lemma transform_compress ctx blk :
  Forall is_byte blk -> Forall word32 (state ctx) ->
  sha256_transform ctx blk =
  mk_ctx (data ctx) (datalen ctx) (bitlen ctx) (compress (state ctx) blk).
Proof.
  intros Hb Hs. unfold sha256_transform.
  rewrite load_words, (extend_words blk 48) by (done || lia).
  change (16 + 48)%nat with 64%nat.
  assert (forall i, word32 (arr_get (state ctx) i)) as Hw by (intros; by apply (nth_Forall word32)).
  rewrite rounds_std; [reflexivity|done| |].
  - unfold vars_ok. cbn [va vb vc vd ve vf vg vh]. auto 20.
  - apply Forall_forall. intros i Hi. apply elem_of_seq in Hi. lia.
Qed.

Lemma compress_ok H blk : Forall word32 (compress H blk) /\ length (compress H blk) = 8%nat.
Proof.
  unfold compress. cbn [zip_with length]. split; [|done]. repeat (apply Forall_cons; split; [apply word32_u32|]).
  constructor.
Qed.

Lemma hash_blocks_snoc n H msg blk :
  length msg = (64 * n)%nat -> length blk = 64%nat ->
  hash_blocks (S n) H (msg ++ blk) = compress (hash_blocks n H msg) blk.
Proof.
  revert H msg. induction n as [|n IH]; intros H msg Hm Hb.
  - apply length_zero_iff_nil in Hm as ->. cbn [hash_blocks app]. by rewrite take_ge by lia.
  - cbn [hash_blocks]. rewrite take_app_le, drop_app_le by lia.
    change (hash_blocks (S n) (compress H (take 64 msg)) (drop 64 msg ++ blk) =
      compress (hash_blocks n (compress H (take 64 msg)) (drop 64 msg)) blk).
    apply IH; [rewrite length_drop; lia|done].
Qed.

Lemma H0_ok : Forall word32 H0.
Proof. repeat (apply Forall_cons; split; [unfold word32; lia|]). constructor. Qed.

Lemma hash_blocks_ok n H msg : Forall word32 H -> Forall word32 (hash_blocks n H msg).
Proof. revert H msg. induction n as [|n IH]; intros H msg HH; [done|]. apply IH, compress_ok. Qed.

(** ** The streaming interface *)

(** [ctx] has absorbed [msg]: [n] full blocks are hashed, the rest is at the
    start of the buffer. *)
Record absorbed (ctx : SHA256_CTX) (hashed rest : list Z) (n : nat) : Prop := {
  ab_hashed : length hashed = (64 * n)%nat;
  ab_rest : (length rest < 64)%nat;
  ab_data : length (data ctx) = 64%nat;
  ab_bytes : Forall is_byte (data ctx);
  ab_datalen : datalen ctx = Z.of_nat (length rest);
  ab_prefix : take (length rest) (data ctx) = rest;
  ab_bitlen : bitlen ctx = u64 (512 * Z.of_nat n);
  ab_state : state ctx = hash_blocks n H0 hashed;
}.

Definition rep (ctx : SHA256_CTX) (msg : list Z) : Prop :=
  exists hashed rest n, absorbed ctx hashed rest n /\ msg = hashed ++ rest.

Lemma arr_set_ok l i v : 0 <= i < Z.of_nat (length l) -> arr_set l i v = Ok (<[Z.to_nat i := v]> l).
Proof. intros. unfold arr_set. by rewrite (proj2 (Z.leb_le _ _)), (proj2 (Z.ltb_lt _ _)) by lia. Qed.

Lemma take_insert_next (l : list Z) i v :
  (i < length l)%nat -> take (S i) (<[i := v]> l) = take i l ++ [v].
Proof.
  intros Hi. rewrite (take_S_r _ _ v); [|by apply list_lookup_insert_eq].
  by rewrite take_insert_ge by lia.
Qed.

Lemma update_byte_ok ctx msg x :
  rep ctx msg -> is_byte x -> exists ctx', update_byte ctx x = Ok ctx' /\ rep ctx' (msg ++ [x]).
Proof.
  intros (hashed & rest & n & [? ? ? ? Hd Hp ? ?] & ->) Hx. unfold update_byte.
  rewrite arr_set_ok, Hd, Nat2Z.id by lia. cbn [rbind datalen data bitlen state].
  set (d := <[length rest := x]> (data ctx)).
  assert (take (S (length rest)) d = rest ++ [x]) as Ht by (unfold d; rewrite take_insert_next, Hp by lia; done).
  assert (length d = 64%nat) as Hl by (unfold d; by rewrite length_insert).
  assert (Forall is_byte d) as Hb by (by apply Forall_insert).
  rewrite u32_small by lia. destruct (Z.eqb_spec (Z.of_nat (length rest) + 1) 64) as [E|].
  - assert (d = rest ++ [x]) as Ed.
    { rewrite <- Ht. replace (S (length rest)) with 64%nat by lia. symmetry. apply take_ge. lia. }
    rewrite transform_compress; [|done|cbn [state]; rewrite ab_state0; apply hash_blocks_ok, H0_ok].
    cbn [datalen data bitlen state]. eexists. split; [done|].
    exists (hashed ++ rest ++ [x]), [], (S n). split; [|by rewrite app_nil_r, app_assoc].
    constructor; cbn [datalen data bitlen state]; rewrite ?length_app; simpl; try done; try lia.
    + rewrite ab_bitlen0, wrap_add_l by lia. f_equal. lia.
    + rewrite ab_state0, <- Ed. symmetry. by apply hash_blocks_snoc.
  - eexists. split; [done|]. exists hashed, (rest ++ [x]), n. split; [|by rewrite app_assoc].
    constructor; cbn [datalen data bitlen state]; rewrite ?length_app; simpl; try done; try lia.
    by rewrite Nat.add_1_r.
Qed.

Lemma update_loop_ok fuel m p i len ctx msg :
  rep ctx msg -> 0 <= i -> len < 2 ^ 32 -> len - i <= Z.of_nat fuel ->
  exists ctx', update_loop fuel m p i len ctx = Ok ctx' /\
    rep ctx' (msg ++ bytes m (p + i) (Z.to_nat (len - i))).
Proof.
  revert i ctx msg. induction fuel as [|fuel IH]; intros i ctx msg Hr Hi Hl Hf; cbn [update_loop].
  - rewrite (proj2 (Z.ltb_ge _ _)) by lia. replace (Z.to_nat (len - i)) with 0%nat by lia.
    exists ctx. by rewrite app_nil_r.
  - destruct (Z.ltb_spec i len).
    + destruct (update_byte_ok ctx msg (ldb m (p + i)) Hr) as (c1 & -> & Hr1); [apply ldb_range|].
      cbn [rbind]. rewrite u32_small by lia.
      destruct (IH (i + 1) c1 _ Hr1) as (c2 & -> & Hr2); [lia..|].
      exists c2. split; [done|]. replace (Z.to_nat (len - i)) with (S (Z.to_nat (len - (i + 1)))) by lia.
      cbn [bytes]. rewrite <- app_assoc in Hr2. replace (p + i + 1) with (p + (i + 1)) by lia. exact Hr2.
    + replace (Z.to_nat (len - i)) with 0%nat by lia. exists ctx. by rewrite app_nil_r.
Qed.

Lemma init_rep ctx : length (data ctx) = 64%nat -> Forall is_byte (data ctx) -> rep (sha256_init ctx) [].
Proof. intros. exists [], [], 0%nat. split; [|done]. constructor; cbn; done || lia. Qed.

(** ** Finalisation *)

Definition zeroed (d : list Z) (i j : nat) : list Z := take i d ++ replicate (j - i) 0 ++ drop j d.

Lemma zeroed_step d i j :
  (i <= j < length d)%nat -> arr_set (zeroed d i j) (Z.of_nat j) 0 = Ok (zeroed d i (S j)).
Proof.
  intros Hj. assert (length (zeroed d i j) = length d) as Hl.
  { unfold zeroed. rewrite !length_app, length_take, length_replicate, length_drop. lia. }
  rewrite arr_set_ok, Nat2Z.id by lia. f_equal. unfold zeroed.
  destruct (lookup_lt_is_Some_2 d j) as [x Hx]; [lia|]. rewrite (drop_S d x j Hx).
  rewrite app_assoc. replace j with (length (take i d ++ replicate (j - i) 0)) at 1
    by (rewrite length_app, length_take, length_replicate; lia).
  rewrite insert_next, <- !app_assoc. f_equal. rewrite app_assoc. f_equal.
  replace (S j - i)%nat with ((j - i) + 1)%nat by lia. by rewrite replicate_add.
Qed.

Lemma zero_fill_ok d i n :
  (i <= n)%nat -> (n <= length d)%nat ->
  zero_fill d (Z.of_nat i) (Z.of_nat n) = Ok (zeroed d i n).
Proof.
  intros Hi Hn. unfold zero_fill.
  destruct (for_loop_inv (fun j e => Z.of_nat i <= j <= Z.of_nat n /\ e = zeroed d i (Z.to_nat j)) (Z.of_nat n) 1
    (fun i d => arr_set d i 0) ltac:(lia)) with (fuel := Z.to_nat (Z.of_nat n - Z.of_nat i)) (i := Z.of_nat i) (s := d)
    as (e & j & -> & [? ->] & ? & _).
  - intros j e Hj [Hij ->]. exists (zeroed d i (S (Z.to_nat j))). split.
    + rewrite <- zeroed_step by lia. by rewrite Z2Nat.id by lia.
    + split; [lia|]. f_equal. lia.
  - split; [lia|]. rewrite Nat2Z.id. unfold zeroed. rewrite Nat.sub_diag. symmetry. apply take_drop.
  - lia.
  - do 2 f_equal. lia.
Qed.

Lemma be_bytes_length n x : length (be_bytes n x) = n.
Proof. induction n; simpl; auto. Qed.

Lemma store_bitlen_ok d n :
  length d = 64%nat -> store_bitlen d n = take 56 d ++ be_bytes 8 n.
Proof.
  intros Hd. do 64 (destruct d as [|? d]; [done|]). destruct d; [|done].
  cbn [store_bitlen insert list_insert take app be_bytes]. unfold store_bitlen.
  rewrite !Z.shiftr_div_pow2 by lia. cbn. unfold wrap. repeat f_equal. by rewrite Z.div_1_r.
Qed.

Lemma store_hash_ok s hash :
  length s = 8%nat -> length hash = 32%nat -> store_hash s hash = concat (map (be_bytes 4) s).
Proof.
  intros Hs Hh. do 8 (destruct s as [|? s]; [done|]). destruct s; [|done].
  do 32 (destruct hash as [|? hash]; [done|]). destruct hash; [|done].
  unfold store_hash, arr_get. cbn. change 255 with (Z.ones 8).
  rewrite !Z.land_ones, !Z.shiftr_div_pow2 by lia. done.
Qed.

Lemma is_byte_be n x : Forall is_byte (be_bytes n x).
Proof. induction n; constructor; [|done]. apply Z.mod_pos_bound. lia. Qed.

Lemma is_byte_replicate n : Forall is_byte (replicate n 0).
Proof. apply Forall_replicate. unfold is_byte. lia. Qed.

(** The last blocks, by the number of bytes left in the buffer. *)
Lemma pad_one hashed rest n :
  length hashed = (64 * n)%nat -> (length rest < 56)%nat ->
  pad (hashed ++ rest) =
  hashed ++ (rest ++ [0x80]) ++ replicate (56 - S (length rest)) 0 ++
    be_bytes 8 (8 * Z.of_nat (length (hashed ++ rest))).
Proof.
  intros Hh Hr. unfold pad. rewrite <- !app_assoc. do 4 f_equal. f_equal.
  rewrite length_app. zdm.
Qed.

Lemma pad_two hashed rest n :
  length hashed = (64 * n)%nat -> (56 <= length rest < 64)%nat ->
  pad (hashed ++ rest) =
  (hashed ++ (rest ++ [0x80]) ++ replicate (64 - S (length rest)) 0) ++
    replicate 56 0 ++ be_bytes 8 (8 * Z.of_nat (length (hashed ++ rest))).
Proof.
  intros Hh Hr. unfold pad. rewrite <- !app_assoc. do 3 f_equal. rewrite app_assoc, <- replicate_add. f_equal.
  f_equal. rewrite length_app. zdm.
Qed.

Lemma sha256_blocks msg p n :
  pad msg = p -> length p = (64 * n)%nat -> sha256 msg = concat (map (be_bytes 4) (hash_blocks n H0 p)).
Proof. intros <- Hl. unfold sha256. rewrite Hl, Nat.mul_comm, Nat.div_mul by lia. done. Qed.

(** The end of [sha256_final], from a buffer whose first 56 bytes are [b]. *)
Lemma final_block ctx b hash nbits :
  length (data ctx) = 64%nat -> Forall is_byte (data ctx) -> Forall word32 (state ctx) ->
  take 56 (data ctx) = b -> length hash = 32%nat -> bitlen ctx + u32 (datalen ctx * 8) = nbits ->
  0 <= nbits < 2 ^ 64 ->
  let n := u64 (bitlen ctx + u32 (datalen ctx * 8)) in
  let ctx1 := mk_ctx (store_bitlen (data ctx) n) (datalen ctx) n (state ctx) in
  let ctx2 := sha256_transform ctx1 (data ctx1) in
  store_hash (state ctx2) hash = concat (map (be_bytes 4) (compress (state ctx) (b ++ be_bytes 8 nbits))).
Proof.
  intros Hl Hb Hs <- Hh Hn Hr n. unfold n. rewrite Hn, (wrap_small 64) by done. cbv zeta.
  cbn [data]. rewrite store_bitlen_ok by done.
  rewrite transform_compress; [|cbn [data]|done].
  - cbn [state]. by rewrite store_hash_ok by (try apply compress_ok; done).
  - apply Forall_app. split; [by apply Forall_take|apply is_byte_be].
Qed.

Lemma zeroed_end d i x :
  take i d = x -> length x = i -> (i <= 64)%nat -> length d = 64%nat -> Forall is_byte d ->
  forall n, (i <= n <= 64)%nat ->
  take n (zeroed d i n) = x ++ replicate (n - i) 0 /\ length (zeroed d i n) = 64%nat /\
  Forall is_byte (zeroed d i n).
Proof.
  intros Hx Hlx Hi Hd Hb n Hn. unfold zeroed. rewrite Hx. split_and!.
  - rewrite app_assoc. apply take_app_length'. rewrite length_app, length_replicate. lia.
  - rewrite !length_app, length_replicate, length_drop. lia.
  - rewrite <- Hx. repeat apply Forall_app_2; auto using Forall_take, Forall_drop, is_byte_replicate.
Qed.

Section final.
Context (ctx : SHA256_CTX) (hashed rest hash : list Z) (n : nat).
Hypothesis (Hab : absorbed ctx hashed rest n).
Hypothesis (Hlen : Z.of_nat (length (hashed ++ rest)) < 2 ^ 61) (Hh : length hash = 32%nat).

Lemma absorbed_words : Forall word32 (state ctx).
Proof using Hab. rewrite (ab_state _ _ _ _ Hab). apply hash_blocks_ok, H0_ok. Qed.

Lemma absorbed_bits : bitlen ctx + u32 (datalen ctx * 8) = 8 * Z.of_nat (length (hashed ++ rest)).
Proof using Hab Hlen.
  clear Hh. destruct Hab. rewrite length_app in Hlen |- *. rewrite ab_bitlen0, ab_datalen0.
  rewrite u32_small, (wrap_small 64) by lia. lia.
Qed.

(** The buffer with the one bit appended. *)
Definition marked : list Z := <[length rest := 0x80]> (data ctx).

Lemma marked_ok m :
  (S (length rest) <= m <= 64)%nat ->
  let d := zeroed marked (S (length rest)) m in
  take m d = (rest ++ [0x80]) ++ replicate (m - S (length rest)) 0 /\ length d = 64%nat /\ Forall is_byte d.
Proof using Hab.
  clear Hh Hlen. intros Hm. destruct Hab. apply zeroed_end; try lia.
  - unfold marked. by rewrite take_insert_next, ab_prefix0 by lia.
  - rewrite length_app. simpl. lia.
  - unfold marked. by rewrite length_insert.
  - apply Forall_insert; [done|unfold is_byte; lia].
Qed.

Lemma final_ok : exists ctx', sha256_final ctx hash = Ok (ctx', sha256 (hashed ++ rest)).
Proof using All.
  pose proof absorbed_words as Hw. pose proof absorbed_bits as Hbits. pose proof Hab as [].
  unfold sha256_final. rewrite arr_set_ok by lia. cbn [rbind].
  replace (Z.to_nat (datalen ctx)) with (length rest) by lia. fold marked.
  replace (datalen ctx + 1) with (Z.of_nat (S (length rest))) by lia.
  assert (length marked = 64%nat) by (unfold marked; by rewrite length_insert).
  destruct (Z.ltb_spec (datalen ctx) 56) as [Hr|Hr].
  - change 56 with (Z.of_nat 56). rewrite zero_fill_ok by lia. cbn [rbind].
    destruct (marked_ok 56) as (E & Hl & Hb); [lia|].
    eexists. f_equal. f_equal.
    rewrite (sha256_blocks _ _ (S n) (pad_one hashed rest n ltac:(done) ltac:(lia))).
    2: { rewrite !length_app, length_replicate, be_bytes_length. simpl. lia. }
    rewrite hash_blocks_snoc; [|done|rewrite !length_app, length_replicate, be_bytes_length; simpl; lia].
    rewrite (app_assoc (rest ++ [128])), <- ab_state0.
    refine (final_block (mk_ctx _ (datalen ctx) (bitlen ctx) (state ctx)) _ _ _ _ _ _ _ _ Hbits _);
      cbn [data state]; done || lia.
  - change 64 with (Z.of_nat 64) at 1. rewrite zero_fill_ok by lia. cbn [rbind].
    destruct (marked_ok 64) as (E & Hl & Hb); [lia|]. rewrite take_ge in E by lia.
    rewrite !(transform_compress (mk_ctx (zeroed marked _ _) _ _ _) (zeroed marked _ _)) by (cbn [state]; done).
    cbn [data datalen bitlen state].
    eexists. f_equal. f_equal.
    rewrite (sha256_blocks _ _ (S (S n)) (pad_two hashed rest n ltac:(done) ltac:(lia))).
    2: { rewrite !length_app, !length_replicate, be_bytes_length. simpl. lia. }
    rewrite hash_blocks_snoc; [|rewrite !length_app, length_replicate; simpl; lia
      |rewrite !length_app, length_replicate, be_bytes_length; simpl; lia].
    rewrite hash_blocks_snoc; [|done|rewrite !length_app, length_replicate; simpl; lia].
    rewrite <- E, <- ab_state0.
    refine (final_block (mk_ctx _ (datalen ctx) (bitlen ctx) (compress _ _)) _ _ _ _ _ _ _ _ Hbits _);
      cbn [data state]; try done; try lia.
    + unfold clear56. rewrite length_app, length_replicate, length_drop. lia.
    + unfold clear56. apply Forall_app_2; [apply is_byte_replicate|by apply Forall_drop].
    + apply compress_ok.
Qed.
End final.

(** ** Whole messages *)

(** A sequence of calls of [sha256_update] on the buffers [(p, len)]. *)
Fixpoint updates (m : mem) (ctx : SHA256_CTX) (chunks : list (Z * Z)) : res SHA256_CTX :=
  match chunks with
  | [] => Ok ctx
  | (p, len) :: chunks =>
      let! ctx := sha256_update (Z.to_nat len) m ctx p len in updates m ctx chunks
  end.

Definition chunk_bytes (m : mem) (c : Z * Z) : list Z := bytes m c.1 (Z.to_nat c.2).

Lemma updates_ok m chunks ctx msg :
  rep ctx msg -> Forall (fun c => 0 <= c.2 < 2 ^ 32) chunks ->
  exists ctx', updates m ctx chunks = Ok ctx' /\ rep ctx' (msg ++ concat (map (chunk_bytes m) chunks)).
Proof.
  intros Hr Hc. revert ctx msg Hr.
  induction Hc as [|[p len] chunks Hl Hc IH]; intros ctx msg Hr; cbn [updates map concat].
  - exists ctx. by rewrite app_nil_r.
  - simpl in Hl. unfold sha256_update.
    destruct (update_loop_ok (Z.to_nat len) m p 0 len ctx msg Hr) as (c1 & -> & H1); [lia..|].
    cbn [rbind]. destruct (IH c1 _ H1) as (c2 & -> & H2). exists c2. split; [done|].
    rewrite Z.add_0_r, Z.sub_0_r, <- app_assoc in H2. exact H2.
Qed.

(** C4: Hashing a message through any sequence of [sha256_update] calls between
    [sha256_init] and [sha256_final] succeeds, without an access outside the
    context's arrays, and gives the SHA-256 digest of the concatenation, for
    messages below 2^61 bytes handed over in pieces below 4 GiB. *)
Theorem sha256_stream_correct m ctx chunks hash :
  length (data ctx) = 64%nat -> Forall is_byte (data ctx) -> length hash = 32%nat ->
  Forall (fun c => 0 <= c.2 < 2 ^ 32) chunks ->
  Z.of_nat (length (concat (map (chunk_bytes m) chunks))) < 2 ^ 61 ->
  exists ctx1 ctx2, updates m (sha256_init ctx) chunks = Ok ctx1 /\
    sha256_final ctx1 hash = Ok (ctx2, sha256 (concat (map (chunk_bytes m) chunks))).
Proof.
  intros Hd Hb Hh Hc Hlen.
  destruct (updates_ok m chunks (sha256_init ctx) []) as (c1 & -> & hashed & rest & n & Hab & E); [|done|].
  { by apply init_rep. }
  simpl in E. rewrite E in *. destruct (final_ok c1 hashed rest hash n Hab Hlen Hh) as [c2 E2]. eauto.
Qed.

(** [sha256_transform] is the compression function of the standard: its
    in-place schedule and rounds compute, from any hash state of 32-bit words
    and any block of bytes, the state the standard prescribes, and leave the
    rest of the context alone. *)
Theorem sha256_transform_compress ctx blk :
  Forall is_byte blk -> Forall word32 (state ctx) ->
  sha256_transform ctx blk =
  mk_ctx (data ctx) (datalen ctx) (bitlen ctx) (compress (state ctx) blk).
Proof. apply transform_compress. Qed.

Lemma update_loop_spins fuel m p i len ctx msg :
  rep ctx msg -> 0 <= i < 2 ^ 32 -> 2 ^ 32 <= len -> update_loop fuel m p i len ctx = NoFuel.
Proof.
  revert i ctx msg. induction fuel as [|fuel IH]; intros i ctx msg Hr Hi Hl; cbn [update_loop];
    rewrite (proj2 (Z.ltb_lt _ _)) by lia; [done|].
  destruct (update_byte_ok ctx msg (ldb m (p + i)) Hr) as (c1 & -> & Hr1); [apply ldb_range|].
  cbn [rbind]. apply (IH _ _ _ Hr1); [apply u32_range|done].
Qed.

(** With a [size_t] length of 4 GiB or more, [sha256_update] never returns:
    its 32-bit counter wraps below the length, whatever number of iterations is
    allowed. *)
Theorem sha256_update_spins fuel m ctx p len :
  length (data ctx) = 64%nat -> Forall is_byte (data ctx) -> 2 ^ 32 <= len ->
  sha256_update fuel m (sha256_init ctx) p len = NoFuel.
Proof. intros. eapply update_loop_spins; [by apply init_rep|lia|done]. Qed.

(** ** Witnesses *)

Definition blank_ctx : SHA256_CTX := mk_ctx (replicate 64 0) 0 0 [].

Definition abc : mem := fun a => nth (Z.to_nat a) [97; 98; 99] 0.

Lemma sha256_stream_correct_witness :
  exists ctx1 ctx2, updates abc (sha256_init blank_ctx) [(0, 1); (1, 2)] = Ok ctx1 /\
    sha256_final ctx1 (replicate 32 0) = Ok (ctx2,
      [0xba; 0x78; 0x16; 0xbf; 0x8f; 0x01; 0xcf; 0xea; 0x41; 0x41; 0x40; 0xde; 0x5d; 0xae; 0x22; 0x23;
       0xb0; 0x03; 0x61; 0xa3; 0x96; 0x17; 0x7a; 0x9c; 0xb4; 0x10; 0xff; 0x61; 0xf2; 0x00; 0x15; 0xad]).
Proof.
  destruct (sha256_stream_correct abc blank_ctx [(0, 1); (1, 2)] (replicate 32 0)) as (c1 & c2 & E1 & E2).
  - reflexivity.
  - apply is_byte_replicate.
  - reflexivity.
  - repeat constructor; simpl; lia.
  - vm_compute. reflexivity.
  - exists c1, c2. split; [exact E1|]. rewrite E2. vm_compute. reflexivity.
Defined.

Lemma sha256_transform_compress_witness :
  state (sha256_transform (sha256_init blank_ctx) (replicate 64 0)) = compress H0 (replicate 64 0).
Proof.
  rewrite (sha256_transform_compress (sha256_init blank_ctx) (replicate 64 0)
    (is_byte_replicate 64) H0_ok). reflexivity.
Defined.

Lemma sha256_update_spins_witness :
  sha256_update 1000 abc (sha256_init blank_ctx) 0 0x100000000 = NoFuel.
Proof. apply sha256_update_spins; [reflexivity|apply is_byte_replicate|lia]. Defined.
