(* ===== verification/Hde.v ===== *)
(** The instruction length disassemblers of Lilu: [src/Lilu/hde/hde64.c] with
    [table64.h], and [hde32.c] with [table32.h].

    The two C functions share most of their text.  The shared stages are
    written once, over a record [hde_cfg] of what differs (table, offsets, flag
    values, the guard of the SIB byte); [Hde64] and [Hde32] hold what is
    particular to each and the whole functions.

    Code bytes are read with [fetch], which faults past the 32 bytes the header
    asks for, tables with [tbl], which faults outside the table. *)
From S2P Require Import Prelude.
From stdpp Require Import prelude.
From Stdlib Require Import ZArith Lia.
Open Scope Z_scope.
Open Scope c_scope.

(** ** Tables *)

Definition hde64_table : list Z :=
  [0xa5; 0xaa; 0xa5; 0xb8; 0xa5; 0xaa; 0xa5; 0xaa; 0xa5; 0xb8; 0xa5; 0xb8; 0xa5; 0xb8; 0xa5;
   0xb8; 0xc0; 0xc0; 0xc0; 0xc0; 0xc0; 0xc0; 0xc0; 0xc0; 0xac; 0xc0; 0xcc; 0xc0; 0xa1; 0xa1;
   0xa1; 0xa1; 0xb1; 0xa5; 0xa5; 0xa6; 0xc0; 0xc0; 0xd7; 0xda; 0xe0; 0xc0; 0xe4; 0xc0; 0xea;
   0xea; 0xe0; 0xe0; 0x98; 0xc8; 0xee; 0xf1; 0xa5; 0xd3; 0xa5; 0xa5; 0xa1; 0xea; 0x9e; 0xc0;
   0xc0; 0xc2; 0xc0; 0xe6; 0x03; 0x7f; 0x11; 0x7f; 0x01; 0x7f; 0x01; 0x3f; 0x01; 0x01; 0xab;
   0x8b; 0x90; 0x64; 0x5b; 0x5b; 0x5b; 0x5b; 0x5b; 0x92; 0x5b; 0x5b; 0x76; 0x90; 0x92; 0x92;
   0x5b; 0x5b; 0x5b; 0x5b; 0x5b; 0x5b; 0x5b; 0x5b; 0x5b; 0x5b; 0x5b; 0x5b; 0x6a; 0x73; 0x90;
   0x5b; 0x52; 0x52; 0x52; 0x52; 0x5b; 0x5b; 0x5b; 0x5b; 0x77; 0x7c; 0x77; 0x85; 0x5b; 0x5b;
   0x70; 0x5b; 0x7a; 0xaf; 0x76; 0x76; 0x5b; 0x5b; 0x5b; 0x5b; 0x5b; 0x5b; 0x5b; 0x5b; 0x5b;
   0x5b; 0x5b; 0x86; 0x01; 0x03; 0x01; 0x04; 0x03; 0xd5; 0x03; 0xd5; 0x03; 0xcc; 0x01; 0xbc;
   0x03; 0xf0; 0x03; 0x03; 0x04; 0x00; 0x50; 0x50; 0x50; 0x50; 0xff; 0x20; 0x20; 0x20; 0x20;
   0x01; 0x01; 0x01; 0x01; 0xc4; 0x02; 0x10; 0xff; 0xff; 0xff; 0x01; 0x00; 0x03; 0x11; 0xff;
   0x03; 0xc4; 0xc6; 0xc8; 0x02; 0x10; 0x00; 0xff; 0xcc; 0x01; 0x01; 0x01; 0x00; 0x00; 0x00;
   0x00; 0x01; 0x01; 0x03; 0x01; 0xff; 0xff; 0xc0; 0xc2; 0x10; 0x11; 0x02; 0x03; 0x01; 0x01;
   0x01; 0xff; 0xff; 0xff; 0x00; 0x00; 0x00; 0xff; 0x00; 0x00; 0xff; 0xff; 0xff; 0xff; 0x10;
   0x10; 0x10; 0x10; 0x02; 0x10; 0x00; 0x00; 0xc6; 0xc8; 0x02; 0x02; 0x02; 0x02; 0x06; 0x00;
   0x04; 0x00; 0x02; 0xff; 0x00; 0xc0; 0xc2; 0x01; 0x01; 0x03; 0x03; 0x03; 0xca; 0x40; 0x00;
   0x0a; 0x00; 0x04; 0x00; 0x00; 0x00; 0x00; 0x7f; 0x00; 0x33; 0x01; 0x00; 0x00; 0x00; 0x00;
   0x00; 0x00; 0xff; 0xbf; 0xff; 0xff; 0x00; 0x00; 0x00; 0x00; 0x07; 0x00; 0x00; 0xff; 0x00;
   0x00; 0x00; 0x00; 0x00; 0x00; 0x00; 0x00; 0x00; 0x00; 0x00; 0x00; 0x00; 0x00; 0xff; 0xff;
   0x00; 0x00; 0x00; 0xbf; 0x00; 0x00; 0x00; 0x00; 0x00; 0x00; 0x00; 0x00; 0x7f; 0x00; 0x00;
   0xff; 0x40; 0x40; 0x40; 0x40; 0x41; 0x49; 0x40; 0x40; 0x40; 0x40; 0x4c; 0x42; 0x40; 0x40;
   0x40; 0x40; 0x40; 0x40; 0x40; 0x40; 0x4f; 0x44; 0x53; 0x40; 0x40; 0x40; 0x44; 0x57; 0x43;
   0x5c; 0x40; 0x60; 0x40; 0x40; 0x40; 0x40; 0x40; 0x40; 0x40; 0x40; 0x40; 0x40; 0x40; 0x40;
   0x40; 0x40; 0x64; 0x66; 0x6e; 0x6b; 0x40; 0x40; 0x6a; 0x46; 0x40; 0x40; 0x44; 0x46; 0x40;
   0x40; 0x5b; 0x44; 0x40; 0x40; 0x00; 0x00; 0x00; 0x00; 0x06; 0x06; 0x06; 0x06; 0x01; 0x06;
   0x06; 0x02; 0x06; 0x06; 0x00; 0x06; 0x00; 0x0a; 0x0a; 0x00; 0x00; 0x00; 0x02; 0x07; 0x07;
   0x06; 0x02; 0x0d; 0x06; 0x06; 0x06; 0x0e; 0x05; 0x05; 0x02; 0x02; 0x00; 0x00; 0x04; 0x04;
   0x04; 0x04; 0x05; 0x06; 0x06; 0x06; 0x00; 0x00; 0x00; 0x0e; 0x00; 0x00; 0x08; 0x00; 0x10;
   0x00; 0x18; 0x00; 0x20; 0x00; 0x28; 0x00; 0x30; 0x00; 0x80; 0x01; 0x82; 0x01; 0x86; 0x00;
   0xf6; 0xcf; 0xfe; 0x3f; 0xab; 0x00; 0xb0; 0x00; 0xb1; 0x00; 0xb3; 0x00; 0xba; 0xf8; 0xbb;
   0x00; 0xc0; 0x00; 0xc1; 0x00; 0xc7; 0xbf; 0x62; 0xff; 0x00; 0x8d; 0xff; 0x00; 0xc4; 0xff;
   0x00; 0xc5; 0xff; 0x00; 0xff; 0xff; 0xeb; 0x01; 0xff; 0x0e; 0x12; 0x08; 0x00; 0x13; 0x09;
   0x00; 0x16; 0x08; 0x00; 0x17; 0x09; 0x00; 0x2b; 0x09; 0x00; 0xae; 0xff; 0x07; 0xb2; 0xff;
   0x00; 0xb4; 0xff; 0x00; 0xb5; 0xff; 0x00; 0xc3; 0x01; 0x00; 0xc7; 0xff; 0xbf; 0xe7; 0x08;
   0x00; 0xf0; 0x02; 0x00].

Definition hde32_table : list Z :=
  [0xa3; 0xa8; 0xa3; 0xa8; 0xa3; 0xa8; 0xa3; 0xa8; 0xa3; 0xa8; 0xa3; 0xa8; 0xa3; 0xa8; 0xa3;
   0xa8; 0xaa; 0xaa; 0xaa; 0xaa; 0xaa; 0xaa; 0xaa; 0xaa; 0xac; 0xaa; 0xb2; 0xaa; 0x9f; 0x9f;
   0x9f; 0x9f; 0xb5; 0xa3; 0xa3; 0xa4; 0xaa; 0xaa; 0xba; 0xaa; 0x96; 0xaa; 0xa8; 0xaa; 0xc3;
   0xc3; 0x96; 0x96; 0xb7; 0xae; 0xd6; 0xbd; 0xa3; 0xc5; 0xa3; 0xa3; 0x9f; 0xc3; 0x9c; 0xaa;
   0xaa; 0xac; 0xaa; 0xbf; 0x03; 0x7f; 0x11; 0x7f; 0x01; 0x7f; 0x01; 0x3f; 0x01; 0x01; 0x90;
   0x82; 0x7d; 0x97; 0x59; 0x59; 0x59; 0x59; 0x59; 0x7f; 0x59; 0x59; 0x60; 0x7d; 0x7f; 0x7f;
   0x59; 0x59; 0x59; 0x59; 0x59; 0x59; 0x59; 0x59; 0x59; 0x59; 0x59; 0x59; 0x9a; 0x88; 0x7d;
   0x59; 0x50; 0x50; 0x50; 0x50; 0x59; 0x59; 0x59; 0x59; 0x61; 0x94; 0x61; 0x9e; 0x59; 0x59;
   0x85; 0x59; 0x92; 0xa3; 0x60; 0x60; 0x59; 0x59; 0x59; 0x59; 0x59; 0x59; 0x59; 0x59; 0x59;
   0x59; 0x59; 0x9f; 0x01; 0x03; 0x01; 0x04; 0x03; 0xd5; 0x03; 0xcc; 0x01; 0xbc; 0x03; 0xf0;
   0x10; 0x10; 0x10; 0x10; 0x50; 0x50; 0x50; 0x50; 0x14; 0x20; 0x20; 0x20; 0x20; 0x01; 0x01;
   0x01; 0x01; 0xc4; 0x02; 0x10; 0x00; 0x00; 0x00; 0x00; 0x01; 0x01; 0xc0; 0xc2; 0x10; 0x11;
   0x02; 0x03; 0x11; 0x03; 0x03; 0x04; 0x00; 0x00; 0x14; 0x00; 0x02; 0x00; 0x00; 0xc6; 0xc8;
   0x02; 0x02; 0x02; 0x02; 0x00; 0x00; 0xff; 0xff; 0xff; 0xff; 0x00; 0x00; 0x00; 0xff; 0xca;
   0x01; 0x01; 0x01; 0x00; 0x06; 0x00; 0x04; 0x00; 0xc0; 0xc2; 0x01; 0x01; 0x03; 0x01; 0xff;
   0xff; 0x01; 0x00; 0x03; 0xc4; 0xc4; 0xc6; 0x03; 0x01; 0x01; 0x01; 0xff; 0x03; 0x03; 0x03;
   0xc8; 0x40; 0x00; 0x0a; 0x00; 0x04; 0x00; 0x00; 0x00; 0x00; 0x7f; 0x00; 0x33; 0x01; 0x00;
   0x00; 0x00; 0x00; 0x00; 0x00; 0xff; 0xbf; 0xff; 0xff; 0x00; 0x00; 0x00; 0x00; 0x07; 0x00;
   0x00; 0xff; 0x00; 0x00; 0x00; 0x00; 0x00; 0x00; 0x00; 0x00; 0x00; 0x00; 0x00; 0x00; 0x00;
   0x00; 0xff; 0xff; 0x00; 0x00; 0x00; 0xbf; 0x00; 0x00; 0x00; 0x00; 0x00; 0x00; 0x00; 0x00;
   0x7f; 0x00; 0x00; 0xff; 0x4a; 0x4a; 0x4a; 0x4a; 0x4b; 0x52; 0x4a; 0x4a; 0x4a; 0x4a; 0x4f;
   0x4c; 0x4a; 0x4a; 0x4a; 0x4a; 0x4a; 0x4a; 0x4a; 0x4a; 0x55; 0x45; 0x40; 0x4a; 0x4a; 0x4a;
   0x45; 0x59; 0x4d; 0x46; 0x4a; 0x5d; 0x4a; 0x4a; 0x4a; 0x4a; 0x4a; 0x4a; 0x4a; 0x4a; 0x4a;
   0x4a; 0x4a; 0x4a; 0x4a; 0x4a; 0x61; 0x63; 0x67; 0x4e; 0x4a; 0x4a; 0x6b; 0x6d; 0x4a; 0x4a;
   0x45; 0x6d; 0x4a; 0x4a; 0x44; 0x45; 0x4a; 0x4a; 0x00; 0x00; 0x00; 0x02; 0x0d; 0x06; 0x06;
   0x06; 0x06; 0x0e; 0x00; 0x00; 0x00; 0x00; 0x06; 0x06; 0x06; 0x00; 0x06; 0x06; 0x02; 0x06;
   0x00; 0x0a; 0x0a; 0x07; 0x07; 0x06; 0x02; 0x05; 0x05; 0x02; 0x02; 0x00; 0x00; 0x04; 0x04;
   0x04; 0x04; 0x00; 0x00; 0x00; 0x0e; 0x05; 0x06; 0x06; 0x06; 0x01; 0x06; 0x00; 0x00; 0x08;
   0x00; 0x10; 0x00; 0x18; 0x00; 0x20; 0x00; 0x28; 0x00; 0x30; 0x00; 0x80; 0x01; 0x82; 0x01;
   0x86; 0x00; 0xf6; 0xcf; 0xfe; 0x3f; 0xab; 0x00; 0xb0; 0x00; 0xb1; 0x00; 0xb3; 0x00; 0xba;
   0xf8; 0xbb; 0x00; 0xc0; 0x00; 0xc1; 0x00; 0xc7; 0xbf; 0x62; 0xff; 0x00; 0x8d; 0xff; 0x00;
   0xc4; 0xff; 0x00; 0xc5; 0xff; 0x00; 0xff; 0xff; 0xeb; 0x01; 0xff; 0x0e; 0x12; 0x08; 0x00;
   0x13; 0x09; 0x00; 0x16; 0x08; 0x00; 0x17; 0x09; 0x00; 0x2b; 0x09; 0x00; 0xae; 0xff; 0x07;
   0xb2; 0xff; 0x00; 0xb4; 0xff; 0x00; 0xb5; 0xff; 0x00; 0xc3; 0x01; 0x00; 0xc7; 0xff; 0xbf;
   0xe7; 0x08; 0x00; 0xf0; 0x02; 0x00].

Definition C_NONE : Z := 0x00.
Definition C_MODRM : Z := 0x01.
Definition C_IMM8 : Z := 0x02.
Definition C_IMM16 : Z := 0x04.
Definition C_IMM_P66 : Z := 0x10.
Definition C_REL8 : Z := 0x20.
Definition C_REL32 : Z := 0x40.
Definition C_GROUP : Z := 0x80.
Definition C_ERROR : Z := 0xff.

Definition PRE_NONE : Z := 0x01.
Definition PRE_F2 : Z := 0x02.
Definition PRE_F3 : Z := 0x04.
Definition PRE_66 : Z := 0x08.
Definition PRE_67 : Z := 0x10.
Definition PRE_LOCK : Z := 0x20.
Definition PRE_SEG : Z := 0x40.

Definition F_MODRM : Z := 0x00000001.
Definition F_SIB : Z := 0x00000002.
Definition F_IMM8 : Z := 0x00000004.
Definition F_IMM16 : Z := 0x00000008.
Definition F_IMM32 : Z := 0x00000010.
Definition F_ERROR : Z := 0x00001000.
Definition F_ERROR_OPCODE : Z := 0x00002000.
Definition F_ERROR_LENGTH : Z := 0x00004000.
Definition F_ERROR_LOCK : Z := 0x00008000.
Definition F_ERROR_OPERAND : Z := 0x00010000.

Record hde_cfg := mk_cfg {
  table : list Z;
  DELTA_OPCODES : Z;
  DELTA_FPU_REG : Z;
  DELTA_FPU_MODRM : Z;
  DELTA_PREFIXES : Z;
  DELTA_OP_LOCK_OK : Z;
  DELTA_OP2_LOCK_OK : Z;
  DELTA_OP_ONLY_MEM : Z;
  DELTA_OP2_ONLY_MEM : Z;
  F_DISP8 : Z;
  F_DISP16 : Z;
  F_DISP32 : Z;
  (** a 16-bit address (prefix 67) has no SIB byte *)
  addr16_no_sib : bool;
}.

Definition cfg64 : hde_cfg :=
  mk_cfg hde64_table 0x4a 0xfd 0x104 0x13c 0x1ae 0x1c6 0x1d8 0x1e7 0x40 0x80 0x100 false.
Definition cfg32 : hde_cfg :=
  mk_cfg hde32_table 0x4a 0xf1 0xf8 0x130 0x1a1 0x1b9 0x1cb 0x1da 0x20 0x40 0x80 true.

(** ** Shared stages *)

Definition code_bytes : Z := 32.

Definition fetch (code : mem) (n : nat) (p : Z) : res Z :=
  if (0 <=? p) && (p + Z.of_nat n <=? code_bytes) then Ok (ldn n code p) else Fault.

(** [(x << k) & 0x80]. *)
Definition sign_after (x k : Z) : bool := truth ((x .<< k) .& 0x80).

Record prefixes := mk_prefixes {
  p_rep : Z;
  p_lock : Z;
  p_seg : Z;
  p_66 : Z;
  p_67 : Z;
  pref : Z;
}.

Definition no_prefix : prefixes := mk_prefixes 0 0 0 0 0 0.

Definition is_seg (c : Z) : bool :=
  (c =? 0x26) || (c =? 0x2e) || (c =? 0x36) || (c =? 0x3e) || (c =? 0x64) || (c =? 0x65).

(** The [switch] of the prefix loop; [None] is its default. *)
Definition prefix_case (c : Z) (s : prefixes) : option prefixes :=
  if c =? 0xf3 then Some (mk_prefixes c (p_lock s) (p_seg s) (p_66 s) (p_67 s) (pref s .| PRE_F3))
  else if c =? 0xf2 then Some (mk_prefixes c (p_lock s) (p_seg s) (p_66 s) (p_67 s) (pref s .| PRE_F2))
  else if c =? 0xf0 then Some (mk_prefixes (p_rep s) c (p_seg s) (p_66 s) (p_67 s) (pref s .| PRE_LOCK))
  else if is_seg c then Some (mk_prefixes (p_rep s) (p_lock s) c (p_66 s) (p_67 s) (pref s .| PRE_SEG))
  else if c =? 0x66 then Some (mk_prefixes (p_rep s) (p_lock s) (p_seg s) c (p_67 s) (pref s .| PRE_66))
  else if c =? 0x67 then Some (mk_prefixes (p_rep s) (p_lock s) (p_seg s) (p_66 s) c (pref s .| PRE_67))
  else None.

(** The prefix loop from offset [p]: prefixes, the last byte read, the offset
    after it. *)
Fixpoint prefix_loop (x : nat) (code : mem) (p : Z) (s : prefixes) (c : Z) : res (prefixes * Z * Z) :=
  match x with
  | O => Ok (s, c, p)
  | S x =>
      let! c := fetch code 1 p in
      match prefix_case c s with
      | Some s => prefix_loop x code (p + 1) s c
      | None => Ok (s, c, p + 1)
      end
  end.

(** The opcode: fields of the result and locals. *)
Record opcode_out := mk_op {
  o_opcode : Z;
  o_opcode2 : Z;
  o_op : Z;
  o_ht : Z;
  o_pref : Z;
  o_op64 : Z;
  o_p : Z;
}.

(** The fields of the result set from the ModRM byte on. *)
Record modrm_out := mk_modrm {
  modrm : Z;
  modrm_mod : Z;
  modrm_reg : Z;
  modrm_rm : Z;
  sib : Z;
  sib_scale : Z;
  sib_index : Z;
  sib_base : Z;
  disp : Z;
}.

Definition no_modrm : modrm_out := mk_modrm 0 0 0 0 0 0 0 0 0.

Definition pref_none (s : prefixes) : Z := if truth (pref s) then pref s else PRE_NONE.

Section engine.
Context (cfg : hde_cfg).

Definition tbl (i : Z) : res Z :=
  if (0 <=? i) && (i <? Z.of_nat (length (table cfg))) then Ok (nth (Z.to_nat i) (table cfg) 0) else Fault.

(** [ht[ht[opcode / 4] + (opcode % 4)]]. *)
Definition op_lookup (ht opcode : Z) : res Z :=
  let! i := tbl (ht + opcode / 4) in
  tbl (ht + i + opcode mod 4).

(** Opcode bytes after the prefixes and REX: [c] is the byte already read. *)
Definition opcode_stage (code : mem) (c p pref op64 : Z) : res opcode_out :=
  if c =? 0x0f then
    let! c2 := fetch code 1 p in
    Ok (mk_op c c2 c2 (DELTA_OPCODES cfg) pref op64 (p + 1))
  else if (0xa0 <=? c) && (c <=? 0xa3) then
    Ok (mk_op c 0 c 0 (if truth (pref .& PRE_67) then pref .| PRE_66 else pref .& Z.lnot PRE_66) (op64 + 1) p)
  else Ok (mk_op c 0 c 0 pref op64 p).

(** The [C_ERROR] branch: flags to add and the new [cflags]. *)
Definition error_opcode (opcode flags : Z) : Z * Z :=
  (flags .| F_ERROR .| F_ERROR_OPCODE, if opcode .& (-3) =? 0x24 then 1 else 0).

(** The [C_GROUP] branch: [cflags] and [x]. *)
Definition group_stage (ht cflags : Z) : res (Z * Z) :=
  if truth (cflags .& C_GROUP) then
    let! lo := tbl (ht + (cflags .& 0x7f)) in
    let! hi := tbl (ht + (cflags .& 0x7f) + 1) in
    Ok (lo, hi)
  else Ok (cflags, 0).

(** The table of prefixes a two-byte opcode does not allow. *)
Definition prefix_check (opcode2 opcode pref flags : Z) : res Z :=
  if truth opcode2 then
    let! v := op_lookup (DELTA_PREFIXES cfg) opcode in
    Ok (if truth (v .& pref) then flags .| F_ERROR .| F_ERROR_OPCODE else flags)
  else Ok flags.

(** Floating point opcodes: does the ModRM byte name no instruction? *)
Definition fpu_check (opcode2 opcode m_mod m_reg m_rm : Z) : res bool :=
  if negb (truth opcode2) && (0xd9 <=? opcode) && (opcode <=? 0xdf) then
    let t := opcode - 0xd9 in
    if m_mod =? 3 then
      let! v := tbl (DELTA_FPU_MODRM cfg + t * 8 + m_reg) in
      Ok (truth (u8 (v .<< m_rm) .& 0x80))
    else
      let! v := tbl (DELTA_FPU_REG cfg + t) in
      Ok (truth (u8 (v .<< m_reg) .& 0x80))
  else Ok false.

(** The loop over [DELTA_OP_LOCK_OK], two bytes an entry: does the lock prefix
    lack a permission? *)
Fixpoint lock_loop (fuel : nat) (ht table_end op m_reg : Z) : res bool :=
  if ht =? table_end then Ok true
  else
    match fuel with
    | O => NoFuel
    | S fuel =>
        let! v := tbl ht in
        if v =? op then
          let! r := tbl (ht + 1) in
          Ok (sign_after r m_reg)
        else lock_loop fuel (ht + 2) table_end op m_reg
    end.

Definition lock_check (opcode2 opcode m_mod m_reg : Z) : res bool :=
  if m_mod =? 3 then Ok true
  else if truth opcode2 then
    lock_loop 16 (DELTA_OP2_LOCK_OK cfg) (DELTA_OP_ONLY_MEM cfg) opcode m_reg
  else
    lock_loop 16 (DELTA_OP_LOCK_OK cfg) (DELTA_OP2_LOCK_OK cfg) (u8 (opcode .& (-2))) m_reg.

(** The loop over [DELTA_OP_ONLY_MEM], three bytes an entry: is a register
    operand an error? *)
Fixpoint only_mem_loop (fuel : nat) (ht table_end opcode pref m_reg : Z) : res bool :=
  if ht =? table_end then Ok false
  else
    match fuel with
    | O => NoFuel
    | S fuel =>
        let! v := tbl ht in
        if v =? opcode then
          let! a := tbl (ht + 1) in
          if truth (a .& pref) then
            let! r := tbl (ht + 2) in
            Ok (negb (sign_after r m_reg))
          else Ok false
        else only_mem_loop fuel (ht + 3) table_end opcode pref m_reg
    end.

(** The operand checks: whether [error_operand] is reached, and [m_mod]. *)
Definition operand_check (opcode2 opcode m_mod m_reg pref : Z) : res (bool * Z) :=
  if truth opcode2 && ((opcode =? 0x20) || (opcode =? 0x22)) then
    Ok ((4 <? m_reg) || (m_reg =? 1), 3)
  else if truth opcode2 && ((opcode =? 0x21) || (opcode =? 0x23)) then
    Ok ((m_reg =? 4) || (m_reg =? 5), 3)
  else if negb (truth opcode2) && (opcode =? 0x8c) then Ok (5 <? m_reg, m_mod)
  else if negb (truth opcode2) && (opcode =? 0x8e) then Ok ((m_reg =? 1) || (5 <? m_reg), m_mod)
  else if m_mod =? 3 then
    let! e :=
      if truth opcode2 then
        only_mem_loop 16 (DELTA_OP2_ONLY_MEM cfg) (Z.of_nat (length (table cfg))) opcode pref m_reg
      else
        only_mem_loop 16 (DELTA_OP_ONLY_MEM cfg) (DELTA_OP2_ONLY_MEM cfg) opcode pref m_reg in
    Ok (e, m_mod)
  else if truth opcode2 then
    Ok (if (opcode =? 0x50) || (opcode =? 0xd7) || (opcode =? 0xf7)
        then truth (pref .& (PRE_NONE .| PRE_66))
        else if opcode =? 0xd6 then truth (pref .& (PRE_F2 .| PRE_F3))
        else opcode =? 0xc5, m_mod)
  else Ok (false, m_mod).

Definition disp_size (m_mod m_rm pref : Z) : Z :=
  if m_mod =? 0 then
    if truth (pref .& PRE_67) then (if m_rm =? 6 then 2 else 0)
    else (if m_rm =? 5 then 4 else 0)
  else if m_mod =? 1 then 1
  else if m_mod =? 2 then (if truth (pref .& PRE_67) then 2 else 4)
  else 0.

Definition flag_if (e : bool) (f flags : Z) : Z := if e then flags .| F_ERROR .| f else flags.

(** The displacement of [size] bytes at [p]: the flag to add and the value. *)
Definition disp_stage (code : mem) (size p : Z) : res (Z * Z) :=
  if size =? 1 then let! d := fetch code 1 p in Ok (F_DISP8 cfg, d)
  else if size =? 2 then let! d := fetch code 2 p in Ok (F_DISP16 cfg, d)
  else if size =? 4 then let! d := fetch code 4 p in Ok (F_DISP32 cfg, d)
  else Ok (0, 0).

(** The [C_MODRM] branch: fields, [cflags], flags and offset. *)
Definition modrm_stage (code : mem) (opcode2 opcode x cflags pref flags p : Z)
  : res (modrm_out * Z * Z * Z) :=
  let! c := fetch code 1 p in
  let flags := flags .| F_MODRM in
  let m_mod := c .>> 6 in
  let m_rm := c .& 7 in
  let m_reg := (c .& 0x3f) .>> 3 in
  let flags := flag_if (truth x && sign_after x m_reg) F_ERROR_OPCODE flags in
  let! e := fpu_check opcode2 opcode m_mod m_reg m_rm in
  let flags := flag_if e F_ERROR_OPCODE flags in
  let! e := if truth (pref .& PRE_LOCK) then lock_check opcode2 opcode m_mod m_reg else Ok false in
  let flags := flag_if e F_ERROR_LOCK flags in
  let! '(e, mod') := operand_check opcode2 opcode m_mod m_reg pref in
  let flags := flag_if e F_ERROR_OPERAND flags in
  let! s := fetch code 1 (p + 1) in
  let cflags :=
    if m_reg <=? 1 then
      if opcode =? 0xf6 then cflags .| C_IMM8
      else if opcode =? 0xf7 then cflags .| C_IMM_P66 else cflags
    else cflags in
  let size := disp_size mod' m_rm pref in
  let has_sib :=
    negb (mod' =? 3) && (m_rm =? 4) && negb (addr16_no_sib cfg && truth (pref .& PRE_67)) in
  let flags := if has_sib then flags .| F_SIB else flags in
  let size := if has_sib && (s .& 7 =? 5) && negb (truth (mod' .& 1)) then 4 else size in
  let p := if has_sib then p + 2 else p + 1 in
  let! '(f, d) := disp_stage code size p in
  let out :=
    if has_sib then mk_modrm c m_mod m_reg m_rm s (s .>> 6) ((s .& 0x3f) .>> 3) (s .& 7) d
    else mk_modrm c m_mod m_reg m_rm 0 0 0 0 d in
  Ok (out, cflags, flags .| f, p + size).

(** From the opcode to the end of the ModRM part. *)
Definition operands_stage (code : mem) (o : opcode_out) (cflags flags : Z)
  : res (modrm_out * Z * Z * Z) :=
  let! '(cflags, x) := group_stage (o_ht o) cflags in
  let! flags := prefix_check (o_opcode2 o) (o_op o) (o_pref o) flags in
  if truth (cflags .& C_MODRM) then
    modrm_stage code (o_opcode2 o) (o_op o) x cflags (o_pref o) flags (o_p o)
  else
    Ok (no_modrm, cflags,
        if truth (o_pref o .& PRE_LOCK) then flags .| F_ERROR .| F_ERROR_LOCK else flags, o_p o).

(** Store [n] low bytes of a union member over the previous contents. *)
Definition union_put (n : Z) (old v : Z) : Z := old / 2 ^ (8 * n) * 2 ^ (8 * n) + v.

(** The length, cut to 15. *)
Definition length_stage (p flags : Z) : Z * Z :=
  let len := u8 p in
  if 15 <? len then (15, flags .| F_ERROR .| F_ERROR_LENGTH) else (len, flags).
End engine.

(** ** The 64-bit disassembler *)

Module Hde64.

Definition F_IMM64 : Z := 0x00000020.
Definition F_RELATIVE : Z := 0x00000200.
Definition F_PREFIX_REX : Z := 0x40000000.

Record hde64s := mk_hs {
  len : Z;
  pre : prefixes;
  rex : Z;
  rex_w : Z;
  rex_r : Z;
  rex_x : Z;
  rex_b : Z;
  opcode : Z;
  opcode2 : Z;
  operands : modrm_out;
  imm : Z;
  flags : Z;
}.

Record rex_out := mk_rex { r_w : Z; r_r : Z; r_x : Z; r_b : Z; r_c : Z; r_p : Z; r_op64 : Z; r_flags : Z; r_bad : bool }.

(** The REX prefix; [r_bad] when a second one follows. *)
Definition rex_stage (code : mem) (c p flags : Z) : res rex_out :=
  if c .& 0xf0 =? 0x40 then
    let w := (c .& 0xf) .>> 3 in
    let! n := fetch code 1 p in
    let op64 := if truth w && (n .& 0xf8 =? 0xb8) then 1 else 0 in
    Ok (mk_rex w ((c .& 7) .>> 2) ((c .& 3) .>> 1) (c .& 1) n (p + 1) op64 (flags .| F_PREFIX_REX)
          (n .& 0xf0 =? 0x40))
  else Ok (mk_rex 0 0 0 0 c p 0 flags false).

(** The immediates and relative offsets: value, flags and offset. *)
Definition rel32_ok (code : mem) (imm flags p : Z) : res (Z * Z * Z) :=
  let! v := fetch code 4 p in
  Ok (union_put 4 imm v, flags .| F_IMM32 .| F_RELATIVE, p + 4).

Definition imm_rel (code : mem) (cflags imm flags p : Z) : res (Z * Z * Z) :=
  if truth (cflags .& C_REL32) then rel32_ok code imm flags p
  else if truth (cflags .& C_REL8) then
    let! v := fetch code 1 p in
    Ok (union_put 1 imm v, flags .| F_IMM8 .| F_RELATIVE, p + 1)
  else Ok (imm, flags, p).

Definition imm_byte (code : mem) (cflags imm flags p : Z) : res (Z * Z * Z) :=
  if truth (cflags .& C_IMM8) then
    let! v := fetch code 1 p in
    imm_rel code cflags (union_put 1 imm v) (flags .| F_IMM8) (p + 1)
  else imm_rel code cflags imm flags p.

Definition imm16_ok (code : mem) (cflags imm flags p : Z) : res (Z * Z * Z) :=
  let! v := fetch code 2 p in
  imm_byte code cflags (union_put 2 imm v) (flags .| F_IMM16) (p + 2).

Definition imm_word (code : mem) (cflags imm flags p : Z) : res (Z * Z * Z) :=
  if truth (cflags .& C_IMM16) then imm16_ok code cflags imm flags p
  else imm_byte code cflags imm flags p.

Definition imm_stage (code : mem) (cflags pref op64 flags p : Z) : res (Z * Z * Z) :=
  if truth (cflags .& C_IMM_P66) then
    if truth (cflags .& C_REL32) then
      if truth (pref .& PRE_66) then
        let! v := fetch code 2 p in
        Ok (union_put 2 0 v, flags .| F_IMM16 .| F_RELATIVE, p + 2)
      else rel32_ok code 0 flags p
    else if truth op64 then
      let! v := fetch code 8 p in
      imm_word code cflags (union_put 8 0 v) (flags .| F_IMM64) (p + 8)
    else if negb (truth (pref .& PRE_66)) then
      let! v := fetch code 4 p in
      imm_word code cflags (union_put 4 0 v) (flags .| F_IMM32) (p + 4)
    else imm16_ok code cflags 0 flags p
  else imm_word code cflags 0 flags p.

(** The opcode part: a second REX prefix is an opcode error with nothing
    decoded. *)
Definition opcode_part (code : mem) (r : rex_out) (pref : Z) : res (opcode_out * Z * Z) :=
  if r_bad r then
    let '(flags, cflags) := error_opcode (r_c r) (r_flags r) in
    Ok (mk_op 0 0 (r_c r) 0 pref (r_op64 r) (r_p r), cflags, flags)
  else
    let! o := opcode_stage cfg64 code (r_c r) (r_p r) pref (r_op64 r) in
    let! cflags := op_lookup cfg64 (o_ht o) (o_op o) in
    if cflags =? C_ERROR then
      let '(flags, cflags) := error_opcode (o_op o) (r_flags r) in
      Ok (o, cflags, flags)
    else Ok (o, cflags, r_flags r).

Definition hde64_disasm (code : mem) : res hde64s :=
  let! '(s, c, p) := prefix_loop 16 code 0 no_prefix 0 in
  let flags := u32 (pref s .<< 23) in
  let! r := rex_stage code c p flags in
  let! '(o, cflags, flags) := opcode_part code r (pref_none s) in
  let! '(m, cflags, flags, p) := operands_stage cfg64 code o cflags flags in
  let! '(imm, flags, p) := imm_stage code cflags (o_pref o) (o_op64 o) flags p in
  let '(len, flags) := length_stage p flags in
  Ok (mk_hs len s 0 (r_w r) (r_r r) (r_x r) (r_b r) (o_opcode o) (o_opcode2 o) m imm flags).
End Hde64.

(** ** The 32-bit disassembler *)

Module Hde32.

Definition F_RELATIVE_32 : Z := 0x00000100.
Definition F_2IMM16 : Z := 0x00000800.

Record hde32s := mk_hs {
  len : Z;
  pre : prefixes;
  opcode : Z;
  opcode2 : Z;
  operands : modrm_out;
  imm : Z;
  flags : Z;
}.

Definition set_disp (m : modrm_out) (d : Z) : modrm_out :=
  mk_modrm (modrm m) (modrm_mod m) (modrm_reg m) (modrm_rm m) (sib m) (sib_scale m) (sib_index m) (sib_base m) d.

(** The second 16-bit immediate of a far pointer goes to the [disp] union. *)
Definition imm_word_32 (code : mem) (cflags : Z) (m : modrm_out) (imm flags p : Z)
  : res (modrm_out * Z * Z * Z) :=
  if truth (cflags .& C_IMM16) then
    let! v := fetch code 2 p in
    if truth (flags .& F_IMM32) then Ok (set_disp m (union_put 2 (disp m) v), imm, flags .| F_IMM16, p + 2)
    else if truth (flags .& F_IMM16) then
      Ok (set_disp m (union_put 2 (disp m) v), imm, flags .| F_2IMM16, p + 2)
    else Ok (m, union_put 2 imm v, flags .| F_IMM16, p + 2)
  else Ok (m, imm, flags, p).

Definition imm_byte_32 (code : mem) (cflags imm flags p : Z) : res (Z * Z * Z) :=
  if truth (cflags .& C_IMM8) then
    let! v := fetch code 1 p in
    Ok (union_put 1 imm v, flags .| F_IMM8, p + 1)
  else Ok (imm, flags, p).

Definition rel32_ok_32 (code : mem) (imm flags p : Z) : res (Z * Z * Z) :=
  let! v := fetch code 4 p in
  Ok (union_put 4 imm v, flags .| F_IMM32 .| F_RELATIVE_32, p + 4).

Definition imm_rel_32 (code : mem) (cflags imm flags p : Z) : res (Z * Z * Z) :=
  if truth (cflags .& C_REL32) then rel32_ok_32 code imm flags p
  else if truth (cflags .& C_REL8) then
    let! v := fetch code 1 p in
    Ok (union_put 1 imm v, flags .| F_IMM8 .| F_RELATIVE_32, p + 1)
  else Ok (imm, flags, p).

Definition imm_rest (code : mem) (cflags : Z) (m : modrm_out) (imm flags p : Z)
  : res (modrm_out * Z * Z * Z) :=
  let! '(m, imm, flags, p) := imm_word_32 code cflags m imm flags p in
  let! '(imm, flags, p) := imm_byte_32 code cflags imm flags p in
  let! '(imm, flags, p) := imm_rel_32 code cflags imm flags p in
  Ok (m, imm, flags, p).

Definition imm_stage_32 (code : mem) (cflags pref : Z) (m : modrm_out) (flags p : Z)
  : res (modrm_out * Z * Z * Z) :=
  if truth (cflags .& C_IMM_P66) then
    if truth (cflags .& C_REL32) then
      if truth (pref .& PRE_66) then
        let! v := fetch code 2 p in
        Ok (m, union_put 2 0 v, flags .| F_IMM16 .| F_RELATIVE_32, p + 2)
      else
        let! '(imm, flags, p) := rel32_ok_32 code 0 flags p in
        Ok (m, imm, flags, p)
    else if truth (pref .& PRE_66) then
      let! v := fetch code 2 p in
      imm_rest code cflags m (union_put 2 0 v) (flags .| F_IMM16) (p + 2)
    else
      let! v := fetch code 4 p in
      imm_rest code cflags m (union_put 4 0 v) (flags .| F_IMM32) (p + 4)
  else imm_rest code cflags m 0 flags p.

Definition opcode_part_32 (code : mem) (c p pref flags : Z) : res (opcode_out * Z * Z) :=
  let! o := opcode_stage cfg32 code c p pref 0 in
  let! cflags := op_lookup cfg32 (o_ht o) (o_op o) in
  if cflags =? C_ERROR then
    let '(flags, cflags) := error_opcode (o_op o) flags in
    Ok (o, cflags, flags)
  else Ok (o, cflags, flags).

Definition hde32_operands (code : mem) (o : opcode_out) (cflags flags : Z) : res (modrm_out * Z * Z * Z) :=
  operands_stage cfg32 code o cflags flags.

Definition hde32_disasm (code : mem) : res hde32s :=
  let! '(s, c, p) := prefix_loop 16 code 0 no_prefix 0 in
  let flags := u32 (pref s .<< 23) in
  let! '(o, cflags, flags) := opcode_part_32 code c p (pref_none s) flags in
  let! '(m, cflags, flags, p) := hde32_operands code o cflags flags in
  let! '(m, imm, flags, p) := imm_stage_32 code cflags (o_pref o) m flags p in
  let '(len, flags) := length_stage p flags in
  Ok (mk_hs len s (o_opcode o) (o_opcode2 o) m imm flags).
End Hde32.
