(* ===== verification/HdeThm.v ===== *)
(** Properties of the length disassemblers: safety of every table and code
    access, bounds on the length, consistency of the error flags, dependence on
    the first 32 bytes only. *)
From S2P Require Import Prelude Hde.
From stdpp Require Import prelude.
From Stdlib Require Import ZArith Lia.
Open Scope Z_scope.
Open Scope c_scope.

(** ** Results *)

(** [r] is [Ok] of a value that satisfies [P]. *)
Definition ok_with {A} (P : A -> Prop) (r : res A) : Prop := exists a, r = Ok a /\ P a.

Lemma ok_ret {A} (P : A -> Prop) a : P a -> ok_with P (Ok a).
Proof. by exists a. Qed.

Lemma ok_bind {A B} (P : A -> Prop) (Q : B -> Prop) (r : res A) (f : A -> res B) :
  ok_with P r -> (forall a, P a -> ok_with Q (f a)) -> ok_with Q (rbind r f).
Proof. intros (a & -> & Ha) Hf. by apply Hf. Qed.

Lemma ok_mono {A} (P Q : A -> Prop) r : ok_with P r -> (forall a, P a -> Q a) -> ok_with Q r.
Proof. intros (a & -> & Ha) H. exists a. auto. Qed.

Definition byte (x : Z) : Prop := 0 <= x < 256.

Lemma byte_le_forall (P : Z -> bool) n :
  forallb P (seqZ 0 n) = true -> forall c, 0 <= c < n -> P c = true.
Proof. intros H c Hc. rewrite forallb_forall in H. apply H, list_elem_of_In, elem_of_seqZ. lia. Qed.

Lemma fetch_ok code n p :
  0 <= p -> p + Z.of_nat n <= 32 -> fetch code n p = Ok (ldn n code p).
Proof.
  intros. unfold fetch, code_bytes.
  by rewrite (proj2 (Z.leb_le 0 p)), (proj2 (Z.leb_le _ 32)) by lia.
Qed.

Lemma fetch1_ok code p : 0 <= p < 32 -> ok_with byte (fetch code 1 p).
Proof. intros. rewrite fetch_ok by lia. apply ok_ret. apply (ldn_range 1). Qed.

Lemma fetchn_ok code n p : 0 <= p -> p + Z.of_nat n <= 32 -> ok_with (fun _ => True) (fetch code n p).
Proof. intros. rewrite fetch_ok by lia. by apply ok_ret. Qed.

(** ** Error flags: an error bit comes with [F_ERROR] *)

Definition flags_ok (f : Z) : Prop :=
  forall i, 13 <= i <= 16 -> Z.testbit f i = true -> Z.testbit f 12 = true.

(** Adding bits that are not error bits. *)
Definition plain (f : Z) : bool := Z.land f 0x1f000 =? 0.

Lemma plain_bit f i : plain f = true -> 12 <= i <= 16 -> Z.testbit f i = false.
Proof.
  intros H%Z.eqb_eq Hi. apply (f_equal (fun x => Z.testbit x i)) in H.
  rewrite Z.land_spec, Z.testbit_0_l in H.
  assert (Z.testbit 0x1f000 i = true) as E.
  { assert (i = 12 \/ i = 13 \/ i = 14 \/ i = 15 \/ i = 16) as Hc by lia. by intuition subst. }
  by rewrite E, andb_true_r in H.
Qed.

Lemma flags_ok_plain f g : flags_ok f -> plain g = true -> flags_ok (f .| g).
Proof.
  intros Hf Hg i Hi. rewrite !Z.lor_spec, (plain_bit g i) by (done || lia). rewrite orb_false_r.
  intros H. by rewrite (Hf i Hi H).
Qed.

Lemma flags_ok_error f g : flags_ok (f .| F_ERROR .| g).
Proof. intros i Hi _. rewrite !Z.lor_spec. change (Z.testbit F_ERROR 12) with true. by rewrite orb_true_r. Qed.

Lemma flag_if_ok e g f : flags_ok f -> flags_ok (flag_if e g f).
Proof. intros. destruct e; [apply flags_ok_error|done]. Qed.

#[export] Hint Resolve flags_ok_plain flags_ok_error flag_if_ok : cmod.

Lemma flags_ok_start v : flags_ok (u32 (v .<< 23)).
Proof.
  intros i Hi. rewrite wrap_testbit, (proj2 (Z.ltb_lt i 32)) by lia. cbn [andb].
  rewrite Z.shiftl_spec_low by lia. done.
Qed.

(** ** Prefixes *)

Lemma prefix_loop_ok x code p s c :
  0 <= p -> p + Z.of_nat x <= 32 -> byte c -> byte (pref s) ->
  ok_with (fun '(s', c', p') =>
    byte c' /\ byte (pref s') /\ p <= p' <= p + Z.of_nat x /\ (0 < Z.of_nat x -> p + 1 <= p'))
    (prefix_loop x code p s c).
Proof.
  revert p s c. induction x as [|x IH]; intros p s c Hp Hx Hc Hs; cbn [prefix_loop].
  - apply ok_ret. split_and!; try done; lia.
  - eapply ok_bind; [apply fetch1_ok; lia|]. intros c' Hc'.
    destruct (prefix_case c' s) as [s'|] eqn:E.
    + assert (byte (pref s')) as Hs'.
      { assert (forall a b, byte a -> byte b -> byte (a .| b)) as Hlor.
        { intros a b Ha Hb. unfold byte in *.
          assert (0 <= a .| b) by (apply Z.lor_nonneg; lia). split; [done|].
          apply (Z.log2_lt_cancel _ 256). rewrite Z.log2_lor by lia.
          apply Z.max_lub_lt; [|]; eapply Z.le_lt_trans.
          1, 3: apply Z.log2_le_mono with (b := 255); lia. all: done. }
        unfold prefix_case in E. repeat case_match; simplify_eq; cbn [pref]; apply Hlor; done. }
      eapply ok_mono; [apply IH; try done; lia|]. intros [[s1 c1] p1] (? & ? & ? & ?). split_and!; try done; lia.
    + apply ok_ret. split_and!; try done; lia.
Qed.

(** ** Tables *)

(** Bytes after the operands that [cflags] asks for; [n] for [C_IMM_P66]. *)
Definition imm_bound (n cf : Z) : Z :=
  let on (f k : Z) := if truth (cf .& f) then k else 0 in
  if truth (cf .& C_IMM_P66) && truth (cf .& C_REL32) then 4
  else on C_IMM_P66 n + on C_IMM16 2 + on C_IMM8 1 + on C_REL32 4 + on C_REL8 1.

(** The immediates of group 3 depend on the [reg] field. *)
Definition group3 (opcode cf : Z) : Z :=
  if opcode =? 0xf6 then cf .| C_IMM8 else if opcode =? 0xf7 then cf .| C_IMM_P66 else cf.

Definition is_byte_b (x : Z) : bool := (0 <=? x) && (x <? 256).

Definition fits (n opcode cf : Z) : bool := (imm_bound n cf <=? 8) && (imm_bound n (group3 opcode cf) <=? 8).

(** What is checked of each opcode of the map at [ht]. *)
Definition opcode_check (cfg : hde_cfg) (n ht opcode : Z) : bool :=
  match op_lookup cfg ht opcode with
  | Ok cf0 =>
      let cf1 := if cf0 =? C_ERROR then (error_opcode opcode 0).2 else cf0 in
      match group_stage cfg ht cf1 with
      | Ok (cf, x) => is_byte_b cf && is_byte_b x && fits n opcode cf
      | _ => false
      end
  | _ => false
  end.

Definition is_ok {A} (r : res A) : bool := match r with Ok _ => true | _ => false end.

(** What is checked of the whole table. *)
Definition cfg_check (cfg : hde_cfg) (n : Z) : bool :=
  forallb (opcode_check cfg n 0) (seqZ 0 256) &&
  forallb (opcode_check cfg n (DELTA_OPCODES cfg)) (seqZ 0 256) &&
  forallb (fun c => is_ok (op_lookup cfg (DELTA_PREFIXES cfg) c)) (seqZ 0 256) &&
  forallb (fun i => is_ok (tbl cfg i)) (seqZ 0 (Z.of_nat (length (table cfg)))) &&
  (0 <=? DELTA_FPU_REG cfg) && (DELTA_FPU_REG cfg + 7 <=? Z.of_nat (length (table cfg))) &&
  (0 <=? DELTA_FPU_MODRM cfg) && (DELTA_FPU_MODRM cfg + 56 <=? Z.of_nat (length (table cfg))) &&
  (0 <=? DELTA_OP_LOCK_OK cfg) && (0 <=? DELTA_OP2_LOCK_OK cfg) &&
  (DELTA_OP2_LOCK_OK cfg - DELTA_OP_LOCK_OK cfg =? 24) &&
  (DELTA_OP_ONLY_MEM cfg - DELTA_OP2_LOCK_OK cfg =? 18) &&
  (DELTA_OP2_ONLY_MEM cfg - DELTA_OP_ONLY_MEM cfg =? 15) &&
  (Z.of_nat (length (table cfg)) - DELTA_OP2_ONLY_MEM cfg =? 42) &&
  plain (F_DISP8 cfg) && plain (F_DISP16 cfg) && plain (F_DISP32 cfg).

Lemma cfg64_check : cfg_check cfg64 8 = true.
Proof. vm_compute. reflexivity. Qed.
Lemma cfg32_check : cfg_check cfg32 4 = true.
Proof. vm_compute. reflexivity. Qed.

Record cfg_ok (cfg : hde_cfg) (n : Z) : Prop := {
  co_op : forall c, byte c -> opcode_check cfg n 0 c = true;
  co_op2 : forall c, byte c -> opcode_check cfg n (DELTA_OPCODES cfg) c = true;
  co_pref : forall c, byte c -> is_ok (op_lookup cfg (DELTA_PREFIXES cfg) c) = true;
  co_fpu_reg : 0 <= DELTA_FPU_REG cfg /\ DELTA_FPU_REG cfg + 7 <= Z.of_nat (length (table cfg));
  co_fpu_modrm : 0 <= DELTA_FPU_MODRM cfg /\ DELTA_FPU_MODRM cfg + 56 <= Z.of_nat (length (table cfg));
  co_lock : 0 <= DELTA_OP_LOCK_OK cfg;
  co_lock2 : 0 <= DELTA_OP2_LOCK_OK cfg;
  co_lock_len : DELTA_OP2_LOCK_OK cfg - DELTA_OP_LOCK_OK cfg = 24;
  co_lock2_len : DELTA_OP_ONLY_MEM cfg - DELTA_OP2_LOCK_OK cfg = 18;
  co_mem_len : DELTA_OP2_ONLY_MEM cfg - DELTA_OP_ONLY_MEM cfg = 15;
  co_mem2_len : Z.of_nat (length (table cfg)) - DELTA_OP2_ONLY_MEM cfg = 42;
  co_disp : plain (F_DISP8 cfg) = true /\ plain (F_DISP16 cfg) = true /\ plain (F_DISP32 cfg) = true;
}.

Lemma cfg_check_ok cfg n : cfg_check cfg n = true -> cfg_ok cfg n.
Proof.
  unfold cfg_check. rewrite !andb_true_iff, !Z.leb_le, !Z.eqb_eq. intros H.
  repeat match goal with H : _ /\ _ |- _ => destruct H end.
  constructor; try done; intros c Hc.
  - by apply (byte_le_forall (opcode_check cfg n 0) 256).
  - by apply (byte_le_forall (opcode_check cfg n (DELTA_OPCODES cfg)) 256).
  - by apply (byte_le_forall (fun c => is_ok (op_lookup cfg (DELTA_PREFIXES cfg) c)) 256).
Qed.

Lemma cfg64_ok : cfg_ok cfg64 8.
Proof. apply cfg_check_ok, cfg64_check. Qed.
Lemma cfg32_ok : cfg_ok cfg32 4.
Proof. apply cfg_check_ok, cfg32_check. Qed.

Section stages.
Context (cfg : hde_cfg) (n : Z) (Hcfg : cfg_ok cfg n).

Definition true_of {A} (_ : A) : Prop := True.

Lemma tbl_ok i : 0 <= i < Z.of_nat (length (table cfg)) -> ok_with true_of (tbl cfg i).
Proof using Type.
  intros. unfold tbl. rewrite (proj2 (Z.leb_le _ _)), (proj2 (Z.ltb_lt _ _)) by lia. by apply ok_ret.
Qed.

Lemma prefix_check_ok op2 op pr f :
  byte op -> flags_ok f -> ok_with flags_ok (prefix_check cfg op2 op pr f).
Proof using Hcfg.
  intros Hop Hf. unfold prefix_check. destruct (truth op2); [|by apply ok_ret].
  pose proof (co_pref _ _ Hcfg op Hop) as H. destruct (op_lookup cfg (DELTA_PREFIXES cfg) op); try done.
  cbn [rbind]. apply ok_ret. destruct (truth (a .& pr)); auto with cmod.
Qed.

Lemma fpu_check_ok op2 op md rg rm :
  0 <= rg < 8 -> ok_with true_of (fpu_check cfg op2 op md rg rm).
Proof using Hcfg.
  intros Hrg. unfold fpu_check. destruct (negb (truth op2)); cbn [andb]; [|by apply ok_ret].
  destruct (Z.leb_spec 0xd9 op); cbn [andb]; [|by apply ok_ret].
  destruct (Z.leb_spec op 0xdf); [|by apply ok_ret].
  pose proof (co_fpu_reg _ _ Hcfg). pose proof (co_fpu_modrm _ _ Hcfg).
  destruct (md =? 3); (eapply ok_bind; [apply tbl_ok; lia|]; intros; by apply ok_ret).
Qed.

Lemma lock_loop_ok fuel ht k op rg :
  0 <= ht -> ht + 2 * Z.of_nat k <= Z.of_nat (length (table cfg)) -> (k <= fuel)%nat ->
  ok_with true_of (lock_loop cfg fuel ht (ht + 2 * Z.of_nat k) op rg).
Proof using Type.
  revert ht k. induction fuel as [|fuel IH]; intros ht k Hh Hl Hk; cbn [lock_loop].
  - replace k with 0%nat by lia. rewrite Z.add_0_r, Z.eqb_refl. by apply ok_ret.
  - destruct (Z.eqb_spec ht (ht + 2 * Z.of_nat k)); [by apply ok_ret|].
    eapply ok_bind; [apply tbl_ok; lia|]. intros v _. destruct (v =? op).
    + eapply ok_bind; [apply tbl_ok; lia|]. intros; by apply ok_ret.
    + replace (ht + 2 * Z.of_nat k) with (ht + 2 + 2 * Z.of_nat (k - 1)) by lia. apply IH; lia.
Qed.

Lemma only_mem_loop_ok fuel ht k op pr rg :
  0 <= ht -> ht + 3 * Z.of_nat k <= Z.of_nat (length (table cfg)) -> (k <= fuel)%nat ->
  ok_with true_of (only_mem_loop cfg fuel ht (ht + 3 * Z.of_nat k) op pr rg).
Proof using Type.
  revert ht k. induction fuel as [|fuel IH]; intros ht k Hh Hl Hk; cbn [only_mem_loop].
  - replace k with 0%nat by lia. rewrite Z.add_0_r, Z.eqb_refl. by apply ok_ret.
  - destruct (Z.eqb_spec ht (ht + 3 * Z.of_nat k)); [by apply ok_ret|].
    eapply ok_bind; [apply tbl_ok; lia|]. intros v _. destruct (v =? op).
    + eapply ok_bind; [apply tbl_ok; lia|]. intros a _. destruct (truth (a .& pr)); [|by apply ok_ret].
      eapply ok_bind; [apply tbl_ok; lia|]. intros; by apply ok_ret.
    + replace (ht + 3 * Z.of_nat k) with (ht + 3 + 3 * Z.of_nat (k - 1)) by lia. apply IH; lia.
Qed.

Lemma lock_check_ok op2 op md rg : ok_with true_of (lock_check cfg op2 op md rg).
Proof using Hcfg.
  unfold lock_check. destruct Hcfg. destruct (md =? 3); [by apply ok_ret|]. destruct (truth op2).
  - replace (DELTA_OP_ONLY_MEM cfg) with (DELTA_OP2_LOCK_OK cfg + 2 * Z.of_nat 9) by lia.
    apply lock_loop_ok; lia.
  - replace (DELTA_OP2_LOCK_OK cfg) with (DELTA_OP_LOCK_OK cfg + 2 * Z.of_nat 12) by lia.
    apply lock_loop_ok; lia.
Qed.

Lemma operand_check_ok op2 op md rg pr :
  0 <= md <= 3 -> ok_with (fun r => 0 <= r.2 <= 3) (operand_check cfg op2 op md rg pr).
Proof using Hcfg.
  intros Hmd. unfold operand_check. destruct Hcfg.
  repeat match goal with |- ok_with _ (if ?b then Ok _ else _) => destruct b; [by apply ok_ret; simpl; lia|] end.
  destruct (md =? 3); [|destruct (truth op2); by apply ok_ret].
  eapply ok_bind with (P := true_of); [|intros; by apply ok_ret].
  destruct (truth op2).
  - replace (Z.of_nat (length (table cfg))) with (DELTA_OP2_ONLY_MEM cfg + 3 * Z.of_nat 14) by lia.
    apply only_mem_loop_ok; lia.
  - replace (DELTA_OP2_ONLY_MEM cfg) with (DELTA_OP_ONLY_MEM cfg + 3 * Z.of_nat 5) by lia.
    apply only_mem_loop_ok; lia.
Qed.

Lemma disp_size_cases md rm pr : disp_size md rm pr = 0 \/ disp_size md rm pr = 1 \/ disp_size md rm pr = 2 \/ disp_size md rm pr = 4.
Proof using Type. unfold disp_size. repeat case_match; auto. Qed.

Lemma disp_stage_ok code size p :
  size = 0 \/ size = 1 \/ size = 2 \/ size = 4 -> 0 <= p -> p + size <= 32 ->
  ok_with (fun r => plain r.1 = true) (disp_stage cfg code size p).
Proof using Hcfg.
  intros Hs Hp Hl. unfold disp_stage. destruct (co_disp _ _ Hcfg) as (? & ? & ?).
  destruct Hs as [-> | [-> | [-> | ->]]]; cbn [Z.eqb Pos.eqb]; try by apply ok_ret.
  all: (eapply ok_bind; [apply fetchn_ok; lia|]; intros; by apply ok_ret).
Qed.

Lemma modrm_fields c : byte c -> 0 <= c .>> 6 <= 3 /\ 0 <= c .& 7 < 8 /\ 0 <= (c .& 0x3f) .>> 3 < 8.
Proof using Type.
  intros Hc. unfold byte in Hc. change 7 with (Z.ones 3). change 0x3f with (Z.ones 6).
  rewrite !Z.shiftr_div_pow2, !Z.land_ones by lia. zdm.
Qed.

(** The part of [modrm_stage] after the operand checks. *)
Definition after_checks (r : modrm_out * Z * Z * Z) (p : Z) : Prop :=
  let '(_, cf, f, p') := r in flags_ok f /\ p + 1 <= p' <= p + 6 /\ imm_bound n cf <= 8.

Lemma modrm_stage_ok code op2 op x cf pr f p :
  0 <= p -> p + 6 <= 32 -> flags_ok f -> fits n op cf = true ->
  ok_with (fun r => after_checks r p) (modrm_stage cfg code op2 op x cf pr f p).
Proof using Hcfg.
  intros Hp Hl Hf Hcf. unfold modrm_stage.
  eapply ok_bind; [apply fetch1_ok; lia|]. intros c Hc.
  destruct (modrm_fields c Hc) as (Hmd & Hrm & Hrg). cbv zeta.
  eapply ok_bind; [apply fpu_check_ok; done|]. intros e1 _.
  eapply ok_bind with (P := true_of); [destruct (truth (pr .& PRE_LOCK)); [apply lock_check_ok|by apply ok_ret]|].
  intros e2 _. eapply ok_bind; [by apply operand_check_ok|]. intros [e3 md'] Hmd'.
  eapply ok_bind; [apply fetch1_ok; lia|]. intros sb Hsb.
  set (has := negb (md' =? 3) && (c .& 7 =? 4) && negb (addr16_no_sib cfg && truth (pr .& PRE_67))).
  set (size := if has && (sb .& 7 =? 5) && negb (truth (md' .& 1)) then 4 else disp_size md' (c .& 7) pr).
  assert (size = 0 \/ size = 1 \/ size = 2 \/ size = 4) as Hsize.
  { unfold size. destruct (has && _ && _); [auto|apply disp_size_cases]. }
  eapply ok_bind; [apply disp_stage_ok; [done|destruct has; lia..]|].
  intros [fd d] Hfd. simpl in Hfd. apply ok_ret. unfold after_checks. split_and!.
  - apply flags_ok_plain; [|done]. destruct has; auto 10 with cmod.
  - destruct has; lia.
  - destruct has; lia.
  - unfold fits, group3 in Hcf. rewrite andb_true_iff, !Z.leb_le in Hcf. destruct Hcf as [H1 H2].
    destruct (_ <=? 1); [|done]. destruct (op =? 0xf6), (op =? 0xf7); done.
Qed.

Lemma operands_stage_ok code o cf0 cf x f :
  0 <= o_p o -> o_p o + 6 <= 32 -> byte (o_op o) -> flags_ok f ->
  group_stage cfg (o_ht o) cf0 = Ok (cf, x) -> fits n (o_op o) cf = true ->
  ok_with (fun r => let '(_, cf, f, p') := r in
    flags_ok f /\ o_p o <= p' <= o_p o + 6 /\ imm_bound n cf <= 8)
    (operands_stage cfg code o cf0 f).
Proof using Hcfg.
  intros Hp Hl Hop Hf Hg Hcf. unfold operands_stage. rewrite Hg. cbn [rbind].
  eapply ok_bind; [by apply prefix_check_ok|]. intros f1 Hf1.
  destruct (truth (cf .& C_MODRM)).
  - eapply ok_mono; [by apply modrm_stage_ok|]. intros [[[m cf'] f'] p'] (? & ? & ?). split_and!; try done; lia.
  - apply ok_ret. unfold fits in Hcf. rewrite andb_true_iff, !Z.leb_le in Hcf.
    split_and!; try lia. destruct (truth _); auto with cmod.
Qed.

(** The opcode bytes and their [cflags]. *)
Lemma opcode_stage_ok code c p pr op64 :
  byte c -> 0 <= p < 32 ->
  ok_with (fun o => byte (o_op o) /\ p <= o_p o <= p + 1 /\ (o_ht o = 0 \/ o_ht o = DELTA_OPCODES cfg))
    (opcode_stage cfg code c p pr op64).
Proof using Type.
  intros Hc Hp. unfold opcode_stage. destruct (c =? 0x0f).
  - eapply ok_bind; [apply fetch1_ok; lia|]. intros c2 Hc2. apply ok_ret. cbn. auto with lia.
  - destruct (_ && _); apply ok_ret; cbn; auto with lia.
Qed.

Lemma cflags_ok o :
  byte (o_op o) -> o_ht o = 0 \/ o_ht o = DELTA_OPCODES cfg ->
  exists cf0, op_lookup cfg (o_ht o) (o_op o) = Ok cf0 /\
    exists cf x, group_stage cfg (o_ht o) (if cf0 =? C_ERROR then (error_opcode (o_op o) 0).2 else cf0) = Ok (cf, x) /\
      fits n (o_op o) cf = true.
Proof using Hcfg.
  intros Ho Hht. assert (opcode_check cfg n (o_ht o) (o_op o) = true) as H.
  { destruct Hht as [-> | ->]; [apply (co_op _ _ Hcfg)|apply (co_op2 _ _ Hcfg)]; done. }
  unfold opcode_check in H. destruct (op_lookup cfg (o_ht o) (o_op o)) as [cf0| |]; try done.
  exists cf0. split; [done|]. destruct (group_stage cfg (o_ht o) _) as [[cf x]| |]; try done.
  exists cf, x. split; [done|]. by apply andb_true_iff in H as [_ H].
Qed.

Lemma group_error ht op f : group_stage cfg ht (error_opcode op f).2 = Ok ((error_opcode op f).2, 0).
Proof using Type. unfold group_stage, error_opcode. simpl. by destruct (_ =? 0x24). Qed.

Lemma error_opcode_ok op f : flags_ok (error_opcode op f).1.
Proof using Type. apply flags_ok_error. Qed.
End stages.

(** ** Immediates *)

Ltac bits :=
  repeat match goal with
  | H : context [truth ?x] |- _ => destruct (truth x)
  | |- context [truth ?x] => destruct (truth x)
  end.

Definition after_imm (f p' p k : Z) : Prop := flags_ok f /\ p <= p' <= p + k.

Lemma imm64_ok code cf pr op64 f p :
  0 <= p -> imm_bound 8 cf <= 8 -> p + 8 <= 32 -> flags_ok f ->
  ok_with (fun r => let '(_, f, p') := r in after_imm f p' p 8) (Hde64.imm_stage code cf pr op64 f p).
Proof.
  intros Hp Hb Hl Hf. unfold imm_bound in Hb.
  unfold Hde64.imm_stage, Hde64.imm16_ok, Hde64.imm_word, Hde64.imm16_ok, Hde64.imm_byte, Hde64.imm_rel, Hde64.rel32_ok.
  bits; cbn [andb negb] in *; try lia.
  all: repeat (eapply ok_bind; [apply fetchn_ok; lia|]; intros ? _); apply ok_ret; unfold after_imm.
  all: split; [auto 10 with cmod|lia].
Qed.

Lemma imm32_ok code cf pr m f p :
  0 <= p -> imm_bound 4 cf <= 8 -> p + 8 <= 32 -> flags_ok f ->
  ok_with (fun r => let '(_, _, f, p') := r in after_imm f p' p 8) (Hde32.imm_stage_32 code cf pr m f p).
Proof.
  intros Hp Hb Hl Hf. unfold imm_bound in Hb.
  unfold Hde32.imm_stage_32, Hde32.imm_rest, Hde32.imm_word_32, Hde32.imm_byte_32, Hde32.imm_rel_32, Hde32.rel32_ok_32.
  bits; cbn [andb negb] in *; try lia.
  all: repeat (first [rewrite fetch_ok by lia | progress cbn [rbind]]); cbv beta iota.
  all: repeat case_match; repeat (first [rewrite fetch_ok by lia | progress cbn [rbind]]);
    apply ok_ret; unfold after_imm.
  all: split; [auto 10 with cmod|lia].
Qed.

Lemma length_stage_ok p f :
  1 <= p <= 32 -> flags_ok f ->
  1 <= (length_stage p f).1 <= 15 /\ flags_ok (length_stage p f).2 /\
  (p <= 15 -> length_stage p f = (p, f)) /\
  (15 < p -> Z.testbit (length_stage p f).2 14 = true).
Proof.
  intros Hp Hf. unfold length_stage. rewrite u8_small by lia.
  destruct (Z.ltb_spec 15 p); cbn [fst snd]; split_and!; try lia; try done; auto with cmod.
  intros _. rewrite !Z.lor_spec. by rewrite orb_true_r.
Qed.

(** ** The whole functions *)

Lemma hde64_ok code :
  ok_with (fun hs => 1 <= Hde64.len hs <= 15 /\ flags_ok (Hde64.flags hs)) (Hde64.hde64_disasm code).
Proof.
  unfold Hde64.hde64_disasm.
  eapply ok_bind; [apply prefix_loop_ok; (done || lia)|]. intros [[s c] p] (Hc & Hs & Hp & Hp1).
  eapply ok_bind with (P := fun r => byte (Hde64.r_c r) /\ p <= Hde64.r_p r <= p + 1 /\ flags_ok (Hde64.r_flags r)).
  { unfold Hde64.rex_stage. pose proof (flags_ok_start (pref s)).
    destruct (c .& 0xf0 =? 0x40); [|apply ok_ret; cbn; split_and!; done || lia].
    eapply ok_bind; [apply fetch1_ok; lia|]. intros x Hx. apply ok_ret. cbn.
    split_and!; try done; try lia; auto with cmod. }
  intros r (Hrc & Hrp & Hrf).
  eapply ok_bind with (P := fun '(o, cf0, f) => byte (o_op o) /\ p <= o_p o <= p + 2 /\ flags_ok f /\
    exists cf x, group_stage cfg64 (o_ht o) cf0 = Ok (cf, x) /\ fits 8 (o_op o) cf = true).
  { unfold Hde64.opcode_part. destruct (Hde64.r_bad r).
    { apply ok_ret. cbn [o_op o_p o_ht]. split_and!; try done; try lia; [apply flags_ok_error|].
      eexists _, _. split; [exact (group_error cfg64 0 (Hde64.r_c r) 0)|]. unfold error_opcode. cbn [snd].
      unfold fits, group3. repeat match goal with |- context [?a =? ?b] => destruct (a =? b) end; reflexivity. }
    eapply ok_bind; [apply opcode_stage_ok; done || lia|]. intros o (Ho & Hop & Hht).
    destruct (cflags_ok cfg64 8 cfg64_ok o Ho Hht) as (cf0 & -> & cf & x & Hg & Hfit). cbn [rbind].
    destruct (cf0 =? C_ERROR); apply ok_ret; cbn [error_opcode snd];
      split_and!; try done; try lia; [apply flags_ok_error|eauto..]. }
  intros [[o cf0] f] (Ho & Hop & Hf & cf & x & Hg & Hfit).
  eapply ok_bind; [eapply (operands_stage_ok cfg64 8 cfg64_ok); try done; lia|].
  intros [[[m cf'] f'] p'] (Hf' & Hp' & Hb).
  eapply ok_bind; [apply imm64_ok; done || lia|]. intros [[im f2] p2] (Hf2 & Hp2).
  destruct (length_stage_ok p2 f2) as (Hl & Hlf & _); [lia|done|].
  destruct (length_stage p2 f2) as [len f3]. by apply ok_ret.
Qed.

Lemma hde32_ok code :
  ok_with (fun hs => 1 <= Hde32.len hs <= 15 /\ flags_ok (Hde32.flags hs)) (Hde32.hde32_disasm code).
Proof.
  unfold Hde32.hde32_disasm.
  eapply ok_bind; [apply prefix_loop_ok; (done || lia)|]. intros [[s c] p] (Hc & Hs & Hp & Hp1).
  eapply ok_bind with (P := fun '(o, cf0, f) => byte (o_op o) /\ p <= o_p o <= p + 2 /\ flags_ok f /\
    exists cf x, group_stage cfg32 (o_ht o) cf0 = Ok (cf, x) /\ fits 4 (o_op o) cf = true).
  { unfold Hde32.opcode_part_32. pose proof (flags_ok_start (pref s)).
    eapply ok_bind; [apply opcode_stage_ok; done || lia|]. intros o (Ho & Hop & Hht).
    destruct (cflags_ok cfg32 4 cfg32_ok o Ho Hht) as (cf0 & -> & cf & x & Hg & Hfit). cbn [rbind].
    destruct (cf0 =? C_ERROR); apply ok_ret; cbn [error_opcode snd];
      split_and!; try done; try lia; [apply flags_ok_error|eauto..]. }
  intros [[o cf0] f] (Ho & Hop & Hf & cf & x & Hg & Hfit).
  eapply ok_bind; [eapply (operands_stage_ok cfg32 4 cfg32_ok); try done; lia|].
  intros [[[m cf'] f'] p'] (Hf' & Hp' & Hb).
  eapply ok_bind; [apply imm32_ok; done || lia|]. intros [[[m2 im] f2] p2] (Hf2 & Hp2).
  destruct (length_stage_ok p2 f2) as (Hl & Hlf & _); [lia|done|].
  destruct (length_stage p2 f2) as [len f3]. by apply ok_ret.
Qed.

(** C29: On any code bytes [hde64_disasm] stays inside its tables and inside the
    first 32 bytes of the code, its search loops terminate, the length it
    returns is between 1 and 15, and an error of any kind comes with [F_ERROR],
    the one bit its callers test. *)
Theorem hde64_disasm_safe code :
  exists hs, Hde64.hde64_disasm code = Ok hs /\ 1 <= Hde64.len hs <= 15 /\
    forall i, 13 <= i <= 16 -> Z.testbit (Hde64.flags hs) i = true -> Z.testbit (Hde64.flags hs) 12 = true.
Proof. destruct (hde64_ok code) as (hs & E & Hl & Hf). exists hs. auto. Qed.

(** The same for [hde32_disasm]: no access outside the tables or past the
    first 32 bytes, termination, a length between 1 and 15, and errors that
    always set [F_ERROR]. *)
Theorem hde32_disasm_safe code :
  exists hs, Hde32.hde32_disasm code = Ok hs /\ 1 <= Hde32.len hs <= 15 /\
    forall i, 13 <= i <= 16 -> Z.testbit (Hde32.flags hs) i = true -> Z.testbit (Hde32.flags hs) 12 = true.
Proof. destruct (hde32_ok code) as (hs & E & Hl & Hf). exists hs. auto. Qed.

(** ** Locality *)

(** Code that agrees on the bytes the header asks for. *)
Definition same32 (m m' : mem) : Prop := forall p, 0 <= p < 32 -> m p = m' p.

#[export] Instance same32_equiv : Equivalence same32.
Proof.
  split; [by intros m p|by intros m m' H p Hp; rewrite H|].
  intros m1 m2 m3 H1 H2 p Hp. by rewrite H1, H2.
Qed.

#[export] Instance fetch_proper : Proper (same32 ==> eq ==> eq ==> eq) fetch.
Proof.
  intros m m' H n ? <- p ? <-. unfold fetch, code_bytes.
  destruct (Z.leb_spec 0 p), (Z.leb_spec (p + Z.of_nat n) 32); cbn [andb]; try done.
  f_equal. apply ldn_ext. intros x Hx. apply H. lia.
Qed.

#[export] Instance rbind_proper {A B} :
  Proper (eq ==> pointwise_relation A eq ==> eq) (@rbind A B).
Proof. intros r ? <- f g H. destruct r; cbn; [apply H|done..]. Qed.

Lemma prefix_loop_same m m' x p s c :
  same32 m m' -> prefix_loop x m p s c = prefix_loop x m' p s c.
Proof.
  intros H. revert p s c. induction x as [|x IH]; intros p s c; [done|]. cbn [prefix_loop].
  rewrite (fetch_proper _ _ H 1%nat _ eq_refl p _ eq_refl). apply rbind_proper; [done|].
  intros b. by destruct (prefix_case b s).
Qed.

(** Rewrites every fetch, also under the binders of the result monad. *)
Ltac same_fetch H :=
  repeat first
    [ reflexivity
    | progress rewrite !(fetch_proper _ _ H _ _ eq_refl _ _ eq_refl)
    | apply rbind_proper; [|intros ?]
    | case_match ].

Lemma modrm_stage_same cfg m m' op2 op x cf pr f p :
  same32 m m' -> modrm_stage cfg m op2 op x cf pr f p = modrm_stage cfg m' op2 op x cf pr f p.
Proof.
  intros H. unfold modrm_stage. rewrite (fetch_proper _ _ H _ _ eq_refl p _ eq_refl).
  apply rbind_proper; [done|]. intros c. apply rbind_proper; [done|]. intros e1.
  apply rbind_proper; [done|]. intros e2. apply rbind_proper; [done|]. intros [e3 md].
  rewrite (fetch_proper _ _ H _ _ eq_refl (p + 1) _ eq_refl). apply rbind_proper; [done|]. intros s.
  apply rbind_proper; [|done]. unfold disp_stage. same_fetch H.
Qed.

Lemma operands_stage_same cfg m m' o cf f :
  same32 m m' -> operands_stage cfg m o cf f = operands_stage cfg m' o cf f.
Proof.
  intros H. unfold operands_stage. apply rbind_proper; [done|]. intros [cf' x].
  apply rbind_proper; [done|]. intros f'. destruct (truth _); [|done]. by apply modrm_stage_same.
Qed.

Lemma opcode_stage_same cfg m m' c p pr op64 :
  same32 m m' -> opcode_stage cfg m c p pr op64 = opcode_stage cfg m' c p pr op64.
Proof. intros H. unfold opcode_stage. same_fetch H. Qed.

(** What [hde64_disasm] reports depends on the first 32 bytes of the code
    only: two code areas that agree there give the same result. *)
Theorem hde64_disasm_local m m' :
  same32 m m' -> Hde64.hde64_disasm m = Hde64.hde64_disasm m'.
Proof.
  intros H. unfold Hde64.hde64_disasm. rewrite (prefix_loop_same m m') by done.
  apply rbind_proper; [done|]. intros [[s c] p]. apply rbind_proper; [unfold Hde64.rex_stage; same_fetch H|].
  intros r. apply rbind_proper.
  { unfold Hde64.opcode_part. destruct (Hde64.r_bad r); [done|]. by rewrite (opcode_stage_same cfg64 m m'). }
  intros [[o cf] f]. rewrite (operands_stage_same cfg64 m m') by done. apply rbind_proper; [done|].
  intros [[[om cf'] f'] p']. apply rbind_proper; [|done].
  unfold Hde64.imm_stage, Hde64.imm16_ok, Hde64.imm_word, Hde64.imm16_ok, Hde64.imm_byte, Hde64.imm_rel, Hde64.rel32_ok.
  same_fetch H.
Qed.

(** ** Known instructions *)

(** [l] followed by one-byte instructions. *)
Definition code_of (l : list Z) : mem := fun a => nth (Z.to_nat a) l 0x90.

(** The length, when the instruction is accepted. *)
Definition length64 (l : list Z) : option Z :=
  match Hde64.hde64_disasm (code_of l) with
  | Ok hs => if truth (Hde64.flags hs .& F_ERROR) then None else Some (Hde64.len hs)
  | _ => None
  end.
Definition length32 (l : list Z) : option Z :=
  match Hde32.hde32_disasm (code_of l) with
  | Ok hs => if truth (Hde32.flags hs .& F_ERROR) then None else Some (Hde32.len hs)
  | _ => None
  end.

(** Encodings from the instruction set reference, each complete. *)
Definition prologue64 : list (list Z) := [
  [0x55];                                                   (* push rbp *)
  [0x48; 0x89; 0xe5];                                       (* mov rbp, rsp *)
  [0x41; 0x57];                                             (* push r15 *)
  [0x48; 0x83; 0xec; 0x28];                                 (* sub rsp, 0x28 *)
  [0x48; 0x81; 0xec; 0x88; 0x01; 0x00; 0x00];               (* sub rsp, 0x188 *)
  [0x48; 0x8d; 0x05; 0x10; 0x20; 0x30; 0x00];               (* lea rax, [rip+0x302010] *)
  [0x48; 0x8b; 0x44; 0x24; 0x08];                           (* mov rax, [rsp+8] *)
  [0x48; 0x8b; 0x84; 0x24; 0x80; 0x00; 0x00; 0x00];         (* mov rax, [rsp+0x80] *)
  [0x48; 0xb8; 1; 2; 3; 4; 5; 6; 7; 8];                     (* movabs rax, imm64 *)
  [0x48; 0xc7; 0xc0; 1; 2; 3; 4];                           (* mov rax, imm32 *)
  [0xb8; 1; 2; 3; 4];                                       (* mov eax, imm32 *)
  [0x66; 0xb8; 1; 2];                                       (* mov ax, imm16 *)
  [0xe8; 1; 2; 3; 4];                                       (* call rel32 *)
  [0xe9; 1; 2; 3; 4];                                       (* jmp rel32 *)
  [0xeb; 0x10];                                             (* jmp rel8 *)
  [0x74; 0x05];                                             (* je rel8 *)
  [0x0f; 0x84; 1; 2; 3; 4];                                 (* je rel32 *)
  [0xff; 0x25; 1; 2; 3; 4];                                 (* jmp [rip+disp32] *)
  [0x31; 0xc0];                                             (* xor eax, eax *)
  [0xf6; 0xc1; 0x01];                                       (* test cl, 1 *)
  [0xf7; 0xc1; 1; 2; 3; 4];                                 (* test ecx, imm32 *)
  [0xf7; 0xd0];                                             (* not eax *)
  [0x0f; 0xb6; 0xc0];                                       (* movzx eax, al *)
  [0xf0; 0x0f; 0xb1; 0x0f];                                 (* lock cmpxchg [rdi], ecx *)
  [0x0f; 0xa2];                                             (* cpuid *)
  [0x0f; 0x05];                                             (* syscall *)
  [0xf3; 0xa4];                                             (* rep movsb *)
  [0x66; 0x0f; 0x6f; 0x07];                                 (* movdqa xmm0, [rdi] *)
  [0xf3; 0x0f; 0x10; 0x05; 1; 2; 3; 4];                     (* movss xmm0, [rip+disp32] *)
  [0xd9; 0xc0];                                             (* fld st0 *)
  [0xcc];                                                   (* int3 *)
  [0xc3]].                                                  (* ret *)

Definition prologue32 : list (list Z) := [
  [0x55]; [0x89; 0xe5];                                     (* push ebp; mov ebp, esp *)
  [0x83; 0xec; 0x28];                                       (* sub esp, 0x28 *)
  [0x40];                                                   (* inc eax *)
  [0xa1; 1; 2; 3; 4];                                       (* mov eax, [moffs32] *)
  [0x67; 0x8b; 0x04];                                       (* mov eax, [si] *)
  [0x8b; 0x44; 0x24; 0x08];                                 (* mov eax, [esp+8] *)
  [0x9a; 1; 2; 3; 4; 5; 6];                                 (* call far ptr16:32 *)
  [0x66; 0x9a; 1; 2; 3; 4];                                 (* call far ptr16:16 *)
  [0xc8; 0x34; 0x12; 0x01];                                 (* enter 0x1234, 1 *)
  [0xe8; 1; 2; 3; 4]; [0xc2; 8; 0]; [0xc3]].                (* call; ret 8; ret *)

(** On a list of encodings of the instruction set reference (function
    prologues, memory operands in every addressing form, immediates of every
    size, branches, locked, SSE and x87 instructions) both disassemblers report
    exactly the length of the encoding, without an error. *)
Theorem hde_known_lengths :
  Forall (fun l => length64 l = Some (Z.of_nat (length l))) prologue64 /\
  Forall (fun l => length32 l = Some (Z.of_nat (length l))) prologue32.
Proof. split; repeat (apply Forall_cons; split; [vm_compute; reflexivity|]); apply Forall_nil; done. Qed.

(** The immediate of group 3 is taken from the [reg] field for the second
    byte of a two-byte opcode as well: [psadbw mm0, mm1] (0F F6 C1), which is
    three bytes long, is reported with length four, and [maskmovq mm0, mm1]
    (0F F7 C1) with length seven. *)
Theorem hde64_group3_two_byte :
  length64 [0x0f; 0xf6; 0xc1] = Some 4 /\ length64 [0x0f; 0xf7; 0xc1] = Some 7.
Proof. split; vm_compute; reflexivity. Qed.

(** For [enter imm16, imm8] (C8 iw ib) the 8-bit immediate overwrites the low
    byte of the 16-bit one in the [imm] union: the result for [enter 0x1234, 1]
    holds 0x1201. *)
Theorem hde64_enter_imm :
  exists hs, Hde64.hde64_disasm (code_of [0xc8; 0x34; 0x12; 0x01]) = Ok hs /\
    Hde64.imm hs mod 2 ^ 16 = 0x1201.
Proof. eexists. split; [vm_compute; reflexivity|reflexivity]. Qed.

(** ** Witnesses *)

Lemma hde64_disasm_local_witness :
  Hde64.hde64_disasm (code_of [0x55]) = Hde64.hde64_disasm (fun a => if a <? 32 then code_of [0x55] a else 0).
Proof. apply hde64_disasm_local. intros p Hp. by rewrite (proj2 (Z.ltb_lt p 32)) by lia. Defined.
