(* ===== verification/Disasm.v ===== *)
(** The instruction sizes Lilu needs to place a jump
    ([Disassembler::quickInstructionSize] of
    [src/Lilu/Lilu/Sources/kern_disasm.cpp]), proved against an interface of
    length disassemblers that both engines of [src/Lilu/hde] satisfy. *)
From S2P Require Import Prelude Hde HdeThm.
From stdpp Require Import prelude.
From Stdlib Require Import ZArith Lia.
Open Scope Z_scope.
Open Scope c_scope.

(** [hde_disasm]: the length and the flags of the instruction at an address. *)
Definition hde_disasm_t := mem -> Z -> res (Z * Z).

(** What a length disassembler promises. *)
Class LengthDisasm (d : hde_disasm_t) : Prop := {
  ld_length : forall m a, exists len flags, d m a = Ok (len, flags) /\ 1 <= len <= 15;
}.

Definition hde64_at : hde_disasm_t := fun m a =>
  let! hs := Hde64.hde64_disasm (fun p => m (a + p)) in Ok (Hde64.len hs, Hde64.flags hs).

Definition hde32_at : hde_disasm_t := fun m a =>
  let! hs := Hde32.hde32_disasm (fun p => m (a + p)) in Ok (Hde32.len hs, Hde32.flags hs).

#[export] Instance hde64_length : LengthDisasm hde64_at.
Proof.
  split. intros m a. unfold hde64_at. destruct (hde64_ok (fun p => m (a + p))) as (hs & -> & Hl & _).
  eexists _, _. split; [reflexivity|done].
Qed.

#[export] Instance hde32_length : LengthDisasm hde32_at.
Proof.
  split. intros m a. unfold hde32_at. destruct (hde32_ok (fun p => m (a + p))) as (hs & -> & Hl & _).
  eexists _, _. split; [reflexivity|done].
Qed.

Section quick.
Context (d : hde_disasm_t).

(** The loop of [quickInstructionSize]: at least one iteration, until [min]
    bytes are covered; 0 on a decoding failure. *)
Fixpoint quick_loop (fuel : nat) (m : mem) (addr total min : Z) : res Z :=
  match fuel with
  | O => NoFuel
  | S fuel =>
      let! '(len, flags) := d m addr in
      if truth (flags .& F_ERROR) then Ok 0
      else
        let total := u64 (total + len) in
        if total <? min then quick_loop fuel m (u64 (addr + len)) total min else Ok total
  end.

(** Every iteration covers at least one byte. *)
Definition quickInstructionSize (m : mem) (addr min : Z) : res Z :=
  quick_loop (S (Z.to_nat min)) m addr 0 min.

(** [n] is the length of whole instructions from [addr] on, none of them
    rejected, the last of which reaches [min]. *)
Inductive covers (m : mem) : Z -> Z -> Z -> Prop :=
  | covers_last addr min len flags :
      d m addr = Ok (len, flags) -> truth (flags .& F_ERROR) = false -> min <= len ->
      covers m addr min len
  | covers_more addr min len flags n :
      d m addr = Ok (len, flags) -> truth (flags .& F_ERROR) = false -> len < min ->
      covers m (u64 (addr + len)) (min - len) n -> covers m addr min (len + n).

(** [blocked addr min]: before [min] bytes are reached, an instruction comes that
    is rejected. *)
Inductive blocked (m : mem) : Z -> Z -> Prop :=
  | blocked_here addr min len flags :
      d m addr = Ok (len, flags) -> truth (flags .& F_ERROR) = true -> blocked m addr min
  | blocked_later addr min len flags :
      d m addr = Ok (len, flags) -> truth (flags .& F_ERROR) = false -> len < min ->
      blocked m (u64 (addr + len)) (min - len) -> blocked m addr min.

Lemma covers_not_blocked m addr min n : covers m addr min n -> ~ blocked m addr min.
Proof.
  induction 1 as [addr min len flags E Ef Hl|addr min len flags n E Ef Hl _ IH];
    intros Hb; inversion Hb as [? ? ? ? E' Ef'|? ? ? ? E' Ef' Hl' Hb']; subst;
    rewrite E in E'; injection E' as <- <-; congruence || lia || done.
Qed.

Context {Hd : LengthDisasm d}.

Lemma covers_pos m addr min n : covers m addr min n -> 1 <= n.
Proof using Hd.
  induction 1 as [addr ? ? ? E|addr ? ? ? ? E]; destruct (ld_length m addr) as (? & ? & E' & ?);
    rewrite E in E'; injection E' as <- <-; lia.
Qed.

Lemma quick_loop_ok fuel m addr total min :
  0 <= total -> min <= 2 ^ 32 -> total <= min -> min - total < Z.of_nat fuel ->
  (blocked m addr (min - total) /\ quick_loop fuel m addr total min = Ok 0) \/
  exists n, quick_loop fuel m addr total min = Ok (total + n) /\ covers m addr (min - total) n /\
    min <= total + n /\ 1 <= n <= Z.max 1 (min - total) + 14.
Proof using Hd.
  revert addr total. induction fuel as [|fuel IH]; intros addr total Ht Hm Hle Hf; [lia|].
  cbn [quick_loop]. destruct (ld_length m addr) as (len & flags & E & Hl). rewrite E. cbn [rbind].
  destruct (truth (flags .& F_ERROR)) eqn:Ef; [left; split; [by eapply blocked_here|done]|]. rewrite (wrap_small 64 (total + len)) by lia.
  destruct (Z.ltb_spec (total + len) min).
  - destruct (IH (u64 (addr + len)) (total + len)) as [[Hb ->]|(n & -> & Hc & ? & ?)]; [lia..| |];
      replace (min - (total + len)) with (min - total - len) in * by lia.
    { left. split; [|done]. eapply blocked_later; [done..|lia|done]. }
    right. exists (len + n). split_and!; try lia; [f_equal; lia|]. eapply covers_more; [done..|lia|done].
  - right. exists len. split_and!; try lia; [done|]. eapply covers_last; [done..|lia].
Qed.

Lemma quick_size m addr min :
  0 <= min <= 2 ^ 32 ->
  (blocked m addr min /\ quickInstructionSize m addr min = Ok 0) \/
  exists n, quickInstructionSize m addr min = Ok n /\ covers m addr min n /\
    min <= n <= Z.max 1 min + 14.
Proof using Hd.
  intros Hm. destruct (quick_loop_ok (S (Z.to_nat min)) m addr 0 min) as [?|(n & ? & Hc & ? & ?)];
    [lia..|left|right; exists n]; rewrite Z.sub_0_r in *; [done|]. split_and!; done || lia.
Qed.
End quick.

(** C33: with any disassembler that keeps the interface and a minimum of at most
    2^32 bytes, [quickInstructionSize] terminates.  It returns 0 exactly when,
    before [min] bytes are reached, an instruction comes that the disassembler
    rejects; otherwise it returns the total length of the accepted instructions
    that follow one another from the address on, the last of them the one that
    reaches [min]: at least [min] and less than 15 bytes more. *)
Theorem quickInstructionSize_correct (d : hde_disasm_t) {Hd : LengthDisasm d} m addr min :
  0 <= min <= 2 ^ 32 ->
  (blocked d m addr min /\ quickInstructionSize d m addr min = Ok 0) \/
  (~ blocked d m addr min /\
   exists n, quickInstructionSize d m addr min = Ok n /\ covers d m addr min n /\ 1 <= n /\
     min <= n <= Z.max 1 min + 14).
Proof.
  intros Hm. destruct (quick_size d m addr min Hm) as [H|(n & E & Hc & Hn)]; [by left|right].
  split; [by eapply covers_not_blocked|]. exists n. split_and!; try done; try lia. by eapply covers_pos.
Qed.

(** ** Witness: a prologue of three instructions *)

Definition prologue : mem := code_of [0x55; 0x48; 0x89; 0xe5; 0x48; 0x83; 0xec; 0x28].

Lemma quickInstructionSize_correct_witness :
  quickInstructionSize hde64_at prologue 0 5 = Ok 8 /\ covers hde64_at prologue 0 5 8.
Proof.
  assert (quickInstructionSize hde64_at prologue 0 5 = Ok 8) as E by (vm_compute; reflexivity).
  split; [exact E|].
  destruct (quickInstructionSize_correct hde64_at prologue 0 5) as [[_ E0]|(_ & n & En & Hc & _)].
  - split; discriminate.
  - rewrite E in E0. discriminate E0.
  - rewrite E in En. injection En as <-. exact Hc.
Defined.
