(* ===== verification/Printf.v ===== *)
(** Text as C code makes it: character codes, the integer conversions of
    [printf], and reading printed numbers back.  Shared by the printers of
    Capstone and by the reports of the sanitizer runtime. *)
From Stdlib Require Import Ascii String.
From S2P Require Import Prelude.
From Stdlib Require Import ZArith Lia.
From stdpp Require Import prelude.
Open Scope Z_scope.
Open Scope c_scope.

(** Character codes of a literal. *)
Definition str (s : string) : list Z := map (fun c => Z.of_N (N_of_ascii c)) (list_ascii_of_string s).

(** ** Conversions *)

(** The digits of [n] in base [base], least significant first. *)
Fixpoint digits (fuel : nat) (base n : Z) : list Z :=
  match fuel with
  | O => []
  | S fuel => n mod base :: (if n / base =? 0 then [] else digits fuel base (n / base))
  end.

(** [0]-[9], [a]-[f]. *)
Definition digit_char (d : Z) : Z := if d <? 10 then 48 + d else 87 + d.

(** [%u] and [%x] (and the 64-bit forms) of an unsigned value. *)
Definition pr_u (n : Z) : list Z := rev (map digit_char (digits 64 10 n)).
Definition pr_x (n : Z) : list Z := rev (map digit_char (digits 64 16 n)).

(** ** Reading printed numbers back *)

Definition char_digit (base c : Z) : option Z :=
  let d := if (48 <=? c) && (c <? 58) then c - 48 else c - 87 in
  if (0 <=? d) && (d <? base) then Some d else None.

Fixpoint read_digits (base acc : Z) (l : list Z) : option Z :=
  match l with
  | [] => Some acc
  | c :: l => match char_digit base c with
              | Some d => read_digits base (acc * base + d) l
              | None => None
              end
  end.

(** An optional sign, then hexadecimal after [0x], decimal otherwise. *)
Definition read_unsigned (l : list Z) : option Z :=
  match l with
  | 48 :: 120 :: l => read_digits 16 0 l
  | _ => read_digits 10 0 l
  end.
Definition read_int (l : list Z) : option Z :=
  match l with
  | 45 :: l => option_map Z.opp (read_unsigned l)
  | _ => read_unsigned l
  end.

Lemma read_snoc base acc l c :
  read_digits base acc (l ++ [c]) =
  match read_digits base acc l, char_digit base c with
  | Some v, Some d => Some (v * base + d)
  | _, _ => None
  end.
Proof.
  revert acc. induction l as [|x l IH]; intros acc; cbn [read_digits app]; [by destruct (char_digit base c)|].
  destruct (char_digit base x); [apply IH|done].
Qed.

Lemma digit_roundtrip base d : 0 <= d < base -> base <= 16 -> char_digit base (digit_char d) = Some d.
Proof.
  intros Hd Hb. unfold char_digit, digit_char. destruct (Z.ltb_spec d 10).
  - rewrite (proj2 (Z.leb_le 48 _)), (proj2 (Z.ltb_lt _ 58)) by lia. cbn [andb].
    replace (48 + d - 48) with d by lia. by rewrite (proj2 (Z.leb_le 0 d)), (proj2 (Z.ltb_lt d base)) by lia.
  - rewrite (proj2 (Z.ltb_ge (87 + d) 58)), andb_false_r by lia.
    replace (87 + d - 87) with d by lia. by rewrite (proj2 (Z.leb_le 0 d)), (proj2 (Z.ltb_lt d base)) by lia.
Qed.

Lemma read_printed fuel base n :
  2 <= base <= 16 -> 0 <= n < base ^ Z.of_nat fuel ->
  read_digits base 0 (rev (map digit_char (digits fuel base n))) = Some n.
Proof.
  intros Hb. revert n. induction fuel as [|fuel IH]; intros n Hn; [simpl in *; f_equal; lia|].
  rewrite Nat2Z.inj_succ, Z.pow_succ_r in Hn by lia. cbn [digits map rev]. rewrite read_snoc.
  rewrite digit_roundtrip by (try apply Z.mod_pos_bound; lia).
  destruct (Z.eqb_spec (n / base) 0) as [E|E].
  - cbn [map rev read_digits]. f_equal. pose proof (Z.div_mod n base). lia.
  - rewrite IH by (split; [apply Z.div_pos; lia|apply Z.div_lt_upper_bound; lia]).
    f_equal. pose proof (Z.div_mod n base). lia.
Qed.

Lemma read_x n : 0 <= n < 2 ^ 64 -> read_digits 16 0 (pr_x n) = Some n.
Proof.
  intros. apply (read_printed 64); [lia|]. assert (2 ^ 64 < 16 ^ Z.of_nat 64) by (vm_compute; done). lia.
Qed.

(** One decimal digit. *)
Lemma pr_u_small n : 0 <= n <= 9 -> pr_u n = [48 + n].
Proof.
  intros Hn. unfold pr_u. cbn [digits]. rewrite Z.div_small, Z.mod_small by lia. cbn.
  unfold digit_char. by rewrite (proj2 (Z.ltb_lt n 10)) by lia.
Qed.

Lemma read_hex n : 0 <= n < 2 ^ 64 -> read_unsigned (str "0x" ++ pr_x n) = Some n.
Proof. intros. by apply read_x. Qed.

Lemma read_small n : 0 <= n <= 9 -> read_unsigned (pr_u n) = Some n /\ read_int (pr_u n) = Some n.
Proof.
  intros Hn. rewrite pr_u_small by done. by range_cases n 0 10%nat.
Qed.


(** [%d] (and the 64-bit form) of a signed value. *)
Definition pr_d (n : Z) : list Z := if n <? 0 then 45 :: pr_u (- n) else pr_u n.

Lemma read_u n : 0 <= n < 2 ^ 64 -> read_digits 10 0 (pr_u n) = Some n.
Proof.
  intros. apply (read_printed 64); [lia|]. assert (2 ^ 64 < 10 ^ Z.of_nat 64) by (vm_compute; done). lia.
Qed.

(** A decimal text has no [x], so it is not taken for a hexadecimal one. *)
Lemma digits_decimal fuel n : 0 <= n -> Forall (fun c => 48 <= c < 58) (map digit_char (digits fuel 10 n)).
Proof.
  revert n. induction fuel as [|fuel IH]; intros n Hn; [constructor|]. cbn [digits map]. constructor.
  - pose proof (Z.mod_pos_bound n 10 ltac:(lia)). unfold digit_char. case_cmp; lia.
  - destruct (n / 10 =? 0); [constructor|]. apply IH. apply Z.div_pos; lia.
Qed.

Lemma read_unsigned_decimal l :
  Forall (fun c => 48 <= c < 58) l -> read_unsigned l = read_digits 10 0 l /\ read_int l = read_unsigned l.
Proof.
  intros H. destruct l as [|c l]; [done|]. apply Forall_cons in H as [Hc H].
  assert (match l with [] => True | d :: _ => 48 <= d < 58 end) as Hd.
  { destruct l; [done|]. by apply Forall_cons in H as [? _]. }
  split; range_cases c 48 10%nat; try done.
  destruct l as [|d l]; [done|]. by range_cases d 48 10%nat.
Qed.

Lemma pr_u_decimal n : 0 <= n -> Forall (fun c => 48 <= c < 58) (pr_u n).
Proof. intros. unfold pr_u. apply Forall_rev, digits_decimal. done. Qed.

Lemma read_pr_u n : 0 <= n < 2 ^ 64 -> read_int (pr_u n) = Some n.
Proof.
  intros Hn. destruct (read_unsigned_decimal (pr_u n)) as [E1 E2]; [apply pr_u_decimal; lia|].
  rewrite E2, E1. by apply read_u.
Qed.

Lemma read_pr_d n : - 2 ^ 63 <= n < 2 ^ 63 -> read_int (pr_d n) = Some n.
Proof.
  intros Hn. unfold pr_d. destruct (Z.ltb_spec n 0); [|apply read_pr_u; lia].
  cbn [read_int]. destruct (read_unsigned_decimal (pr_u (- n))) as [E1 _]; [apply pr_u_decimal; lia|].
  rewrite E1, read_u by lia. simpl. f_equal. lia.
Qed.
