(* ===== verification/SStream.v ===== *)
(** The text buffer of Capstone ([src/Lilu/capstone/SStream.c]) and the number
    printers over it.

    The buffer is a list of 512 character codes; a write past it faults.
    [cs_vsnprintf] (the C library's [vsnprintf]) is modelled on the text the
    format produces: at most [size - 1] characters and a terminator are stored,
    and the length of the whole text is returned.  The model is of the
    configuration without [CAPSTONE_DIET]. *)
From Stdlib Require Import Ascii String.
From S2P Require Import Prelude Printf.
From Stdlib Require Import ZArith Lia.
From stdpp Require Import prelude.
Open Scope Z_scope.
Open Scope c_scope.

Definition buffer_size : Z := 512.

Record SStream := mk_ss {
  buffer : list Z;
  index : Z;
}.

(** [buffer[i] = l[0]; buffer[i + 1] = l[1]; ...]. *)
Fixpoint store (b : list Z) (i : Z) (l : list Z) : res (list Z) :=
  match l with
  | [] => Ok b
  | c :: l =>
      if (0 <=? i) && (i <? Z.of_nat (length b)) then store (<[Z.to_nat i := c]> b) (i + 1) l
      else Fault
  end.

Definition SStream_Init (ss : SStream) : res SStream :=
  let! b := store (buffer ss) 0 [0] in Ok (mk_ss b 0).

(** [s] is the string without its terminator. *)
Definition SStream_concat0 (ss : SStream) (s : list Z) : res SStream :=
  let len := u32 (Z.of_nat (length s)) in
  let! b := store (buffer ss) (index ss) s in
  let index := sext 32 (index ss + len) in
  let! b := store b index [0] in
  Ok (mk_ss b index).

(** [vsnprintf(buf + i, size, fmt, ...)] where the format produces [text]. *)
Definition cs_vsnprintf (b : list Z) (i size : Z) (text : list Z) : res (list Z * Z) :=
  let! b := if size =? 0 then Ok b else store b i (take (Z.to_nat (size - 1)) text ++ [0]) in
  Ok (b, Z.of_nat (length text)).

Definition SStream_concat (ss : SStream) (text : list Z) : res SStream :=
  let! '(b, ret) := cs_vsnprintf (buffer ss) (index ss) (u64 (buffer_size - (index ss + 1))) text in
  Ok (mk_ss b (sext 32 (index ss + ret))).

(** ** Printers *)

Definition HEX_THRESHOLD : Z := 9.
Definition LONG_MIN : Z := - 2 ^ 63.
Definition INT_MIN : Z := - 2 ^ 31.

(** The texts of the printers. *)
Definition text_int64 (pre : list Z) (val : Z) : list Z :=
  if 0 <=? val then
    if HEX_THRESHOLD <? val then pre ++ str "0x" ++ pr_x (u64 val)
    else pre ++ pr_u (u64 val)
  else
    if val <? - HEX_THRESHOLD then
      if val =? LONG_MIN then pre ++ str "-0x" ++ pr_x (u64 val)
      else pre ++ str "-0x" ++ pr_x (u64 (- val))
    else pre ++ str "-" ++ pr_u (u64 (- val)).

Definition text_int32 (pre : list Z) (val : Z) : list Z :=
  if 0 <=? val then
    if HEX_THRESHOLD <? val then pre ++ str "0x" ++ pr_x (u32 val)
    else pre ++ pr_u (u32 val)
  else
    if val <? - HEX_THRESHOLD then
      if val =? INT_MIN then pre ++ str "-0x" ++ pr_x (u32 val)
      else pre ++ str "-0x" ++ pr_x (u32 (- val))
    else pre ++ str "-" ++ pr_u (u32 (- val)).

Definition text_uint (pre : list Z) (val : Z) : list Z :=
  if HEX_THRESHOLD <? val then pre ++ str "0x" ++ pr_x val else pre ++ pr_u val.

Definition printInt64Bang (O : SStream) (val : Z) : res SStream := SStream_concat O (text_int64 (str "#") val).
Definition printUInt64Bang (O : SStream) (val : Z) : res SStream := SStream_concat O (text_uint (str "#") val).
Definition printInt64 (O : SStream) (val : Z) : res SStream := SStream_concat O (text_int64 [] val).

Definition text_int32_dec (val : Z) : list Z :=
  if 0 <=? val then str "#" ++ pr_u (u32 val)
  else if val =? INT_MIN then str "#-" ++ pr_u (u32 val)
  else str "#-" ++ pr_u (u32 (- val)).

Definition printInt32BangDec (O : SStream) (val : Z) : res SStream := SStream_concat O (text_int32_dec val).
Definition printInt32Bang (O : SStream) (val : Z) : res SStream := SStream_concat O (text_int32 (str "#") val).
Definition printInt32 (O : SStream) (val : Z) : res SStream := SStream_concat O (text_int32 [] val).
Definition printUInt32Bang (O : SStream) (val : Z) : res SStream := SStream_concat O (text_uint (str "#") val).
Definition printUInt32 (O : SStream) (val : Z) : res SStream := SStream_concat O (text_uint [] val).

(** ** Appending *)

(** The text in the buffer. *)
Record holds (ss : SStream) (text : list Z) : Prop := {
  ho_len : length (buffer ss) = 512%nat;
  ho_index : index ss = Z.of_nat (length text);
  ho_fits : (length text < 512)%nat;
  ho_text : take (S (length text)) (buffer ss) = text ++ [0];
}.

Lemma store_ok b i l :
  0 <= i -> i + Z.of_nat (length l) <= Z.of_nat (length b) ->
  store b i l = Ok (take (Z.to_nat i) b ++ l ++ drop (Z.to_nat i + length l) b).
Proof.
  revert b i. induction l as [|c l IH]; intros b i Hi Hl; cbn [store length] in *.
  - by rewrite Nat.add_0_r, app_nil_l, take_drop.
  - rewrite (proj2 (Z.leb_le 0 i)), (proj2 (Z.ltb_lt i _)) by lia. cbn [andb].
    rewrite IH by (rewrite ?length_insert; lia). f_equal.
    replace (Z.to_nat (i + 1)) with (S (Z.to_nat i)) by lia.
    rewrite (take_S_r _ _ c) by (apply list_lookup_insert_eq; lia).
    rewrite take_insert_ge, drop_insert_lt, <- app_assoc by lia. simpl. do 4 f_equal. lia.
Qed.

Lemma store_fault b i l :
  0 <= i -> Z.of_nat (length b) < i + Z.of_nat (length l) -> (0 < length l)%nat -> store b i l = Fault.
Proof.
  revert b i. induction l as [|c l IH]; intros b i Hi Hl Hp; cbn [store length] in *; [lia|].
  destruct (Z.leb_spec 0 i), (Z.ltb_spec i (Z.of_nat (length b))); cbn [andb]; try done.
  apply IH; rewrite ?length_insert; lia.
Qed.

Lemma append_ok ss text s :
  holds ss text -> (length text + length s < 512)%nat ->
  exists b, store (buffer ss) (index ss) (s ++ [0]) = Ok b /\ length b = 512%nat /\
    take (S (length (text ++ s))) b = (text ++ s) ++ [0].
Proof.
  intros [Hl Hi Hf Ht] Hs. rewrite store_ok by (rewrite ?length_app; simpl; lia).
  eexists. split; [done|]. rewrite Hi, Nat2Z.id.
  assert (take (length text) (buffer ss) = text) as E.
  { replace (length text) with (Nat.min (length text) (S (length text))) by lia.
    rewrite <- take_take, Ht. apply take_app_length. }
  rewrite E. split.
  - rewrite !length_app, length_drop. simpl. lia.
  - rewrite (app_assoc text), (app_assoc text s). apply take_app_length'.
    rewrite !length_app. simpl. lia.
Qed.

Lemma store_app b i l1 l2 :
  store b i (l1 ++ l2) = let! b := store b i l1 in store b (i + Z.of_nat (length l1)) l2.
Proof.
  revert b i. induction l1 as [|c l1 IH]; intros b i; cbn [store app length rbind].
  - by rewrite Z.add_0_r.
  - destruct (_ && _); [|done]. rewrite IH. apply rbind_ext. intros b'. f_equal. lia.
Qed.

Lemma sext_index i : 0 <= i < 2 ^ 31 -> sext 32 i = i.
Proof. intros. unfold sext. rewrite u32_small by lia. by rewrite (proj2 (Z.ltb_lt _ _)) by lia. Qed.

Lemma concat0_ok ss text s :
  holds ss text -> (length text + length s < 512)%nat ->
  exists ss', SStream_concat0 ss s = Ok ss' /\ holds ss' (text ++ s).
Proof.
  intros Hh Hs. pose proof Hh as [Hl Hi Hf Ht]. unfold SStream_concat0.
  rewrite u32_small, sext_index by lia.
  destruct (append_ok ss text s Hh Hs) as (b & Hb & Hbl & Hbt). rewrite store_app in Hb.
  destruct (store (buffer ss) (index ss) s) as [b1| |]; cbn [rbind] in *; try done.
  rewrite Hb. cbn [rbind]. eexists. split; [done|].
  constructor; cbn [buffer index]; [done|rewrite length_app; lia|rewrite length_app; lia|done].
Qed.

Lemma concat_ok ss text s :
  holds ss text -> (length text + length s < 511)%nat ->
  exists ss', SStream_concat ss s = Ok ss' /\ holds ss' (text ++ s).
Proof.
  intros Hh Hs. pose proof Hh as [Hl Hi Hf Ht]. unfold SStream_concat, cs_vsnprintf, buffer_size.
  rewrite (wrap_small 64) by lia. rewrite (proj2 (Z.eqb_neq _ 0)) by lia. rewrite take_ge by lia.
  destruct (append_ok ss text s Hh ltac:(lia)) as (b & -> & Hbl & Hbt). cbn [rbind].
  rewrite sext_index by lia. eexists. split; [done|].
  constructor; cbn [buffer index]; [done|rewrite length_app; lia|rewrite length_app; lia|done].
Qed.

(** As long as the text fits, [SStream_concat0] and [SStream_concat] append
    exactly the given text and keep the buffer terminated, with the index at the
    terminator. *)
Theorem SStream_append ss text s :
  holds ss text ->
  ((length text + length s < 512)%nat ->
   exists ss', SStream_concat0 ss s = Ok ss' /\ holds ss' (text ++ s)) /\
  ((length text + length s < 511)%nat ->
   exists ss', SStream_concat ss s = Ok ss' /\ holds ss' (text ++ s)).
Proof. intros Hh. split; intros Hs; [by apply concat0_ok|by apply concat_ok]. Qed.

(** A formatted text that does not fit moves the index past the buffer,
    because [vsnprintf] returns the length of the whole text; the next
    [SStream_concat0] of a non-empty string then writes out of bounds. *)
Theorem SStream_overrun ss text s t :
  holds ss text -> (length text < 510)%nat -> 512 <= Z.of_nat (length text + length s) < 2 ^ 31 -> t <> [] ->
  exists ss', SStream_concat ss s = Ok ss' /\ 512 <= index ss' /\ SStream_concat0 ss' t = Fault.
Proof.
  intros Hh Hn Hs Ht. pose proof Hh as [Hl Hi Hf Htx]. unfold SStream_concat, cs_vsnprintf, buffer_size.
  rewrite (wrap_small 64) by lia. rewrite (proj2 (Z.eqb_neq _ 0)) by lia.
  rewrite store_ok by (rewrite ?length_app, ?length_take; simpl; lia). cbn [rbind].
  rewrite sext_index by lia. eexists. split; [done|]. cbn [index]. split; [lia|].
  unfold SStream_concat0. cbn [buffer index]. rewrite store_fault; [done|lia| |].
  - rewrite !length_app, !length_take, length_drop. destruct t; [done|]. simpl. lia.
  - destruct t; [done|simpl; lia].
Qed.

(** What each printer's text reads back as, for a magnitude [n]. *)
Lemma read_text_uint n : 0 <= n < 2 ^ 64 -> read_int (text_uint [] n) = Some n.
Proof.
  intros Hn. unfold text_uint, HEX_THRESHOLD. destruct (Z.ltb_spec 9 n); cbn [app].
  - exact (read_hex n Hn).
  - apply read_small. lia.
Qed.

Lemma read_negative n : 0 <= n < 2 ^ 64 -> read_int (str "-0x" ++ pr_x n) = Some (- n).
Proof. intros. change (option_map Z.opp (read_unsigned (str "0x" ++ pr_x n)) = Some (- n)). by rewrite read_hex. Qed.

Lemma text_int64_read val : - 2 ^ 63 <= val < 2 ^ 63 -> read_int (text_int64 [] val) = Some val.
Proof.
  intros Hv. unfold text_int64, HEX_THRESHOLD, LONG_MIN. cbn [app]. destruct (Z.leb_spec 0 val).
  - rewrite (wrap_small 64) by lia. apply (read_text_uint val). lia.
  - destruct (Z.ltb_spec val (- (9))).
    + destruct (Z.eqb_spec val (- 2 ^ 63)) as [->|]; [by rewrite read_negative|].
      rewrite (wrap_small 64), read_negative by lia. f_equal. lia.
    + change (option_map Z.opp (read_unsigned (pr_u (u64 (- val)))) = Some val).
      rewrite (wrap_small 64), (proj1 (read_small (- val) ltac:(lia))) by lia. simpl. f_equal. lia.
Qed.

Lemma text_int32_read val : - 2 ^ 31 <= val < 2 ^ 31 -> read_int (text_int32 [] val) = Some val.
Proof.
  intros Hv. unfold text_int32, HEX_THRESHOLD, INT_MIN. cbn [app]. destruct (Z.leb_spec 0 val).
  - rewrite u32_small by lia. apply (read_text_uint val). lia.
  - destruct (Z.ltb_spec val (- (9))).
    + destruct (Z.eqb_spec val (- 2 ^ 31)) as [->|]; [by rewrite read_negative|].
      rewrite u32_small, read_negative by lia. f_equal. lia.
    + change (option_map Z.opp (read_unsigned (pr_u (u32 (- val)))) = Some val).
      rewrite u32_small, (proj1 (read_small (- val) ltac:(lia))) by lia. simpl. f_equal. lia.
Qed.

(** The number printers lose nothing: reading the printed text back (an
    optional sign, [0x] for hexadecimal) gives the printed value, for every
    signed and unsigned 32-bit and 64-bit value, the most negative ones
    included. *)
Theorem print_read_back val :
  (- 2 ^ 63 <= val < 2 ^ 63 -> read_int (text_int64 [] val) = Some val) /\
  (- 2 ^ 31 <= val < 2 ^ 31 -> read_int (text_int32 [] val) = Some val) /\
  (0 <= val < 2 ^ 64 -> read_int (text_uint [] val) = Some val).
Proof. auto using text_int64_read, text_int32_read, read_text_uint. Qed.

(** ** Witnesses *)

Definition empty_stream : SStream := mk_ss (replicate 512 0) 0.

Lemma empty_holds : holds empty_stream [].
Proof. constructor; reflexivity || (simpl; lia). Qed.

Lemma SStream_append_witness :
  exists ss', SStream_concat0 empty_stream (str "rax, ") = Ok ss' /\ holds ss' (str "rax, ").
Proof. apply (SStream_append empty_stream [] (str "rax, ") empty_holds). simpl. lia. Defined.

Lemma SStream_overrun_witness :
  exists ss', SStream_concat empty_stream (replicate 600 65) = Ok ss' /\ 512 <= index ss' /\
    SStream_concat0 ss' (str ",") = Fault.
Proof. apply (SStream_overrun empty_stream [] (replicate 600 65) (str ",") empty_holds); simpl; try lia; done. Defined.

Lemma print_read_back_witness : read_int (text_int64 [] (- 2 ^ 63)) = Some (- 2 ^ 63).
Proof. apply (print_read_back (- 2 ^ 63)). lia. Defined.
