(* ===== verification/McInst.v ===== *)
(** Capstone's low-level instructions ([src/Lilu/capstone/MCInst.c]): operands
    as tagged unions in a fixed array of 48, the last slot of which doubles as
    a scratch operand, and the operations that build the operand list.  The
    operand flags of [MCInstrDesc.c] are here too.

    An operand pointer is either outside the instruction or a slot of its array
    ([Slot]): [MCInst_insert0] reads the operand after it has moved the array,
    so the aliasing matters.  Accesses outside the array fault. *)
From S2P Require Import Prelude.
From stdpp Require Import prelude.
From Stdlib Require Import ZArith Lia.
Open Scope Z_scope.
Open Scope c_scope.

Inductive MachineOperandType := kInvalid | kRegister | kImmediate | kFPImmediate.

#[export] Instance kind_eq_dec : EqDecision MachineOperandType.
Proof. solve_decision. Defined.

(** [bits] are the 64 bits of the union of [RegVal], [ImmVal], [FPImmVal]. *)
Record MCOperand := mk_operand {
  Kind : MachineOperandType;
  bits : Z;
}.

#[export] Instance operand_eq_dec : EqDecision MCOperand.
Proof. solve_decision. Defined.

(** The fields the operations of the file touch. *)
Record MCInst := mk_inst {
  OpcodePub : Z;
  size : Z;
  has_imm : bool;
  op1_size : Z;
  Opcode : Z;
  Operands : list MCOperand;
  writeback : bool;
}.

Definition with_ops (inst : MCInst) (sz : Z) (ops : list MCOperand) : MCInst :=
  mk_inst (OpcodePub inst) sz (has_imm inst) (op1_size inst) (Opcode inst) ops (writeback inst).

Definition oget (l : list MCOperand) (i : Z) : res MCOperand :=
  if 0 <=? i then match l !! Z.to_nat i with Some op => Ok op | None => Fault end else Fault.
Definition oset (l : list MCOperand) (i : Z) (op : MCOperand) : res (list MCOperand) :=
  if (0 <=? i) && (i <? Z.of_nat (length l)) then Ok (<[Z.to_nat i := op]> l) else Fault.

(** ** Operands *)

Definition MCOperand_Init (op : MCOperand) : MCOperand := mk_operand kInvalid 0.
Definition MCOperand_isValid (op : MCOperand) : bool := negb (bool_decide (Kind op = kInvalid)).
Definition MCOperand_isReg (op : MCOperand) : bool := bool_decide (Kind op = kRegister).
Definition MCOperand_isImm (op : MCOperand) : bool := bool_decide (Kind op = kImmediate).
Definition MCOperand_isFPImm (op : MCOperand) : bool := bool_decide (Kind op = kFPImmediate).

(** [RegVal] is the low half of the union, which is all a store to it changes. *)
Definition MCOperand_getReg (op : MCOperand) : Z := u32 (bits op).
Definition MCOperand_setReg (op : MCOperand) (Reg : Z) : MCOperand :=
  mk_operand (Kind op) (bits op / 2 ^ 32 * 2 ^ 32 + u32 Reg).
Definition MCOperand_getImm (op : MCOperand) : Z := sext 64 (bits op).
Definition MCOperand_setImm (op : MCOperand) (Val : Z) : MCOperand := mk_operand (Kind op) (u64 Val).

(** A double is its 64 bits. *)
Definition MCOperand_getFPImm (op : MCOperand) : Z := bits op.
Definition MCOperand_setFPImm (op : MCOperand) (Val : Z) : MCOperand := mk_operand (Kind op) (u64 Val).

Definition set_kind (op : MCOperand) (kd : MachineOperandType) : MCOperand := mk_operand kd (bits op).

(** ** Instructions *)

Definition MCInst_Init (inst : MCInst) : MCInst :=
  mk_inst 0 0 false 0 0 (map (fun op => set_kind op kInvalid) (take 48 (Operands inst))) false.

Definition MCInst_clear (inst : MCInst) : MCInst := with_ops inst 0 (Operands inst).

Definition MCInst_setOpcode (inst : MCInst) (Op : Z) : MCInst :=
  mk_inst (OpcodePub inst) (size inst) (has_imm inst) (op1_size inst) Op (Operands inst) (writeback inst).
Definition MCInst_setOpcodePub (inst : MCInst) (Op : Z) : MCInst :=
  mk_inst Op (size inst) (has_imm inst) (op1_size inst) (Opcode inst) (Operands inst) (writeback inst).
Definition MCInst_getOpcode (inst : MCInst) : Z := Opcode inst.
Definition MCInst_getOpcodePub (inst : MCInst) : Z := OpcodePub inst.
Definition MCInst_getOperand (inst : MCInst) (i : Z) : res MCOperand := oget (Operands inst) i.
Definition MCInst_getNumOperands (inst : MCInst) : Z := size inst.

(** A pointer to an operand. *)
Inductive operand_ptr :=
  | Local (op : MCOperand)
  | Slot (i : Z).

Definition deref (l : list MCOperand) (p : operand_ptr) : res MCOperand :=
  match p with Local op => Ok op | Slot i => oget l i end.

(** [for (i = size; i > index; i--) Operands[i] = Operands[i - 1]], with [n]
    iterations left. *)
Fixpoint shift_up (n : nat) (l : list MCOperand) (index : Z) : res (list MCOperand) :=
  match n with
  | O => Ok l
  | S n' =>
      let! op := oget l (index + Z.of_nat n - 1) in
      let! l := oset l (index + Z.of_nat n) op in
      shift_up n' l index
  end.

Definition MCInst_insert0 (inst : MCInst) (index : Z) (Op : operand_ptr) : res MCInst :=
  let! l := shift_up (Z.to_nat (size inst - index)) (Operands inst) index in
  let! op := deref l Op in
  let! l := oset l index op in
  Ok (with_ops inst (u8 (size inst + 1)) l).

Definition MCInst_addOperand2 (inst : MCInst) (Op : operand_ptr) : res MCInst :=
  let! op := deref (Operands inst) Op in
  let! l := oset (Operands inst) (size inst) op in
  Ok (with_ops inst (u8 (size inst + 1)) l).

Definition MCINST_CACHE : Z := 47.

(** Operands made in the next slot ([0]) or in the scratch slot ([1]). *)
Definition MCOperand_CreateReg0 (inst : MCInst) (Reg : Z) : res MCInst :=
  let! op := oget (Operands inst) (size inst) in
  let! l := oset (Operands inst) (size inst) (MCOperand_setReg (set_kind op kRegister) Reg) in
  Ok (with_ops inst (u8 (size inst + 1)) l).

Definition MCOperand_CreateImm0 (inst : MCInst) (Val : Z) : res MCInst :=
  let! op := oget (Operands inst) (size inst) in
  let! l := oset (Operands inst) (size inst) (MCOperand_setImm (set_kind op kImmediate) Val) in
  Ok (with_ops inst (u8 (size inst + 1)) l).

Definition MCOperand_CreateReg1 (inst : MCInst) (Reg : Z) : res (MCInst * operand_ptr) :=
  let! op := oget (Operands inst) MCINST_CACHE in
  let! l := oset (Operands inst) MCINST_CACHE (MCOperand_setReg (set_kind op kRegister) Reg) in
  Ok (with_ops inst (size inst) l, Slot MCINST_CACHE).

Definition MCOperand_CreateImm1 (inst : MCInst) (Val : Z) : res (MCInst * operand_ptr) :=
  let! op := oget (Operands inst) MCINST_CACHE in
  let! l := oset (Operands inst) MCINST_CACHE (MCOperand_setImm (set_kind op kImmediate) Val) in
  Ok (with_ops inst (size inst) l, Slot MCINST_CACHE).

(** Operand flags of [MCInstrDesc.c]. *)
Definition MCOI_Predicate : Z := 1.
Definition MCOI_OptionalDef : Z := 2.
Definition MCOperandInfo_isPredicate (Flags : Z) : bool := truth (Flags .& (1 .<< MCOI_Predicate)).
Definition MCOperandInfo_isOptionalDef (Flags : Z) : bool := truth (Flags .& (1 .<< MCOI_OptionalDef)).

(** ** The operand list *)

Record inst_ok (inst : MCInst) : Prop := {
  io_array : length (Operands inst) = 48%nat;
  io_size : 0 <= size inst <= 48;
}.

Definition operands (inst : MCInst) : list MCOperand := take (Z.to_nat (size inst)) (Operands inst).

Lemma oset_ok l i op : 0 <= i < Z.of_nat (length l) -> oset l i op = Ok (<[Z.to_nat i := op]> l).
Proof. intros. unfold oset. by rewrite (proj2 (Z.leb_le _ _)), (proj2 (Z.ltb_lt _ _)) by lia. Qed.

Lemma oget_ok l i : 0 <= i < Z.of_nat (length l) -> exists op, oget l i = Ok op /\ l !! Z.to_nat i = Some op.
Proof.
  intros. unfold oget. rewrite (proj2 (Z.leb_le _ _)) by lia.
  destruct (lookup_lt_is_Some_2 l (Z.to_nat i)) as [op E]; [lia|]. rewrite E. eauto.
Qed.

(** The shift, as lists: everything from [index] on moves up by one. *)
Lemma shift_up_ok n l i :
  (i + n < length l)%nat ->
  exists l', shift_up n l (Z.of_nat i) = Ok l' /\ length l' = length l /\
    take i l' = take i l /\
    (forall k, (i <= k < i + n)%nat -> l' !! S k = l !! k) /\
    (forall k, (i + n < k)%nat -> l' !! k = l !! k).
Proof.
  revert l. induction n as [|n IH]; intros l Hl; cbn [shift_up].
  - exists l. split_and!; try done. intros; lia.
  - destruct (oget_ok l (Z.of_nat i + Z.of_nat (S n) - 1)) as (op & -> & Hop); [lia|]. cbn [rbind].
    rewrite oset_ok by lia. cbn [rbind].
    replace (Z.to_nat (Z.of_nat i + Z.of_nat (S n))) with (S (i + n)) by lia.
    replace (Z.to_nat (Z.of_nat i + Z.of_nat (S n) - 1)) with (i + n)%nat in Hop by lia.
    set (l1 := <[S (i + n) := op]> l).
    destruct (IH l1) as (l' & -> & Hlen & Htk & Hsh & Hup); [unfold l1; rewrite length_insert; lia|].
    assert (length l1 = length l) as E1 by apply length_insert.
    exists l'. split_and!; [done|lia| | |].
    + rewrite Htk. unfold l1. apply take_insert_ge. lia.
    + intros k Hk. destruct (decide (k = i + n)%nat) as [->|].
      * rewrite Hup by lia. unfold l1. rewrite list_lookup_insert_eq by lia. done.
      * rewrite Hsh by lia. unfold l1. by rewrite list_lookup_insert_ne by lia.
    + intros k Hk. rewrite Hup by lia. unfold l1. by rewrite list_lookup_insert_ne by lia.
Qed.

(** The pointer outlives the move: outside the array, or a slot past the list. *)
Definition survives (inst : MCInst) (p : operand_ptr) : Prop :=
  match p with Local _ => True | Slot i => size inst < i < 48 end.

Lemma insert0_ok inst index Op op :
  inst_ok inst -> 0 <= index <= size inst -> size inst < 48 ->
  survives inst Op -> deref (Operands inst) Op = Ok op ->
  exists inst', MCInst_insert0 inst index Op = Ok inst' /\ inst_ok inst' /\
    size inst' = size inst + 1 /\
    operands inst' = take (Z.to_nat index) (operands inst) ++ op :: drop (Z.to_nat index) (operands inst).
Proof.
  intros [Ha Hs] Hi Hlt Hsv Hd. unfold MCInst_insert0.
  set (i := Z.to_nat index). set (n := Z.to_nat (size inst - index)).
  replace index with (Z.of_nat i) by lia.
  destruct (shift_up_ok n (Operands inst) i) as (l & -> & Hl & Htk & Hsh & Hup); [lia|]. cbn [rbind].
  assert (deref l Op = Ok op) as ->.
  { destruct Op as [o|j]; simpl in *; [done|]. unfold oget in *. rewrite (proj2 (Z.leb_le 0 j)) in * by lia.
    by rewrite Hup by lia. }
  cbn [rbind]. rewrite oset_ok by lia. cbn [rbind]. rewrite Nat2Z.id. eexists. split; [done|].
  rewrite u8_small by lia. cbn [with_ops size]. split_and!; try done.
  - constructor; cbn [with_ops Operands size]; [by rewrite length_insert, Hl|lia].
  - unfold operands. cbn [with_ops Operands size]. apply list_eq. intros k.
    replace (Z.to_nat (size inst + 1)) with (S (Z.to_nat (size inst))) by lia.
    destruct (decide (k < S (Z.to_nat (size inst))))%nat as [Hk|Hk].
    2: { rewrite !lookup_ge_None_2; [done| |]; rewrite ?length_app, ?length_take, ?length_insert;
         cbn [length]; rewrite ?length_drop, ?length_take; lia. }
    rewrite lookup_take_lt by lia. destruct (decide (k = i)) as [->|].
    { rewrite list_lookup_insert_eq by lia. rewrite list_lookup_middle; [done|].
      rewrite !length_take. lia. }
    rewrite list_lookup_insert_ne by done. destruct (decide (k < i))%nat.
    + rewrite lookup_app_l by (rewrite !length_take; lia). rewrite !lookup_take_lt by lia.
      rewrite <- (lookup_take_lt l i k), Htk, lookup_take_lt by lia. done.
    + rewrite lookup_app_r by (rewrite !length_take; lia). rewrite !length_take.
      replace (k - Nat.min i (Nat.min (Z.to_nat (size inst)) (length (Operands inst))))%nat
        with (S (k - 1 - i)) by lia.
      match goal with |- context [(?o :: ?d) !! S ?j] => change ((o :: d) !! S j) with (d !! j) end.
      rewrite lookup_drop, lookup_take_lt by lia. replace (i + (k - 1 - i))%nat with (k - 1)%nat by lia.
      replace k with (S (k - 1)) at 1 by lia. apply Hsh. lia.
Qed.

(** [MCInst_insert0] inserts the operand before position [index] of the
    operand list and keeps the other operands in order, for an operand outside
    the instruction or in a slot past the list, while the array has room. *)
Theorem MCInst_insert0_correct inst index Op op :
  inst_ok inst -> 0 <= index <= size inst -> size inst < 48 ->
  survives inst Op -> deref (Operands inst) Op = Ok op ->
  exists inst', MCInst_insert0 inst index Op = Ok inst' /\ inst_ok inst' /\
    size inst' = size inst + 1 /\
    operands inst' = take (Z.to_nat index) (operands inst) ++ op :: drop (Z.to_nat index) (operands inst).
Proof. apply insert0_ok. Qed.

Lemma append_slot inst op :
  inst_ok inst -> size inst < 48 ->
  exists l, oset (Operands inst) (size inst) op = Ok l /\
    inst_ok (with_ops inst (u8 (size inst + 1)) l) /\
    operands (with_ops inst (u8 (size inst + 1)) l) = operands inst ++ [op].
Proof.
  intros [Ha Hs] Hlt. rewrite oset_ok by lia. eexists. split; [done|]. rewrite u8_small by lia. split.
  - constructor; cbn [with_ops Operands size]; [by rewrite length_insert|lia].
  - unfold operands. cbn [with_ops Operands size].
    replace (Z.to_nat (size inst + 1)) with (S (Z.to_nat (size inst))) by lia.
    rewrite (take_S_r _ _ op) by (apply list_lookup_insert_eq; lia). by rewrite take_insert_ge by lia.
Qed.

Lemma getReg_setReg op Reg : MCOperand_getReg (MCOperand_setReg op Reg) = u32 Reg.
Proof.
  unfold MCOperand_getReg, MCOperand_setReg, bits. rewrite Z.add_comm. unfold wrap at 1.
  rewrite Z.mod_add by lia. apply wrap_wrap. lia.
Qed.

Lemma getImm_setImm op Val : - 2 ^ 63 <= Val < 2 ^ 63 -> MCOperand_getImm (MCOperand_setImm op Val) = Val.
Proof.
  intros Hv. unfold MCOperand_getImm, MCOperand_setImm, bits, sext. rewrite wrap_wrap by lia.
  unfold wrap. destruct (Z.ltb_spec Val 0).
  - replace (Val mod 2 ^ 64) with (Val + 2 ^ 64).
    + rewrite (proj2 (Z.ltb_ge _ _)) by lia. lia.
    + rewrite <- (Z.mod_add Val 1), Z.mod_small by lia. lia.
  - rewrite Z.mod_small, (proj2 (Z.ltb_lt _ _)) by lia. done.
Qed.

(** The builders append: while the array has room, [MCOperand_CreateReg0],
    [MCOperand_CreateImm0] and [MCInst_addOperand2] add exactly one operand at
    the end of the list, of the right kind and with the value that the readers
    [MCOperand_getReg] and [MCOperand_getImm] return. *)
Theorem MCInst_builders_append inst Reg Val op :
  inst_ok inst -> size inst < 48 -> - 2 ^ 63 <= Val < 2 ^ 63 ->
  (exists i1 o1, MCOperand_CreateReg0 inst Reg = Ok i1 /\ inst_ok i1 /\ operands i1 = operands inst ++ [o1] /\
     MCOperand_isReg o1 = true /\ MCOperand_getReg o1 = u32 Reg) /\
  (exists i2 o2, MCOperand_CreateImm0 inst Val = Ok i2 /\ inst_ok i2 /\ operands i2 = operands inst ++ [o2] /\
     MCOperand_isImm o2 = true /\ MCOperand_getImm o2 = Val) /\
  (exists i3, MCInst_addOperand2 inst (Local op) = Ok i3 /\ inst_ok i3 /\ operands i3 = operands inst ++ [op]).
Proof.
  intros Hi Hlt Hv. pose proof Hi as [Ha Hs].
  destruct (oget_ok (Operands inst) (size inst)) as (o & Eo & _); [lia|].
  unfold MCOperand_CreateReg0, MCOperand_CreateImm0, MCInst_addOperand2. rewrite Eo. cbn [rbind deref].
  split_and!.
  - destruct (append_slot inst (MCOperand_setReg (set_kind o kRegister) Reg) Hi Hlt) as (l & -> & ? & ?).
    eexists _, _. split_and!; [done..|apply getReg_setReg].
  - destruct (append_slot inst (MCOperand_setImm (set_kind o kImmediate) Val) Hi Hlt) as (l & -> & ? & ?).
    eexists _, _. split_and!; [done..|by apply getImm_setImm].
  - destruct (append_slot inst op Hi Hlt) as (l & -> & ? & ?). eexists. split_and!; done.
Qed.

(** An operand made by [MCOperand_CreateReg1] lives in the last slot of the
    array.  With 47 operands in the list, [MCInst_insert0] moves the last one
    into that slot before it reads it: the instruction gets a second copy of
    its last operand instead of the register. *)
Theorem MCInst_insert0_scratch inst Reg index :
  inst_ok inst -> size inst = 47 -> 0 <= index < 47 ->
  exists inst1 p inst', MCOperand_CreateReg1 inst Reg = Ok (inst1, p) /\
    MCInst_insert0 inst1 index p = Ok inst' /\
    operands inst' !! Z.to_nat index = Operands inst !! 46%nat.
Proof.
  intros [Ha Hs] Hsz Hi. unfold MCOperand_CreateReg1, MCINST_CACHE.
  destruct (oget_ok (Operands inst) 47) as (o & -> & _); [lia|]. cbn [rbind]. rewrite oset_ok by lia. cbn [rbind].
  set (l0 := <[Z.to_nat 47 := _]> (Operands inst)).
  assert (length l0 = 48%nat) as Hl0 by (unfold l0; by rewrite length_insert).
  destruct (shift_up_ok (Z.to_nat (47 - index)) l0 (Z.to_nat index)) as (l & Esh & Hl & _ & Hsh & _); [lia|].
  destruct (oget_ok l 47) as (op & Eop & Hop); [lia|].
  exists (with_ops inst (size inst) l0), (Slot 47), (with_ops inst (u8 (47 + 1)) (<[Z.to_nat index := op]> l)).
  split_and!; [done| |].
  - unfold MCInst_insert0. cbn [with_ops size Operands]. rewrite Hsz.
    rewrite Z2Nat.id in Esh by lia. rewrite Esh. cbn [rbind deref]. rewrite Eop. cbn [rbind].
    by rewrite oset_ok by lia.
  - unfold operands. cbn [with_ops Operands size]. change (u8 (47 + 1)) with 48. rewrite lookup_take_lt by lia.
    rewrite list_lookup_insert_eq, <- Hop by lia.
    change (Z.to_nat 47) with (S 46). rewrite Hsh by lia. unfold l0. apply list_lookup_insert_ne. lia.
Qed.

(** ** Witnesses *)

Definition blank_inst : MCInst := mk_inst 0 0 false 0 0 (replicate 48 (mk_operand kInvalid 0)) false.

Lemma blank_inst_ok : inst_ok blank_inst.
Proof. constructor; [reflexivity|]. cbn. lia. Qed.

Definition two_regs : MCInst :=
  match MCOperand_CreateReg0 blank_inst 35 with
  | Ok i => match MCOperand_CreateReg0 i 36 with Ok i => i | _ => blank_inst end
  | _ => blank_inst
  end.

Lemma MCInst_insert0_correct_witness :
  exists inst', MCInst_insert0 two_regs 1 (Local (mk_operand kImmediate 7)) = Ok inst' /\
    operands inst' = [mk_operand kRegister 35; mk_operand kImmediate 7; mk_operand kRegister 36].
Proof.
  destruct (MCInst_insert0_correct two_regs 1 (Local (mk_operand kImmediate 7)) (mk_operand kImmediate 7))
    as (inst' & E & _ & _ & H).
  - constructor; [reflexivity|]. vm_compute. split; discriminate.
  - vm_compute. split; discriminate.
  - reflexivity.
  - exact I.
  - reflexivity.
  - exists inst'. split; [exact E|]. rewrite H. reflexivity.
Defined.

Lemma MCInst_builders_append_witness :
  exists i2 o2, MCOperand_CreateImm0 two_regs (-5) = Ok i2 /\ MCOperand_getImm o2 = -5.
Proof.
  destruct (MCInst_builders_append two_regs 1 (-5) (mk_operand kInvalid 0)) as (_ & (i2 & o2 & E & _ & _ & _ & H) & _).
  - constructor; [reflexivity|]. vm_compute. split; discriminate.
  - reflexivity.
  - lia.
  - exists i2, o2. split; [exact E|exact H].
Defined.

Definition full_inst : MCInst := mk_inst 0 47 false 0 0 (replicate 47 (mk_operand kImmediate 9) ++ [mk_operand kInvalid 0]) false.

Lemma MCInst_insert0_scratch_witness :
  exists inst1 p inst', MCOperand_CreateReg1 full_inst 35 = Ok (inst1, p) /\
    MCInst_insert0 inst1 0 p = Ok inst' /\ operands inst' !! 0%nat = Some (mk_operand kImmediate 9).
Proof.
  apply (MCInst_insert0_scratch full_inst 35 0).
  - constructor; [reflexivity|]. vm_compute. split; discriminate.
  - reflexivity.
  - lia.
Defined.
