(* ===== verification/McReg.v ===== *)
(** Capstone's register tables ([src/Lilu/capstone/MCRegisterInfo.c]): walking
    the differentially encoded lists of sub- and super-registers, and register
    classes as bit sets.

    The generated tables are arguments, lists read with bounds checks; a read
    outside a table faults. *)
From S2P Require Import Prelude.
From stdpp Require Import prelude.
From Stdlib Require Import ZArith Lia.
Open Scope Z_scope.
Open Scope c_scope.

(** The fields of classes and descriptors that the functions below read. *)
Record MCRegisterClass := mk_class {
  RegSet : list Z;
  RegSetSize : Z;
}.

Record MCRegisterDesc := mk_desc {
  SubRegs : Z;
  SuperRegs : Z;
  SubRegIndices : Z;
}.

Record MCRegisterInfo := mk_info {
  Desc : list MCRegisterDesc;
  NumRegs : Z;
  RAReg : Z;
  PCReg : Z;
  Classes : list MCRegisterClass;
  NumClasses : Z;
  NumRegUnits : Z;
  RegUnitRoots : list (Z * Z);
  DiffLists : list Z;
  RegStrings : list Z;
  SubRegIndexTable : list Z;
  NumSubRegIndices : Z;
  RegEncodingTable : list Z;
}.

Definition MCRegisterInfo_InitMCRegisterInfo (D : list MCRegisterDesc) (NR RA PC : Z)
    (C : list MCRegisterClass) (NC : Z) (RURoots : list (Z * Z)) (NRU : Z) (DL Strings SubIndices : list Z)
    (NumIndices : Z) (RET : list Z) : MCRegisterInfo :=
  mk_info D NR RA PC C NC NRU RURoots DL Strings SubIndices NumIndices RET.

(** [l[i]]. *)
Definition get {A} (l : list A) (i : Z) : res A :=
  if 0 <=? i then match l !! Z.to_nat i with Some x => Ok x | None => Fault end else Fault.

(** [List] is an offset into the table of differences, [None] for the null
    pointer. *)
Record DiffListIterator := mk_iter {
  Val : Z;
  List : option Z;
}.

Definition DiffListIterator_init (InitVal DiffList : Z) : DiffListIterator := mk_iter InitVal (Some DiffList).
Definition DiffListIterator_getVal (d : DiffListIterator) : Z := Val d.
Definition DiffListIterator_isValid (d : DiffListIterator) : bool :=
  match List d with Some _ => true | None => false end.

Definition DiffListIterator_next (DL : list Z) (d : DiffListIterator) : res (DiffListIterator * bool) :=
  match List d with
  | None => Ok (d, false)
  | Some p =>
      let! D := get DL p in
      Ok (mk_iter (u16 (Val d + D)) (if truth D then Some (p + 1) else None), truth D)
  end.

Definition MCRegisterClass_contains (c : MCRegisterClass) (Reg : Z) : res bool :=
  let InByte := Reg mod 8 in
  let Byte := Reg / 8 in
  if RegSetSize c <=? Byte then Ok false
  else
    let! v := get (RegSet c) Byte in
    Ok (truth (v .& (1 .<< InByte))).

Fixpoint sub_loop (fuel : nat) (RI : MCRegisterInfo) (iter : DiffListIterator) (SRI Idx : Z) : res Z :=
  if DiffListIterator_isValid iter then
    match fuel with
    | O => NoFuel
    | S fuel =>
        let! x := get (SubRegIndexTable RI) SRI in
        if x =? Idx then Ok (DiffListIterator_getVal iter)
        else
          let! '(iter, _) := DiffListIterator_next (DiffLists RI) iter in
          sub_loop fuel RI iter (SRI + 1) Idx
    end
  else Ok 0.

(** A list ends inside the table, so its length bounds the iterations. *)
Definition walk_fuel (RI : MCRegisterInfo) : nat := S (length (DiffLists RI)).

Definition MCRegisterInfo_getSubReg (RI : MCRegisterInfo) (Reg Idx : Z) : res Z :=
  let! d := get (Desc RI) Reg in
  let iter := DiffListIterator_init (u16 Reg) (SubRegs d) in
  let! '(iter, _) := DiffListIterator_next (DiffLists RI) iter in
  sub_loop (walk_fuel RI) RI iter (SubRegIndices d) Idx.

Fixpoint super_loop (fuel : nat) (RI : MCRegisterInfo) (iter : DiffListIterator) (Reg SubIdx : Z)
    (RC : MCRegisterClass) : res Z :=
  if DiffListIterator_isValid iter then
    match fuel with
    | O => NoFuel
    | S fuel =>
        let val := DiffListIterator_getVal iter in
        let! inclass := MCRegisterClass_contains RC val in
        let! found :=
          if inclass then let! s := MCRegisterInfo_getSubReg RI val SubIdx in Ok (Reg =? s) else Ok false in
        if found then Ok val
        else
          let! '(iter, _) := DiffListIterator_next (DiffLists RI) iter in
          super_loop fuel RI iter Reg SubIdx RC
    end
  else Ok 0.

Definition MCRegisterInfo_getMatchingSuperReg (RI : MCRegisterInfo) (Reg SubIdx : Z) (RC : MCRegisterClass)
  : res Z :=
  if NumRegs RI <=? Reg then Ok 0
  else
    let! d := get (Desc RI) Reg in
    let iter := DiffListIterator_init (u16 Reg) (SuperRegs d) in
    let! '(iter, _) := DiffListIterator_next (DiffLists RI) iter in
    super_loop (walk_fuel RI) RI iter Reg SubIdx RC.

Definition MCRegisterInfo_getRegClass (RI : MCRegisterInfo) (i : Z) : res (option MCRegisterClass) :=
  if NumClasses RI <=? i then Ok None
  else let! c := get (Classes RI) i in Ok (Some c).

(** ** Difference lists as register lists *)

(** The registers of a zero-terminated list of differences from [v]. *)
Fixpoint regs_of (v : Z) (l : list Z) : option (list Z) :=
  match l with
  | [] => None
  | D :: l => if D =? 0 then Some [] else option_map (cons (u16 (v + D))) (regs_of (u16 (v + D)) l)
  end.

Lemma get_lookup {A} (l : list A) i x : 0 <= i -> l !! Z.to_nat i = Some x -> get l i = Ok x.
Proof. intros Hi E. unfold get. by rewrite (proj2 (Z.leb_le 0 i)), E by lia. Qed.

Section walk.
Context (RI : MCRegisterInfo).

(** The iterator stands before the registers [rs]: it is at the first of them,
    or done. *)
Inductive stands : DiffListIterator -> list Z -> Prop :=
  | stands_done v : stands (mk_iter v None) []
  | stands_at v p rs :
      0 <= p -> regs_of v (drop (Z.to_nat p) (DiffLists RI)) = Some rs ->
      stands (mk_iter v (Some p)) (v :: rs).

Lemma regs_next v p rs :
  0 <= p -> regs_of v (drop (Z.to_nat p) (DiffLists RI)) = Some rs ->
  exists it b, DiffListIterator_next (DiffLists RI) (mk_iter v (Some p)) = Ok (it, b) /\ stands it rs.
Proof using Type.
  intros Hp Hr. unfold DiffListIterator_next. cbn [List Val].
  destruct (drop (Z.to_nat p) (DiffLists RI)) as [|D l] eqn:E; [done|]. cbn [regs_of] in Hr.
  assert (DiffLists RI !! Z.to_nat p = Some D) as HD.
  { rewrite <- (Nat.add_0_r (Z.to_nat p)), <- lookup_drop, E. done. }
  rewrite (get_lookup _ _ D) by done. cbn [rbind]. unfold truth.
  destruct (Z.eqb_spec D 0) as [->|]; cbn [negb].
  - injection Hr as <-. eexists _, _. split; [done|]. constructor.
  - destruct (regs_of (u16 (v + D)) l) as [rs'|] eqn:Er; [|done]. injection Hr as <-.
    eexists _, _. split; [done|]. constructor; [lia|].
    replace (Z.to_nat (p + 1)) with (Z.to_nat p + 1)%nat by lia. rewrite <- drop_drop, E. done.
Qed.

Lemma regs_of_length v l rs : regs_of v l = Some rs -> (length rs < length l)%nat.
Proof using Type.
  revert v rs. induction l as [|D l IH]; intros v rs H; [done|]. cbn [regs_of] in H.
  destruct (D =? 0); [by injection H as <-; simpl; lia|].
  destruct (regs_of (u16 (v + D)) l) eqn:E; [|done]. injection H as <-. apply IH in E. simpl. lia.
Qed.

(** First register whose index is [Idx]. *)
Fixpoint find_sub (rs idxs : list Z) (Idx : Z) : Z :=
  match rs, idxs with
  | r :: rs, x :: idxs => if x =? Idx then r else find_sub rs idxs Idx
  | _, _ => 0
  end.

Lemma sub_loop_ok fuel it rs SRI Idx :
  stands it rs -> (length rs <= fuel)%nat -> 0 <= SRI ->
  (Z.to_nat SRI + length rs <= length (SubRegIndexTable RI))%nat ->
  sub_loop fuel RI it SRI Idx = Ok (find_sub rs (drop (Z.to_nat SRI) (SubRegIndexTable RI)) Idx).
Proof using Type.
  revert it rs SRI. induction fuel as [|fuel IH]; intros it rs SRI Hs Hf H0 Hl.
  - destruct Hs; simpl in *; [done|lia].
  - destruct Hs as [v|v p rs Hp Hr]; cbn [sub_loop DiffListIterator_isValid List]; [done|].
    cbn [length] in *.
    destruct (lookup_lt_is_Some_2 (SubRegIndexTable RI) (Z.to_nat SRI)) as [x Hx]; [lia|].
    rewrite (get_lookup _ _ x) by done. cbn [rbind]. rewrite (drop_S _ x _ Hx). cbn [find_sub].
    destruct (x =? Idx); [done|]. destruct (regs_next v p rs Hp Hr) as (it & b & -> & Hit). cbn [rbind].
    rewrite (IH it rs) by (done || lia). by replace (Z.to_nat (SRI + 1)) with (S (Z.to_nat SRI)) by lia.
Qed.

(** The sub-registers of [Reg], by the tables. *)
Definition sub_regs (Reg : Z) (d : MCRegisterDesc) : option (list Z) :=
  regs_of (u16 Reg) (drop (Z.to_nat (SubRegs d)) (DiffLists RI)).

(** The tables describe register [Reg] completely. *)
Record reg_ok (Reg : Z) (d : MCRegisterDesc) (rs : list Z) : Prop := {
  ro_reg : 0 <= Reg;
  ro_desc : Desc RI !! Z.to_nat Reg = Some d;
  ro_off : 0 <= SubRegs d;
  ro_subs : sub_regs Reg d = Some rs;
  ro_idx : 0 <= SubRegIndices d;
  ro_idxs : (Z.to_nat (SubRegIndices d) + length rs <= length (SubRegIndexTable RI))%nat;
}.

Definition spec_sub (d : MCRegisterDesc) (rs : list Z) (Idx : Z) : Z :=
  find_sub rs (drop (Z.to_nat (SubRegIndices d)) (SubRegIndexTable RI)) Idx.

Lemma walk_fuel_enough v p rs :
  regs_of v (drop p (DiffLists RI)) = Some rs -> (length rs <= walk_fuel RI)%nat.
Proof using Type. intros H%regs_of_length. rewrite length_drop in H. unfold walk_fuel. lia. Qed.

Lemma getSubReg_ok Reg d rs Idx :
  reg_ok Reg d rs -> MCRegisterInfo_getSubReg RI Reg Idx = Ok (spec_sub d rs Idx).
Proof using Type.
  intros []. unfold MCRegisterInfo_getSubReg. rewrite (get_lookup _ _ d) by done. cbn [rbind].
  unfold DiffListIterator_init.
  destruct (regs_next (u16 Reg) (SubRegs d) rs ro_off0 ro_subs0) as (it & b & -> & Hit). cbn [rbind].
  apply sub_loop_ok; try done. by eapply walk_fuel_enough.
Qed.

Definition class_has (RC : MCRegisterClass) (Reg : Z) : bool :=
  (Reg / 8 <? RegSetSize RC) && Z.testbit (nth (Z.to_nat (Reg / 8)) (RegSet RC) 0) (Reg mod 8).

Lemma contains_ok RC Reg :
  0 <= Reg -> RegSetSize RC <= Z.of_nat (length (RegSet RC)) ->
  MCRegisterClass_contains RC Reg = Ok (class_has RC Reg).
Proof using Type.
  intros Hr Hsz. unfold MCRegisterClass_contains, class_has.
  assert (0 <= Reg / 8) by (apply Z.div_pos; lia).
  destruct (Z.leb_spec (RegSetSize RC) (Reg / 8)).
  - by rewrite (proj2 (Z.ltb_ge _ _)) by lia.
  - rewrite (proj2 (Z.ltb_lt _ _)) by lia. cbn [andb].
    destruct (lookup_lt_is_Some_2 (RegSet RC) (Z.to_nat (Reg / 8))) as [v Hv]; [lia|].
    rewrite (get_lookup _ _ v) by done. cbn [rbind]. rewrite (nth_lookup_Some _ _ _ v Hv).
    pose proof (Z.mod_pos_bound Reg 8 ltac:(lia)).
    rewrite Z.shiftl_mul_pow2, Z.mul_1_l, truth_pow2_testbit by lia. done.
Qed.
End walk.

(** [MCRegisterInfo_getSubReg] terminates without reading outside the tables
    and returns, of the sub-registers the difference list encodes, the first
    one whose index in the parallel table is [Idx], or 0 when there is none. *)
Theorem getSubReg_correct RI Reg d rs Idx :
  reg_ok RI Reg d rs -> MCRegisterInfo_getSubReg RI Reg Idx = Ok (spec_sub RI d rs Idx).
Proof. apply getSubReg_ok. Qed.

Section super.
Context (RI : MCRegisterInfo) (Reg SubIdx : Z) (RC : MCRegisterClass).
Hypothesis (Hset : RegSetSize RC <= Z.of_nat (length (RegSet RC))).

(** [r] is a super-register the search accepts. *)
Definition matches (r : Z) : Prop :=
  class_has RC r = true /\ exists d rs, reg_ok RI r d rs /\ spec_sub RI d rs SubIdx = Reg.

Lemma super_loop_ok fuel it ss :
  stands RI it ss -> (length ss <= fuel)%nat ->
  Forall (fun r => 0 <= r /\ exists d rs, reg_ok RI r d rs) ss ->
  exists r, super_loop fuel RI it Reg SubIdx RC = Ok r /\
    ((r ∈ ss /\ matches r) \/ (r = 0 /\ Forall (fun s => ~ matches s) ss)).
Proof using Hset.
  revert it ss. induction fuel as [|fuel IH]; intros it ss Hs Hf Hok.
  - destruct Hs; simpl in *; [|lia]. exists 0. auto.
  - destruct Hs as [v|v p ss Hp Hr]; cbn [super_loop DiffListIterator_isValid List]; [exists 0; auto|].
    apply Forall_cons in Hok as [[Hv (d & rs & Hreg)] Hok]. cbn [length DiffListIterator_getVal Val] in *.
    rewrite contains_ok by done. cbn [rbind].
    destruct (class_has RC v) eqn:Ec.
    + rewrite (getSubReg_ok RI v d rs) by done. cbn [rbind].
      destruct (Z.eqb_spec Reg (spec_sub RI d rs SubIdx)) as [E|E].
      { exists v. split; [done|]. left. split; [left|]. split; [done|]. eauto. }
      destruct (regs_next RI v p ss Hp Hr) as (it & b & -> & Hit). cbn [rbind].
      destruct (IH it ss Hit ltac:(lia) Hok) as (r & -> & [[? ?]|[-> ?]]); eexists; (split; [done|]).
      * left. split; [by right|done].
      * right. split; [done|]. constructor; [|done]. intros (_ & d' & rs' & Hreg' & E').
        destruct Hreg, Hreg'. by simplify_eq.
    + cbn [rbind]. destruct (regs_next RI v p ss Hp Hr) as (it & b & -> & Hit). cbn [rbind].
      destruct (IH it ss Hit ltac:(lia) Hok) as (r & -> & [[? ?]|[-> ?]]); eexists; (split; [done|]).
      * left. split; [by right|done].
      * right. split; [done|]. constructor; [|done]. intros [? _]. congruence.
Qed.

Lemma getMatchingSuperReg_ok d ss :
  0 <= Reg < NumRegs RI -> Desc RI !! Z.to_nat Reg = Some d -> 0 <= SuperRegs d ->
  regs_of (u16 Reg) (drop (Z.to_nat (SuperRegs d)) (DiffLists RI)) = Some ss ->
  Forall (fun r => 0 <= r /\ exists d rs, reg_ok RI r d rs) ss ->
  exists r, MCRegisterInfo_getMatchingSuperReg RI Reg SubIdx RC = Ok r /\
    ((r ∈ ss /\ matches r) \/ (r = 0 /\ Forall (fun s => ~ matches s) ss)).
Proof using Hset.
  intros HR Hd H0 Hss Hok. unfold MCRegisterInfo_getMatchingSuperReg.
  rewrite (proj2 (Z.leb_gt _ _)), (get_lookup _ _ d) by (done || lia). cbn [rbind].
  unfold DiffListIterator_init. destruct (regs_next RI (u16 Reg) (SuperRegs d) ss H0 Hss) as (it & b & -> & Hit).
  cbn [rbind]. apply super_loop_ok; [done| |done]. by eapply walk_fuel_enough.
Qed.
End super.

(** [MCRegisterInfo_getMatchingSuperReg] is a complete search: over tables
    that describe the super-registers of [Reg], it terminates and returns a
    super-register that is in the class and has [Reg] as its [SubIdx]
    sub-register, or 0 when no super-register has both properties. *)
Theorem getMatchingSuperReg_correct RI Reg SubIdx RC d ss :
  RegSetSize RC <= Z.of_nat (length (RegSet RC)) ->
  0 <= Reg < NumRegs RI -> Desc RI !! Z.to_nat Reg = Some d -> 0 <= SuperRegs d ->
  regs_of (u16 Reg) (drop (Z.to_nat (SuperRegs d)) (DiffLists RI)) = Some ss ->
  Forall (fun r => 0 <= r /\ exists d rs, reg_ok RI r d rs) ss ->
  exists r, MCRegisterInfo_getMatchingSuperReg RI Reg SubIdx RC = Ok r /\
    ((r ∈ ss /\ matches RI Reg SubIdx RC r) \/ (r = 0 /\ Forall (fun s => ~ matches RI Reg SubIdx RC s) ss)).
Proof. intros. by eapply getMatchingSuperReg_ok. Qed.

(** ** Witnesses: three registers, 1 is the low half of 2, 2 of 3 *)

Definition demo_info : MCRegisterInfo :=
  MCRegisterInfo_InitMCRegisterInfo
    [mk_desc 0 0 0; mk_desc 0 1 0; mk_desc 4 2 0; mk_desc 5 0 0] 4 0 0
    [mk_class [0xff] 1] 1 [] 0 [0; 1; 1; 0; 65535; 65535; 0] [] [7; 8; 8] 3 [].

Lemma getSubReg_correct_witness : MCRegisterInfo_getSubReg demo_info 3 7 = Ok 2.
Proof.
  rewrite (getSubReg_correct demo_info 3 (mk_desc 5 0 0) [2] 7); [reflexivity|].
  constructor; reflexivity || (cbn; lia).
Defined.

Lemma getMatchingSuperReg_correct_witness :
  exists r, MCRegisterInfo_getMatchingSuperReg demo_info 2 7 (mk_class [0xff] 1) = Ok r /\
    ((r ∈ [3] /\ matches demo_info 2 7 (mk_class [0xff] 1) r) \/
     (r = 0 /\ Forall (fun s => ~ matches demo_info 2 7 (mk_class [0xff] 1) s) [3])).
Proof.
  apply (getMatchingSuperReg_correct demo_info 2 7 (mk_class [0xff] 1) (mk_desc 4 2 0) [3]).
  - cbn. lia.
  - cbn. lia.
  - reflexivity.
  - cbn. lia.
  - reflexivity.
  - apply Forall_singleton. split; [lia|]. exists (mk_desc 5 0 0), [2]. constructor; reflexivity || (cbn; lia).
Defined.
