(* ===== verification/CsUtils.v ===== *)
(** Capstone's helpers ([src/Lilu/capstone/utils.c]): the instruction id cache,
    name lookup, counting and string duplication.

    [cs_mem_malloc] is a function pointer the client installs: it is an argument
    that gives the contents of the new block, or [None] for NULL.  The cache is
    a list of 16-bit entries; accesses outside it, or through NULL, fault. *)
From S2P Require Import Prelude.
From stdpp Require Import prelude.
From Stdlib Require Import ZArith Lia.
Open Scope Z_scope.
Open Scope c_scope.

Record insn_map := mk_insn { id : Z; mapid : Z }.

Definition malloc_t := Z -> option (list Z).

(** [insns[i].id]. *)
Definition insn_id (insns : list insn_map) (i : Z) : res Z :=
  if 0 <=? i then match insns !! Z.to_nat i with Some x => Ok (id x) | None => Fault end else Fault.

Definition cache_set (c : list Z) (i v : Z) : res (list Z) :=
  if (0 <=? i) && (i <? Z.of_nat (length c)) then Ok (<[Z.to_nat i := v]> c) else Fault.
Definition cache_get (c : list Z) (i : Z) : res Z :=
  if 0 <=? i then match c !! Z.to_nat i with Some x => Ok x | None => Fault end else Fault.

(** [for (i = 1; i < size; i++) cache[insns[i].id] = i], [i] an unsigned short. *)
Fixpoint fill (fuel : nat) (insns : list insn_map) (i size : Z) (c : list Z) : res (list Z) :=
  if i <? size then
    match fuel with
    | O => NoFuel
    | S fuel =>
        let! x := insn_id insns i in
        let! c := cache_set c x i in
        fill fuel insns (u16 (i + 1)) size c
    end
  else Ok c.

(** Sizes are in entries of the cache. *)
Definition make_id2insn (malloc : malloc_t) (insns : list insn_map) (size : Z) : res (list Z) :=
  let! max_id := insn_id insns (u32 (size - 1)) in
  match malloc (u16 max_id + 1) with
  | None => if 1 <? size then Fault else Ok []
  | Some cache => fill (Z.to_nat size) insns 1 size cache
  end.

Definition insn_find (malloc : malloc_t) (insns : list insn_map) (max i : Z) (cache : option (list Z))
  : res (Z * option (list Z)) :=
  let! last := insn_id insns (u32 (max - 1)) in
  if last <? i then Ok (0, cache)
  else
    let! c := match cache with Some c => Ok c | None => make_id2insn malloc insns max end in
    let! r := cache_get c i in
    Ok (r, Some c).

(** [name2id] over pairs of an id and a name. *)
Fixpoint name2id (map : list (Z * list Z)) (name : list Z) : Z :=
  match map with
  | [] => -1
  | (x, n) :: map => if bool_decide (n = name) then x else name2id map name
  end.

(** [for (c = 0; list[c] > 0; c++)]. *)
Fixpoint count_positive (l : list Z) : res Z :=
  match l with
  | [] => Fault
  | x :: l => if 0 <? x then let! c := count_positive l in Ok (u32 (c + 1)) else Ok 0
  end.

(** [cs_strdup] of a string without its terminator. *)
Definition cs_strdup (malloc : malloc_t) (s : list Z) : option (list Z) :=
  let len := Z.of_nat (length s) + 1 in
  match malloc len with
  | None => None
  | Some b => Some ((s ++ [0]) ++ drop (Z.to_nat len) b)
  end.

(** ** The cache *)

(** A table as the comment of [make_id2insn] assumes it: the largest id last. *)
Record table_ok (insns : list insn_map) (max : Z) : Prop := {
  to_size : max = Z.of_nat (length insns);
  to_bound : 1 <= max < 65536;
  to_ids : Forall (fun x => 0 <= id x < 65536) insns;
  to_last : forall x l, last insns = Some l -> x ∈ insns -> id x <= id l;
}.

(** [malloc] gives blocks of the size asked for. *)
Definition malloc_ok (malloc : malloc_t) : Prop :=
  forall n, exists b, malloc n = Some b /\ length b = Z.to_nat n.

(** The largest index from [from] on, below [n], with the id [i]. *)
Fixpoint last_index (insns : list insn_map) (from : Z) (i : Z) : option Z :=
  match insns with
  | [] => None
  | x :: insns =>
      match last_index insns (from + 1) i with
      | Some k => Some k
      | None => if id x =? i then Some from else None
      end
  end.

(** Entry 0 of the table is never a result. *)
Definition find_spec (insns : list insn_map) (i : Z) : option Z := last_index (tail insns) 1 i.

Lemma fill_ok n insns tl i size c :
  drop (Z.to_nat i) insns = tl -> 0 <= i -> size = Z.of_nat (length insns) -> size < 65536 ->
  length tl = n -> Forall (fun x => 0 <= id x < Z.of_nat (length c)) tl ->
  exists c', fill n insns i size c = Ok c' /\ length c' = length c /\
    forall k, (k < length c)%nat ->
      c' !! k = match last_index tl i (Z.of_nat k) with Some v => Some v | None => c !! k end.
Proof.
  revert tl i c. induction n as [|n IH]; intros tl i c Htl Hi Hs Hb Hn Hf.
  - destruct tl; [|done]. apply (f_equal length) in Htl. rewrite length_drop in Htl. simpl in *.
    rewrite (proj2 (Z.ltb_ge _ _)) by lia. eauto.
  - destruct tl as [|x tl]; [done|]. apply Forall_cons in Hf as [Hx Hf].
    assert (insns !! Z.to_nat i = Some x) as Ex.
    { rewrite <- (Nat.add_0_r (Z.to_nat i)), <- lookup_drop, Htl. done. }
    apply lookup_lt_Some in Ex as Hlt. cbn [fill]. rewrite (proj2 (Z.ltb_lt _ _)) by lia.
    unfold insn_id. rewrite (proj2 (Z.leb_le 0 i)), Ex by lia. cbn [rbind].
    unfold cache_set. rewrite (proj2 (Z.leb_le 0 _)), (proj2 (Z.ltb_lt _ _)) by lia. cbn [andb rbind].
    rewrite u16_small by lia.
    destruct (IH tl (i + 1) (<[Z.to_nat (id x) := i]> c)) as (c' & -> & Hl & Hc').
    + replace (Z.to_nat (i + 1)) with (Z.to_nat i + 1)%nat by lia. by rewrite <- drop_drop, Htl.
    + lia.
    + done.
    + done.
    + simpl in Hn. lia.
    + by rewrite length_insert.
    + exists c'. rewrite length_insert in *. split_and!; [done|done|]. intros k Hk. rewrite Hc' by done.
      cbn [last_index]. destruct (last_index tl (i + 1) (Z.of_nat k)); [done|].
      destruct (Z.eqb_spec (id x) (Z.of_nat k)) as [E|E].
      * replace (Z.to_nat (id x)) with k by lia. by apply list_lookup_insert_eq.
      * apply list_lookup_insert_ne. lia.
Qed.

Lemma last_index_Some insns from i k :
  last_index insns from i = Some k ->
  from <= k /\ exists x, insns !! Z.to_nat (k - from) = Some x /\ id x = i.
Proof.
  revert from. induction insns as [|x insns IH]; intros from; cbn [last_index]; [done|].
  destruct (last_index insns (from + 1) i) as [k'|] eqn:E.
  - intros [= <-]. destruct (IH _ E) as (Hle & y & Hy & Hi). split; [lia|]. exists y.
    replace (Z.to_nat (k' - from)) with (S (Z.to_nat (k' - (from + 1)))) by lia. done.
  - destruct (Z.eqb_spec (id x) i); [|done]. intros [= <-]. split; [lia|]. exists x. by rewrite Z.sub_diag.
Qed.

(** What is found is an entry of the table, not the first one. *)
Lemma find_spec_Some insns i k :
  find_spec insns i = Some k -> 1 <= k /\ exists x, insns !! Z.to_nat k = Some x /\ id x = i.
Proof.
  intros (Hle & x & Hx & Hi)%last_index_Some. split; [lia|]. exists x. split; [|done].
  replace (Z.to_nat k) with (S (Z.to_nat (k - 1))) by lia. by rewrite <- lookup_tail.
Qed.

(** A cache that [make_id2insn] made from the block [b]. *)
Definition cache_of (insns : list insn_map) (maxid : Z) (b c : list Z) : Prop :=
  length c = Z.to_nat (maxid + 1) /\
  forall k, (k < length c)%nat ->
    c !! k = match find_spec insns (Z.of_nat k) with Some v => Some v | None => b !! k end.

Lemma table_last insns max :
  table_ok insns max -> exists l, last insns = Some l /\ insn_id insns (u32 (max - 1)) = Ok (id l) /\ 0 <= id l < 65536.
Proof.
  intros [Hs Hb Hid Hl]. destruct (last insns) as [l|] eqn:E.
  2: { apply last_None in E. subst. simpl in *. lia. }
  exists l. split; [done|]. unfold insn_id. rewrite u32_small, (proj2 (Z.leb_le 0 _)) by lia.
  replace (Z.to_nat (max - 1)) with (pred (length insns)) by lia.
  rewrite <- last_lookup, E. split; [done|].
  rewrite Forall_forall in Hid. apply Hid. by apply last_Some_elem_of.
Qed.

Lemma make_id2insn_ok malloc insns max b l :
  table_ok insns max -> last insns = Some l -> malloc (id l + 1) = Some b -> length b = Z.to_nat (id l + 1) ->
  exists c, make_id2insn malloc insns max = Ok c /\ cache_of insns (id l) b c.
Proof.
  intros Ht El Hm Hb. destruct (table_last insns max Ht) as (l' & El' & Hlast & Hrng). simplify_eq.
  unfold make_id2insn. rewrite Hlast. cbn [rbind]. rewrite u16_small, Hm by lia.
  destruct Ht as [Hs Hbd Hid Hmax]. destruct insns as [|x insns]; [done|].
  destruct (fill_ok (length insns) (x :: insns) insns 1 max b) as (c & Hc & Hlc & Hk).
  - done.
  - lia.
  - done.
  - lia.
  - done.
  - apply Forall_forall. intros y Hy. rewrite Forall_forall in Hid.
    specialize (Hid y ltac:(by right)). specialize (Hmax y l El ltac:(by right)). lia.
  - exists c. split; [|split; [congruence|by rewrite Hlc]].
    rewrite <- Hc. replace (Z.to_nat max) with (S (length insns)) by (simpl in *; lia).
    assert (forall n i c, 0 <= i -> max - i <= Z.of_nat n ->
      fill (S n) (x :: insns) i max c = fill n (x :: insns) i max c) as Hfuel.
    { clear -Hs Hbd. induction n as [|n IH]; intros i c Hi Hn; cbn [fill].
      - by rewrite (proj2 (Z.ltb_ge _ _)) by lia.
      - destruct (Z.ltb_spec i max); [|done]. apply rbind_ext. intros y. apply rbind_ext. intros c'.
        rewrite u16_small by lia. apply IH; lia. }
    apply Hfuel; simpl in *; lia.
Qed.

Lemma nth_replicate n k : nth n (replicate k 0) 0 = 0.
Proof. revert n. induction k as [|k IH]; intros [|n]; cbn; done. Qed.

(** The answer of a cache for an opcode that is not above the largest: the index
    in the table, or what the block held. *)
Definition index_of (insns : list insn_map) (b : list Z) (i : Z) : Z :=
  match find_spec insns i with Some k => k | None => nth (Z.to_nat i) b 0 end.

Lemma cache_of_get insns maxid b c i :
  cache_of insns maxid b c -> length b = Z.to_nat (maxid + 1) -> 0 <= i <= maxid -> cache_get c i = Ok (index_of insns b i).
Proof.
  intros [Hcl Hck] Hb Hi. unfold cache_get, index_of. rewrite (proj2 (Z.leb_le 0 i)), Hck, Z2Nat.id by lia.
  destruct (find_spec insns i); [done|]. destruct (lookup_lt_is_Some_2 b (Z.to_nat i)) as [x Ex]; [lia|].
  by rewrite Ex, (nth_lookup_Some _ _ _ x Ex).
Qed.

(** [insn_find] with the cache it builds is the reference search: for an id
    of the table it returns the last index, from 1 on, that has it; above the
    largest id it returns 0; and it gives the same answers when called again
    with the cache it left. *)
Theorem insn_find_correct malloc insns max i v :
  table_ok insns max -> malloc_ok malloc -> 0 <= i -> find_spec insns i = Some v ->
  (exists l, last insns = Some l /\ i <= id l) ->
  exists c, insn_find malloc insns max i None = Ok (v, Some c) /\
    insn_find malloc insns max i (Some c) = Ok (v, Some c).
Proof.
  intros Ht Hm Hi Hv (l & El & Hle). destruct (table_last insns max Ht) as (l' & El' & Hlast & Hrng). simplify_eq.
  destruct (Hm (id l + 1)) as (b & Eb & Hb).
  destruct (make_id2insn_ok malloc insns max b l Ht El Eb Hb) as (c & Hc & Hcl & Hck).
  assert (cache_get c i = Ok v) as Hg.
  { unfold cache_get. rewrite (proj2 (Z.leb_le 0 i)) by lia.
    rewrite Hck by lia. rewrite Z2Nat.id by lia. by rewrite Hv. }
  exists c. unfold insn_find. rewrite Hlast. cbn [rbind]. rewrite (proj2 (Z.ltb_ge _ _)) by lia.
  rewrite Hc. cbn [rbind]. by rewrite Hg.
Qed.

(** For an id below the largest that the table does not have, [insn_find]
    returns whatever the freshly allocated block held at that place, not 0: the
    cache comes from [cs_mem_malloc] and only the ids of the table are
    written. *)
Theorem insn_find_absent malloc insns max i b l :
  table_ok insns max -> last insns = Some l -> 0 <= i <= id l -> find_spec insns i = None ->
  malloc (id l + 1) = Some b -> length b = Z.to_nat (id l + 1) ->
  exists c, insn_find malloc insns max i None = Ok (nth (Z.to_nat i) b 0, Some c).
Proof.
  intros Ht El Hi Hv Eb Hb. destruct (table_last insns max Ht) as (l' & El' & Hlast & Hrng). simplify_eq.
  destruct (make_id2insn_ok malloc insns max b l Ht El Eb Hb) as (c & Hc & Hcl & Hck).
  exists c. unfold insn_find. rewrite Hlast. cbn [rbind]. rewrite (proj2 (Z.ltb_ge _ _)), Hc by lia. cbn [rbind].
  unfold cache_get. rewrite (proj2 (Z.leb_le 0 i)) by lia. rewrite Hck, Z2Nat.id, Hv by lia.
  destruct (lookup_lt_is_Some_2 b (Z.to_nat i)) as [x Ex]; [lia|].
  rewrite Ex, (nth_lookup_Some _ _ _ x Ex). done.
Qed.

(** [name2id] returns the id of the first entry with the name; when no entry
    has it the result is -1, where the header announces 0. *)
Theorem name2id_correct map name :
  (forall m1 x m2, map = m1 ++ (x, name) :: m2 -> Forall (fun e => e.2 <> name) m1 -> name2id map name = x) /\
  (Forall (fun e => e.2 <> name) map -> name2id map name = -1).
Proof.
  split.
  - intros m1 x m2 -> Hf. induction Hf as [|[y n] m1 Hn Hf IH]; cbn [name2id app].
    + by rewrite bool_decide_true.
    + rewrite bool_decide_false by done. exact IH.
  - intros Hf. induction Hf as [|[y n] m Hn Hf IH]; cbn [name2id]; [done|].
    by rewrite bool_decide_false by done.
Qed.

(** ** Witnesses *)

Definition demo_insns : list insn_map := [mk_insn 0 0; mk_insn 3 1; mk_insn 5 2; mk_insn 9 3].
Definition junk_malloc : malloc_t := fun n => Some (replicate (Z.to_nat n) 0xDEAD).

Lemma demo_table : table_ok demo_insns 4.
Proof.
  constructor; [done|lia|repeat constructor; cbn; lia|].
  intros x l [= <-] Hx. unfold demo_insns in Hx. set_unfold in Hx. destruct_or!; subst; cbn; lia.
Qed.

Lemma insn_find_correct_witness :
  exists c, insn_find junk_malloc demo_insns 4 5 None = Ok (2, Some c) /\
    insn_find junk_malloc demo_insns 4 5 (Some c) = Ok (2, Some c).
Proof.
  apply (insn_find_correct junk_malloc demo_insns 4 5 2 demo_table).
  - intros n. exists (replicate (Z.to_nat n) 0xDEAD). split; [reflexivity|apply length_replicate].
  - lia.
  - reflexivity.
  - exists (mk_insn 9 3). split; [reflexivity|]. cbn. lia.
Defined.

Lemma insn_find_absent_witness :
  exists c, insn_find junk_malloc demo_insns 4 7 None = Ok (0xDEAD, Some c).
Proof.
  apply (insn_find_absent junk_malloc demo_insns 4 7 (replicate 10 0xDEAD) (mk_insn 9 3) demo_table);
    try reflexivity. cbn. lia.
Defined.

Lemma name2id_correct_witness : name2id [(1, [97]); (2, [98]); (3, [97])] [97] = 1.
Proof. apply (proj1 (name2id_correct [(1, [97]); (2, [98]); (3, [97])] [97]) [] 1 [(2, [98]); (3, [97])]); [reflexivity|constructor]. Defined.
