(* ===== verification/Ubsan.v ===== *)
(** The undefined behaviour sanitizer runtime of Lilu
    ([src/Lilu/Lilu/Sources/kern_ubsan.c], in its kernel configuration with
    [PrivateHeaders/kern_ubsan.h]): the data the compiler emits, decoding of
    locations, types and numbers, the handlers and their public entry points.

    A handler runs in the monad [M] over the source locations it marks, the
    memory 128-bit operands are read from, and the log; it returns, panics with
    a message, or has undefined behaviour ([Undef]: a null pointer is
    dereferenced or an uninitialised buffer is printed).  [pData] may be null
    ([None], and [0] for a location pointer), which the assertions catch; type
    descriptors are not null. *)
From Stdlib Require Import Ascii String.
From S2P Require Import Prelude Printf.
From Stdlib Require Import ZArith Lia.
From stdpp Require Import prelude gmap.
Open Scope Z_scope.
Open Scope c_scope.

(** ** Data emitted by the compiler *)

Record CSourceLocation := mk_location {
  mFilename : option (list Z);
  mLine : Z;
  mColumn : Z;
}.

Record CTypeDescriptor := mk_type {
  mTypeKind : Z;
  mTypeInfo : Z;
  mTypeName : list Z;
}.

(** Locations are shared and written: a structure holds the address. *)
Definition location := Z.

Record COverflowData := mk_overflow { ov_loc : location; ov_type : CTypeDescriptor }.
Record CUnreachableData := mk_unreachable { ur_loc : location }.
Record CCFICheckFailData := mk_cfi { cfi_kind : Z; cfi_loc : location; cfi_type : CTypeDescriptor }.
Record CDynamicTypeCacheMissData := mk_dyn { dy_loc : location; dy_type : CTypeDescriptor; dy_info : Z; dy_kind : Z }.
Record CFunctionTypeMismatchData := mk_fun { fu_loc : location; fu_type : CTypeDescriptor }.
Record CImplicitConversionData := mk_conv {
  ic_loc : location; ic_from : CTypeDescriptor; ic_to : CTypeDescriptor; ic_kind : Z }.
Record CInvalidBuiltinData := mk_builtin { ib_loc : location; ib_kind : Z }.
Record CInvalidValueData := mk_value { iv_loc : location; iv_type : CTypeDescriptor }.
Record CNonNullArgData := mk_nonnull { na_loc : location; na_attr : location; na_index : Z }.
Record CNonNullReturnData := mk_nonnull_ret { nr_attr : location }.
Record COutOfBoundsData := mk_bounds { ob_loc : location; ob_array : CTypeDescriptor; ob_index : CTypeDescriptor }.
Record CPointerOverflowData := mk_ptr { po_loc : location }.
Record CShiftOutOfBoundsData := mk_shift { sh_loc : location; sh_lhs : CTypeDescriptor; sh_rhs : CTypeDescriptor }.
Record CTypeMismatchData := mk_mismatch {
  tm_loc : location; tm_type : CTypeDescriptor; tm_align : Z; tm_kind : Z }.
Record CTypeMismatchData_v1 := mk_mismatch1 {
  t1_loc : location; t1_type : CTypeDescriptor; t1_log : Z; t1_kind : Z }.
Record CVLABoundData := mk_vla { vl_loc : location; vl_type : CTypeDescriptor }.
Record CFloatCastOverflowData := mk_float { fc_loc : location; fc_from : CTypeDescriptor; fc_to : CTypeDescriptor }.

Definition KIND_INTEGER : Z := 0.
Definition KIND_FLOAT : Z := 1.
Definition KIND_UNKNOWN : Z := 0xffff.
Definition NUMBER_SIGNED_BIT : Z := 1.
Definition ACK_REPORTED : Z := 2 ^ 31.
Definition NUMBER_MAXLEN : nat := 128.
Definition LOCATION_MAXLEN : nat := 1056.
Definition CFI_ICALL : Z := 4.
Definition CFI_VMFCALL : Z := 6.

(** ** The monad *)

Record world := mk_world {
  locs : gmap location CSourceLocation;
  memory : mem;
  log : list (list Z);
}.

(** The two panics of [kern_ubsan.h]; a failed assertion also names its line. *)
Inductive panic_reason : Type :=
  | KASSERT_failed
  | VPANIC (buf : list Z).

Inductive out (A : Type) : Type :=
  | Ret (a : A) (w : world)
  | Panic (why : panic_reason) (w : world)
  | Undef.
Arguments Ret {A} a w.
Arguments Panic {A} why w.
Arguments Undef {A}.

Definition M (A : Type) : Type := world -> out A.

#[export] Instance M_ret : MRet M := fun A a w => Ret a w.
#[export] Instance M_bind : MBind M := fun A B f x w =>
  match x w with
  | Ret a w => f a w
  | Panic why w => Panic why w
  | Undef => Undef
  end.

Definition undef {A} : M A := fun _ => Undef.
Definition panic {A} (why : panic_reason) : M A := fun w => Panic why w.

Definition ASSERT (b : bool) : M unit := if b then mret tt else panic KASSERT_failed.

(** [ASSERT(p)] of a pointer, and the object behind it. *)
Definition nonnull {A} (p : option A) : M A :=
  match p with Some a => mret a | None => panic KASSERT_failed end.

Definition read_loc (l : location) : M CSourceLocation := fun w =>
  match locs w !! l with Some c => Ret c w | None => Undef end.
Definition write_loc (l : location) (c : CSourceLocation) : M unit := fun w =>
  Ret tt (mk_world (<[l := c]> (locs w)) (memory w) (log w)).
Definition read128 (a : Z) : M Z := fun w => Ret (ldn 16 (memory w) a) w.
Definition emit (line : list Z) : M unit := fun w =>
  Ret tt (mk_world (locs w) (memory w) (log w ++ [line])).

(** ** Reports *)

(** [vsnprintf] into a buffer of [n] bytes. *)
Definition clip (n : nat) (text : list Z) : list Z := take (n - 1) text.

(** The [vprintf] of [kern_ubsan.h]: the prefix is replaced. *)
Definition log_text (text : list Z) : list Z :=
  let buf := clip 1024 text in
  if bool_decide (take 6 buf = str "UBSan:") then str "Lilu: ubsan @" ++ drop 6 buf
  else str "Lilu: ubsan @ " ++ buf.

Definition alwaysFatal : bool := false.

Definition Report (isFatal : bool) (text : list Z) : M unit :=
  if isFatal || alwaysFatal then panic (VPANIC (clip 1024 text)) else emit (log_text text).

(** The compare-and-swap succeeds at the first attempt when nothing else runs;
    [UbsanThm] treats the interleaved case. *)
Definition isAlreadyReported (l : location) : M bool :=
  ASSERT (negb (l =? 0));;
  c ← read_loc l;
  write_loc l (mk_location (mFilename c) (mLine c .| ACK_REPORTED) (mColumn c));;
  mret (truth (mLine c .& ACK_REPORTED)).

Definition BIT (n : Z) : Z := if 64 <=? n then 0 else u64 (1 .<< (n .& 63)).
Definition LOWEST_SET_BIT (mask : Z) : Z := (u32 (mask - 1) .& mask) .^ mask.
Definition SHIFTOUT (x mask : Z) : Z := (x .& mask) / LOWEST_SET_BIT mask.

(** [%#04hx] of a number that is not zero. *)
Definition pr_04x (n : Z) : list Z := str "0x" ++ (if n <? 16 then str "0" else []) ++ pr_x n.

Definition zDeserializeTypeWidth (t : CTypeDescriptor) : M Z :=
  zWidth ← (if mTypeKind t =? KIND_INTEGER then mret (BIT (SHIFTOUT (mTypeInfo t) (2 ^ 32 - 1 - NUMBER_SIGNED_BIT)))
            else if mTypeKind t =? KIND_FLOAT then mret (mTypeInfo t)
            else Report true (str "UBSan: Unknown variable type " ++ pr_04x (mTypeKind t) ++ [10]);; undef);
  ASSERT (0 <? zWidth);;
  mret zWidth.

Definition DeserializeLocation (n : nat) (l : location) : M (list Z) :=
  ASSERT (negb (l =? 0));;
  c ← read_loc l;
  match mFilename c with
  | None => panic KASSERT_failed
  | Some f => mret (clip n (f ++ str ":" ++ pr_u (mLine c .& (2 ^ 31 - 1)) ++ str ":" ++ pr_u (mColumn c)))
  end.

(** [%02hhx]. *)
Definition pr_02x (b : Z) : list Z := [digit_char (u8 b / 16); digit_char (u8 b mod 16)].

(** Bytes from the most significant on. *)
Definition DeserializeUINT128 (n : nat) (v : Z) : list Z :=
  clip n (str "Undecoded-128-bit-Integer-Type (0x" ++
          concat (map (fun i => pr_02x (v / 2 ^ (8 * i))) (rev (seqZ 0 16))) ++ str ")").

Definition DeserializeNumberSigned (n : nat) (t : CTypeDescriptor) (L : Z) : M (list Z) :=
  ASSERT (truth (mTypeInfo t .& NUMBER_SIGNED_BIT));;
  w ← zDeserializeTypeWidth t;
  if w =? 128 then mret (DeserializeUINT128 n (wrap 128 L))
  else if (w =? 64) || (w =? 32) || (w =? 16) || (w =? 8) then mret (clip n (pr_d (sext 64 L)))
  else panic KASSERT_failed.

Definition DeserializeNumberUnsigned (n : nat) (t : CTypeDescriptor) (L : Z) : M (list Z) :=
  ASSERT (negb (truth (mTypeInfo t .& NUMBER_SIGNED_BIT)));;
  w ← zDeserializeTypeWidth t;
  if w =? 128 then mret (DeserializeUINT128 n (wrap 128 L))
  else if (w =? 64) || (w =? 32) || (w =? 16) || (w =? 8) then mret (clip n (pr_u (u64 L)))
  else panic KASSERT_failed.

Definition unexpected_width {A} (w : Z) (szLocation : list Z) : M A :=
  Report true (str "UBSan: Unexpected " ++ pr_u w ++ str "-Bit Type in " ++ szLocation ++ [10]);; undef.

Definition llliGetNumber (szLocation : list Z) (t : CTypeDescriptor) (ulNumber : Z) : M Z :=
  w ← zDeserializeTypeWidth t;
  if w =? 128 then v ← read128 ulNumber; mret (sext 128 v)
  else if w =? 64 then mret (sext 64 ulNumber)
  else if w =? 32 then mret (sext 32 ulNumber)
  else if w =? 16 then mret (sext 16 ulNumber)
  else if w =? 8 then mret (sext 8 ulNumber)
  else unexpected_width w szLocation.

Definition llluGetNumber (szLocation : list Z) (t : CTypeDescriptor) (ulNumber : Z) : M Z :=
  w ← zDeserializeTypeWidth t;
  if w =? 128 then read128 ulNumber
  else if (w =? 64) || (w =? 32) || (w =? 16) || (w =? 8) then mret ulNumber
  else unexpected_width w szLocation.

(** [None]: the buffer is left uninitialised. *)
Definition DeserializeNumber (szLocation : list Z) (n : nat) (t : CTypeDescriptor) (ulNumber : Z)
  : M (option (list Z)) :=
  if mTypeKind t =? KIND_INTEGER then
    if truth (mTypeInfo t .& NUMBER_SIGNED_BIT) then
      L ← llliGetNumber szLocation t ulNumber;
      s ← DeserializeNumberSigned n t L;
      mret (Some s)
    else
      UL ← llluGetNumber szLocation t ulNumber;
      s ← DeserializeNumberUnsigned n t UL;
      mret (Some s)
  else if mTypeKind t =? KIND_FLOAT then
    Report true (str "UBSan: Unexpected Float Type in " ++ szLocation ++ [10]);; undef
  else if mTypeKind t =? KIND_UNKNOWN then
    Report true (str "UBSan: Unknown Type in " ++ szLocation ++ [10]);; undef
  else mret None.

(** Printing a buffer. *)
Definition text_of (s : option (list Z)) : M (list Z) :=
  match s with Some s => mret s | None => undef end.

Definition table_text (l : list string) (k : Z) : M (list Z) :=
  ASSERT (k <? Z.of_nat (length l));;
  mret (str (nth (Z.to_nat k) l ""%string)).

Definition rgczTypeCheckKinds : list string :=
  ["load of"; "store to"; "reference binding to"; "member access within"; "member call on";
   "constructor call on"; "downcast of"; "downcast of"; "upcast of"; "cast to virtual base of";
   "_Nonnull binding to"; "dynamic operation on"]%string.
Definition DeserializeTypeCheckKind (k : Z) : M (list Z) := table_text rgczTypeCheckKinds k.

Definition rgczBuiltinCheckKinds : list string := ["ctz()"; "clz()"]%string.
Definition DeserializeBuiltinCheckKind (k : Z) : M (list Z) := table_text rgczBuiltinCheckKinds k.

Definition rgczCFICheckKinds : list string :=
  ["virtual call"; "non-virtual call"; "base-to-derived cast"; "cast to unrelated type";
   "indirect function call"; "non-virtual pointer to member function call";
   "virtual pointer to member function call"]%string.
Definition DeserializeCFICheckKind (k : Z) : M (list Z) := table_text rgczCFICheckKinds k.

Definition rgczImplicitConversionCheckKind : list string :=
  ["integer truncation"; "unsigned integer truncation"; "signed integer truncation";
   "integer sign change"; "signed integer trunctation or sign change"]%string.
Definition DeserializeImplicitConversionCheckKind (k : Z) : M (list Z) :=
  table_text rgczImplicitConversionCheckKind k.

Definition isNegativeNumber (szLocation : list Z) (t : CTypeDescriptor) (ulNumber : Z) : M bool :=
  ASSERT (mTypeKind t =? KIND_INTEGER);;
  if negb (truth (mTypeInfo t .& NUMBER_SIGNED_BIT)) then mret false
  else L ← llliGetNumber szLocation t ulNumber; mret (L <? 0).

Definition isShiftExponentTooLarge (szLocation : list Z) (t : CTypeDescriptor) (ulNumber zWidth : Z) : M bool :=
  ASSERT (mTypeKind t =? KIND_INTEGER);;
  L ← llluGetNumber szLocation t ulNumber;
  mret (zWidth <=? L).

(** ** Handlers *)

(** [%#lx] and [%p]. *)
Definition pr_alt (n : Z) : list Z := if n =? 0 then str "0" else str "0x" ++ pr_x n.

Definition UB_IN : list Z := str "UBSan: Undefined Behavior in ".

(** The common start of the handlers: the rest runs at the first report only. *)
Definition first_time (l : location) (k : list Z -> M unit) : M unit :=
  seen ← isAlreadyReported l;
  if seen : bool then mret tt
  else szLocation ← DeserializeLocation LOCATION_MAXLEN l; k szLocation.

Definition HandleOverflow (isFatal : bool) (pData : option COverflowData) (ulLHS ulRHS : Z) (szOperation : list Z) : M unit :=
  d ← nonnull pData;
  first_time (ov_loc d) (fun szLocation =>
  szLHS ← DeserializeNumber szLocation NUMBER_MAXLEN (ov_type d) ulLHS;
  szRHS ← DeserializeNumber szLocation NUMBER_MAXLEN (ov_type d) ulRHS;
  lhs ← text_of szLHS; rhs ← text_of szRHS;
  Report isFatal (UB_IN ++ szLocation ++ str ", " ++
    (if truth (mTypeInfo (ov_type d) .& NUMBER_SIGNED_BIT) then str "signed" else str "unsigned") ++
    str " integer overflow: " ++ lhs ++ str " " ++ szOperation ++ str " " ++ rhs ++
    str " cannot be represented in type " ++ mTypeName (ov_type d) ++ [10])).

Definition HandleNegateOverflow (isFatal : bool) (pData : option COverflowData) (ulOldValue : Z) : M unit :=
  d ← nonnull pData;
  first_time (ov_loc d) (fun szLocation =>
  szOldValue ← DeserializeNumber szLocation NUMBER_MAXLEN (ov_type d) ulOldValue;
  old ← text_of szOldValue;
  Report isFatal (UB_IN ++ szLocation ++ str ", negation of " ++ old ++
    str " cannot be represented in type " ++ mTypeName (ov_type d) ++ [10])).

Definition HandleBuiltinUnreachable (isFatal : bool) (pData : option CUnreachableData) : M unit :=
  d ← nonnull pData;
  first_time (ur_loc d) (fun szLocation =>
  Report isFatal (UB_IN ++ szLocation ++ str ", calling __builtin_unreachable()" ++ [10])).

Definition HandleTypeMismatch (isFatal : bool) (l : location) (t : CTypeDescriptor)
    (mLogAlignment mTypeCheckKind ulPointer : Z) : M unit :=
  ASSERT (negb (l =? 0));;
  first_time l (fun szLocation =>
  kind ← DeserializeTypeCheckKind mTypeCheckKind;
  if ulPointer =? 0 then
    Report isFatal (UB_IN ++ szLocation ++ str ", " ++ kind ++ str " null pointer of type " ++ mTypeName t ++ [10])
  else if truth (u64 (mLogAlignment - 1) .& ulPointer) then
    Report isFatal (UB_IN ++ szLocation ++ str ", " ++ kind ++ str " misaligned address " ++ pr_alt ulPointer ++
      str " for type " ++ mTypeName t ++ str " which requires " ++ pr_d (sext 64 mLogAlignment) ++
      str " byte alignment" ++ [10])
  else
    Report isFatal (UB_IN ++ szLocation ++ str ", " ++ kind ++ str " address " ++ pr_alt ulPointer ++
      str " with insufficient space for an object of type " ++ mTypeName t ++ [10])).

Definition HandleVlaBoundNotPositive (isFatal : bool) (pData : option CVLABoundData) (ulBound : Z) : M unit :=
  d ← nonnull pData;
  first_time (vl_loc d) (fun szLocation =>
  szBound ← DeserializeNumber szLocation NUMBER_MAXLEN (vl_type d) ulBound;
  bound ← text_of szBound;
  Report isFatal (UB_IN ++ szLocation ++ str ", variable length array bound value " ++ bound ++ str " <= 0" ++ [10])).

Definition HandleOutOfBounds (isFatal : bool) (pData : option COutOfBoundsData) (ulIndex : Z) : M unit :=
  d ← nonnull pData;
  first_time (ob_loc d) (fun szLocation =>
  szIndex ← DeserializeNumber szLocation NUMBER_MAXLEN (ob_index d) ulIndex;
  index ← text_of szIndex;
  Report isFatal (UB_IN ++ szLocation ++ str ", index " ++ index ++ str " is out of range for type " ++
    mTypeName (ob_array d) ++ [10])).

(** The four messages of a bad shift. *)
Definition shift_report (isFatal : bool) (szLocation : list Z) (d : CShiftOutOfBoundsData)
    (ulLHS ulRHS : Z) (szLHS szRHS : option (list Z)) : M unit :=
  neg ← isNegativeNumber szLocation (sh_rhs d) ulRHS;
  if neg : bool then
    rhs ← text_of szRHS;
    Report isFatal (UB_IN ++ szLocation ++ str ", shift exponent " ++ rhs ++ str " is negative" ++ [10])
  else
    width ← zDeserializeTypeWidth (sh_lhs d);
    large ← isShiftExponentTooLarge szLocation (sh_rhs d) ulRHS width;
    if large : bool then
      rhs ← text_of szRHS;
      Report isFatal (UB_IN ++ szLocation ++ str ", shift exponent " ++ rhs ++ str " is too large for " ++
        pr_u width ++ str "-bit type " ++ mTypeName (sh_lhs d) ++ [10])
    else
      neg ← isNegativeNumber szLocation (sh_lhs d) ulLHS;
      lhs ← text_of szLHS;
      if neg : bool then
        Report isFatal (UB_IN ++ szLocation ++ str ", left shift of negative value " ++ lhs ++ [10])
      else
        rhs ← text_of szRHS;
        Report isFatal (UB_IN ++ szLocation ++ str ", left shift of " ++ lhs ++ str " by " ++ rhs ++
          str " places cannot be represented in type " ++ mTypeName (sh_lhs d) ++ [10]).

Definition HandleShiftOutOfBounds (isFatal : bool) (pData : option CShiftOutOfBoundsData) (ulLHS ulRHS : Z) : M unit :=
  d ← nonnull pData;
  first_time (sh_loc d) (fun szLocation =>
  szLHS ← DeserializeNumber szLocation NUMBER_MAXLEN (sh_lhs d) ulLHS;
  szRHS ← DeserializeNumber szLocation NUMBER_MAXLEN (sh_rhs d) ulRHS;
  shift_report isFatal szLocation d ulLHS ulRHS szLHS szRHS).

Definition HandleImplicitConversion (isFatal : bool) (pData : option CImplicitConversionData) (ulFrom ulTo : Z) : M unit :=
  d ← nonnull pData;
  first_time (ic_loc d) (fun szLocation =>
  szFrom ← DeserializeNumber szLocation NUMBER_MAXLEN (ic_from d) ulFrom;
  szTo ← DeserializeNumber szLocation NUMBER_MAXLEN (ic_to d) ulTo;
  kind ← DeserializeImplicitConversionCheckKind (ic_kind d);
  Report isFatal (UB_IN ++ szLocation ++ str ", " ++ kind ++ str " from " ++ mTypeName (ic_from d) ++
    str " to " ++ mTypeName (ic_to d) ++ [10])).

Definition HandleLoadInvalidValue (isFatal : bool) (pData : option CInvalidValueData) (ulValue : Z) : M unit :=
  d ← nonnull pData;
  first_time (iv_loc d) (fun szLocation =>
  szValue ← DeserializeNumber szLocation NUMBER_MAXLEN (iv_type d) ulValue;
  value ← text_of szValue;
  Report isFatal (UB_IN ++ szLocation ++ str ", load of value " ++ value ++
    str " is not a valid value for type " ++ mTypeName (iv_type d) ++ [10])).

Definition HandleInvalidBuiltin (isFatal : bool) (pData : option CInvalidBuiltinData) : M unit :=
  d ← nonnull pData;
  first_time (ib_loc d) (fun szLocation =>
  kind ← DeserializeBuiltinCheckKind (ib_kind d);
  Report isFatal (UB_IN ++ szLocation ++ str ", passing zero to " ++ kind ++
    str ", which is not a valid argument" ++ [10])).

Definition HandleFunctionTypeMismatch (isFatal : bool) (pData : option CFunctionTypeMismatchData) (ulFunction : Z) : M unit :=
  d ← nonnull pData;
  first_time (fu_loc d) (fun szLocation =>
  Report isFatal (UB_IN ++ szLocation ++ str ", call to function " ++ pr_alt ulFunction ++
    str " through pointer to incorrect function type " ++ mTypeName (fu_type d) ++ [10])).

(** The object behind a pointer that may be null. *)
Definition deref {A} (p : option A) : M A := match p with Some a => mret a | None => undef end.

Definition is_some_ptr {A} (p : option A) : bool := match p with Some _ => true | None => false end.

Definition HandleCFIBadType (isFatal : bool) (pData : option CCFICheckFailData) (ulVtable : Z)
    (bValidVtable FromUnrecoverableHandler : option bool) (ProgramCounter FramePointer : option Z) : M unit :=
  d ← nonnull pData;
  first_time (cfi_loc d) (fun szLocation =>
  if (cfi_kind d =? CFI_ICALL) || (cfi_kind d =? CFI_VMFCALL) then
    kind ← DeserializeCFICheckKind (cfi_kind d);
    Report isFatal (UB_IN ++ szLocation ++ str ", control flow integrity check for type " ++ mTypeName (cfi_type d) ++
      str " failed during " ++ kind ++ str " (vtable address " ++ pr_alt ulVtable ++ str ")" ++ [10])
  else
    kind ← DeserializeCFICheckKind (cfi_kind d);
    valid ← deref bValidVtable;
    unrec ← deref FromUnrecoverableHandler;
    pc ← deref ProgramCounter;
    fp ← deref FramePointer;
    Report (isFatal || is_some_ptr FromUnrecoverableHandler)
      (UB_IN ++ szLocation ++ str ", control flow integrity check for type " ++ mTypeName (cfi_type d) ++
       str " failed during " ++ kind ++ str " (vtable address " ++ pr_alt ulVtable ++ str "; " ++
       (if valid : bool then str "valid" else str "invalid") ++ str " vtable; from " ++
       (if unrec : bool then str "unrecoverable" else str "recoverable") ++ str " handler; Program Counter " ++
       pr_alt pc ++ str "; Frame Pointer " ++ pr_alt fp ++ str ")" ++ [10])).

Definition HandleDynamicTypeCacheMiss (isFatal : bool) (pData : option CDynamicTypeCacheMissData) (ulPointer ulHash : Z) : M unit :=
  mret tt.

Definition HandleFloatCastOverflow (isFatal : bool) (pData : option CFloatCastOverflowData) (ulFrom : Z) : M unit :=
  d ← nonnull pData;
  first_time (fc_loc d) (fun szLocation =>
  szFrom ← DeserializeNumber szLocation NUMBER_MAXLEN (fc_from d) ulFrom;
  from ← text_of szFrom;
  Report isFatal (UB_IN ++ szLocation ++ str ", " ++ from ++ str " (of type " ++ mTypeName (fc_from d) ++
    str ") is outside the range of representable values of type " ++ mTypeName (fc_to d) ++ [10])).

Definition HandleMissingReturn (isFatal : bool) (pData : option CUnreachableData) : M unit :=
  d ← nonnull pData;
  first_time (ur_loc d) (fun szLocation =>
  Report isFatal (UB_IN ++ szLocation ++
    str ", execution reached the end of a value-returning function without returning a value" ++ [10])).

(** The attribute location of the two nonnull handlers. *)
Definition attribute_text (l : location) : M (list Z) :=
  c ← read_loc l;
  match mFilename c with
  | Some _ => s ← DeserializeLocation LOCATION_MAXLEN l; mret (str ", nonnull/_Nonnull specified in " ++ s)
  | None => mret []
  end.

Definition HandleNonnullArg (isFatal : bool) (pData : option CNonNullArgData) : M unit :=
  d ← nonnull pData;
  first_time (na_loc d) (fun szLocation =>
  attr ← attribute_text (na_attr d);
  Report isFatal (UB_IN ++ szLocation ++ str ", null pointer passed as argument " ++ pr_d (na_index d) ++
    str ", which is declared to never be null" ++ attr ++ [10])).

Definition HandleNonnullReturn (isFatal : bool) (pData : option CNonNullReturnData) (l : location) : M unit :=
  d ← nonnull pData;
  ASSERT (negb (l =? 0));;
  first_time l (fun szLocation =>
  attr ← attribute_text (nr_attr d);
  Report isFatal (UB_IN ++ szLocation ++
    str ", null pointer returned from function declared to never return null" ++ attr ++ [10])).

Definition HandlePointerOverflow (isFatal : bool) (pData : option CPointerOverflowData) (ulBase ulResult : Z) : M unit :=
  d ← nonnull pData;
  first_time (po_loc d) (fun szLocation =>
  Report isFatal (UB_IN ++ szLocation ++ str ", pointer expression with base " ++ pr_alt ulBase ++
    str " overflowed to " ++ pr_alt ulResult ++ [10])).

(** ** Entry points *)

Definition PLUS_STRING : list Z := str "+".
Definition MINUS_STRING : list Z := str "-".
Definition MUL_STRING : list Z := str "*".
Definition DIVREM_STRING : list Z := str "divrem".

Definition __ubsan_handle_add_overflow (pData : option COverflowData) (ulLHS : Z) (ulRHS : Z) : M unit :=
  ASSERT (is_some_ptr pData);; HandleOverflow false pData ulLHS ulRHS PLUS_STRING.
Definition __ubsan_handle_add_overflow_abort (pData : option COverflowData) (ulLHS : Z) (ulRHS : Z) : M unit :=
  ASSERT (is_some_ptr pData);; HandleOverflow true pData ulLHS ulRHS PLUS_STRING.
Definition __ubsan_handle_builtin_unreachable (pData : option CUnreachableData) : M unit :=
  ASSERT (is_some_ptr pData);; HandleBuiltinUnreachable true pData.
Definition __ubsan_handle_cfi_bad_type (pData : option CCFICheckFailData) (ulVtable : Z) (bValidVtable : bool) (FromUnrecoverableHandler : bool) (ProgramCounter : Z) (FramePointer : Z) : M unit :=
  ASSERT (is_some_ptr pData);; HandleCFIBadType false pData ulVtable (Some bValidVtable) (Some FromUnrecoverableHandler) (Some ProgramCounter) (Some FramePointer).
Definition __ubsan_handle_cfi_check_fail (pData : option CCFICheckFailData) (ulValue : Z) (ulValidVtable : Z) : M unit :=
  ASSERT (is_some_ptr pData);; HandleCFIBadType false pData ulValue None None None None.
Definition __ubsan_handle_cfi_check_fail_abort (pData : option CCFICheckFailData) (ulValue : Z) (ulValidVtable : Z) : M unit :=
  ASSERT (is_some_ptr pData);; HandleCFIBadType true pData ulValue None None None None.
Definition __ubsan_handle_divrem_overflow (pData : option COverflowData) (ulLHS : Z) (ulRHS : Z) : M unit :=
  ASSERT (is_some_ptr pData);; HandleOverflow false pData ulLHS ulRHS DIVREM_STRING.
Definition __ubsan_handle_divrem_overflow_abort (pData : option COverflowData) (ulLHS : Z) (ulRHS : Z) : M unit :=
  ASSERT (is_some_ptr pData);; HandleOverflow true pData ulLHS ulRHS DIVREM_STRING.
Definition __ubsan_handle_dynamic_type_cache_miss (pData : option CDynamicTypeCacheMissData) (ulPointer : Z) (ulHash : Z) : M unit :=
  ASSERT (is_some_ptr pData);; HandleDynamicTypeCacheMiss false pData ulPointer ulHash.
Definition __ubsan_handle_dynamic_type_cache_miss_abort (pData : option CDynamicTypeCacheMissData) (ulPointer : Z) (ulHash : Z) : M unit :=
  ASSERT (is_some_ptr pData);; HandleDynamicTypeCacheMiss false pData ulPointer ulHash.
Definition __ubsan_handle_float_cast_overflow (pData : option CFloatCastOverflowData) (ulFrom : Z) : M unit :=
  ASSERT (is_some_ptr pData);; HandleFloatCastOverflow false pData ulFrom.
Definition __ubsan_handle_float_cast_overflow_abort (pData : option CFloatCastOverflowData) (ulFrom : Z) : M unit :=
  ASSERT (is_some_ptr pData);; HandleFloatCastOverflow true pData ulFrom.
Definition __ubsan_handle_function_type_mismatch (pData : option CFunctionTypeMismatchData) (ulFunction : Z) : M unit :=
  ASSERT (is_some_ptr pData);; HandleFunctionTypeMismatch false pData ulFunction.
Definition __ubsan_handle_function_type_mismatch_abort (pData : option CFunctionTypeMismatchData) (ulFunction : Z) : M unit :=
  ASSERT (is_some_ptr pData);; HandleFunctionTypeMismatch false pData ulFunction.
Definition __ubsan_handle_implicit_conversion (pData : option CImplicitConversionData) (ulFrom : Z) (ulTo : Z) : M unit :=
  ASSERT (is_some_ptr pData);; HandleImplicitConversion false pData ulFrom ulTo.
Definition __ubsan_handle_implicit_conversion_abort (pData : option CImplicitConversionData) (ulFrom : Z) (ulTo : Z) : M unit :=
  ASSERT (is_some_ptr pData);; HandleImplicitConversion false pData ulFrom ulTo.
Definition __ubsan_handle_invalid_builtin (pData : option CInvalidBuiltinData) : M unit :=
  ASSERT (is_some_ptr pData);; HandleInvalidBuiltin true pData.
Definition __ubsan_handle_invalid_builtin_abort (pData : option CInvalidBuiltinData) : M unit :=
  ASSERT (is_some_ptr pData);; HandleInvalidBuiltin true pData.
Definition __ubsan_handle_load_invalid_value (pData : option CInvalidValueData) (ulValue : Z) : M unit :=
  ASSERT (is_some_ptr pData);; HandleLoadInvalidValue false pData ulValue.
Definition __ubsan_handle_load_invalid_value_abort (pData : option CInvalidValueData) (ulValue : Z) : M unit :=
  ASSERT (is_some_ptr pData);; HandleLoadInvalidValue true pData ulValue.
Definition __ubsan_handle_missing_return (pData : option CUnreachableData) : M unit :=
  ASSERT (is_some_ptr pData);; HandleMissingReturn true pData.
Definition __ubsan_handle_mul_overflow (pData : option COverflowData) (ulLHS : Z) (ulRHS : Z) : M unit :=
  ASSERT (is_some_ptr pData);; HandleOverflow false pData ulLHS ulRHS MUL_STRING.
Definition __ubsan_handle_mul_overflow_abort (pData : option COverflowData) (ulLHS : Z) (ulRHS : Z) : M unit :=
  ASSERT (is_some_ptr pData);; HandleOverflow true pData ulLHS ulRHS MUL_STRING.
Definition __ubsan_handle_negate_overflow (pData : option COverflowData) (ulOldValue : Z) : M unit :=
  ASSERT (is_some_ptr pData);; HandleNegateOverflow false pData ulOldValue.
Definition __ubsan_handle_negate_overflow_abort (pData : option COverflowData) (ulOldValue : Z) : M unit :=
  ASSERT (is_some_ptr pData);; HandleNegateOverflow true pData ulOldValue.
Definition __ubsan_handle_nonnull_arg (pData : option CNonNullArgData) : M unit :=
  ASSERT (is_some_ptr pData);; HandleNonnullArg false pData.
Definition __ubsan_handle_nonnull_arg_abort (pData : option CNonNullArgData) : M unit :=
  ASSERT (is_some_ptr pData);; HandleNonnullArg true pData.
Definition __ubsan_handle_nonnull_return_v1 (pData : option CNonNullReturnData) (pLocationPointer : location) : M unit :=
  ASSERT (is_some_ptr pData);; ASSERT (negb (pLocationPointer =? 0));; HandleNonnullReturn false pData pLocationPointer.
Definition __ubsan_handle_nonnull_return_v1_abort (pData : option CNonNullReturnData) (pLocationPointer : location) : M unit :=
  ASSERT (is_some_ptr pData);; ASSERT (negb (pLocationPointer =? 0));; HandleNonnullReturn true pData pLocationPointer.
Definition __ubsan_handle_nullability_arg (pData : option CNonNullArgData) : M unit :=
  ASSERT (is_some_ptr pData);; HandleNonnullArg false pData.
Definition __ubsan_handle_nullability_arg_abort (pData : option CNonNullArgData) : M unit :=
  ASSERT (is_some_ptr pData);; HandleNonnullArg true pData.
Definition __ubsan_handle_nullability_return_v1 (pData : option CNonNullReturnData) (pLocationPointer : location) : M unit :=
  ASSERT (is_some_ptr pData);; ASSERT (negb (pLocationPointer =? 0));; HandleNonnullReturn false pData pLocationPointer.
Definition __ubsan_handle_nullability_return_v1_abort (pData : option CNonNullReturnData) (pLocationPointer : location) : M unit :=
  ASSERT (is_some_ptr pData);; ASSERT (negb (pLocationPointer =? 0));; HandleNonnullReturn true pData pLocationPointer.
Definition __ubsan_handle_out_of_bounds (pData : option COutOfBoundsData) (ulIndex : Z) : M unit :=
  ASSERT (is_some_ptr pData);; HandleOutOfBounds false pData ulIndex.
Definition __ubsan_handle_out_of_bounds_abort (pData : option COutOfBoundsData) (ulIndex : Z) : M unit :=
  ASSERT (is_some_ptr pData);; HandleOutOfBounds true pData ulIndex.
Definition __ubsan_handle_pointer_overflow (pData : option CPointerOverflowData) (ulBase : Z) (ulResult : Z) : M unit :=
  ASSERT (is_some_ptr pData);; HandlePointerOverflow false pData ulBase ulResult.
Definition __ubsan_handle_pointer_overflow_abort (pData : option CPointerOverflowData) (ulBase : Z) (ulResult : Z) : M unit :=
  ASSERT (is_some_ptr pData);; HandlePointerOverflow true pData ulBase ulResult.
Definition __ubsan_handle_shift_out_of_bounds (pData : option CShiftOutOfBoundsData) (ulLHS : Z) (ulRHS : Z) : M unit :=
  ASSERT (is_some_ptr pData);; HandleShiftOutOfBounds false pData ulLHS ulRHS.
Definition __ubsan_handle_shift_out_of_bounds_abort (pData : option CShiftOutOfBoundsData) (ulLHS : Z) (ulRHS : Z) : M unit :=
  ASSERT (is_some_ptr pData);; HandleShiftOutOfBounds true pData ulLHS ulRHS.
Definition __ubsan_handle_sub_overflow (pData : option COverflowData) (ulLHS : Z) (ulRHS : Z) : M unit :=
  ASSERT (is_some_ptr pData);; HandleOverflow false pData ulLHS ulRHS MINUS_STRING.
Definition __ubsan_handle_sub_overflow_abort (pData : option COverflowData) (ulLHS : Z) (ulRHS : Z) : M unit :=
  ASSERT (is_some_ptr pData);; HandleOverflow true pData ulLHS ulRHS MINUS_STRING.
Definition __ubsan_handle_type_mismatch (pData : option CTypeMismatchData) (ulPointer : Z) : M unit :=
  d ← nonnull pData; HandleTypeMismatch false (tm_loc d) (tm_type d) (tm_align d) (tm_kind d) ulPointer.
Definition __ubsan_handle_type_mismatch_abort (pData : option CTypeMismatchData) (ulPointer : Z) : M unit :=
  d ← nonnull pData; HandleTypeMismatch true (tm_loc d) (tm_type d) (tm_align d) (tm_kind d) ulPointer.
Definition __ubsan_handle_type_mismatch_v1 (pData : option CTypeMismatchData_v1) (ulPointer : Z) : M unit :=
  d ← nonnull pData; HandleTypeMismatch false (t1_loc d) (t1_type d) (BIT (t1_log d)) (t1_kind d) ulPointer.
Definition __ubsan_handle_type_mismatch_v1_abort (pData : option CTypeMismatchData_v1) (ulPointer : Z) : M unit :=
  d ← nonnull pData; HandleTypeMismatch true (t1_loc d) (t1_type d) (BIT (t1_log d)) (t1_kind d) ulPointer.
Definition __ubsan_handle_vla_bound_not_positive (pData : option CVLABoundData) (ulBound : Z) : M unit :=
  ASSERT (is_some_ptr pData);; HandleVlaBoundNotPositive false pData ulBound.
Definition __ubsan_handle_vla_bound_not_positive_abort (pData : option CVLABoundData) (ulBound : Z) : M unit :=
  ASSERT (is_some_ptr pData);; HandleVlaBoundNotPositive true pData ulBound.
