(* ===== verification/UbsanThm.v ===== *)
(** Correctness of the sanitizer runtime of [Ubsan.v]: every public handler as
    one step of a program run, what a well-formed call does on every branch, and
    that a location is reported once.  The shared compare-and-swap loop is in
    [UbsanRace.v]. *)
From Stdlib Require Import Ascii String.
From S2P Require Import Prelude Printf Ubsan.
From Stdlib Require Import ZArith Lia.
From stdpp Require Import prelude gmap.
Open Scope Z_scope.
Open Scope c_scope.

(** ** Calls *)

Inductive arith := Add | Sub | Mul | Divrem.

(** A call of a public handler.  [abort] chooses the [_abort] variant, [nb] the
    [nullability] variant of the two nonnull handlers. *)
Inductive call : Type :=
  | Overflow (op : arith) (abort : bool) (d : COverflowData) (lhs rhs : Z)
  | NegateOverflow (abort : bool) (d : COverflowData) (old : Z)
  | BuiltinUnreachable (d : CUnreachableData)
  | MissingReturn (d : CUnreachableData)
  | CfiBadType (d : CCFICheckFailData) (vtable : Z) (valid unrecoverable : bool) (pc fp : Z)
  | CfiCheckFail (abort : bool) (d : CCFICheckFailData) (value valid : Z)
  | DynamicTypeCacheMiss (abort : bool) (d : CDynamicTypeCacheMissData) (pointer hash : Z)
  | FloatCastOverflow (abort : bool) (d : CFloatCastOverflowData) (from : Z)
  | FunctionTypeMismatch (abort : bool) (d : CFunctionTypeMismatchData) (function : Z)
  | ImplicitConversion (abort : bool) (d : CImplicitConversionData) (from to : Z)
  | InvalidBuiltin (abort : bool) (d : CInvalidBuiltinData)
  | LoadInvalidValue (abort : bool) (d : CInvalidValueData) (value : Z)
  | NonnullArg (nb abort : bool) (d : CNonNullArgData)
  | NonnullReturn (nb abort : bool) (d : CNonNullReturnData) (l : location)
  | OutOfBounds (abort : bool) (d : COutOfBoundsData) (index : Z)
  | PointerOverflow (abort : bool) (d : CPointerOverflowData) (base result : Z)
  | ShiftOutOfBounds (abort : bool) (d : CShiftOutOfBoundsData) (lhs rhs : Z)
  | TypeMismatch (abort : bool) (d : CTypeMismatchData) (pointer : Z)
  | TypeMismatch_v1 (abort : bool) (d : CTypeMismatchData_v1) (pointer : Z)
  | VlaBoundNotPositive (abort : bool) (d : CVLABoundData) (bound : Z).

(** The two variants of a handler. *)
Definition variant (abort : bool) (plain fatal : M unit) : M unit := if abort then fatal else plain.

Definition run_call (c : call) : M unit :=
  match c with
  | Overflow Add a d x y => variant a (__ubsan_handle_add_overflow (Some d) x y) (__ubsan_handle_add_overflow_abort (Some d) x y)
  | Overflow Sub a d x y => variant a (__ubsan_handle_sub_overflow (Some d) x y) (__ubsan_handle_sub_overflow_abort (Some d) x y)
  | Overflow Mul a d x y => variant a (__ubsan_handle_mul_overflow (Some d) x y) (__ubsan_handle_mul_overflow_abort (Some d) x y)
  | Overflow Divrem a d x y =>
      variant a (__ubsan_handle_divrem_overflow (Some d) x y) (__ubsan_handle_divrem_overflow_abort (Some d) x y)
  | NegateOverflow a d x => variant a (__ubsan_handle_negate_overflow (Some d) x) (__ubsan_handle_negate_overflow_abort (Some d) x)
  | BuiltinUnreachable d => __ubsan_handle_builtin_unreachable (Some d)
  | MissingReturn d => __ubsan_handle_missing_return (Some d)
  | CfiBadType d v valid unrec pc fp => __ubsan_handle_cfi_bad_type (Some d) v valid unrec pc fp
  | CfiCheckFail a d v valid =>
      variant a (__ubsan_handle_cfi_check_fail (Some d) v valid) (__ubsan_handle_cfi_check_fail_abort (Some d) v valid)
  | DynamicTypeCacheMiss a d p h =>
      variant a (__ubsan_handle_dynamic_type_cache_miss (Some d) p h) (__ubsan_handle_dynamic_type_cache_miss_abort (Some d) p h)
  | FloatCastOverflow a d x =>
      variant a (__ubsan_handle_float_cast_overflow (Some d) x) (__ubsan_handle_float_cast_overflow_abort (Some d) x)
  | FunctionTypeMismatch a d f =>
      variant a (__ubsan_handle_function_type_mismatch (Some d) f) (__ubsan_handle_function_type_mismatch_abort (Some d) f)
  | ImplicitConversion a d x y =>
      variant a (__ubsan_handle_implicit_conversion (Some d) x y) (__ubsan_handle_implicit_conversion_abort (Some d) x y)
  | InvalidBuiltin a d => variant a (__ubsan_handle_invalid_builtin (Some d)) (__ubsan_handle_invalid_builtin_abort (Some d))
  | LoadInvalidValue a d x =>
      variant a (__ubsan_handle_load_invalid_value (Some d) x) (__ubsan_handle_load_invalid_value_abort (Some d) x)
  | NonnullArg false a d => variant a (__ubsan_handle_nonnull_arg (Some d)) (__ubsan_handle_nonnull_arg_abort (Some d))
  | NonnullArg true a d => variant a (__ubsan_handle_nullability_arg (Some d)) (__ubsan_handle_nullability_arg_abort (Some d))
  | NonnullReturn false a d l =>
      variant a (__ubsan_handle_nonnull_return_v1 (Some d) l) (__ubsan_handle_nonnull_return_v1_abort (Some d) l)
  | NonnullReturn true a d l =>
      variant a (__ubsan_handle_nullability_return_v1 (Some d) l) (__ubsan_handle_nullability_return_v1_abort (Some d) l)
  | OutOfBounds a d x => variant a (__ubsan_handle_out_of_bounds (Some d) x) (__ubsan_handle_out_of_bounds_abort (Some d) x)
  | PointerOverflow a d x y =>
      variant a (__ubsan_handle_pointer_overflow (Some d) x y) (__ubsan_handle_pointer_overflow_abort (Some d) x y)
  | ShiftOutOfBounds a d x y =>
      variant a (__ubsan_handle_shift_out_of_bounds (Some d) x y) (__ubsan_handle_shift_out_of_bounds_abort (Some d) x y)
  | TypeMismatch a d p => variant a (__ubsan_handle_type_mismatch (Some d) p) (__ubsan_handle_type_mismatch_abort (Some d) p)
  | TypeMismatch_v1 a d p =>
      variant a (__ubsan_handle_type_mismatch_v1 (Some d) p) (__ubsan_handle_type_mismatch_v1_abort (Some d) p)
  | VlaBoundNotPositive a d x =>
      variant a (__ubsan_handle_vla_bound_not_positive (Some d) x) (__ubsan_handle_vla_bound_not_positive_abort (Some d) x)
  end.

(** The location a call reports. *)
Definition call_loc (c : call) : option location :=
  match c with
  | Overflow _ _ d _ _ | NegateOverflow _ d _ => Some (ov_loc d)
  | BuiltinUnreachable d | MissingReturn d => Some (ur_loc d)
  | CfiBadType d _ _ _ _ _ | CfiCheckFail _ d _ _ => Some (cfi_loc d)
  | DynamicTypeCacheMiss _ _ _ _ => None
  | FloatCastOverflow _ d _ => Some (fc_loc d)
  | FunctionTypeMismatch _ d _ => Some (fu_loc d)
  | ImplicitConversion _ d _ _ => Some (ic_loc d)
  | InvalidBuiltin _ d => Some (ib_loc d)
  | LoadInvalidValue _ d _ => Some (iv_loc d)
  | NonnullArg _ _ d => Some (na_loc d)
  | NonnullReturn _ _ _ l => Some l
  | OutOfBounds _ d _ => Some (ob_loc d)
  | PointerOverflow _ d _ _ => Some (po_loc d)
  | ShiftOutOfBounds _ d _ _ => Some (sh_loc d)
  | TypeMismatch _ d _ => Some (tm_loc d)
  | TypeMismatch_v1 _ d _ => Some (t1_loc d)
  | VlaBoundNotPositive _ d _ => Some (vl_loc d)
  end.

(** Whether the report of a call panics.  Four entries differ from the name of
    the handler: the [_abort] variants of [function_type_mismatch] and
    [implicit_conversion] do not panic, [invalid_builtin] always does, and
    [cfi_bad_type] does whatever its [FromUnrecoverableHandler] says. *)
Definition call_fatal (c : call) : bool :=
  match c with
  | BuiltinUnreachable _ | MissingReturn _ | InvalidBuiltin _ _ => true
  | FunctionTypeMismatch _ _ _ | ImplicitConversion _ _ _ _ | DynamicTypeCacheMiss _ _ _ _ => false
  | CfiBadType d _ _ _ _ _ => negb ((cfi_kind d =? CFI_ICALL) || (cfi_kind d =? CFI_VMFCALL))
  | Overflow _ a _ _ _ | NegateOverflow a _ _ | CfiCheckFail a _ _ _ | FloatCastOverflow a _ _
  | LoadInvalidValue a _ _ | NonnullArg _ a _ | NonnullReturn _ a _ _ | OutOfBounds a _ _
  | PointerOverflow a _ _ _ | ShiftOutOfBounds a _ _ _ | TypeMismatch a _ _ | TypeMismatch_v1 a _ _
  | VlaBoundNotPositive a _ _ => a
  end.

(** ** Well-formed data *)

(** An integer type of 8 to 128 bits, and its width. *)
Definition int_type (t : CTypeDescriptor) : bool :=
  (mTypeKind t =? KIND_INTEGER) && (6 <=? mTypeInfo t) && (mTypeInfo t <=? 15).
Definition width (t : CTypeDescriptor) : Z := 2 ^ (mTypeInfo t / 2).
Definition is_signed (t : CTypeDescriptor) : bool := Z.odd (mTypeInfo t).

(** Data the compiler can emit for a call.  The kernel runtime cannot print
    floating-point operands, and [cfi_check_fail] passes null pointers. *)
Definition wf_call (c : call) : bool :=
  match c with
  | Overflow _ _ d _ _ | NegateOverflow _ d _ => int_type (ov_type d)
  | CfiBadType d _ _ _ _ _ => (0 <=? cfi_kind d) && (cfi_kind d <? 7)
  | CfiCheckFail _ d _ _ => (cfi_kind d =? CFI_ICALL) || (cfi_kind d =? CFI_VMFCALL)
  | FloatCastOverflow _ d _ => int_type (fc_from d)
  | ImplicitConversion _ d _ _ => int_type (ic_from d) && int_type (ic_to d) && (ic_kind d <? 5)
  | InvalidBuiltin _ d => ib_kind d <? 2
  | LoadInvalidValue _ d _ => int_type (iv_type d)
  | OutOfBounds _ d _ => int_type (ob_index d)
  | ShiftOutOfBounds _ d _ _ => int_type (sh_lhs d) && int_type (sh_rhs d)
  | TypeMismatch _ d _ => tm_kind d <? 12
  | TypeMismatch_v1 _ d _ => t1_kind d <? 12
  | VlaBoundNotPositive _ d _ => int_type (vl_type d)
  | BuiltinUnreachable _ | MissingReturn _ | DynamicTypeCacheMiss _ _ _ _ | FunctionTypeMismatch _ _ _
  | NonnullArg _ _ _ | NonnullReturn _ _ _ _ | PointerOverflow _ _ _ _ => true
  end.

(** The attribute location of a call. *)
Definition call_attr (c : call) : option location :=
  match c with
  | NonnullArg _ _ d => Some (na_attr d)
  | NonnullReturn _ _ d _ => Some (nr_attr d)
  | _ => None
  end.

Definition reported (l : location) (w : world) : Prop :=
  exists c, locs w !! l = Some c /\ Z.testbit (mLine c) 31 = true.

(** The report bit set at [l]. *)
Definition ack (c : CSourceLocation) : CSourceLocation :=
  mk_location (mFilename c) (mLine c .| ACK_REPORTED) (mColumn c).
Definition mark (l : location) (w : world) : world :=
  mk_world (alter ack l (locs w)) (memory w) (log w).
Definition add_line (line : list Z) (w : world) : world :=
  mk_world (locs w) (memory w) (log w ++ [line]).

(** ** Computations that only read *)

(** [m] returns in [w] and leaves it as it is. *)
Definition yields {A} (w : world) (m : M A) : Prop := exists a, m w = Ret a w.

(** If [m] returns, it leaves the world as it is. *)
Definition quiet {A} (m : M A) : Prop := forall w a w', m w = Ret a w' -> w' = w.

(** [m] reports a text that starts with [pre], and ends in a panic when [f]. *)
Definition reports (w : world) (f : bool) (pre : list Z) (m : M unit) : Prop :=
  exists rest, m w = if f then Panic (VPANIC (clip 1024 (pre ++ rest))) w
                     else Ret tt (add_line (log_text (pre ++ rest)) w).

(** If [m] returns, it has added at most one line to the log. *)
Definition one_line (m : M unit) : Prop :=
  forall w w', m w = Ret tt w' -> w' = w \/ exists line, w' = add_line line w.

Lemma bind_ret {A B} (m : M A) (f : A -> M B) w a w' : m w = Ret a w' -> mbind f m w = f a w'.
Proof. intros E. unfold mbind, M_bind. by rewrite E. Qed.

Lemma bind_inv {A B} (m : M A) (f : A -> M B) w b w' :
  mbind f m w = Ret b w' -> exists a w0, m w = Ret a w0 /\ f a w0 = Ret b w'.
Proof. unfold mbind, M_bind. destruct (m w) as [a w0| |]; [eauto|done|done]. Qed.

Create HintDb ubsan.

Section computations.
Context {A B : Type}.

Lemma yields_ret w (a : A) : yields w (mret a).
Proof. by exists a. Qed.

Lemma yields_bind w (m : M A) (f : A -> M B) : yields w m -> (forall a, yields w (f a)) -> yields w (mbind f m).
Proof. intros [a Ea] Hf. destruct (Hf a) as [b Eb]. exists b. by rewrite (bind_ret _ _ _ _ _ Ea). Qed.

Lemma yields_assert w b : b = true -> yields w (ASSERT b).
Proof. intros ->. by exists tt. Qed.

Lemma quiet_ret (a : A) : quiet (mret a).
Proof. intros w b w' [=]. congruence. Qed.
Lemma quiet_panic why : quiet (A:=A) (panic why).
Proof. by intros w b w' [=]. Qed.
Lemma quiet_undef : quiet (A:=A) undef.
Proof. by intros w b w' [=]. Qed.

Lemma quiet_bind (m : M A) (f : A -> M B) : quiet m -> (forall a, quiet (f a)) -> quiet (mbind f m).
Proof.
  intros Hm Hf w b w' H. apply bind_inv in H as (a & w0 & E1 & E2).
  apply Hm in E1 as ->. by apply Hf in E2.
Qed.

Lemma one_line_bind (m : M A) (f : A -> M unit) : quiet m -> (forall a, one_line (f a)) -> one_line (mbind f m).
Proof.
  intros Hm Hf w w' H. apply bind_inv in H as (a & w0 & E1 & E2).
  apply Hm in E1 as ->. by apply Hf in E2.
Qed.

Lemma reports_bind w f pre (m : M A) (k : A -> M unit) :
  yields w m -> (forall a, reports w f pre (k a)) -> reports w f pre (mbind k m).
Proof. intros [a Ea] Hk. destruct (Hk a) as [r Er]. exists r. by rewrite (bind_ret _ _ _ _ _ Ea). Qed.
End computations.

Lemma one_line_report f text : one_line (Report f text).
Proof. unfold Report. destruct f; [done|]. intros w w' [= <-]. right. by eexists. Qed.

Lemma one_line_ret : one_line (mret tt).
Proof. intros w w' [= <-]. by left. Qed.

Lemma quiet_report_fatal text {A} (k : M A) : quiet (Report true text;; k).
Proof. by intros w a w' [=]. Qed.

Lemma reports_report w f pre rest : reports w f pre (Report f (pre ++ rest)).
Proof. exists rest. by destruct f. Qed.

Lemma quiet_assert b : quiet (ASSERT b).
Proof. destruct b; [apply quiet_ret|apply quiet_panic]. Qed.

Lemma quiet_nonnull {A} (p : option A) : quiet (nonnull p).
Proof. destruct p; [apply quiet_ret|apply quiet_panic]. Qed.

Lemma quiet_deref {A} (p : option A) : quiet (deref p).
Proof. destruct p; [apply quiet_ret|apply quiet_undef]. Qed.

Lemma quiet_read_loc l : quiet (read_loc l).
Proof. intros w a w'. unfold read_loc. destruct (_ !! _); [by intros [=]|done]. Qed.

Lemma quiet_read128 a : quiet (read128 a).
Proof. intros w b w' [=]. congruence. Qed.

#[export] Hint Resolve quiet_ret quiet_panic quiet_undef quiet_bind quiet_report_fatal quiet_assert quiet_nonnull
  quiet_deref quiet_read_loc quiet_read128 one_line_bind one_line_report one_line_ret
  yields_ret yields_bind yields_assert reports_bind reports_report : ubsan.

(** Case analysis on the condition at the head of a computation. *)
Ltac cases :=
  match goal with
  | |- _ (if ?b then _ else _) => destruct b eqn:?
  | |- _ (match ?p with Some _ => _ | None => _ end) => destruct p eqn:?
  end.

(** Solves [quiet] and [one_line] goals by their structure. *)
Ltac frame :=
  repeat first [apply quiet_report_fatal | apply quiet_bind; [|intros ?] | apply one_line_bind; [|intros ?] | cases];
  auto with ubsan.

Lemma quiet_width t : quiet (zDeserializeTypeWidth t).
Proof. unfold zDeserializeTypeWidth. frame. Qed.
#[export] Hint Resolve quiet_width : ubsan.

Lemma quiet_llli s t n : quiet (llliGetNumber s t n).
Proof. unfold llliGetNumber, unexpected_width. frame. Qed.
Lemma quiet_lllu s t n : quiet (llluGetNumber s t n).
Proof. unfold llluGetNumber, unexpected_width. frame. Qed.
#[export] Hint Resolve quiet_llli quiet_lllu : ubsan.

Lemma quiet_signed n t L : quiet (DeserializeNumberSigned n t L).
Proof. unfold DeserializeNumberSigned. frame. Qed.
Lemma quiet_unsigned n t L : quiet (DeserializeNumberUnsigned n t L).
Proof. unfold DeserializeNumberUnsigned. frame. Qed.
#[export] Hint Resolve quiet_signed quiet_unsigned : ubsan.

Lemma quiet_number s n t v : quiet (DeserializeNumber s n t v).
Proof. unfold DeserializeNumber. frame. Qed.
Lemma quiet_location n l : quiet (DeserializeLocation n l).
Proof. unfold DeserializeLocation. frame. Qed.
Lemma quiet_text s : quiet (text_of s).
Proof. unfold text_of. frame. Qed.
Lemma quiet_table l k : quiet (table_text l k).
Proof. unfold table_text. frame. Qed.
Lemma quiet_check_kind k : quiet (DeserializeTypeCheckKind k).
Proof. apply quiet_table. Qed.
Lemma quiet_builtin_kind k : quiet (DeserializeBuiltinCheckKind k).
Proof. apply quiet_table. Qed.
Lemma quiet_cfi_kind k : quiet (DeserializeCFICheckKind k).
Proof. apply quiet_table. Qed.
Lemma quiet_conversion_kind k : quiet (DeserializeImplicitConversionCheckKind k).
Proof. apply quiet_table. Qed.
Lemma quiet_negative s t v : quiet (isNegativeNumber s t v).
Proof. unfold isNegativeNumber. frame. Qed.
Lemma quiet_large s t v z : quiet (isShiftExponentTooLarge s t v z).
Proof. unfold isShiftExponentTooLarge. frame. Qed.
#[export] Hint Resolve quiet_number quiet_location quiet_text quiet_check_kind quiet_builtin_kind quiet_cfi_kind
  quiet_conversion_kind quiet_negative quiet_large : ubsan.

Lemma quiet_attribute l : quiet (attribute_text l).
Proof. unfold attribute_text. frame. Qed.
#[export] Hint Resolve quiet_attribute : ubsan.

(** ** Well-formed data is decoded *)

Lemma width_info n : 0 <= n < 65536 -> SHIFTOUT n (2 ^ 32 - 1 - NUMBER_SIGNED_BIT) = n / 2.
Proof.
  intros Hn. unfold SHIFTOUT. change (LOWEST_SET_BIT _) with 2.
  change (2 ^ 32 - 1 - NUMBER_SIGNED_BIT) with ((Z.ones 31) .<< 1).
  assert (n .& (Z.ones 31 .<< 1) = (n / 2) * 2) as ->; [|apply Z.div_mul; lia].
  change (n / 2 * 2) with (n / 2 ^ 1 * 2 ^ 1).
  rewrite <- Z.shiftr_div_pow2, <- Z.shiftl_mul_pow2 by lia.
  apply Z.bits_inj'. intros i Hi. rewrite Z.land_spec.
  destruct (Z.ltb_spec i 1).
  - rewrite !(Z.shiftl_spec_low _ _ i) by lia. by rewrite andb_false_r.
  - rewrite !Z.shiftl_spec_high, Z.shiftr_spec by lia. replace (i - 1 + 1) with i by lia.
    destruct (Z.ltb_spec (i - 1) 31).
    + rewrite Z.ones_spec_low by lia. by rewrite andb_true_r.
    + rewrite (Z.bits_above_log2 n i), ?andb_false_l; [done|lia|].
      destruct (Z.eq_dec n 0) as [->|]; [simpl; lia|]. apply Z.log2_lt_pow2; [lia|].
      assert (2 ^ 31 <= 2 ^ i) by (apply Z.pow_le_mono_r; lia). lia.
Qed.

(** The widths of the integer types. *)
Lemma width_cases t : int_type t = true ->
  mTypeKind t = 0 /\ 0 <= mTypeInfo t < 16 /\ (width t = 8 \/ width t = 16 \/ width t = 32 \/ width t = 64 \/ width t = 128).
Proof.
  unfold int_type, width, KIND_INTEGER. rewrite !andb_true_iff, !Z.leb_le, Z.eqb_eq. intros [[Hk H1] H2].
  repeat split; [done|lia|lia|].
  assert (mTypeInfo t / 2 = 3 \/ mTypeInfo t / 2 = 4 \/ mTypeInfo t / 2 = 5 \/ mTypeInfo t / 2 = 6 \/
          mTypeInfo t / 2 = 7) as Hc.
  { assert (3 <= mTypeInfo t / 2) by (apply Z.div_le_lower_bound; lia).
    assert (mTypeInfo t / 2 < 8) by (apply Z.div_lt_upper_bound; lia). lia. }
  destruct Hc as [-> | [-> | [-> | [-> | ->]]]]; cbv; tauto.
Qed.

Lemma width_ret t w : int_type t = true -> zDeserializeTypeWidth t w = Ret (width t) w.
Proof.
  intros Ht. destruct (width_cases t Ht) as (Hk & Hi & Hw). unfold zDeserializeTypeWidth. rewrite Hk.
  change (0 =? KIND_INTEGER) with true. cbv iota.
  rewrite (bind_ret _ _ _ _ _ eq_refl), width_info by lia.
  assert (0 <= mTypeInfo t / 2 < 8) by (split; [apply Z.div_pos; lia|apply Z.div_lt_upper_bound; lia]).
  replace (BIT (mTypeInfo t / 2)) with (width t).
  - assert (0 <? width t = true) as E by (apply Z.ltb_lt; lia). rewrite E. done.
  - unfold BIT. rewrite (proj2 (Z.leb_gt _ _)) by lia.
    change 63 with (Z.ones 6). rewrite Z.land_ones, Z.mod_small, Z.shiftl_1_l by (change (2 ^ 6) with 64; lia).
    fold (width t). symmetry. apply wrap_small. change (2 ^ 64) with 18446744073709551616. lia.
Qed.

Lemma signed_bit t : truth (mTypeInfo t .& NUMBER_SIGNED_BIT) = is_signed t.
Proof.
  unfold is_signed, NUMBER_SIGNED_BIT, truth. change 1 with (Z.ones 1). rewrite Z.land_ones by lia.
  change (2 ^ 1) with 2. rewrite Zmod_odd. by destruct (Z.odd _).
Qed.

(** The number behind an operand: its low bits for the small types, the
    sixteen bytes it points to for the 128-bit ones. *)
Definition operand (m : mem) (t : CTypeDescriptor) (ulNumber : Z) : Z :=
  let v := if width t =? 128 then ldn 16 m ulNumber else ulNumber in
  if is_signed t then sext (width t) v else v.

Lemma llli_ret s t n w : int_type t = true ->
  llliGetNumber s t n w = Ret (sext (width t) (if width t =? 128 then ldn 16 (memory w) n else n)) w.
Proof.
  intros Ht. unfold llliGetNumber. rewrite (bind_ret _ _ _ _ _ (width_ret t w Ht)).
  destruct (width_cases t Ht) as (_ & _ & [E | [E | [E | [E | E]]]]); rewrite E; reflexivity.
Qed.

Lemma lllu_ret s t n w : int_type t = true ->
  llluGetNumber s t n w = Ret (if width t =? 128 then ldn 16 (memory w) n else n) w.
Proof.
  intros Ht. unfold llluGetNumber. rewrite (bind_ret _ _ _ _ _ (width_ret t w Ht)).
  destruct (width_cases t Ht) as (_ & _ & [E | [E | [E | [E | E]]]]); rewrite E; reflexivity.
Qed.

(** The text of an operand. *)
Definition number_text (n : nat) (m : mem) (t : CTypeDescriptor) (ulNumber : Z) : list Z :=
  let v := operand m t ulNumber in
  if width t =? 128 then DeserializeUINT128 n (wrap 128 v)
  else if is_signed t then clip n (pr_d (sext 64 v)) else clip n (pr_u (u64 v)).

Lemma number_ret s n t v w : int_type t = true ->
  DeserializeNumber s n t v w = Ret (Some (number_text n (memory w) t v)) w.
Proof.
  intros Ht. unfold DeserializeNumber, number_text, operand.
  destruct (width_cases t Ht) as (Hk & _ & Hw). rewrite Hk. change (0 =? KIND_INTEGER) with true. cbv iota.
  rewrite signed_bit. destruct (is_signed t) eqn:Es.
  - rewrite (bind_ret _ _ _ _ _ (llli_ret s t v w Ht)).
    unfold DeserializeNumberSigned. rewrite signed_bit, Es.
    destruct Hw as [E | [E | [E | [E | E]]]];
      (erewrite bind_ret; [|erewrite bind_ret by reflexivity; erewrite bind_ret by (by apply width_ret); rewrite E; reflexivity]);
      rewrite E; reflexivity.
  - rewrite (bind_ret _ _ _ _ _ (lllu_ret s t v w Ht)).
    unfold DeserializeNumberUnsigned. rewrite signed_bit, Es.
    destruct Hw as [E | [E | [E | [E | E]]]];
      (erewrite bind_ret; [|erewrite bind_ret by reflexivity; erewrite bind_ret by (by apply width_ret); rewrite E; reflexivity]);
      rewrite E; reflexivity.
Qed.

(** ** First reports *)

(** A location that can be reported. *)
Definition ready (l : location) (w : world) : Prop :=
  l <> 0 /\ exists c, locs w !! l = Some c /\ mFilename c <> None.

(** The text of a location. *)
Definition loc_text (l : location) (w : world) : list Z :=
  match locs w !! l with
  | Some c => clip LOCATION_MAXLEN
                (default [] (mFilename c) ++ str ":" ++ pr_u (mLine c .& (2 ^ 31 - 1)) ++ str ":" ++ pr_u (mColumn c))
  | None => []
  end.

Definition attr_ok (c : call) (w : world) : Prop :=
  match call_attr c with Some a => a <> 0 /\ is_Some (locs w !! a) | None => True end.

Lemma yields_number w s n t v : int_type t = true -> yields w (DeserializeNumber s n t v ≫= text_of).
Proof. intros Ht. eexists. by rewrite (bind_ret _ _ _ _ _ (number_ret s n t v w Ht)). Qed.

Lemma reports_number w f pre s n t v (k : option (list Z) -> M unit) :
  int_type t = true -> (forall s, reports w f pre (k (Some s))) ->
  reports w f pre (DeserializeNumber s n t v ≫= k).
Proof.
  intros Ht Hk. destruct (Hk (number_text n (memory w) t v)) as [r Er]. exists r.
  by rewrite (bind_ret _ _ _ _ _ (number_ret s n t v w Ht)).
Qed.

Lemma yields_text w s : yields w (text_of (Some s)).
Proof. by eexists. Qed.

Lemma yields_table w l k : (k <? Z.of_nat (length l)) = true -> yields w (table_text l k).
Proof. intros E. unfold table_text. rewrite E. by eexists. Qed.

Lemma yields_check_kind w k : (k <? 12) = true -> yields w (DeserializeTypeCheckKind k).
Proof. exact (yields_table w rgczTypeCheckKinds k). Qed.
Lemma yields_builtin_kind w k : (k <? 2) = true -> yields w (DeserializeBuiltinCheckKind k).
Proof. exact (yields_table w rgczBuiltinCheckKinds k). Qed.
Lemma yields_cfi_kind w k : (k <? 7) = true -> yields w (DeserializeCFICheckKind k).
Proof. exact (yields_table w rgczCFICheckKinds k). Qed.
Lemma yields_conversion_kind w k : (k <? 5) = true -> yields w (DeserializeImplicitConversionCheckKind k).
Proof. exact (yields_table w rgczImplicitConversionCheckKind k). Qed.

Lemma yields_deref {A} w (a : A) : yields w (deref (Some a)).
Proof. by eexists. Qed.

Lemma yields_width w t : int_type t = true -> yields w (zDeserializeTypeWidth t).
Proof. eexists. by apply width_ret. Qed.

Lemma negative_ret w s t v : int_type t = true ->
  isNegativeNumber s t v w = Ret ((operand (memory w) t v <? 0) && is_signed t) w.
Proof.
  intros Ht. unfold isNegativeNumber, operand. destruct (width_cases t Ht) as (Hk & _ & _).
  rewrite Hk, signed_bit. erewrite bind_ret by reflexivity. destruct (is_signed t); simpl.
  - rewrite (bind_ret _ _ _ _ _ (llli_ret s t v w Ht)), andb_true_r. done.
  - by rewrite andb_false_r.
Qed.

Lemma large_ret w s t v z : int_type t = true ->
  isShiftExponentTooLarge s t v z w =
  Ret (z <=? if width t =? 128 then ldn 16 (memory w) v else v) w.
Proof.
  intros Ht. unfold isShiftExponentTooLarge. destruct (width_cases t Ht) as (Hk & _ & _). rewrite Hk.
  erewrite bind_ret by reflexivity. by rewrite (bind_ret _ _ _ _ _ (lllu_ret s t v w Ht)).
Qed.

Lemma yields_negative w s t v : int_type t = true -> yields w (isNegativeNumber s t v).
Proof. eexists. by apply negative_ret. Qed.
Lemma yields_large w s t v z : int_type t = true -> yields w (isShiftExponentTooLarge s t v z).
Proof. eexists. by apply large_ret. Qed.

Lemma reports_text w f pre sz rest : pre = UB_IN ++ sz -> reports w f pre (Report f (UB_IN ++ sz ++ rest)).
Proof. intros ->. rewrite app_assoc. apply reports_report. Qed.

Lemma yields_attribute w (a : location) : a <> 0 -> is_Some (locs w !! a) -> yields w (attribute_text a).
Proof.
  intros H0 [c E]. unfold attribute_text, yields.
  assert (read_loc a w = Ret c w) as R by (unfold read_loc; by rewrite E).
  rewrite (bind_ret _ _ _ _ _ R). destruct (mFilename c) eqn:Ef; [|by eexists].
  eexists. erewrite bind_ret; [reflexivity|]. unfold DeserializeLocation.
  rewrite (proj2 (Z.eqb_neq a 0) H0). erewrite bind_ret by reflexivity.
  rewrite (bind_ret _ _ _ _ _ R), Ef. reflexivity.
Qed.

#[export] Hint Resolve yields_text yields_check_kind yields_builtin_kind yields_cfi_kind yields_conversion_kind yields_deref yields_width yields_negative yields_large
  yields_attribute : ubsan.

(** Solves [reports] goals by the structure of the handler. *)
Ltac reporting :=
  repeat first
    [ apply reports_number; [done|intros ?]
    | apply reports_bind; [solve [auto with ubsan]|intros ?]
    | cases ];
  try (apply reports_text; reflexivity).

Lemma reports_shift w f s d x y sx sy :
  int_type (sh_lhs d) = true -> int_type (sh_rhs d) = true ->
  reports w f (UB_IN ++ s) (shift_report f s d x y (Some sx) (Some sy)).
Proof. intros. unfold shift_report. reporting. Qed.

(** Every handler is a first-time report of its location: the rest [k] of the
    handler adds at most one line, and reports when the data is well-formed. *)
Definition handler (c : call) (l : location) (k : list Z -> M unit) : Prop :=
  (forall w, run_call c w = first_time l k w) /\
  (forall s, one_line (k s)) /\
  (wf_call c = true -> forall w s, attr_ok c w -> reports w (call_fatal c) (UB_IN ++ s) (k s)).

Lemma assert_nonzero (l : location) w : (l =? 0) = false -> ASSERT (negb (l =? 0)) w = Ret tt w.
Proof. by intros ->. Qed.

(** Passes the assertions of a handler and reads its continuation off. *)
Ltac handled :=
  eexists; split;
    [intros w;
     repeat (erewrite bind_ret; [|first [reflexivity | by apply assert_nonzero]]); reflexivity|];
  split; [intros s; unfold shift_report; frame|
    cbn [wf_call call_fatal]; unfold attr_ok; cbn [call_attr]; rewrite ?andb_true_iff; intros Hwf w s Hattr].

Lemma call_form c l : call_loc c = Some l -> l <> 0 -> exists k, handler c l k.
Proof.
  intros Hl H0. unfold handler. apply Z.eqb_neq in H0.
  destruct c; try destruct op; try destruct nb; try destruct abort; cbn [call_loc] in Hl; simplify_eq.
  all: cbn [run_call]; cbv [variant];
    unfold __ubsan_handle_nonnull_return_v1, __ubsan_handle_nonnull_return_v1_abort,
      __ubsan_handle_nullability_return_v1, __ubsan_handle_nullability_return_v1_abort,
      __ubsan_handle_type_mismatch, __ubsan_handle_type_mismatch_abort,
      __ubsan_handle_type_mismatch_v1, __ubsan_handle_type_mismatch_v1_abort,
      HandleNonnullReturn, HandleTypeMismatch; handled.
  all: repeat match goal with H : _ /\ _ |- _ => destruct H end.
  all: try solve [reporting].
  all: try solve [reporting; by apply reports_shift].
  all: rewrite Hwf; assert ((cfi_kind d <? 7) = true)
         by (apply orb_true_iff in Hwf as [->%Z.eqb_eq | ->%Z.eqb_eq]; reflexivity); reporting.
Qed.

(** ** Marking a location *)

Lemma ack_bit n : Z.testbit (n .| ACK_REPORTED) 31 = true.
Proof. rewrite Z.lor_spec. change (Z.testbit ACK_REPORTED 31) with true. apply orb_true_r. Qed.

Lemma seen_bit n : truth (n .& ACK_REPORTED) = Z.testbit n 31.
Proof.
  unfold truth, ACK_REPORTED. destruct (Z.eqb_spec (n .& 2 ^ 31) 0) as [E|E]; simpl.
  - assert (Z.testbit (n .& 2 ^ 31) 31 = false) as H by (rewrite E; apply Z.bits_0).
    rewrite Z.land_spec, Z.pow2_bits_true, andb_true_r in H by lia. done.
  - destruct (Z.testbit n 31) eqn:Eb; [done|]. destruct E. apply Z.bits_inj'. intros i Hi.
    rewrite Z.land_spec, Z.bits_0, Z.pow2_bits_eqb by lia.
    destruct (Z.eqb_spec 31 i) as [<-|]; [by rewrite Eb|apply andb_false_r].
Qed.

Lemma ack_idemp n : Z.testbit n 31 = true -> n .| ACK_REPORTED = n.
Proof.
  intros Hb. apply Z.bits_inj'. intros i Hi. unfold ACK_REPORTED.
  rewrite Z.lor_spec, Z.pow2_bits_eqb by lia. destruct (Z.eqb_spec 31 i) as [<-|]; [by rewrite Hb|apply orb_false_r].
Qed.

Lemma ack_masked n : (n .| ACK_REPORTED) .& (2 ^ 31 - 1) = n .& (2 ^ 31 - 1).
Proof. rewrite Z.land_lor_distr_l. change (ACK_REPORTED .& (2 ^ 31 - 1)) with 0. apply Z.lor_0_r. Qed.

Lemma isAlreadyReported_eq (l : location) w c : l <> 0 -> locs w !! l = Some c ->
  isAlreadyReported l w = Ret (Z.testbit (mLine c) 31) (mark l w).
Proof.
  intros H0 Hc. unfold isAlreadyReported. apply Z.eqb_neq in H0.
  rewrite (bind_ret _ _ _ _ _ (assert_nonzero l w H0)).
  assert (read_loc l w = Ret c w) as R by (unfold read_loc; by rewrite Hc).
  rewrite (bind_ret _ _ _ _ _ R). erewrite bind_ret by reflexivity. rewrite seen_bit.
  unfold mret, M_ret, mark. do 2 f_equal. apply map_eq. intros l'.
  destruct (decide (l = l')) as [<-|Hn]; [by rewrite lookup_insert_eq, lookup_alter, decide_True, Hc|].
  by rewrite lookup_insert_ne, lookup_alter_ne.
Qed.

Lemma mark_same l w : reported l w -> mark l w = w.
Proof.
  intros (c & Hc & Hb). destruct w as [ls m lg]. unfold mark. simpl in *. f_equal. apply map_eq. intros l'.
  destruct (decide (l = l')) as [<-|Hn]; [|by rewrite lookup_alter_ne].
  rewrite lookup_alter, decide_True, Hc by done. simpl. unfold ack. rewrite ack_idemp by done. by destruct c.
Qed.

Lemma mark_reported l w : is_Some (locs w !! l) -> reported l (mark l w).
Proof.
  intros [c Hc]. exists (ack c). unfold mark. simpl.
  rewrite lookup_alter, decide_True, Hc by done. split; [done|apply ack_bit].
Qed.

Lemma location_ret (l : location) w : ready l w -> DeserializeLocation LOCATION_MAXLEN l (mark l w) = Ret (loc_text l w) (mark l w).
Proof.
  intros (H0 & c & Hc & Hf). unfold DeserializeLocation. apply Z.eqb_neq in H0.
  rewrite (bind_ret _ _ _ _ _ (assert_nonzero l _ H0)).
  assert (read_loc l (mark l w) = Ret (ack c) (mark l w)) as R.
  { unfold read_loc, mark. simpl. by rewrite lookup_alter, decide_True, Hc. }
  rewrite (bind_ret _ _ _ _ _ R). unfold loc_text. rewrite Hc. cbn [ack mFilename mLine mColumn].
  destruct (mFilename c) as [f|]; [|done]. cbn [default]. by rewrite ack_masked.
Qed.

(** ** What a call does *)

Lemma reported_lookup l w c : locs w !! l = Some c -> Z.testbit (mLine c) 31 = false -> ~ reported l w.
Proof. intros Hc Hb (c' & Hc' & Hb'). rewrite Hc in Hc'. simplify_eq. congruence. Qed.

Lemma first_time_new l k w : ready l w -> ~ reported l w -> first_time l k w = k (loc_text l w) (mark l w).
Proof.
  intros Hr Hn. pose proof Hr as (H0 & c & Hc & _). unfold first_time.
  rewrite (bind_ret _ _ _ _ _ (isAlreadyReported_eq l w c H0 Hc)).
  destruct (Z.testbit (mLine c) 31) eqn:Eb; [destruct Hn; by exists c|].
  by rewrite (bind_ret _ _ _ _ _ (location_ret l w Hr)).
Qed.

Lemma first_time_seen l k w : l <> 0 -> reported l w -> first_time l k w = Ret tt w.
Proof.
  intros H0 Hr. pose proof Hr as (c & Hc & Hb). unfold first_time.
  rewrite (bind_ret _ _ _ _ _ (isAlreadyReported_eq l w c H0 Hc)), Hb. by rewrite mark_same.
Qed.

Lemma attr_ok_mark c l w : attr_ok c w -> attr_ok c (mark l w).
Proof.
  unfold attr_ok. destruct (call_attr c) as [a|]; [|done]. intros [H0 [x Hx]]. split; [done|].
  unfold mark. simpl. rewrite lookup_alter. case_decide; [subst; rewrite Hx; by eexists|by eexists].
Qed.

(** The first report of a location.  A call of any public handler with
    well-formed data, at a location that is not yet reported, sets the location's
    report bit and produces exactly one text, which starts with the prefix and
    the location: as the panic message when the call is fatal, as one log line
    otherwise; nothing else changes. *)
Theorem ubsan_first_report (c : call) (l : location) (w : world) :
  call_loc c = Some l -> wf_call c = true -> attr_ok c w -> ready l w -> ~ reported l w ->
  exists rest, let text := UB_IN ++ loc_text l w ++ rest in
    run_call c w = if call_fatal c then Panic (VPANIC (clip 1024 text)) (mark l w)
                   else Ret tt (add_line (log_text text) (mark l w)).
Proof.
  intros Hl Hwf Ha Hr Hn. destruct (call_form c l Hl (proj1 Hr)) as (k & Hrun & _ & Hk).
  destruct (Hk Hwf (mark l w) (loc_text l w) (attr_ok_mark _ _ _ Ha)) as [rest E].
  exists rest. cbv zeta. rewrite Hrun, first_time_new, E by done. by rewrite <- app_assoc.
Qed.

(** A call at location 0 fails an assertion. *)
Lemma call_null c w : call_loc c = Some 0 -> run_call c w = Panic KASSERT_failed w.
Proof.
  destruct c; try destruct op; try destruct nb; try destruct abort; cbn [call_loc]; intros [= E];
    destruct d; simpl in E; subst; reflexivity.
Qed.

#[export] Instance reported_dec l w : Decision (reported l w).
Proof.
  unfold reported. destruct (locs w !! l) as [c|]; [|right; naive_solver].
  destruct (Z.testbit (mLine c) 31) eqn:E; [left; eauto|right; naive_solver congruence].
Defined.

(** A call that returns: silent when its location is reported, else it reports
    it and adds at most one line. *)
Lemma call_returns c l w w' : call_loc c = Some l -> run_call c w = Ret tt w' ->
  l <> 0 /\ (if decide (reported l w) then w' = w
            else is_Some (locs w !! l) /\ (w' = mark l w \/ exists line, w' = add_line line (mark l w))).
Proof.
  intros Hl Hrun. destruct (Z.eq_dec l 0) as [->|H0]; [by rewrite call_null in Hrun|]. split; [done|].
  destruct (call_form c l Hl H0) as (k & Hk & Hone & _). rewrite Hk in Hrun.
  destruct (decide (reported l w)) as [Hr|Hn].
  { rewrite first_time_seen in Hrun by done. by simplify_eq. }
  unfold first_time in Hrun. destruct (locs w !! l) as [c'|] eqn:Ec.
  - rewrite (bind_ret _ _ _ _ _ (isAlreadyReported_eq l w c' H0 Ec)) in Hrun.
    destruct (Z.testbit (mLine c') 31) eqn:Eb; [destruct Hn; by exists c'|].
    apply bind_inv in Hrun as (s & w0 & E1 & E2). apply quiet_location in E1 as ->. split; [done|].
    by apply (Hone s) in E2.
  - unfold isAlreadyReported in Hrun. apply bind_inv in Hrun as (b & w0 & E1 & _).
    apply bind_inv in E1 as (u & w1 & E1 & E2). apply quiet_assert in E1 as ->.
    apply bind_inv in E2 as (c' & w2 & E2 & _). unfold read_loc in E2. by rewrite Ec in E2.
Qed.

Lemma reported_mark l l' w : is_Some (locs w !! l) -> reported l' (mark l w) <-> l' = l \/ reported l' w.
Proof.
  intros Hl. destruct (decide (l' = l)) as [->|Hn].
  - split; [auto|]. intros _. by apply mark_reported.
  - unfold reported, mark. simpl. rewrite lookup_alter_ne by congruence. naive_solver.
Qed.

(** ** Sequences of calls *)

Fixpoint run_calls (cs : list call) : M unit :=
  match cs with
  | [] => mret tt
  | c :: cs => run_call c;; run_calls cs
  end.

(** The locations of a sequence that are not reported before it. *)
Definition call_locs (cs : list call) : gset location := list_to_set (omap call_loc cs).
Definition fresh (cs : list call) (w : world) : gset location := filter (fun l => ~ reported l w) (call_locs cs).

Lemma call_silent c w : (forall l, call_loc c = Some l -> l <> 0 /\ reported l w) -> run_call c w = Ret tt w.
Proof.
  intros H. destruct (call_loc c) as [l|] eqn:El.
  - destruct (H l eq_refl) as [H0 Hr]. destruct (call_form c l El H0) as (k & Hk & _). rewrite Hk.
    by apply first_time_seen.
  - destruct c; try done. by destruct abort.
Qed.

Lemma calls_silent cs w : (forall l, l ∈ call_locs cs -> l <> 0 /\ reported l w) -> run_calls cs w = Ret tt w.
Proof.
  unfold call_locs. induction cs as [|c cs IH]; intros H; [done|]. cbn [run_calls].
  rewrite (bind_ret _ _ _ tt w).
  - apply IH. intros l Hl. apply H. simpl. destruct (call_loc c); set_solver.
  - apply call_silent. intros l El. apply H. simpl. rewrite El. set_solver.
Qed.

(** The lines a call may add. *)
Definition budget (c : call) (w : world) : nat :=
  match call_loc c with
  | Some l => if decide (reported l w) then 0 else 1
  | None => 0
  end.

(** What the world after one call says about the locations. *)
Lemma call_step c w w' : run_call c w = Ret tt w' ->
  (forall l, call_loc c = Some l -> l <> 0) /\
  (forall l, reported l w' <-> call_loc c = Some l \/ reported l w) /\
  exists lines, log w' = log w ++ lines /\ (length lines <= budget c w)%nat.
Proof.
  intros Hrun. unfold budget. destruct (call_loc c) as [l|] eqn:El.
  - destruct (call_returns c l w w' El Hrun) as [H0 H]. split; [congruence|].
    destruct (decide (reported l w)) as [Hr|Hn].
    + subst w'. split; [naive_solver|]. exists []. rewrite app_nil_r. split; [done|simpl; lia].
    + destruct H as [Hs H]. split.
      * intros l'. trans (reported l' (mark l w)); [by destruct H as [-> | [line ->]]|].
        rewrite reported_mark by done. naive_solver.
      * destruct H as [-> | [line ->]]; [exists []; rewrite app_nil_r|exists [line]]; split; simpl; auto.
  - rewrite call_silent in Hrun by congruence. simplify_eq. split; [done|]. split; [naive_solver|].
    exists []. rewrite app_nil_r. split; [done|simpl; lia].
Qed.

Lemma fresh_cons c cs w w' : (forall l, reported l w' <-> call_loc c = Some l \/ reported l w) ->
  (budget c w + size (fresh cs w') <= size (fresh (c :: cs) w))%nat.
Proof.
  intros Hw. assert (fresh cs w' ⊆ fresh (c :: cs) w) as Hsub.
  { unfold fresh, call_locs. intros l. rewrite !elem_of_filter, Hw. cbn [omap list_omap].
    destruct (call_loc c); set_solver. }
  unfold budget. destruct (call_loc c) as [l|] eqn:El; [case_decide as Hn|]; try by apply subseteq_size.
  rewrite <- (size_singleton (C:=gset location) l), <- size_union.
  - apply subseteq_size. intros l'. rewrite elem_of_union, elem_of_singleton. intros [-> | H]; [|by apply Hsub].
    unfold fresh, call_locs. cbn [omap list_omap]. rewrite El. set_solver.
  - unfold fresh. intros l'. rewrite elem_of_singleton, elem_of_filter, Hw. naive_solver.
Qed.

Lemma calls_run cs w w' : run_calls cs w = Ret tt w' ->
  (forall l, l ∈ call_locs cs -> l <> 0 /\ reported l w') /\
  (forall l, reported l w -> reported l w') /\
  exists lines, log w' = log w ++ lines /\ (length lines <= size (fresh cs w))%nat.
Proof.
  revert w. induction cs as [|c cs IH]; intros w Hrun.
  { injection Hrun as <-. split; [set_solver|]. split; [done|]. exists []. rewrite app_nil_r. split; [done|simpl; lia]. }
  cbn [run_calls] in Hrun. apply bind_inv in Hrun as ([] & w1 & E1 & E2).
  destruct (call_step c w w1 E1) as (H0 & Hrep & lines1 & Hl1 & Hn1).
  destruct (IH w1 E2) as (Hall & Hmono & lines2 & Hl2 & Hn2). split.
  - intros l Hl. unfold call_locs in Hl. cbn [omap list_omap] in Hl.
    destruct (call_loc c) as [l0|] eqn:El; [|by apply Hall].
    apply elem_of_list_to_set, elem_of_cons in Hl as [-> | Hl]; [|by apply Hall, elem_of_list_to_set].
    split; [by apply H0|]. apply Hmono, Hrep. auto.
  - split; [intros; apply Hmono, Hrep; auto|]. exists (lines1 ++ lines2). rewrite Hl2, Hl1, app_assoc.
    split; [done|]. rewrite length_app. pose proof (fresh_cons c cs w w1 Hrep). lia.
Qed.

(** C30: A location is reported once.  Over any sequence of handler calls that
    returns, with any data, the log grows by at most one line per distinct
    location that was not reported before; afterwards all locations of the
    sequence are reported, and running the same calls again changes nothing. *)
Theorem ubsan_reported_once (cs : list call) (w w' : world) :
  run_calls cs w = Ret tt w' ->
  (exists lines, log w' = log w ++ lines /\ (length lines <= size (fresh cs w))%nat) /\
  (forall l, l ∈ call_locs cs -> reported l w') /\
  run_calls cs w' = Ret tt w'.
Proof.
  intros Hrun. destruct (calls_run cs w w' Hrun) as (Hall & _ & Hlog). split; [done|].
  split; [intros l Hl; by apply Hall|]. by apply calls_silent.
Qed.

(** ** Numbers as text *)

Lemma length_digits fuel base n : (length (digits fuel base n) <= fuel)%nat.
Proof.
  revert n. induction fuel as [|fuel IH]; intros n; cbn [digits length]; [lia|].
  destruct (_ =? 0); simpl; [lia|]. specialize (IH (n / base)). lia.
Qed.

Lemma length_pr_d n : (length (pr_d n) <= 65)%nat.
Proof.
  assert (forall m, length (pr_u m) <= 64)%nat.
  { intros m. unfold pr_u. rewrite length_rev, length_map. apply length_digits. }
  unfold pr_d. destruct (n <? 0); simpl; [specialize (H (- n))|specialize (H n)]; lia.
Qed.

(** The text of a number fits its buffer. *)
Lemma clip_pr_d n : clip NUMBER_MAXLEN (pr_d n) = pr_d n.
Proof. apply take_ge. pose proof (length_pr_d n). unfold NUMBER_MAXLEN. lia. Qed.
Lemma clip_pr_u n : 0 <= n -> clip NUMBER_MAXLEN (pr_u n) = pr_u n.
Proof. intros Hn. pose proof (clip_pr_d n) as H. unfold pr_d in H. by rewrite (proj2 (Z.ltb_ge n 0)) in H. Qed.

Lemma sext_id w z : 0 < w -> - 2 ^ (w - 1) <= z < 2 ^ (w - 1) -> sext w z = z.
Proof.
  intros Hw Hz. assert (2 ^ w = 2 * 2 ^ (w - 1)) as Hp by (rewrite <- Z.pow_succ_r by lia; f_equal; lia).
  pose proof (sext_wrap w z Hw) as E. pose proof (sext_range w z Hw) as R.
  unfold wrap in E. assert ((sext w z - z) mod 2 ^ w = 0) as D.
  { rewrite Zminus_mod, E, Z.sub_diag. apply Z.mod_0_l. lia. }
  apply Z.mod_divide in D as [q Dq]; [|lia]. assert (q = 0) by nia. nia.
Qed.

(** The bytes of [v] from byte [n - 1] down. *)
Lemma read_hex_bytes v n acc : 0 <= v ->
  read_digits 16 acc (concat (map (fun i => pr_02x (v / 2 ^ (8 * i))) (rev (seqZ 0 (Z.of_nat n))))) =
  Some (acc * 2 ^ (8 * Z.of_nat n) + v mod 2 ^ (8 * Z.of_nat n)).
Proof.
  intros Hv. revert acc. induction n as [|n IH]; intros acc; [simpl; by rewrite Z.mod_1_r, Z.mul_1_r, Z.add_0_r|].
  rewrite seqZ_S, rev_app_distr, Nat2Z.inj_succ by lia.
  cbn [rev app map concat]. change (0 + Z.of_nat n) with (Z.of_nat n).
  set (b := u8 (v / 2 ^ (8 * Z.of_nat n))).
  assert (0 <= b < 256) as Hb by (apply wrap_range; lia).
  unfold pr_02x. fold b. cbn [app read_digits].
  rewrite !digit_roundtrip by (try split; try apply Z.mod_pos_bound; try apply Z.div_pos;
    try apply Z.div_lt_upper_bound; lia).
  rewrite IH. f_equal. replace ((acc * 16 + b / 16) * 16 + b mod 16) with (acc * 256 + b)
    by (pose proof (Z.div_mod b 16); lia).
  replace (8 * Z.succ (Z.of_nat n)) with (8 * Z.of_nat n + 8) by lia. rewrite Z.pow_add_r by lia.
  rewrite (Z.rem_mul_r v) by (try apply Z.pow_pos_nonneg; lia). subst b. unfold wrap. lia.
Qed.

Lemma hex_length v l : length (concat (map (fun i => pr_02x (v / 2 ^ (8 * i))) l)) = (2 * length l)%nat.
Proof. induction l as [|i l IH]; [done|]. cbn [map concat]. rewrite length_app, IH. simpl. lia. Qed.

(** Operands are printed as the number they encode.  An integer operand of 8
    to 64 bits prints as a text that reads back as the two's complement value of
    its low bits for a signed type and as the operand for an unsigned one; a
    128-bit operand prints as 32 hexadecimal digits that read back as the sixteen
    bytes it points to. *)
Theorem ubsan_number_text (s : list Z) (t : CTypeDescriptor) (ulNumber : Z) (w : world) :
  int_type t = true -> 0 <= ulNumber < 2 ^ 64 ->
  exists text, DeserializeNumber s NUMBER_MAXLEN t ulNumber w = Ret (Some text) w /\
    (width t <> 128 -> read_int text = Some (if is_signed t then sext (width t) ulNumber else ulNumber)) /\
    (width t = 128 -> exists hex, text = str "Undecoded-128-bit-Integer-Type (0x" ++ hex ++ str ")" /\
       length hex = 32%nat /\ read_digits 16 0 hex = Some (ldn 16 (memory w) ulNumber)).
Proof.
  intros Ht Hn. exists (number_text NUMBER_MAXLEN (memory w) t ulNumber). split; [by apply number_ret|].
  unfold number_text, operand. split; intros Hw.
  - apply Z.eqb_neq in Hw. rewrite Hw. destruct (width_cases t Ht) as (_ & _ & Hc).
    apply Z.eqb_neq in Hw. destruct (is_signed t).
    + assert (- 2 ^ 63 <= sext (width t) ulNumber < 2 ^ 63) as Hr.
      { pose proof (sext_range (width t) ulNumber ltac:(lia)) as R.
        assert (2 ^ (width t - 1) <= 2 ^ 63) by (apply Z.pow_le_mono_r; lia). lia. }
      rewrite clip_pr_d, (sext_id 64) by (simpl; lia). by apply read_pr_d.
    + rewrite clip_pr_u, wrap_small by (try apply wrap_range; lia). by apply read_pr_u.
  - rewrite Hw. change (128 =? 128) with true. cbv iota.
    assert (0 <= ldn 16 (memory w) ulNumber < 2 ^ 128) as Hr.
    { pose proof (ldn_range 16 (memory w) ulNumber). change (2 ^ 128) with (256 ^ Z.of_nat 16). lia. }
    replace (wrap 128 _) with (ldn 16 (memory w) ulNumber)
      by (destruct (is_signed t); rewrite ?sext_wrap, wrap_small; lia).
    unfold DeserializeUINT128. eexists. split; [|split].
    + apply take_ge. rewrite !length_app, hex_length, length_rev, length_seqZ. vm_compute. lia.
    + rewrite hex_length, length_rev, length_seqZ. done.
    + change 16 with (Z.of_nat 16) at 2. rewrite read_hex_bytes by lia. simpl Z.mul at 1. f_equal.
      rewrite Z.add_0_l. apply Z.mod_small. done.
Qed.

(** ** The messages of the two handlers that choose *)

(** The outcome of reporting [text] at [l]. *)
Definition report_at (f : bool) (l : location) (w : world) (text : list Z) : out unit :=
  if f then Panic (VPANIC (clip 1024 text)) (mark l w) else Ret tt (add_line (log_text text) (mark l w)).

Lemma Report_eq f text l w : Report f text (mark l w) = report_at f l w text.
Proof. by destruct f. Qed.

(** The bits of an operand; the compiler extends small ones with zeros. *)
Definition raw (m : mem) (t : CTypeDescriptor) (n : Z) : Z := if width t =? 128 then ldn 16 m n else n.

Lemma operand_raw m t n : int_type t = true -> 0 <= raw m t n < 2 ^ width t -> 0 <= operand m t n ->
  operand m t n = raw m t n.
Proof.
  intros Ht Hr. unfold operand. fold (raw m t n). destruct (is_signed t); [|done].
  assert (0 <= width t) by (destruct (width_cases t Ht) as (_ & _ & Hc); lia).
  pose proof (wrap_range (width t) ltac:(lia) (raw m t n)).
  unfold sext. rewrite wrap_small by lia. case_cmp; [done|]. lia.
Qed.

Lemma operand_signed m t n : int_type t = true -> 0 <= raw m t n < 2 ^ width t ->
  (operand m t n <? 0) && is_signed t = (operand m t n <? 0).
Proof.
  intros Ht Hr. destruct (is_signed t) eqn:Es; [apply andb_true_r|]. rewrite andb_false_r. symmetry.
  apply Z.ltb_ge. unfold operand. rewrite Es. fold (raw m t n). lia.
Qed.

(** What a bad shift is said to be, from the values of the operands. *)
Definition shift_text (m : mem) (d : CShiftOutOfBoundsData) (x y : Z) : list Z :=
  let v := operand m (sh_lhs d) x in
  let e := operand m (sh_rhs d) y in
  let vt := number_text NUMBER_MAXLEN m (sh_lhs d) x in
  let et := number_text NUMBER_MAXLEN m (sh_rhs d) y in
  if e <? 0 then str ", shift exponent " ++ et ++ str " is negative" ++ [10]
  else if width (sh_lhs d) <=? e then
    str ", shift exponent " ++ et ++ str " is too large for " ++ pr_u (width (sh_lhs d)) ++ str "-bit type " ++
    mTypeName (sh_lhs d) ++ [10]
  else if v <? 0 then str ", left shift of negative value " ++ vt ++ [10]
  else str ", left shift of " ++ vt ++ str " by " ++ et ++ str " places cannot be represented in type " ++
       mTypeName (sh_lhs d) ++ [10].

Lemma shift_report_eq f s d x y l w :
  int_type (sh_lhs d) = true -> int_type (sh_rhs d) = true ->
  0 <= raw (memory w) (sh_lhs d) x < 2 ^ width (sh_lhs d) ->
  0 <= raw (memory w) (sh_rhs d) y < 2 ^ width (sh_rhs d) ->
  shift_report f s d x y (Some (number_text NUMBER_MAXLEN (memory w) (sh_lhs d) x))
                         (Some (number_text NUMBER_MAXLEN (memory w) (sh_rhs d) y)) (mark l w) =
  report_at f l w (UB_IN ++ s ++ shift_text (memory w) d x y).
Proof.
  intros Hl Hr Hx Hy. unfold shift_report, shift_text. cbv zeta.
  rewrite (bind_ret _ _ _ _ _ (negative_ret (mark l w) s (sh_rhs d) y Hr)). cbn [memory mark].
  rewrite operand_signed by done. destruct (Z.ltb_spec (operand (memory w) (sh_rhs d) y) 0) as [|He]; [apply Report_eq|].
  rewrite (bind_ret _ _ _ _ _ (width_ret (sh_lhs d) (mark l w) Hl)).
  rewrite (bind_ret _ _ _ _ _ (large_ret (mark l w) s (sh_rhs d) y _ Hr)). cbn [memory mark].
  fold (raw (memory w) (sh_rhs d) y). rewrite <- operand_raw by done.
  destruct (Z.leb_spec (width (sh_lhs d)) (operand (memory w) (sh_rhs d) y)); [apply Report_eq|].
  rewrite (bind_ret _ _ _ _ _ (negative_ret (mark l w) s (sh_lhs d) x Hl)). cbn [memory mark].
  rewrite operand_signed by done. erewrite bind_ret by reflexivity.
  destruct (operand (memory w) (sh_lhs d) x <? 0); apply Report_eq.
Qed.

(** A bad shift is classified by the values of its operands: a negative
    exponent, an exponent of at least the width of the left operand, a negative
    left operand, or a result that does not fit, in that order; the text names
    the offending values. *)
Theorem ubsan_shift_message (abort : bool) (d : CShiftOutOfBoundsData) (x y : Z) (w : world) :
  int_type (sh_lhs d) = true -> int_type (sh_rhs d) = true ->
  0 <= raw (memory w) (sh_lhs d) x < 2 ^ width (sh_lhs d) ->
  0 <= raw (memory w) (sh_rhs d) y < 2 ^ width (sh_rhs d) ->
  ready (sh_loc d) w -> ~ reported (sh_loc d) w ->
  run_call (ShiftOutOfBounds abort d x y) w =
  report_at abort (sh_loc d) w (UB_IN ++ loc_text (sh_loc d) w ++ shift_text (memory w) d x y).
Proof.
  intros Hl Hr Hx Hy Hready Hn.
  assert (forall f, HandleShiftOutOfBounds f (Some d) x y w =
    report_at f (sh_loc d) w (UB_IN ++ loc_text (sh_loc d) w ++ shift_text (memory w) d x y)) as E.
  { intros f. unfold HandleShiftOutOfBounds. erewrite bind_ret by reflexivity. rewrite first_time_new by done.
    rewrite (bind_ret _ _ _ _ _ (number_ret _ _ (sh_lhs d) x (mark (sh_loc d) w) Hl)).
    rewrite (bind_ret _ _ _ _ _ (number_ret _ _ (sh_rhs d) y (mark (sh_loc d) w) Hr)).
    exact (shift_report_eq f (loc_text (sh_loc d) w) d x y (sh_loc d) w Hl Hr Hx Hy). }
  destruct abort; apply E.
Qed.

(** What a bad access through [p] to a type of alignment [2 ^ log] is said to be. *)
Definition mismatch_text (t : CTypeDescriptor) (log kind p : Z) : list Z :=
  let what := str ", " ++ str (nth (Z.to_nat kind) rgczTypeCheckKinds ""%string) in
  if p =? 0 then what ++ str " null pointer of type " ++ mTypeName t ++ [10]
  else if p mod 2 ^ log =? 0 then
    what ++ str " address " ++ pr_alt p ++ str " with insufficient space for an object of type " ++ mTypeName t ++ [10]
  else what ++ str " misaligned address " ++ pr_alt p ++ str " for type " ++ mTypeName t ++ str " which requires " ++
       pr_d (sext 64 (2 ^ log)) ++ str " byte alignment" ++ [10].

Lemma bit_value n : 0 <= n < 64 -> BIT n = 2 ^ n.
Proof.
  intros Hn. unfold BIT. rewrite (proj2 (Z.leb_gt _ _)) by lia. change 63 with (Z.ones 6).
  rewrite Z.land_ones, Z.mod_small, Z.shiftl_1_l by (change (2 ^ 6) with 64; lia).
  apply wrap_small. split; [apply Z.pow_nonneg; lia|]. apply Z.pow_lt_mono_r; lia.
Qed.

Lemma align_mask n p : 0 <= n < 64 -> truth (u64 (2 ^ n - 1) .& p) = negb (p mod 2 ^ n =? 0).
Proof.
  intros Hn. assert (2 ^ n <= 2 ^ 63) by (apply Z.pow_le_mono_r; lia).
  rewrite wrap_small by (pose proof (Z.pow_pos_nonneg 2 n); lia).
  replace (2 ^ n - 1) with (Z.ones n) by (rewrite Z.ones_equiv; lia).
  by rewrite Z.land_comm, Z.land_ones by lia.
Qed.

(** The classification of [type_mismatch_v1]: a null pointer, an address
    that is not a multiple of the required power of two, or an address without
    space for the object. *)
Theorem ubsan_type_mismatch_message (abort : bool) (d : CTypeMismatchData_v1) (p : Z) (w : world) :
  0 <= t1_log d < 64 -> 0 <= t1_kind d < 12 -> ready (t1_loc d) w -> ~ reported (t1_loc d) w ->
  run_call (TypeMismatch_v1 abort d p) w =
  report_at abort (t1_loc d) w (UB_IN ++ loc_text (t1_loc d) w ++ mismatch_text (t1_type d) (t1_log d) (t1_kind d) p).
Proof.
  intros Hlog Hkind Hready Hn.
  assert (forall f, HandleTypeMismatch f (t1_loc d) (t1_type d) (BIT (t1_log d)) (t1_kind d) p w =
    report_at f (t1_loc d) w (UB_IN ++ loc_text (t1_loc d) w ++ mismatch_text (t1_type d) (t1_log d) (t1_kind d) p)) as E.
  { intros f. unfold HandleTypeMismatch. erewrite bind_ret by (apply assert_nonzero, Z.eqb_neq, Hready).
    rewrite first_time_new by done. rewrite (bind_ret _ _ _ (str (nth (Z.to_nat (t1_kind d)) rgczTypeCheckKinds ""%string)) (mark (t1_loc d) w)).
    2: { unfold DeserializeTypeCheckKind, table_text. change (Z.of_nat (length rgczTypeCheckKinds)) with 12.
         by rewrite (proj2 (Z.ltb_lt _ _)) by lia. }
    rewrite bit_value, align_mask by done. unfold mismatch_text. cbv zeta.
    destruct (p =? 0); [|destruct (_ mod _ =? 0); cbn [negb]]; rewrite Report_eq, <- ?app_assoc; reflexivity. }
  destruct abort; apply E.
Qed.

(** ** Fatal and recoverable handlers *)

(** What the name of a handler promises: the [_abort] variants and the handlers
    without a recoverable variant panic, [cfi_bad_type] when told so. *)
Definition call_abort (c : call) : bool :=
  match c with
  | BuiltinUnreachable _ | MissingReturn _ => true
  | CfiBadType _ _ _ unrecoverable _ _ => unrecoverable
  | Overflow _ a _ _ _ | NegateOverflow a _ _ | CfiCheckFail a _ _ _ | DynamicTypeCacheMiss a _ _ _
  | FloatCastOverflow a _ _ | FunctionTypeMismatch a _ _ | ImplicitConversion a _ _ _ | InvalidBuiltin a _
  | LoadInvalidValue a _ _ | NonnullArg _ a _ | NonnullReturn _ a _ _ | OutOfBounds a _ _
  | PointerOverflow a _ _ _ | ShiftOutOfBounds a _ _ _ | TypeMismatch a _ _ | TypeMismatch_v1 a _ _
  | VlaBoundNotPositive a _ _ => a
  end.

(** The calls that do otherwise. *)
Definition exceptional (c : call) : bool :=
  match c with
  | FunctionTypeMismatch a _ _ | ImplicitConversion a _ _ _ => a
  | InvalidBuiltin a _ => negb a
  | CfiBadType d _ _ unrecoverable _ _ =>
      if (cfi_kind d =? CFI_ICALL) || (cfi_kind d =? CFI_VMFCALL) then unrecoverable else negb unrecoverable
  | _ => false
  end.

Definition is_panic {A} (o : out A) : bool := match o with Panic _ _ => true | _ => false end.

(** Which first reports panic.  A well-formed call panics exactly when its
    name promises it, except for [function_type_mismatch_abort] and
    [implicit_conversion_abort], which return, the recoverable [invalid_builtin],
    which panics, and [cfi_bad_type], which for the kinds other than the two
    indirect calls panics although it is told that the handler is recoverable,
    and for those two returns although told that it is not. *)
Theorem ubsan_fatal_calls (c : call) (l : location) (w : world) :
  call_loc c = Some l -> wf_call c = true -> attr_ok c w -> ready l w -> ~ reported l w ->
  is_panic (run_call c w) = xorb (call_abort c) (exceptional c).
Proof.
  intros Hl Hwf Ha Hr Hn. destruct (call_form c l Hl (proj1 Hr)) as (k & Hrun & _ & Hk).
  destruct (Hk Hwf (mark l w) (loc_text l w) (attr_ok_mark _ _ _ Ha)) as [rest E].
  rewrite Hrun, first_time_new, E by done. transitivity (call_fatal c); [by destruct (call_fatal c)|].
  destruct c; try destruct abort; try done. simpl.
  destruct (_ || _); by destruct unrecoverable.
Qed.

(** [cfi_check_fail] and its [_abort] variant dereference null pointers for
    every check kind but the two indirect calls. *)
Theorem ubsan_cfi_check_fail_null (abort : bool) (d : CCFICheckFailData) (value valid : Z) (w : world) :
  cfi_kind d ∈ [0; 1; 2; 3; 5] -> ready (cfi_loc d) w -> ~ reported (cfi_loc d) w ->
  run_call (CfiCheckFail abort d value valid) w = Undef.
Proof.
  intros Hk Hr Hn.
  assert (forall f, HandleCFIBadType f (Some d) value None None None None w = Undef) as E.
  { intros f. unfold HandleCFIBadType. erewrite bind_ret by reflexivity. rewrite first_time_new by done.
    repeat (apply elem_of_cons in Hk as [-> | Hk]; [reflexivity|]). by apply not_elem_of_nil in Hk. }
  destruct abort; apply E.
Qed.

(** ** Witnesses *)

(** A world with two locations, and types of the compiler. *)
Definition demo_world : world :=
  mk_world {[16 := mk_location (Some (str "a.c")) 12 5; 32 := mk_location (Some (str "b.c")) 7 1]}
           (fun _ => 0) [].
Definition int32 : CTypeDescriptor := mk_type 0 11 (str "int").
Definition uint8 : CTypeDescriptor := mk_type 0 6 (str "unsigned char").
Definition add_demo : call := Overflow Add false (mk_overflow 16 int32) 2147483647 1.
Definition shift_demo : CShiftOutOfBoundsData := mk_shift 32 int32 uint8.
Definition align_demo : CTypeMismatchData_v1 := mk_mismatch1 16 int32 2 1.

Lemma demo_ready : ready 16 demo_world /\ ready 32 demo_world.
Proof. split; (split; [done|]); eexists; split; (reflexivity || done). Qed.

Lemma demo_fresh : ~ reported 16 demo_world /\ ~ reported 32 demo_world.
Proof. split; eapply reported_lookup; reflexivity. Qed.

(** The line of an addition overflow. *)
Example add_demo_line : exists w, run_call add_demo demo_world = Ret tt w /\
  log w = [str "Lilu: ubsan @ Undefined Behavior in a.c:12:5, signed integer overflow: 2147483647 + 1 cannot be represented in type int" ++ [10]].
Proof. eexists. split; vm_compute; reflexivity. Qed.

Lemma ubsan_first_report_witness : exists rest,
  let text := UB_IN ++ loc_text 16 demo_world ++ rest in
  run_call add_demo demo_world = Ret tt (add_line (log_text text) (mark 16 demo_world)).
Proof.
  exact (ubsan_first_report add_demo 16 demo_world eq_refl eq_refl I (proj1 demo_ready) (proj1 demo_fresh)).
Defined.

Lemma ubsan_reported_once_witness : exists w, run_calls [add_demo; add_demo] demo_world = Ret tt w /\
  (exists lines, log w = log demo_world ++ lines /\
     (length lines <= size (fresh [add_demo; add_demo] demo_world))%nat) /\
  (forall l, l ∈ call_locs [add_demo; add_demo] -> reported l w) /\
  run_calls [add_demo; add_demo] w = Ret tt w.
Proof.
  assert (exists w, run_calls [add_demo; add_demo] demo_world = Ret tt w) as [w E] by (eexists; vm_compute; reflexivity).
  exists w. split; [exact E|]. exact (ubsan_reported_once [add_demo; add_demo] demo_world w E).
Defined.

Lemma ubsan_number_text_witness : exists text,
  DeserializeNumber [] NUMBER_MAXLEN int32 4294967294 demo_world = Ret (Some text) demo_world /\
  (width int32 <> 128 -> read_int text = Some (-2)) /\
  (width int32 = 128 -> exists hex, text = str "Undecoded-128-bit-Integer-Type (0x" ++ hex ++ str ")" /\
       length hex = 32%nat /\ read_digits 16 0 hex = Some (ldn 16 (memory demo_world) 4294967294)).
Proof. exact (ubsan_number_text [] int32 4294967294 demo_world eq_refl ltac:(lia)). Defined.

Lemma ubsan_shift_message_witness :
  run_call (ShiftOutOfBounds true shift_demo 1 40) demo_world =
  report_at true 32 demo_world (UB_IN ++ loc_text 32 demo_world ++ shift_text (memory demo_world) shift_demo 1 40).
Proof.
  apply (ubsan_shift_message true shift_demo 1 40 demo_world); [done|done|vm_compute; split; done|vm_compute; split; done| |].
  - exact (proj2 demo_ready).
  - exact (proj2 demo_fresh).
Defined.

Lemma ubsan_type_mismatch_message_witness :
  run_call (TypeMismatch_v1 false align_demo 4099) demo_world =
  report_at false 16 demo_world (UB_IN ++ loc_text 16 demo_world ++ mismatch_text int32 2 1 4099).
Proof.
  apply (ubsan_type_mismatch_message false align_demo 4099 demo_world); [simpl; lia|simpl; lia| |].
  - exact (proj1 demo_ready).
  - exact (proj1 demo_fresh).
Defined.

Lemma ubsan_fatal_calls_witness :
  is_panic (run_call (FunctionTypeMismatch true (mk_fun 16 int32) 4096) demo_world) = false.
Proof.
  exact (ubsan_fatal_calls (FunctionTypeMismatch true (mk_fun 16 int32) 4096) 16 demo_world
    eq_refl eq_refl I (proj1 demo_ready) (proj1 demo_fresh)).
Defined.

Lemma ubsan_cfi_check_fail_null_witness :
  run_call (CfiCheckFail false (mk_cfi 0 16 int32) 4096 0) demo_world = Undef.
Proof.
  apply (ubsan_cfi_check_fail_null false (mk_cfi 0 16 int32) 4096 0 demo_world).
  - apply elem_of_cons. left. reflexivity.
  - exact (proj1 demo_ready).
  - exact (proj1 demo_fresh).
Defined.
