(* ===== verification/UbsanRace.v ===== *)
(** The compare-and-swap loop of [isAlreadyReported]
    ([src/Lilu/Lilu/Sources/kern_ubsan.c]) run by several threads on the line
    field of one location.  A thread loads the field, then compares and swaps;
    the steps of the threads interleave in any order.  The theorems show that at
    most one thread is told that the location is new, that the loop ends, and
    that a run of one thread is the sequential definition of [Ubsan.v]. *)
From Stdlib Require Import Ascii String.
From S2P Require Import Prelude Printf Ubsan UbsanThm.
From Stdlib Require Import ZArith Lia.
From stdpp Require Import prelude gmap relations.
Open Scope Z_scope.
Open Scope c_scope.

(** Where a thread is in [isAlreadyReported]. *)
Inductive thread : Type :=
  | Loading
  | Swapping (siOldValue : Z)
  | Returned (already : bool).

Record shared := mk_shared { line : Z; threads : list thread }.

(** One step of one thread: [siOldValue = *pLine], a successful and a failed
    [__sync_val_compare_and_swap]. *)
Inductive step : shared -> shared -> Prop :=
  | step_load i s : threads s !! i = Some Loading ->
      step s (mk_shared (line s) (<[i := Swapping (line s)]> (threads s)))
  | step_swap i s old : threads s !! i = Some (Swapping old) -> line s = old ->
      step s (mk_shared (u32 (old .| ACK_REPORTED)) (<[i := Returned (truth (old .& ACK_REPORTED))]> (threads s)))
  | step_retry i s old : threads s !! i = Some (Swapping old) -> line s <> old ->
      step s (mk_shared (line s) (<[i := Loading]> (threads s))).

Definition start (v : Z) (n : nat) : shared := mk_shared v (replicate n Loading).

(** The threads that are to report. *)
Definition is_reporter (t : thread) : bool := match t with Returned false => true | _ => false end.
Definition reporters (l : list thread) : nat := length (List.filter is_reporter l).

Definition acked (v : Z) : bool := Z.testbit v 31.

(** ** Invariant *)

Lemma reporters_insert l i t t' : l !! i = Some t ->
  (reporters (<[i := t']> l) + Nat.b2n (is_reporter t) = reporters l + Nat.b2n (is_reporter t'))%nat.
Proof.
  unfold reporters. revert i. induction l as [|x l IH]; intros [|i] Hi; [done|done|..].
  - injection Hi as ->. simpl. destruct (is_reporter t), (is_reporter t'); simpl; lia.
  - simpl. specialize (IH i Hi). destruct (is_reporter x); simpl; lia.
Qed.

(** The field holds the initial value, or that value acknowledged; in the first
    case nobody has returned, in the second one thread was told to report unless
    the initial value was acknowledged already.  A loaded value was the field's
    value at some time. *)
Record inv (v : Z) (s : shared) : Prop := mk_inv {
  inv_line : line s = v \/ (line s = v .| ACK_REPORTED);
  inv_loaded : forall i old, threads s !! i = Some (Swapping old) -> old = v \/ old = line s;
  inv_count : reporters (threads s) = if acked (line s) && negb (acked v) then 1%nat else 0%nat;
  inv_returned : forall i b, threads s !! i = Some (Returned b) -> acked (line s) = true;
}.

Section race.
Context (v : Z) (Hv : 0 <= v < 2 ^ 32).

Lemma ack_u32 : u32 (v .| ACK_REPORTED) = v .| ACK_REPORTED.
Proof.
  apply wrap_small. split; [apply Z.lor_nonneg; unfold ACK_REPORTED; lia|].
  destruct (Z.eq_dec (v .| ACK_REPORTED) 0); [lia|]. apply Z.log2_lt_pow2.
  - assert (0 <= v .| ACK_REPORTED) by (apply Z.lor_nonneg; unfold ACK_REPORTED; lia). lia.
  - rewrite Z.log2_lor by (unfold ACK_REPORTED; lia). change (Z.log2 ACK_REPORTED) with 31.
    destruct (Z.eq_dec v 0) as [->|]; [simpl; lia|]. pose proof (proj1 (Z.log2_lt_pow2 v 32 ltac:(lia)) ltac:(lia)). lia.
Qed.

Lemma ack_ack : v .| ACK_REPORTED .| ACK_REPORTED = v .| ACK_REPORTED.
Proof. apply ack_idemp, ack_bit. Qed.

Lemma inv_start n : inv v (start v n).
Proof.
  split; simpl.
  - by left.
  - intros i old Hi. apply lookup_replicate in Hi as [Hi _]. done.
  - replace (acked v && negb (acked v)) with false by (by destruct (acked v)).
    unfold reporters. induction n; [done|]. done.
  - intros i b Hi. apply lookup_replicate in Hi as [Hi _]. done.
Qed.

Lemma acked_ack x : acked (x .| ACK_REPORTED) = true.
Proof. apply ack_bit. Qed.

(** Lookups after a thread moved. *)
Lemma moved (l : list thread) i j t t' : <[i := t]> l !! j = Some t' -> t' = t \/ l !! j = Some t'.
Proof. rewrite list_lookup_insert_Some. naive_solver. Qed.

Lemma swap_line s old : inv v s -> line s = old -> u32 (old .| ACK_REPORTED) = v .| ACK_REPORTED.
Proof. intros Hi <-. destruct (inv_line v s Hi) as [-> | ->]; rewrite ?ack_ack; apply ack_u32. Qed.

Lemma inv_swap s i old : inv v s -> threads s !! i = Some (Swapping old) -> line s = old ->
  inv v (mk_shared (u32 (old .| ACK_REPORTED)) (<[i := Returned (truth (old .& ACK_REPORTED))]> (threads s))).
Proof.
  intros Hi Ht Hl. pose proof (swap_line s old Hi Hl) as EL.
  pose proof (reporters_insert _ _ _ (Returned (truth (old .& ACK_REPORTED))) Ht) as Hc.
  rewrite (inv_count v s Hi) in Hc.
  split; cbn [line threads]; rewrite EL.
  - by right.
  - intros j o Hj. apply moved in Hj as [|Hj]; [done|].
    destruct (inv_loaded v s Hi j o Hj) as [|Ho]; [by left|]. rewrite Ho. apply (inv_line v s Hi).
  - rewrite seen_bit in Hc |- *. fold (acked old) in Hc |- *. rewrite acked_ack. subst old.
    destruct (inv_line v s Hi) as [El|El]; rewrite El in Hc |- *; rewrite ?acked_ack in Hc |- *;
      destruct (acked v); simpl in *; lia.
  - intros; apply acked_ack.
Qed.

Lemma inv_step s s' : inv v s -> step s s' -> inv v s'.
Proof.
  intros Hi Hs. destruct Hs as [i s Ht|i s old Ht Hl|i s old Ht Hl]; [|by apply inv_swap|].
  - pose proof (reporters_insert _ _ _ (Swapping (line s)) Ht) as Hc. simpl in Hc.
    split; cbn [line threads].
    + apply (inv_line v s Hi).
    + intros j o Hj. apply moved in Hj as [[= ->]|Hj]; [by right|]. by apply (inv_loaded v s Hi j).
    + rewrite <- (inv_count v s Hi). lia.
    + intros j b Hj. apply moved in Hj as [|Hj]; [done|]. by apply (inv_returned v s Hi j b).
  - pose proof (reporters_insert _ _ _ Loading Ht) as Hc. simpl in Hc.
    split; cbn [line threads].
    + apply (inv_line v s Hi).
    + intros j o Hj. apply moved in Hj as [|Hj]; [done|]. by apply (inv_loaded v s Hi j).
    + rewrite <- (inv_count v s Hi). lia.
    + intros j b Hj. apply moved in Hj as [|Hj]; [done|]. by apply (inv_returned v s Hi j b).
Qed.

Lemma inv_reachable n s : rtc step (start v n) s -> inv v s.
Proof.
  intros H. remember (start v n) as s0 eqn:E. assert (inv v s0) as Hi by (subst; apply inv_start).
  clear E. induction H; eauto using inv_step.
Qed.

(** ** Termination *)

(** The steps a thread may still take. *)
Definition weight (x : Z) (t : thread) : nat :=
  match t with
  | Returned _ => 0
  | Loading => if acked x then 2 else 4
  | Swapping old => if acked x && (old =? x) then 1 else 3
  end.
Definition total (s : shared) : nat := sum_list (map (weight (line s)) (threads s)).

Lemma sum_insert (f g : thread -> nat) l i t t' :
  l !! i = Some t -> (forall u, f u <= g u)%nat -> (f t' < g t)%nat ->
  (sum_list (map f (<[i := t']> l)) < sum_list (map g l))%nat.
Proof.
  intros Hi Hle Hlt. revert i Hi. induction l as [|x l IH]; intros [|i] Hi; [done|done|..]; simpl.
  - injection Hi as ->.
    assert (sum_list (map f l) <= sum_list (map g l))%nat; [|lia].
    clear -Hle. induction l as [|y l IH]; simpl; [lia|]. specialize (Hle y). lia.
  - specialize (IH i Hi). specialize (Hle x). lia.
Qed.

Lemma step_decreases s s' : inv v s -> step s s' -> (total s' < total s)%nat.
Proof.
  intros Hi Hs. destruct Hs as [i s Ht|i s old Ht Hl|i s old Ht Hl]; unfold total; cbn [line threads].
  - eapply sum_insert; [exact Ht|done|]. simpl. rewrite Z.eqb_refl. destruct (acked (line s)); simpl; lia.
  - rewrite (swap_line s old Hi Hl). eapply sum_insert; [exact Ht| |simpl; destruct (_ && _); lia].
    intros u. destruct (inv_line v s Hi) as [El|El]; rewrite El; [|done].
    destruct (acked v) eqn:Ea; [by rewrite (ack_idemp v Ea)|].
    destruct u as [|o|]; simpl; rewrite ?acked_ack, ?Ea; simpl; [lia| |lia]. destruct (_ =? _); lia.
  - eapply sum_insert; [exact Ht|done|]. simpl.
    assert (acked (line s) = true) as ->.
    { destruct (inv_loaded v s Hi i old Ht) as [->|]; [|congruence].
      destruct (inv_line v s Hi) as [|El]; [congruence|]. rewrite El. apply acked_ack. }
    apply not_eq_sym, Z.eqb_neq in Hl. rewrite Hl. simpl. lia.
Qed.

Lemma steps_bound k s s' : inv v s -> nsteps step k s s' -> (k + total s' <= total s)%nat.
Proof.
  intros Hi H. revert Hi. induction H as [s|k s s1 s' Hs _ IH]; intros Hi; [lia|].
  specialize (IH (inv_step s s1 Hi Hs)). pose proof (step_decreases s s1 Hi Hs). lia.
Qed.

Lemma total_start n : (total (start v n) <= 4 * n)%nat.
Proof.
  unfold total, start. cbn [line threads]. induction n as [|n IH]; [done|]. simpl in *.
  destruct (acked v); lia.
Qed.

(** The loop of [isAlreadyReported] ends in every interleaving: [n] threads
    take at most [4 * n] steps together, and a state in which no thread can move
    is one in which all have returned. *)
Theorem isAlreadyReported_terminates (n k : nat) (s : shared) :
  nsteps step k (start v n) s ->
  (k <= 4 * n)%nat /\
  ((forall s', ~ step s s') -> forall i t, threads s !! i = Some t -> exists b, t = Returned b).
Proof.
  intros H. split.
  - pose proof (steps_bound k _ _ (inv_start n) H). pose proof (total_start n). lia.
  - intros Hstuck i [|old|b] Hi; [|destruct (Z.eq_dec (line s) old)|eauto]; exfalso; eapply Hstuck.
    + by apply (step_load i).
    + by eapply (step_swap i).
    + by eapply (step_retry i).
Qed.

(** ** One report *)

(** C31: However the threads interleave, at most one of them is told that the
    location is not yet reported; once all have returned, exactly one is when the
    location was new and none otherwise, and the report bit is set. *)
Theorem isAlreadyReported_race (n : nat) (s : shared) :
  (0 < n)%nat -> rtc step (start v n) s ->
  (reporters (threads s) <= 1)%nat /\
  ((forall i t, threads s !! i = Some t -> exists b, t = Returned b) ->
     reporters (threads s) = (if acked v then 0 else 1)%nat /\ line s = v .| ACK_REPORTED).
Proof.
  intros Hn Hs. pose proof (inv_reachable n s Hs) as Hi. split.
  { rewrite (inv_count v s Hi). destruct (_ && _); lia. }
  intros Hall. assert (length (threads s) = n) as Hlen.
  { clear -Hs. remember (start v n) as s0 eqn:E. revert E. assert (length (threads s0) = n -> length (threads s) = n).
    { clear -Hs. induction Hs as [|s0 s1 s Hstep _ IH]; [done|]. intros H. apply IH.
      destruct Hstep; cbn [threads]; by rewrite length_insert. }
    intros ->. apply H. simpl. apply length_replicate. }
  assert (is_Some (threads s !! 0%nat)) as [t Ht] by (apply lookup_lt_is_Some; lia).
  destruct (Hall _ _ Ht) as [b ->]. pose proof (inv_returned v s Hi 0 b Ht) as Ha.
  rewrite (inv_count v s Hi), Ha. split; [by destruct (acked v)|].
  destruct (inv_line v s Hi) as [El|El]; [|done]. rewrite El in Ha |- *. by rewrite (ack_idemp v Ha).
Qed.
End race.

(** A single thread that has run the loop to its end has computed what the
    sequential [isAlreadyReported] of the model returns, and the field holds the
    line the model stores. *)
Theorem isAlreadyReported_refines (l : location) (w : world) (c : CSourceLocation) (s : shared) (b : bool) :
  l <> 0 -> locs w !! l = Some c -> 0 <= mLine c < 2 ^ 32 ->
  rtc step (start (mLine c) 1) s -> threads s = [Returned b] ->
  isAlreadyReported l w = Ret b (mark l w) /\
  exists c', locs (mark l w) !! l = Some c' /\ mLine c' = line s.
Proof.
  intros H0 Hc Hv Hs Ht. pose proof (inv_reachable (mLine c) Hv 1 s Hs) as Hi.
  pose proof (inv_returned _ s Hi 0 b) as Ha. rewrite Ht in Ha. specialize (Ha eq_refl).
  pose proof (inv_count _ s Hi) as Hcount. rewrite Ht, Ha in Hcount. split.
  - rewrite (isAlreadyReported_eq l w c H0 Hc). f_equal. fold (acked (mLine c)).
    destruct b, (acked (mLine c)); done.
  - exists (ack c). unfold mark. simpl. rewrite lookup_alter, decide_True, Hc by done. split; [done|]. simpl.
    destruct (inv_line _ s Hi) as [El|El]; [|done]. rewrite El in Ha |- *. by rewrite (ack_idemp _ Ha).
Qed.

(** ** Witnesses *)

(** Two threads load the same value; the second swap fails and retries. *)
Definition race_demo : shared := mk_shared (12 .| ACK_REPORTED) [Returned false; Returned true].

Lemma race_demo_run : nsteps step 6 (start 12 2) race_demo.
Proof.
  eapply nsteps_l; [apply (step_load 0); reflexivity|].
  eapply nsteps_l; [apply (step_load 1); reflexivity|].
  eapply nsteps_l; [eapply (step_swap 0); reflexivity|].
  eapply nsteps_l; [eapply (step_retry 1); [reflexivity|done]|].
  eapply nsteps_l; [apply (step_load 1); reflexivity|].
  eapply nsteps_l; [eapply (step_swap 1); reflexivity|]. constructor.
Qed.

Lemma isAlreadyReported_terminates_witness :
  (6 <= 4 * 2)%nat /\
  ((forall s', ~ step race_demo s') -> forall i t, threads race_demo !! i = Some t -> exists b, t = Returned b).
Proof. exact (isAlreadyReported_terminates 12 ltac:(lia) 2 6 race_demo race_demo_run). Defined.

Lemma isAlreadyReported_race_witness :
  (reporters (threads race_demo) <= 1)%nat /\
  ((forall i t, threads race_demo !! i = Some t -> exists b, t = Returned b) ->
     reporters (threads race_demo) = 1%nat /\ line race_demo = 12 .| ACK_REPORTED).
Proof.
  exact (isAlreadyReported_race 12 ltac:(lia) 2 race_demo ltac:(lia) (rtc_nsteps_2 6 _ _ race_demo_run)).
Defined.

Lemma isAlreadyReported_refines_witness :
  isAlreadyReported 16 demo_world = Ret false (mark 16 demo_world) /\
  exists c', locs (mark 16 demo_world) !! (16 : location) = Some c' /\ mLine c' = 12 .| ACK_REPORTED.
Proof.
  apply (isAlreadyReported_refines 16 demo_world (mk_location (Some (str "a.c")) 12 5)
           (mk_shared (12 .| ACK_REPORTED) [Returned false]) false); [done|reflexivity|simpl; lia| |reflexivity].
  eapply rtc_l; [apply (step_load 0); reflexivity|]. eapply rtc_l; [eapply (step_swap 0); reflexivity|]. apply rtc_refl.
Defined.
