(* ===== verification/Vector.v ===== *)
(** Lilu's containers [evector] and [CircularBuffer]
    (Lilu/Lilu/Headers/kern_util.hpp).

    A vector keeps a block of slots obtained from [kern_os_realloc], the number
    of elements in use and the number of slots it believes the block to have.
    The kernel's allocator is an argument: its state, its [realloc] and its
    [free] are given with what is documented of them ([os_alloc]).  A slot that
    was never written is [None]; reading one, or going outside of the block, is
    a [Fault].  The type's destructor is recorded as the list of the elements
    it was called on.

    A circular buffer keeps two 32-bit indices into storage it is given and a
    count, under a recursive lock whose depth is part of the state. *)

From Stdlib Require Import ZArith Lia List Bool.
From stdpp Require Import prelude.
From S2P Require Import Prelude.

Open Scope Z_scope.

(** ** The allocator of the kernel *)

(** [kern_os_realloc] and [kern_os_free] for blocks of elements of [esz] bytes:
    a successful [realloc] returns a block that has room for the requested
    bytes and keeps what the old one held. *)
Class os_alloc (A T : Type) (esz : Z) := {
  kern_os_realloc : A -> option (list (option T)) -> Z -> A * option (list (option T));
  kern_os_free : A -> list (option T) -> A;
  realloc_room : forall a p n a' b,
    kern_os_realloc a p n = (a', Some b) -> n <= Z.of_nat (length b) * esz;
  realloc_keeps : forall a p n a' b i v,
    kern_os_realloc a (Some p) n = (a', Some b) ->
    p !! i = Some v -> Z.of_nat (S i) * esz <= n -> b !! i = Some v
}.

(** ** [evector_base] *)

Section evector.
Context {A T : Type} (esz : Z) `{!os_alloc A T esz}.

Record evector := mk_evector {
  ptr : option (list (option T));
  cnt : Z;
  rsvd : Z;
  deleted : list T;
  os : A
}.

Definition evector_base (a : A) : evector := mk_evector None 0 0 [] a.

(** Reads one element; a write outside of the block is a fault as well. *)
Definition slot (v : evector) (index : Z) : res T :=
  match ptr v with
  | None => Fault
  | Some b =>
      match b !! Z.to_nat index with
      | Some (Some x) => Ok x
      | _ => Fault
      end
  end.

Definition size (v : evector) : Z := cnt v.
Definition data (v : evector) : option (list (option T)) := ptr v.
Definition last (v : evector) : Z := u64 (cnt v - 1).
Definition at_index (v : evector) (index : Z) : res T := slot v index.

Definition reserve (MUL : Z) (v : evector) (num : Z) : evector * bool :=
  if rsvd v <? num then
    let '(a, nPtr) := kern_os_realloc (os v) (ptr v) (u64 (u64 (MUL * num) * esz)) in
    match nPtr with
    | Some b => (mk_evector (Some b) (cnt v) (u64 (MUL * num)) (deleted v) a, true)
    | None => (mk_evector (ptr v) (cnt v) (rsvd v) (deleted v) a, false)
    end
  else (v, match ptr v with Some _ => true | None => false end).

(** [lilu_os_memmove(&ptr[index], &ptr[index + 1], n * sizeof(T))]. *)
Definition slots_down (b : list (option T)) (index : nat) (n : nat)
    : res (list (option T)) :=
  if (index + 1 + n <=? length b)%nat then
    Ok (take index b ++ take n (drop (index + 1) b) ++ drop (index + n) b)
  else Fault.

Definition erase (v : evector) (index : Z) (free : bool) : res evector :=
  let! x := slot v index in
  let cnt' := u64 (cnt v - 1) in
  let! p := (if negb (cnt' =? index) then
               match ptr v with
               | None => Fault
               | Some b =>
                   let bytes := u64 (u64 (cnt' - index) * esz) in
                   if bytes mod esz =? 0 then
                     let! b' := slots_down b (Z.to_nat index) (Z.to_nat (bytes / esz)) in
                     Ok (Some b')
                   else Fault
               end
             else Ok (ptr v)) in
  if free && (cnt' =? 0) then
    Ok (mk_evector None cnt' 0 (deleted v ++ [x])
          (match p with Some b => kern_os_free (os v) b | None => os v end))
  else Ok (mk_evector p cnt' (rsvd v) (deleted v ++ [x]) (os v)).

Definition push_back (MUL : Z) (v : evector) (element : T) : res (evector * bool) :=
  let '(v1, ok) := reserve MUL v (u64 (cnt v + 1)) in
  if ok then
    match ptr v1 with
    | None => Fault
    | Some b =>
        if cnt v1 <? Z.of_nat (length b) then
          Ok (mk_evector (Some (<[Z.to_nat (cnt v1) := Some element]> b))
                (u64 (cnt v1 + 1)) (rsvd v1) (deleted v1) (os v1), true)
        else Fault
    end
  else Ok (v1, false).

(** The loop of [deinit]: the destructor on every element in use. *)
Fixpoint delete_all (b : list (option T)) (n : nat) : res (list T) :=
  match n, b with
  | O, _ => Ok []
  | S n', Some x :: b' => let! l := delete_all b' n' in Ok (x :: l)
  | S _, _ => Fault
  end.

Definition deinit (v : evector) : res evector :=
  match ptr v with
  | None => Ok v
  | Some b =>
      let! l := delete_all b (Z.to_nat (cnt v)) in
      Ok (mk_evector None 0 0 (deleted v ++ l) (kern_os_free (os v) b))
  end.

(** *** What a vector represents *)

(** [holds v l]: the elements in use are [l], in order, at the front of a block
    that has at least the slots the vector believes it to have. *)
Definition holds (v : evector) (l : list T) : Prop :=
  cnt v = Z.of_nat (length l) /\ cnt v < 2 ^ 64 /\
  match ptr v with
  | None => l = [] /\ rsvd v = 0
  | Some b =>
      cnt v <= rsvd v <= Z.of_nat (length b) /\
      forall i x, l !! i = Some x -> b !! i = Some (Some x)
  end.

(** The operations of a client of the vector. *)
Inductive vop :=
  | VReserve (MUL num : Z)
  | VPush (MUL : Z) (x : T)
  | VErase (index : Z) (free : bool)
  | VDeinit.

Definition vexec (v : evector) (o : vop) : res (evector * bool) :=
  match o with
  | VReserve m n => Ok (reserve m v n)
  | VPush m x => push_back m v x
  | VErase i f => let! v' := erase v i f in Ok (v', true)
  | VDeinit => let! v' := deinit v in Ok (v', true)
  end.

(** The specification: what an operation makes of the list of elements, and
    which elements it destroys, given whether it reported success. *)
Definition vspec (l : list T) (o : vop) (ok : bool) : list T * list T :=
  match o with
  | VReserve _ _ => (l, [])
  | VPush _ x => (if ok then l ++ [x] else l, [])
  | VErase i _ => (take (Z.to_nat i) l ++ drop (S (Z.to_nat i)) l,
                   match l !! Z.to_nat i with Some x => [x] | None => [] end)
  | VDeinit => ([], l)
  end.

(** What a client owes: indices in range, and sizes in bytes below [2^64]. *)
Definition vallowed (l : list T) (o : vop) : Prop :=
  match o with
  | VReserve m n => 1 <= m /\ 0 <= n /\ m * n * esz < 2 ^ 64
  | VPush m x => 1 <= m /\ m * (Z.of_nat (length l) + 1) * esz < 2 ^ 64
  | VErase i _ => 0 <= i < Z.of_nat (length l) /\ Z.of_nat (length l) * esz < 2 ^ 64
  | VDeinit => True
  end.

Definition vpushed (o : vop) (ok : bool) : list T :=
  match o with VPush _ x => if ok then [x] else [] | _ => [] end.

(** The states a client reaches from an empty vector, with the elements it
    pushed successfully on the way. *)
Inductive vreach : evector -> list T -> list T -> Prop :=
  | vreach_init a : vreach (evector_base a) [] []
  | vreach_op v l pushed o v' ok :
      vreach v l pushed -> vallowed l o -> vexec v o = Ok (v', ok) ->
      vreach v' (vspec l o ok).1 (pushed ++ vpushed o ok).
(** *** Preservation *)

Context (esz_pos : 0 < esz).

Lemma reserve_holds MUL v num l v' ok :
  holds v l -> 1 <= MUL -> 0 <= num -> MUL * num * esz < 2 ^ 64 ->
  reserve MUL v num = (v', ok) ->
  holds v' l /\ deleted v' = deleted v /\ (ok = true -> num <= rsvd v' /\ is_Some (ptr v')).
Proof using esz_pos.
  intros (Hc & Hlt & Hp) HM Hn Hb. unfold reserve.
  assert (0 <= MUL * num < 2 ^ 64) as Hmn by nia.
  rewrite (wrap_small 64 (MUL * num)) by lia.
  assert (0 <= MUL * num * esz) as Hnn by nia.
  rewrite (wrap_small 64 (MUL * num * esz)) by lia.
  destruct (Z.ltb_spec (rsvd v) num) as [Hr|Hr].
  - destruct (kern_os_realloc _ _ _) as [a [b|]] eqn:E; intros [= <- <-]; unfold holds; simpl;
      [|by destruct v].
    apply realloc_room in E as Hroom. assert (MUL * num <= Z.of_nat (length b)) by nia.
    destruct (ptr v) as [b0|] eqn:Ep.
    + destruct Hp as [Hp1 Hp2]. split_and!; [lia|lia|nia|lia| |done|by split; [nia|]]. intros i x Hx.
      apply lookup_lt_Some in Hx as Hi. eapply realloc_keeps; [done|by apply Hp2|].
      apply Z.mul_le_mono_nonneg_r; nia.
    + destruct Hp as [-> Hp2]. simpl in *. split_and!; [lia|lia|lia|lia|done|done|by split; [nia|]].
  - intros [= <- <-]. split_and!; [by split_and!|done|].
    destruct (ptr v); [|done]. intros _. split; [lia|by eexists].
Qed.

Lemma push_back_holds MUL v l x :
  holds v l -> vallowed l (VPush MUL x) ->
  exists v' ok, push_back MUL v x = Ok (v', ok) /\
    holds v' (if ok then l ++ [x] else l) /\ deleted v' = deleted v.
Proof using esz_pos.
  intros Hh [HM Hb]. unfold push_back.
  assert (cnt v = Z.of_nat (length l)) as Hc by apply Hh.
  rewrite (wrap_small 64 (cnt v + 1)) by nia.
  destruct (reserve MUL v (cnt v + 1)) as [v1 ok] eqn:E.
  apply (reserve_holds _ _ _ l) in E as ((Hc1 & Hlt1 & Hp1) & Hd & Hok); [|done|lia..|by rewrite Hc].
  destruct ok; [|exists v1, false; by split_and!]. destruct (Hok eq_refl) as [Hr [b Eb]].
  rewrite Eb in *. destruct Hp1 as [Hp1 Hp2].
  destruct (Z.ltb_spec (cnt v1) (Z.of_nat (length b))); [|lia].
  eexists _, true. split; [done|]. split; [|done]. unfold holds; simpl.
  rewrite (wrap_small 64 (cnt v1 + 1)) by nia. rewrite length_app, length_insert. simpl.
  split_and!; [lia|nia|nia|lia|]. intros i y [Hy|[Hi Hy]]%lookup_app_Some.
  - apply lookup_lt_Some in Hy as Hi. rewrite list_lookup_insert_ne by lia. by apply Hp2.
  - destruct (i - length l)%nat eqn:Ei; [|done]. injection Hy as <-.
    replace (Z.to_nat (cnt v1)) with i by lia. apply list_lookup_insert_eq. lia.
Qed.

Lemma slot_holds v l i x :
  holds v l -> l !! Z.to_nat i = Some x -> slot v i = Ok x.
Proof using Type.
  intros (_ & _ & Hp) Hx. unfold slot. destruct (ptr v) as [b|].
  - destruct Hp as [_ Hp]. by rewrite (Hp _ _ Hx).
  - destruct Hp as [-> _]. done.
Qed.

(** The elements behind the erased one, moved down by one. *)
Lemma slots_down_front (b : list (option T)) l i :
  (i < length l)%nat -> (length l <= length b)%nat ->
  (forall j x, l !! j = Some x -> b !! j = Some (Some x)) ->
  exists b', slots_down b i (length l - 1 - i) = Ok b' /\ length b' = length b /\
    forall j x, (take i l ++ drop (S i) l) !! j = Some x -> b' !! j = Some (Some x).
Proof using Type.
  intros Hi Hl Hf. unfold slots_down. destruct (Nat.leb_spec (i + 1 + (length l - 1 - i)) (length b)); [|lia].
  eexists. split; [done|]. split; [rewrite !length_app, length_take, length_take, !length_drop; lia|].
  intros j x [Hx|[Hge Hx]]%lookup_app_Some.
  - apply lookup_lt_Some in Hx as Hlt. rewrite length_take in Hlt.
    rewrite lookup_app_l by (rewrite length_take; lia). rewrite lookup_take_lt by lia.
    apply Hf. by rewrite lookup_take_lt in Hx by lia.
  - rewrite length_take in Hge, Hx. rewrite lookup_drop in Hx. apply lookup_lt_Some in Hx as Hlt.
    rewrite lookup_app_r by (rewrite length_take; lia). rewrite length_take.
    rewrite lookup_app_l by (rewrite length_take, length_drop; lia).
    rewrite lookup_take_lt, lookup_drop by lia. apply Hf. rewrite <- Hx. f_equal. lia.
Qed.

Lemma erase_holds v l i f x :
  holds v l -> l !! Z.to_nat i = Some x -> vallowed l (VErase i f) ->
  exists v', erase v i f = Ok v' /\ deleted v' = deleted v ++ [x] /\
    holds v' (take (Z.to_nat i) l ++ drop (S (Z.to_nat i)) l).
Proof using esz_pos.
  intros Hh Hx [Hi Hb]. unfold erase. rewrite (slot_holds _ _ _ _ Hh Hx). cbn [rbind].
  destruct Hh as (Hc & Hlt & Hp). rewrite (wrap_small 64 (cnt v - 1)) by lia.
  destruct (ptr v) as [b|] eqn:Eb; [|by destruct Hp as [-> _]]. destruct Hp as [Hp1 Hp2].
  assert (exists b', length b' = length b /\
    (if negb (cnt v - 1 =? i) then
       if u64 (u64 (cnt v - 1 - i) * esz) mod esz =? 0 then
         let! b' := slots_down b (Z.to_nat i) (Z.to_nat (u64 (u64 (cnt v - 1 - i) * esz) / esz)) in
         Ok (Some b')
       else Fault
     else Ok (Some b)) = Ok (Some b') /\
    forall j y, (take (Z.to_nat i) l ++ drop (S (Z.to_nat i)) l) !! j = Some y ->
      b' !! j = Some (Some y)) as (b' & Hlb & E & Hf).
  { destruct (Z.eqb_spec (cnt v - 1) i) as [He|He]; simpl.
    - exists b. split_and!; [done..|]. intros j y. rewrite (drop_ge l) by lia. rewrite app_nil_r.
      intros Hy. apply lookup_take_Some in Hy as [Hy _]. by apply Hp2.
    - rewrite (wrap_small 64 (cnt v - 1 - i)), (wrap_small 64) by nia.
      rewrite Z.mod_mul, Z.div_mul by lia. simpl.
      destruct (slots_down_front b l (Z.to_nat i)) as (b' & E & Hl & Hf); [lia..|done|].
      exists b'. replace (Z.to_nat (cnt v - 1 - i)) with (length l - 1 - Z.to_nat i)%nat by lia.
      by rewrite E. }
  rewrite E. cbn [rbind].
  assert (Z.of_nat (length (take (Z.to_nat i) l ++ drop (S (Z.to_nat i)) l)) = cnt v - 1) as Hl'.
  { rewrite length_app, length_take, length_drop. lia. }
  destruct (f && (cnt v - 1 =? 0)) eqn:Ef; (eexists; split; [done|]; split; [done|]);
    unfold holds; simpl; rewrite Hl'; (split_and!; [lia..| |]); try (split; [lia|done]); try lia; try done.
  apply andb_true_iff in Ef as [_ Ef]. apply Z.eqb_eq in Ef.
  apply length_zero_iff_nil. lia.
Qed.

Lemma delete_all_front (b : list (option T)) l :
  (forall j x, l !! j = Some x -> b !! j = Some (Some x)) -> delete_all b (length l) = Ok l.
Proof using Type.
  revert b. induction l as [|x l IH]; intros b Hf; [by destruct b|].
  pose proof (Hf 0%nat x eq_refl) as H0. destruct b as [|y b]; [done|]. injection H0 as ->.
  simpl. rewrite IH; [done|]. intros j z Hz. apply (Hf (S j) z Hz).
Qed.

Lemma deinit_holds v l :
  holds v l ->
  exists v', deinit v = Ok v' /\ deleted v' = deleted v ++ l /\ holds v' [].
Proof using Type.
  intros (Hc & Hlt & Hp). unfold deinit. destruct (ptr v) as [b|] eqn:Eb.
  - destruct Hp as [_ Hp]. rewrite Hc, Nat2Z.id, (delete_all_front _ _ Hp). by eexists.
  - destruct Hp as [-> Hr]. exists v. split_and!; [done|by rewrite app_nil_r|].
    unfold holds. by rewrite Eb.
Qed.

(** Every operation a client may ask for returns, represents what the
    specification says, and destroys exactly the elements it says. *)
Lemma vexec_refines v l o :
  holds v l -> vallowed l o ->
  exists v' ok, vexec v o = Ok (v', ok) /\ holds v' (vspec l o ok).1 /\
    deleted v' = deleted v ++ (vspec l o ok).2.
Proof using esz_pos.
  intros Hh Ha. destruct o as [m n|m x|i f|]; simpl vexec.
  - destruct (reserve m v n) as [v' ok] eqn:E. destruct Ha as (? & ? & ?).
    apply (reserve_holds _ _ _ l) in E as (Hh' & Hd & _); [|done..].
    exists v', ok. simpl. by rewrite app_nil_r.
  - destruct (push_back_holds _ _ _ _ Hh Ha) as (v' & ok & E & H1 & H2).
    exists v', ok. simpl. by rewrite app_nil_r.
  - destruct (lookup_lt_is_Some_2 l (Z.to_nat i)) as [x Hx]; [destruct Ha; lia|].
    destruct (erase_holds _ _ _ _ _ Hh Hx Ha) as (v' & E & H1 & H2).
    rewrite E. exists v', true. simpl. by rewrite Hx.
  - destruct (deinit_holds _ _ Hh) as (v' & E & H1 & H2). rewrite E. by exists v', true.
Qed.

Lemma vspec_perm l o ok :
  vallowed l o ->
  (vspec l o ok).1 ++ (vspec l o ok).2 ≡ₚ l ++ vpushed o ok.
Proof using Type.
  intros Ha. destruct o as [m n|m x|i f|]; simpl; [done| |..|by rewrite app_nil_r].
  - destruct ok; by rewrite ?app_nil_r.
  - destruct (lookup_lt_is_Some_2 l (Z.to_nat i)) as [x Hx]; [destruct Ha; lia|].
    rewrite Hx, app_nil_r. rewrite <- (take_drop_middle l (Z.to_nat i) x Hx) at 3.
    solve_Permutation.
Qed.

Lemma vreach_holds v l pushed :
  vreach v l pushed -> holds v l /\ l ++ deleted v ≡ₚ pushed.
Proof using esz_pos.
  induction 1 as [a|v l pushed o v' ok _ [Hh Hp] Ha E].
  - by split.
  - destruct (vexec_refines v l o Hh Ha) as (v1 & ok1 & E1 & H1 & H2).
    rewrite E in E1. injection E1 as <- <-. split; [done|].
    rewrite H2, <- Hp. pose proof (vspec_perm l o ok Ha) as P.
    rewrite (Permutation_app_comm (deleted v)), app_assoc, P. solve_Permutation.
Qed.
End evector.
Arguments evector _ _ : clear implicits.
Arguments vop _ : clear implicits.

(** C12: in every state a client reaches with operations it is allowed, however
    the kernel's allocator behaves, the vector has exactly the elements of the
    list that the specification computes (size, and every index in range); the
    elements pushed so far are, as a multiset, those still held and those the
    destructor was called on, so none is lost and none destroyed twice; and
    every further allowed operation returns without leaving the block, with
    the outcome the specification gives for the success it reports. *)
Theorem evector_refines {A T} (esz : Z) `{!os_alloc A T esz} v l pushed :
  0 < esz -> vreach esz v l pushed ->
  size v = Z.of_nat (length l) /\
  (forall i x, l !! i = Some x -> at_index v (Z.of_nat i) = Ok x) /\
  l ++ deleted v ≡ₚ pushed /\
  forall o, vallowed esz l o ->
    exists v' ok, vexec esz v o = Ok (v', ok) /\
      vreach esz v' (vspec l o ok).1 (pushed ++ vpushed o ok) /\
      deleted v' = deleted v ++ (vspec l o ok).2.
Proof.
  intros He Hr. destruct (vreach_holds esz He _ _ _ Hr) as [Hh Hp]. split_and!; [apply Hh| |done|].
  - intros i x Hx. apply (slot_holds _ l); [done|by rewrite Nat2Z.id].
  - intros o Ha. destruct (vexec_refines esz He _ _ _ Hh Ha) as (v' & ok & E & H1 & H2).
    exists v', ok. split_and!; [done| |done]. by eapply vreach_op.
Qed.

(** An allocator with a budget of successful requests, for 8-byte elements. *)
Definition budget_realloc {T} (a : nat) (p : option (list (option T))) (n : Z)
    : nat * option (list (option T)) :=
  match a with
  | O => (O, None)
  | S a' =>
      let old := match p with Some b => b | None => [] end in
      let k := Z.to_nat ((n + 7) / 8) in
      (a', Some (take k old ++ replicate (k - length old) None))
  end.

#[export, refine] Instance budget_alloc {T} : os_alloc nat T 8 := {|
  kern_os_realloc := budget_realloc;
  kern_os_free := fun a _ => a
|}.
Proof.
  - intros [|a] p n a' b [= <- <-].
    rewrite length_app, length_take, length_replicate. zdm.
  - intros [|a] p n a' b i v [= <- <-] Hv Hn.
    apply lookup_lt_Some in Hv as Hi. rewrite lookup_app_l.
    + rewrite lookup_take_lt; [done|]. zdm.
    + rewrite length_take. zdm.
Defined.

Definition demo_vector : evector nat Z :=
  match vexec 8 (evector_base 1%nat) (VPush 2 10) with
  | Ok (v, _) => v
  | _ => evector_base 0%nat
  end.

(** One element pushed with room for two, then the allocator is out of memory. *)
Lemma evector_refines_witness :
  (size demo_vector = 1 /\ at_index demo_vector 0 = Ok 10) /\
  exists v' ok, vexec 8 demo_vector (VErase 0 true) = Ok (v', ok) /\ deleted v' = [10].
Proof.
  assert (vreach 8 demo_vector [10] [10]) as Hr.
  { apply (vreach_op 8 (evector_base 1%nat) [] [] (VPush 2 10) demo_vector true);
      [constructor|simpl; lia|reflexivity]. }
  destruct (evector_refines 8 demo_vector [10] [10] ltac:(lia) Hr) as (Hs & Hi & _ & Ho).
  split; [split; [exact Hs|exact (Hi 0%nat 10 eq_refl)]|].
  destruct (Ho (VErase 0 true)) as (v' & ok & E & _ & Hd); [simpl; lia|].
  exists v', ok. split; [exact E|exact Hd].
Defined.

(** ** [CircularBuffer] *)

Module Circular.
Section circular.
Context {T : Type}.

(** [lock] is the depth of the recursive lock, [None] while there is none. *)
Record CircularBuffer := mk_cb {
  storage : list T;
  size : Z;
  indexr : Z;
  indexw : Z;
  count : Z;
  lock : option Z
}.

(** [alloc]: whether [IORecursiveLockAlloc] returned a lock. *)
Definition init (b : CircularBuffer) (buffer : list T) (capacity : Z) (alloc : bool)
    : CircularBuffer * bool :=
  let l := if alloc then Some 0 else None in
  (mk_cb buffer capacity (indexr b) (indexw b) (count b) l, alloc).

Definition fresh : CircularBuffer := mk_cb [] 0 0 0 0 None.

(** What [withCapacity] obtains and gives back, in order. *)
Inductive heap_event := AllocStorage | FreeStorage | AllocInstance | FreeInstance.

(** [buffer], [instance] and [l] say which of the three allocations succeed. *)
Definition withCapacity (sz : Z) (buffer : option (list T)) (instance l : bool)
    : option CircularBuffer * list heap_event :=
  match buffer with
  | None => (None, [])
  | Some st =>
      if negb instance then (None, [AllocStorage; FreeStorage])
      else
        let '(b, ok) := init fresh st sz l in
        if negb ok then (None, [AllocStorage; AllocInstance; FreeInstance; FreeStorage])
        else (Some b, [AllocStorage; AllocInstance])
  end.

Definition with_lock (b : CircularBuffer) (l : option Z) : CircularBuffer :=
  mk_cb (storage b) (size b) (indexr b) (indexw b) (count b) l.

Definition IORecursiveLockLock (b : CircularBuffer) : res CircularBuffer :=
  match lock b with
  | None => Fault
  | Some d => Ok (with_lock b (Some (d + 1)))
  end.

(** Unlocking a lock that is not held is a fault. *)
Definition IORecursiveLockUnlock (b : CircularBuffer) : res CircularBuffer :=
  match lock b with
  | None => Fault
  | Some d => if 0 <? d then Ok (with_lock b (Some (d - 1))) else Fault
  end.

Definition isEmpty (b : CircularBuffer) : res (CircularBuffer * bool) :=
  let! b := IORecursiveLockLock b in
  let retVal := (count b =? 0) && (indexr b =? indexw b) in
  let! b := IORecursiveLockUnlock b in
  Ok (b, retVal).

Definition isFull (b : CircularBuffer) : res (CircularBuffer * bool) :=
  let! b := IORecursiveLockLock b in
  let retVal := (count b =? size b) && (indexr b =? indexw b) in
  let! b := IORecursiveLockUnlock b in
  Ok (b, retVal).

Definition getCount (b : CircularBuffer) : res (CircularBuffer * Z) :=
  let! b := IORecursiveLockLock b in
  let retVal := count b in
  let! b := IORecursiveLockUnlock b in
  Ok (b, retVal).

(** [%] by zero is a fault. *)
Definition umod (a n : Z) : res Z := if n =? 0 then Fault else Ok (a mod n).

Definition push (b : CircularBuffer) (element : T) : res (CircularBuffer * bool) :=
  let! b := IORecursiveLockLock b in
  let! r := isFull b in
  let '(b, full) := r in
  if full then
    let! b := IORecursiveLockUnlock b in
    Ok (b, false)
  else if indexw b <? Z.of_nat (length (storage b)) then
    let st := <[Z.to_nat (indexw b) := element]> (storage b) in
    let! w := umod (u32 (indexw b + 1)) (size b) in
    let! b := IORecursiveLockUnlock
      (mk_cb st (size b) (indexr b) w (u32 (count b + 1)) (lock b)) in
    Ok (b, true)
  else Fault.

(** The element read, when there is one; the flag is the result. *)
Definition pop (b : CircularBuffer) : res (CircularBuffer * option T) :=
  let! b := IORecursiveLockLock b in
  let! r := isEmpty b in
  let '(b, empty) := r in
  if empty then
    let! b := IORecursiveLockUnlock b in
    Ok (b, None)
  else
    match storage b !! Z.to_nat (indexr b) with
    | None => Fault
    | Some element =>
        let! rd := umod (u32 (indexr b + 1)) (size b) in
        let! b := IORecursiveLockUnlock
          (mk_cb (storage b) (size b) rd (indexw b) (u32 (count b - 1)) (lock b)) in
        Ok (b, Some element)
    end.

(** [queue b q]: the buffer holds [q], oldest element first, from the read
    index on, modulo the capacity; the lock exists. *)
Definition queue (b : CircularBuffer) (q : list T) : Prop :=
  0 <= size b < 2 ^ 32 /\ size b <= Z.of_nat (length (storage b)) /\
  count b = Z.of_nat (length q) /\ count b <= size b /\
  (size b = 0 -> indexr b = indexw b) /\
  (0 < size b -> 0 <= indexr b < size b /\ indexw b = (indexr b + count b) mod size b) /\
  (forall i x, q !! i = Some x ->
     storage b !! Z.to_nat ((indexr b + Z.of_nat i) mod size b) = Some x) /\
  exists d, lock b = Some d /\ 0 <= d.

(** The specification: a first-in first-out queue of bounded length. *)
Definition fifo_push (cap : Z) (q : list T) (x : T) : list T * bool :=
  if Z.of_nat (length q) <? cap then (q ++ [x], true) else (q, false).

Definition fifo_pop (q : list T) : list T * option T :=
  match q with
  | [] => ([], None)
  | x :: q' => (q', Some x)
  end.

(** Distinct offsets below the capacity are distinct slots. *)
Lemma mod_index_inj s r i j :
  0 < s -> 0 <= i < s -> 0 <= j < s -> (r + i) mod s = (r + j) mod s -> i = j.
Proof using Type.
  intros Hs Hi Hj E. apply Z.sub_move_0_r.
  assert ((i - j) mod s = 0) as E0.
  { replace (i - j) with ((r + i) - (r + j)) by lia. rewrite Zminus_mod, E, Z.sub_diag.
    apply Z.mod_0_l. lia. }
  apply Z.mod_divide in E0 as [k Hk]; [|lia]. assert (k = 0) by nia. lia.
Qed.

(** The indices are equal exactly when the buffer is empty or full. *)
Lemma indices_eq b q :
  queue b q -> (indexr b =? indexw b) = (count b =? 0) || (count b =? size b).
Proof using Type.
  intros (Hs & _ & Hc & Hle & Hz & Hp & _).
  destruct (Z.eqb_spec (size b) 0) as [E|E].
  - rewrite (Hz E), Z.eqb_refl. assert (count b = 0) as -> by lia. done.
  - destruct Hp as [Hr Hw]; [lia|].
    destruct (Z.eqb_spec (count b) 0) as [E0|E0]; simpl.
    { rewrite Hw, E0, Z.add_0_r, Z.mod_small by lia. apply Z.eqb_refl. }
    destruct (Z.eqb_spec (count b) (size b)) as [E1|E1].
    { rewrite Hw, E1. rewrite <- (Z.mul_1_l (size b)) at 1. rewrite Z.mod_add, Z.mod_small by lia.
      apply Z.eqb_refl. }
    apply Z.eqb_neq. rewrite Hw. intros E2.
    rewrite <- (Z.mod_small (indexr b) (size b)) in E2 at 1 by lia.
    rewrite <- (Z.add_0_r (indexr b)) in E2 at 1. apply mod_index_inj in E2; lia.
Qed.

Lemma push_queue b q x :
  queue b q ->
  exists b', push b x = Ok (b', (fifo_push (size b) q x).2) /\
    queue b' (fifo_push (size b) q x).1 /\ size b' = size b /\ lock b' = lock b.
Proof using Type.
  intros Hq. pose proof (indices_eq _ _ Hq) as Hi.
  destruct Hq as (Hs & Hl & Hc & Hle & Hz & Hp & Hf & d & Hd & Hd0).
  destruct b as [st sz ir iw ct lk]; simpl in *. subst lk ct.
  unfold push, isFull, IORecursiveLockLock, IORecursiveLockUnlock, with_lock, fifo_push. simpl.
  destruct (Z.ltb_spec 0 (d + 1 + 1)); [|lia]. simpl. rewrite Hi.
  replace (d + 1 + 1 - 1) with (d + 1) by lia. destruct (Z.ltb_spec 0 (d + 1)); [|lia].
  replace (d + 1 - 1) with d by lia.
  destruct (Z.ltb_spec (Z.of_nat (length q)) sz) as [Hlt|Hge].
  - destruct (Z.eqb_spec (Z.of_nat (length q)) sz); [lia|]. simpl.
    destruct Hp as [Hr Hw]; [lia|]. pose proof (Z.mod_pos_bound (ir + Z.of_nat (length q)) sz ltac:(lia)) as Hb.
    destruct (Z.ltb_spec iw (Z.of_nat (length st))); [|lia]. unfold umod.
    destruct (Z.eqb_spec sz 0); [lia|]. simpl. destruct (Z.ltb_spec 0 (d + 1)); [|lia].
    replace (d + 1 - 1) with d by lia. eexists. split; [done|]. split; [|done]. unfold queue; simpl.
    rewrite length_insert, length_app. simpl.
    rewrite (wrap_small 32 (Z.of_nat (length q) + 1)), (wrap_small 32 (iw + 1)) by lia.
    split_and!; try lia.
    + intros _. split; [lia|]. rewrite Hw, Zplus_mod_idemp_l. f_equal. lia.
    + intros i y [Hy|[Hge Hy]]%lookup_app_Some.
      * apply lookup_lt_Some in Hy as Hli. rewrite list_lookup_insert_ne; [by apply Hf|].
        intros E. apply Z2Nat.inj in E; [|subst iw; apply Z.mod_pos_bound; lia..].
        rewrite Hw in E. apply mod_index_inj in E; lia.
      * destruct (i - length q)%nat eqn:Ei; [|done]. injection Hy as <-.
        replace i with (length q) by lia. rewrite Hw. apply list_lookup_insert_eq. lia.
    + exists d. done.
  - destruct (Z.eqb_spec (Z.of_nat (length q)) sz); [|lia]. rewrite orb_true_r. simpl.
    destruct (Z.ltb_spec 0 (d + 1)); [|lia]. replace (d + 1 - 1) with d by lia.
    eexists. split; [done|]. split; [|done]. unfold queue; simpl. split_and!; try lia; try done. by exists d.
Qed.

Lemma pop_queue b q :
  queue b q ->
  exists b', pop b = Ok (b', (fifo_pop q).2) /\
    queue b' (fifo_pop q).1 /\ size b' = size b /\ lock b' = lock b.
Proof using Type.
  intros Hq. pose proof (indices_eq _ _ Hq) as Hi.
  destruct Hq as (Hs & Hl & Hc & Hle & Hz & Hp & Hf & d & Hd & Hd0).
  destruct b as [st sz ir iw ct lk]; simpl in *. subst lk.
  unfold pop, isEmpty, IORecursiveLockLock, IORecursiveLockUnlock, with_lock. simpl.
  destruct (Z.ltb_spec 0 (d + 1 + 1)); [|lia]. simpl. rewrite Hi.
  replace (d + 1 + 1 - 1) with (d + 1) by lia.
  destruct q as [|x q]; simpl in Hc |- *.
  - subst ct. destruct (Z.ltb_spec 0 (d + 1)); [|lia]. replace (d + 1 - 1) with d by lia.
    eexists. split; [done|]. split; [|done]. unfold queue; simpl. split_and!; try lia; try done. by exists d.
  - rewrite (proj2 (Z.eqb_neq ct 0)) by lia. destruct Hp as [Hr Hw]; [lia|].
    pose proof (Hf 0%nat x eq_refl) as Hx. simpl in Hx. rewrite Z.add_0_r, Z.mod_small in Hx by lia.
    rewrite Hx. unfold umod. destruct (Z.eqb_spec sz 0); [lia|]. simpl.
    destruct (Z.ltb_spec 0 (d + 1)); [|lia]. replace (d + 1 - 1) with d by lia.
    eexists. split; [done|]. split; [|done]. unfold queue; simpl.
    rewrite (wrap_small 32 (ir + 1)), (wrap_small 32 (ct - 1)) by lia.
    pose proof (Z.mod_pos_bound (ir + 1) sz ltac:(lia)).
    split_and!; try lia; try done.
    + intros _. split; [lia|]. rewrite Hw, Zplus_mod_idemp_l. f_equal. lia.
    + intros i y Hy. rewrite Zplus_mod_idemp_l.
      specialize (Hf (S i) y Hy). replace (ir + 1 + Z.of_nat i) with (ir + Z.of_nat (S i)) by lia. done.
    + by exists d.
Qed.
End circular.
Arguments CircularBuffer _ : clear implicits.

(** A client's sequence of pushes ([Some x]) and pops ([None]), with what each
    returned: [inl] the success of a push, [inr] the element of a pop. *)
Fixpoint client {T} (b : CircularBuffer T) (ops : list (option T))
    : res (CircularBuffer T * list (bool + option T)) :=
  match ops with
  | [] => Ok (b, [])
  | Some x :: ops' =>
      let! r := push b x in
      let! rs := client r.1 ops' in
      Ok (rs.1, inl r.2 :: rs.2)
  | None :: ops' =>
      let! r := pop b in
      let! rs := client r.1 ops' in
      Ok (rs.1, inr r.2 :: rs.2)
  end.

Fixpoint fifo {T} (cap : Z) (q : list T) (ops : list (option T))
    : list T * list (bool + option T) :=
  match ops with
  | [] => (q, [])
  | Some x :: ops' =>
      let r := fifo_push cap q x in
      let rs := fifo cap r.1 ops' in (rs.1, inl r.2 :: rs.2)
  | None :: ops' =>
      let r := fifo_pop q in
      let rs := fifo cap r.1 ops' in (rs.1, inr r.2 :: rs.2)
  end.

Lemma client_queue {T} (ops : list (option T)) b q :
  queue b q ->
  exists b', client b ops = Ok (b', (fifo (size b) q ops).2) /\
    queue b' (fifo (size b) q ops).1 /\ size b' = size b /\ lock b' = lock b.
Proof.
  revert b q. induction ops as [|[x|] ops IH]; intros b q Hq; simpl; [by exists b|..].
  - destruct (push_queue b q x Hq) as (b1 & E & H1 & Hs & Hl). rewrite E. simpl.
    destruct (IH b1 _ H1) as (b' & E' & H' & Hs' & Hl'). rewrite Hs in E', H'. rewrite E'. simpl.
    exists b'. split_and!; [done..|congruence|congruence].
  - destruct (pop_queue b q Hq) as (b1 & E & H1 & Hs & Hl). rewrite E. simpl.
    destruct (IH b1 _ H1) as (b' & E' & H' & Hs' & Hl'). rewrite Hs in E', H'. rewrite E'. simpl.
    exists b'. split_and!; [done..|congruence|congruence].
Qed.

(** A circular buffer made by [withCapacity] (any 32-bit capacity, zero
    included) answers every sequence of pushes and pops exactly as a bounded
    first-in first-out queue does, never leaves its storage or divides by
    zero, reports count, emptiness and fullness of that queue, and gives its
    recursive lock back on every path. *)
Theorem CircularBuffer_refines {T} (sz : Z) (st : list T) b ev ops :
  0 <= sz < 2 ^ 32 -> sz <= Z.of_nat (length st) ->
  withCapacity sz (Some st) true true = (Some b, ev) ->
  exists b', client b ops = Ok (b', (fifo sz [] ops).2) /\
    let q := (fifo sz [] ops).1 in
    getCount b' = Ok (b', Z.of_nat (length q)) /\
    isEmpty b' = Ok (b', Z.of_nat (length q) =? 0) /\
    isFull b' = Ok (b', Z.of_nat (length q) =? sz) /\
    lock b' = Some 0.
Proof.
  intros Hs Hl [= <- <-].
  destruct (client_queue ops (mk_cb st sz 0 0 0 (Some 0)) []) as (b' & E & Hq & Hs' & Hk).
  { unfold queue. simpl. split_and!; try lia; try done. by exists 0. }
  simpl in *. exists b'. split; [done|].
  pose proof (indices_eq _ _ Hq) as Hi. destruct Hq as (_ & _ & Hc & _).
  destruct b' as [st' sz' ir iw ct lk]; simpl in *. subst sz' ct lk.
  unfold getCount, isEmpty, isFull, IORecursiveLockLock, IORecursiveLockUnlock, with_lock; simpl.
  rewrite Hi. split_and!; [done| | |done]; do 3 f_equal;
    destruct (_ =? 0), (_ =? sz); done.
Qed.

Lemma CircularBuffer_refines_witness :
  let b := mk_cb [7; 7] 2 0 0 0 (Some 0) in
  withCapacity 2 (Some [7; 7]) true true = (Some b, [AllocStorage; AllocInstance]) /\
  exists b', client b [Some 1; Some 2; Some 3; None; Some 4; None] =
    Ok (b', [inl true; inl true; inl false; inr (Some 1); inl true; inr (Some 2)]).
Proof.
  split; [reflexivity|].
  destruct (CircularBuffer_refines 2 [7; 7] (mk_cb [7; 7] 2 0 0 0 (Some 0))
    [AllocStorage; AllocInstance] [Some 1; Some 2; Some 3; None; Some 4; None]
    ltac:(lia) ltac:(simpl; lia) eq_refl) as (b' & E & _).
  exists b'. exact E.
Defined.

#[export] Instance heap_event_eq_dec : EqDecision heap_event.
Proof. solve_decision. Defined.

(** Whatever fails in [withCapacity], it gives back what it obtained. *)
Lemma withCapacity_failure {T} sz (st : option (list T)) i l ev :
  withCapacity sz st i l = (None, ev) ->
  length (filter (.= AllocStorage) ev) = length (filter (.= FreeStorage) ev) /\
  length (filter (.= AllocInstance) ev) = length (filter (.= FreeInstance) ev).
Proof. destruct st, i, l; simpl; intros [=]; by subst ev. Qed.
End Circular.
