(* ===== verification/ThreadLocal.v ===== *)
(** Lilu's lock-free thread-specific storage, [ThreadLocal<T, N>]
    (Lilu/Lilu/Headers/kern_util.hpp).

    The object is two arrays of [N] entries: the thread that owns an entry (an
    atomic) and its value.  Every call is a sequence of atomic steps of the
    calling thread; the step relation interleaves the steps of any number of
    threads (the acquire and release orders of the source are read as
    interleaving).  The specification is a map from threads to values: no
    interleaving lets a thread see, lose or overwrite another one's value. *)

From Stdlib Require Import ZArith Lia List Bool.
From stdpp Require Import prelude.
From S2P Require Import Prelude.

Section thread_local.
Context {tid : Type} `{!EqDecision tid} {T : Type} (zero : T) (N : nat).

Record ThreadLocal := mk_tl {
  threads : list (option tid);
  values : list T
}.

(** The members' initialisers; [init] itself does nothing. *)
Definition tl_new : ThreadLocal := mk_tl (replicate N None) (replicate N zero).
Definition tl_init (s : ThreadLocal) : ThreadLocal := s.
Definition tl_deinit (s : ThreadLocal) : ThreadLocal :=
  mk_tl (replicate N None) (replicate N zero).

(** Where a thread is in the code: outside of any call, in one of the two
    loops of [set], at its store, in the loop of [get], or at one of the three
    steps of [erase]. *)
Inductive pc :=
  | Idle
  | SetFind (value : T) (i : nat)
  | SetClaim (value : T) (i : nat)
  | SetStore (value : T) (i : nat)
  | GetFind (i : nat)
  | EraseFind (i : nat)
  | EraseClear (i : nat)
  | EraseSwap (i : nat).

(** What a call returns; [get] returns the address of an entry's value. *)
Inductive outcome :=
  | RSet (ok : bool)
  | RGet (ptr : option nat)
  | RErase (ok : bool).

(** [threads[i] == t], for an atomic load. *)
Definition owns (s : ThreadLocal) (i : nat) (t : tid) : bool :=
  bool_decide (threads s !! i = Some (Some t)).

Definition tl_set (value : T) : pc := SetFind value 0.
Definition tl_get : pc := GetFind 0.
Definition tl_erase : pc := EraseFind 0.

(** One atomic step of thread [me]. *)
Definition tl_step (me : tid) (s : ThreadLocal) (p : pc) : ThreadLocal * (pc + outcome) :=
  match p with
  | Idle => (s, inl Idle)
  | SetFind v i =>
      if decide (i < N)%nat then
        if owns s i me then (s, inl (SetStore v i)) else (s, inl (SetFind v (S i)))
      else (s, inl (SetClaim v 0))
  | SetClaim v i =>
      if decide (i < N)%nat then
        if decide (threads s !! i = Some None) then
          (mk_tl (<[i := Some me]> (threads s)) (values s), inl (SetStore v i))
        else (s, inl (SetClaim v (S i)))
      else (s, inr (RSet false))
  | SetStore v i => (mk_tl (threads s) (<[i := v]> (values s)), inr (RSet true))
  | GetFind i =>
      if decide (i < N)%nat then
        if owns s i me then (s, inr (RGet (Some i))) else (s, inl (GetFind (S i)))
      else (s, inr (RGet None))
  | EraseFind i =>
      if decide (i < N)%nat then
        if owns s i me then (s, inl (EraseClear i)) else (s, inl (EraseFind (S i)))
      else (s, inr (RErase false))
  | EraseClear i => (mk_tl (threads s) (<[i := zero]> (values s)), inl (EraseSwap i))
  | EraseSwap i =>
      if owns s i me then
        (mk_tl (<[i := None]> (threads s)) (values s), inr (RErase true))
      else (s, inr (RErase false))
  end.

(** ** Interleavings and the specification *)

(** [pcs]: where every thread is; [M]: the values the threads have stored, as
    the calls that returned say.  [done v r m] is the effect of a call. *)
Definition upd {A} (f : tid -> A) (t : tid) (a : A) : tid -> A :=
  fun x => if decide (x = t) then a else f x.

Definition value_of (p : pc) : option T :=
  match p with SetStore v _ => Some v | _ => None end.

Definition done (p : pc) (r : outcome) (m : option T) : option T :=
  match r with
  | RSet true => value_of p
  | RSet false | RGet _ => m
  | RErase _ => None
  end.

Inductive tl_reach : ThreadLocal -> (tid -> pc) -> (tid -> option T) -> Prop :=
  | tl_start : tl_reach (tl_init tl_new) (fun _ => Idle) (fun _ => None)
  | tl_call s pcs M t p :
      tl_reach s pcs M -> pcs t = Idle -> p ∈ [tl_get; tl_erase] \/ (exists v, p = tl_set v) ->
      tl_reach s (upd pcs t p) M
  | tl_internal s pcs M t s' p' :
      tl_reach s pcs M -> tl_step t s (pcs t) = (s', inl p') ->
      tl_reach s' (upd pcs t p') M
  | tl_return s pcs M t s' r :
      tl_reach s pcs M -> tl_step t s (pcs t) = (s', inr r) ->
      tl_reach s' (upd pcs t Idle) (upd M t (done (pcs t) r (M t)))
  | tl_stop s pcs M :
      tl_reach s pcs M -> (forall t, pcs t = Idle) ->
      tl_reach (tl_deinit s) pcs (fun _ => None).

(** ** The invariant *)

Definition has (s : ThreadLocal) (t : tid) (i : nat) : Prop := threads s !! i = Some (Some t).

(** The array agrees with the specification on thread [t]. *)
Definition agrees (s : ThreadLocal) (t : tid) (m : option T) : Prop :=
  match m with
  | None => forall i, ~ has s t i
  | Some v => exists i, has s t i /\ values s !! i = Some v
  end.

(** What is known of thread [t] where it is in the code. *)
Definition pc_inv (s : ThreadLocal) (t : tid) (m : option T) (p : pc) : Prop :=
  match p with
  | Idle => agrees s t m
  | SetFind _ i | GetFind i | EraseFind i =>
      agrees s t m /\ forall j, (j < i)%nat -> ~ has s t j
  | SetClaim _ i => m = None /\ agrees s t None
  | SetStore _ i => has s t i
  | EraseClear i | EraseSwap i => has s t i /\ is_Some m
  end.

Definition shape (s : ThreadLocal) : Prop :=
  length (threads s) = N /\ length (values s) = N /\
  forall t i j, has s t i -> has s t j -> i = j.

(** The entries of [t] are the same in both states. *)
Definition same_for (t : tid) (s s' : ThreadLocal) : Prop :=
  forall i, (has s' t i <-> has s t i) /\ (has s t i -> values s' !! i = values s !! i).

Lemma has_lt s t i : shape s -> has s t i -> (i < N)%nat.
Proof using Type. intros (<- & _) Hi. by apply lookup_lt_Some in Hi. Qed.

Lemma owns_spec s i t : owns s i t = true <-> has s t i.
Proof using Type. unfold owns. apply bool_decide_eq_true. Qed.

Lemma agrees_frame s s' t m : same_for t s s' -> agrees s t m -> agrees s' t m.
Proof using Type.
  intros Hf. destruct m as [v|]; simpl.
  - intros (i & Hi & Hv). exists i. destruct (Hf i) as [H1 H2]. split; [by apply H1|].
    by rewrite H2.
  - intros Ha i Hi. by apply (Ha i), (Hf i).
Qed.

Lemma pc_inv_frame s s' t m p : same_for t s s' -> pc_inv s t m p -> pc_inv s' t m p.
Proof using Type.
  intros Hf. destruct p; simpl; intros H; try (by eapply agrees_frame);
    try (destruct H as [Ha Hn]; split; [by eapply agrees_frame|]; intros j Hj Hh;
         by apply (Hn j Hj), (Hf j)).
  - destruct H as [-> H]. split; [done|]. by eapply (agrees_frame s s' t None).
  - by apply (Hf i).
  - destruct H as [H ?]. split; [|done]. by apply (Hf i).
  - destruct H as [H ?]. split; [|done]. by apply (Hf i).
Qed.

(** Reaching the end of a search means the thread has no entry. *)
Lemma search_end s t m i :
  shape s -> ~ (i < N)%nat -> agrees s t m -> (forall j, (j < i)%nat -> ~ has s t j) -> m = None.
Proof using Type.
  intros Hs Hi Ha Hn. destruct m as [v|]; [|done]. destruct Ha as (j & Hj & _).
  pose proof (has_lt _ _ _ Hs Hj). destruct (Hn j ltac:(lia) Hj).
Qed.

Lemma search_next s t i :
  (forall j, (j < i)%nat -> ~ has s t j) -> owns s i t = false ->
  forall j, (j < S i)%nat -> ~ has s t j.
Proof using Type.
  intros Hn Ho j Hj Hh. destruct (decide (j = i)) as [->|]; [|apply (Hn j ltac:(lia) Hh)].
  apply owns_spec in Hh. congruence.
Qed.

(** Finding the entry means the thread has a value. *)
Lemma search_found s t m i :
  shape s -> agrees s t m -> owns s i t = true ->
  exists v, m = Some v /\ values s !! i = Some v.
Proof using Type.
  intros (_ & _ & Hu) Ha Ho. apply owns_spec in Ho. destruct m as [v|].
  - destruct Ha as (j & Hj & Hv). rewrite (Hu t i j Ho Hj). by exists v.
  - by destruct (Ha i).
Qed.

(** ** Steps *)

(** The entry arrays after the step of another thread. *)
Lemma set_value_frame s i v t u :
  shape s -> has s t i -> u <> t ->
  same_for u s (mk_tl (threads s) (<[i := v]> (values s))).
Proof using Type.
  intros Hs Hi Hu j. split; [done|]. intros Hj. simpl. apply list_lookup_insert_ne.
  intros ->. unfold has in *. congruence.
Qed.

Lemma set_owner_frame s i o t u :
  (threads s !! i = Some None \/ has s t i) -> o <> Some u -> u <> t ->
  same_for u s (mk_tl (<[i := o]> (threads s)) (values s)).
Proof using Type.
  intros Hi Ho Hu j. split; [|done]. unfold has. simpl.
  destruct (decide (i = j)) as [->|]; [|by rewrite list_lookup_insert_ne].
  assert (j < length (threads s))%nat by (destruct Hi as [Hi|Hi]; by apply lookup_lt_Some in Hi).
  rewrite list_lookup_insert_eq by done. unfold has in Hi.
  destruct Hi as [Hi|Hi]; rewrite Hi; split; congruence.
Qed.

Lemma shape_values s i v : shape s -> shape (mk_tl (threads s) (<[i := v]> (values s))).
Proof using Type. intros (? & ? & ?). unfold shape. simpl. by rewrite length_insert. Qed.

Lemma shape_owner s i o t :
  shape s -> o = None \/ (o = Some t /\ forall j, ~ has s t j) ->
  shape (mk_tl (<[i := o]> (threads s)) (values s)).
Proof using Type.
  intros (H1 & H2 & Hu) Ho. unfold shape. simpl. rewrite length_insert. split_and!; [done..|].
  intros u a b. unfold has. simpl.
  rewrite !list_lookup_insert_Some.
  intros [(-> & -> & _)|(? & Ha)] [(Hb1 & Hb2 & _)|(? & Hb)]; [congruence|..| |by eapply Hu].
  - destruct Ho as [|[[= ->] Ho]]; [done|]. by destruct (Ho b).
  - subst. destruct Ho as [|[[= ->] Ho]]; [done|]. by destruct (Ho a).
Qed.

(** One step of [t]: the arrays stay well-formed, what is known of [t] holds at
    its new place, and other threads' entries are untouched. *)
Lemma tl_step_inv s t m p s' x :
  shape s -> pc_inv s t m p -> tl_step t s p = (s', x) ->
  shape s' /\ (forall u, u <> t -> same_for u s s') /\
  match x with
  | inl p' => pc_inv s' t m p'
  | inr r => agrees s' t (done p r m)
  end.
Proof using Type.
  intros Hs Hp. assert (forall u, same_for u s s) as Hrefl by done.
  destruct p as [|v i|v i|v i|i|i|i|i]; simpl in *; repeat case_decide;
    try match goal with |- context [owns s i t] => destruct (owns s i t) eqn:Ho end; intros [= <- <-]; simpl; try done;
    try (split; [done|]; split; [done|]).
  - by apply owns_spec.
  - destruct Hp as [Ha Hn]. split; [done|]. by apply search_next.
  - destruct Hp as [Ha Hn]. assert (m = None) as -> by (by eapply search_end). by split.
  - destruct Hp as [-> Ha]. split_and!.
    + apply (shape_owner _ _ _ t Hs). by right.
    + intros u Hu. apply (set_owner_frame _ _ _ t); [by left|congruence|done].
    + unfold has. simpl. apply list_lookup_insert_eq. by apply lookup_lt_Some in H0.
  - by destruct Hp as [-> Ha].
  - split_and!; [by apply shape_values|by intros; eapply set_value_frame|].
    exists i. split; [apply Hp|]. simpl. apply list_lookup_insert_eq.
    rewrite (proj1 (proj2 Hs)). by eapply has_lt.
  - by destruct Hp.
  - destruct Hp as [Ha Hn]. split; [done|]. by apply search_next.
  - by destruct Hp.
  - destruct Hp as [Ha Hn]. apply owns_spec in Ho as Hh. split; [done|].
    destruct (search_found s t m i Hs Ha Ho) as (v & -> & _). by eexists.
  - destruct Hp as [Ha Hn]. split; [done|]. by apply search_next.
  - destruct Hp as [Ha Hn]. by assert (m = None) as -> by (by eapply search_end).
  - destruct Hp as [Ha Hm]. split_and!; [by apply shape_values|by intros; eapply set_value_frame|done..].
  - destruct Hp as [Ha Hm]. split_and!.
    + apply (shape_owner _ _ _ t Hs). by left.
    + intros u Hu. apply (set_owner_frame _ _ _ t); [by right|done|done].
    + intros j. unfold has. simpl. rewrite list_lookup_insert_Some.
      intros [(_ & [=] & _)|(Hne & Hj)]. apply Hne. by eapply (proj2 (proj2 Hs)).
  - destruct Hp as [Ha Hm]. apply owns_spec in Ha. congruence.
Qed.

(** ** Reachable states *)

Definition tl_inv (s : ThreadLocal) (pcs : tid -> pc) (M : tid -> option T) : Prop :=
  shape s /\ forall t, pc_inv s t (M t) (pcs t).

Lemma fresh_inv (pcs : tid -> pc) :
  (forall t, pcs t = Idle) -> tl_inv tl_new pcs (fun _ => None).
Proof using Type.
  assert (forall t i, ~ has tl_new t i) as Hn.
  { intros t i Hi. by apply lookup_replicate in Hi as [[=] _]. }
  intros Hp. split.
  - split_and!; [apply length_replicate..|]. intros t i j Hi. by destruct (Hn t i).
  - intros t. rewrite Hp. intros i. apply Hn.
Qed.

Lemma upd_inv s s' pcs M t p m :
  shape s' -> (forall u, u <> t -> same_for u s s') -> (forall u, pc_inv s u (M u) (pcs u)) ->
  pc_inv s' t m p -> tl_inv s' (upd pcs t p) (upd M t m).
Proof using Type.
  intros Hs Hf Hi Ht. split; [done|]. intros u. unfold upd. case_decide as E; [by subst|].
  eapply pc_inv_frame; [by apply Hf|done].
Qed.

Lemma upd_same {A} (f : tid -> A) t u : upd f t (f t) u = f u.
Proof using Type. unfold upd. case_decide; by subst. Qed.

Lemma tl_reach_inv s pcs M : tl_reach s pcs M -> tl_inv s pcs M.
Proof using Type.
  induction 1 as [|s pcs M t p _ [Hs Hi] Ht Hp|s pcs M t s' p' _ [Hs Hi] E|s pcs M t s' r _ [Hs Hi] E|
                  s pcs M _ _ Hp].
  - by apply fresh_inv.
  - split; [done|]. intros u. specialize (Hi u) as Hu. unfold upd. case_decide as Eu; [|done].
    subst u. rewrite Ht in Hu. destruct Hp as [Hp|[v ->]]; [|by split; [|lia]].
    apply elem_of_cons in Hp as [->|Hp]; [by split; [|lia]|].
    apply list_elem_of_singleton in Hp as ->. by split; [|lia].
  - destruct (tl_step_inv s t (M t) (pcs t) s' _ Hs (Hi t) E) as (Hs' & Hf & Hp).
    destruct (upd_inv s s' pcs M t p' (M t) Hs' Hf Hi Hp) as [_ Hx]. split; [done|].
    intros u. rewrite <- (upd_same M t u). apply Hx.
  - destruct (tl_step_inv s t (M t) (pcs t) s' _ Hs (Hi t) E) as (Hs' & Hf & Hp).
    by apply (upd_inv s).
  - by apply fresh_inv.
Qed.

(** What the outcome of a call says of the caller's value. *)
Definition outcome_ok (s : ThreadLocal) (m : option T) (r : outcome) : Prop :=
  match r with
  | RSet true => True
  | RSet false => m = None
  | RGet (Some i) => exists v, m = Some v /\ values s !! i = Some v
  | RGet None => m = None
  | RErase b => b = bool_decide (is_Some m)
  end.

Lemma tl_step_outcome s t m p s' r :
  shape s -> pc_inv s t m p -> tl_step t s p = (s', inr r) -> outcome_ok s m r.
Proof using Type.
  intros Hs Hp. destruct p as [|v i|v i|v i|i|i|i|i]; simpl in *; repeat case_decide;
    try match goal with |- context [owns s i t] => destruct (owns s i t) eqn:Ho end;
    intros [= <- <-]; simpl; try done.
  - apply Hp.
  - destruct Hp as [Ha _]. by apply (search_found s t).
  - destruct Hp as [Ha Hn]. by eapply search_end.
  - destruct Hp as [Ha Hn]. assert (m = None) as -> by (by eapply search_end). done.
  - destruct Hp as [_ Hm]. by rewrite bool_decide_eq_true_2.
  - destruct Hp as [Ha _]. apply owns_spec in Ha. congruence.
Qed.

(** ** Every call returns *)

(** A bound on the own steps left. *)
Definition tl_left (p : pc) : nat :=
  match p with
  | Idle => 0
  | SetFind _ i => (N - i) + N + 3
  | SetClaim _ i => (N - i) + 2
  | SetStore _ _ => 1
  | GetFind i => (N - i) + 1
  | EraseFind i => (N - i) + 3
  | EraseClear _ => 2
  | EraseSwap _ => 1
  end.

Lemma tl_left_decreases t s p s' p' :
  p <> Idle -> tl_step t s p = (s', inl p') -> p' <> Idle /\ (tl_left p' < tl_left p)%nat.
Proof using Type.
  intros Hp. destruct p; simpl in *; repeat case_decide; try destruct (owns _ _ _);
    intros [=]; subst; simpl; try done; (split; [done|lia]).
Qed.

(** The own steps of thread [t] from [p] on, where other threads may do
    anything in between: [env k] is the state its [k]th step finds. *)
Fixpoint own_run (t : tid) (env : nat -> ThreadLocal) (k : nat) (fuel : nat) (p : pc)
    : option outcome :=
  match fuel with
  | O => None
  | S f =>
      match (tl_step t (env k) p).2 with
      | inr r => Some r
      | inl p' => own_run t env (S k) f p'
      end
  end.

Lemma own_run_returns t env fuel k p :
  p <> Idle -> (tl_left p <= fuel)%nat -> is_Some (own_run t env k fuel p).
Proof using Type.
  revert k p. induction fuel as [|f IH]; intros k p Hp Hl; [exfalso; destruct p; simpl in Hl; (done || lia)|].
  simpl. destruct (tl_step t (env k) p) as [s' [p'|r]] eqn:E; simpl; [|by eexists].
  apply tl_left_decreases in E as [Hp' Hlt]; [|done]. apply IH; [done|lia].
Qed.

(** C13: in every interleaving of calls of any number of threads, a thread that
    is outside of a call has at most one entry, which holds exactly the value
    of its last successful [set] that it did not [erase]; and a call that
    returns says so: [get] gives the address of that value or null when there
    is none, [erase] succeeds exactly when there was one, and [set] can only
    fail for a thread that has no value. *)
Theorem ThreadLocal_isolated s pcs M t :
  tl_reach s pcs M ->
  (pcs t = Idle -> agrees s t (M t)) /\
  (forall i j, has s t i -> has s t j -> i = j) /\
  forall s' r, tl_step t s (pcs t) = (s', inr r) ->
    outcome_ok s (M t) r /\ agrees s' t (done (pcs t) r (M t)).
Proof using Type.
  intros [Hs Hi]%tl_reach_inv. specialize (Hi t). split_and!.
  - intros E. by rewrite E in Hi.
  - apply Hs.
  - intros s' r E. split; [by eapply tl_step_outcome|].
    apply (tl_step_inv s t (M t) (pcs t) s' _ Hs Hi E).
Qed.

(** C34: [set], [get] and [erase] are wait-free: whatever the other threads do
    between its steps, a call returns after at most [2 * N + 3] steps of its
    own thread. *)
Theorem ThreadLocal_wait_free t env value p :
  p ∈ [tl_set value; tl_get; tl_erase] ->
  is_Some (own_run t env 0 (2 * N + 3) p).
Proof using Type.
  intros Hp. apply own_run_returns; repeat (apply elem_of_cons in Hp as [->|Hp]; [simpl; (done || lia)|]);
    by apply elem_of_nil in Hp.
Qed.
End thread_local.
Arguments pc _ : clear implicits.
Arguments ThreadLocal _ _ : clear implicits.

Open Scope Z_scope.

(** Thread 7 stores 5 in a storage of one entry: the call is about to return. *)
Definition demo_pcs : Z -> pc Z :=
  upd (upd (upd (upd (fun _ => Idle) 7 (tl_set 5)) 7 (SetFind 5 1)) 7 (SetClaim 5 0)) 7 (SetStore 5 0).

Lemma ThreadLocal_isolated_witness :
  tl_step 0 1 7 (mk_tl [Some 7] [0]) (demo_pcs 7) = (mk_tl [Some 7] [5], inr (RSet true)) /\
  agrees (mk_tl [Some 7] [5]) 7 (Some 5).
Proof.
  split; [reflexivity|].
  assert (tl_reach 0 1 (mk_tl [Some 7] [0]) demo_pcs (fun _ => None)) as Hr.
  { do 3 (eapply (tl_internal 0 1 (mk_tl [None] [0])); [|reflexivity]).
    eapply tl_call; [exact (tl_start 0 1)|reflexivity|].
    right. exists 5. reflexivity. }
  destruct (ThreadLocal_isolated 0 1 _ _ _ 7 Hr) as (_ & _ & H).
  exact (proj2 (H (mk_tl [Some 7] [5]) (RSet true) eq_refl)).
Defined.

Lemma ThreadLocal_wait_free_witness :
  is_Some (own_run 0 1 7 (fun _ => mk_tl [Some 8] [0]) 0 5 (tl_set 3)).
Proof.
  apply (ThreadLocal_wait_free 0 1 7 (fun _ => mk_tl [Some 8] [0]) 3 (tl_set 3)).
  apply elem_of_cons. left. reflexivity.
Defined.
