(* ===== verification/KUtil.v ===== *)
(** Lilu's small utilities (Lilu/Lilu/Headers/kern_util.hpp and
    Lilu/Lilu/Sources/kern_util.cpp): alignment and bit fields on unsigned
    integers of [w] bits, the string functions, and the sizes [Buffer] asks the
    kernel's allocator for.

    A C string is the list of its characters (bytes) before the terminator; a
    pointer into it is an offset, the offset of the terminator included. *)

From Stdlib Require Import ZArith Lia List Bool.
From stdpp Require Import prelude.
From S2P Require Import Prelude.

Open Scope Z_scope.

(** ** Alignment and bit fields *)

Definition lnot (w x : Z) : Z := wrap w (Z.lnot x).

Definition alignValue (w size align : Z) : Z :=
  wrap w (wrap w (size + align - 1) .& lnot w (wrap w (align - 1))).

Definition getBit (w n : Z) : Z := wrap w (1 .<< n).

Definition getBitMask (w hi lo : Z) : Z :=
  (getBit w hi .| wrap w (getBit w hi - 1)) .& lnot w (wrap w (getBit w lo - 1)).

Definition getBitField (w so hi lo : Z) : Z := (so .& getBitMask w hi lo) .>> lo.

Definition setBitField (w so hi lo : Z) : Z := wrap w (so .<< lo) .& getBitMask w hi lo.

(** [findNotEquals], on the container as a list with a [size] to look at. *)
Fixpoint findNotEquals (l : list Z) (size : nat) (value : Z) : res bool :=
  match size, l with
  | O, _ => Ok false
  | S _, [] => Fault
  | S n, x :: l' => if negb (x =? value) then Ok true else findNotEquals l' n value
  end.

(** ** Strings *)

(** The character at offset [i], the terminator behind the last one. *)
Definition ch (s : list Z) (i : nat) : Z := nth i s 0.

(** The loop of [strstr]: [i] characters of the needle matched so far; [pos] is
    the offset of [stack] in the string. *)
Fixpoint strstr_loop (stack needle : list Z) (len i pos : nat) : option nat :=
  match stack with
  | [] => None
  | c :: stack' =>
      if c =? ch needle i then
        if (S i =? len)%nat then Some (pos + 1 - len)%nat
        else strstr_loop stack' needle len (S i) (S pos)
      else strstr_loop stack' needle len 0 (S pos)
  end.

Definition strstr (stack needle : list Z) (len : nat) : option nat :=
  if (len =? 0)%nat then
    if (length needle =? 0)%nat then Some 0%nat
    else strstr_loop stack needle (length needle) 0 0
  else strstr_loop stack needle len 0 0.

(** The loop of [strrchr] looks at the terminator too; plain [char] is signed. *)
Fixpoint strrchr_loop (stack : list Z) (c : Z) (pos : nat) (rtnval : option nat) : option nat :=
  match stack with
  | [] => if 0 =? c then Some pos else rtnval
  | x :: stack' => strrchr_loop stack' c (S pos) (if sext 8 x =? c then Some pos else rtnval)
  end.

Definition strrchr (stack : option (list Z)) (c : Z) : option nat :=
  match stack with
  | None => None
  | Some s => strrchr_loop s c 0 None
  end.

(** [lilu_strlcpy]: the bytes stored at [dst], in order, and the result.  The
    copying loop stores until the terminator was copied or [n] reaches zero. *)
Fixpoint strlcpy_copy (src : list Z) (n : nat) : list Z * nat * list Z * bool :=
  match n with
  | O => ([], O, src, false)
  | S n' =>
      match src with
      | [] => ([0], S n', [], true)
      | c :: src' =>
          let '(d, k, s, stop) := strlcpy_copy src' n' in
          (c :: d, k, s, stop)
      end
  end.

Definition lilu_strlcpy (src : list Z) (siz : nat) : list Z * nat :=
  match siz with
  | O => ([], length src)
  | S n =>
      let '(d, k, s, stop) := strlcpy_copy src n in
      if (k =? 0)%nat then (d ++ [0], (length src - length s + length s)%nat)
      else (d, (length src - length s)%nat)
  end.

(** ** Buffers *)

Definition BufferMax : Z := 1024 * 1024 * 1024.

(** [kern_os_malloc] and [kern_os_realloc] as far as the size they are asked
    for matters: the request, or [None] when there is none. *)
Definition Buffer_create (esz size : Z) : option Z :=
  let s := u64 (esz * size) in
  if BufferMax <? s then None else Some s.

Definition Buffer_resize (esz size : Z) : option Z :=
  let s := u64 (esz * size) in
  if BufferMax <? s then None else Some s.

Definition kern_os_calloc (num size : Z) : Z := u64 (num * size).

(** ** Facts *)

Section bits.
Context (w : Z) (Hw : 0 < w).

Lemma getBit_pow n : 0 <= n < w -> getBit w n = 2 ^ n.
Proof using Hw.
  intros Hn. unfold getBit. rewrite Z.shiftl_1_l, wrap_small; [done|].
  split; [apply Z.pow_nonneg; lia|apply Z.pow_lt_mono_r; lia].
Qed.

(** The mask has exactly the bits from [lo] to [hi]. *)
Lemma getBitMask_testbit hi lo i :
  0 <= lo <= hi -> hi < w -> 0 <= i ->
  Z.testbit (getBitMask w hi lo) i = (lo <=? i) && (i <=? hi).
Proof using Hw.
  intros Hl Hh Hi. unfold getBitMask, lnot. rewrite !getBit_pow by lia.
  assert (forall k, 0 <= k < w -> wrap w (2 ^ k - 1) = Z.ones k) as E.
  { intros k Hk. rewrite Z.ones_equiv. fold (2 ^ k - 1). rewrite <- Z.sub_1_r. apply wrap_small.
    pose proof (Z.pow_pos_nonneg 2 k). pose proof (Z.pow_lt_mono_r 2 k w). lia. }
  rewrite !E by lia.
  rewrite Z.land_spec, Z.lor_spec, wrap_testbit, Z.lnot_spec by lia.
  rewrite Z.pow2_bits_eqb by lia. rewrite !Z.testbit_ones_nonneg by lia.
  destruct (Z.eqb_spec hi i), (Z.ltb_spec i hi), (Z.ltb_spec i w), (Z.ltb_spec i lo),
    (Z.leb_spec lo i), (Z.leb_spec i hi); simpl; lia || done.
Qed.

Lemma getBitField_value so hi lo :
  0 <= lo <= hi -> hi < w -> 0 <= so < 2 ^ w ->
  getBitField w so hi lo = (so / 2 ^ lo) mod 2 ^ (hi - lo + 1).
Proof using Hw.
  intros Hl Hh Hs. unfold getBitField. apply Z.bits_inj'. intros i Hi.
  rewrite Z.shiftr_spec, Z.land_spec, getBitMask_testbit by lia.
  rewrite <- Z.shiftr_div_pow2 by lia.
  destruct (Z.ltb_spec i (hi - lo + 1)).
  - rewrite Z.mod_pow2_bits_low, Z.shiftr_spec by lia.
    destruct (Z.leb_spec lo (i + lo)), (Z.leb_spec (i + lo) hi); try lia. by rewrite andb_true_r.
  - rewrite Z.mod_pow2_bits_high by lia.
    destruct (Z.leb_spec (i + lo) hi); [lia|]. by rewrite !andb_false_r.
Qed.

Lemma get_setBitField v hi lo :
  0 <= lo <= hi -> hi < w -> 0 <= v ->
  getBitField w (setBitField w v hi lo) hi lo = v mod 2 ^ (hi - lo + 1).
Proof using Hw.
  intros Hl Hh Hv. unfold getBitField, setBitField. apply Z.bits_inj'. intros i Hi.
  rewrite Z.shiftr_spec, !Z.land_spec, getBitMask_testbit, wrap_testbit, Z.shiftl_spec by lia.
  replace (i + lo - lo) with i by lia.
  destruct (Z.ltb_spec i (hi - lo + 1)).
  - rewrite Z.mod_pow2_bits_low by lia.
    destruct (Z.leb_spec lo (i + lo)), (Z.leb_spec (i + lo) hi), (Z.ltb_spec (i + lo) w); try lia.
    simpl. by rewrite !andb_true_r.
  - rewrite Z.mod_pow2_bits_high by lia.
    destruct (Z.leb_spec (i + lo) hi); [lia|]. by rewrite !andb_false_r.
Qed.

(** Clearing the low [k] bits. *)
Lemma land_lnot_ones x k :
  0 <= k < w -> 0 <= x < 2 ^ w -> x .& lnot w (Z.ones k) = x / 2 ^ k * 2 ^ k.
Proof using Hw.
  intros Hk Hx. rewrite <- Z.shiftl_mul_pow2, <- Z.shiftr_div_pow2 by lia.
  apply Z.bits_inj'. intros i Hi. unfold lnot.
  rewrite Z.land_spec, wrap_testbit, Z.lnot_spec, Z.testbit_ones_nonneg, Z.shiftl_spec by lia.
  destruct (Z.ltb_spec i k).
  - rewrite !andb_false_r, Z.testbit_neg_r by lia. done.
  - rewrite Z.shiftr_spec by lia. replace (i - k + k) with i by lia.
    destruct (Z.ltb_spec i w); [by rewrite !andb_true_r|].
    rewrite (Z.bits_above_log2 x i); [done|lia|].
    destruct (Z.eq_dec x 0) as [->|]; [simpl; lia|]. apply Z.log2_lt_pow2; [lia|].
    apply Z.lt_le_trans with (2 ^ w); [lia|]. apply Z.pow_le_mono_r; lia.
Qed.

Lemma alignValue_value size k :
  0 <= k < w -> 0 <= size -> size + 2 ^ k - 1 < 2 ^ w ->
  alignValue w size (2 ^ k) = (size + 2 ^ k - 1) / 2 ^ k * 2 ^ k.
Proof using Hw.
  intros Hk Hs Hb. unfold alignValue. pose proof (Z.pow_pos_nonneg 2 k ltac:(lia) ltac:(lia)).
  rewrite !(wrap_small w) with (z := 2 ^ k - 1) by (pose proof (Z.pow_lt_mono_r 2 k w); lia).
  rewrite (wrap_small w (size + 2 ^ k - 1)) by lia.
  replace (2 ^ k - 1) with (Z.ones k) at 1 by (rewrite Z.ones_equiv; lia).
  rewrite land_lnot_ones by lia. apply wrap_small.
  pose proof (Z.mul_div_le (size + 2 ^ k - 1) (2 ^ k)).
  pose proof (Z.div_pos (size + 2 ^ k - 1) (2 ^ k)). nia.
Qed.
End bits.

(** [needle] starts at offset [p] of [stack] (its first [len] characters). *)
Definition occurs (stack needle : list Z) (len p : nat) : Prop :=
  forall k, (k < len)%nat -> stack !! (p + k)%nat = Some (ch needle k).

Lemma strstr_loop_sound full needle len stack i pos p :
  drop pos full = stack -> (i < len)%nat -> (i <= pos)%nat ->
  (forall k, (k < i)%nat -> full !! (pos - i + k)%nat = Some (ch needle k)) ->
  strstr_loop stack needle len i pos = Some p -> occurs full needle len p.
Proof.
  revert i pos. induction stack as [|c stack IH]; intros i pos Hd Hi Hp Hm; cbn [strstr_loop]; [done|].
  assert (full !! pos = Some c) as Hc.
  { rewrite <- (Nat.add_0_r pos), <- lookup_drop, Hd. done. }
  assert (drop (S pos) full = stack) as Hd'.
  { replace (S pos) with (pos + 1)%nat by lia. rewrite <- drop_drop, Hd. done. }
  destruct (Z.eqb_spec c (ch needle i)) as [->|Hne].
  - assert (forall k, (k < S i)%nat -> full !! (pos - i + k)%nat = Some (ch needle k)) as Hm'.
    { intros k Hk. destruct (decide (k = i)) as [->|]; [|apply Hm; lia].
      replace (pos - i + i)%nat with pos by lia. done. }
    destruct (Nat.eqb_spec (S i) len) as [<-|].
    + intros E k Hk. apply (inj Some) in E. rewrite <- Hm' by done. f_equal. lia.
    + intros E. eapply (IH (S i) (S pos)); [done|lia|lia| |done].
      intros k Hk. rewrite <- Hm' by done. f_equal.
  - intros E. eapply (IH 0%nat (S pos)); [done|lia|lia| |done]. intros k. lia.
Qed.

(** What [strstr] returns is an occurrence of the needle (of its first
    [len] characters when a length is given); but it does not find every
    occurrence: after a partial match it goes on behind the character that
    differed, so that "ab" is not found in "aab". *)
Theorem strstr_sound_incomplete :
  (forall stack needle len p, strstr stack needle len = Some p ->
     occurs stack needle (if (len =? 0)%nat then length needle else len) p) /\
  (strstr [97; 97; 98] [97; 98] 0 = None /\ occurs [97; 97; 98] [97; 98] 2 1).
Proof.
  split.
  - intros stack needle len p. unfold strstr.
    destruct (Nat.eqb_spec len 0) as [->|]; [destruct (Nat.eqb_spec (length needle) 0) as [E|]|].
    + intros [= <-] k Hk. lia.
    + intros E. apply (strstr_loop_sound stack needle _ stack 0 0 p); try done; intros; lia.
    + intros E. apply (strstr_loop_sound stack needle _ stack 0 0 p); try done; intros; lia.
  - split; [reflexivity|]. intros [|[|k]] Hk; [reflexivity..|lia].
Qed.

(** No character of [s] from offset [k] on reads as [c]. *)
Definition none_from (s : list Z) (k : nat) (c : Z) : Prop :=
  forall q y, (k <= q)%nat -> s !! q = Some y -> sext 8 y <> c.

(** [strrchr] reports the last occurrence, or the terminator for zero. *)
Lemma strrchr_loop_spec s c pos r :
  c <> 0 ->
  match strrchr_loop s c pos r with
  | Some p => (r = Some p /\ none_from s 0 c) \/
              exists k x, p = (pos + k)%nat /\ s !! k = Some x /\ sext 8 x = c /\ none_from s (S k) c
  | None => r = None /\ none_from s 0 c
  end.
Proof.
  intros Hc. revert pos r. induction s as [|x s IH]; intros pos r; cbn [strrchr_loop].
  - destruct (Z.eqb_spec 0 c); [lia|]. destruct r; [left|]; done.
  - specialize (IH (S pos) (if sext 8 x =? c then Some pos else r)).
    assert (forall k, none_from s k c -> none_from (x :: s) (S k) c) as Hs.
    { intros k Hn [|q] y Hq Hy; [lia|]. apply (Hn q y); [lia|done]. }
    assert (sext 8 x <> c -> none_from s 0 c -> none_from (x :: s) 0 c) as H0.
    { intros Hx Hn [|q] y Hq Hy; [by injection Hy as <-|]. apply (Hn q y); [lia|done]. }
    destruct (strrchr_loop s c (S pos) _) as [p|]; destruct (Z.eqb_spec (sext 8 x) c) as [E|E].
    + destruct IH as [[[= <-] Hn]|(k & y & -> & Hk & Hy & Hn)]; right.
      * exists 0%nat, x. split_and!; [lia|done..|by apply Hs].
      * exists (S k), y. split_and!; [lia|done..|by apply Hs].
    + destruct IH as [[-> Hn]|(k & y & -> & Hk & Hy & Hn)]; [left|right].
      * by split; [|apply H0].
      * exists (S k), y. split_and!; [lia|done..|by apply Hs].
    + by destruct IH.
    + destruct IH as [-> Hn]. by split; [|apply H0].
Qed.

Lemma strlcpy_copy_spec src n :
  strlcpy_copy src n =
  if decide (n <= length src)%nat then (take n src, O, drop n src, false)
  else (src ++ [0], (n - length src)%nat, [], true).
Proof.
  revert n. induction src as [|c src IH]; intros [|n]; simpl; [done..|].
  rewrite IH. repeat case_decide; try lia; done.
Qed.

(** [lilu_strlcpy] stores as much of the source as fits in [siz] bytes with a
    terminator, and returns the length of the source. *)
Lemma lilu_strlcpy_spec src siz :
  lilu_strlcpy src siz =
  (if decide (siz = 0)%nat then [] else take (siz - 1) src ++ [0], length src).
Proof.
  destruct siz as [|n]; [done|]. unfold lilu_strlcpy. rewrite strlcpy_copy_spec, Nat.sub_1_r. simpl.
  case_decide; [|destruct (Nat.eqb_spec (n - length src) 0); [lia|]]; simpl.
  - rewrite length_drop. f_equal. lia.
  - rewrite take_ge by lia. f_equal. lia.
Qed.

(** [Buffer::create] and [Buffer::resize] limit what they ask the allocator
    for to 1 GB, and ask for the bytes of [size] elements whenever these do not
    exceed [2^64]; beyond, the product wraps before the limit is checked: for
    8-byte elements a size of [2^61 + 1] elements asks for 8 bytes. *)
Theorem Buffer_create_request (esz size : Z) :
  0 < esz -> 0 <= size ->
  (esz * size < 2 ^ 64 ->
     Buffer_create esz size = if esz * size <=? BufferMax then Some (esz * size) else None) /\
  (forall s, Buffer_create esz size = Some s -> 0 <= s <= BufferMax) /\
  Buffer_resize esz size = Buffer_create esz size /\
  Buffer_create 8 (2 ^ 61 + 1) = Some 8.
Proof.
  intros He Hs. unfold Buffer_resize, Buffer_create. split_and!; [| |done|done].
  - intros Hb. rewrite wrap_small by nia.
    destruct (Z.ltb_spec BufferMax (esz * size)), (Z.leb_spec (esz * size) BufferMax); done || lia.
  - intros s. pose proof (wrap_range 64 ltac:(lia) (esz * size)).
    destruct (Z.ltb_spec BufferMax (u64 (esz * size))); [done|]. intros [= <-]. lia.
Qed.

Lemma Buffer_create_request_witness :
  Buffer_create 4 100 = (if 400 <=? BufferMax then Some 400 else None).
Proof.
  exact (proj1 (Buffer_create_request 4 100 ltac:(lia) ltac:(lia)) ltac:(lia)).
Defined.

(** Bit fields read back what was put into them, cut to the width of the
    field, from any unsigned type; [alignValue] rounds up to the least multiple
    of a power of two that is not below the value, whenever that is representable. *)
Theorem bit_utilities_correct (w v hi lo size k : Z) :
  0 <= lo <= hi -> hi < w -> 0 <= v < 2 ^ w ->
  0 <= k < w -> 0 <= size -> size + 2 ^ k - 1 < 2 ^ w ->
  getBitField w v hi lo = (v / 2 ^ lo) mod 2 ^ (hi - lo + 1) /\
  getBitField w (setBitField w v hi lo) hi lo = v mod 2 ^ (hi - lo + 1) /\
  (2 ^ k | alignValue w size (2 ^ k)) /\ size <= alignValue w size (2 ^ k) < size + 2 ^ k.
Proof.
  intros Hl Hh Hv Hk Hs Hb. pose proof (Z.pow_pos_nonneg 2 k ltac:(lia) ltac:(lia)).
  rewrite alignValue_value by lia. split_and!.
  - apply getBitField_value; lia.
  - apply get_setBitField; lia.
  - eexists. reflexivity.
  - pose proof (Z.mod_pos_bound (size + 2 ^ k - 1) (2 ^ k)).
    pose proof (Z.div_mod (size + 2 ^ k - 1) (2 ^ k)). lia.
  - pose proof (Z.mul_div_le (size + 2 ^ k - 1) (2 ^ k)). lia.
Qed.

Lemma bit_utilities_correct_witness :
  getBitField 32 (setBitField 32 5 10 8) 10 8 = 5 /\ 4097 <= alignValue 32 4097 4096 < 8193.
Proof.
  destruct (bit_utilities_correct 32 5 10 8 4097 12
    ltac:(lia) ltac:(lia) ltac:(lia) ltac:(lia) ltac:(lia) ltac:(lia)) as (_ & H1 & _ & H2).
  split; [exact H1|exact H2].
Defined.
