(* ===== verification/KPatch.v ===== *)
(** The state of Lilu's kernel patcher and its write protection
    (Lilu/Lilu/Sources/kern_patcher.cpp, Lilu/Lilu/Sources/kern_mach.cpp,
    Lilu/Lilu/PrivateHeaders/kern_patcher.hpp).

    The kernel's memory, the processor's write-protect bit and interrupt flag,
    the patcher's lock and its own members form one state, threaded through a
    monad whose outcomes are a result, a panic of the code, and [Stuck]: a
    write to memory that is protected, a lock taken twice or given back when it
    is free, a null or freed object used.  What the environment decides
    (whether an allocation succeeds, whether a write of the control register
    takes effect) is read from a list of answers; when the list is exhausted,
    everything succeeds. *)

From Stdlib Require Import ZArith Lia List Bool.
From stdpp Require Import prelude.
From S2P Require Import Prelude.

Open Scope Z_scope.

(** ** State *)

Inductive Error :=
  | NoError | NoKinfoFound | NoSymbolFound | KernInitFailure | KernRunningInitFailure
  | KextListeningFailure | DisasmFailure | MemoryIssue | MemoryProtection | PointerRange
  | AlreadyDone | LockError | Unsupported | InvalidSymbolFound.

#[export] Instance Error_eq_dec : EqDecision Error.
Proof. solve_decision. Defined.

(** [Patch::P] of [pn] bytes, with the identity of its allocation. *)
Record Patch := mk_patch {
  pid : Z;
  pn : nat;
  paddr : Z;
  porig : Z;
  prepl : Z
}.

(** The write-protect bit, the interrupt flag, whether the write lock is held,
    and the two static variables of [setWPBit] and [setKernelWriting]. *)
Record cpu := mk_cpu {
  wp : bool;
  iflag : bool;
  locked : bool;
  writeProtectionDisabled : bool;
  interruptsDisabled : bool
}.

(** [slots]: the address slots of every loaded image, next one and end. *)
Record kp := mk_kp {
  kmem : mem;
  kcpu : cpu;
  code : Error;
  tempExecutableMemoryOff : Z;
  kpatches : list Patch;
  slots : list (Z * Z);
  nextid : Z;
  freed : list Z;
  answers : list bool
}.

Definition set_mem (m : mem) (s : kp) : kp :=
  mk_kp m (kcpu s) (code s) (tempExecutableMemoryOff s) (kpatches s) (slots s) (nextid s) (freed s) (answers s).
Definition set_cpu (c : cpu) (s : kp) : kp :=
  mk_kp (kmem s) c (code s) (tempExecutableMemoryOff s) (kpatches s) (slots s) (nextid s) (freed s) (answers s).
Definition set_code (e : Error) (s : kp) : kp :=
  mk_kp (kmem s) (kcpu s) e (tempExecutableMemoryOff s) (kpatches s) (slots s) (nextid s) (freed s) (answers s).
Definition set_toff (o : Z) (s : kp) : kp :=
  mk_kp (kmem s) (kcpu s) (code s) o (kpatches s) (slots s) (nextid s) (freed s) (answers s).
Definition set_kpatches (l : list Patch) (s : kp) : kp :=
  mk_kp (kmem s) (kcpu s) (code s) (tempExecutableMemoryOff s) l (slots s) (nextid s) (freed s) (answers s).
Definition set_slots (l : list (Z * Z)) (s : kp) : kp :=
  mk_kp (kmem s) (kcpu s) (code s) (tempExecutableMemoryOff s) (kpatches s) l (nextid s) (freed s) (answers s).
Definition set_ids (n : Z) (f : list Z) (s : kp) : kp :=
  mk_kp (kmem s) (kcpu s) (code s) (tempExecutableMemoryOff s) (kpatches s) (slots s) n f (answers s).
Definition set_answers (l : list bool) (s : kp) : kp :=
  mk_kp (kmem s) (kcpu s) (code s) (tempExecutableMemoryOff s) (kpatches s) (slots s) (nextid s) (freed s) l.

(** ** The monad *)

Inductive out (A : Type) : Type :=
  | Ret (a : A) (s : kp)
  | Panic
  | Stuck.
Arguments Ret {A} a s.
Arguments Panic {A}.
Arguments Stuck {A}.

Definition K (A : Type) : Type := kp -> out A.

Definition kret {A} (a : A) : K A := fun s => Ret a s.
Definition kbind {A B} (x : K A) (f : A -> K B) : K B := fun s =>
  match x s with
  | Ret a s' => f a s'
  | Panic => Panic
  | Stuck => Stuck
  end.
Definition kget {A} (f : kp -> A) : K A := fun s => Ret (f s) s.
Definition kmod (f : kp -> kp) : K unit := fun s => Ret tt (f s).
Definition kpanic {A} : K A := fun _ => Panic.
Definition kstuck {A} : K A := fun _ => Stuck.

Lemma kbind_Ret {A B} (x : K A) (f : A -> K B) s a s' :
  x s = Ret a s' -> kbind x f s = f a s'.
Proof. intros E. unfold kbind. by rewrite E. Qed.

Declare Scope k_scope.
Delimit Scope k_scope with k.
Notation "'let%' x := e 'in' k" := (kbind e (fun x => k))
  (at level 200, x pattern, e at level 200, k at level 200) : k_scope.
Notation "e ';%' k" := (kbind e (fun _ => k)) (at level 100, right associativity) : k_scope.
Open Scope k_scope.

(** The next answer of the environment. *)
Definition ask : K bool := fun s =>
  match answers s with
  | [] => Ret true s
  | b :: l => Ret b (set_answers l s)
  end.

(** A store of [n] bytes; [prot]: the memory is write-protected code. *)
Definition kstore (prot : bool) (n : nat) (a v : Z) : K unit := fun s =>
  if prot && wp (kcpu s) then Stuck else Ret tt (set_mem (stn n (kmem s) a v) s).

(** [lilu_os_memcpy] of the bytes of [l] into protected memory. *)
Definition kcopy (dst : Z) (l : list Z) : K unit := fun s =>
  if wp (kcpu s) then Stuck else Ret tt (set_mem (write_list (kmem s) dst l) s).

(** ** Write protection *)

Definition with_wp (b : bool) (c : cpu) : cpu :=
  mk_cpu b (iflag c) (locked c) (writeProtectionDisabled c) (interruptsDisabled c).

(** [set_cr0] on the write-protect bit: a hypervisor may ignore it. *)
Definition set_cr0_wp (b : bool) : K unit :=
  let% ok := ask in
  if ok then kmod (fun s => set_cpu (with_wp b (kcpu s)) s) else kret tt.

(** True for [KERN_SUCCESS]. *)
Definition setWPBit (enable : bool) : K bool :=
  let% c := kget kcpu in
  if enable && negb (writeProtectionDisabled c) then
    set_cr0_wp true ;%
    kget (fun s => wp (kcpu s))
  else
    (if negb enable then
       kmod (fun s => let c := kcpu s in
         set_cpu (mk_cpu (wp c) (iflag c) (locked c) (negb (wp c)) (interruptsDisabled c)) s) ;%
       (if wp c then set_cr0_wp false else kret tt)
     else kret tt) ;%
    kget (fun s => negb (wp (kcpu s))).

(** The result is whether the flag was not already as asked for. *)
Definition setInterrupts (enable : bool) : K bool := fun s =>
  let c := kcpu s in
  Ret (negb (eqb (iflag c) enable))
    (set_cpu (mk_cpu (wp c) enable (locked c) (writeProtectionDisabled c) (interruptsDisabled c)) s).

Definition with_locked (b : bool) (c : cpu) : cpu :=
  mk_cpu (wp c) (iflag c) b (writeProtectionDisabled c) (interruptsDisabled c).

(** A simple lock spins forever when its holder takes it again. *)
Definition IOSimpleLockLock : K unit := fun s =>
  if locked (kcpu s) then Stuck else Ret tt (set_cpu (with_locked true (kcpu s)) s).
Definition IOSimpleLockUnlock : K unit := fun s =>
  if locked (kcpu s) then Ret tt (set_cpu (with_locked false (kcpu s)) s) else Stuck.

(** [MachInfo::setKernelWriting] with the patcher's lock; true for success. *)
Definition setKernelWriting (enable : bool) : K bool :=
  (if enable then
     IOSimpleLockLock ;%
     let% r := setInterrupts false in
     kmod (fun s => let c := kcpu s in
       set_cpu (mk_cpu (wp c) (iflag c) (locked c) (writeProtectionDisabled c) (negb r)) s)
   else kret tt) ;%
  let% ok := setWPBit (negb enable) in
  (if negb (enable && ok) then
     let% c := kget kcpu in
     (if negb (interruptsDisabled c) then let% _ := setInterrupts true in kret tt else kret tt) ;%
     IOSimpleLockUnlock
   else kret tt) ;%
  kret ok.

(** ** Patches *)

(** [Patch::create]: the original bytes are read at once; [None] when there is
    no memory. *)
Definition patch_create (n : nat) (addr rep : Z) : K (option Patch) :=
  let% ok := ask in
  if ok then
    let% m := kget kmem in
    let% id := kget nextid in
    kmod (fun s => set_ids (id + 1) (freed s) s) ;%
    kret (Some (mk_patch id n addr (ldn n m addr) (rep mod 256 ^ Z.of_nat n)))
  else kret None.

Definition patch_delete (p : option Patch) : K unit :=
  match p with
  | None => kret tt
  | Some p => kmod (fun s => set_ids (nextid s) (pid p :: freed s) s)
  end.

Definition patch_patch (prot : bool) (p : option Patch) : K unit :=
  match p with
  | None => kstuck
  | Some p => kstore prot (pn p) (paddr p) (prepl p)
  end.

(** A restored patch has to be alive. *)
Definition patch_restore (p : Patch) : K unit :=
  let% f := kget freed in
  if decide (pid p ∈ f) then kstuck else kstore true (pn p) (paddr p) (porig p).

Fixpoint restore_all (l : list Patch) : K unit :=
  match l with
  | [] => kret tt
  | p :: l' => patch_restore p ;% restore_all l'
  end.

(** [KernelPatcher::deinit], with at least one image loaded. *)
Definition kp_deinit : K unit :=
  let% ok := setKernelWriting true in
  (if ok then
     let% l := kget kpatches in
     restore_all l ;%
     let% _ := setKernelWriting false in kret tt
   else kret tt) ;%
  kmod (fun s => set_kpatches [] (set_ids (nextid s) (map pid (kpatches s) ++ freed s) s)).

Definition getError : K Error := kget code.
Definition clearError : K unit := kmod (set_code NoError).

(** [MachInfo::getAddressSlot] of image [i]. *)
Definition getAddressSlot (i : nat) : K Z := fun s =>
  match slots s !! i with
  | None => Stuck
  | Some (cur, fin) =>
      if truth cur && (u64 (cur + 8) <=? fin) then
        Ret cur (set_slots (<[i := (u64 (cur + 8), fin)]> (slots s)) s)
      else Ret 0 s
  end.

(** ** Protection is balanced *)

(** The processor inside of a section that writes to the kernel and that was
    entered from [c0]. *)
Definition writing (c0 c : cpu) : Prop :=
  locked c = true /\ wp c = false /\ iflag c = false /\
  writeProtectionDisabled c = negb (wp c0) /\ interruptsDisabled c = negb (iflag c0).

(** Outside of such sections the lock is free.  [settled s s']: the lock is free
    again, the interrupt flag is as it was, and so is the write protection,
    unless the environment gave a negative answer on the way. *)
Definition settled (s s' : kp) : Prop :=
  locked (kcpu s') = false /\ iflag (kcpu s') = iflag (kcpu s) /\
  (wp (kcpu s') = wp (kcpu s) \/ (wp (kcpu s') = false /\ false ∈ answers s)) /\
  answers s' `suffix_of` answers s.

(** Everything but the processor and the answers. *)
Definition same_rest (s s' : kp) : Prop :=
  kmem s' = kmem s /\ code s' = code s /\
  tempExecutableMemoryOff s' = tempExecutableMemoryOff s /\ kpatches s' = kpatches s /\
  slots s' = slots s /\ nextid s' = nextid s /\ freed s' = freed s.

Lemma settled_refl s : locked (kcpu s) = false -> settled s s.
Proof. intros. split_and!; [done..|by left|done]. Qed.

Lemma settled_trans s1 s2 s3 : settled s1 s2 -> settled s2 s3 -> settled s1 s3.
Proof.
  intros (_ & Hi & Hw & Ha) (? & Hi' & Hw' & Ha'). split_and!; [done|congruence| |by etrans].
  assert (false ∈ answers s2 -> false ∈ answers s1).
  { destruct Ha as [k ->]. rewrite elem_of_app. by right. }
  destruct Hw' as [->|[-> ?]]; [done|right; auto].
Qed.

Lemma settled_locked s s' : settled s s' -> locked (kcpu s') = false.
Proof. by intros []. Qed.
#[export] Hint Resolve settled_refl settled_locked : cmod.

(** Asking for writing either succeeds, or fails with the processor as it was. *)
Lemma setKernelWriting_on s :
  locked (kcpu s) = false ->
  exists ok s', setKernelWriting true s = Ret ok s' /\ same_rest s s' /\
    answers s' `suffix_of` answers s /\ (answers s = [] -> ok = true) /\
    if ok then writing (kcpu s) (kcpu s') else settled s s'.
Proof.
  intros Hl. destruct s as [m [w f l wd id] e t k sl n fr an]. simpl in *. subst l.
  unfold setKernelWriting, kbind, IOSimpleLockLock. simpl.
  unfold setWPBit, kbind, kget, set_cr0_wp, ask, kbind. simpl.
  assert (forall b (an : list bool), an `suffix_of` b :: an) as Hs by (intros; by apply suffix_cons_r).
  destruct w; [destruct an as [|[] an]; simpl; [exists true|exists true|exists false]|exists true];
    (destruct f; simpl; eexists; (split; [reflexivity|]); split_and!; try done);
    unfold settled; simpl; split_and!; auto.
Qed.

(** Giving up writing restores the processor. *)
Lemma setKernelWriting_off s0 s :
  writing (kcpu s0) (kcpu s) -> answers s `suffix_of` answers s0 ->
  exists ok s', setKernelWriting false s = Ret ok s' /\ same_rest s s' /\ settled s0 s'.
Proof.
  intros (Hl & Hw & Hf & Hd & Hi) Hs.
  destruct s as [m [w f l wd id] e t k sl n fr an], s0 as [m0 [w0 f0 l0 wd0 id0] e0 t0 k0 sl0 n0 fr0 an0].
  simpl in *. subst.
  unfold setKernelWriting, setWPBit, kbind, kget, set_cr0_wp, ask, kbind. simpl.
  assert (forall b (an : list bool), an `suffix_of` b :: an) as Hc by (intros; by apply suffix_cons_r).
  destruct w0; [destruct an as [|[] an]; simpl; [exists true|exists true|exists false]|exists true];
    (destruct f0; simpl; eexists; (split; [reflexivity|]); (split; [done|]));
    unfold settled; simpl; split_and!; auto; try (etrans; [apply Hc|exact Hs]); try (by left);
    right; (split; [done|]); destruct Hs as [k' ->]; set_solver.
Qed.

(** With an environment that obeys, giving up writing succeeds. *)
Lemma setKernelWriting_off_ok s0 s :
  writing (kcpu s0) (kcpu s) -> answers s = [] ->
  exists s', setKernelWriting false s = Ret true s'.
Proof.
  intros (Hl & Hw & Hf & Hd & Hi) Ha.
  destruct s as [m [w f l wd id] e t k sl n fr an], s0 as [m0 [w0 f0 l0 wd0 id0] e0 t0 k0 sl0 n0 fr0 an0].
  simpl in *. subst.
  unfold setKernelWriting, setWPBit, kbind, kget, set_cr0_wp, ask, kbind. simpl.
  destruct w0, f0; simpl; eexists; reflexivity.
Qed.

(** ** Concrete states *)

(** A memory that holds [l] from address [a] on and zero elsewhere. *)
Definition bytes_at (a : Z) (l : list Z) : mem := fun x =>
  if (a <=? x) && (x <? a + Z.of_nat (length l)) then nth (Z.to_nat (x - a)) l 0 else 0.

(** A patcher that has not done anything, on a processor with protection and
    interrupts on. *)
Definition calm (m : mem) : kp :=
  mk_kp m (mk_cpu true true false false false) NoError 0 [] [] 0 [] [].
