(* ===== verification/Find.v ===== *)
(** Searching and replacing byte patterns in the running kernel
    ([KernelPatcher::findPattern], [findAndReplaceWithMask] and
    [applyLookupPatch] of Lilu/Lilu/Sources/kern_patcher.cpp).

    Patterns, masks and replacements are lists of bytes; the data searched is a
    range of the kernel's memory.  The searches are loops with a fuel of the
    number of offsets they can visit. *)

From Stdlib Require Import ZArith Lia List Bool.
From stdpp Require Import prelude.
From S2P Require Import Prelude KPatch.

Open Scope Z_scope.

(** ** [findPattern] *)

(** The inner loops: all bytes at [a] agree with the pattern; with a mask it is
    the data that is masked.  [None]: the loop reads the mask behind its end. *)
Fixpoint match_plain (m : mem) (a : Z) (ptn : list Z) : bool :=
  match ptn with
  | [] => true
  | p :: ptn' => if negb (ldb m a =? p) then false else match_plain m (a + 1) ptn'
  end.

Fixpoint match_masked (m : mem) (a : Z) (ptn msk : list Z) : option bool :=
  match ptn, msk with
  | [], _ => Some true
  | p :: ptn', k :: msk' =>
      if negb (ldb m a .& k =? p) then Some false else match_masked m (a + 1) ptn' msk'
  | _ :: _, [] => None
  end.

Definition match_at (m : mem) (a : Z) (ptn : list Z) (msk : option (list Z)) : option bool :=
  match msk with
  | None => Some (match_plain m a ptn)
  | Some k => match_masked m a ptn k
  end.

(** What a search ends with: true and the new value of [*dataOffset], false, or
    a read behind the end of the mask. *)
Inductive findResult :=
  | Found (dataOffset : Z)
  | Missing
  | Overread.

Fixpoint find_loop (fuel : nat) (m : mem) (data : Z) (ptn : list Z) (msk : option (list Z))
    (currOffset lastOffset : Z) : findResult :=
  match fuel with
  | O => Missing
  | S f =>
      if currOffset <=? lastOffset then
        match match_at m (data + currOffset) ptn msk with
        | None => Overread
        | Some true => Found currOffset
        | Some false => find_loop f m data ptn msk (currOffset + 1) lastOffset
        end
      else Missing
  end.

Definition findPattern (m : mem) (ptn : list Z) (msk : option (list Z)) (data dataSize dataOffset : Z)
    : findResult :=
  let patternSize := Z.of_nat (length ptn) in
  if (patternSize =? 0) || (dataSize <? patternSize) then Missing
  else
    let lastOffset := dataSize - patternSize in
    find_loop (Z.to_nat (lastOffset - dataOffset + 1)) m data ptn msk dataOffset lastOffset.

(** ** [findAndReplaceWithMask] *)

(** The masked replacement, byte by byte over the size of the pattern. *)
Fixpoint write_masked (m : mem) (a : Z) (n : nat) (repl msk : list Z) : option mem :=
  match n, repl, msk with
  | O, _, _ => Some m
  | S n', r :: repl', k :: msk' =>
      write_masked (stb m a ((ldb m a .& Z.lnot k) .| (r .& k))) (a + 1) n' repl' msk'
  | S _, _, _ => None
  end.

Definition replace_at (m : mem) (a : Z) (n : nat) (repl : list Z) (rmsk : option (list Z))
    : option mem :=
  match rmsk with
  | None => Some (write_list m a repl)
  | Some k => write_masked m a n repl k
  end.

(** Protected memory is written. *)
Definition kreplace (a : Z) (n : nat) (repl : list Z) (rmsk : option (list Z)) : K unit := fun s =>
  match replace_at (kmem s) a n repl rmsk with
  | None => Stuck
  | Some m => if wp (kcpu s) then Stuck else Ret tt (set_mem m s)
  end.

(** The loop; [None] when the fuel is used up. *)
Fixpoint replace_loop (fuel : nat) (data dataSize : Z) (find : list Z) (fmsk : option (list Z))
    (repl : list Z) (rmsk : option (list Z)) (dataOffset : Z) (count skip replCount : nat)
    : K (option bool) :=
  match fuel with
  | O => kret None
  | S f =>
      let% m := kget kmem in
      match findPattern m find fmsk data dataSize dataOffset with
      | Overread => fun _ => Stuck
      | Missing => kret (Some (0 <? replCount)%nat)
      | Found off =>
          if (0 <? skip)%nat then
            replace_loop f data dataSize find fmsk repl rmsk (off + Z.of_nat (length find))
              count (skip - 1) replCount
          else
            let% ok := setKernelWriting true in
            if negb ok then kret (Some false)
            else
              kreplace (data + off) (length find) repl rmsk ;%
              let% _ := setKernelWriting false in
              if (count =? 1)%nat then kret (Some true)
              else replace_loop f data dataSize find fmsk repl rmsk (off + Z.of_nat (length repl))
                     (count - 1) skip (S replCount)
      end
  end.

Definition findAndReplaceWithMask (fuel : nat) (data dataSize : Z) (find : list Z)
    (fmsk : option (list Z)) (repl : list Z) (rmsk : option (list Z)) (count skip : nat)
    : K (option bool) :=
  if dataSize <? Z.of_nat (length find) then kret (Some false)
  else replace_loop fuel data dataSize find fmsk repl rmsk 0 count skip 0.

Definition findAndReplace (fuel : nat) (data dataSize : Z) (find repl : list Z) : K (option bool) :=
  findAndReplaceWithMask fuel data dataSize find None repl None 0 0.

(** ** [applyLookupPatch] *)

(** [kext]: [None] for the kernel, otherwise the load index of the kext, itself
    [None] while it is not loaded. *)
Record LookupPatch := mk_lookup {
  kext : option (option nat);
  lfind : list Z;
  lreplace : list Z;
  lcount : nat
}.

(** [while (currentAddress < endingAddress && memcmp(...) != 0)]. *)
Fixpoint scan (fuel : nat) (m : mem) (cur fin : Z) (find : list Z) : Z :=
  match fuel with
  | O => cur
  | S f => if (cur <? fin) && negb (match_plain m cur find) then scan f m (cur + 1) fin find else cur
  end.

(** The outer loop; [None] when the fuel is used up. *)
Fixpoint lookup_loop (fuel : nat) (p : LookupPatch) (i : nat) (cur fin : Z) (changes : nat)
    : K (option nat) :=
  match fuel with
  | O => kret None
  | S f =>
      if (cur <? fin) && ((i <? lcount p)%nat || (lcount p =? 0)%nat) then
        let% m := kget kmem in
        let cur' := scan (Z.to_nat (fin - cur)) m cur fin (lfind p) in
        if negb (cur' =? fin) then
          kreplace cur' (length (lfind p)) (lreplace p) None ;%
          lookup_loop f p (S i) cur' fin (S changes)
        else lookup_loop f p (S i) cur' fin changes
      else kret (Some changes)
  end.

(** [position i]: address and size of image [i] in memory
    ([getRunningPosition]); image 0 is the kernel. *)
Definition applyLookupPatch (fuel : nat) (position : nat -> Z * Z) (patch : option LookupPatch)
    (startingAddress maxSize : Z) : K bool :=
  match patch with
  | None | Some (mk_lookup (Some None) _ _ _) => kmod (set_code MemoryIssue) ;% kret true
  | Some p =>
      let '(kextAddress, kextSize0) :=
        position (match kext p with Some (Some i) => i | _ => 0%nat end) in
      let kextSize := match kext p with None => (2 ^ 64 - 1) - kextAddress | _ => kextSize0 end in
      let cur := if kextAddress <? startingAddress then startingAddress else kextAddress in
      let e := u64 (kextAddress + kextSize) in
      let e := if (0 <? maxSize) && (u64 (startingAddress + maxSize) <? e)
               then u64 (startingAddress + maxSize) else e in
      let fin := u64 (e - Z.of_nat (length (lfind p))) in
      let% ok := setKernelWriting true in
      if negb ok then kmod (set_code MemoryProtection) ;% kret true
      else
        let% r := lookup_loop fuel p 0 cur fin 0 in
        match r with
        | None => kret false
        | Some changes =>
            let% ok := setKernelWriting false in
            if negb ok then kmod (set_code MemoryProtection) ;% kret true
            else if negb (changes =? lcount p)%nat then kmod (set_code MemoryIssue) ;% kret true
            else kret true
        end
  end.

(** ** Facts on the search *)

(** A match as a statement on every byte of the pattern. *)
Definition matches (m : mem) (a : Z) (ptn : list Z) (msk : option (list Z)) : Prop :=
  forall i p, ptn !! i = Some p ->
    match msk with
    | None => ldb m (a + Z.of_nat i) = p
    | Some k => exists b, k !! i = Some b /\ ldb m (a + Z.of_nat i) .& b = p
    end.

Lemma match_plain_spec m a ptn : match_plain m a ptn = true <-> matches m a ptn None.
Proof.
  revert a. induction ptn as [|p ptn IH]; intros a; simpl; [done|].
  destruct (Z.eqb_spec (ldb m a) p) as [E|E]; simpl.
  - rewrite IH. split.
    + intros H [|i] q Hq; simpl in *; [by injection Hq as <-; rewrite Z.add_0_r|].
      rewrite <- (H i q Hq). f_equal. lia.
    + intros H i q Hq. rewrite <- (H (S i) q Hq). f_equal. lia.
  - split; [done|]. intros H. destruct E. rewrite <- (H 0%nat p eq_refl). f_equal. simpl. lia.
Qed.

Lemma match_masked_spec m a ptn k :
  match match_masked m a ptn k with
  | Some true => matches m a ptn (Some k)
  | Some false => ~ matches m a ptn (Some k)
  | None => (length k < length ptn)%nat
  end.
Proof.
  revert a k. induction ptn as [|p ptn IH]; intros a k; simpl; [done|].
  destruct k as [|b k]; simpl; [lia|].
  destruct (Z.eqb_spec (ldb m a .& b) p) as [E|E]; simpl.
  - specialize (IH (a + 1) k). destruct (match_masked m (a + 1) ptn k) as [[]|]; [| |lia].
    + intros [|i] q Hq; simpl in *; [injection Hq as <-; exists b; by rewrite Z.add_0_r|].
      destruct (IH i q Hq) as (b' & Hb & <-). exists b'. split; [done|]. do 2 f_equal. lia.
    + intros H. destruct IH. intros i q Hq. destruct (H (S i) q Hq) as (b' & Hb & <-). exists b'.
      split; [done|]. do 2 f_equal. lia.
  - intros H. destruct E. destruct (H 0%nat p eq_refl) as (b' & [= <-] & <-).
    do 2 f_equal. simpl. lia.
Qed.

(** A mask with a byte for every byte of the pattern. *)
Definition mask_for (msk : option (list Z)) (ptn : list Z) : Prop :=
  forall k, msk = Some k -> (length ptn <= length k)%nat.

Lemma match_at_spec m a ptn msk :
  match match_at m a ptn msk with
  | Some true => matches m a ptn msk
  | Some false => ~ matches m a ptn msk
  | None => ~ mask_for msk ptn
  end.
Proof.
  destruct msk as [k|]; simpl.
  - pose proof (match_masked_spec m a ptn k). destruct (match_masked m a ptn k) as [[]|]; [done..|].
    intros Hk. specialize (Hk k eq_refl). lia.
  - pose proof (match_plain_spec m a ptn) as H. destruct (match_plain m a ptn); [by apply H|].
    intros Hm. by apply H in Hm.
Qed.

Lemma find_loop_spec fuel m data ptn msk cur lst :
  lst - cur < Z.of_nat fuel ->
  match find_loop fuel m data ptn msk cur lst with
  | Found k => cur <= k <= lst /\ matches m (data + k) ptn msk /\
              forall j, cur <= j < k -> ~ matches m (data + j) ptn msk
  | Missing => forall j, cur <= j <= lst -> ~ matches m (data + j) ptn msk
  | Overread => ~ mask_for msk ptn
  end.
Proof.
  revert cur. induction fuel as [|f IH]; intros cur Hf; simpl; [lia|].
  destruct (Z.leb_spec cur lst); [|lia].
  pose proof (match_at_spec m (data + cur) ptn msk) as E.
  destruct (match_at m (data + cur) ptn msk) as [[]|]; [split_and!; [lia..|done|lia]| |done].
  specialize (IH (cur + 1) ltac:(lia)). destruct (find_loop f m data ptn msk (cur + 1) lst) as [k| |]; [| |done].
  - destruct IH as (? & ? & Hj). split_and!; [lia..|done|]. intros j Hjk.
    destruct (Z.eq_dec j cur) as [->|]; [done|]. apply Hj. lia.
  - intros j Hj. destruct (Z.eq_dec j cur) as [->|]; [done|]. apply IH. lia.
Qed.

(** [occurs j]: the pattern stands at offset [j] of the data, whole. *)
Definition occurs (m : mem) (ptn : list Z) (msk : option (list Z)) (data dataSize j : Z) : Prop :=
  ptn <> [] /\ j + Z.of_nat (length ptn) <= dataSize /\ matches m (data + j) ptn msk.

(** [first_from off k]: of the offsets from [off] on, [k] is the first where the
    pattern stands. *)
Definition first_from (m : mem) (ptn : list Z) (msk : option (list Z)) (data dataSize off k : Z) : Prop :=
  off <= k /\ occurs m ptn msk data dataSize k /\
  forall j, off <= j < k -> ~ occurs m ptn msk data dataSize j.

Lemma findPattern_spec m ptn msk data dataSize off :
  0 <= off ->
  match findPattern m ptn msk data dataSize off with
  | Found k => first_from m ptn msk data dataSize off k
  | Missing => forall j, off <= j -> ~ occurs m ptn msk data dataSize j
  | Overread => ~ mask_for msk ptn
  end.
Proof.
  intros Ho. unfold findPattern, first_from, occurs.
  destruct (Z.eqb_spec (Z.of_nat (length ptn)) 0) as [E|E]; simpl.
  { intros j _ [Hn _]. destruct Hn. apply length_zero_iff_nil. lia. }
  destruct (Z.ltb_spec dataSize (Z.of_nat (length ptn))); [intros j ? (_ & ? & _); lia|].
  pose proof (find_loop_spec (Z.to_nat (dataSize - Z.of_nat (length ptn) - off + 1)) m data ptn msk off
    (dataSize - Z.of_nat (length ptn)) ltac:(lia)) as H1.
  destruct (find_loop _ _ _ _ _ _ _) as [k| |]; [| |done].
  - destruct H1 as (? & ? & Hj). split_and!; [lia|by intros ->|lia|done|].
    intros j Hjk (_ & _ & Hm). by apply (Hj j).
  - intros j ? (_ & ? & Hm). apply (H1 j); [lia|done].
Qed.

Lemma first_from_unique m ptn msk data dataSize off k k' :
  first_from m ptn msk data dataSize off k -> first_from m ptn msk data dataSize off k' -> k = k'.
Proof.
  intros (? & Hk & Hj) (? & Hk' & Hj'). destruct (Z.lt_trichotomy k k') as [|[|]]; [|done|].
  - by destruct (Hj' k ltac:(lia)).
  - by destruct (Hj k' ltac:(lia)).
Qed.

(** An occurrence depends on the bytes behind its offset only. *)
Lemma matches_ext m m' a ptn msk :
  (forall x, a <= x < a + Z.of_nat (length ptn) -> m' x = m x) ->
  matches m' a ptn msk <-> matches m a ptn msk.
Proof.
  intros Hm. assert (forall i p, ptn !! i = Some p -> ldb m' (a + Z.of_nat i) = ldb m (a + Z.of_nat i)) as E.
  { intros i p Hp. apply lookup_lt_Some in Hp. unfold ldb. rewrite Hm; [done|lia]. }
  unfold matches. split; intros H i p Hp; specialize (H i p Hp); specialize (E i p Hp);
    destruct msk as [k|]; rewrite ?E in *; done.
Qed.

Lemma occurs_ext m m' ptn msk data dataSize off j :
  (forall x, data + off <= x -> m' x = m x) -> off <= j ->
  occurs m' ptn msk data dataSize j <-> occurs m ptn msk data dataSize j.
Proof.
  intros Hm Hj. unfold occurs. rewrite (matches_ext m m'); [done|]. intros x Hx. apply Hm. lia.
Qed.

(** ** Replacements *)

Lemma write_masked_ok m a n repl k :
  (n <= length repl)%nat -> (n <= length k)%nat ->
  exists m', write_masked m a n repl k = Some m' /\
    (forall x, x < a \/ a + Z.of_nat n <= x -> m' x = m x) /\
    (forall i r b, (i < n)%nat -> repl !! i = Some r -> k !! i = Some b ->
       m' (a + Z.of_nat i) = u8 ((ldb m (a + Z.of_nat i) .& Z.lnot b) .| (r .& b))).
Proof.
  revert m a repl k. induction n as [|n IH]; intros m a repl k Hr Hk; simpl.
  { exists m. split_and!; [done..|lia]. }
  destruct repl as [|r repl], k as [|b k]; simpl in *; try lia.
  destruct (IH (stb m a ((ldb m a .& Z.lnot b) .| (r .& b))) (a + 1) repl k) as (m' & E & Ho & Hs);
    [lia..|].
  exists m'. split_and!; [done|..].
  - intros x Hx. rewrite Ho by lia. unfold stb. case_cmp; [lia|done].
  - intros [|i] r' b' Hi Hr' Hb'; simpl in *.
    + injection Hr' as <-. injection Hb' as <-. rewrite Ho by lia. rewrite Z.add_0_r.
      unfold stb. case_cmp; [done|lia].
    + replace (a + Z.of_nat (S i)) with (a + 1 + Z.of_nat i) by lia.
      rewrite (Hs i r' b') by (done || lia). do 3 f_equal. unfold ldb, stb.
      case_cmp; [lia|done].
Qed.

(** *** The specification of [findAndReplaceWithMask] *)

(** The byte that takes the place of [old], byte [i] of a place replaced. *)
Definition new_byte (repl : list Z) (rmsk : option (list Z)) (i : nat) (old : Z) : Z :=
  match rmsk with
  | None => nth i repl 0
  | Some k => (old .& Z.lnot (nth i k 0)) .| (nth i repl 0 .& nth i k 0)
  end.

(** [patched l m m']: every byte of the [n] bytes at each of the offsets [l] is
    the new byte for the old one, and all other bytes are the old ones. *)
Definition patched (data : Z) (n : nat) (repl : list Z) (rmsk : option (list Z)) (l : list Z)
    (m m' : mem) : Prop :=
  (forall k i, k ∈ l -> (i < n)%nat ->
     ldb m' (data + k + Z.of_nat i) = u8 (new_byte repl rmsk i (ldb m (data + k + Z.of_nat i)))) /\
  (forall x, (forall k, k ∈ l -> x < data + k \/ data + k + Z.of_nat n <= x) -> m' x = m x).

(** [leftmost off l]: the offsets [l] are those of the occurrences one meets
    going from [off] to the right, each looked for behind the one before. *)
Inductive leftmost (m : mem) (find : list Z) (fmsk : option (list Z)) (data dataSize : Z)
    : Z -> list Z -> Prop :=
  | leftmost_stop off :
      (forall j, off <= j -> ~ occurs m find fmsk data dataSize j) ->
      leftmost m find fmsk data dataSize off []
  | leftmost_next off k l :
      first_from m find fmsk data dataSize off k ->
      leftmost m find fmsk data dataSize (k + Z.of_nat (length find)) l ->
      leftmost m find fmsk data dataSize off (k :: l).

(** Of these, the ones to replace: [skip] are left out, and a [count] of zero
    stands for all of the rest. *)
Definition select (count skip : nat) (l : list Z) : list Z :=
  if (count =? 0)%nat then drop skip l else take count (drop skip l).

(** The specification names one list. *)
Lemma leftmost_unique m find fmsk data dataSize off l l' :
  leftmost m find fmsk data dataSize off l -> leftmost m find fmsk data dataSize off l' -> l = l'.
Proof.
  intros H. revert l'. induction H as [off Hn|off k l Hk _ IH]; intros l' H';
    inversion H' as [? Hn'|? k' l1 Hk' Hl']; subst.
  - done.
  - destruct Hk' as (? & Ho & _). by destruct (Hn k').
  - destruct Hk as (? & Ho & _). by destruct (Hn' k).
  - assert (k' = k) as -> by (by eapply first_from_unique). f_equal. by apply IH.
Qed.

Lemma leftmost_from m find fmsk data dataSize off l :
  leftmost m find fmsk data dataSize off l -> Forall (fun k => off <= k) l.
Proof.
  induction 1 as [|off k l (Hk & _) _ IH]; constructor; [done|].
  eapply Forall_impl; [done|]. simpl. lia.
Qed.

Lemma leftmost_ext m m' find fmsk data dataSize off l :
  (forall x, data + off <= x -> m' x = m x) ->
  leftmost m find fmsk data dataSize off l -> leftmost m' find fmsk data dataSize off l.
Proof.
  intros Hm H. revert Hm. induction H as [off Hn|off k l (Hk & Ho & Hj) _ IH]; intros Hm.
  - constructor. intros j Hj. rewrite (occurs_ext m m' _ _ _ _ off) by done. by apply Hn.
  - constructor.
    + split_and!; [done|by rewrite (occurs_ext m m' _ _ _ _ off)|].
      intros j Hjk. rewrite (occurs_ext m m' _ _ _ _ off) by (done || lia). by apply Hj.
    + apply IH. intros x Hx. apply Hm. lia.
Qed.

Lemma patched_nil data n repl rmsk m : patched data n repl rmsk [] m m.
Proof. split; [|done]. intros k i Hk. by apply elem_of_nil in Hk. Qed.

Lemma patched_cons data n repl rmsk k l m m1 m' :
  patched data n repl rmsk [k] m m1 -> patched data n repl rmsk l m1 m' ->
  Forall (fun j => k + Z.of_nat n <= j) l -> patched data n repl rmsk (k :: l) m m'.
Proof.
  intros [H1 H2] [H3 H4] Hl. rewrite Forall_forall in Hl.
  assert (forall x, (x < data + k \/ data + k + Z.of_nat n <= x) -> m1 x = m x) as Hm1.
  { intros x Hx. apply H2. by intros j ->%list_elem_of_singleton. }
  split.
  - intros j i [->|Hj]%elem_of_cons Hi.
    + rewrite <- H1 by (done || by apply list_elem_of_singleton). unfold ldb. rewrite H4; [done|].
      intros j' Hj'. specialize (Hl j' Hj'). simpl in Hl. lia.
    + rewrite H3 by done. unfold ldb. rewrite (Hm1 (data + j + _)); [done|].
      specialize (Hl j Hj). simpl in Hl. lia.
  - intros x Hx. rewrite H4, Hm1; [done| |]; [|intros j Hj]; apply Hx; set_solver.
Qed.

Lemma replace_at_ok m data k n repl rmsk :
  length repl = n -> (forall msk, rmsk = Some msk -> (n <= length msk)%nat) ->
  exists m', replace_at m (data + k) n repl rmsk = Some m' /\ patched data n repl rmsk [k] m m'.
Proof.
  intros Hr Hk. destruct rmsk as [msk|]; simpl.
  - specialize (Hk msk eq_refl).
    destruct (write_masked_ok m (data + k) n repl msk) as (m' & E & Ho & Hs); [lia..|].
    exists m'. split; [done|]. split.
    + intros j i ->%list_elem_of_singleton Hi.
      destruct (lookup_lt_is_Some_2 repl i) as [r Er]; [lia|].
      destruct (lookup_lt_is_Some_2 msk i) as [b Eb]; [lia|].
      unfold ldb at 1. rewrite (Hs i r b Hi Er Eb). simpl.
      rewrite (nth_lookup_Some _ _ _ _ Er), (nth_lookup_Some _ _ _ _ Eb). by apply wrap_wrap.
    + intros x Hx. apply Ho, Hx. by apply list_elem_of_singleton.
  - eexists. split; [done|]. split.
    + intros j i ->%list_elem_of_singleton Hi.
      destruct (lookup_lt_is_Some_2 repl i) as [r Er]; [lia|].
      unfold ldb at 1. rewrite (write_list_same _ _ _ _ _ Er). simpl.
      rewrite (nth_lookup_Some _ _ _ _ Er). by apply wrap_wrap.
    + intros x Hx. apply write_list_other. rewrite Hr. apply Hx. by apply list_elem_of_singleton.
Qed.

Lemma select_skip count skip x l : select count (S skip) (x :: l) = select count skip l.
Proof. done. Qed.
Lemma select_one x l : select 1 0 (x :: l) = [x].
Proof. done. Qed.
Lemma select_more count x l :
  (count <> 1)%nat -> select count 0 (x :: l) = x :: select (count - 1) 0 l.
Proof.
  destruct count as [|[|c]]; [done|lia|]. intros _. unfold select. simpl. by rewrite drop_0.
Qed.

Lemma select_nil count skip : select count skip [] = [].
Proof. unfold select. by rewrite drop_nil, take_nil, Tauto.if_same. Qed.
Lemma select_subseteq count skip l : select count skip l ⊆ l.
Proof.
  unfold select. destruct (count =? 0)%nat; [apply subseteq_drop|].
  etrans; [apply subseteq_take|apply subseteq_drop].
Qed.

(** The state of the patcher but for memory and processor. *)
Definition same_members (s s' : kp) : Prop :=
  code s' = code s /\ tempExecutableMemoryOff s' = tempExecutableMemoryOff s /\
  kpatches s' = kpatches s /\ slots s' = slots s /\ nextid s' = nextid s /\ freed s' = freed s.

Lemma same_members_trans s1 s2 s3 :
  same_members s1 s2 -> same_members s2 s3 -> same_members s1 s3.
Proof. intros (?&?&?&?&?&?) (?&?&?&?&?&?). unfold same_members. split_and!; congruence. Qed.

(** Writing is turned on, the replacement made, and writing turned off again. *)
Lemma replace_once a n repl rmsk s m' :
  locked (kcpu s) = false -> answers s = [] ->
  replace_at (kmem s) a n repl rmsk = Some m' ->
  exists s1 s2 ok s3, setKernelWriting true s = Ret true s1 /\
    kreplace a n repl rmsk s1 = Ret tt s2 /\ setKernelWriting false s2 = Ret ok s3 /\
    kmem s3 = m' /\ same_members s s3 /\ settled s s3 /\ answers s3 = [].
Proof.
  intros Hl Ha Hr. destruct (setKernelWriting_on s Hl) as (ok & s1 & E1 & Hs1 & Hx & Ht & Hw).
  rewrite (Ht Ha) in *. clear ok Ht. destruct Hs1 as (Hm1 & Hrest).
  set (s2 := set_mem m' s1).
  destruct (setKernelWriting_off s s2 Hw Hx) as (ok & s3 & E3 & Hs3 & Hset).
  exists s1, s2, ok, s3. split_and!; try done.
  - unfold kreplace. rewrite Hm1, Hr. destruct Hw as (_ & -> & _). done.
  - apply Hs3.
  - unfold same_members. destruct Hs3 as (_ & ?&?&?&?&?&?), Hrest as (?&?&?&?&?&?). simpl in *.
    split_and!; congruence.
  - destruct Hset as (_ & _ & _ & Hsuf). rewrite Ha in Hsuf. by apply suffix_nil_inv in Hsuf.
Qed.

Section greedy.
Context (data dataSize : Z) (find : list Z) (fmsk : option (list Z)).
Context (repl : list Z) (rmsk : option (list Z)).
Context (Hlen : length repl = length find) (Hfmsk : mask_for fmsk find) (Hmsk : mask_for rmsk find).

Lemma replace_loop_greedy fuel off count skip rc s :
  0 <= off <= dataSize -> dataSize - off < Z.of_nat fuel ->
  locked (kcpu s) = false -> answers s = [] ->
  exists l s', leftmost (kmem s) find fmsk data dataSize off l /\
    replace_loop fuel data dataSize find fmsk repl rmsk off count skip rc s =
      Ret (Some ((0 <? rc)%nat || (0 <? length (select count skip l))%nat)) s' /\
    patched data (length find) repl rmsk (select count skip l) (kmem s) (kmem s') /\
    same_members s s' /\ settled s s'.
Proof using Hlen Hfmsk Hmsk.
  revert off count skip rc s. induction fuel as [|f IH]; intros off count skip rc s Ho Hf Hl Ha; [lia|].
  cbn [replace_loop]. unfold kbind at 1, kget at 1.
  pose proof (findPattern_spec (kmem s) find fmsk data dataSize off ltac:(lia)) as Hp.
  destruct (findPattern (kmem s) find fmsk data dataSize off) as [k| |]; [| |done].
  2: { exists [], s. rewrite select_nil. simpl. rewrite orb_false_r.
       split_and!; (by constructor) || done || (by apply patched_nil) || by apply settled_refl. }
  pose proof Hp as (Hk & (Hne & Hkd & _) & _).
  assert (0 < length find)%nat by (destruct find; [done|simpl; lia]).
  destruct skip as [|skip]; [change (0 <? 0)%nat with false|change (0 <? S skip)%nat with true]; cbv iota.
  2: { rewrite Nat.sub_1_r. simpl Nat.pred.
       destruct (IH (k + Z.of_nat (length find)) count skip rc s) as (l & s' & Hlm & E & Hrest); [lia..|done|done|].
       exists (k :: l), s'. rewrite select_skip. split_and!; [by constructor|done|apply Hrest..]. }
  destruct (replace_at_ok (kmem s) data k (length find) repl rmsk Hlen Hmsk) as (m' & Em & Hpat).
  destruct (replace_once _ _ _ _ s m' Hl Ha Em) as (s1 & s2 & ok & s3 & E1 & E2 & E3 & Hm3 & Hmem & Hset & Ha3).
  rewrite (kbind_Ret _ _ _ _ _ E1). cbn [negb].
  rewrite (kbind_Ret _ _ _ _ _ E2), (kbind_Ret _ _ _ _ _ E3). rewrite Hlen.
  assert (forall x, data + (k + Z.of_nat (length find)) <= x -> kmem s x = kmem s3 x) as Hkeep.
  { intros x Hx. rewrite Hm3. symmetry. apply Hpat. intros j ->%list_elem_of_singleton. lia. }
  destruct (IH (k + Z.of_nat (length find)) (count - 1)%nat 0%nat (S rc) s3)
    as (l & s' & Hlm & E' & Hm' & Hmem' & Hset'); [lia..|by eapply settled_locked|done|].
  assert (leftmost (kmem s) find fmsk data dataSize off (k :: l)) as Hlm'.
  { constructor; [done|]. by eapply leftmost_ext. }
  exists (k :: l). destruct (Nat.eqb_spec count 1) as [->|Hc].
  - exists s3. rewrite select_one, orb_true_r, Hm3. by split_and!.
  - exists s'. rewrite select_more by done. rewrite E', orb_true_r. split_and!; [done..| |by eapply same_members_trans|by eapply settled_trans].
    eapply patched_cons; [done|by rewrite <- Hm3|].
    apply leftmost_from in Hlm. rewrite Forall_forall in *. intros j Hj. apply Hlm.
    by apply (select_subseteq (count - 1) 0).
Qed.
End greedy.

(** [findPattern] returns the least offset, not below the one it starts
    from, at which the (masked) data inside the block agrees with the pattern
    in every byte, fails only if there is none, and reads behind the end of the
    mask only if that is shorter than the pattern. *)
Theorem findPattern_first m ptn msk data dataSize off :
  0 <= off ->
  match findPattern m ptn msk data dataSize off with
  | Found k => first_from m ptn msk data dataSize off k
  | Missing => forall j, off <= j -> ~ occurs m ptn msk data dataSize j
  | Overread => ~ mask_for msk ptn
  end.
Proof. apply findPattern_spec. Qed.

Lemma findAndReplaceWithMask_run data dataSize find fmsk repl rmsk count skip s fuel :
  length repl = length find -> mask_for fmsk find -> mask_for rmsk find ->
  0 <= dataSize < Z.of_nat fuel -> locked (kcpu s) = false -> answers s = [] ->
  exists l s', leftmost (kmem s) find fmsk data dataSize 0 l /\
    findAndReplaceWithMask fuel data dataSize find fmsk repl rmsk count skip s =
      Ret (Some (0 <? length (select count skip l))%nat) s' /\
    patched data (length find) repl rmsk (select count skip l) (kmem s) (kmem s') /\
    same_members s s' /\
    locked (kcpu s') = false /\ iflag (kcpu s') = iflag (kcpu s) /\ wp (kcpu s') = wp (kcpu s).
Proof.
  intros Hl Hfm Hm Hd Hk Ha. unfold findAndReplaceWithMask.
  destruct (Z.ltb_spec dataSize (Z.of_nat (length find))) as [Hlt|_].
  - exists [], s. rewrite select_nil. split_and!; try done; [|apply patched_nil].
    constructor. intros j Hj (_ & ? & _). lia.
  - destruct (replace_loop_greedy data dataSize find fmsk repl rmsk Hl Hfm Hm fuel 0 count skip 0 s)
      as (l & s' & Hlm & E & Hmem & Hsame & Hset); [lia..|done|done|].
    exists l, s'. rewrite E. destruct Hset as (? & ? & Hw & _). rewrite Ha in Hw.
    split_and!; try done. destruct Hw as [|[_ Hn]]; [done|]. by apply elem_of_nil in Hn.
Qed.

(** C9: given a replacement as long as the pattern, masks (if any) at least as
    long, a free lock and a processor that answers every request for write
    access, [findAndReplaceWithMask] terminates and does what the specification
    says: of the leftmost occurrences that do not overlap (in the data as it
    was, an occurrence being the agreement of every masked byte) it leaves out
    the first [skip], replaces the next [count] (all, for a count of zero) byte
    by byte under the replacement mask, changes no other byte, reports whether
    it replaced any, and leaves lock, interrupts and write protection as they
    were. *)
Theorem findAndReplaceWithMask_greedy data dataSize find fmsk repl rmsk count skip s fuel :
  length repl = length find -> mask_for fmsk find -> mask_for rmsk find ->
  0 <= dataSize < Z.of_nat fuel -> locked (kcpu s) = false -> answers s = [] ->
  exists l s', leftmost (kmem s) find fmsk data dataSize 0 l /\
    findAndReplaceWithMask fuel data dataSize find fmsk repl rmsk count skip s =
      Ret (Some (0 <? length (select count skip l))%nat) s' /\
    patched data (length find) repl rmsk (select count skip l) (kmem s) (kmem s') /\
    same_members s s' /\
    locked (kcpu s') = false /\ iflag (kcpu s') = iflag (kcpu s) /\ wp (kcpu s') = wp (kcpu s).
Proof. apply findAndReplaceWithMask_run. Qed.

(** Without a replacement the offset does not move: a pattern that is found is
    found again, and the loop never ends. *)
Lemma replace_loop_spins data dataSize find fmsk k s fuel rc :
  findPattern (kmem s) find fmsk data dataSize k = Found k ->
  locked (kcpu s) = false -> answers s = [] ->
  exists s', replace_loop fuel data dataSize find fmsk [] None k 0 0 rc s = Ret None s'.
Proof.
  revert rc s. induction fuel as [|f IH]; intros rc s Hf Hl Ha; [by exists s|].
  cbn [replace_loop]. unfold kbind at 1, kget at 1. rewrite Hf. change (0 <? 0)%nat with false. cbv iota.
  destruct (replace_once (data + k) (length find) [] None s (kmem s) Hl Ha eq_refl)
    as (s1 & s2 & ok & s3 & E1 & E2 & E3 & Hm3 & _ & Hset & Ha3).
  rewrite (kbind_Ret _ _ _ _ _ E1). cbn [negb].
  rewrite (kbind_Ret _ _ _ _ _ E2), (kbind_Ret _ _ _ _ _ E3). simpl Nat.eqb. cbv iota.
  rewrite Z.add_0_r. apply IH; [by rewrite Hm3|by eapply settled_locked|done].
Qed.

(** ** Lookup patches *)

(** [rewrites find repl m l m']: the bytes at the addresses of [l] were replaced
    one after the other, each of them found there at that moment. *)
Inductive rewrites (find repl : list Z) : mem -> list Z -> mem -> Prop :=
  | rw_nil m : rewrites find repl m [] m
  | rw_cons m a l m' :
      matches m a find None -> rewrites find repl (write_list m a repl) l m' ->
      rewrites find repl m (a :: l) m'.

Lemma scan_spec fuel m cur fin find :
  cur <= fin -> fin - cur <= Z.of_nat fuel ->
  cur <= scan fuel m cur fin find <= fin /\
  (scan fuel m cur fin find < fin -> matches m (scan fuel m cur fin find) find None) /\
  (forall j, cur <= j < scan fuel m cur fin find -> ~ matches m j find None).
Proof.
  revert cur. induction fuel as [|f IH]; intros cur Hc Hf; simpl; [split_and!; intros; lia|].
  destruct (Z.ltb_spec cur fin); simpl; [|split_and!; intros; lia].
  destruct (match_plain m cur find) eqn:E; simpl.
  - apply match_plain_spec in E. split_and!; intros; done || lia.
  - destruct (IH (cur + 1)) as (H1 & H2 & H3); [lia..|]. split_and!; [lia..|done|].
    intros j Hj Hm. destruct (Z.eq_dec j cur) as [->|]; [|by apply (H3 j); [lia|]].
    apply match_plain_spec in Hm. congruence.
Qed.

Lemma lookup_loop_spec fuel p i cur fin changes s n s' :
  cur <= fin -> wp (kcpu s) = false ->
  lookup_loop fuel p i cur fin changes s = Ret (Some n) s' ->
  exists l, rewrites (lfind p) (lreplace p) (kmem s) l (kmem s') /\
    n = (changes + length l)%nat /\ Forall (fun a => cur <= a < fin) l /\
    kcpu s' = kcpu s /\ same_members s s' /\ answers s' = answers s /\
    ((lcount p <> 0)%nat -> (length l <= lcount p - i)%nat).
Proof.
  revert i cur changes s. induction fuel as [|f IH]; intros i cur changes s Hc Hw; cbn [lookup_loop]; [done|].
  destruct ((cur <? fin) && _) eqn:Eg.
  2: { intros [= <- <-]. exists []. split_and!; try done; simpl; try lia; constructor. }
  apply andb_true_iff in Eg as [Eg1 Eg2]. apply Z.ltb_lt in Eg1.
  assert ((lcount p <> 0)%nat -> (i < lcount p)%nat) as Hi.
  { apply orb_true_iff in Eg2 as [E|E]; [apply Nat.ltb_lt in E; lia|apply Nat.eqb_eq in E; lia]. }
  unfold kbind at 1, kget at 1.
  destruct (scan_spec (Z.to_nat (fin - cur)) (kmem s) cur fin (lfind p)) as (H1 & H2 & _); [lia..|].
  set (c := scan _ _ _ _ _) in *. destruct (Z.eqb_spec c fin) as [E|E]; cbn [negb].
  - intros E'. apply IH in E' as (l & Hr & -> & Hl & ? & ? & ? & Hn); [|lia|done].
    exists l. split_and!; try done; [|lia]. eapply Forall_impl; [done|]. simpl. lia.
  - unfold kbind, kreplace. simpl replace_at. cbv iota. rewrite Hw.
    intros E'. apply IH in E' as (l & Hr & -> & Hl & Hcpu & Hm & Ha & Hn); [|lia|done]. simpl in *.
    exists (c :: l). split_and!; simpl; try done; try lia.
    + constructor; [apply H2; lia|done].
    + constructor; [lia|]. eapply Forall_impl; [done|]. simpl. lia.
Qed.

Lemma lookup_loop_returns fuel p i cur fin changes s :
  (lcount p <> 0)%nat -> (lcount p - i < fuel)%nat -> wp (kcpu s) = false -> cur <= fin ->
  exists n s', lookup_loop fuel p i cur fin changes s = Ret (Some n) s'.
Proof.
  intros Hp. revert i cur changes s. induction fuel as [|f IH]; intros i cur changes s Hf Hw Hc; [lia|].
  cbn [lookup_loop]. destruct ((cur <? fin) && _) eqn:Eg; [|by eexists _, _].
  apply andb_true_iff in Eg as [Eg1 Eg2]. apply Z.ltb_lt in Eg1.
  assert (i < lcount p)%nat.
  { apply orb_true_iff in Eg2 as [E|E]; [apply Nat.ltb_lt in E; lia|apply Nat.eqb_eq in E; lia]. }
  unfold kbind at 1, kget at 1.
  destruct (scan_spec (Z.to_nat (fin - cur)) (kmem s) cur fin (lfind p)) as (H1 & _ & _); [lia..|].
  destruct (negb _).
  - unfold kbind, kreplace. simpl replace_at. cbv iota. rewrite Hw. apply IH; [lia|done|lia].
  - apply IH; [lia|done|lia].
Qed.

(** Where a lookup patch looks: from [lo] on, and below [hi]. *)
Definition lookup_range (p : LookupPatch) (a sz start maxSize : Z) : Z * Z :=
  let e := a + match kext p with None => (2 ^ 64 - 1) - a | _ => sz end in
  (Z.max a start,
   (if (0 <? maxSize) && (start + maxSize <? e) then start + maxSize else e)
     - Z.of_nat (length (lfind p))).

Lemma applyLookupPatch_unfold fuel position p start maxSize s a sz :
  kext p <> Some None ->
  position (match kext p with Some (Some i) => i | _ => 0%nat end) = (a, sz) ->
  0 <= a -> 0 <= sz -> a + sz < 2 ^ 64 -> 0 <= start -> 0 <= maxSize -> start + maxSize < 2 ^ 64 ->
  let '(lo, fin) := lookup_range p a sz start maxSize in
  0 <= fin ->
  applyLookupPatch fuel position (Some p) start maxSize s =
  (let% ok := setKernelWriting true in
   if negb ok then kmod (set_code MemoryProtection) ;% kret true
   else
     let% r := lookup_loop fuel p 0 lo fin 0 in
     match r with
     | None => kret false
     | Some changes =>
         let% ok := setKernelWriting false in
         if negb ok then kmod (set_code MemoryProtection) ;% kret true
         else if negb (changes =? lcount p)%nat then kmod (set_code MemoryIssue) ;% kret true
         else kret true
     end) s.
Proof.
  intros Hk Hp Ha Hsz Hb Hs Hm Hb'. unfold lookup_range. intros Hf.
  destruct p as [ke fi re co]; simpl in *. unfold applyLookupPatch. simpl kext in *.
  assert ((if a <? start then start else a) = Z.max a start) as Ec by (case_cmp; lia).
  destruct ke as [[i|]|]; [|done|]; simpl in *; rewrite Hp, Ec.
  - rewrite !(wrap_small 64 (a + sz)), (wrap_small 64 (start + maxSize)) by lia.
    rewrite wrap_small; [done|]. destruct ((0 <? maxSize) && _); lia.
  - rewrite !(wrap_small 64 (a + _)), (wrap_small 64 (start + maxSize)) by lia.
    rewrite wrap_small; [done|]. destruct ((0 <? maxSize) && _); lia.
Qed.

(** A lookup patch with a count terminates; it replaces find by replace at
    addresses of the image (and of the range given), one after the other, each
    time where the bytes to find stand at that moment, at most [count] times and
    nothing else; it reports [MemoryIssue] exactly when the number of
    replacements is not [count], and leaves the protection as it was. *)
Theorem applyLookupPatch_correct position p start maxSize s a sz fuel :
  kext p <> Some None -> (lcount p <> 0)%nat ->
  position (match kext p with Some (Some i) => i | _ => 0%nat end) = (a, sz) ->
  0 <= a -> 0 <= sz -> a + sz < 2 ^ 64 -> 0 <= start -> 0 <= maxSize -> start + maxSize < 2 ^ 64 ->
  (lookup_range p a sz start maxSize).1 <= (lookup_range p a sz start maxSize).2 ->
  (lcount p < fuel)%nat -> locked (kcpu s) = false -> answers s = [] ->
  exists s' l, applyLookupPatch fuel position (Some p) start maxSize s = Ret true s' /\
    rewrites (lfind p) (lreplace p) (kmem s) l (kmem s') /\
    Forall (fun x => (lookup_range p a sz start maxSize).1 <= x
                     < (lookup_range p a sz start maxSize).2) l /\
    (length l <= lcount p)%nat /\
    code s' = (if decide (length l = lcount p) then code s else MemoryIssue) /\
    locked (kcpu s') = false /\ iflag (kcpu s') = iflag (kcpu s) /\ wp (kcpu s') = wp (kcpu s) /\ answers s' = [].
Proof.
  intros Hk Hc Hp Ha Hsz Hb Hs Hm Hb' Hr Hf Hl Han.
  pose proof (applyLookupPatch_unfold fuel position p start maxSize s a sz Hk Hp Ha Hsz Hb Hs Hm Hb') as E.
  assert (0 <= (lookup_range p a sz start maxSize).1) as Hlo by (unfold lookup_range; simpl; lia).
  destruct (lookup_range p a sz start maxSize) as [lo fin]. simpl in *. rewrite E by lia. clear E.
  destruct (setKernelWriting_on s Hl) as (ok & s1 & E1 & Hs1 & Hx & Ht & Hw). rewrite (Ht Han) in *.
  rewrite (kbind_Ret _ _ _ _ _ E1). cbn [negb]. assert (wp (kcpu s1) = false) as Hwp by apply Hw.
  destruct (lookup_loop_returns fuel p 0 lo fin 0 s1) as (n & s2 & E2); [done|lia|done|done|].
  rewrite (kbind_Ret _ _ _ _ _ E2).
  apply lookup_loop_spec in E2 as (l & Hrw & -> & Hl2 & Hcpu & Hmem & Hans & Hn); [|done|done].
  rewrite <- Hcpu in Hw. rewrite <- Hans in Hx.
  destruct (setKernelWriting_off s s2 Hw Hx) as (ok2 & s3 & E3 & Hs3 & Hset).
  rewrite (kbind_Ret _ _ _ _ _ E3). destruct Hset as (Hk1 & Hk2 & Hk3 & Hk5). rewrite Han in Hk3, Hk5.
  apply suffix_nil_inv in Hk5.
  assert (wp (kcpu s3) = wp (kcpu s)) as Hk4.
  { destruct Hk3 as [|[_ Hn']]; [done|]. by apply elem_of_nil in Hn'. }
  destruct Hs1 as (Hm1 & Hc1 & _), Hs3 as (Hm3 & Hc3 & _), Hmem as (Hc2 & _).
  rewrite <- Hm1. specialize (Hn Hc). simpl.
  assert (code s3 = code s) as Hcode by congruence.
  assert (ok2 = true) as ->.
  { assert (answers s2 = []) as Ha2 by (rewrite Han in Hx; by apply suffix_nil_inv in Hx).
    destruct (setKernelWriting_off_ok s s2 Hw Ha2) as (s3' & E3'). congruence. }
  cbn [negb]. destruct (Nat.eqb_spec (length l) (lcount p)) as [El|El]; cbn [negb].
  - exists s3, l. rewrite decide_True by done. rewrite Hm3. split_and!; done || lia.
  - eexists (set_code MemoryIssue s3), l. rewrite decide_False by done. simpl. rewrite Hm3.
    split_and!; done || lia.
Qed.

(** ** Witnesses *)

Lemma findPattern_first_witness :
  findPattern (bytes_at 16 [1; 2; 0x13; 4]) [3; 4] (Some [0x0f; 0xff]) 16 4 0 = Found 2 /\
  matches (bytes_at 16 [1; 2; 0x13; 4]) 18 [3; 4] (Some [0x0f; 0xff]).
Proof.
  pose proof (findPattern_first (bytes_at 16 [1; 2; 0x13; 4]) [3; 4] (Some [0x0f; 0xff]) 16 4 0
    ltac:(lia)) as H.
  split; [reflexivity|]. exact (proj2 (proj2 (proj1 (proj2 H)))).
Defined.

(** Of the places for [1;1] in five equal bytes, those at offsets 0 and 2 are
    replaced. *)
Lemma leftmost_ones : leftmost (bytes_at 16 [1; 1; 1; 1; 1]) [1; 1] None 16 5 0 [0; 2].
Proof.
  pose proof (fun off => findPattern_spec (bytes_at 16 [1; 1; 1; 1; 1]) [1; 1] None 16 5 off) as H.
  constructor; [exact (H 0 ltac:(lia))|]. constructor; [exact (H 2 ltac:(lia))|].
  constructor. exact (H 4 ltac:(lia)).
Qed.

Lemma findAndReplaceWithMask_greedy_witness :
  exists s', findAndReplaceWithMask 6 16 5 [1; 1] None [7; 8] None 0 0 (calm (bytes_at 16 [1; 1; 1; 1; 1]))
    = Ret (Some true) s' /\
    patched 16 2 [7; 8] None [0; 2] (bytes_at 16 [1; 1; 1; 1; 1]) (kmem s') /\ locked (kcpu s') = false.
Proof.
  destruct (findAndReplaceWithMask_greedy 16 5 [1; 1] None [7; 8] None 0 0
    (calm (bytes_at 16 [1; 1; 1; 1; 1])) 6 eq_refl ltac:(discriminate) ltac:(discriminate) ltac:(simpl; lia)
    eq_refl eq_refl) as (l & s' & Hlm & E & Hp & _ & Hl & _).
  pose proof (leftmost_unique _ _ _ _ _ _ _ _ Hlm leftmost_ones) as ->.
  exists s'. split; [exact E|]. split; [exact Hp|exact Hl].
Defined.

Definition demo_lookup : LookupPatch := mk_lookup (Some (Some 1%nat)) [1; 2] [8; 9] 1.

Lemma applyLookupPatch_correct_witness :
  exists s' l, applyLookupPatch 2 (fun _ => (16, 4)) (Some demo_lookup) 0 0
      (calm (bytes_at 16 [0; 1; 2; 0])) = Ret true s' /\
    rewrites [1; 2] [8; 9] (bytes_at 16 [0; 1; 2; 0]) l (kmem s').
Proof.
  destruct (applyLookupPatch_correct (fun _ => (16, 4)) demo_lookup 0 0
    (calm (bytes_at 16 [0; 1; 2; 0])) 16 4 2 ltac:(discriminate) ltac:(discriminate) eq_refl
    ltac:(lia) ltac:(lia) ltac:(lia) ltac:(lia) ltac:(lia) ltac:(lia) ltac:(vm_compute; discriminate)
    ltac:(simpl; lia) eq_refl eq_refl) as (s' & l & E & Hr & _).
  exists s', l. split; [exact E|exact Hr].
Defined.

(** A lookup patch never examines the last place where the bytes to find
    fit into the image: an image that consists of these bytes alone is not
    patched, and the patch is reported as failed. *)
Theorem applyLookupPatch_last_missed :
  exists s', applyLookupPatch 2 (fun _ => (16, 2)) (Some demo_lookup) 0 0
      (calm (bytes_at 16 [1; 2])) = Ret true s' /\
    matches (bytes_at 16 [1; 2]) 16 [1; 2] None /\
    code s' = MemoryIssue /\ (forall x, kmem s' x = bytes_at 16 [1; 2] x).
Proof.
  eexists. split; [vm_compute; reflexivity|]. split; [by apply match_plain_spec|].
  split; reflexivity.
Qed.

(** A lookup patch for every occurrence (a count of zero) that replaces
    something is always reported as failed; with nothing to replace it succeeds. *)
Theorem applyLookupPatch_count_zero :
  let p := mk_lookup (Some (Some 1%nat)) [1; 2] [8; 9] 0 in
  (exists s', applyLookupPatch 3 (fun _ => (16, 4)) (Some p) 0 0 (calm (bytes_at 16 [1; 2; 0; 0]))
     = Ret true s' /\ ldb (kmem s') 16 = 8 /\ code s' = MemoryIssue) /\
  (exists s', applyLookupPatch 3 (fun _ => (16, 4)) (Some p) 0 0 (calm (bytes_at 16 [0; 0; 0; 0]))
     = Ret true s' /\ code s' = NoError).
Proof. split; eexists; (split; [vm_compute; reflexivity|]); by vm_compute. Qed.
