(* ===== verification/Route.v ===== *)
(** Function routing of Lilu's kernel patcher
    (Lilu/Lilu/Sources/kern_patcher.cpp, Lilu/Lilu/Headers/kern_patcher.hpp):
    a jump is written over the beginning of a function, short (5 bytes,
    relative), medium (6 bytes, through an address slot) or long (14 bytes, the
    address behind the instruction), and the instructions it overwrites are
    copied to a trampoline that jumps back behind them.

    The 64-bit target is modelled.  [d] is the length disassembler,
    [tempExecutableMemory] the address of the trampoline memory; an image is
    named by its index, a request's [org] by the address it points to.
    [routeFunctionInternal] and [createTrampoline] call each other, but the
    call in [createTrampoline] never asks for a wrapper: the first is written
    over the second as an argument. *)

From Stdlib Require Import ZArith Lia List Bool.
From stdpp Require Import prelude.
From S2P Require Import Prelude Disasm KPatch.

Open Scope Z_scope.
Open Scope k_scope.

Inductive JumpType := Auto | Long | Short | Medium.

#[export] Instance JumpType_eq_dec : EqDecision JumpType.
Proof. solve_decision. Defined.

Definition SmallJump : Z := 1 + 4.
Definition LongJump : Z := 6 + 8.
Definition MediumJump : Z := 6.
Definition SmallJumpPrefix : Z := 0xE9.
Definition LongJumpPrefix : Z := 0x25FF.
Definition TempExecutableMemorySize : Z := 4096.
Definition PAGE_SIZE : Z := 4096.
Definition EINVAL : Z := 22.

(** [FunctionPatch]: the values of the three views of the union, with the bytes
    of the function behind the jump that [sourceIt] copies from [source]. *)
Definition value_l (m : mem) (source opcode argument disp : Z) : Z :=
  opcode + 2 ^ 16 * (argument + 2 ^ 32 * (disp + 2 ^ 64 * ldn 2 m (source + 14))).
Definition value_m (m : mem) (source opcode argument : Z) : Z :=
  opcode + 2 ^ 16 * (argument + 2 ^ 32 * ldn 2 m (source + 6)).
Definition value_s (m : mem) (source opcode argument : Z) : Z :=
  opcode + 2 ^ 8 * (argument + 2 ^ 32 * ldn 3 m (source + 5)).

(** The destination of a jump at [from] and its type; no type without a jump. *)
Definition readChain (m : mem) (from : Z) : Z * option JumpType :=
  if ld16 m from =? LongJumpPrefix then
    let disp := sext 32 (ld32 m (from + 2)) in
    (ld64 m (u64 (from + MediumJump + disp)), Some (if negb (disp =? 0) then Medium else Long))
  else if ldb m from =? SmallJumpPrefix then
    (u64 (from + SmallJump + sext 32 (ld32 m (from + 1))), Some Short)
  else (0, None).

(** The patches of a route and the value for an atomic store. *)
Record jump_patches := mk_jp {
  jopcode : option Patch;
  jargument : option Patch;
  jdisp : option Patch;
  jvalue : Z
}.

Definition is_none {A} (o : option A) : bool := match o with None => true | Some _ => false end.

(** The three ways to build the patches. *)
Definition build_patches (from to addressSlot : Z) (absolute : bool) (newArgument : Z)
    : K jump_patches :=
  let% m := kget kmem in
  if truth addressSlot then
    let argument := u32 (addressSlot - (from + MediumJump)) in
    let% o := patch_create 2 from LongJumpPrefix in
    let% a := patch_create 4 (from + 2) argument in
    let% p := patch_create 8 addressSlot to in
    kret (mk_jp o a p (value_m m from LongJumpPrefix argument))
  else if absolute then
    let% o := patch_create 2 from LongJumpPrefix in
    let% a := patch_create 4 (from + 2) 0 in
    let% p := patch_create 8 (from + 6) to in
    kret (mk_jp o a p (value_l m from LongJumpPrefix 0 to))
  else
    let% o := patch_create 1 from SmallJumpPrefix in
    let% a := patch_create 4 (from + 1) (u32 newArgument) in
    kret (mk_jp o a None (value_s m from SmallJumpPrefix (u32 newArgument))).

(** The writes: one atomic store where the alignment allows it. *)
Definition install (prot : bool) (from addressSlot : Z) (absolute : bool) (j : jump_patches) : K unit :=
  (if truth addressSlot then patch_patch prot (jdisp j) else kret tt) ;%
  if truth addressSlot || negb absolute then
    if from .& 7 =? 0 then kstore prot 8 from (jvalue j)
    else patch_patch prot (jopcode j) ;% patch_patch prot (jargument j)
  else if from .& 15 =? 0 then kstore prot 16 from (jvalue j)
  else patch_patch prot (jdisp j) ;% patch_patch prot (jopcode j) ;% patch_patch prot (jargument j).

(** [kpatches.push_back<4>]: whether there was memory. *)
Definition kpatches_push (p : option Patch) : K bool :=
  match p with
  | None => kstuck
  | Some p =>
      let% ok := ask in
      if ok then kmod (fun s => set_kpatches (kpatches s ++ [p]) s) ;% kret true else kret false
  end.

(** [kpatches.erase(index)]: the element is deleted and removed. *)
Definition kpatches_erase (index : nat) : K unit := fun s =>
  match kpatches s !! index with
  | None => Stuck
  | Some p => Ret tt (set_kpatches (delete index (kpatches s)) (set_ids (nextid s) (pid p :: freed s) s))
  end.

Definition delete_patches (j : jump_patches) : K unit :=
  patch_delete (jopcode j) ;% patch_delete (jargument j) ;% patch_delete (jdisp j).

(** What follows the writes: the results of [push_back] are truth values, and
    serve as indices when one of them is false. *)
Definition keep_patches (j : jump_patches) : K bool :=
  let% oidx := kpatches_push (jopcode j) in
  let% aidx := kpatches_push (jargument j) in
  let% didx := (if is_none (jdisp j) then kret false else kpatches_push (jdisp j)) in
  if oidx && aidx && (is_none (jdisp j) || didx) then kret true
  else
    (if oidx then kpatches_erase 1 else kret tt) ;%
    (if aidx then kpatches_erase 1 else kret tt) ;%
    (if didx then kpatches_erase 1 else kret tt) ;%
    kret false.

(** [*org = trampoline]; a plugin's variable is not protected. *)
Definition write_org (org : option Z) (trampoline : Z) : K unit :=
  match org with
  | None => kret tt
  | Some p => kstore false 8 p trampoline
  end.

(** The choice before the patches: trampoline, address slot, whether the route
    may be reverted; [None] to give up. *)
Definition route_setup (mkTrampoline : Z -> Z -> K Z) (from : Z) (absolute buildWrapper revertible : bool)
    (jumpType : JumpType) (info : option nat) : K (option (Z * Z * bool)) :=
  let% m := kget kmem in
  let '(trampoline, prevJump) := readChain m from in
  if truth trampoline then
    let trampoline := if negb buildWrapper then 0 else trampoline in
    if decide (prevJump = Some Short) then kpanic
    else if decide (jumpType = Short) then kpanic
    else if decide (prevJump = Some Medium) then
      match info with
      | None => kpanic
      | Some i =>
          let% addressSlot := getAddressSlot i in
          if addressSlot =? 0 then kpanic else kret (Some (trampoline, addressSlot, false))
      end
    else kret (Some (trampoline, 0, false))
  else if buildWrapper then
    let% addressSlot :=
      (match info with
       | Some i => if absolute && (bool_decide (jumpType = Auto) || bool_decide (jumpType = Long))
                   then getAddressSlot i else kret 0
       | None => kret 0
       end) in
    let% trampoline :=
      mkTrampoline from (if absolute then if truth addressSlot then MediumJump else LongJump
                         else SmallJump) in
    if trampoline =? 0 then kret None else kret (Some (trampoline, addressSlot, revertible))
  else kret (Some (0, 0, revertible)).

(** The part behind the choice. *)
Definition route_finish (from to : Z) (absolute kernelRoute : bool) (newArgument : Z)
    (org : option Z) (trampoline addressSlot : Z) (revertible : bool) : K Z :=
  write_org org trampoline ;%
  let% j := build_patches from to addressSlot absolute newArgument in
  if is_none (jopcode j) || is_none (jargument j) || (absolute && is_none (jdisp j)) then
    kmod (set_code MemoryIssue) ;% delete_patches j ;% kret EINVAL
  else
    let% ok := (if kernelRoute then setKernelWriting true else kret true) in
    if negb ok then kmod (set_code MemoryProtection) ;% delete_patches j ;% kret EINVAL
    else
      install kernelRoute from addressSlot absolute j ;%
      let% kept :=
        (if kernelRoute then
           let% _ := setKernelWriting false in
           if revertible then keep_patches j else kret false
         else kret false) in
      if kept then kret trampoline else delete_patches j ;% kret trampoline.

Definition routeFunction_with (mkTrampoline : Z -> Z -> K Z) (from to : Z)
    (buildWrapper kernelRoute revertible : bool) (jumpType : JumpType) (info : option nat)
    (org : option Z) : K Z :=
  let diff := u64 (to - (from + SmallJump)) in
  let newArgument := sext 32 diff in
  let absolute := bool_decide (jumpType = Long) || negb (diff =? u64 newArgument) in
  if bool_decide (jumpType = Short) && absolute then
    kmod (set_code MemoryIssue) ;% kret EINVAL
  else
    let% c := route_setup mkTrampoline from absolute buildWrapper revertible jumpType info in
    match c with
    | None => kret EINVAL
    | Some (trampoline, addressSlot, revertible) =>
        route_finish from to absolute kernelRoute newArgument org trampoline addressSlot revertible
    end.

Section route.
Context (d : hde_disasm_t) (tempExecutableMemory : Z).

Definition createTrampoline (func min : Z) (opcodes : list Z) : K Z :=
  let opnum := Z.of_nat (length opcodes) in
  let% ok := setKernelWriting true in
  if negb ok then kmod (set_code MemoryProtection) ;% kret 0
  else
    let% m := kget kmem in
    match quickInstructionSize d m func min with
    | Ok off =>
        if (off =? 0) || (PAGE_SIZE - LongJump <? off) then
          let% _ := setKernelWriting false in
          kmod (set_code DisasmFailure) ;% kret 0
        else
          let% toff := kget tempExecutableMemoryOff in
          let tempDataPtr := tempExecutableMemory + toff in
          let toff' := u64 (toff + off + LongJump + opnum) in
          kmod (set_toff toff') ;%
          if TempExecutableMemorySize <=? toff' then
            let% _ := setKernelWriting false in
            kmod (set_code DisasmFailure) ;% kret 0
          else
            kcopy tempDataPtr opcodes ;%
            let% m := kget kmem in
            kcopy (tempDataPtr + opnum) (bytes m func (Z.to_nat off)) ;%
            let% _ := setKernelWriting false in
            clearError ;%
            let% _ := routeFunction_with (fun _ _ => kstuck) (tempDataPtr + opnum + off) (func + off)
                        false true false Auto None None in
            let% e := getError in
            if decide (e = NoError) then kret tempDataPtr else kret 0
    | _ => kstuck
    end.

Definition routeFunctionInternal (from to : Z) (buildWrapper kernelRoute revertible : bool)
    (jumpType : JumpType) (info : option nat) (org : option Z) : K Z :=
  routeFunction_with (fun func min => createTrampoline func min []) from to buildWrapper kernelRoute
    revertible jumpType info org.

Definition routeFunction (from to : Z) (buildWrapper kernelRoute revertible : bool) : K Z :=
  routeFunctionInternal from to buildWrapper kernelRoute revertible Auto None None.
Definition routeFunctionLong (from to : Z) (buildWrapper kernelRoute revertible : bool) : K Z :=
  routeFunctionInternal from to buildWrapper kernelRoute revertible Long None None.
Definition routeFunctionShort (from to : Z) (buildWrapper kernelRoute revertible : bool) : K Z :=
  routeFunctionInternal from to buildWrapper kernelRoute revertible Short None None.

Definition routeBlock (from : Z) (opcodes : list Z) (buildWrapper kernelRoute : bool) : K Z :=
  if negb buildWrapper then
    let% ok := (if kernelRoute then setKernelWriting true else kret true) in
    if ok then
      (if kernelRoute then kcopy from opcodes
       else kmod (fun s => set_mem (write_list (kmem s) from opcodes) s)) ;%
      (if kernelRoute then let% _ := setKernelWriting false in kret tt else kret tt) ;%
      kret 0
    else kmod (set_code MemoryProtection) ;% kret EINVAL
  else if negb kernelRoute then kmod (set_code MemoryProtection) ;% kret EINVAL
  else
    let% trampoline := createTrampoline from LongJump opcodes in
    if trampoline =? 0 then kret EINVAL
    else
      let% r := routeFunctionInternal from trampoline false true true Auto None None in
      kret (if r =? 0 then trampoline else EINVAL).

(** The prefix of [inc qword ptr \[rip + disp32\]], a counter of code coverage. *)
Definition IncInstPrefix : list Z := [0x48; 0xFF; 0x05].
Definition IncInstSize : Z := 7.

Fixpoint eraseCoverageInstPrefix (count : nat) (addr limit totalInstSize : Z) : K unit :=
  match count with
  | O => kret tt
  | S count' =>
      let% m := kget kmem in
      match quickInstructionSize d m addr 1 with
      | Ok instSize =>
          if instSize =? 0 then kret tt
          else
            (if (instSize =? IncInstSize) && bool_decide (bytes m addr 3 = IncInstPrefix) then
               let% ok := setKernelWriting true in
               if ok then
                 kcopy addr (replicate 7 0x90) ;%
                 let% _ := setKernelWriting false in kret tt
               else kret tt
             else kret tt) ;%
            let total := totalInstSize + instSize in
            if (0 <? limit) && (limit <=? total) then kret tt
            else eraseCoverageInstPrefix count' (addr + instSize) limit total
      | _ => kstuck
      end
  end.

(** [KernelPatcher::solveSymbol]: [solve] is the symbol search of the images. *)
Definition solveSymbol (solve : nat -> Z -> Z) (numKinfos : nat) (id : nat) (symbol : Z) : K Z :=
  if (id <? numKinfos)%nat then
    let addr := solve id symbol in
    if truth addr then kret addr else kmod (set_code NoSymbolFound) ;% kret 0
  else kmod (set_code NoSymbolFound) ;% kret 0.

(** A symbol is named by a number; [None] for a null pointer. *)
Record RouteRequest := mk_req {
  symbol : option Z;
  rfrom : Z;
  rto : Z;
  rorg : option Z
}.

Section multiple.
(** The two ways to look a symbol up, with and without a range. *)
Context (lookup : nat -> Z -> K Z).

(** The first loop: [None] when a symbol is missing and [force] is not set;
    otherwise the requests with their addresses and whether one was missing. *)
Fixpoint solve_requests (id : nat) (force : bool) (requests : list RouteRequest)
    : K (option (list RouteRequest * bool)) :=
  match requests with
  | [] => kret (Some ([], false))
  | r :: rest =>
      match symbol r with
      | None =>
          let% x := solve_requests id force rest in
          kret (match x with Some (l, e) => Some (r :: l, e) | None => None end)
      | Some sym =>
          let% from := lookup id sym in
          let r' := mk_req (symbol r) from (rto r) (rorg r) in
          if from =? 0 then
            clearError ;%
            if negb force then kret None
            else
              let% x := solve_requests id force rest in
              kret (match x with Some (l, _) => Some (r' :: l, true) | None => None end)
          else
            let% x := solve_requests id force rest in
            kret (match x with Some (l, e) => Some (r' :: l, e) | None => None end)
      end
  end.

(** The second loop: whether a route failed; [None] when it stops there. *)
Fixpoint route_requests (id : nat) (kernelRoute force : bool) (jump : JumpType)
    (requests : list RouteRequest) : K (option bool) :=
  match requests with
  | [] => kret (Some false)
  | r :: rest =>
      if rfrom r =? 0 then route_requests id kernelRoute force jump rest
      else
        (if truth (rto r) then eraseCoverageInstPrefix 5 (rfrom r) LongJump 0 else kret tt) ;%
        let% wrapper := routeFunctionInternal (rfrom r) (rto r) (negb (is_none (rorg r))) kernelRoute
                          true jump (Some id) (rorg r) in
        let good := if is_none (rorg r) then wrapper =? 0 else truth wrapper in
        if good then route_requests id kernelRoute force jump rest
        else
          clearError ;%
          if negb force then kret None
          else
            let% x := route_requests id kernelRoute force jump rest in
            kret (match x with Some _ => Some true | None => None end)
  end.

Definition routeMultipleInternal (id : nat) (requests : list RouteRequest)
    (kernelRoute force : bool) (jump : JumpType) : K bool :=
  let% x := solve_requests id force requests in
  match x with
  | None => kret false
  | Some (requests, e1) =>
      let% y := route_requests id kernelRoute force jump requests in
      kret (match y with None => false | Some e2 => negb (e1 || e2) end)
  end.
End multiple.
End route.
