(* ===== verification/RouteThm.v ===== *)
(** What routing a function does: the jumps decode to their destinations, the
    trampoline runs the displaced instructions and goes on behind them, the
    chain is read back, and the patches kept for unloading undo the route. *)

From Stdlib Require Import ZArith Lia List Bool.
From stdpp Require Import prelude.
From S2P Require Import Prelude Hde Disasm KPatch Route.

Open Scope Z_scope.

(** ** Memories that hold the same bytes *)

Definition mem_eq (m m' : mem) : Prop := forall x, ldb m x = ldb m' x.

#[export] Instance mem_eq_equiv : Equivalence mem_eq.
Proof.
  split; [done|by intros m m' H x|]. intros m1 m2 m3 H1 H2 x. by rewrite H1, H2.
Qed.

#[export] Instance ldn_proper n : Proper (mem_eq ==> eq ==> eq) (ldn n).
Proof.
  intros m m' Hm a ? <-. revert a. induction n as [|n IH]; intros a; simpl; [done|].
  by rewrite Hm, IH.
Qed.

#[export] Instance ldb_proper : Proper (mem_eq ==> eq ==> eq) ldb.
Proof. intros m m' Hm a ? <-. apply Hm. Qed.

#[export] Instance stn_proper n : Proper (mem_eq ==> eq ==> eq ==> mem_eq) (stn n).
Proof. intros m m' Hm a ? <- v ? <- x. rewrite !ldb_stn. by rewrite Hm. Qed.

(** A wide store is the store of its low part and of its high part. *)
Lemma stn_app n k m a v :
  mem_eq (stn (n + k) m a v) (stn k (stn n m a v) (a + Z.of_nat n) (v / 256 ^ Z.of_nat n)).
Proof.
  intros x. rewrite !ldb_stn.
  destruct (Z.leb_spec a x), (Z.ltb_spec x (a + Z.of_nat (n + k))),
    (Z.leb_spec (a + Z.of_nat n) x), (Z.ltb_spec x (a + Z.of_nat n + Z.of_nat k)),
    (Z.ltb_spec x (a + Z.of_nat n)); simpl; try lia; try done.
  rewrite Z.div_div by (try apply Z.pow_nonzero; try apply Z.pow_pos_nonneg; lia).
  rewrite <- Z.pow_add_r by lia. do 3 f_equal. lia.
Qed.

Lemma stn_join n k m a lo hi :
  0 <= lo < 256 ^ Z.of_nat n ->
  mem_eq (stn (n + k) m a (lo + 256 ^ Z.of_nat n * hi)) (stn k (stn n m a lo) (a + Z.of_nat n) hi).
Proof.
  intros Hlo. rewrite stn_app. pose proof (Z.pow_pos_nonneg 256 (Z.of_nat n)).
  rewrite (Z.mul_comm _ hi), Z.div_add, (Z.div_small lo), Z.add_0_l by lia.
  intros x. rewrite !ldb_stn. destruct ((a + Z.of_nat n <=? x) && _); [done|].
  destruct ((a <=? x) && (x <? a + Z.of_nat n)) eqn:E; [|done].
  apply andb_true_iff in E as [E1 E2]. apply Z.leb_le in E1. apply Z.ltb_lt in E2.
  replace (256 ^ Z.of_nat n) with (256 ^ (x - a) * (256 * 256 ^ (Z.of_nat n - (x - a) - 1))).
  2: { rewrite <- Z.pow_succ_r, <- Z.pow_add_r by lia. f_equal. lia. }
  pose proof (Z.pow_pos_nonneg 256 (x - a)).
  replace (lo + hi * (256 ^ (x - a) * (256 * 256 ^ (Z.of_nat n - (x - a) - 1))))
    with (lo + (hi * 256 ^ (Z.of_nat n - (x - a) - 1) * 256) * 256 ^ (x - a)) by lia.
  rewrite Z.div_add by lia. unfold wrap. change (2 ^ 8) with 256. by rewrite Z.mod_add by lia.
Qed.

(** Storing back what is there changes nothing. *)
Lemma stn_same n m m' a :
  (forall x, a <= x < a + Z.of_nat n -> ldb m' x = ldb m x) ->
  mem_eq (stn n m' a (ldn n m a)) m'.
Proof.
  intros Hs x. rewrite ldb_stn. destruct (Z.leb_spec a x), (Z.ltb_spec x (a + Z.of_nat n)); simpl; try done.
  rewrite ldn_byte by lia. replace (a + (x - a)) with x by lia. symmetry. apply Hs. lia.
Qed.

Lemma ldb_stn_out n m a v x : x < a \/ a + Z.of_nat n <= x -> ldb (stn n m a v) x = ldb m x.
Proof. intros Hx. rewrite ldb_stn. cmp_solve. Qed.

Lemma ldn_ldb_ext n m m' a :
  (forall x, a <= x < a + Z.of_nat n -> ldb m' x = ldb m x) -> ldn n m' a = ldn n m a.
Proof.
  revert a. induction n as [|n IH]; intros a Hx; [done|].
  cbn [ldn]. rewrite Hx by lia. rewrite IH; [done|]. intros x ?. apply Hx. lia.
Qed.

#[local] Arguments ldn : simpl never.
#[local] Arguments stn : simpl never.

(** ** The jump a route writes *)

(** How the processor reads a jump at [a]. *)
Definition jmp_dest (m : mem) (a : Z) : option Z :=
  if ldb m a =? 0xE9 then Some (u64 (a + 5 + sext 32 (ld32 m (a + 1))))
  else if (ldb m a =? 0xFF) && (ldb m (a + 1) =? 0x25)
  then Some (ld64 m (u64 (a + 6 + sext 32 (ld32 m (a + 2)))))
  else None.

#[export] Instance jmp_dest_proper : Proper (mem_eq ==> eq ==> eq) jmp_dest.
Proof. intros m m' Hm a ? <-. unfold jmp_dest, ld32, ld64.
  by rewrite !(Hm _), !(ldn_proper _ m m' Hm _ _ eq_refl).
Qed.

(** The memory after a route, as plain stores. *)
Definition jump_mem (m : mem) (from to slot : Z) (absolute : bool) (arg : Z) : mem :=
  if truth slot then
    stn 4 (stn 2 (stn 8 m slot to) from LongJumpPrefix) (from + 2) (u32 (slot - (from + MediumJump)))
  else if absolute then stn 4 (stn 2 (stn 8 m (from + 6) to) from LongJumpPrefix) (from + 2) 0
  else stn 4 (stn 1 m from SmallJumpPrefix) (from + 1) (u32 arg).

(** The bytes of the function that the jump takes. *)
Definition jump_size (slot : Z) (absolute : bool) : Z :=
  if truth slot then MediumJump else if absolute then LongJump else SmallJump.

(** Where the slot has to be, and the condition for the other two jumps. *)
Definition jump_fits (from to slot : Z) (absolute : bool) (arg : Z) : Prop :=
  0 <= to < 2 ^ 64 /\ 0 <= from /\ from + 16 < 2 ^ 64 /\
  if truth slot then
    0 <= slot < 2 ^ 64 - 8 /\ - 2 ^ 31 <= slot - (from + 6) < 2 ^ 31 /\
    (slot + 8 <= from \/ from + 8 <= slot)
  else absolute = true \/ (- 2 ^ 31 <= arg < 2 ^ 31 /\ to = u64 (from + 5 + arg)).

Lemma sext_u32 v : - 2 ^ 31 <= v < 2 ^ 31 -> sext 32 (u32 v) = v.
Proof.
  intros Hv. unfold sext. rewrite wrap_wrap by lia. unfold wrap. change (32 - 1) with 31.
  destruct (Z.ltb_spec (v mod 2 ^ 32) (2 ^ 31)); zdm.
Qed.

Lemma jump_mem_dest m from to slot absolute arg :
  jump_fits from to slot absolute arg ->
  jmp_dest (jump_mem m from to slot absolute arg) from = Some to.
Proof.
  intros (Hto & Hf & Hb & Hfit). unfold jump_mem, jmp_dest, ld32, ld64.
  destruct (truth slot) eqn:Es; [|destruct absolute].
  - destruct Hfit as (Hs & Hd & Hdis).
    assert (forall v m, ldb (stn 4 (stn 2 m from LongJumpPrefix) (from + 2) v) from = 0xFF /\
                   ldb (stn 4 (stn 2 m from LongJumpPrefix) (from + 2) v) (from + 1) = 0x25) as Hop.
    { intros v m1. rewrite !ldb_stn. rewrite Z.sub_diag. replace (from + 1 - from) with 1 by lia. cmp_solve. }
    destruct (Hop (u32 (slot - (from + MediumJump))) (stn 8 m slot to)) as [-> ->]. simpl.
    rewrite ldn_stn_same. rewrite (Z.mod_small _ (256 ^ Z.of_nat 4)) by apply u32_range.
    unfold MediumJump. rewrite sext_u32 by lia.
    replace (from + 6 + (slot - (from + 6))) with slot by lia. rewrite (wrap_small 64 slot) by lia.
    rewrite !ldn_stn_other by lia. rewrite ldn_stn_same, Z.mod_small by (simpl; lia). done.
  - assert (forall m, ldb (stn 4 (stn 2 m from LongJumpPrefix) (from + 2) 0) from = 0xFF /\
                 ldb (stn 4 (stn 2 m from LongJumpPrefix) (from + 2) 0) (from + 1) = 0x25) as Hop.
    { intros m1. rewrite !ldb_stn. rewrite Z.sub_diag. replace (from + 1 - from) with 1 by lia. cmp_solve. }
    destruct (Hop (stn 8 m (from + 6) to)) as [-> ->]. simpl.
    rewrite ldn_stn_same. change (0 mod 256 ^ Z.of_nat 4) with 0. change (sext 32 0) with 0.
    rewrite Z.add_0_r, (wrap_small 64) by lia.
    rewrite !ldn_stn_other by lia. rewrite ldn_stn_same, Z.mod_small by (simpl; lia). done.
  - destruct Hfit as [|[Ha ->]]; [done|].
    assert (ldb (stn 4 (stn 1 m from SmallJumpPrefix) (from + 1) (u32 arg)) from = 0xE9) as ->.
    { rewrite !ldb_stn. rewrite Z.sub_diag. cmp_solve. }
    simpl. rewrite ldn_stn_same. rewrite (Z.mod_small _ (256 ^ Z.of_nat 4)) by apply u32_range.
    by rewrite sext_u32 by lia.
Qed.

(** A jump depends on its own bytes and those of its slot only. *)
Lemma jump_mem_stable m m' from to slot absolute arg :
  jump_fits from to slot absolute arg ->
  (forall x, from <= x < from + LongJump \/ (truth slot = true /\ slot <= x < slot + 8) ->
     ldb m' x = ldb (jump_mem m from to slot absolute arg) x) ->
  jmp_dest m' from = Some to.
Proof.
  intros Hfit Hm. pose proof (jump_mem_dest m _ _ _ _ _ Hfit) as Hd. destruct Hfit as (_ & Hf & Hb & Hs).
  unfold LongJump in Hm. set (mj := jump_mem m from to slot absolute arg) in *.
  rewrite <- Hd. unfold jmp_dest. rewrite !Hm by lia.
  assert (forall n a, from <= a -> a + Z.of_nat n <= from + 14 -> ldn n m' a = ldn n mj a) as Hl.
  { intros n a ? ?. apply ldn_ldb_ext. intros x ?. apply Hm. lia. }
  unfold ld32, ld64. rewrite !(Hl 4%nat) by lia.
  destruct (ldb mj from =? 0xE9) eqn:E9; [done|].
  destruct ((ldb mj from =? 0xFF) && _) eqn:EF; [|done]. f_equal.
  destruct (truth slot) eqn:Es.
  - assert (ldn 4 mj (from + 2) = u32 (slot - (from + 6))) as ->.
    { unfold mj, jump_mem. rewrite Es, ldn_stn_same. apply Z.mod_small, u32_range. }
    rewrite sext_u32 by lia. replace (from + 6 + (slot - (from + 6))) with slot by lia.
    rewrite (wrap_small 64 slot) by lia. apply ldn_ldb_ext. intros x Hx. apply Hm. lia.
  - assert (ldn 4 mj (from + 2) = 0) as E0.
    { unfold mj, jump_mem in *. rewrite Es in *. destruct absolute; [by rewrite ldn_stn_same|].
      exfalso. revert E9. rewrite !ldb_stn. rewrite Z.sub_diag. cmp_solve. }
    rewrite E0. change (sext 32 0) with 0. rewrite (wrap_small 64) by lia. apply Hl; lia.
Qed.

(** The route writes the jump and the slot, and nothing else. *)
Lemma jump_mem_other m from to slot absolute arg x :
  ~ (from <= x < from + jump_size slot absolute) ->
  (truth slot = true -> ~ (slot <= x < slot + 8)) ->
  ldb (jump_mem m from to slot absolute arg) x = ldb m x.
Proof.
  unfold jump_mem, jump_size. intros Hx Hs.
  destruct (truth slot); [specialize (Hs eq_refl)|destruct absolute];
    unfold MediumJump, LongJump, SmallJump in *; rewrite !ldb_stn_out by lia; done.
Qed.

(** ** The patches and their installation *)

(** A patch created in memory [m]. *)
Definition fresh_patch (id : Z) (n : nat) (m : mem) (addr rep : Z) : Patch :=
  mk_patch id n addr (ldn n m addr) (rep mod 256 ^ Z.of_nat n).

(** The patches of a route made in memory [m], in an environment that obeys. *)
Definition the_patches (id : Z) (m : mem) (from to slot : Z) (absolute : bool) (arg : Z)
    : jump_patches :=
  if truth slot then
    let argument := u32 (slot - (from + MediumJump)) in
    mk_jp (Some (fresh_patch id 2 m from LongJumpPrefix))
      (Some (fresh_patch (id + 1) 4 m (from + 2) argument))
      (Some (fresh_patch (id + 1 + 1) 8 m slot to)) (value_m m from LongJumpPrefix argument)
  else if absolute then
    mk_jp (Some (fresh_patch id 2 m from LongJumpPrefix)) (Some (fresh_patch (id + 1) 4 m (from + 2) 0))
      (Some (fresh_patch (id + 1 + 1) 8 m (from + 6) to)) (value_l m from LongJumpPrefix 0 to)
  else
    mk_jp (Some (fresh_patch id 1 m from SmallJumpPrefix))
      (Some (fresh_patch (id + 1) 4 m (from + 1) (u32 arg)))
      None (value_s m from SmallJumpPrefix (u32 arg)).

Definition patch_list (j : jump_patches) : list Patch :=
  option_list (jopcode j) ++ option_list (jargument j) ++ option_list (jdisp j).

Lemma patch_create_ok n a v s :
  answers s = [] ->
  patch_create n a v s = Ret (Some (fresh_patch (nextid s) n (kmem s) a v)) (set_ids (nextid s + 1) (freed s) s).
Proof. intros Ha. unfold patch_create, kbind, ask. by rewrite Ha. Qed.

Lemma build_patches_ok from to slot absolute arg s :
  answers s = [] ->
  let j := the_patches (nextid s) (kmem s) from to slot absolute arg in
  build_patches from to slot absolute arg s =
    Ret j (set_ids (nextid s + Z.of_nat (length (patch_list j))) (freed s) s).
Proof.
  intros Ha. unfold build_patches, the_patches, patch_list, kbind at 1, kget.
  destruct (truth slot); [|destruct absolute];
    repeat (erewrite kbind_Ret by (apply patch_create_ok; exact Ha)); unfold kret, set_ids;
    simpl; f_equal; f_equal; lia.
Qed.

(** The values of the atomic stores are the same bytes. *)
Lemma value_s_stores m from arg :
  0 <= arg < 2 ^ 32 ->
  mem_eq (stn 8 m from (value_s m from SmallJumpPrefix arg))
         (stn 4 (stn 1 m from SmallJumpPrefix) (from + 1) arg).
Proof.
  intros Ha. unfold value_s. rewrite (stn_join 1 7); [|done].
  rewrite (stn_join 4 3) by (simpl; lia). replace (from + Z.of_nat 1 + Z.of_nat 4) with (from + 5) by lia.
  apply stn_same. intros x Hx. by rewrite !ldb_stn_out by lia.
Qed.

Lemma value_m_stores m m' from arg :
  0 <= arg < 2 ^ 32 -> (forall x, from + 6 <= x < from + 8 -> ldb m' x = ldb m x) ->
  mem_eq (stn 8 m' from (value_m m from LongJumpPrefix arg))
         (stn 4 (stn 2 m' from LongJumpPrefix) (from + 2) arg).
Proof.
  intros Ha Hm. unfold value_m. rewrite (stn_join 2 6); [|done].
  rewrite (stn_join 4 2) by (simpl; lia). replace (from + Z.of_nat 2 + Z.of_nat 4) with (from + 6) by lia.
  apply stn_same. intros x Hx. rewrite !ldb_stn_out by lia. apply Hm. lia.
Qed.

Lemma value_l_stores m from to :
  0 <= to < 2 ^ 64 ->
  mem_eq (stn 16 m from (value_l m from LongJumpPrefix 0 to))
         (stn 4 (stn 2 (stn 8 m (from + 6) to) from LongJumpPrefix) (from + 2) 0).
Proof.
  intros Ht. unfold value_l. rewrite (stn_join 2 14); [|done].
  rewrite (stn_join 4 10) by (simpl; lia). rewrite (stn_join 8 2) by (simpl; lia).
  replace (from + Z.of_nat 2 + Z.of_nat 4 + Z.of_nat 8) with (from + 14) by lia.
  rewrite stn_same by (intros x Hx; by rewrite !ldb_stn_out by lia).
  intros x. rewrite !ldb_stn. change (Z.of_nat 2) with 2. change (Z.of_nat 4) with 4. change (Z.of_nat 8) with 8.
  destruct (Z.leb_spec (from + 2 + 4) x), (Z.ltb_spec x (from + 2 + 4 + 8)), (Z.leb_spec (from + 2) x),
    (Z.ltb_spec x (from + 2 + 4)), (Z.leb_spec from x), (Z.ltb_spec x (from + 2)), (Z.leb_spec (from + 6) x),
    (Z.ltb_spec x (from + 6 + 8)); simpl; try lia; try done.
  do 3 f_equal. lia.
Qed.

Lemma truth_slot slot : truth slot = true -> slot <> 0.
Proof. unfold truth. by destruct (Z.eqb_spec slot 0). Qed.

(** Installing the patches gives the jump, whichever stores are used. *)
Lemma install_ok prot from to slot absolute arg id s :
  (prot = true -> wp (kcpu s) = false) -> jump_fits from to slot absolute arg ->
  exists m', install prot from slot absolute (the_patches id (kmem s) from to slot absolute arg) s =
      Ret tt (set_mem m' s) /\
    mem_eq m' (jump_mem (kmem s) from to slot absolute arg).
Proof.
  intros Hw (Hto & Hf & Hb & Hfit).
  assert (prot && wp (kcpu s) = false) as Hp by (destruct prot; [by rewrite Hw|done]).
  assert (forall n a v s0, kcpu s0 = kcpu s -> kstore prot n a v s0 = Ret tt (set_mem (stn n (kmem s0) a v) s0)) as Hst.
  { intros n a v s0 E. unfold kstore. by rewrite E, Hp. }
  unfold install, the_patches, jump_mem. pose proof (u32_range arg).
  pose proof (u32_range (slot - (from + MediumJump))).
  destruct (truth slot) eqn:Es; [|destruct absolute]; simpl.
  - unfold patch_patch. erewrite kbind_Ret by (apply Hst; reflexivity). destruct (from .& 7 =? 0).
    + rewrite Hst by done. eexists. split; [done|]. simpl. rewrite (Z.mod_small to) by (simpl; lia).
      apply value_m_stores; [lia|]. intros x Hx. rewrite ldb_stn_out by lia. done.
    + repeat (erewrite kbind_Ret by (apply Hst; reflexivity)). rewrite Hst by done. eexists. split; [done|]. simpl.
      rewrite (Z.mod_small to), (Z.mod_small (u32 _)) by (simpl; lia). reflexivity.
  - rewrite (kbind_Ret _ _ s tt s) by done. destruct (from .& 15 =? 0).
    + rewrite Hst by done. eexists. split; [done|]. by apply value_l_stores.
    + unfold patch_patch. repeat (erewrite kbind_Ret by (apply Hst; reflexivity)). rewrite Hst by done.
      eexists. split; [done|]. simpl. rewrite (Z.mod_small to) by (simpl; lia). reflexivity.
  - rewrite (kbind_Ret _ _ s tt s) by done. destruct (from .& 7 =? 0).
    + rewrite Hst by done. eexists. split; [done|]. apply value_s_stores. lia.
    + unfold patch_patch. repeat (erewrite kbind_Ret by (apply Hst; reflexivity)). rewrite Hst by done.
      eexists. split; [done|]. simpl. rewrite (Z.mod_small (u32 arg)) by (simpl; lia). reflexivity.
Qed.

(** ** The end of a route *)

Definition org_mem (m : mem) (org : option Z) (trampoline : Z) : mem :=
  match org with None => m | Some p => stn 8 m p trampoline end.

(** Calm: the lock is free and the environment obeys. *)
Definition quiet (s : kp) : Prop := locked (kcpu s) = false /\ answers s = [].

(** The processor is as before. *)
Definition same_cpu (s s' : kp) : Prop :=
  locked (kcpu s') = locked (kcpu s) /\ iflag (kcpu s') = iflag (kcpu s) /\ wp (kcpu s') = wp (kcpu s).

Lemma settled_quiet s s' : settled s s' -> quiet s -> quiet s' /\ same_cpu s s'.
Proof.
  intros (Hl & Hi & Hw & Hs) [Hl' Ha]. rewrite Ha in *. apply suffix_nil_inv in Hs.
  split; [done|]. unfold same_cpu. rewrite Hl, Hl'. split_and!; [done..|].
  destruct Hw as [|[_ Hn]]; [done|]. by apply elem_of_nil in Hn.
Qed.

Lemma same_cpu_trans s1 s2 s3 : same_cpu s1 s2 -> same_cpu s2 s3 -> same_cpu s1 s3.
Proof. intros (?&?&?) (?&?&?). unfold same_cpu. split_and!; congruence. Qed.

(** A section that writes: turning writing on, and then off from any state that
    differs in other things than the processor. *)
Lemma writing_section s :
  quiet s ->
  exists s1, setKernelWriting true s = Ret true s1 /\ wp (kcpu s1) = false /\ same_rest s s1 /\
    answers s1 = [] /\
    forall s2, kcpu s2 = kcpu s1 -> answers s2 = [] ->
      exists ok s3, setKernelWriting false s2 = Ret ok s3 /\ same_rest s2 s3 /\ quiet s3 /\ same_cpu s s3.
Proof.
  intros Hq. destruct Hq as [Hl Ha].
  destruct (setKernelWriting_on s Hl) as (ok & s1 & E1 & Hs1 & Hx & Ht & Hw). rewrite (Ht Ha) in *.
  rewrite Ha in Hx. apply suffix_nil_inv in Hx.
  exists s1. split_and!; try done; [apply Hw|]. intros s2 Hc Ha2.
  destruct (setKernelWriting_off s s2) as (ok2 & s3 & E2 & Hs2 & Hset);
    [by rewrite Hc|rewrite Ha2; apply suffix_nil|].
  destruct (settled_quiet _ _ Hset) as [Hq2 Hc2]; [done|]. by exists ok2, s3.
Qed.

Lemma kpatches_push_ok p s :
  answers s = [] -> kpatches_push (Some p) s = Ret true (set_kpatches (kpatches s ++ [p]) s).
Proof. intros Ha. unfold kpatches_push, kbind, ask. by rewrite Ha. Qed.

Lemma keep_patches_ok j s :
  answers s = [] -> is_none (jopcode j) = false -> is_none (jargument j) = false ->
  keep_patches j s = Ret true (set_kpatches (kpatches s ++ patch_list j) s).
Proof.
  intros Ha Ho Hg. destruct j as [[o|] [a|] di v]; try done. simpl in *. unfold keep_patches. simpl.
  rewrite (kbind_Ret _ _ _ _ _ (kpatches_push_ok o s Ha)).
  erewrite kbind_Ret by (by apply kpatches_push_ok). destruct di as [p|]; simpl.
  - erewrite kbind_Ret by (by apply kpatches_push_ok). simpl. unfold kret, set_kpatches, patch_list. simpl.
    by rewrite <- !app_assoc.
  - unfold kbind, kret. simpl. unfold set_kpatches, patch_list. simpl. by rewrite <- !app_assoc.
Qed.

Lemma the_patches_some id m from to slot absolute arg :
  let j := the_patches id m from to slot absolute arg in
  is_none (jopcode j) = false /\ is_none (jargument j) = false /\
  (absolute = true -> is_none (jdisp j) = false).
Proof. unfold the_patches. destruct (truth slot), absolute; done. Qed.

Lemma delete_patches_frame j s :
  delete_patches j s = Ret tt (set_ids (nextid s) (List.rev (map pid (patch_list j)) ++ freed s) s).
Proof. destruct s, j as [[o|] [a|] [p|] v]; reflexivity. Qed.

(** Allocations: what was freed was allocated before, and the patches kept for
    unloading are alive. *)
Definition live (s : kp) : Prop :=
  (forall f, f ∈ freed s -> f < nextid s) /\
  (forall p, p ∈ kpatches s -> pid p < nextid s /\ pid p ∉ freed s).

Lemma the_patches_ids id m from to slot absolute arg p :
  p ∈ patch_list (the_patches id m from to slot absolute arg) ->
  id <= pid p < id + Z.of_nat (length (patch_list (the_patches id m from to slot absolute arg))).
Proof.
  unfold the_patches, patch_list. destruct (truth slot), absolute; simpl; rewrite ?elem_of_cons, ?elem_of_nil;
    intros Hp; repeat (destruct Hp as [->|Hp]; [simpl; lia|]); done.
Qed.

(** The patches of a route are either kept or deleted, all of them. *)
Lemma live_kept s s' n l :
  live s -> nextid s' = nextid s + n -> 0 <= n ->
  (forall p, p ∈ l -> nextid s <= pid p < nextid s + n) ->
  kpatches s' = kpatches s ++ l -> freed s' = freed s -> live s'.
Proof.
  intros [Hf Hk] Hn H0 Hl Hk' Hf'. split.
  - intros f. rewrite Hf'. intros ?%Hf. lia.
  - intros p. rewrite Hk', Hf', elem_of_app. intros [Hp|Hp].
    + destruct (Hk p Hp). split; [lia|done].
    + destruct (Hl p Hp). split; [lia|]. intros ?%Hf. lia.
Qed.

Lemma live_deleted s s' n l :
  live s -> nextid s' = nextid s + n -> 0 <= n ->
  (forall p, p ∈ l -> nextid s <= pid p < nextid s + n) ->
  kpatches s' = kpatches s -> freed s' = List.rev (map pid l) ++ freed s -> live s'.
Proof.
  intros [Hf Hk] Hn H0 Hl Hk' Hf'.
  assert (forall f, f ∈ List.rev (map pid l) -> nextid s <= f < nextid s + n) as Hr.
  { intros f. rewrite list_elem_of_In, <- in_rev, in_map_iff. intros (p & <- & Hp%list_elem_of_In). by apply Hl. }
  split.
  - intros f. rewrite Hf', elem_of_app. intros [?%Hr|?%Hf]; lia.
  - intros p. rewrite Hk', Hf', elem_of_app. intros Hp. destruct (Hk p Hp) as [? Hn'].
    split; [lia|]. intros [?%Hr|?]; [lia|done].
Qed.

(** What a route leaves alone. *)
Definition route_frame (s s' : kp) : Prop :=
  quiet s' /\ same_cpu s s' /\ code s' = code s /\ slots s' = slots s /\
  tempExecutableMemoryOff s' = tempExecutableMemoryOff s.

Lemma route_frame_refl s : quiet s -> route_frame s s.
Proof. intros. by split_and!. Qed.

Lemma write_org_ok org t s :
  write_org org t s = Ret tt (set_mem (org_mem (kmem s) org t) s).
Proof. destruct org; [done|]. simpl. by destruct s. Qed.

Lemma route_finish_ok from to absolute kr arg org tramp slot rev s :
  quiet s -> jump_fits from to slot absolute arg ->
  let m := org_mem (kmem s) org tramp in
  exists s', route_finish from to absolute kr arg org tramp slot rev s = Ret tramp s' /\
    mem_eq (kmem s') (jump_mem m from to slot absolute arg) /\ route_frame s s' /\
    kpatches s' = kpatches s ++ (if kr && rev
      then patch_list (the_patches (nextid s) m from to slot absolute arg) else []) /\
    (live s -> live s').
Proof.
  intros Hq Hfit m. unfold route_finish. rewrite (kbind_Ret _ _ _ _ _ (write_org_ok org tramp s)).
  fold m. set (s0 := set_mem m s). assert (quiet s0) as Hq0 by exact Hq.
  pose proof (build_patches_ok from to slot absolute arg s0 (proj2 Hq0)) as Eb. simpl in Eb.
  rewrite (kbind_Ret _ _ _ _ _ Eb). clear Eb.
  change (nextid s0) with (nextid s) in *. change (kmem s0) with m in *.
  set (j := the_patches (nextid s) m from to slot absolute arg) in *.
  destruct (the_patches_some (nextid s) m from to slot absolute arg) as (Ho & Ha & Hd). fold j in Ho, Ha, Hd.
  assert (is_none (jopcode j) || is_none (jargument j) || (absolute && is_none (jdisp j)) = false) as ->.
  { rewrite Ho, Ha. destruct absolute; [by rewrite Hd|done]. }
  set (s1 := set_ids _ _ _). assert (quiet s1) as Hq1 by exact Hq.
  destruct kr; simpl andb.
  - destruct (writing_section s1 Hq1) as (s2 & E2 & Hw2 & Hr2 & Ha2 & Hoff).
    rewrite (kbind_Ret _ _ _ _ _ E2). cbn [negb].
    destruct Hr2 as (Hm2 & Hc2 & Ht2 & Hk2 & Hs2 & Hn2 & Hf2). change (kmem s1) with m in Hm2.
    destruct (install_ok true from to slot absolute arg (nextid s) s2) as (m' & Ei & Hm'); [done|done|].
    rewrite Hm2 in Ei, Hm'. fold j in Ei. rewrite (kbind_Ret _ _ _ _ _ Ei).
    destruct (Hoff (set_mem m' s2)) as (ok & s3 & E3 & Hr3 & Hq3 & Hc3); [done..|].
    destruct Hr3 as (Hm3 & Hc3' & Ht3 & Hk3 & Hs3 & Hn3 & Hf3). simpl in *.
    assert (forall p, p ∈ patch_list j ->
      nextid s <= pid p < nextid s + Z.of_nat (length (patch_list j))) as Hids by apply the_patches_ids.
    destruct rev.
    + rewrite (kbind_Ret _ _ _ true (set_kpatches (kpatches s3 ++ patch_list j) s3)).
      * eexists. split; [done|]. simpl. split_and!; [by rewrite Hm3| |by rewrite Hk3, Hk2|].
        -- unfold route_frame. simpl. split_and!; try done; try congruence.
        -- intros Hlive. eapply (live_kept s _ (Z.of_nat (length (patch_list j))) (patch_list j));
             [done| |lia|done|simpl; congruence|simpl; congruence].
           simpl. by rewrite Hn3, Hn2.
      * rewrite (kbind_Ret _ _ _ _ _ E3). by apply keep_patches_ok; [apply Hq3|..].
    + rewrite (kbind_Ret _ _ _ false s3) by (rewrite (kbind_Ret _ _ _ _ _ E3); done).
      rewrite (kbind_Ret _ _ _ _ _ (delete_patches_frame j s3)).
      eexists. split; [done|]. simpl. split_and!; [by rewrite Hm3| |by rewrite Hk3, Hk2, app_nil_r|].
      * unfold route_frame. simpl. split_and!; try done; try congruence.
      * intros Hlive. eapply (live_deleted s _ (Z.of_nat (length (patch_list j))) (patch_list j));
          [done| |lia|done|simpl; congruence|simpl; congruence]. simpl. by rewrite Hn3, Hn2.
  - rewrite (kbind_Ret _ _ s1 true s1) by done. cbn [negb].
    destruct (install_ok false from to slot absolute arg (nextid s) s1) as (m' & Ei & Hm'); [done|done|].
    fold j in Ei. change (kmem s1) with m in Ei, Hm'. fold j in Ei.
    rewrite (kbind_Ret _ _ _ _ _ Ei). rewrite (kbind_Ret _ _ _ false (set_mem m' s1)) by done.
    rewrite (kbind_Ret _ _ _ _ _ (delete_patches_frame j (set_mem m' s1))).
    eexists. split; [done|]. simpl. split_and!; [done| |by rewrite app_nil_r|].
    + unfold route_frame. simpl. by split_and!.
    + intros Hlive. eapply (live_deleted s _ (Z.of_nat (length (patch_list j))) (patch_list j)); [done|done|lia| |done|done].
      apply the_patches_ids.
Qed.

(** ** Choosing the jump *)

Definition route_diff (from to : Z) : Z := u64 (to - (from + SmallJump)).
Definition route_arg (from to : Z) : Z := sext 32 (route_diff from to).
Definition route_absolute (jt : JumpType) (from to : Z) : bool :=
  bool_decide (jt = Long) || negb (route_diff from to =? u64 (route_arg from to)).

Lemma jump_fits_direct jt from to :
  0 <= to < 2 ^ 64 -> 0 <= from -> from + 16 < 2 ^ 64 ->
  jump_fits from to 0 (route_absolute jt from to) (route_arg from to).
Proof.
  intros Hto Hf Hb. split_and!; [lia..|]. change (truth 0) with false. cbv iota.
  destruct (route_absolute jt from to) eqn:E; [by left|right].
  apply orb_false_iff in E as [_ E]. apply negb_false_iff, Z.eqb_eq in E.
  split; [exact (sext_range 32 (route_diff from to) ltac:(lia))|]. symmetry.
  rewrite <- wrap_add_r, <- E by lia. unfold route_diff, SmallJump. rewrite wrap_add_r by lia.
  replace (from + 5 + (to - (from + (1 + 4)))) with to by lia. by apply wrap_small.
Qed.

Lemma readChain_jmp m a : (readChain m a).1 = default 0 (jmp_dest m a).
Proof.
  unfold readChain, jmp_dest, SmallJumpPrefix, LongJumpPrefix, MediumJump, SmallJump.
  assert ((ld16 m a =? 0x25FF) = (ldb m a =? 0xFF) && (ldb m (a + 1) =? 0x25)) as ->.
  { unfold ld16, ldn. pose proof (ldb_range m a). pose proof (ldb_range m (a + 1)).
    destruct (Z.eqb_spec (ldb m a) 0xFF), (Z.eqb_spec (ldb m (a + 1)) 0x25),
      (Z.eqb_spec (ldb m a + 256 * (ldb m (a + 1) + 256 * 0)) 0x25FF); simpl; lia || done. }
  destruct (Z.eqb_spec (ldb m a) 0xFF) as [E|E]; simpl; [|by destruct (ldb m a =? 0xE9)].
  rewrite E. simpl. by destruct (ldb m (a + 1) =? 0x25).
Qed.

Lemma readChain_zero m a : ldb m a = 0 -> (readChain m a).1 = 0.
Proof. intros E. rewrite readChain_jmp. unfold jmp_dest. by rewrite E. Qed.

(** A route without a wrapper of a function that is not routed yet. *)
Lemma route_plain mk from to kr rev jt info org s :
  (readChain (kmem s) from).1 = 0 ->
  bool_decide (jt = Short) && route_absolute jt from to = false ->
  routeFunction_with mk from to false kr rev jt info org s =
  route_finish from to (route_absolute jt from to) kr (route_arg from to) org 0 0 rev s.
Proof.
  intros Hr Hj. unfold routeFunction_with. fold (route_diff from to). fold (route_arg from to).
  fold (route_absolute jt from to). rewrite Hj. unfold kbind at 1, route_setup, kbind at 1, kget at 1.
  destruct (readChain (kmem s) from) as [t p]. simpl in Hr. subst t. done.
Qed.

(** ** Trampolines *)

Section trampoline.
Context (d : hde_disasm_t) {Hd : LengthDisasm d} (T : Z) (HT : 0 < T) (HT' : T + 8192 < 2 ^ 64).

(** The part of the trampoline memory that is not in use yet is blank. *)
Definition blank_temp (s : kp) : Prop :=
  0 <= tempExecutableMemoryOff s /\
  forall x, T + tempExecutableMemoryOff s <= x < T + TempExecutableMemorySize + 16 -> ldb (kmem s) x = 0.

Definition apart (a n b k : Z) : Prop := a + n <= b \/ b + k <= a.

Lemma createTrampoline_ok func min opcodes off s :
  quiet s -> blank_temp s ->
  quickInstructionSize d (kmem s) func min = Ok off -> 0 < off <= PAGE_SIZE - LongJump ->
  let base := T + tempExecutableMemoryOff s in
  let opnum := Z.of_nat (length opcodes) in
  tempExecutableMemoryOff s + off + LongJump + opnum < TempExecutableMemorySize ->
  0 <= func -> func + off < 2 ^ 64 -> apart func off T TempExecutableMemorySize ->
  exists s', createTrampoline d T func min opcodes s = Ret base s' /\
    (forall i x, opcodes !! i = Some x -> ldb (kmem s') (base + Z.of_nat i) = u8 x) /\
    (forall i, 0 <= i < off -> ldb (kmem s') (base + opnum + i) = ldb (kmem s) (func + i)) /\
    (forall m, (forall x, base + opnum + off <= x < base + opnum + off + LongJump -> ldb m x = ldb (kmem s') x) ->
       jmp_dest m (base + opnum + off) = Some (func + off)) /\
    (forall x, ~ (base <= x < base + opnum + off + LongJump) -> ldb (kmem s') x = ldb (kmem s) x) /\
    quiet s' /\ same_cpu s s' /\ code s' = NoError /\ slots s' = slots s /\
    kpatches s' = kpatches s /\
    tempExecutableMemoryOff s' = tempExecutableMemoryOff s + off + LongJump + opnum /\
    (live s -> live s').
Proof using HT HT'.
  intros Hq [Hto Hblank] Ho Hoff base opnum Hroom Hf Hf' Hap. unfold LongJump, PAGE_SIZE, TempExecutableMemorySize, apart in *.
  unfold createTrampoline.
  destruct (writing_section s Hq) as (s1 & E1 & Hw1 & Hr1 & Ha1 & Hoff1).
  rewrite (kbind_Ret _ _ _ _ _ E1). cbn [negb].
  destruct Hr1 as (Hm1 & Hc1 & Ht1 & Hk1 & Hs1 & Hn1 & Hf1).
  unfold kbind at 1, kget at 1. rewrite Hm1, Ho.
  destruct (Z.eqb_spec off 0); [lia|]. unfold PAGE_SIZE, LongJump. destruct (Z.ltb_spec (4096 - (6 + 8)) off); [lia|].
  cbn [orb]. unfold kbind at 1, kget at 1. rewrite Ht1. fold opnum base.
  rewrite (wrap_small 64) by lia.
  erewrite kbind_Ret by reflexivity. unfold TempExecutableMemorySize.
  destruct (Z.leb_spec 4096 (tempExecutableMemoryOff s + off + (6 + 8) + opnum)); [lia|].
  erewrite kbind_Ret by (unfold kcopy; simpl; rewrite Hw1; reflexivity).
  unfold kbind at 1, kget at 1. simpl kmem.
  erewrite kbind_Ret by (unfold kcopy; simpl; rewrite Hw1; reflexivity).
  set (s2 := set_mem _ _).
  destruct (Hoff1 s2) as (ok & s3 & E3 & Hr3 & Hq3 & Hcp3); [done|done|].
  rewrite (kbind_Ret _ _ _ _ _ E3). erewrite kbind_Ret by reflexivity.
  destruct Hr3 as (Hm3 & Hc3 & Ht3 & Hk3 & Hs3 & Hn3 & Hf3). simpl in *.
  set (m2 := write_list (write_list (kmem s1) base opcodes) (base + opnum)
               (bytes (write_list (kmem s1) base opcodes) func (Z.to_nat off))) in *.
  set (s4 := set_code NoError s3). assert (quiet s4) as Hq4 by exact Hq3.
  assert (forall x, ~ (base <= x < base + opnum + off) -> ldb m2 x = ldb (kmem s) x) as Hout.
  { intros x Hx. unfold m2, ldb. rewrite !write_list_other; [by rewrite Hm1|lia|]. rewrite bytes_length. lia. }
  assert (forall i, 0 <= i < off -> ldb m2 (base + opnum + i) = ldb (kmem s) (func + i)) as Hpro.
  { intros i Hi. unfold m2. rewrite ldb_write_list. destruct (Z.leb_spec (base + opnum) (base + opnum + i)); [|lia].
    rewrite bytes_lookup by lia. unfold ldb. rewrite wrap_wrap by lia.
    replace (func + Z.of_nat (Z.to_nat (base + opnum + i - (base + opnum)))) with (func + i) by lia.
    rewrite write_list_other by (fold opnum; lia). by rewrite Hm1. }
  assert (forall i x, opcodes !! i = Some x -> ldb m2 (base + Z.of_nat i) = u8 x) as Hopc.
  { intros i x Hx. apply lookup_lt_Some in Hx as Hlt. unfold m2, ldb.
    rewrite (write_list_other (write_list _ _ _)) by lia. rewrite (write_list_same _ _ _ _ _ Hx). by apply wrap_wrap. }
  assert ((readChain (kmem s4) (base + opnum + off)).1 = 0) as Hrc.
  { apply readChain_zero. simpl. rewrite Hm3, Hout by lia. apply Hblank. lia. }
  destruct (route_finish_ok (base + opnum + off) (func + off) (route_absolute Auto (base + opnum + off) (func + off))
    true (route_arg (base + opnum + off) (func + off)) None 0 0 false s4) as (s5 & E5 & Hm5 & Hfr & Hk5 & Hlv5);
    [done|apply jump_fits_direct; lia|].
  erewrite kbind_Ret by (rewrite route_plain by done; exact E5).
  destruct Hfr as (Hq5 & Hcp5 & Hc5 & Hs5 & Ht5). simpl in *.
  unfold kbind at 1, getError, kget at 1. rewrite decide_True by done.
  exists s5. split; [done|]. rewrite Hm3 in Hm5. rewrite app_nil_r in Hk5.
  pose proof (jump_mem_other m2 (base + opnum + off) (func + off) 0
    (route_absolute Auto (base + opnum + off) (func + off)) (route_arg (base + opnum + off) (func + off))) as Hjo.
  assert (jump_size 0 (route_absolute Auto (base + opnum + off) (func + off)) <= 14) as Hjs.
  { unfold jump_size. simpl. by destruct (route_absolute _ _ _). }
  split_and!; try done; try congruence.
  - intros i x Hx. apply lookup_lt_Some in Hx as Hlt. rewrite Hm5, Hjo by (done || lia). by apply Hopc.
  - intros i Hi. rewrite Hm5, Hjo by (done || lia). by apply Hpro.
  - intros m Hm. eapply (jump_mem_stable m2); [apply jump_fits_direct; lia|].
    intros x Hx. rewrite Hm by (destruct Hx as [|[? _]]; done). apply Hm5.
  - intros x Hx. rewrite Hm5, Hjo by (done || lia). apply Hout. lia.
  - by eapply same_cpu_trans.
  - intros Hlv. apply Hlv5. unfold live in *. simpl. rewrite Hf3, Hn3, Hk3, Hf1, Hn1, Hk1. exact Hlv.
Qed.

(** ** Wrapping a function *)

(** The slot a route takes. *)
Definition slot_of (s : kp) (info : option nat) (absolute : bool) (jt : JumpType) : Z :=
  match info with
  | Some i =>
      if absolute && (bool_decide (jt = Auto) || bool_decide (jt = Long)) then
        match slots s !! i with
        | Some (cur, fin) => if truth cur && (u64 (cur + 8) <=? fin) then cur else 0
        | None => 0
        end
      else 0
  | None => 0
  end.

(** How the pieces of memory lie: function, trampolines, slot, [org]. *)
Definition placed (from to slot : Z) (org : option Z) : Prop :=
  0 <= to < 2 ^ 64 /\ 0 <= from /\ from + 32 < 2 ^ 64 /\ apart from 32 T (TempExecutableMemorySize + 16) /\
  (truth slot = true -> 0 <= slot < 2 ^ 64 - 8 /\ - 2 ^ 31 <= slot - (from + 6) < 2 ^ 31 /\
     apart slot 8 from 32 /\ apart slot 8 T (TempExecutableMemorySize + 16)) /\
  (forall p, org = Some p -> apart p 8 from 32 /\ apart p 8 T (TempExecutableMemorySize + 16) /\
     (truth slot = true -> apart p 8 slot 8)).

Lemma take_slot s info absolute jt :
  (forall i, info = Some i -> (i < length (slots s))%nat) ->
  exists l, (match info with
   | Some i => if absolute && (bool_decide (jt = Auto) || bool_decide (jt = Long))
               then getAddressSlot i else kret 0
   | None => kret 0
   end) s = Ret (slot_of s info absolute jt) (set_slots l s).
Proof using Type.
  intros Hi. unfold slot_of. destruct info as [i|]; [|by exists (slots s); destruct s].
  destruct (absolute && _); [|by exists (slots s); destruct s].
  destruct (lookup_lt_is_Some_2 (slots s) i (Hi i eq_refl)) as [[cur fin] E].
  unfold getAddressSlot. rewrite E. destruct (truth cur && _); [by eexists|].
  exists (slots s). by destruct s.
Qed.

Lemma placed_fits from to slot org jt :
  placed from to slot org ->
  jump_fits from to slot (route_absolute jt from to) (route_arg from to).
Proof using Type.
  intros (Hto & Hf & Hf' & _ & Hs & _). destruct (truth slot) eqn:Es.
  - destruct (Hs eq_refl) as (? & ? & [?|?] & _); unfold jump_fits; rewrite Es; split_and!; lia.
  - unfold truth in Es. apply negb_false_iff, Z.eqb_eq in Es as ->. apply jump_fits_direct; lia.
Qed.

Lemma jump_size_bounds slot absolute : 5 <= jump_size slot absolute <= 14.
Proof using Type. unfold jump_size, MediumJump, LongJump, SmallJump. destruct (truth slot), absolute; lia. Qed.

(** The choice and the trampoline of a wrapped route. *)
Lemma route_setup_wrap from to rev jt info org off s :
  let absolute := route_absolute jt from to in
  let slot := slot_of s info absolute jt in
  let base := T + tempExecutableMemoryOff s in
  quiet s -> blank_temp s -> (readChain (kmem s) from).1 = 0 ->
  (forall i, info = Some i -> (i < length (slots s))%nat) -> placed from to slot org ->
  quickInstructionSize d (kmem s) from (jump_size slot absolute) = Ok off -> 0 < off <= 28 ->
  tempExecutableMemoryOff s + off + LongJump < TempExecutableMemorySize ->
  exists s', route_setup (fun func min => createTrampoline d T func min []) from absolute true rev jt info s =
      Ret (Some (base, slot, rev)) s' /\
    (forall i, 0 <= i < off -> ldb (kmem s') (base + i) = ldb (kmem s) (from + i)) /\
    (forall m, (forall x, base + off <= x < base + off + LongJump -> ldb m x = ldb (kmem s') x) ->
       jmp_dest m (base + off) = Some (from + off)) /\
    (forall x, ~ (base <= x < base + off + LongJump) -> ldb (kmem s') x = ldb (kmem s) x) /\
    quiet s' /\ same_cpu s s' /\ kpatches s' = kpatches s /\
    tempExecutableMemoryOff s' = tempExecutableMemoryOff s + off + LongJump /\ (live s -> live s').
Proof using HT HT'.
  intros absolute slot base Hq Hbl Hr Hi Hpl Ho Hoff Hroom. unfold route_setup, kbind at 1, kget at 1.
  destruct (readChain (kmem s) from) as [t p]. simpl in Hr. subst t. change (truth 0) with false. cbv iota.
  destruct (take_slot s info absolute jt Hi) as (l & El). rewrite (kbind_Ret _ _ _ _ _ El). fold slot.
  set (s1 := set_slots l s).
  replace (if absolute then if truth slot then MediumJump else LongJump else SmallJump)
    with (jump_size slot absolute).
  2: { unfold jump_size, slot, slot_of. destruct absolute; [done|]. by destruct info. }
  destruct Hpl as (Hto & Hf & Hf' & Hap & _). unfold apart, TempExecutableMemorySize, LongJump in *.
  destruct (createTrampoline_ok from (jump_size slot absolute) [] off s1) as
    (s' & E & _ & Hpro & Hj & Hout & Hq' & Hc' & _ & _ & Hk & Htoff & Hlv);
    try done; unfold apart, PAGE_SIZE, TempExecutableMemorySize, LongJump; simpl; try lia.
  rewrite (kbind_Ret _ _ _ _ _ E). fold base.
  change (T + tempExecutableMemoryOff s1) with base in *.
  destruct (Z.eqb_spec base 0); [destruct Hbl; lia|]. simpl in *. rewrite Z.add_0_r in *.
  exists s'. by split_and!.
Qed.

Lemma route_wrap from to kr rev jt info org off s :
  let absolute := route_absolute jt from to in
  let slot := slot_of s info absolute jt in
  let base := T + tempExecutableMemoryOff s in
  quiet s -> blank_temp s -> (readChain (kmem s) from).1 = 0 ->
  bool_decide (jt = Short) && absolute = false ->
  (forall i, info = Some i -> (i < length (slots s))%nat) -> placed from to slot org ->
  quickInstructionSize d (kmem s) from (jump_size slot absolute) = Ok off -> 0 < off <= 28 ->
  tempExecutableMemoryOff s + off + LongJump < TempExecutableMemorySize ->
  jump_size slot absolute <= off ->
  exists s', routeFunctionInternal d T from to true kr rev jt info org s = Ret base s' /\
    (forall m, (forall x, from <= x < from + LongJump \/ (truth slot = true /\ slot <= x < slot + 8) ->
        ldb m x = ldb (kmem s') x) -> jmp_dest m from = Some to) /\
    (forall i, 0 <= i < off -> ldb (kmem s') (base + i) = ldb (kmem s) (from + i)) /\
    (forall m, (forall x, base + off <= x < base + off + LongJump -> ldb m x = ldb (kmem s') x) ->
       jmp_dest m (base + off) = Some (from + off)) /\
    (forall p, org = Some p -> ld64 (kmem s') p = base) /\
    (forall x, ~ (from <= x < from + jump_size slot absolute) -> ~ (base <= x < base + off + LongJump) ->
       (truth slot = true -> ~ (slot <= x < slot + 8)) ->
       (forall p, org = Some p -> ~ (p <= x < p + 8)) -> ldb (kmem s') x = ldb (kmem s) x) /\
    quiet s' /\ same_cpu s s' /\ (live s -> live s') /\
    tempExecutableMemoryOff s' = tempExecutableMemoryOff s + off + LongJump /\
    exists id m, kpatches s' = kpatches s ++ (if kr && rev
        then patch_list (the_patches id m from to slot absolute (route_arg from to)) else []) /\
      (forall x, (from <= x < from + 32 \/ (truth slot = true /\ slot <= x < slot + 8)) ->
         ldb m x = ldb (kmem s) x).
Proof using HT HT'.
  intros absolute slot base Hq Hbl Hr Hj Hi Hpl Ho Hoff Hroom Hle.
  destruct (route_setup_wrap from to rev jt info org off s) as (s1 & E1 & Hpro & Hjt & Hout & Hq1 & Hc1 & Hkp & Htoff & Hlv);
    try done. fold absolute slot base in E1, Hpro, Hjt, Hout.
  destruct (route_finish_ok from to absolute kr (route_arg from to) org base slot rev s1) as
    (s2 & E2 & Hm2 & Hfr & Hk2 & Hlv2); [done|by eapply placed_fits|].
  exists s2. split.
  { unfold routeFunctionInternal, routeFunction_with. fold (route_diff from to) (route_arg from to).
    fold (route_absolute jt from to). fold absolute. rewrite Hj. rewrite (kbind_Ret _ _ _ _ _ E1). exact E2. }
  pose proof (placed_fits _ _ _ _ jt Hpl) as Hfits.
  destruct Hpl as (Hto & Hf & Hf' & Hap & Hs & Horg). destruct Hbl as [Hto0 _].
  unfold apart, TempExecutableMemorySize, LongJump in *. pose proof (jump_size_bounds slot absolute) as Hjs.
  assert (forall x, ~ (from <= x < from + jump_size slot absolute) ->
    (truth slot = true -> ~ (slot <= x < slot + 8)) -> (forall p, org = Some p -> ~ (p <= x < p + 8)) ->
    ldb (kmem s2) x = ldb (kmem s1) x) as Hsame.
  { intros x Hx Hsx Hox. rewrite Hm2, jump_mem_other by done. destruct org as [p|]; simpl; [|done].
    rewrite ldb_stn_out; [done|]. specialize (Hox p eq_refl). lia. }
  assert (forall x, T <= x < T + 4096 + 16 -> ldb (kmem s2) x = ldb (kmem s1) x) as Htemp.
  { intros x Hx. apply Hsame; [lia|..].
    - intros Es. destruct (Hs Es) as (_ & _ & _ & ?). lia.
    - intros p Ep. destruct (Horg p Ep) as (_ & ? & _). lia. }
  split_and!.
  - intros m Hm. eapply jump_mem_stable; [done|]. intros x Hx. rewrite Hm by done. apply Hm2.
  - intros i Hii. rewrite Htemp by lia. by apply Hpro.
  - intros m Hm. apply Hjt. intros x Hx. rewrite Hm by lia. apply Htemp. lia.
  - intros p Ep. subst org. destruct (Horg p eq_refl) as (? & ? & Hps).
    unfold ld64. rewrite (ldn_proper 8 _ _ Hm2 p p eq_refl).
    rewrite (ldn_ldb_ext 8 (org_mem (kmem s1) (Some p) base)).
    + simpl. rewrite ldn_stn_same. apply Z.mod_small. simpl. lia.
    + intros x Hx. apply jump_mem_other; [lia|]. intros Es. specialize (Hps Es). lia.
  - intros x Hx Ht Hsx Hox. rewrite Hsame by done. apply Hout. lia.
  - apply Hfr.
  - eapply same_cpu_trans; [done|apply Hfr].
  - auto.
  - by rewrite (proj2 (proj2 (proj2 (proj2 Hfr)))).
  - eexists _, _. rewrite Hk2, Hkp. split; [done|]. intros x Hx.
    assert (ldb (org_mem (kmem s1) org base) x = ldb (kmem s1) x) as ->.
    { destruct org as [p|]; [|done]. simpl. destruct (Horg p eq_refl) as (? & _ & Hps).
      apply ldb_stn_out. destruct Hx as [|[Es ?]]; [|specialize (Hps Es)]; lia. }
    apply Hout. destruct Hx as [|[Es ?]]; [lia|]. destruct (Hs Es) as (_ & _ & _ & ?). lia.
Qed.
End trampoline.

(** ** Unloading *)

Definition restore_mem (l : list Patch) (m : mem) : mem :=
  foldl (fun m p => stn (pn p) m (paddr p) (porig p)) m l.

Lemma restore_mem_cons p l m :
  restore_mem (p :: l) m = restore_mem l (stn (pn p) m (paddr p) (porig p)).
Proof. done. Qed.

Definition covered (p : Patch) (x : Z) : Prop := paddr p <= x < paddr p + Z.of_nat (pn p).

Lemma restore_all_ok l s :
  wp (kcpu s) = false -> (forall p, p ∈ l -> pid p ∉ freed s) ->
  restore_all l s = Ret tt (set_mem (restore_mem l (kmem s)) s).
Proof.
  revert s. induction l as [|p l IH]; intros s Hw Hl; cbn [restore_all]; [by destruct s|].
  erewrite kbind_Ret.
  2: { unfold patch_restore, kbind, kget. rewrite decide_False by (apply Hl; set_solver).
       unfold kstore. rewrite Hw. reflexivity. }
  rewrite IH; [done|done|]. intros q Hq. apply Hl. set_solver.
Qed.

Lemma restore_mem_out l m x :
  (forall p, p ∈ l -> ~ covered p x) -> ldb (restore_mem l m) x = ldb m x.
Proof.
  revert m. induction l as [|p l IH]; intros m Hl; [done|].
  rewrite ?restore_mem_cons. rewrite IH by (intros q Hq; apply Hl; set_solver).
  apply ldb_stn_out. specialize (Hl p ltac:(set_solver)). unfold covered in Hl. lia.
Qed.

Lemma restore_mem_ext l m m' x : ldb m x = ldb m' x -> ldb (restore_mem l m) x = ldb (restore_mem l m') x.
Proof.
  revert m m'. induction l as [|p l IH]; intros m m' E; [done|]. rewrite ?restore_mem_cons. apply IH. rewrite !ldb_stn. by rewrite E.
Qed.

(** Patches whose originals were read in [m] restore [m] where they lie. *)
Lemma restore_mem_in l m m0 x :
  (forall p, p ∈ l -> porig p = ldn (pn p) m (paddr p)) ->
  (exists p, p ∈ l /\ covered p x) \/ ldb m0 x = ldb m x ->
  ldb (restore_mem l m0) x = ldb m x.
Proof.
  revert m0. induction l as [|p l IH]; intros m0 Ho Hx.
  { destruct Hx as [(p & Hp & _)|]; [by apply elem_of_nil in Hp|done]. }
  rewrite ?restore_mem_cons. apply IH; [intros q Hq; apply Ho; set_solver|].
  rewrite (Ho p) by set_solver. rewrite ldb_stn.
  destruct (Z.leb_spec (paddr p) x), (Z.ltb_spec x (paddr p + Z.of_nat (pn p))); simpl.
  { right. rewrite ldn_byte by lia. f_equal. lia. }
  all: destruct Hx as [(q & Hq & Hc)|Hx]; [left; exists q; split; [|done]|by right];
    apply elem_of_cons in Hq as [->|Hq]; [unfold covered in Hc; lia|done].
Qed.

Lemma kp_deinit_ok s :
  quiet s -> live s ->
  exists s', kp_deinit s = Ret tt s' /\ kmem s' = restore_mem (kpatches s) (kmem s) /\
    quiet s' /\ same_cpu s s' /\ kpatches s' = [].
Proof.
  intros Hq [_ Hl]. unfold kp_deinit.
  destruct (writing_section s Hq) as (s1 & E1 & Hw1 & (Hm1 & _ & _ & Hk1 & _ & _ & Hf1) & Ha1 & Hoff).
  rewrite (kbind_Ret _ _ _ _ _ E1).
  destruct (Hoff (set_mem (restore_mem (kpatches s1) (kmem s1)) s1)) as (ok & s3 & E3 & Hr3 & Hq3 & Hc3); [done..|].
  erewrite kbind_Ret.
  2: { unfold kbind at 1, kget at 1. erewrite kbind_Ret.
       2: { apply restore_all_ok; [done|]. intros p. rewrite Hk1, Hf1. intros Hp. by apply Hl. }
       erewrite kbind_Ret by exact E3. reflexivity. }
  eexists. split; [reflexivity|]. simpl. destruct Hr3 as (Hm3 & _). simpl in Hm3.
  split_and!; try done. by rewrite Hm3, Hk1, Hm1.
Qed.

Lemma the_patches_original id m from to slot absolute arg p :
  p ∈ patch_list (the_patches id m from to slot absolute arg) -> porig p = ldn (pn p) m (paddr p).
Proof.
  unfold the_patches, patch_list. destruct (truth slot), absolute; simpl; rewrite ?elem_of_cons, ?elem_of_nil;
    intros Hp; repeat (destruct Hp as [->|Hp]; [reflexivity|]); done.
Qed.

Lemma the_patches_cover id m from to slot absolute arg x :
  from <= x < from + jump_size slot absolute \/ (truth slot = true /\ slot <= x < slot + 8) ->
  exists p, p ∈ patch_list (the_patches id m from to slot absolute arg) /\ covered p x.
Proof.
  unfold the_patches, patch_list, jump_size, covered, MediumJump, LongJump, SmallJump.
  assert (forall (l : list Patch) p, p ∈ l -> covered p x -> exists p, p ∈ l /\ covered p x) as Hex by eauto.
  destruct (truth slot); [|destruct absolute]; simpl; intros Hx.
  - destruct (decide (from <= x < from + 2)); [|destruct (decide (from + 2 <= x < from + 6))];
      [eapply Hex; [apply list_elem_of_here|unfold covered; simpl; lia]
      |eapply Hex; [apply list_elem_of_further, list_elem_of_here|unfold covered; simpl; lia]
      |eapply Hex; [do 2 apply list_elem_of_further; apply list_elem_of_here|unfold covered; simpl; lia]].
  - destruct Hx as [Hx|[? _]]; [|done].
    destruct (decide (from <= x < from + 2)); [|destruct (decide (from + 2 <= x < from + 6))];
      [eapply Hex; [apply list_elem_of_here|unfold covered; simpl; lia]
      |eapply Hex; [apply list_elem_of_further, list_elem_of_here|unfold covered; simpl; lia]
      |eapply Hex; [do 2 apply list_elem_of_further; apply list_elem_of_here|unfold covered; simpl; lia]].
  - destruct Hx as [Hx|[? _]]; [|done].
    destruct (decide (from <= x < from + 1));
      [eapply Hex; [apply list_elem_of_here|unfold covered; simpl; lia]
      |eapply Hex; [apply list_elem_of_further, list_elem_of_here|unfold covered; simpl; lia]].
Qed.

Lemma the_patches_within id m from to slot absolute arg p x :
  p ∈ patch_list (the_patches id m from to slot absolute arg) -> covered p x ->
  from <= x < from + jump_size slot absolute \/ (truth slot = true /\ slot <= x < slot + 8).
Proof.
  unfold the_patches, patch_list, jump_size, covered, MediumJump, LongJump, SmallJump.
  destruct (truth slot), absolute; simpl; rewrite ?elem_of_cons, ?elem_of_nil;
    intros Hp Hc; repeat (destruct Hp as [->|Hp]; [simpl in Hc; lia|]); done.
Qed.

(** ** Theorems *)

Section theorems.
Context (d : hde_disasm_t) {Hd : LengthDisasm d} (T : Z).

(** When a function can be wrapped: nothing else is going on, it is not routed
    yet, its prologue decodes to [off] bytes of whole instructions that hold the
    jump, and there is memory for the trampoline, apart from everything else. *)
Definition wrappable (from to : Z) (jt : JumpType) (info : option nat) (org : option Z) (off : Z)
    (s : kp) : Prop :=
  let absolute := route_absolute jt from to in
  let slot := slot_of s info absolute jt in
  0 < T /\ T + 8192 < 2 ^ 64 /\ quiet s /\ blank_temp T s /\ (readChain (kmem s) from).1 = 0 /\
  bool_decide (jt = Short) && absolute = false /\
  (forall i, info = Some i -> (i < length (slots s))%nat) /\ placed T from to slot org /\
  quickInstructionSize d (kmem s) from (jump_size slot absolute) = Ok off /\ off <> 0 /\
  tempExecutableMemoryOff s + off + LongJump < TempExecutableMemorySize.

Lemma wrappable_off from to jt info org off s :
  wrappable from to jt info org off s ->
  let absolute := route_absolute jt from to in
  let slot := slot_of s info absolute jt in
  covers d (kmem s) from (jump_size slot absolute) off /\ jump_size slot absolute <= off <= 28.
Proof using Hd.
  intros (_ & _ & _ & _ & _ & _ & _ & _ & Ho & Hne & _) absolute slot.
  pose proof (jump_size_bounds slot absolute) as Hjs.
  destruct (quick_size d (kmem s) from (jump_size slot absolute)) as [[_ E]|(n & E & Hc & Hn)]; [lia|..];
    fold absolute in Ho; fold slot in Ho; rewrite Ho in E; injection E as E; [lia|]. subst n.
  split; [done|]. lia.
Qed.

(** The memory behind a new trampoline is blank for the next one. *)
Lemma blank_after s s' from to slot org absolute off :
  blank_temp T s -> placed T from to slot org -> jump_size slot absolute <= off <= 28 ->
  tempExecutableMemoryOff s' = tempExecutableMemoryOff s + off + LongJump ->
  (forall x, ~ (from <= x < from + jump_size slot absolute) ->
     ~ (T + tempExecutableMemoryOff s <= x < T + tempExecutableMemoryOff s + off + LongJump) ->
     (truth slot = true -> ~ (slot <= x < slot + 8)) ->
     (forall p, org = Some p -> ~ (p <= x < p + 8)) -> ldb (kmem s') x = ldb (kmem s) x) ->
  blank_temp T s'.
Proof using Type.
  intros [Hto Hbl] (_ & _ & _ & Hap & Hs & Horg) Hle Ht Hfr. pose proof (jump_size_bounds slot absolute).
  unfold blank_temp, apart, LongJump, TempExecutableMemorySize in *. rewrite Ht. split; [lia|]. intros x Hx.
  rewrite Hfr; [apply Hbl; lia|lia|lia| |].
  - intros Es. destruct (Hs Es) as (_ & _ & _ & ?). lia.
  - intros p Ep. destruct (Horg p Ep) as (_ & ? & _). lia.
Qed.

(** C1: wrapping a function.  The route returns the trampoline; afterwards the
    processor reads at the function a jump to the new function (which the
    patcher's own chain reader finds again); the trampoline holds the bytes of
    the displaced instructions, which are whole instructions and cover the
    jump, followed by a jump behind them in the original function; the
    variable for the original function holds the trampoline's address.  The
    bytes that change are those of the jump, of the slot taken, of that variable
    and of the new trampoline (displaced instructions and [LongJump] bytes for
    the jump back): the trampolines made before are kept, the offset of the next
    one is behind this one, and what is behind it is still blank.  Lock,
    interrupts and write protection are as before. *)
Theorem routeFunctionInternal_wraps from to kernelRoute revertible jt info org off s :
  wrappable from to jt info org off s ->
  let absolute := route_absolute jt from to in
  let slot := slot_of s info absolute jt in
  let trampoline := T + tempExecutableMemoryOff s in
  covers d (kmem s) from (jump_size slot absolute) off /\ jump_size slot absolute <= off /\
  exists s', routeFunctionInternal d T from to true kernelRoute revertible jt info org s =
      Ret trampoline s' /\
    jmp_dest (kmem s') from = Some to /\ (readChain (kmem s') from).1 = to /\
    (forall i, 0 <= i < off -> ldb (kmem s') (trampoline + i) = ldb (kmem s) (from + i)) /\
    jmp_dest (kmem s') (trampoline + off) = Some (from + off) /\
    (forall p, org = Some p -> ld64 (kmem s') p = trampoline) /\
    (forall x, ~ (from <= x < from + jump_size slot absolute) ->
       ~ (trampoline <= x < trampoline + off + LongJump) ->
       (truth slot = true -> ~ (slot <= x < slot + 8)) ->
       (forall p, org = Some p -> ~ (p <= x < p + 8)) -> ldb (kmem s') x = ldb (kmem s) x) /\
    tempExecutableMemoryOff s' = tempExecutableMemoryOff s + off + LongJump /\ blank_temp T s' /\
    quiet s' /\ same_cpu s s'.
Proof using Hd.
  intros Hw absolute slot trampoline. destruct (wrappable_off _ _ _ _ _ _ _ Hw) as [Hc Hle].
  fold absolute in Hc, Hle. fold slot in Hc, Hle. split; [done|]. split; [lia|].
  destruct Hw as (HT & HT' & Hq & Hb & Hr & Hj & Hi & Hp & Ho & Hne & Hroom).
  fold absolute in Hj, Hp, Ho. fold slot in Hp, Ho. pose proof (jump_size_bounds slot absolute).
  destruct (route_wrap d T HT HT' from to kernelRoute revertible jt info org off s)
    as (s' & E & H1 & H2 & H3 & H4 & H5 & H6 & H7 & _ & H8 & _); try done;
    fold absolute slot; try lia. fold absolute slot trampoline in H5.
  exists s'. split_and!; try done; [by apply H1| |by apply H3|].
  - rewrite readChain_jmp, H1; done.
  - by apply (blank_after s s' from to slot org absolute off).
Qed.

(** C10: unloading undoes a route.  After a revertible kernel route, restoring
    the kept patches leaves every byte, apart from the trampolines and the
    variable for the original function, exactly as restoring before the route
    would have; so after any sequence of such routes on functions that do not
    overlap the kernel is as it was. *)
Theorem route_then_unload from to jt info org off s :
  wrappable from to jt info org off s -> live s ->
  let slot := slot_of s info (route_absolute jt from to) jt in
  (forall p, p ∈ kpatches s -> apart (paddr p) (Z.of_nat (pn p)) from 32 /\
     (truth slot = true -> apart (paddr p) (Z.of_nat (pn p)) slot 8)) ->
  exists t s1 s2 s0, routeFunctionInternal d T from to true true true jt info org s = Ret t s1 /\
    kp_deinit s1 = Ret tt s2 /\ kp_deinit s = Ret tt s0 /\ live s1 /\
    forall x, ~ (T <= x < T + TempExecutableMemorySize) ->
      (forall p, org = Some p -> ~ (p <= x < p + 8)) -> ldb (kmem s2) x = ldb (kmem s0) x.
Proof using Hd.
  intros Hw Hlive slot Hold. destruct (wrappable_off _ _ _ _ _ _ _ Hw) as [_ Hle]. fold slot in Hle.
  destruct Hw as (HT & HT' & Hq & Hb & Hr & Hj & Hi & Hp & Ho & Hne & Hroom). fold slot in Hp, Ho.
  pose proof (jump_size_bounds slot (route_absolute jt from to)) as Hjs.
  destruct (route_wrap d T HT HT' from to true true jt info org off s)
    as (s1 & E & _ & _ & _ & _ & H5 & H6 & _ & H8 & _ & id & m & Hk & Hm); try done; fold slot; try lia.
  fold slot in H5, Hk, Hm. simpl in Hk.
  destruct (kp_deinit_ok s1 H6 (H8 Hlive)) as (s2 & E2 & Hm2 & _).
  destruct (kp_deinit_ok s Hq Hlive) as (s0 & E0 & Hm0 & _).
  eexists _, s1, s2, s0. split; [exact E|]. split_and!; try done; [by apply H8|]. intros x Hx Hox.
  unfold TempExecutableMemorySize in *. destruct Hb as [Hb0 _].
  set (J := from <= x < from + jump_size slot (route_absolute jt from to) \/
            (truth slot = true /\ slot <= x < slot + 8)).
  rewrite Hm2, Hm0, Hk. unfold restore_mem. rewrite foldl_app.
  fold (restore_mem (kpatches s) (kmem s1)). fold (restore_mem (kpatches s) (kmem s)).
  set (L := patch_list _) in *. fold (restore_mem L (restore_mem (kpatches s) (kmem s1))).
  assert (Decision J) as [HJ|HJ] by (unfold J; apply _).
  - assert (forall p, p ∈ kpatches s -> ~ covered p x) as Hn.
    { intros p Hpp Hc. destruct (Hold p Hpp) as [H1 H2]. unfold covered, apart, J in *.
      destruct HJ as [|[Es ?]]; [|specialize (H2 Es)]; lia. }
    rewrite (restore_mem_out (kpatches s)) by done.
    rewrite (restore_mem_in L m).
    + apply Hm. unfold J in HJ. destruct HJ; [left; lia|by right].
    + apply the_patches_original.
    + left. by apply the_patches_cover.
  - rewrite restore_mem_out.
    + apply restore_mem_ext. apply H5; [unfold J in HJ; tauto|lia|unfold J in HJ; tauto|done].
    + intros p Hpp Hc. apply HJ. by apply (the_patches_within id m from to _ _ (route_arg from to) p).
Qed.

(** ** Failures *)

Lemma quick_rejected m addr min len flags :
  d m addr = Ok (len, flags) -> truth (flags .& F_ERROR) = true ->
  quickInstructionSize d m addr min = Ok 0.
Proof using Type. intros E Ef. unfold quickInstructionSize. cbn [quick_loop]. rewrite E. cbn [rbind]. by rewrite Ef. Qed.

Lemma createTrampoline_rejected func min opcodes s :
  quiet s -> quickInstructionSize d (kmem s) func min = Ok 0 ->
  exists s', createTrampoline d T func min opcodes s = Ret 0 s' /\ kmem s' = kmem s /\
    code s' = DisasmFailure /\ quiet s' /\ same_cpu s s' /\ kpatches s' = kpatches s.
Proof using Type.
  intros Hq Ho. unfold createTrampoline.
  destruct (writing_section s Hq) as (s1 & E1 & Hw1 & (Hm1 & _ & _ & Hk1 & _) & Ha1 & Hoff).
  rewrite (kbind_Ret _ _ _ _ _ E1). cbn [negb]. unfold kbind at 1, kget at 1. rewrite Hm1, Ho.
  change ((0 =? 0) || (PAGE_SIZE - LongJump <? 0)) with true. cbv iota.
  destruct (Hoff s1 eq_refl Ha1) as (ok & s3 & E3 & (Hm3 & _ & _ & Hk3 & _) & Hq3 & Hc3).
  rewrite (kbind_Ret _ _ _ _ _ E3). eexists. split; [reflexivity|]. simpl.
  split_and!; try done; [by rewrite Hm3|by rewrite Hk3].
Qed.

End theorems.

(** *** A failure to keep the patches *)

Definition crowded : kp :=
  mk_kp (fun _ => 0x90) (mk_cpu true true false false false) NoError 0
    [mk_patch 0 1 0x100 0x55 0x90; mk_patch 1 1 0x200 0x55 0x90] [] 2 []
    [true; true; true; true; true; false].

(** When there is no memory for the second of the patches of a route, the
    results of [push_back], which are truth values, are used as indices: the
    route succeeds, but an unrelated patch is erased, the one that was to be
    erased stays in the list although it is deleted, and unloading uses it. *)
Theorem keep_patches_erases_wrong :
  exists s', routeFunctionInternal hde64_at 0x10000 0x1000 0x2000 false true true Auto None None crowded =
      Ret 0 s' /\
    map paddr (kpatches s') = [0x100; 0x1000] /\ freed s' = [3; 2; 1] /\ map pid (kpatches s') = [0; 2] /\
    kp_deinit s' = Stuck.
Proof. eexists. split; [vm_compute; reflexivity|]. split_and!; vm_compute; reflexivity. Qed.

(** ** Witnesses *)

(** A function with the prologue [push rbp; mov rbp, rsp; sub rsp, 0x28]. *)
Definition demo_code : mem := bytes_at 0x1000 [0x55; 0x48; 0x89; 0xe5; 0x48; 0x83; 0xec; 0x28].

Lemma demo_wrappable : wrappable hde64_at 0x10000 0x1000 0x2000 Auto None (Some 0x8000) 8 (calm demo_code).
Proof.
  unfold wrappable. split_and!; try reflexivity; try lia; try done.
  - split; [done|]. intros x Hx. simpl in Hx. unfold ldb. simpl kmem. unfold demo_code, bytes_at. simpl length.
    destruct (Z.ltb_spec x (0x1000 + Z.of_nat 8)); [simpl in *; lia|]. by rewrite andb_false_r.
  - unfold placed, apart. change (slot_of _ _ _ _) with 0.
    split_and!; try (simpl; lia). intros p [= <-]. simpl. split_and!; lia.
Qed.

Lemma routeFunctionInternal_wraps_witness :
  exists s', routeFunctionInternal hde64_at 0x10000 0x1000 0x2000 true true true Auto None (Some 0x8000)
      (calm demo_code) = Ret 0x10000 s' /\
    jmp_dest (kmem s') 0x1000 = Some 0x2000 /\ jmp_dest (kmem s') 0x10008 = Some 0x1008.
Proof.
  destruct (routeFunctionInternal_wraps hde64_at 0x10000 0x1000 0x2000 true true Auto None (Some 0x8000) 8
    (calm demo_code) demo_wrappable) as (_ & _ & s' & E & H1 & _ & _ & H3 & _).
  exists s'. split; [exact E|]. split; [exact H1|exact H3].
Defined.

Lemma route_then_unload_witness :
  exists t s1 s2, routeFunctionInternal hde64_at 0x10000 0x1000 0x2000 true true true Auto None (Some 0x8000)
      (calm demo_code) = Ret t s1 /\ kp_deinit s1 = Ret tt s2.
Proof.
  destruct (route_then_unload hde64_at 0x10000 0x1000 0x2000 Auto None (Some 0x8000) 8
    (calm demo_code) demo_wrappable) as (t & s1 & s2 & s0 & E1 & E2 & _).
  - split; [intros f Hf|intros p Hp]; by apply elem_of_nil in Hf || by apply elem_of_nil in Hp.
  - intros p Hp. by apply elem_of_nil in Hp.
  - exists t, s1, s2. split; [exact E1|exact E2].
Defined.

(** A lock prefix on [nop], which the disassembler rejects. *)
Definition rejected_code : mem := bytes_at 0x1000 [0xf0; 0x90].

