(* ===== verification/PatcherPlus.v ===== *)
(** NootedDeck's extensions of the kernel patcher
    (NootedDeck/Patcher+.cpp, NootedDeck/KextHeaders/Patcher+.hpp): requests
    that are solved by symbol or, failing that, by a byte pattern; patches with
    masks; and routes of a function found through a branch to it.

    The symbol search of the loaded images is an argument ([lookup], with
    whether a range is given); searching, replacing and routing are those of
    the kernel patcher. *)

From Stdlib Require Import ZArith Lia List Bool.
From stdpp Require Import prelude.
From S2P Require Import Prelude Hde Disasm KPatch Find Route RouteThm.

Open Scope Z_scope.
Open Scope k_scope.

(** [fields] of the requests; pointers are options, [address] and [org] the
    addresses of the caller's variables. *)
Record PatternSolveRequest := mk_psr {
  ps_symbol : option Z;
  ps_address : option Z;
  ps_pattern : option (list Z);
  ps_mask : option (list Z)
}.

Record PatternRouteRequest := mk_prr {
  pr_symbol : option Z;
  pr_from : Z;
  pr_to : Z;
  pr_org : option Z;
  pr_pattern : option (list Z);
  pr_mask : option (list Z)
}.

Record JumpPatternRouteRequest := mk_jpr {
  jp_symbol : option Z;
  jp_from : Z;
  jp_to : Z;
  jp_org : option Z;
  jp_pattern : option (list Z);
  jp_mask : option (list Z);
  jp_jumpInstOff : Z
}.

Record MaskedLookupPatch := mk_mlp {
  ml_base : LookupPatch;
  ml_findMask : option (list Z);
  ml_replaceMask : option (list Z);
  ml_skip : nat
}.

(** A pattern that is neither null nor empty. *)
Definition usable (p : option (list Z)) : option (list Z) :=
  match p with
  | Some [] | None => None
  | Some l => Some l
  end.

(** [JumpInstDestination]: the loads are from the kernel's memory. *)
Definition JumpInstDestination (m : mem) (Start End : Z) : Z :=
  if (Start =? 0) || (End =? 0) then 0
  else
    let Instr := ldb m Start in
    let finish (InstrSize Offset : Z) :=
      if Offset <? 0 then
        if Start <? - Offset then 0
        else let Result := u64 (Start - - Offset + InstrSize) in if End <=? Result then 0 else Result
      else let Result := u64 (Start + Offset + InstrSize) in if End <=? Result then 0 else Result in
    if Instr =? 0x0F then
      if End <? u64 (Start + 6) then 0
      else
        let Instr1 := ldb m (Start + 1) in
        if (0x80 <=? Instr1) && (Instr1 <=? 0x8F) then finish 6 (sext 32 (ld32 m (Start + 2))) else 0
    else if (Instr =? 0xE8) || (Instr =? 0xE9) then
      if End <? u64 (Start + 5) then 0 else finish 5 (sext 32 (ld32 m (Start + 1)))
    else if (0x70 <=? Instr) && (Instr <=? 0x7F) then
      if End <? u64 (Start + 2) then 0 else finish 2 (sext 8 (ldb m (Start + 1)))
    else 0.

Section requests.
Context (d : hde_disasm_t) (T : Z) (lookup : bool -> nat -> Z -> K Z) (position : nat -> Z * Z).

(** Whether a range was given. *)
Definition ranged (Start Size : Z) : bool := negb ((Start =? 0) || (Size =? 0)).

Definition Solve (ID : nat) (Start Size : Z) (r : PatternSolveRequest) : K bool :=
  match ps_address r with
  | None => kpanic
  | Some address =>
      let% done :=
        (match ps_symbol r with
         | Some sym =>
             clearError ;%
             let% a := lookup (ranged Start Size) ID sym in
             kstore false 8 address a ;% kret (negb (a =? 0))
         | None => kret false
         end) in
      if done then kret true
      else
        match usable (ps_pattern r) with
        | None => match ps_symbol r with None => kpanic | Some _ => kret false end
        | Some pattern =>
            if negb (ranged Start Size) then kpanic
            else
              let% m := kget kmem in
              match findPattern m pattern (ps_mask r) Start Size 0 with
              | Overread => fun _ => Stuck
              | Missing => kret false
              | Found Offset => kstore false 8 address (u64 (Start + Offset)) ;% kret true
              end
        end
  end.

(** The three loops over requests: they stop at the first failure. *)
Fixpoint all_of {R} (f : R -> K bool) (l : list R) : K bool :=
  match l with
  | [] => kret true
  | r :: l' =>
      let% ok := f r in
      if ok then all_of f l' else kret false
  end.

Definition SolveAll (ID : nat) (Start Size : Z) (l : list PatternSolveRequest) : K bool :=
  all_of (Solve ID Start Size) l.

(** Solving [from]: a symbol, or what [from] was. *)
Definition solve_from (ID : nat) (Start Size : Z) (sym : option Z) (from : Z) : K Z :=
  match sym with
  | Some sym => clearError ;% lookup (ranged Start Size) ID sym
  | None => kret from
  end.

(** [routeMultiple] of one request whose symbol was set to null. *)
Definition routeMultiple (ID : nat) (Start Size : Z) (l : list RouteRequest) : K bool :=
  routeMultipleInternal d T (lookup (truth Start || truth Size)) ID l true false Auto.

Definition PatternRoute (ID : nat) (Start Size : Z) (r : PatternRouteRequest) : K bool :=
  let% from := solve_from ID Start Size (pr_symbol r) (pr_from r) in
  if from =? 0 then
    match usable (pr_pattern r) with
    | None => match pr_symbol r with None => kpanic | Some _ => kret false end
    | Some pattern =>
        if negb (ranged Start Size) then kpanic
        else
          let% m := kget kmem in
          match findPattern m pattern (pr_mask r) Start Size 0 with
          | Overread => fun _ => Stuck
          | Missing => kret false
          | Found Offset =>
              routeMultiple ID Start Size [mk_req None (u64 (Start + Offset)) (pr_to r) (pr_org r)]
          end
    end
  else routeMultiple ID Start Size [mk_req None from (pr_to r) (pr_org r)].

Definition PatternRouteAll (ID : nat) (Start Size : Z) (l : list PatternRouteRequest) : K bool :=
  all_of (PatternRoute ID Start Size) l.

(** [fuel] bounds the loops over the data; [None] when it is too small. *)
Definition Apply (fuel : nat) (Start Size : Z) (p : MaskedLookupPatch) : K (option bool) :=
  if is_none (ml_findMask p) && is_none (ml_replaceMask p) && (ml_skip p =? 0)%nat then
    clearError ;%
    let% fin := applyLookupPatch fuel position (Some (ml_base p)) Start Size in
    if fin then let% e := getError in kret (Some (bool_decide (e = NoError))) else kret None
  else if negb (ranged Start Size) then kpanic
  else findAndReplaceWithMask fuel Start Size (lfind (ml_base p)) (ml_findMask p)
         (lreplace (ml_base p)) (ml_replaceMask p) (lcount (ml_base p)) (ml_skip p).

Fixpoint ApplyAll (fuel : nat) (Start Size : Z) (Force : bool) (l : list MaskedLookupPatch)
    : K (option bool) :=
  match l with
  | [] => kret (Some true)
  | p :: l' =>
      let% r := Apply fuel Start Size p in
      match r with
      | None => kret None
      | Some ok => if negb ok && negb Force then kret (Some false) else ApplyAll fuel Start Size Force l'
      end
  end.

(** The end of a jump pattern route. *)
Definition route_found (from : Z) (r : JumpPatternRouteRequest) : K bool :=
  let% Wrapper := routeFunction d T from (jp_to r) (negb (is_none (jp_org r))) true true in
  match jp_org r with
  | Some org =>
      if Wrapper =? 0 then kret false
      else kstore false 8 org Wrapper ;% kret true
  | None => kret (Wrapper =? 0)
  end.

Definition JumpPatternRoute (ID : nat) (Start Size : Z) (r : JumpPatternRouteRequest) : K bool :=
  let% from := solve_from ID Start Size (jp_symbol r) (jp_from r) in
  if from =? 0 then
    match usable (jp_pattern r) with
    | None => match jp_symbol r with None => kpanic | Some _ => kret false end
    | Some pattern =>
        if negb (ranged Start Size) then kpanic
        else
          let% m := kget kmem in
          match findPattern m pattern (jp_mask r) Start Size 0 with
          | Overread => fun _ => Stuck
          | Missing => kret false
          | Found Offset =>
              let from := JumpInstDestination m (u64 (Start + Offset + jp_jumpInstOff r)) (u64 (Start + Size)) in
              if from =? 0 then kret false else route_found from r
          end
    end
  else route_found from r.

Definition JumpPatternRouteAll (ID : nat) (Start Size : Z) (l : list JumpPatternRouteRequest) : K bool :=
  all_of (JumpPatternRoute ID Start Size) l.
End requests.

(** ** Branches *)

(** How the processor reads a call, a near jump, a short or a near conditional
    jump at [a]: its length and displacement.  (The short jump [EB] and the
    loops, which the code does not know, are left out.) *)
Definition branch (m : mem) (a : Z) : option (Z * Z) :=
  let b := ldb m a in
  if decide (b = 0xE8 \/ b = 0xE9) then Some (5, sext 32 (ld32 m (a + 1)))
  else if decide (0x70 <= b < 0x80) then Some (2, sext 8 (ldb m (a + 1)))
  else if decide (b = 0x0F /\ 0x80 <= ldb m (a + 1) < 0x90) then Some (6, sext 32 (ld32 m (a + 2)))
  else None.

(** An absolute jump is one of them, read alike. *)
Lemma branch_jmp m a n off :
  ldb m a = 0xE9 -> branch m a = Some (n, off) -> jmp_dest m a = Some (u64 (a + n + off)).
Proof. intros E. unfold branch, jmp_dest. rewrite E. simpl. by intros [= <- <-]. Qed.

Lemma branch_bounds m a n off :
  branch m a = Some (n, off) -> 2 <= n <= 6 /\ - 2 ^ 31 <= off < 2 ^ 31.
Proof.
  unfold branch. repeat case_decide; intros [= <- <-]; (split; [lia|]).
  - exact (sext_range 32 _ ltac:(lia)).
  - pose proof (sext_range 8 (ldb m (a + 1)) ltac:(lia)). simpl in *. lia.
  - exact (sext_range 32 _ ltac:(lia)).
Qed.

(** The function is a test of the branch's end and of its destination. *)
Lemma JumpInstDestination_branch m Start End :
  0 < Start -> 0 < End < 2 ^ 64 -> Start + 6 + 2 ^ 31 < 2 ^ 64 ->
  JumpInstDestination m Start End =
  match branch m Start with
  | None => 0
  | Some (n, off) =>
      if (End <? Start + n) || (Start + off <? 0) || (End <=? Start + n + off) then 0
      else Start + n + off
  end.
Proof.
  intros Hs He Hb. unfold JumpInstDestination.
  rewrite (proj2 (Z.eqb_neq Start 0)), (proj2 (Z.eqb_neq End 0)) by lia. cbn [orb].
  rewrite !(wrap_small 64 (Start + _)) by lia.
  assert (forall n off, 2 <= n <= 6 -> - 2 ^ 31 <= off < 2 ^ 31 ->
    (if End <? Start + n then 0
     else if off <? 0 then if Start <? - off then 0
          else if End <=? u64 (Start - - off + n) then 0 else u64 (Start - - off + n)
     else if End <=? u64 (Start + off + n) then 0 else u64 (Start + off + n)) =
    if (End <? Start + n) || (Start + off <? 0) || (End <=? Start + n + off) then 0 else Start + n + off) as Hfin.
  { intros n off Hn Ho. destruct (Z.ltb_spec End (Start + n)); [done|]. cbn [orb].
    replace (Start - - off + n) with (Start + off + n) by lia. replace (Start + n + off) with (Start + off + n) by lia.
    destruct (Z.ltb_spec off 0), (Z.ltb_spec (Start + off) 0); try lia; cbn [orb].
    - destruct (Z.ltb_spec Start (- off)); [done|lia].
    - destruct (Z.ltb_spec Start (- off)); [lia|]. rewrite (wrap_small 64) by lia. done.
    - rewrite (wrap_small 64) by lia. done. }
  pose proof (sext_range 32 (ld32 m (Start + 1)) ltac:(lia)) as R1.
  pose proof (sext_range 32 (ld32 m (Start + 2)) ltac:(lia)) as R2.
  pose proof (sext_range 8 (ldb m (Start + 1)) ltac:(lia)) as R3. simpl in R3.
  unfold branch. set (b := ldb m Start).
  destruct (Z.eqb_spec b 0x0F) as [E|E].
  - rewrite E. repeat (rewrite decide_False by lia).
    destruct (Z.leb_spec 0x80 (ldb m (Start + 1))), (Z.leb_spec (ldb m (Start + 1)) 0x8F); cbn [andb];
      [rewrite decide_True by lia|rewrite decide_False by lia..].
    + apply Hfin; [lia|exact R2].
    + by destruct (End <? Start + 6).
    + by destruct (End <? Start + 6).
    + by destruct (End <? Start + 6).
  - destruct (Z.eqb_spec b 0xE8), (Z.eqb_spec b 0xE9); cbn [orb];
      try (rewrite decide_True by lia; apply Hfin; [lia|exact R1]).
    rewrite decide_False by lia.
    destruct (Z.leb_spec 0x70 b), (Z.leb_spec b 0x7F); cbn [andb];
      [rewrite decide_True by lia; apply Hfin; lia|rewrite !decide_False by lia; done..].
Qed.

(** What [JumpInstDestination] returns, unless it is zero, is the address
    that the near branch at [Start] (a call, a jump or a conditional jump) goes
    to, the whole instruction and the destination lying below [End]; and it
    returns zero only when there is no such branch, when it or its destination
    reaches [End], or when the displacement leads below address zero. *)
Theorem JumpInstDestination_correct m Start End :
  0 < Start -> 0 < End < 2 ^ 64 -> Start + 6 + 2 ^ 31 < 2 ^ 64 ->
  let r := JumpInstDestination m Start End in
  (r <> 0 -> exists n off, branch m Start = Some (n, off) /\ r = Start + n + off /\
     Start + n <= End /\ 0 < r < End) /\
  (r = 0 -> branch m Start = None \/ exists n off, branch m Start = Some (n, off) /\
     (End < Start + n \/ End <= Start + n + off \/ Start + off < 0)).
Proof.
  intros Hs He Hb r. unfold r. rewrite JumpInstDestination_branch by done.
  destruct (branch m Start) as [[n off]|] eqn:E; [|split; [lia|by left]].
  apply branch_bounds in E as Hn.
  destruct (Z.ltb_spec End (Start + n)), (Z.ltb_spec (Start + off) 0), (Z.leb_spec End (Start + n + off));
    cbn [orb]; split; intros Hr; try lia; try (right; exists n, off; split; [done|lia]).
  exists n, off. split_and!; [done|lia..].
Qed.

(** A call 16 bytes ahead of the end of a range. *)
Lemma JumpInstDestination_correct_witness :
  exists n off, branch (bytes_at 0x100 [0xE8; 3; 0; 0; 0]) 0x100 = Some (n, off) /\ 0x108 = 0x100 + n + off.
Proof.
  destruct (proj1 (JumpInstDestination_correct (bytes_at 0x100 [0xE8; 3; 0; 0; 0]) 0x100 0x110
    ltac:(lia) ltac:(lia) ltac:(lia))) as (n & off & H1 & H2 & _).
  - vm_compute. discriminate.
  - exists n, off. split; [exact H1|]. rewrite <- H2. vm_compute. reflexivity.
Defined.

(** Where the processor goes from the branch at [a], as far as the instruction
    and the destination lie below [End] and the displacement does not lead below
    address zero. *)
Definition goes_to (m : mem) (End a b : Z) : Prop :=
  exists n off, branch m a = Some (n, off) /\ a + n <= End /\ 0 <= a + off /\ b = a + n + off /\ b < End.

Lemma JumpInstDestination_goes m Start End :
  0 < Start -> 0 < End < 2 ^ 64 -> Start + 6 + 2 ^ 31 < 2 ^ 64 ->
  (forall b, goes_to m End Start b -> JumpInstDestination m Start End = b /\ 0 < b) /\
  ((forall b, ~ goes_to m End Start b) -> JumpInstDestination m Start End = 0).
Proof.
  intros Hs He Hb. rewrite JumpInstDestination_branch by done. split.
  - intros b (n & off & E & H1 & H2 & -> & H3). rewrite E. apply branch_bounds in E as Hn.
    rewrite (proj2 (Z.ltb_ge _ _)), (proj2 (Z.ltb_ge _ _)), (proj2 (Z.leb_gt _ _)) by lia. simpl. lia.
  - intros Hn. destruct (branch m Start) as [[n off]|] eqn:E; [|done].
    destruct ((End <? Start + n) || (Start + off <? 0) || (End <=? Start + n + off)) eqn:Ec; [done|].
    apply orb_false_iff in Ec as [Ec E3%Z.leb_gt]. apply orb_false_iff in Ec as [E1%Z.ltb_ge E2%Z.ltb_ge].
    destruct (Hn (Start + n + off)). exists n, off. split_and!; lia || done.
Qed.

#[local] Arguments ldn : simpl never.
#[local] Arguments stn : simpl never.

(** ** Routes through a branch *)

Section jump_route.
Context (d : hde_disasm_t) {Hd : LengthDisasm d} (T : Z) (lookup : bool -> nat -> Z -> K Z).

(** A request without a symbol, over a range that does not reach the last
    addresses: [found from], the function that the branch at the given offset
    from the first occurrence of the pattern goes to. *)
Record by_pattern (Start Size : Z) (r : JumpPatternRouteRequest) (ptn : list Z) : Prop := {
  bp_symbol : jp_symbol r = None;
  bp_from : jp_from r = 0;
  bp_pattern : jp_pattern r = Some ptn;
  bp_nonempty : ptn <> [];
  bp_mask : mask_for (jp_mask r) ptn;
  bp_start : 0 < Start;
  bp_size : 0 < Size;
  bp_off : 0 <= jp_jumpInstOff r;
  bp_end : Start + Size + jp_jumpInstOff r + 2 ^ 32 < 2 ^ 64
}.

Definition found (m : mem) (Start Size : Z) (r : JumpPatternRouteRequest) (ptn : list Z) (from : Z) : Prop :=
  exists k, first_from m ptn (jp_mask r) Start Size 0 k /\
    goes_to m (Start + Size) (Start + k + jp_jumpInstOff r) from.

Lemma JumpPatternRoute_pattern ID Start Size r ptn s :
  by_pattern Start Size r ptn ->
  (forall from, found (kmem s) Start Size r ptn from ->
     JumpPatternRoute d T lookup ID Start Size r s = route_found d T from r s) /\
  ((forall from, ~ found (kmem s) Start Size r ptn from) ->
     JumpPatternRoute d T lookup ID Start Size r s = Ret false s).
Proof using Type.
  intros [Hs Hf Hp Hne Hm H1 H2 H3 H4].
  assert (usable (jp_pattern r) = Some ptn) as Hu by (rewrite Hp; by destruct ptn).
  assert (ranged Start Size = true) as Hr.
  { unfold ranged. by rewrite (proj2 (Z.eqb_neq Start 0)), (proj2 (Z.eqb_neq Size 0)) by lia. }
  unfold JumpPatternRoute, solve_from. rewrite Hs, Hf, Hu, Hr.
  erewrite kbind_Ret by reflexivity. cbn [Z.eqb negb]. cbv iota. unfold kbind, kget.
  pose proof (findPattern_spec (kmem s) ptn (jp_mask r) Start Size 0 ltac:(lia)) as Hk.
  destruct (findPattern _ _ _ _ _ _) as [k| |]; [| |done].
  - pose proof Hk as (Hk0 & (_ & Hk1 & _) & _).
    rewrite (wrap_small 64 (Start + Size)), (wrap_small 64 (Start + k + _)) by lia.
    destruct (JumpInstDestination_goes (kmem s) (Start + k + jp_jumpInstOff r) (Start + Size)) as [J1 J2]; [lia..|].
    split.
    + intros from (k' & Hk' & Hg). pose proof (first_from_unique _ _ _ _ _ _ _ _ Hk Hk') as <-.
      apply J1 in Hg as [-> Hg]. by rewrite (proj2 (Z.eqb_neq _ 0)) by lia.
    + intros Hn. rewrite J2; [done|]. intros from Hg. apply (Hn from). by exists k.
  - split; [|done]. intros from (k & (Hk0 & Ho & _) & _). by destruct (Hk k).
Qed.

(** The wrapper's bytes survive the store to the caller's variable. *)
Lemma route_found_ok from r org off s :
  wrappable d T from (jp_to r) Auto None None off s -> jp_org r = Some org ->
  apart org 8 from 32 -> apart org 8 T (TempExecutableMemorySize + 16) ->
  let tramp := T + tempExecutableMemoryOff s in
  exists s', route_found d T from r s = Ret true s' /\
    jmp_dest (kmem s') from = Some (jp_to r) /\
    (forall i, 0 <= i < off -> ldb (kmem s') (tramp + i) = ldb (kmem s) (from + i)) /\
    jmp_dest (kmem s') (tramp + off) = Some (from + off) /\
    ld64 (kmem s') org = tramp /\ quiet s' /\ same_cpu s s'.
Proof using Hd.
  intros Hw Ho Ha1 Ha2 tramp. destruct (wrappable_off d T _ _ _ _ _ _ _ Hw) as [_ Hle].
  destruct Hw as (HT & HT' & Hq & Hb & Hr & Hj & Hi & Hp & Hqs & Hne & Hroom).
  pose proof (jump_size_bounds (slot_of s None (route_absolute Auto from (jp_to r)) Auto)
    (route_absolute Auto from (jp_to r))).
  destruct (route_wrap d T HT HT' from (jp_to r) true true Auto None None off s)
    as (s1 & E & H1 & H2 & H3 & _ & _ & Hq1 & Hc1 & _); try done; try lia.
  change (slot_of s None (route_absolute Auto from (jp_to r)) Auto) with 0 in *.
  unfold apart, TempExecutableMemorySize, LongJump in *. fold tramp in E, H2, H3.
  assert (0 < tramp) by (destruct Hb; lia).
  exists (set_mem (stn 8 (kmem s1) org tramp) s1). split.
  { unfold route_found. rewrite Ho. cbn [is_none negb]. rewrite (kbind_Ret _ _ _ _ _ E).
    rewrite (proj2 (Z.eqb_neq tramp 0)) by lia. reflexivity. }
  simpl. split_and!.
  - apply H1. intros x Hx. apply ldb_stn_out. destruct Hx as [|[? _]]; [lia|done].
  - intros i Hii. rewrite ldb_stn_out by (destruct Hb; lia). by apply H2.
  - apply H3. intros x Hx. apply ldb_stn_out. destruct Hb. lia.
  - unfold ld64. rewrite ldn_stn_same. apply Z.mod_small. simpl. destruct Hb. lia.
  - exact Hq1.
  - exact Hc1.
Qed.

(** C23: a jump pattern route without a symbol or an address (its pattern not
    empty, its mask as long, its range not at the end of the address space)
    routes the function that the call, near jump or conditional jump at the given
    offset from the first occurrence of the pattern goes to, as the processor
    reads that branch, if branch and destination lie in the range and the
    function can be wrapped: the function then starts with a jump to the
    replacement, the caller's variable (which overlaps neither the function nor
    the trampolines) holds a trampoline with the displaced instructions that
    goes on behind them, and the request reports success.  Without an
    occurrence, or without such a branch there, the request fails and changes
    nothing. *)
Theorem JumpPatternRoute_correct ID Start Size r ptn s :
  by_pattern Start Size r ptn ->
  (forall from org off, found (kmem s) Start Size r ptn from ->
    wrappable d T from (jp_to r) Auto None None off s -> jp_org r = Some org ->
    apart org 8 from 32 -> apart org 8 T (TempExecutableMemorySize + 16) ->
    let tramp := T + tempExecutableMemoryOff s in
    exists s', JumpPatternRoute d T lookup ID Start Size r s = Ret true s' /\
      jmp_dest (kmem s') from = Some (jp_to r) /\
      (forall i, 0 <= i < off -> ldb (kmem s') (tramp + i) = ldb (kmem s) (from + i)) /\
      jmp_dest (kmem s') (tramp + off) = Some (from + off) /\
      ld64 (kmem s') org = tramp /\ quiet s' /\ same_cpu s s') /\
  ((forall from, ~ found (kmem s) Start Size r ptn from) ->
    JumpPatternRoute d T lookup ID Start Size r s = Ret false s).
Proof using Hd.
  intros Hb. destruct (JumpPatternRoute_pattern ID Start Size r ptn s Hb) as [H1 H2]. split; [|done].
  intros from org off Hf Hw Ho Ha1 Ha2 tramp. rewrite (H1 from Hf). by apply (route_found_ok from r org off).
Qed.

(** When the function found has a prologue that the disassembler rejects,
    nothing is routed, but the request stores the error number 22 as the
    address of the original function and reports success. *)
Theorem JumpPatternRoute_stores_error ID Start Size r ptn org from len flags s :
  by_pattern Start Size r ptn -> found (kmem s) Start Size r ptn from ->
  jp_org r = Some org -> quiet s -> (readChain (kmem s) from).1 = 0 ->
  d (kmem s) from = Ok (len, flags) -> truth (flags .& F_ERROR) = true ->
  exists s', JumpPatternRoute d T lookup ID Start Size r s = Ret true s' /\
    kmem s' = stn 8 (kmem s) org EINVAL /\ code s' = DisasmFailure /\ ld64 (kmem s') org = 22.
Proof using Type.
  intros Hb Hf Ho Hq Hrc Ed Ef.
  rewrite (proj1 (JumpPatternRoute_pattern ID Start Size r ptn s Hb) from Hf).
  destruct (createTrampoline_rejected d T from
    (if route_absolute Auto from (jp_to r) then LongJump else SmallJump) [] s) as (s1 & Et & Hm & Hc & _);
    [done|by eapply quick_rejected|].
  exists (set_mem (stn 8 (kmem s1) org EINVAL) s1). split.
  { unfold route_found, routeFunction, routeFunctionInternal, routeFunction_with. rewrite Ho.
    cbn [is_none negb]. fold (route_diff from (jp_to r)) (route_arg from (jp_to r)).
    fold (route_absolute Auto from (jp_to r)). change (bool_decide (Auto = Short)) with false. cbn [andb].
    erewrite kbind_Ret.
    2: { erewrite kbind_Ret.
         2: { unfold route_setup, kbind at 1, kget at 1.
              destruct (readChain (kmem s) from) as [t pj]. simpl in Hrc. subst t.
              change (truth 0) with false. cbv iota. erewrite kbind_Ret by reflexivity.
              change (truth 0) with false. cbv iota. rewrite (kbind_Ret _ _ _ _ _ Et). reflexivity. }
         reflexivity. }
    reflexivity. }
  simpl. rewrite Hm. split_and!; [done..|]. unfold ld64. by rewrite ldn_stn_same.
Qed.
End jump_route.

(** A patch with a mask or a skip count is the masked search and replacement. *)
Lemma Apply_masked position Start Size p s fuel :
  is_none (ml_findMask p) && is_none (ml_replaceMask p) && (ml_skip p =? 0)%nat = false ->
  Start <> 0 -> 0 < Size < Z.of_nat fuel ->
  length (lreplace (ml_base p)) = length (lfind (ml_base p)) ->
  mask_for (ml_findMask p) (lfind (ml_base p)) -> mask_for (ml_replaceMask p) (lfind (ml_base p)) ->
  quiet s ->
  exists l s', leftmost (kmem s) (lfind (ml_base p)) (ml_findMask p) Start Size 0 l /\
    Apply position fuel Start Size p s =
      Ret (Some (0 <? length (select (lcount (ml_base p)) (ml_skip p) l))%nat) s' /\
    patched Start (length (lfind (ml_base p))) (lreplace (ml_base p)) (ml_replaceMask p)
      (select (lcount (ml_base p)) (ml_skip p) l) (kmem s) (kmem s') /\ same_cpu s s'.
Proof.
  intros Hm HS Hsz Hl Hf Hk [Hq Ha].
  destruct (findAndReplaceWithMask_run Start Size (lfind (ml_base p)) (ml_findMask p) (lreplace (ml_base p))
    (ml_replaceMask p) (lcount (ml_base p)) (ml_skip p) s fuel) as (l & s' & Hlm & E & Hmem & _ & H1 & H2 & H3);
    [done|done|done|lia|done|done|].
  exists l, s'. split_and!; [done| |done|unfold same_cpu; split_and!; congruence].
  unfold Apply, ranged. rewrite Hm. rewrite (proj2 (Z.eqb_neq Start 0)), (proj2 (Z.eqb_neq Size 0)) by lia.
  exact E.
Qed.

(** ** Witnesses *)

(** The function of [demo_code], and a call to it at [0x1102]. *)
Definition demo_branch : mem := fun x =>
  if x <? 0x1100 then demo_code x
  else bytes_at 0x1100 [0xAA; 0xBB; 0xE8; 0xF9; 0xFE; 0xFF; 0xFF] x.

Definition demo_request : JumpPatternRouteRequest :=
  mk_jpr None 0 0x2000 (Some 0x8000) (Some [0xAA; 0xBB]) None 2.

Lemma demo_branch_wrappable :
  wrappable hde64_at 0x10000 0x1000 0x2000 Auto None None 8 (calm demo_branch).
Proof.
  unfold wrappable. split_and!; try reflexivity; try lia; try done.
  - split; [done|]. intros x Hx. simpl in Hx. unfold ldb. simpl kmem. unfold demo_branch.
    destruct (Z.ltb_spec x 0x1100); [lia|]. unfold bytes_at. simpl length.
    destruct (Z.ltb_spec x (0x1100 + Z.of_nat 7)); [simpl in *; lia|]. by rewrite andb_false_r.
  - unfold placed, apart. change (slot_of _ _ _ _) with 0. split_and!; try (simpl; lia). done.
Qed.

Lemma demo_by_pattern : by_pattern 0x1000 0x200 demo_request [0xAA; 0xBB].
Proof. split; simpl; done || lia. Qed.

(** The pattern is at [0x1100]; the call behind it goes back to [0x1000]. *)
Lemma demo_found m :
  findPattern m [0xAA; 0xBB] None 0x1000 0x200 0 = Found 0x100 -> branch m 0x1102 = Some (5, -263) ->
  found m 0x1000 0x200 demo_request [0xAA; 0xBB] 0x1000.
Proof.
  intros Ef Eb. exists 0x100. split.
  - pose proof (findPattern_spec m [0xAA; 0xBB] None 0x1000 0x200 0 ltac:(lia)) as H. by rewrite Ef in H.
  - exists 5, (-263). split_and!; done || (simpl; lia).
Qed.

Lemma JumpPatternRoute_correct_witness :
  exists s', JumpPatternRoute hde64_at 0x10000 (fun _ _ _ => kret 0) 0 0x1000 0x200 demo_request
      (calm demo_branch) = Ret true s' /\
    jmp_dest (kmem s') 0x1000 = Some 0x2000 /\ ld64 (kmem s') 0x8000 = 0x10000.
Proof.
  destruct (proj1 (JumpPatternRoute_correct hde64_at 0x10000 (fun _ _ _ => kret 0) 0 0x1000 0x200 demo_request
    [0xAA; 0xBB] (calm demo_branch) demo_by_pattern) 0x1000 0x8000 8) as (s' & E & H1 & _ & _ & H2 & _).
  - apply demo_found; vm_compute; reflexivity.
  - exact demo_branch_wrappable.
  - reflexivity.
  - right. simpl. lia.
  - left. simpl. lia.
  - exists s'. split; [exact E|]. split; [exact H1|exact H2].
Defined.

(** The same call, to an instruction that is rejected. *)
Definition rejected_branch : mem := fun x =>
  if x <? 0x1100 then rejected_code x
  else bytes_at 0x1100 [0xAA; 0xBB; 0xE8; 0xF9; 0xFE; 0xFF; 0xFF] x.

Lemma JumpPatternRoute_stores_error_witness :
  exists s', JumpPatternRoute hde64_at 0x10000 (fun _ _ _ => kret 0) 0 0x1000 0x200 demo_request
      (calm rejected_branch) = Ret true s' /\ ld64 (kmem s') 0x8000 = 22.
Proof.
  destruct (JumpPatternRoute_stores_error hde64_at 0x10000 (fun _ _ _ => kret 0) 0 0x1000 0x200 demo_request
    [0xAA; 0xBB] 0x8000 0x1000 2 (match hde64_at rejected_branch 0x1000 with Ok (_, f) => f | _ => 0 end)
    (calm rejected_branch)) as (s' & E & _ & _ & H).
  - exact demo_by_pattern.
  - apply demo_found; vm_compute; reflexivity.
  - reflexivity.
  - split; reflexivity.
  - vm_compute. reflexivity.
  - vm_compute. reflexivity.
  - vm_compute. reflexivity.
  - exists s'. split; [exact E|exact H].
Defined.
