(* ===== verification/NDeck.v ===== *)
(** The NootedDeck kext itself (NootedDeck/NDeck.cpp, NootedDeck/SKU.cpp and
    their headers): the attributes of the running system, the SKU names, object
    fields, the registers of the GPU and the messages to its firmware, the
    search for a video BIOS, and the drivers it injects.

    Register numbers, the layout of the ACPI table and the classes of the
    kernel are not in the sources: they are arguments.  A panic of the code and
    a read outside of a buffer are the results [NPanic] and [Fault]. *)

From Stdlib Require Import ZArith Lia List Bool Ascii String.
From stdpp Require Import prelude.
From S2P Require Import Prelude.

Open Scope Z_scope.

(** ** SKUs *)

Module Sku.

Inductive MatchType := RevOnly | RevSubsys.

Record SKU := mk_sku {
  MT : MatchType;
  Revision : Z;
  SubsystemID : Z;
  SubsystemVendor : Z;
  Number : string
}.

Record DevicePair := mk_pair {
  DeviceID : Z;
  SKUs : list SKU;
  count : nat;
  Fallback : string
}.

Definition Dev163F : list SKU :=
  [mk_sku RevOnly 0xAE 0 0 "AMD Custom GPU 0405"; mk_sku RevSubsys 0xAE 0x0123 0x1002 "AMD Custom GPU 0405"].
Definition Dev1435 : list SKU :=
  [mk_sku RevOnly 0xAE 0 0 "AMD Custom GPU 0932"; mk_sku RevSubsys 0xAE 0x0123 0x1002 "AMD Custom GPU 0932"].

(** [sizeof(Dev163F) / sizeof(Dev163F)]: the size of the array by itself. *)
Definition array_by_itself (l : list SKU) : nat := (length l * 24) / (length l * 24).

Definition Devices : list DevicePair :=
  [mk_pair 0x163F Dev163F (array_by_itself Dev163F) "AMD Custom GPU";
   mk_pair 0x1435 Dev1435 (array_by_itself Dev1435) "AMD Custom GPU"].

(** The inner loop over the first [n] entries. *)
Fixpoint find_sku (l : list SKU) (n : nat) (rev subsys vendor : Z) : option string :=
  match n, l with
  | S n', s :: l' =>
      if negb (Revision s =? rev) ||
         (match MT s with RevSubsys => true | RevOnly => false end &&
          (negb (SubsystemID s =? subsys) || negb (SubsystemVendor s =? vendor)))
      then find_sku l' n' rev subsys vendor
      else Some (Number s)
  | _, _ => None
  end.

Fixpoint find_device (l : list DevicePair) (dev rev subsys vendor : Z) : option string :=
  match l with
  | [] => None
  | p :: l' =>
      if DeviceID p =? dev then
        Some (default (Fallback p) (find_sku (SKUs p) (count p) rev subsys vendor))
      else find_device l' dev rev subsys vendor
  end.

Definition GetSKUForDevice (dev rev subsys vendor : Z) : option string :=
  find_device Devices dev rev subsys vendor.

(** The name without its first 13 characters, for the property of the device. *)
Definition device_name (sku : string) : string := substring 13 (String.length sku - 13) sku.
End Sku.

(** ** Attributes *)

Module Attr.

Definition IsCatalina : Z := 1 .<< 0.
Definition IsBigSurPlus : Z := 1 .<< 1.
Definition IsMonterey : Z := 1 .<< 2.
Definition IsMontereyPlus : Z := 1 .<< 3.
Definition IsVentura : Z := 1 .<< 4.
Definition IsVenturaPlus : Z := 1 .<< 5.
Definition IsVentura1304Based : Z := 1 .<< 6.
Definition IsVentura1304Plus : Z := 1 .<< 7.
Definition IsSonoma1404Plus : Z := 1 .<< 8.
Definition IsAerith : Z := 1 .<< 9.
Definition IsSephiroth : Z := 1 .<< 10.

(** The getters and setters, by the constant they use. *)
Definition get (v flag : Z) : bool := truth (v .& flag).
Definition set (v flag : Z) : Z := u16 (v .| flag).

Definition set_all (l : list Z) (v : Z) : Z := fold_left set l v.

Definition GetChipRevision (v : Z) : option string :=
  if get v IsAerith then Some "Aerith"%string
  else if get v IsSephiroth then Some "Sephiroth"%string
  else None.

(** The [switch] of [StartModule] on the kernel version; [None] is the panic,
    also that of a second start. *)
Definition StartModule (ModuleLoaded : bool) (version minor : Z) (v : Z) : option Z :=
  if ModuleLoaded then None
  else if version =? 20 then Some (set_all [IsBigSurPlus] v)
  else if version =? 21 then Some (set_all [IsBigSurPlus; IsMonterey; IsMontereyPlus] v)
  else if version =? 22 then
    let v := set_all [IsBigSurPlus; IsMontereyPlus; IsVentura; IsVenturaPlus] v in
    Some (if 5 <=? minor then set_all [IsVentura1304Based; IsVentura1304Plus] v else v)
  else if version =? 23 then
    let v := set_all [IsBigSurPlus; IsMontereyPlus; IsVenturaPlus; IsVentura1304Plus] v in
    Some (if 4 <=? minor then set_all [IsSonoma1404Plus] v else v)
  else if (version =? 24) || (version =? 25) then
    Some (set_all [IsBigSurPlus; IsMontereyPlus; IsVenturaPlus; IsVentura1304Plus; IsSonoma1404Plus] v)
  else None.

(** The part of [ProcessPatcher] that looks at the device: the variant is stored
    as a name and the bits of the attributes are not touched. *)
Definition ProcessPatcher_variant (device v : Z) : option (string * Z) :=
  if device =? 0x163F then Some ("Aerith"%string, v)
  else if device =? 0x1640 then Some ("Sephiroth"%string, v)
  else None.
End Attr.

(** ** Object fields *)

Module Field.

Definition InvalidOffset : Z := 0xFFFFFFFF.

(** [None] is a panic: the offset was assigned before, or never. *)
Definition assign (Offset Other : Z) : option Z :=
  if negb (Offset =? InvalidOffset) then None else Some Other.
Definition plus (Offset Value : Z) : option Z :=
  if Offset =? InvalidOffset then None else Some (u32 (Offset + Value)).
Definition get (n : nat) (m : mem) (Offset Object : Z) : option Z :=
  if Object =? 0 then None
  else if Offset =? InvalidOffset then None else Some (ldn n m (Object + Offset)).
Definition set (n : nat) (m : mem) (Offset Object Value : Z) : option mem :=
  if Object =? 0 then None
  else if Offset =? InvalidOffset then None else Some (stn n m (Object + Offset) Value).
End Field.

(** ** Registers and the firmware's mailbox *)

Module Mmio.
Section mmio.
(** The register numbers that the sources leave to missing headers. *)
Context (PCIE_INDEX2 PCIE_DATA2 : Z) (MSG_66 MSG_82 MSG_90 : Z) (NoResponse TIMEOUT : Z).
(** The GPU: a register is read, or written, and it may change its state. *)
Context {G : Type} (rd : Z -> G -> G * Z) (wr : Z -> Z -> G -> G) (length : Z).

(** An access to the mapped registers, and a millisecond of sleep. *)
Inductive event := Rd (reg value : Z) | Wr (reg value : Z) | Sleep.

(** The state of the device with the accesses so far, the last one first. *)
Definition gpu : Type := G * list event.

Definition load (reg : Z) (g : gpu) : gpu * Z :=
  let '(g', v) := rd reg g.1 in ((g', Rd reg v :: g.2), v).
Definition store (reg v : Z) (g : gpu) : gpu := (wr reg v g.1, Wr reg v :: g.2).

Definition ReadRegion32Bit (Region : Z) (g : gpu) : gpu * Z :=
  if Region * 4 <? length then load Region g
  else load PCIE_DATA2 (store PCIE_INDEX2 Region g).

Definition WriteRegion32Bit (Region Value : Z) (g : gpu) : gpu :=
  if Region * 4 <? length then store Region Value g
  else store PCIE_DATA2 Value (store PCIE_INDEX2 Region g).

(** [i] counts down the polls that are left. *)
Fixpoint wait_loop (i : nat) (last : Z) (g : gpu) : gpu * Z :=
  match i with
  | O => (g, last)
  | S i' =>
      let '(g, v) := ReadRegion32Bit MSG_90 g in
      if negb (v =? NoResponse) then (g, v)
      else wait_loop i' v (g.1, Sleep :: g.2)
  end.

Definition SMUWaitForResponse (g : gpu) : gpu * Z := wait_loop (Z.to_nat TIMEOUT) NoResponse g.

(** The response, before its translation to a result, and the output. *)
Definition SendMessageToSMC (Message Param : Z) (out : bool) (g : gpu) : gpu * Z * option Z :=
  let '(g, _) := SMUWaitForResponse g in
  let g := WriteRegion32Bit MSG_82 Param g in
  let g := WriteRegion32Bit MSG_90 0 g in
  let g := WriteRegion32Bit MSG_66 Message g in
  let '(g, r) := SMUWaitForResponse g in
  if out then let '(g, o) := ReadRegion32Bit MSG_82 g in (g, r, Some o) else (g, r, None).

(** [InitHWLate], but for the mapping: the frame buffer's offset is kept in 32
    bits, the device's revision is a field of a strap register. *)
Definition InitHWLate (FB_OFFSET STRAP0 mask shift : Z) (mapped : bool) (g : gpu) : gpu * option (Z * Z) :=
  if mapped then (g, None)
  else
    let '(g, fb) := ReadRegion32Bit FB_OFFSET g in
    let '(g, st) := ReadRegion32Bit STRAP0 g in
    (g, Some (u32 (fb .<< 24), (st .& mask) .>> shift)).
End mmio.
End Mmio.

(** ** The video BIOS *)

Module Vbios.

Inductive nres (A : Type) := NOk (a : A) | NFault | NPanic.
Arguments NOk {A} a.
Arguments NFault {A}.
Arguments NPanic {A}.

Definition byte (l : list Z) (i : Z) : nres Z :=
  match (if i <? 0 then None else l !! Z.to_nat i) with Some b => NOk b | None => NFault end.

Definition nbind {A B} (x : nres A) (f : A -> nres B) : nres B :=
  match x with NOk a => f a | NFault => NFault | NPanic => NPanic end.
Notation "'let?' x := e 'in' k" := (nbind e (fun x => k)) (at level 200, x name, e at level 100, k at level 200).

(** [memcmp(BIOS + at, s, 4) == 0], comparing from the front. *)
Fixpoint same_bytes (l : list Z) (at_ : Z) (s : list Z) : nres bool :=
  match s with
  | [] => NOk true
  | c :: s' => let? b := byte l at_ in if b =? c then same_bytes l (at_ + 1) s' else NOk false
  end.

Definition ATOM : list Z := [65; 84; 79; 77].
Definition MOTA : list Z := [77; 79; 84; 65].

(** [BIOS]: the buffer, which may be longer than [Size]. *)
Definition CheckATOMBIOS (BIOS : list Z) (Size : Z) : nres bool :=
  if Size <? 0x49 then NOk false
  else
    let? b0 := byte BIOS 0 in
    if negb (b0 =? 0x55) then NOk false
    else
      let? b1 := byte BIOS 1 in
      if negb (b1 =? 0xAA) then NOk false
      else
        let? lo := byte BIOS 0x48 in
        let? hi := byte BIOS 0x49 in
        let BIOSHeaderStart := lo .| u16 (hi .<< 8) in
        if BIOSHeaderStart =? 0 then NOk false
        else
          let Temp := u16 (BIOSHeaderStart + 4) in
          if Size <? Temp then NOk false
          else
            let? a := same_bytes BIOS Temp ATOM in
            if a then NOk true else same_bytes BIOS Temp MOTA.

(** An entry of the ACPI table. *)
Record GOPVideoBIOSHeader := mk_vhdr {
  pciBus : Z; pciDevice : Z; pciFunction : Z; vendorID : Z; deviceID : Z; imageLength : Z
}.

(** The device's location, vendor and device number. *)
Record pci_id := mk_pci { bus : Z; device : Z; function : Z; vendor : Z; dev : Z }.

Section sources.
(** [hsz]: the size of the header; [header table]: its fields, read from the
    bytes of the table. *)
Context (hsz : Z) (header : list Z -> GOPVideoBIOSHeader) (me : pci_id).

(** [OSData::getBytesNoCopy(start, n)]: null outside of the data. *)
Definition getBytesNoCopy (table : list Z) (start n : Z) : option (list Z) :=
  if (start <? Z.of_nat (length table)) && (start + n <=? Z.of_nat (length table))
  then Some (take (Z.to_nat n) (drop (Z.to_nat start) table)) else None.

Definition vfct_matches (Strict : bool) (h : GOPVideoBIOSHeader) : bool :=
  negb (imageLength h =? 0) &&
  (negb Strict || ((pciBus h =? bus me) && (pciDevice h =? device me) && (pciFunction h =? function me))) &&
  (vendorID h =? vendor me) && (deviceID h =? dev me).

(** The loop over the images; [None] when the fuel is used up. *)
Fixpoint vfct_loop (fuel : nat) (Strict : bool) (table : list Z) (Offset : Z)
    : option (nres (option (list Z))) :=
  match fuel with
  | O => None
  | S f =>
      if Offset <? Z.of_nat (length table) then
        match getBytesNoCopy table Offset hsz with
        | None => Some (NOk None)
        | Some hb =>
            let h := header hb in
            match getBytesNoCopy table (Offset + hsz) (imageLength h) with
            | None => Some (NOk None)
            | Some VContent =>
                if vfct_matches Strict h then
                  Some (let? ok := CheckATOMBIOS VContent (imageLength h) in
                        NOk (if ok then Some VContent else None))
                else vfct_loop f Strict table (u32 (Offset + (hsz + imageLength h)))
            end
        end
      else Some (NOk None)
  end.

(** [tsz]: what [sizeof(VFCT)] evaluates to; [first]: [vbiosImageOffset]. *)
Definition GetVBIOSFromVFCT (tsz first : Z) (Strict : bool) (VFCTData : option (list Z))
    : option (nres (option (list Z))) :=
  match VFCTData with
  | None => Some (NOk None)
  | Some table =>
      if Z.of_nat (length table) <? tsz then Some (NOk None)
      else vfct_loop (S (length table)) Strict table first
  end.

(** [Bar0]: the mapped frame buffer, or none. *)
Definition GetVBIOSFromVRAM (Bar0 : option (list Z)) : nres (option (list Z)) :=
  match Bar0 with
  | None | Some [] => NOk None
  | Some fb =>
      let Size := 256 * 1024 in
      let? ok := CheckATOMBIOS fb Size in
      if ok then
        if Z.of_nat (length fb) <? Size then NFault else NOk (Some (take (Z.to_nat Size) fb))
      else NOk None
  end.

(** [base]: the register of the expansion ROM; [rom]: what it maps to.  The
    values written to that register are the second result. *)
Definition GetVBIOSFromExpansionROM (imageSize base : Z) (rom : option (list Z))
    : nres (option (list Z)) * list Z :=
  if base =? 0 then (NOk None, [])
  else
    match rom with
    | None => (NOk None, [])
    | Some r =>
        let n := Z.min (Z.of_nat (length r)) imageSize in
        if n =? 0 then (NOk None, [])
        else
          let d := take (Z.to_nat n) r in
          (let? ok := CheckATOMBIOS d n in NOk (if ok then Some d else None), [base .| 1; base])
    end.

(** Where the image came from. *)
Inductive source := Override | Vfct | Vram | ExpansionROM | VfctRelaxed.

(** The order of the sources; the second [VFCT] search is not strict. *)
Definition GetVBIOS (prop : option (list Z)) (vfct : bool -> nres (option (list Z)))
    (vram rom : nres (option (list Z))) : nres (option (source * list Z)) :=
  let? o := (match prop with
             | None => NOk None
             | Some d =>
                 let? ok := CheckATOMBIOS d (Z.of_nat (length d)) in
                 NOk (if ok then Some d else None)
             end) in
  match o with
  | Some d => NOk (Some (Override, d))
  | None =>
      let? a := vfct true in
      match a with
      | Some d => NOk (Some (Vfct, d))
      | None =>
          let? b := vram in
          match b with
          | Some d => NOk (Some (Vram, d))
          | None =>
              let? c := rom in
              match c with
              | Some d => NOk (Some (ExpansionROM, d))
              | None =>
                  let? e := vfct false in
                  match e with
                  | Some d => NOk (Some (VfctRelaxed, d))
                  | None => NOk None
                  end
              end
          end
      end
  end.
End sources.
End Vbios.

(** ** Drivers and classes *)

Module Drivers.
Section drivers.
(** [Obj]: objects; [bundle]: the non-empty bundle identifier of a dictionary, if
    it has one; [xml i]: the drivers in the file of the [i]th identifier, [None]
    when they do not unserialize to an array. *)
Context {Obj : Type} (bundle : Obj -> option string) (xml : nat -> option (list Obj)).

Definition DriverBundleIdentifiers : list string :=
  ["com.apple.kext.AMDRadeonX6000"; "com.apple.kext.AMDRadeonX6000Framebuffer";
   "com.apple.driver.AppleGFXHDA"]%string.

(** The inner loop: the first identifier that is not matched yet and is equal. *)
Fixpoint match_ident (ids : list string) (i : nat) (MatchedDrivers : Z) (b : string) : option nat :=
  match ids with
  | [] => None
  | id :: ids' =>
      if truth (MatchedDrivers .& (1 .<< Z.of_nat i)) then match_ident ids' (S i) MatchedDrivers b
      else if String.eqb b id then Some i
      else match_ident ids' (S i) MatchedDrivers b
  end.

(** [Array->setObject(index, o)] inserts. *)
Definition setObject (l : list Obj) (index : nat) (o : Obj) : list Obj := take index l ++ o :: drop index l.

Fixpoint insert_all (l : list Obj) (index : nat) (os : list Obj) : list Obj :=
  match os with
  | [] => l
  | o :: os' => insert_all (setObject l index o) (S index) os'
  end.

(** The loop; the array and the mask, [Fault] when it panics.  [DriverCount] is
    the count the code keeps itself, [DriverIndex] moves behind the drivers
    that were inserted. *)
Fixpoint add_loop (fuel : nat) (Array : list Obj) (DriverIndex DriverCount : nat) (MatchedDrivers : Z)
    : res (list Obj * Z) :=
  match fuel with
  | O => NoFuel
  | S f =>
      if (DriverIndex <? DriverCount)%nat then
        match Array !! DriverIndex with
        | None => Fault
        | Some o =>
            match bundle o with
            | None => add_loop f Array (S DriverIndex) DriverCount MatchedDrivers
            | Some b =>
                match match_ident DriverBundleIdentifiers 0 MatchedDrivers b with
                | None => add_loop f Array (S DriverIndex) DriverCount MatchedDrivers
                | Some i =>
                    match xml i with
                    | None => Fault
                    | Some inj =>
                        add_loop f (insert_all Array DriverIndex inj) (S (DriverIndex + length inj))
                          (DriverCount + length inj) (u8 (MatchedDrivers .| (1 .<< Z.of_nat i)))
                    end
                end
            end
        end
      else Ok (Array, MatchedDrivers)
  end.

(** The array handed to the original function, and the mask, which is static. *)
Definition WrapAddDrivers (Array : list Obj) (MatchedDrivers : Z) : res (list Obj * Z) :=
  add_loop (S (length Array)) Array 0 (length Array) MatchedDrivers.

(** [cast o c]: the original function, null for [None]. *)
Definition WrapSafeMetaCast {C} `{!EqDecision C} (cast : Obj -> C -> option Obj)
    (metaClassMap : list (C * C)) (o : Obj) (toMeta : C) : option Obj :=
  match cast o toMeta with
  | Some r => Some r
  | None =>
      match list_find (fun e => e.1 = toMeta \/ e.2 = toMeta) metaClassMap with
      | Some (_, e) => if decide (e.1 = toMeta) then cast o e.2 else cast o e.1
      | None => None
      end
  end.
End drivers.
End Drivers.
