(* ===== verification/NDeckThm.v ===== *)
(** What the NootedDeck kext guarantees: the attributes agree with the kernel
    version, drivers are injected once and in place, a video BIOS that is
    accepted is an ATOM BIOS, and messages to the firmware are written in order
    with a bounded number of polls. *)

From Stdlib Require Import ZArith Lia List Bool Ascii String.
From stdpp Require Import prelude.
From S2P Require Import Prelude NDeck.

Open Scope Z_scope.

(** ** SKUs and attributes *)

(** Only the first entry of a device's SKU table is ever examined, because
    the number of entries is computed as the size of the array by itself; with
    the tables of the source the result is nevertheless that of examining all
    entries, for every device, revision and subsystem. *)
Theorem GetSKUForDevice_full_table dev rev subsys vendor :
  Forall (fun p => Sku.count p = 1%nat /\ length (Sku.SKUs p) = 2%nat) Sku.Devices /\
  Sku.GetSKUForDevice dev rev subsys vendor =
  Sku.find_device
    (map (fun p => Sku.mk_pair (Sku.DeviceID p) (Sku.SKUs p) (length (Sku.SKUs p)) (Sku.Fallback p)) Sku.Devices)
    dev rev subsys vendor.
Proof.
  split; [by repeat constructor|]. unfold Sku.GetSKUForDevice. cbn -[Z.eqb].
  destruct (0x163F =? dev), (0x1435 =? dev), (0xAE =? rev); cbn -[Z.eqb]; done.
Qed.

(** Starting the module on a kernel of a supported version, and only then
    and only once, succeeds; the attributes say exactly what the version is:
    every "plus" attribute holds from its version (and minor version) on, the
    others for their version alone; and the attributes of the chip revision
    are not set, neither here nor when the device is recognised, so that asking
    for the revision's name panics. *)
Theorem StartModule_attributes version minor :
  Attr.StartModule true version minor 0 = None /\
  match Attr.StartModule false version minor 0 with
  | None => version < 20 \/ 25 < version
  | Some v =>
      20 <= version <= 25 /\
      (Attr.get v Attr.IsBigSurPlus = true <-> 20 <= version) /\
      (Attr.get v Attr.IsMonterey = true <-> version = 21) /\
      (Attr.get v Attr.IsMontereyPlus = true <-> 21 <= version) /\
      (Attr.get v Attr.IsVentura = true <-> version = 22) /\
      (Attr.get v Attr.IsVenturaPlus = true <-> 22 <= version) /\
      (Attr.get v Attr.IsVentura1304Based = true <-> version = 22 /\ 5 <= minor) /\
      (Attr.get v Attr.IsVentura1304Plus = true <-> 23 <= version \/ (version = 22 /\ 5 <= minor)) /\
      (Attr.get v Attr.IsSonoma1404Plus = true <-> 24 <= version \/ (version = 23 /\ 4 <= minor)) /\
      forall device name v', Attr.ProcessPatcher_variant device v = Some (name, v') ->
        Attr.GetChipRevision v' = None
  end.
Proof.
  split; [done|].
  assert (forall v, Attr.GetChipRevision v = None -> forall device name v',
    Attr.ProcessPatcher_variant device v = Some (name, v') -> Attr.GetChipRevision v' = None) as Hpp.
  { intros v Hv device name v'. unfold Attr.ProcessPatcher_variant.
    repeat case_cmp; intros [= _ <-]; done. }
  unfold Attr.StartModule.
  destruct (Z.eqb_spec version 20) as [->|]; [|destruct (Z.eqb_spec version 21) as [->|];
    [|destruct (Z.eqb_spec version 22) as [->|]; [destruct (Z.leb_spec 5 minor)|
      destruct (Z.eqb_spec version 23) as [->|]; [destruct (Z.leb_spec 4 minor)|
        destruct (Z.eqb_spec version 24) as [->|]; [|destruct (Z.eqb_spec version 25) as [->|]]]]]];
    simpl orb; cbv iota; [..|lia];
    split_and!; try (apply Hpp; reflexivity); try lia;
    match goal with |- ?b = true <-> _ => let c := eval vm_compute in b in change b with c end;
    split; intros; first [done|lia].
Qed.

(** ** Drivers *)

Section drivers.
Context {Obj : Type} (bundle : Obj -> option string) (xml : nat -> option (list Obj)).
Notation add := (Drivers.WrapAddDrivers bundle xml).
Notation mident := (Drivers.match_ident).
Notation ident := Drivers.DriverBundleIdentifiers.

(** The specification: which drivers of a list get drivers injected in front of
    them, the identifiers used, and the mask at the end. *)
Fixpoint inject (l : list Obj) (mask : Z) : option (list Obj * list nat * Z) :=
  match l with
  | [] => Some ([], [], mask)
  | o :: l' =>
      match (match bundle o with Some b => mident ident 0 mask b | None => None end) with
      | None =>
          match inject l' mask with
          | Some (r, used, m) => Some (o :: r, used, m)
          | None => None
          end
      | Some i =>
          match xml i with
          | None => None
          | Some inj =>
              match inject l' (u8 (mask .| (1 .<< Z.of_nat i))) with
              | Some (r, used, m) => Some (inj ++ o :: r, i :: used, m)
              | None => None
              end
          end
      end
  end.

Lemma insert_all_app (pre post os : list Obj) :
  Drivers.insert_all (pre ++ post) (length pre) os = pre ++ os ++ post.
Proof using Type.
  revert pre. induction os as [|o os IH]; intros pre; [done|].
  cbn [Drivers.insert_all]. unfold Drivers.setObject. rewrite take_app_length, drop_app_length.
  replace (pre ++ o :: post) with ((pre ++ [o]) ++ post) by (by rewrite <- app_assoc).
  replace (S (length pre)) with (length (pre ++ [o])) by (rewrite length_app; simpl; lia).
  rewrite IH. by rewrite <- app_assoc.
Qed.

Lemma add_loop_inject l pre mask :
  Drivers.add_loop bundle xml (S (length l)) (pre ++ l) (length pre) (length pre + length l) mask =
  match inject l mask with Some (r, _, m) => Ok (pre ++ r, m) | None => Fault end.
Proof using Type.
  revert pre mask. induction l as [|o l IH]; intros pre mask.
  { simpl. rewrite app_nil_r. by rewrite (proj2 (Nat.ltb_ge _ _)) by lia. }
  cbn [length inject]. set (f := S (length l)). cbn [Drivers.add_loop]. subst f.
  rewrite (proj2 (Nat.ltb_lt _ _)), list_lookup_middle by first [lia|done].
  assert (forall m, Drivers.add_loop bundle xml (S (length l)) (pre ++ o :: l) (S (length pre))
      (length pre + S (length l)) m =
    match inject l m with Some (r, _, m') => Ok (pre ++ o :: r, m') | None => Fault end) as Hskip.
  { intros m. specialize (IH (pre ++ [o]) m). rewrite length_app, <- app_assoc in IH. cbn [length app] in IH.
    replace (S (length pre)) with (length pre + 1)%nat by lia.
    replace (length pre + S (length l))%nat with (length pre + 1 + length l)%nat by lia.
    rewrite IH. destruct (inject l m) as [[[r u] m']|]; [|done]. by rewrite <- app_assoc. }
  destruct (bundle o) as [b|]; [|rewrite Hskip; by destruct (inject l mask) as [[[r u] m']|]].
  destruct (mident ident 0 mask b) as [i|]; [|rewrite Hskip; by destruct (inject l mask) as [[[r u] m']|]].
  destruct (xml i) as [inj|]; [|done]. rewrite insert_all_app.
  specialize (IH (pre ++ inj ++ [o]) (u8 (mask .| (1 .<< Z.of_nat i)))).
  rewrite !length_app, <- !app_assoc in IH. cbn [length app] in IH.
  replace (S (length pre + length inj)) with (length pre + (length inj + 1))%nat by lia.
  replace (length pre + S (length l) + length inj)%nat with (length pre + (length inj + 1) + length l)%nat by lia.
  rewrite IH. destruct (inject l _) as [[[r u] m']|]; [|done]. by rewrite <- !app_assoc.
Qed.

(** A match is an identifier that was not matched before. *)
Lemma match_ident_spec ids k mask b i :
  mident ids k mask b = Some i ->
  (k <= i < k + length ids)%nat /\ ids !! (i - k)%nat = Some b /\ Z.testbit mask (Z.of_nat i) = false.
Proof using Type.
  revert k. induction ids as [|id ids IH]; intros k; simpl; [done|].
  assert (mident ids (S k) mask b = Some i ->
    (k <= i < k + S (length ids))%nat /\ (id :: ids) !! (i - k)%nat = Some b /\
    Z.testbit mask (Z.of_nat i) = false) as Hrec.
  { intros (H1 & H2 & H3)%IH. split_and!; [lia..| |done].
    replace (i - k)%nat with (S (i - S k)) by lia. done. }
  rewrite Z.shiftl_1_l, truth_pow2_testbit by lia.
  destruct (Z.testbit mask (Z.of_nat k)) eqn:E; [done|].
  destruct (String.eqb_spec b id) as [->|]; [|done].
  intros [= <-]. split_and!; [lia..| |done]. by rewrite Nat.sub_diag.
Qed.

Lemma mask_set mask i j :
  (i < 8)%nat -> 0 <= j ->
  Z.testbit (u8 (mask .| (1 .<< Z.of_nat i))) j =
  (j <? 8) && (Z.testbit mask j || (Z.of_nat i =? j)).
Proof using Type.
  intros Hi Hj. rewrite wrap_testbit, Z.lor_spec, Z.shiftl_1_l, Z.pow2_bits_eqb by lia. done.
Qed.

Lemma inject_mask l mask r used m :
  inject l mask = Some (r, used, m) ->
  NoDup used /\ (forall i, i ∈ used -> (i < 8)%nat /\ Z.testbit mask (Z.of_nat i) = false /\
    Z.testbit m (Z.of_nat i) = true) /\
  (forall i, (i < 8)%nat -> Z.testbit mask (Z.of_nat i) = true -> Z.testbit m (Z.of_nat i) = true) /\
  l `sublist_of` r.
Proof using Type.
  revert mask r used m. induction l as [|o l IH]; intros mask r used m; cbn [inject].
  { intros [= <- <- <-]. split_and!; [constructor|by intros i ?%elem_of_nil|done|done]. }
  destruct (match bundle o with Some b => _ | None => None end) as [i|] eqn:E.
  - assert ((i < 8)%nat /\ Z.testbit mask (Z.of_nat i) = false) as [Hi Hm].
    { destruct (bundle o); [|done]. apply match_ident_spec in E as (? & _ & ?). simpl in *. split; [lia|done]. }
    destruct (xml i) as [inj|]; [|done].
    destruct (inject l (u8 (mask .| (1 .<< Z.of_nat i)))) as [[[r' u'] m']|] eqn:E'; [|done].
    intros [= <- <- <-]. apply IH in E' as (Hnd & Hu & Hmon & Hsub).
    assert (forall k, (k < 8)%nat -> Z.testbit (u8 (mask .| (1 .<< Z.of_nat i))) (Z.of_nat k) =
      Z.testbit mask (Z.of_nat k) || bool_decide (k = i)) as Hbit.
    { intros k Hk. rewrite mask_set by lia. rewrite (proj2 (Z.ltb_lt (Z.of_nat k) 8)) by lia. simpl. f_equal.
      destruct (Z.eqb_spec (Z.of_nat i) (Z.of_nat k)), (decide (k = i)); subst;
        rewrite ?bool_decide_true, ?bool_decide_false by done; lia || done. }
    split_and!.
    + constructor; [|done]. intros Hin. destruct (Hu i Hin) as (_ & Hf & _). rewrite Hbit in Hf by done.
      by rewrite bool_decide_true, orb_true_r in Hf.
    + intros k [->|Hk]%elem_of_cons.
      * split; [done|]. split; [done|]. apply Hmon; [done|]. rewrite Hbit by done. by rewrite bool_decide_true, orb_true_r.
      * destruct (Hu k Hk) as (H8 & Hf & Ht). rewrite Hbit in Hf by done.
        by apply orb_false_iff in Hf as [? _].
    + intros k Hk Ht. apply Hmon; [done|]. rewrite Hbit by done. by rewrite Ht.
    + apply sublist_inserts_l. by constructor.
  - destruct (inject l mask) as [[[r' u'] m']|] eqn:E'; [|done]. intros [= <- <- <-].
    apply IH in E' as (Hnd & Hu & Hmon & Hsub). split_and!; [done..|]. by constructor.
Qed.

(** Calls one after the other: the mask is kept between them. *)
Fixpoint add_calls (arrays : list (list Obj)) (mask : Z) : option (list (list Obj) * list nat * Z) :=
  match arrays with
  | [] => Some ([], [], mask)
  | a :: rest =>
      match inject a mask with
      | None => None
      | Some (r, used, m) =>
          match add_calls rest m with
          | None => None
          | Some (rs, used', m') => Some (r :: rs, used ++ used', m')
          end
      end
  end.

Lemma add_calls_once arrays mask rs used m :
  add_calls arrays mask = Some (rs, used, m) ->
  NoDup used /\ (forall i, i ∈ used -> (i < 8)%nat /\ Z.testbit mask (Z.of_nat i) = false /\
    Z.testbit m (Z.of_nat i) = true) /\
  (forall i, (i < 8)%nat -> Z.testbit mask (Z.of_nat i) = true -> Z.testbit m (Z.of_nat i) = true).
Proof using Type.
  revert mask rs used m. induction arrays as [|a arrays IH]; intros mask rs used m; cbn [add_calls].
  { intros [= <- <- <-]. split_and!; [constructor|by intros i ?%elem_of_nil|done]. }
  destruct (inject a mask) as [[[r u] m1]|] eqn:E; [|done].
  destruct (add_calls arrays m1) as [[[rs' u'] m2]|] eqn:E'; [|done]. intros [= <- <- <-].
  apply inject_mask in E as (N1 & U1 & M1 & _). apply IH in E' as (N2 & U2 & M2). split_and!.
  - apply NoDup_app. split_and!; [done| |done]. intros i H1 H2.
    destruct (U1 i H1) as (_ & _ & Ht), (U2 i H2) as (_ & Hf & _). congruence.
  - intros i [Hi|Hi]%elem_of_app.
    + destruct (U1 i Hi) as (? & ? & ?). auto.
    + destruct (U2 i Hi) as (H8 & Hf & ?). split_and!; [done| |done].
      destruct (Z.testbit mask (Z.of_nat i)) eqn:Em; [|done]. rewrite (M1 i H8 Em) in Hf. done.
  - intros i Hi Hm. auto.
Qed.

(** C24: the wrapper of [addDrivers], which inserts into the array it walks, does
    exactly what the specification does: the drivers of a bundle are put in
    front of the first driver that names it, no driver of the array is lost or
    reordered, and over any sequence of calls every bundle is injected at most
    once. *)
Theorem WrapAddDrivers_injects :
  (forall l mask, add l mask = match inject l mask with Some (r, _, m) => Ok (r, m) | None => Fault end) /\
  (forall l mask r used m, inject l mask = Some (r, used, m) -> l `sublist_of` r) /\
  (forall arrays rs used m, add_calls arrays 0 = Some (rs, used, m) -> NoDup used).
Proof using Type.
  split_and!.
  - intros l mask. apply (add_loop_inject l [] mask).
  - intros l mask r used m E. apply (inject_mask l mask r used m E).
  - intros arrays rs used m E. apply (add_calls_once arrays 0 rs used m E).
Qed.
End drivers.

(** Two arrays that name the same bundle: the second is left alone. *)
Lemma WrapAddDrivers_injects_witness :
  NoDup [2%nat] /\
  add_calls (fun n : nat => if (n =? 1)%nat then Some "com.apple.driver.AppleGFXHDA"%string else None)
    (fun _ => Some [7; 8]%nat) [[5; 1]; [1]]%nat 0 = Some ([[5; 7; 8; 1]; [1]]%nat, [2%nat], 4).
Proof.
  split; [|reflexivity].
  exact (proj2 (proj2 (WrapAddDrivers_injects
    (fun n : nat => if (n =? 1)%nat then Some "com.apple.driver.AppleGFXHDA"%string else None)
    (fun _ => Some [7; 8]%nat))) [[5; 1]; [1]]%nat _ [2%nat] 4 eq_refl).
Defined.

(** ** Video BIOS *)

Import Vbios.

(** The bytes [s] stand at offset [t]. *)
Definition at_offset (B : list Z) (t : Z) (s : list Z) : Prop :=
  forall i c, s !! i = Some c -> B !! Z.to_nat (t + Z.of_nat i) = Some c.

(** An ATOM BIOS: the signature of an option ROM, and behind the header that
    the word at [0x48] points to (not zero), the name in either order. *)
Definition atom_image (B : list Z) : Prop :=
  B !! 0%nat = Some 0x55 /\ B !! 1%nat = Some 0xAA /\
  exists lo hi, B !! 72%nat = Some lo /\ B !! 73%nat = Some hi /\ lo .| u16 (hi .<< 8) <> 0 /\
    let t := u16 ((lo .| u16 (hi .<< 8)) + 4) in at_offset B t ATOM \/ at_offset B t MOTA.

Lemma byte_ok B i b : byte B i = NOk b -> 0 <= i /\ B !! Z.to_nat i = Some b.
Proof.
  unfold byte. destruct (Z.ltb_spec i 0); [done|]. destruct (B !! Z.to_nat i) eqn:E; [|done].
  by intros [= <-].
Qed.

Lemma same_bytes_true B t s : same_bytes B t s = NOk true -> at_offset B t s.
Proof.
  revert t. induction s as [|c s IH]; intros t; cbn [same_bytes]; [by intros _ i c|].
  destruct (byte B t) as [b| |] eqn:E; cbn [nbind]; [|done..]. apply byte_ok in E as [Ht E].
  destruct (Z.eqb_spec b c) as [->|]; [|done]. intros H%IH [|i] c' Hc; simpl in Hc.
  - injection Hc as <-. by rewrite Z.add_0_r.
  - rewrite <- (H i c' Hc). f_equal. lia.
Qed.

Lemma CheckATOMBIOS_true B n : CheckATOMBIOS B n = NOk true -> atom_image B.
Proof.
  unfold CheckATOMBIOS. destruct (n <? 0x49); [done|].
  destruct (byte B 0) as [b0| |] eqn:E0; cbn [nbind]; [|done..]. apply byte_ok in E0 as [_ E0].
  destruct (Z.eqb_spec b0 0x55) as [->|]; cbn [negb]; [|done].
  destruct (byte B 1) as [b1| |] eqn:E1; cbn [nbind]; [|done..]. apply byte_ok in E1 as [_ E1].
  destruct (Z.eqb_spec b1 0xAA) as [->|]; cbn [negb]; [|done].
  destruct (byte B 0x48) as [lo| |] eqn:E2; cbn [nbind]; [|done..]. apply byte_ok in E2 as [_ E2].
  destruct (byte B 0x49) as [hi| |] eqn:E3; cbn [nbind]; [|done..]. apply byte_ok in E3 as [_ E3].
  destruct (Z.eqb_spec (lo .| u16 (hi .<< 8)) 0); [done|]. destruct (n <? _); [done|].
  destruct (same_bytes B _ ATOM) as [a| |] eqn:E4; cbn [nbind]; [|done..]. intros H.
  split_and!; [done..|]. exists lo, hi. split_and!; [done..|]. destruct a.
  - left. by apply same_bytes_true.
  - right. by apply same_bytes_true.
Qed.

Lemma byte_lookup B i b : 0 <= i -> B !! Z.to_nat i = Some b -> byte B i = NOk b.
Proof. intros Hi E. unfold byte. destruct (Z.ltb_spec i 0); [lia|]. by rewrite E. Qed.

Lemma same_bytes_at B t s : 0 <= t -> at_offset B t s -> same_bytes B t s = NOk true.
Proof.
  revert t. induction s as [|c s IH]; intros t Ht H; cbn [same_bytes]; [done|].
  rewrite (byte_lookup B t c) by (done || (rewrite <- (H 0%nat c eq_refl); f_equal; lia)). cbn [nbind].
  rewrite Z.eqb_refl. apply IH; [lia|]. intros i c' Hc. rewrite <- (H (S i) c' Hc). f_equal. lia.
Qed.

(** The test of a whole image accepts the ATOM BIOSes and nothing else. *)
Lemma CheckATOMBIOS_whole B : CheckATOMBIOS B (Z.of_nat (length B)) = NOk true <-> atom_image B.
Proof.
  split; [apply CheckATOMBIOS_true|]. intros (H0 & H1 & lo & hi & H2 & H3 & Hz & Ht). unfold CheckATOMBIOS.
  pose proof (lookup_lt_Some _ _ _ H3) as Hl. pose proof (u16_range ((lo .| u16 (hi .<< 8)) + 4)) as Hr.
  destruct (Z.ltb_spec (Z.of_nat (length B)) 0x49); [lia|].
  rewrite (byte_lookup B 0 0x55), (byte_lookup B 1 0xAA), (byte_lookup B 0x48 lo), (byte_lookup B 0x49 hi) by done.
  cbn [nbind Z.eqb Pos.eqb negb]. rewrite (proj2 (Z.eqb_neq _ 0)) by done.
  set (t := u16 (_ + 4)) in *. cbv zeta in Ht. fold t in Ht.
  assert (exists c, B !! Z.to_nat t = Some c) as [c Hc].
  { destruct Ht as [Ht|Ht]; eexists; rewrite <- (Ht 0%nat _ eq_refl); f_equal; lia. }
  pose proof (lookup_lt_Some _ _ _ Hc). destruct (Z.ltb_spec (Z.of_nat (length B)) t); [lia|].
  destruct Ht as [Ht|Ht]; [by rewrite (same_bytes_at B t ATOM ltac:(lia) Ht)|].
  rewrite (same_bytes_at B t MOTA ltac:(lia) Ht). cbn [same_bytes ATOM].
  rewrite (byte_lookup B t 77) by (lia || (rewrite <- (Ht 0%nat _ eq_refl); f_equal; lia)). done.
Qed.

Lemma atom_image_take B n : 65540 <= n -> atom_image B -> atom_image (take (Z.to_nat n) B).
Proof.
  intros Hn (H0 & H1 & lo & hi & H2 & H3 & Hz & Ht).
  assert (forall i, Z.of_nat i < 65540 -> take (Z.to_nat n) B !! i = B !! i) as E.
  { intros i Hi. apply lookup_take_lt. lia. }
  unfold atom_image. rewrite !E by lia. split_and!; [done..|]. exists lo, hi.
  split_and!; [done..|].
  assert (forall s, (length s <= 4)%nat ->
    at_offset B (u16 ((lo .| u16 (hi .<< 8)) + 4)) s ->
    at_offset (take (Z.to_nat n) B) (u16 ((lo .| u16 (hi .<< 8)) + 4)) s) as Hs.
  { intros s Hl Hat i c Hc. apply lookup_lt_Some in Hc as Hi.
    pose proof (u16_range ((lo .| u16 (hi .<< 8)) + 4)). rewrite E by lia. by apply Hat. }
  destruct Ht; [left|right]; apply Hs; done.
Qed.

Lemma prefix_atom B n d :
  65540 <= n ->
  nbind (CheckATOMBIOS B n) (fun ok =>
    if ok then
      if Z.of_nat (length B) <? n then NFault else NOk (Some (take (Z.to_nat n) B))
    else NOk None) = NOk (Some d) ->
  atom_image d.
Proof.
  intros Hn. destruct (CheckATOMBIOS B n) as [[]| |] eqn:E; cbn [nbind]; try done.
  destruct (_ <? n); [done|].
  intros [= <-]. apply atom_image_take; [lia|]. by eapply CheckATOMBIOS_true.
Qed.

Section vfct.
Context (hsz : Z) (header : list Z -> GOPVideoBIOSHeader) (me : pci_id) (Hhsz : 0 < hsz).
Context (Himg : forall hb, 0 <= imageLength (header hb)).

Lemma vfct_loop_total fuel Strict table off :
  0 <= off -> Z.of_nat (length table) < 2 ^ 32 -> Z.of_nat (length table) - off < Z.of_nat fuel ->
  (1 <= fuel)%nat ->
  exists r, vfct_loop hsz header me fuel Strict table off = Some r /\
    forall d, r = NOk (Some d) -> atom_image d.
Proof using Hhsz Himg.
  revert off. induction fuel as [|f IH]; intros off Ho Hl Hf H1; [lia|]. cbn [vfct_loop].
  destruct (Z.ltb_spec off (Z.of_nat (length table))) as [Hlt|]; [|by eexists].
  destruct (getBytesNoCopy table off hsz) as [hb|]; [|by eexists].
  destruct (getBytesNoCopy table (off + hsz) (imageLength (header hb))) as [V|] eqn:EV; [|by eexists].
  destruct (vfct_matches me Strict (header hb)).
  - eexists. split; [done|]. intros d.
    destruct (CheckATOMBIOS V (imageLength (header hb))) as [[]| |] eqn:E; cbn [nbind]; try done.
    intros [= <-]. by eapply CheckATOMBIOS_true.
  - unfold getBytesNoCopy in EV. specialize (Himg hb).
    destruct (Z.ltb_spec (off + hsz) (Z.of_nat (length table))),
      (Z.leb_spec (off + hsz + imageLength (header hb)) (Z.of_nat (length table))); try done.
    rewrite (wrap_small 32) by lia. apply IH; lia.
Qed.
End vfct.

(** What a source has; [first_of]: it is the first of them to have an image, those
    before it having none. *)
Definition offer : Type := source * nres (option (list Z)).
Definition first_of (l : list offer) (src : source) (d : list Z) : Prop :=
  exists before after, l = before ++ (src, NOk (Some d)) :: after /\ Forall (fun x => x.2 = NOk None) before.

Fixpoint first_image (l : list offer) : nres (option (source * list Z)) :=
  match l with
  | [] => NOk None
  | (src, NOk (Some d)) :: _ => NOk (Some (src, d))
  | (_, NOk None) :: l' => first_image l'
  | (_, NFault) :: _ => NFault
  | (_, NPanic) :: _ => NPanic
  end.

Lemma first_image_spec l :
  (forall src d, first_image l = NOk (Some (src, d)) <-> first_of l src d) /\
  (first_image l = NOk None <-> Forall (fun x => x.2 = NOk None) l).
Proof.
  induction l as [|[s x] l [IH1 IH2]]; simpl.
  { split; [|by split]. intros src d. split; [done|]. intros (b & a & E & _). by destruct b. }
  split.
  - intros src d. split.
    + destruct x as [[d'|]| |]; try done; [intros [= <- <-]; by exists [], l|].
      intros (b & a & -> & Hb)%IH1. exists ((s, NOk None) :: b), a. split; [done|by constructor].
    + intros (b & a & E & Hb). destruct b as [|y b]; simplify_eq/=; [done|].
      apply Forall_cons in Hb as [E Hb]. simpl in E. rewrite E. apply IH1. by exists b, a.
  - rewrite Forall_cons. simpl. destruct x as [[d'|]| |]; try (split; [done|by intros []]).
    rewrite IH2. naive_solver.
Qed.

(** The sources in the order of preference. *)
Definition offers (prop : option (list Z)) (strict vram rom relaxed : nres (option (list Z))) : list offer :=
  [(Override, match prop with
              | None => NOk None
              | Some p => let? ok := CheckATOMBIOS p (Z.of_nat (length p)) in NOk (if ok then Some p else None)
              end);
   (Vfct, strict); (Vram, vram); (ExpansionROM, rom); (VfctRelaxed, relaxed)].

Lemma GetVBIOS_first prop vfct vram rom :
  GetVBIOS prop vfct vram rom = first_image (offers prop (vfct true) vram rom (vfct false)).
Proof.
  unfold GetVBIOS, offers. cbn [first_image].
  by destruct (match prop with Some _ => _ | None => _ end) as [[]| |].
Qed.

(** The images of the sources. *)
Lemma vram_atom bar d : GetVBIOSFromVRAM bar = NOk (Some d) -> atom_image d.
Proof.
  unfold GetVBIOSFromVRAM. destruct bar as [[|x fb]|]; [done| |done]. apply prefix_atom. lia.
Qed.
Lemma rom_atom imageSize base rom d : (GetVBIOSFromExpansionROM imageSize base rom).1 = NOk (Some d) -> atom_image d.
Proof.
  unfold GetVBIOSFromExpansionROM. destruct (base =? 0); [done|]. destruct rom as [r|]; [|done].
  destruct (_ =? 0); [done|]. cbn [fst]. destruct (CheckATOMBIOS _ _) as [[]| |] eqn:E; cbn [nbind]; try done.
  intros [= <-]. by eapply CheckATOMBIOS_true.
Qed.

(** C32: the walk over the images of the ACPI table (shorter than 4 GiB, its headers
    not empty) always ends, and the video BIOS that the kext settles on is the one
    of the first source to have any, in this order: the user's override (an image
    given by the user is one exactly when it is an ATOM BIOS), the strict search
    of the table, the frame buffer, the expansion ROM, the relaxed search of the
    table; there is none exactly when no source has one; and whichever source it
    comes from, it is an ATOM BIOS. *)
Theorem GetVBIOS_atom hsz header me tsz first prop table bar imageSize base rom :
  0 < hsz -> (forall hb, 0 <= imageLength (header hb)) -> 0 <= first ->
  (forall t, table = Some t -> Z.of_nat (length t) < 2 ^ 32) ->
  exists strict relaxed,
    GetVBIOSFromVFCT hsz header me tsz first true table = Some strict /\
    GetVBIOSFromVFCT hsz header me tsz first false table = Some relaxed /\
    let vbios := GetVBIOS prop (fun s => if s then strict else relaxed) (GetVBIOSFromVRAM bar)
      (GetVBIOSFromExpansionROM imageSize base rom).1 in
    let l := offers prop strict (GetVBIOSFromVRAM bar) (GetVBIOSFromExpansionROM imageSize base rom).1 relaxed in
    (forall src d, vbios = NOk (Some (src, d)) <-> first_of l src d) /\
    (vbios = NOk None <-> Forall (fun x => x.2 = NOk None) l) /\
    (forall src d, (src, NOk (Some d)) ∈ l -> atom_image d) /\
    (forall d, (Override, NOk (Some d)) ∈ l <-> prop = Some d /\ atom_image d).
Proof.
  intros Hh Hi Hf Ht.
  assert (forall b, exists r, GetVBIOSFromVFCT hsz header me tsz first b table = Some r /\
    forall d, r = NOk (Some d) -> atom_image d) as Hv.
  { intros b. unfold GetVBIOSFromVFCT. destruct table as [t|]; [|by eexists].
    destruct (_ <? tsz); [by eexists|]. apply vfct_loop_total; try done; [by apply Ht|lia|lia]. }
  destruct (Hv true) as (r1 & E1 & A1), (Hv false) as (r2 & E2 & A2).
  exists r1, r2. split; [done|]. split; [done|]. cbv zeta. rewrite GetVBIOS_first.
  set (l := offers _ _ _ _ _). destruct (first_image_spec l) as [F1 F2]. split; [done|]. split; [done|].
  assert (forall d, (Override, NOk (Some d)) ∈ l <-> prop = Some d /\ atom_image d) as Hov.
  { intros d. rewrite <- CheckATOMBIOS_whole. unfold l, offers. rewrite !elem_of_cons, elem_of_nil. split.
    - intros [E|[?|[?|[?|[?|[]]]]]]; try done. destruct prop as [p|]; [|done].
      destruct (CheckATOMBIOS p _) as [[]| |] eqn:Ep; simplify_eq/=. done.
    - intros [-> ->]. by left. }
  split; [|done]. intros src d. unfold l, offers. rewrite !elem_of_cons, elem_of_nil.
  intros [E|[[= -> E]|[[= -> E]|[[= -> E]|[[= -> E]|[]]]]]]; [|eauto using vram_atom, rom_atom..].
  - assert (src = Override) as -> by congruence. apply Hov. unfold l, offers. rewrite E. by left.
Qed.

(** An image of 128 bytes as the override. *)
Definition demo_image : list Z :=
  [0x55; 0xAA] ++ replicate 70 0 ++ [0x60; 0] ++ replicate 26 0 ++ ATOM ++ replicate 24 0.

(** Preferred to the same image in the expansion ROM, which is found without it. *)
Lemma GetVBIOS_atom_witness :
  atom_image demo_image /\
  first_of (offers (Some demo_image) (NOk None) (NOk None) (NOk (Some demo_image)) (NOk None)) Override demo_image /\
  first_of (offers None (NOk None) (NOk None) (NOk (Some demo_image)) (NOk None)) ExpansionROM demo_image.
Proof.
  destruct (GetVBIOS_atom 20 (fun _ => mk_vhdr 0 0 0 0 0 0) (mk_pci 0 0 0 0 0) 8 0 (Some demo_image) None
    None 128 0x1000 (Some demo_image) ltac:(lia) ltac:(intros; reflexivity || (simpl; lia)) ltac:(lia) ltac:(discriminate))
    as (strict & relaxed & [= <-] & [= <-] & F & _ & A & _).
  destruct (GetVBIOS_atom 20 (fun _ => mk_vhdr 0 0 0 0 0 0) (mk_pci 0 0 0 0 0) 8 0 None None
    None 128 0x1000 (Some demo_image) ltac:(lia) ltac:(intros; reflexivity || (simpl; lia)) ltac:(lia) ltac:(discriminate))
    as (strict & relaxed & [= <-] & [= <-] & F' & _).
  split; [apply (A Override); left|]. split.
  - exact (proj1 (F Override demo_image) eq_refl).
  - exact (proj1 (F' ExpansionROM demo_image) eq_refl).
Defined.

(** The size check of a video BIOS is one byte short: an image of [0x49]
    bytes with the right signature passes it, and then its byte at [0x49],
    behind the end, is read. *)
Theorem CheckATOMBIOS_overrun :
  let B := [0x55; 0xAA] ++ replicate 71 0 in
  length B = 0x49%nat /\ CheckATOMBIOS B (Z.of_nat (length B)) = NFault.
Proof. split; reflexivity. Qed.

(** ** The firmware's mailbox *)

Section mailbox.
Context (I2 D2 M66 M82 M90 NoResponse TIMEOUT : Z).
Context {G : Type} (rd : Z -> G -> G * Z) (wr : Z -> Z -> G -> G) (len : Z).

(** The accesses, in the order in which they are made: a register inside of the
    mapping is accessed itself, any other through the index and data registers. *)
Definition reading (reg v : Z) : list Mmio.event :=
  if decide (reg * 4 < len) then [Mmio.Rd reg v] else [Mmio.Wr I2 reg; Mmio.Rd D2 v].
Definition writing (reg v : Z) : list Mmio.event :=
  if decide (reg * 4 < len) then [Mmio.Wr reg v] else [Mmio.Wr I2 reg; Mmio.Wr D2 v].

(** [waited n k v]: of at most [n] polls of the response register, a millisecond
    apart, [k] find none and the next one finds [v]; or all [n] find none. *)
Definition unanswered (k : nat) : list Mmio.event := concat (replicate k (reading M90 NoResponse ++ [Mmio.Sleep])).
Inductive waited (n : nat) : Z -> list Mmio.event -> Prop :=
  | waited_answer k v : (k < n)%nat -> v <> NoResponse -> waited n v (unanswered k ++ reading M90 v)
  | waited_timeout : waited n NoResponse (unanswered n).

Lemma ReadRegion_reading r g :
  let '(g', v) := Mmio.ReadRegion32Bit I2 D2 rd wr len r g in rev g'.2 = rev g.2 ++ reading r v.
Proof.
  unfold Mmio.ReadRegion32Bit, Mmio.load, Mmio.store, reading.
  destruct (Z.ltb_spec (r * 4) len); cbn [fst snd]; destruct (rd _ _) as [g1 v]; cbn [snd rev];
    [rewrite decide_True by done|rewrite decide_False by lia]; by rewrite <- ?app_assoc.
Qed.

Lemma WriteRegion_writing r v g :
  rev (Mmio.WriteRegion32Bit I2 D2 wr len r v g).2 = rev g.2 ++ writing r v.
Proof.
  unfold Mmio.WriteRegion32Bit, Mmio.store, writing.
  destruct (Z.ltb_spec (r * 4) len); cbn [fst snd rev];
    [rewrite decide_True by done|rewrite decide_False by lia]; by rewrite <- ?app_assoc.
Qed.

Lemma wait_loop_waited n g :
  let '(g', v) := Mmio.wait_loop I2 D2 M90 NoResponse rd wr len n NoResponse g in
  exists l, rev g'.2 = rev g.2 ++ l /\ waited n v l.
Proof.
  revert g. induction n as [|n IH]; intros g; cbn [Mmio.wait_loop].
  { exists []. split; [by rewrite app_nil_r|apply waited_timeout]. }
  pose proof (ReadRegion_reading M90 g) as Hr.
  destruct (Mmio.ReadRegion32Bit _ _ _ _ _ _ _) as [g1 x]. destruct (Z.eqb_spec x NoResponse) as [->|Hx]; cbn [negb].
  - specialize (IH (g1.1, Mmio.Sleep :: g1.2)). destruct (Mmio.wait_loop _ _ _ _ _ _ _ _ _ _) as [g2 v].
    destruct IH as (l & El & Hw). cbn [snd rev] in El. rewrite Hr in El.
    exists ((reading M90 NoResponse ++ [Mmio.Sleep]) ++ l). split; [by rewrite El, <- !app_assoc|].
    destruct Hw as [k v Hk Hv|]; [|apply waited_timeout].
    rewrite app_assoc. apply (waited_answer (S n) (S k)); [lia|done].
  - exists (reading M90 x). split; [done|]. apply (waited_answer (S n) 0); [lia|done].
Qed.

(** C35: whatever the GPU answers and wherever its registers are mapped, a message
    to its firmware makes these accesses, in this order, and no others: it polls
    the response register once a millisecond until there is a response, at most as
    often as the timeout says; it writes the argument, the cleared response and
    last the message; it polls again in the same way, and the response of this
    second wait is the one it reports (none only after as many polls as the timeout
    says); and if an output is asked for, it reads the argument register and
    returns what it reads.  A register outside of the mapping is accessed by
    writing its number to the index register and accessing the data register. *)
Theorem SendMessageToSMC_order Message Param out g :
  let '(g', r, o) := Mmio.SendMessageToSMC I2 D2 M66 M82 M90 NoResponse TIMEOUT rd wr len Message Param out g in
  exists v before after,
    waited (Z.to_nat TIMEOUT) v before /\ waited (Z.to_nat TIMEOUT) r after /\
    rev g'.2 = rev g.2 ++ before ++ (writing M82 Param ++ writing M90 0 ++ writing M66 Message) ++ after ++
                 match o with Some x => reading M82 x | None => [] end /\
    (is_Some o <-> out = true).
Proof.
  unfold Mmio.SendMessageToSMC, Mmio.SMUWaitForResponse.
  pose proof (wait_loop_waited (Z.to_nat TIMEOUT) g) as H1.
  destruct (Mmio.wait_loop _ _ _ _ _ _ _ _ _ g) as [g1 v1]. destruct H1 as (before & E1 & W1).
  set (g2 := Mmio.WriteRegion32Bit _ _ _ _ M66 _ _).
  assert (rev g2.2 = rev g1.2 ++ writing M82 Param ++ writing M90 0 ++ writing M66 Message) as E2.
  { unfold g2. by rewrite !WriteRegion_writing, <- !app_assoc. }
  pose proof (wait_loop_waited (Z.to_nat TIMEOUT) g2) as H3.
  destruct (Mmio.wait_loop _ _ _ _ _ _ _ _ _ g2) as [g3 r]. destruct H3 as (after & E3 & W3).
  destruct out.
  - pose proof (ReadRegion_reading M82 g3) as H4. destruct (Mmio.ReadRegion32Bit _ _ _ _ _ _ _) as [g4 x].
    exists v1, before, after. split_and!; [done|done| |by split].
    rewrite H4, E3, E2, E1. by rewrite <- !app_assoc.
  - exists v1, before, after. split_and!; [done|done| |by split; [intros []|]].
    rewrite E3, E2, E1. by rewrite <- !app_assoc, app_nil_r.
Qed.
End mailbox.

(** A device that answers nothing but the third poll, with a timeout of two and the
    response register outside of the mapping. *)
Lemma SendMessageToSMC_order_witness :
  exists v before after,
    waited 8 9 90 0 360 2 v before /\ waited 8 9 90 0 360 2 1 after /\
    [Mmio.Wr 8 90; Mmio.Rd 9 0; Mmio.Sleep; Mmio.Wr 8 90; Mmio.Rd 9 0; Mmio.Sleep;
     Mmio.Wr 82 6; Mmio.Wr 8 90; Mmio.Wr 9 0; Mmio.Wr 66 5; Mmio.Wr 8 90; Mmio.Rd 9 1] =
    [] ++ before ++ (writing 8 9 360 82 6 ++ writing 8 9 360 90 0 ++ writing 8 9 360 66 5) ++ after ++ [].
Proof.
  destruct (SendMessageToSMC_order 8 9 66 82 90 0 2 (fun _ (n : nat) => (S n, if (n =? 2)%nat then 1 else 0))
    (fun _ _ n => n) 360 5 6 false (0%nat, [])) as (v & before & after & W1 & W2 & E & _).
  exists v, before, after. split; [exact W1|]. split; [exact W2|exact E].
Defined.
