(* ===== verification/Backlight.v ===== *)
(** The backlight module of NootedDeck (NootedDeck/Backlight.cpp and its
    header): the wrappers of the frame buffer's attributes turn the level that
    the system asks for into a level of the embedded panel.

    The original functions, the panel and the display's properties are
    arguments; the calls to the panel are recorded. *)

From Stdlib Require Import ZArith Lia List Bool Ascii String.
From stdpp Require Import prelude gmap strings.
From S2P Require Import Prelude Find NDeck.

Open Scope Z_scope.

(** ** State *)

Record Backlight := mk_bl {
  ModuleLoaded : bool;
  DcLinkCapabillsField : Z;
  CurrentPwmBacklightLevel : Z;
  MaxPwmBacklightLevel : Z;
  MaxOLED : Z;
  EmbeddedPanelLink : Z;
  SupportsAUX : bool
}.

(** The members' initialisers. *)
Definition Instance0 : Backlight := mk_bl false Field.InvalidOffset 0 0xFFFF (1000 * 512) 0 false.

Definition FBAttributeBacklight : Z := 0x626B6C74.

(** [kIOReturnSuccess], [kIOReturnInternalError] and [kIOReturnDeviceError]. *)
Inductive IOReturn := Success | InternalError | DeviceError | Other (r : Z).

(** The offset of the capabilities in a link, by kernel version. *)
Definition caps_field (version : Z) : option Z :=
  if version =? 19 then Some 0x1EA
  else if version =? 20 then Some 0x26C
  else if version =? 21 then Some 0x284
  else if (version =? 22) || (version =? 23) || (version =? 24) || (version =? 25) then Some 0x28C
  else None.

(** [None] is a panic; the second result is whether the module is enabled. *)
Definition StartModule (laptop : bool) (bootArg : option bool) (version : Z) (b : Backlight)
    : option (Backlight * bool) :=
  if ModuleLoaded b then None
  else
    let b := mk_bl true (DcLinkCapabillsField b) (CurrentPwmBacklightLevel b) (MaxPwmBacklightLevel b)
               (MaxOLED b) (EmbeddedPanelLink b) (SupportsAUX b) in
    if negb laptop && negb (match bootArg with Some x => x | None => false end) then Some (b, false)
    else
      match caps_field version with
      | None => None
      | Some o =>
          match Field.assign (DcLinkCapabillsField b) o with
          | None => None
          | Some o =>
              Some (mk_bl true o (CurrentPwmBacklightLevel b) (MaxPwmBacklightLevel b) (MaxOLED b)
                      (EmbeddedPanelLink b) (SupportsAUX b), true)
          end
      end.

(** [max]: the display's number under [linear-brightness], if there is one. *)
Definition OnAppleBacklightDisplayLoad (max : option Z) (b : Backlight) : Backlight * bool :=
  match max with
  | None => (b, false)
  | Some n =>
      if u32 n =? 0 then (b, false)
      else (mk_bl (ModuleLoaded b) (DcLinkCapabillsField b) (CurrentPwmBacklightLevel b) (u32 n) (MaxOLED b)
              (EmbeddedPanelLink b) (SupportsAUX b), true)
  end.

(** A call to the panel: in millinits, or as a duty cycle. *)
Inductive panel_call :=
  | SetNits (link millinits transition : Z)
  | SetLevel (link pwm ramp : Z).

(** [org]: the result of the original function; [panel]: what the panel's
    function returns. *)
Definition wrapSetAttributeForConnection (org : IOReturn) (panel : panel_call -> bool)
    (Attribute Value : Z) (b : Backlight) : Backlight * list panel_call * IOReturn :=
  if negb (Attribute =? FBAttributeBacklight) then (b, [], org)
  else
    let b := mk_bl (ModuleLoaded b) (DcLinkCapabillsField b) (u32 Value) (MaxPwmBacklightLevel b) (MaxOLED b)
               (EmbeddedPanelLink b) (SupportsAUX b) in
    if MaxPwmBacklightLevel b =? 0 then (b, [], InternalError)
    else
      let percentage := u32 (CurrentPwmBacklightLevel b * 100) / MaxPwmBacklightLevel b in
      if SupportsAUX b then
        let AuxValue := u32 (MaxOLED b * percentage) / 100 in
        (b, [SetNits (EmbeddedPanelLink b) AuxValue 15000], DeviceError)
      else
        let PwmValue := u32 (percentage * 0xFFFF) / 100 in
        let c := SetLevel (EmbeddedPanelLink b) PwmValue 0 in
        (b, [c], if panel c then Success else DeviceError).

(** The result and the value stored, if any. *)
Definition wrapGetAttributeForConnection (org : IOReturn) (Attribute : Z) (b : Backlight)
    : IOReturn * option Z :=
  if negb (Attribute =? FBAttributeBacklight) then (org, None)
  else (Success, Some (CurrentPwmBacklightLevel b)).

(** [SIGNAL_TYPE_LVDS], [SIGNAL_TYPE_EDP] and [DC_DPCD_EXT_CAPS_OLED] are
    arguments; [link] is what the original function returned, [m] the memory of
    the driver; the number of warnings; [None] is a panic. *)
Definition WrapLinkCreate (LVDS EDP OLED : Z) (m : mem) (link : Z) (b : Backlight)
    : option (Backlight * nat) :=
  if link =? 0 then Some (b, 0%nat)
  else
    let SignalType := ld32 m (link + 0x38) in
    let warn (b : Backlight) := if negb (EmbeddedPanelLink b =? 0) then 1%nat else 0%nat in
    let set (b : Backlight) (aux : bool) :=
      mk_bl (ModuleLoaded b) (DcLinkCapabillsField b) (CurrentPwmBacklightLevel b) (MaxPwmBacklightLevel b)
        (MaxOLED b) link aux in
    let edp (b : Backlight) (w : nat) :=
      match Field.get 1 m (DcLinkCapabillsField b) link with
      | None => None
      | Some caps => Some (set b (truth (caps .& OLED)), (w + warn b)%nat)
      end in
    if SignalType =? LVDS then
      let w := warn b in
      let b := set b (SupportsAUX b) in
      edp b w
    else if SignalType =? EDP then edp b 0%nat
    else Some (b, 0%nat).

(** The panels added to the property, once. *)
Definition AppleBacklightData : list (string * list Z) :=
  [("F14Txxxx"%string,
    [0x00; 0x11; 0x00; 0x00; 0x00; 0x34; 0x00; 0x52; 0x00; 0x73; 0x00; 0x94;
     0x00; 0xBE; 0x00; 0xFA; 0x01; 0x36; 0x01; 0x72; 0x01; 0xC5; 0x02; 0x2F;
     0x02; 0xB9; 0x03; 0x60; 0x04; 0x1A; 0x05; 0x0A; 0x06; 0x0E; 0x07; 0x10]);
   ("F15Txxxx"%string,
    [0x00; 0x11; 0x00; 0x00; 0x00; 0x36; 0x00; 0x54; 0x00; 0x7D; 0x00; 0xB2;
     0x00; 0xF5; 0x01; 0x49; 0x01; 0xB1; 0x02; 0x2B; 0x02; 0xB8; 0x03; 0x59;
     0x04; 0x13; 0x04; 0xEC; 0x05; 0xF3; 0x07; 0x34; 0x08; 0xAF; 0x0A; 0xD9]);
   ("F16Txxxx"%string,
    [0x00; 0x11; 0x00; 0x00; 0x00; 0x18; 0x00; 0x27; 0x00; 0x3A; 0x00; 0x52;
     0x00; 0x71; 0x00; 0x96; 0x00; 0xC4; 0x00; 0xFC; 0x01; 0x40; 0x01; 0x93;
     0x01; 0xF6; 0x02; 0x6E; 0x02; 0xFE; 0x03; 0xAA; 0x04; 0x78; 0x05; 0x6C]);
   ("F17Txxxx"%string,
    [0x00; 0x11; 0x00; 0x00; 0x00; 0x1F; 0x00; 0x34; 0x00; 0x4F; 0x00; 0x71;
     0x00; 0x9B; 0x00; 0xCF; 0x01; 0x0E; 0x01; 0x5D; 0x01; 0xBB; 0x02; 0x2F;
     0x02; 0xB9; 0x03; 0x60; 0x04; 0x29; 0x05; 0x1E; 0x06; 0x44; 0x07; 0xA1]);
   ("F18Txxxx"%string,
    [0x00; 0x11; 0x00; 0x00; 0x00; 0x53; 0x00; 0x8C; 0x00; 0xD5; 0x01; 0x31;
     0x01; 0xA2; 0x02; 0x2E; 0x02; 0xD8; 0x03; 0xAE; 0x04; 0xAC; 0x05; 0xE5;
     0x07; 0x59; 0x09; 0x1C; 0x0B; 0x3B; 0x0D; 0xD0; 0x10; 0xEA; 0x14; 0x99]);
   ("F19Txxxx"%string,
    [0x00; 0x11; 0x00; 0x00; 0x02; 0x8F; 0x03; 0x53; 0x04; 0x5A; 0x05; 0xA1;
     0x07; 0xAE; 0x0A; 0x3D; 0x0E; 0x14; 0x13; 0x74; 0x1A; 0x5E; 0x24; 0x18;
     0x31; 0xA9; 0x44; 0x59; 0x5E; 0x76; 0x83; 0x11; 0xB6; 0xC7; 0xFF; 0x7B]);
   ("F24Txxxx"%string,
    [0x00; 0x11; 0x00; 0x01; 0x00; 0x34; 0x00; 0x52; 0x00; 0x73; 0x00; 0x94;
     0x00; 0xBE; 0x00; 0xFA; 0x01; 0x36; 0x01; 0x72; 0x01; 0xC5; 0x02; 0x2F;
     0x02; 0xB9; 0x03; 0x60; 0x04; 0x1A; 0x05; 0x0A; 0x06; 0x0E; 0x07; 0x10])].

(** [panels->setObject] for every entry whose data could be allocated. *)
Fixpoint add_panels (l : list (string * list Z)) (alloc : string -> bool) (p : gmap string (list Z))
    : gmap string (list Z) :=
  match l with
  | [] => p
  | (DeviceName, DeviceData) :: l' =>
      add_panels l' alloc (if alloc DeviceName then <[DeviceName := DeviceData]> p else p)
  end.

(** [prop]: the dictionary under [ApplePanels], if there is one; [copied]: whether
    it can be copied; the new value of the flag and of the property. *)
Definition WrapApplePanelSetDisplay (once copied : bool) (alloc : string -> bool)
    (prop : option (gmap string (list Z))) : bool * option (gmap string (list Z)) :=
  if once then (once, prop)
  else (true, match prop with
              | None => None
              | Some p => Some (if copied then add_panels AppleBacklightData alloc p else p)
              end).

(** ** Patterns *)

Definition KDcePanelCntlHwInitPattern : list Z :=
  [0x55; 0x48; 0x89; 0xE5; 0x41; 0x57; 0x41; 0x56; 0x41; 0x55; 0x41; 0x54; 0x53; 0x50; 0x49;
   0x89; 0xFD; 0x4C; 0x8D; 0x45; 0xD4; 0x41; 0xC7; 0x00; 0x00; 0x00; 0x00; 0x00].

Definition KDcePanelCntlHwInitPattern1404 : list Z :=
  [0x55; 0x48; 0x89; 0xE5; 0x41; 0x57; 0x41; 0x56; 0x41; 0x54; 0x53; 0x48; 0x83; 0xEC; 0x10;
   0x48; 0x89; 0xFB; 0x4C; 0x8D; 0x45; 0xDC; 0x41; 0xC7; 0x00; 0x00; 0x00; 0x00; 0x00].

Definition KDceDriverSetBacklightPattern : list Z :=
  [0x55; 0x48; 0x89; 0xE5; 0x41; 0x57; 0x41; 0x56; 0x41; 0x55; 0x41; 0x54; 0x53; 0x50; 0x41;
   0x89; 0xF0; 0x40; 0x89; 0xF0] ++ replicate 18 0 ++
  [0x48; 0x8B; 0x7F; 0x08; 0x40; 0x8B; 0x40;
   0x28; 0x8B; 0x70; 0x10].

Definition KDceDriverSetBacklightPatternMask : list Z :=
  replicate 16 0xFF ++
  [0xF0; 0xF0; 0xFF; 0xF0] ++ replicate 18 0 ++
  [0xFF; 0xFF; 0xFF; 0xFF; 0xF0; 0xFF; 0xF0;
   0xFF; 0xFF; 0xFF; 0xFF].

Definition KLinkCreatePattern : list Z :=
  [0x55; 0x48; 0x89; 0xE5; 0x41; 0x57; 0x41; 0x56; 0x41; 0x55; 0x41; 0x54; 0x53; 0x48; 0x81;
   0xEC; 0x00; 0x03; 0x00; 0x00; 0x49; 0x89; 0xFD; 0x48; 0x8B; 0x05; 0x00; 0x00; 0x00; 0x00;
   0x48; 0x8B; 0x00; 0x48; 0x00; 0x00; 0x00; 0xBF; 0x00; 0x00; 0x00; 0x00; 0xE8; 0x00; 0x00;
   0x00; 0x00].

Definition KLinkCreatePatternMask : list Z :=
  replicate 16 0xFF ++
  [0x00; 0xFF; 0x00; 0x00; 0xFF; 0xFF; 0xFF; 0xFF; 0xFF; 0xFF; 0x00; 0x00; 0x00; 0x00;
   0xFF; 0xFF; 0x00; 0xFF; 0x00; 0x00; 0x00; 0xFF; 0x00; 0x00; 0x00; 0x00; 0xFF; 0x00; 0x00;
   0x00; 0x00].

Definition KDcLinkSetBacklightLevelPattern : list Z :=
  [0x55; 0x48; 0x89; 0xE5; 0x41; 0x57; 0x41; 0x56; 0x41; 0x55; 0x41; 0x54; 0x53; 0x50; 0x41;
   0x89; 0xD6; 0x41; 0x89; 0xF4].

Definition KDcLinkSetBacklightLevelPattern1404 : list Z :=
  [0x55; 0x48; 0x89; 0xE5; 0x41; 0x57; 0x41; 0x56; 0x41; 0x55; 0x41; 0x54; 0x53; 0x50; 0x89;
   0xD3; 0x41; 0x89; 0xF6; 0x49; 0x89; 0xFC].

Definition KDcLinkSetBacklightLevelNitsPattern : list Z :=
  [0x55; 0x48; 0x89; 0xE5; 0x53; 0x50; 0x40; 0x88; 0x75; 0x00; 0x48; 0x85; 0xFF; 0x74; 0x00].

Definition KDcLinkSetBacklightLevelNitsPatternMask : list Z :=
  [0xFF; 0xFF; 0xFF; 0xFF; 0xFF; 0xFF; 0xFF; 0xFF; 0xFF; 0x00; 0xFF; 0xFF; 0xFF; 0xFF; 0x00].

(** A masked pattern can match only if it has no bit outside of its mask. *)
Definition in_mask (ptn msk : list Z) : bool :=
  (length ptn =? length msk)%nat && forallb (fun pk => Z.land pk.1 pk.2 =? pk.1) (zip ptn msk).

Lemma in_mask_needed m a ptn msk :
  matches m a ptn (Some msk) -> forall i p, ptn !! i = Some p -> exists k, msk !! i = Some k /\ p .& k = p.
Proof.
  intros H i p Hp. destruct (H i p Hp) as (k & Hk & <-). exists k. split; [done|].
  by rewrite <- Z.land_assoc, Z.land_diag.
Qed.

Lemma patterns_in_mask :
  in_mask KDceDriverSetBacklightPattern KDceDriverSetBacklightPatternMask = true /\
  in_mask KLinkCreatePattern KLinkCreatePatternMask = true /\
  in_mask KDcLinkSetBacklightLevelNitsPattern KDcLinkSetBacklightLevelNitsPatternMask = true.
Proof. split_and!; reflexivity. Qed.

(** ** Levels *)

(** The share of the maximum, in percent. *)
Definition percent (level max : Z) : Z := level * 100 / max.

Lemma percent_range level max : 0 <= level <= max -> 0 < max -> 0 <= percent level max <= 100.
Proof.
  intros Hl Hm. unfold percent. split; [apply Z.div_pos; lia|].
  apply Z.div_le_upper_bound; lia.
Qed.

Lemma percent_mono a b max : 0 <= a <= b -> 0 < max -> percent a max <= percent b max.
Proof. intros Hab Hm. apply Z.div_le_mono; lia. Qed.

(** C36: with a maximum of at most [(2^32 - 1) / 100] and a level up to it, a
    panel driven by duty cycle is given the level's percentage of the full
    cycle: never more than the full cycle, all of it at the maximum, nothing at
    zero, never less for a higher level; the level is what is read back; and
    the result says whether the panel accepted it. *)
Theorem backlight_pwm org panel b level :
  0 < MaxPwmBacklightLevel b -> MaxPwmBacklightLevel b * 100 < 2 ^ 32 ->
  0 <= level <= MaxPwmBacklightLevel b -> SupportsAUX b = false ->
  let pwm l := percent l (MaxPwmBacklightLevel b) * 0xFFFF / 100 in
  let '(b', calls, r) := wrapSetAttributeForConnection org panel FBAttributeBacklight level b in
  calls = [SetLevel (EmbeddedPanelLink b) (pwm level) 0] /\
  0 <= pwm level <= 0xFFFF /\ (level = 0 -> pwm level = 0) /\
  (level = MaxPwmBacklightLevel b -> pwm level = 0xFFFF) /\
  (forall l, level <= l <= MaxPwmBacklightLevel b -> pwm level <= pwm l) /\
  wrapGetAttributeForConnection org FBAttributeBacklight b' = (Success, Some level) /\
  (r = Success <-> panel (SetLevel (EmbeddedPanelLink b) (pwm level) 0) = true).
Proof.
  intros Hm Hb Hl Ha pwm. unfold wrapSetAttributeForConnection. rewrite Z.eqb_refl. cbn [negb].
  simpl MaxPwmBacklightLevel. simpl SupportsAUX. simpl CurrentPwmBacklightLevel. simpl EmbeddedPanelLink.
  rewrite (proj2 (Z.eqb_neq (MaxPwmBacklightLevel b) 0)) by lia. rewrite Ha.
  rewrite (wrap_small 32 level), (wrap_small 32 (level * 100)) by lia.
  fold (percent level (MaxPwmBacklightLevel b)).
  pose proof (percent_range level (MaxPwmBacklightLevel b) Hl Hm) as Hp.
  rewrite (wrap_small 32) by lia. fold (pwm level).
  assert (forall x y, x <= y -> x * 0xFFFF / 100 <= y * 0xFFFF / 100) as Hmono by (intros; apply Z.div_le_mono; lia).
  split_and!; try done.
  - apply Z.div_pos; lia.
  - unfold pwm. change 0xFFFF with (100 * 0xFFFF / 100) at 2. apply Hmono. lia.
  - intros ->. unfold pwm, percent. done.
  - intros ->. unfold pwm. replace (percent _ _) with 100; [done|].
    unfold percent. rewrite Z.mul_comm, Z.div_mul by lia. done.
  - intros l Hle. apply Hmono, percent_mono; lia.
  - destruct (panel _); split; done.
Qed.

Lemma backlight_pwm_witness :
  (wrapSetAttributeForConnection Success (fun _ => true) FBAttributeBacklight 0xFFFF Instance0).1.2 =
  [SetLevel 0 0xFFFF 0].
Proof.
  exact (proj1 (backlight_pwm Success (fun _ => true) Instance0 0xFFFF
    ltac:(reflexivity) ltac:(reflexivity) ltac:(simpl; lia) eq_refl)).
Defined.

(** For a panel driven over AUX every change of the brightness is reported
    as a device error, also when the panel was given the new value and accepted
    it. *)
Theorem backlight_aux_error org panel b level :
  SupportsAUX b = true -> MaxPwmBacklightLevel b <> 0 ->
  exists b' nits,
    wrapSetAttributeForConnection org panel FBAttributeBacklight level b =
      (b', [SetNits (EmbeddedPanelLink b) nits 15000], DeviceError) /\
    CurrentPwmBacklightLevel b' = u32 level.
Proof.
  intros Ha Hm. unfold wrapSetAttributeForConnection. rewrite Z.eqb_refl. cbn [negb]. simpl.
  rewrite (proj2 (Z.eqb_neq _ _) Hm), Ha. by eexists _, _.
Qed.

Lemma backlight_aux_error_witness :
  let b := mk_bl true 0x28C 0 0xFFFF 512000 16 true in
  exists b' nits, wrapSetAttributeForConnection Success (fun _ => true) FBAttributeBacklight 5 b =
    (b', [SetNits 16 nits 15000], DeviceError).
Proof.
  destruct (backlight_aux_error Success (fun _ => true) (mk_bl true 0x28C 0 0xFFFF 512000 16 true) 5
    eq_refl ltac:(discriminate)) as (b' & nits & E & _).
  exists b', nits. exact E.
Defined.

(** The percentage overflows for a maximum above [42949672]: at half of a
    maximum of [2^31] the panel is switched off. *)
Lemma backlight_overflow :
  let b := mk_bl true 0x28C 0 (2 ^ 31) 512000 16 false in
  wrapSetAttributeForConnection Success (fun _ => true) FBAttributeBacklight (2 ^ 30) b =
  (mk_bl true 0x28C (2 ^ 30) (2 ^ 31) 512000 16 false, [SetLevel 16 0 0], Success).
Proof. reflexivity. Qed.

(** The case of an LVDS link has no [break]: it falls into that of an
    embedded display port, so that every LVDS link is reported as a second
    panel even when it is the first, and the capabilities of a display port are
    read from it to choose how its brightness is set. *)
Theorem WrapLinkCreate_lvds_falls_through LVDS EDP OLED m link b :
  link <> 0 -> ld32 m (link + 0x38) = LVDS -> EmbeddedPanelLink b = 0 ->
  DcLinkCapabillsField b <> Field.InvalidOffset ->
  exists b', WrapLinkCreate LVDS EDP OLED m link b = Some (b', 1%nat) /\ EmbeddedPanelLink b' = link /\
    SupportsAUX b' = truth (ldn 1 m (link + DcLinkCapabillsField b) .& OLED).
Proof.
  intros Hl Hs He Hf. unfold WrapLinkCreate, Field.get.
  rewrite (proj2 (Z.eqb_neq _ _) Hl), Hs, Z.eqb_refl, He. cbn [negb Z.eqb EmbeddedPanelLink DcLinkCapabillsField].
  rewrite (proj2 (Z.eqb_neq _ _) Hf), (proj2 (Z.eqb_neq _ _) Hl). by eexists.
Qed.

Lemma WrapLinkCreate_lvds_falls_through_witness :
  exists b', WrapLinkCreate 5 9 1 (fun x => if x =? 0x138 then 5 else 0) 0x100
    (mk_bl true 0x28C 0 0xFFFF 512000 0 false) = Some (b', 1%nat).
Proof.
  destruct (WrapLinkCreate_lvds_falls_through 5 9 1 (fun x => if x =? 0x138 then 5 else 0) 0x100
    (mk_bl true 0x28C 0 0xFFFF 512000 0 false)) as (b' & E & _).
  - discriminate.
  - vm_compute. reflexivity.
  - reflexivity.
  - discriminate.
  - exists b'. exact E.
Defined.
