(* ===== verification/QSort.v ===== *)
(** The sort of Lilu (Lilu/Sources/kern_qsort.cpp), after Bentley and McIlroy.

    The pointers of the code are positions in an array of elements of [es]
    bytes: [a + i * es] is the position [i].  Distances in bytes that the code
    keeps in variables of type [int] are cut to that width ([d], [r]); a
    distance that is not a multiple of the size, or a position outside of the
    array, is a [Fault].  How two elements are exchanged in memory, by words or
    by bytes, is the first section. *)

From Stdlib Require Import ZArith Lia List Bool Permutation Sorted.
From stdpp Require Import prelude.
From S2P Require Import Prelude.

Open Scope Z_scope.

(** ** Exchanging bytes *)

(** [swapcode]: [i] words of [w] bytes; the body runs at least once. *)
Fixpoint swap_words (w : nat) (m : mem) (pi pj : Z) (i : nat) : mem :=
  let t := ldn w m pi in
  let m := stn w m pi (ldn w m pj) in
  let m := stn w m pj t in
  match i with
  | S (S _ as i') => swap_words w m (pi + Z.of_nat w) (pj + Z.of_nat w) i'
  | _ => m
  end.

(** [SWAPINIT]: 0 for single words, 1 for several words, 2 for bytes. *)
Definition SWAPINIT (a es : Z) : Z :=
  if truth (a mod 8) || truth (es mod 8) then 2 else if es =? 8 then 0 else 1.

Definition swapfunc (m : mem) (a b n swaptype : Z) : mem :=
  if swaptype <=? 1 then swap_words 8 m a b (Z.to_nat (n / 8)) else swap_words 1 m a b (Z.to_nat n).

(** The macro [swap]. *)
Definition swap_bytes (m : mem) (a b es swaptype : Z) : mem :=
  if swaptype =? 0 then
    let t := ldn 8 m a in stn 8 (stn 8 m a (ldn 8 m b)) b t
  else swapfunc m a b es swaptype.

(** ** The sort on positions *)

Section qsort.
Context {E : Type} (es : Z) (cmp : E -> E -> Z).

Definition ix (l : list E) (i : Z) : option E := if i <? 0 then None else l !! Z.to_nat i.

Definition get (l : list E) (i : Z) : res E :=
  match ix l i with Some x => Ok x | None => Fault end.

Definition swap (l : list E) (i j : Z) : res (list E) :=
  let! x := get l i in
  let! y := get l j in
  Ok (<[Z.to_nat j := x]> (<[Z.to_nat i := y]> l)).

(** [cmp(p, q)] of the elements at two positions. *)
Definition cmp_at (l : list E) (i j : Z) : res Z :=
  let! x := get l i in
  let! y := get l j in
  Ok (cmp x y).

(** A distance in bytes, in elements. *)
Definition elts (r : Z) : res Z := if r mod es =? 0 then Ok (r / es) else Fault.

(** [swapfunc] over [k] elements. *)
Fixpoint swap_range (k : nat) (l : list E) (i j : Z) : res (list E) :=
  match k with
  | O => Ok l
  | S k' => let! l := swap l i j in swap_range k' l (i + 1) (j + 1)
  end.

(** [vecswap(p, q - r, r)] with [r] in bytes. *)
Definition vecswap (l : list E) (p q r : Z) : res (list E) :=
  if 0 <? r then let! k := elts r in swap_range (Z.to_nat k) l p (q - k) else Ok l.

Definition med3 (l : list E) (a b c : Z) : res Z :=
  let! ab := cmp_at l a b in
  let! bc := cmp_at l b c in
  let! ac := cmp_at l a c in
  Ok (if ab <? 0 then (if bc <? 0 then b else if ac <? 0 then c else a)
      else if 0 <? bc then b else if ac <? 0 then a else c).

(** The insertion sort: its inner loop, which moves the element at [pl] down,
    and its outer loop, [k] elements from [pm] on. *)
Fixpoint sift (fuel : nat) (l : list E) (a pl : Z) : res (list E) :=
  match fuel with
  | O => NoFuel
  | S f =>
      if a <? pl then
        let! r := cmp_at l (pl - 1) pl in
        if 0 <? r then let! l := swap l pl (pl - 1) in sift f l a (pl - 1) else Ok l
      else Ok l
  end.

Fixpoint insert_from (k : nat) (l : list E) (a pm : Z) : res (list E) :=
  match k with
  | O => Ok l
  | S k' => let! l := sift (S (Z.to_nat (pm - a))) l a pm in insert_from k' l a (pm + 1)
  end.

Definition insertion (l : list E) (a n : Z) : res (list E) :=
  insert_from (Z.to_nat (n - 1)) l a (a + 1).

(** The choice of the pivot. *)
Definition pivot (l : list E) (a n : Z) : res Z :=
  let pm := a + n / 2 in
  if 7 <? n then
    let pl := a in
    let pn := a + (n - 1) in
    let! '(pl, pm, pn) :=
      (if 40 <? n then
         let d := sext 32 ((n / 8) * es) in
         let! d1 := elts d in
         let! d2 := elts (sext 32 (2 * d)) in
         let! pl := med3 l pl (pl + d1) (pl + d2) in
         let! pm := med3 l (pm - d1) pm (pm + d1) in
         let! pn := med3 l (pn - d2) (pn - d1) pn in
         Ok (pl, pm, pn)
       else Ok (pl, pm, pn)) in
    med3 l pl pm pn
  else Ok pm.

(** The state of the partition. *)
Record part := mk_part {
  arr : list E;
  pa : Z;
  pb : Z;
  pc : Z;
  pd : Z;
  swap_cnt : bool
}.

Fixpoint up (fuel : nat) (a : Z) (s : part) : res part :=
  match fuel with
  | O => NoFuel
  | S f =>
      if pb s <=? pc s then
        let! r := cmp_at (arr s) (pb s) a in
        if r <=? 0 then
          if r =? 0 then
            let! l := swap (arr s) (pa s) (pb s) in
            up f a (mk_part l (pa s + 1) (pb s + 1) (pc s) (pd s) true)
          else up f a (mk_part (arr s) (pa s) (pb s + 1) (pc s) (pd s) (swap_cnt s))
        else Ok s
      else Ok s
  end.

Fixpoint down (fuel : nat) (a : Z) (s : part) : res part :=
  match fuel with
  | O => NoFuel
  | S f =>
      if pb s <=? pc s then
        let! r := cmp_at (arr s) (pc s) a in
        if 0 <=? r then
          if r =? 0 then
            let! l := swap (arr s) (pc s) (pd s) in
            down f a (mk_part l (pa s) (pb s) (pc s - 1) (pd s - 1) true)
          else down f a (mk_part (arr s) (pa s) (pb s) (pc s - 1) (pd s) (swap_cnt s))
        else Ok s
      else Ok s
  end.

Fixpoint partition (fuel : nat) (n a : Z) (s : part) : res part :=
  match fuel with
  | O => NoFuel
  | S f =>
      let! s := up (S (Z.to_nat n)) a s in
      let! s := down (S (Z.to_nat n)) a s in
      if pc s <? pb s then Ok s
      else
        let! l := swap (arr s) (pb s) (pc s) in
        partition f n a (mk_part l (pa s) (pb s + 1) (pc s - 1) (pd s) true)
  end.

(** The jump back to the start of the function is a call of its own. *)
Fixpoint qsort (fuel : nat) (l : list E) (a n : Z) : res (list E) :=
  match fuel with
  | O => NoFuel
  | S f =>
      if n <? 7 then insertion l a n
      else
        let! pm := pivot l a n in
        let! l := swap l a pm in
        let! s := partition (S (Z.to_nat n)) n a (mk_part l (a + 1) (a + 1) (a + (n - 1)) (a + (n - 1)) false) in
        if negb (swap_cnt s) then insertion (arr s) a n
        else
          let pn := a + n in
          let r := sext 32 (Z.min (pa s - a) (pb s - pa s) * es) in
          let! l := vecswap (arr s) a (pb s) r in
          let r := sext 32 (Z.min (pd s - pc s) (pn - pd s - 1) * es) in
          let! l := vecswap l (pb s) pn r in
          let r := sext 32 ((pb s - pa s) * es) in
          let! l := (if es <? u64 r then qsort f l a (u64 r / es) else Ok l) in
          let r := sext 32 ((pd s - pc s) * es) in
          if es <? u64 r then
            let! k := elts r in
            qsort f l (pn - k) (u64 r / es)
          else Ok l
  end.

(** ** Positions and permutations *)

Definition len (l : list E) : Z := Z.of_nat (length l).

Lemma ix_some l i x : ix l i = Some x -> 0 <= i < len l.
Proof using Type.
  unfold ix, len. destruct (Z.ltb_spec i 0); [done|]. intros ?%lookup_lt_Some. lia.
Qed.

Lemma ix_in l i : 0 <= i < len l -> exists x, ix l i = Some x.
Proof using Type.
  unfold ix, len. intros. destruct (Z.ltb_spec i 0); [lia|]. apply lookup_lt_is_Some. lia.
Qed.

Lemma get_in l i : 0 <= i < len l -> exists x, get l i = Ok x /\ ix l i = Some x.
Proof using Type. intros (x & Hx)%ix_in. exists x. unfold get. by rewrite Hx. Qed.

Lemma cmp_at_in l i j :
  0 <= i < len l -> 0 <= j < len l ->
  exists x y, cmp_at l i j = Ok (cmp x y) /\ ix l i = Some x /\ ix l j = Some y.
Proof using Type.
  intros (x & Hx & Ix)%get_in (y & Hy & Iy)%get_in. exists x, y. unfold cmp_at. by rewrite Hx, Hy.
Qed.

(** The rearrangements of the positions from [lo] to [hi]. *)
Record within (lo hi : Z) (l l' : list E) : Prop := mk_within {
  within_perm : l ≡ₚ l';
  within_len : len l' = len l;
  within_same k : k < lo \/ hi <= k -> ix l' k = ix l k
}.

Lemma within_refl lo hi l : within lo hi l l.
Proof using Type. by constructor. Qed.

Lemma within_trans lo hi l1 l2 l3 : within lo hi l1 l2 -> within lo hi l2 l3 -> within lo hi l1 l3.
Proof using Type.
  intros [P1 L1 H1] [P2 L2 H2]. constructor; [by etrans|lia|].
  intros k Hk. rewrite H2, H1 by done. done.
Qed.

Lemma within_mono lo hi lo' hi' l l' :
  lo' <= lo -> hi <= hi' -> within lo hi l l' -> within lo' hi' l l'.
Proof using Type. intros ? ? [P L H]. constructor; [done..|]. intros k Hk. apply H. lia. Qed.

(** The elements of a range; a rearrangement keeps what holds of all of them. *)
Definition all (P : E -> Prop) (l : list E) (lo hi : Z) : Prop :=
  forall i x, lo <= i < hi -> ix l i = Some x -> P x.

Lemma within_seg lo hi l l' :
  0 <= lo <= hi -> within lo hi l l' ->
  drop (Z.to_nat lo) (take (Z.to_nat hi) l) ≡ₚ drop (Z.to_nat lo) (take (Z.to_nat hi) l').
Proof using Type.
  intros Hr [HP HL H]. set (a := Z.to_nat lo). set (b := Z.to_nat hi).
  assert (forall k : nat, (k < a \/ b <= k)%nat -> l' !! k = l !! k) as Hk.
  { intros k Hk. specialize (H (Z.of_nat k) ltac:(lia)). unfold ix in H.
    destruct (Z.ltb_spec (Z.of_nat k) 0); [lia|]. by rewrite Nat2Z.id in H. }
  assert (forall m : list E, m = take a m ++ drop a (take b m) ++ drop b m) as Hs.
  { intros m. rewrite <- (take_drop b m) at 1. rewrite app_assoc. f_equal.
    rewrite <- (take_drop a (take b m)) at 1. f_equal. rewrite take_take. f_equal. lia. }
  assert (take a l' = take a l) as E1.
  { apply list_eq. intros i. destruct (decide (i < a)%nat).
    - rewrite !lookup_take_lt by done. apply Hk. lia.
    - by rewrite !lookup_take_ge by lia. }
  assert (drop b l' = drop b l) as E2.
  { apply list_eq. intros i. rewrite !lookup_drop. apply Hk. lia. }
  rewrite (Hs l), (Hs l') in HP. rewrite E1, E2 in HP.
  apply Permutation_app_inv_l, Permutation_app_inv_r in HP. done.
Qed.

Lemma seg_elem l lo hi x :
  0 <= lo <= hi ->
  x ∈ drop (Z.to_nat lo) (take (Z.to_nat hi) l) <-> exists i, lo <= i < hi /\ ix l i = Some x.
Proof using Type.
  intros Hr. rewrite list_elem_of_lookup. unfold ix. split.
  - intros (i & Hi). rewrite lookup_drop in Hi. apply lookup_take_Some in Hi as [Hi Hlt].
    exists (lo + Z.of_nat i). split; [lia|]. destruct (Z.ltb_spec (lo + Z.of_nat i) 0); [lia|].
    rewrite <- Hi. f_equal. lia.
  - intros (i & Hi & Hx). destruct (Z.ltb_spec i 0); [done|].
    exists (Z.to_nat (i - lo)). rewrite lookup_drop, lookup_take_lt by lia. rewrite <- Hx. f_equal. lia.
Qed.

Lemma within_all P lo hi l l' :
  0 <= lo -> within lo hi l l' -> all P l lo hi -> all P l' lo hi.
Proof using Type.
  intros Hlo Hw Ha i x Hi Hx. pose proof (within_seg lo hi l l' ltac:(lia) Hw) as HP.
  assert (x ∈ drop (Z.to_nat lo) (take (Z.to_nat hi) l')) as Hin by (apply seg_elem; eauto with lia).
  rewrite <- HP in Hin. apply seg_elem in Hin as (k & Hk & Hkx); [|lia]. by eapply Ha.
Qed.

(** A range that the rearrangement does not touch. *)
Lemma outside_all P lo hi l l' lo' hi' :
  within lo hi l l' -> hi' <= lo \/ hi <= lo' -> all P l lo' hi' -> all P l' lo' hi'.
Proof using Type.
  intros [_ _ H] Hd Ha i x Hi Hx. rewrite H in Hx by lia. by eapply Ha.
Qed.

(** Exchanging two elements. *)
Lemma swap_spec l i j :
  0 <= i < len l -> 0 <= j < len l ->
  exists l', swap l i j = Ok l' /\ l ≡ₚ l' /\ len l' = len l /\
    forall k, ix l' k = ix l (if k =? i then j else if k =? j then i else k).
Proof using Type.
  intros Hi Hj. destruct (get_in l i Hi) as (x & Gx & Ix), (get_in l j Hj) as (y & Gy & Iy).
  unfold swap. rewrite Gx, Gy. cbn [rbind]. eexists. split; [done|].
  assert (forall (m : list E) k, 0 <= k -> ix m k = m !! Z.to_nat k) as Hix.
  { intros m k Hk. unfold ix. by rewrite (proj2 (Z.ltb_ge _ _)) by lia. }
  rewrite Hix in Ix, Iy by lia. unfold len in *. split_and!.
  - symmetry. by apply Permutation_insert_swap.
  - by rewrite !length_insert.
  - intros k. destruct (Z.ltb_spec k 0) as [Hk|Hk].
    { destruct (Z.eqb_spec k i), (Z.eqb_spec k j); try lia. unfold ix. by rewrite (proj2 (Z.ltb_lt _ _)) by lia. }
    rewrite !Hix by (repeat case_cmp; lia).
    destruct (Z.eqb_spec k j) as [->|Hkj].
    { rewrite list_lookup_insert_eq by (rewrite length_insert; lia).
      destruct (Z.eqb_spec j i) as [->|]; congruence. }
    rewrite list_lookup_insert_ne by lia. destruct (Z.eqb_spec k i) as [->|].
    + rewrite list_lookup_insert_eq by lia. done.
    + by rewrite list_lookup_insert_ne by lia.
Qed.

Lemma swap_within lo hi l i j :
  0 <= lo -> hi <= len l -> lo <= i < hi -> lo <= j < hi ->
  exists l', swap l i j = Ok l' /\ within lo hi l l' /\
    forall k, ix l' k = ix l (if k =? i then j else if k =? j then i else k).
Proof using Type.
  intros. destruct (swap_spec l i j) as (l' & Hs & HP & HL & Hk); [lia..|].
  exists l'. split_and!; [done| |done]. constructor; [done..|]. intros k Hk'. rewrite Hk. repeat case_cmp; lia || done.
Qed.

Lemma swap_range_within lo hi k l i j :
  0 <= lo -> hi <= len l -> lo <= i -> i + Z.of_nat k <= j -> j + Z.of_nat k <= hi ->
  exists l', swap_range k l i j = Ok l' /\ within lo hi l l' /\
    forall x, ix l' x = ix l (if (i <=? x) && (x <? i + Z.of_nat k) then x + (j - i)
                              else if (j <=? x) && (x <? j + Z.of_nat k) then x - (j - i) else x).
Proof using Type.
  revert l i j. induction k as [|k IH]; intros l i j Hlo Hhi Hi Hj Hk; cbn [swap_range].
  { exists l. split_and!; [done|apply within_refl|]. intros x. repeat (case_cmp; simpl); f_equal; lia. }
  destruct (swap_within lo hi l i j) as (l1 & -> & W1 & X1); [lia..|]. cbn [rbind].
  assert (len l1 = len l) as HL by apply W1.
  destruct (IH l1 (i + 1) (j + 1)) as (l2 & -> & W2 & X2); [lia..|].
  exists l2. split_and!; [done|by eapply within_trans|].
  intros x. rewrite X2, X1, Nat2Z.inj_succ. f_equal.
  destruct (Z.leb_spec (i + 1) x), (Z.ltb_spec x (i + 1 + Z.of_nat k)), (Z.leb_spec (j + 1) x),
    (Z.ltb_spec x (j + 1 + Z.of_nat k)); cbn [andb]; repeat (case_cmp; cbn [andb]); lia.
Qed.

(** ** Insertion sort *)

Definition sorted (l : list E) (lo hi : Z) : Prop :=
  forall i j x y, lo <= i -> i <= j -> j < hi -> ix l i = Some x -> ix l j = Some y -> cmp x y <= 0.

(** A comparison that orders: total and transitive, with consistent signs. *)
Record ordering : Prop := {
  cmp_sign x y : cmp x y <= 0 <-> 0 <= cmp y x;
  cmp_trans x y z : cmp x y <= 0 -> cmp y z <= 0 -> cmp x z <= 0
}.

Lemma cmp_self : ordering -> forall x, cmp x x <= 0.
Proof using Type. intros O x. destruct (cmp_sign O x x). lia. Qed.

(** Sorted but for the element at [pl], which is in order with those behind it. *)
Definition sifting (l : list E) (lo hi pl : Z) : Prop :=
  forall i j x y, lo <= i -> i < j -> j < hi -> j <> pl -> ix l i = Some x -> ix l j = Some y -> cmp x y <= 0.

Lemma sifting_step l l' a hi pl x y :
  ordering -> a < pl < hi -> ix l (pl - 1) = Some x -> ix l pl = Some y -> 0 < cmp x y ->
  (forall k, ix l' k = ix l (if k =? pl then pl - 1 else if k =? pl - 1 then pl else k)) ->
  sifting l a hi pl -> sifting l' a hi (pl - 1).
Proof using Type.
  intros O Hpl Hx Hy Hc Hk Hs i j u v Hi Hij Hj Hne Hu Hv. rewrite Hk in Hu, Hv.
  destruct (Z.eqb_spec j pl) as [->|].
  - destruct (Z.eqb_spec i pl); [lia|]. destruct (Z.eqb_spec i (pl - 1)).
    + assert (u = y) as -> by congruence. assert (v = x) as -> by congruence.
      apply (cmp_sign O). lia.
    + apply (Hs i (pl - 1) u v); try done; lia.
  - destruct (Z.eqb_spec j (pl - 1)); [lia|].
    destruct (Z.eqb_spec i pl) as [->|]; [apply (Hs (pl - 1) j u v); try done; lia|].
    destruct (Z.eqb_spec i (pl - 1)) as [->|]; [|apply (Hs i j u v); done || lia].
    apply (Hs pl j u v); try done; lia.
Qed.

Lemma sifting_done l a hi pl :
  ordering -> a <= pl < hi -> hi <= len l -> 0 <= a ->
  (a < pl -> forall x y, ix l (pl - 1) = Some x -> ix l pl = Some y -> cmp x y <= 0) ->
  sifting l a hi pl -> sorted l a hi.
Proof using Type.
  intros O Hpl Hl Ha Hd Hs i j x y Hi Hij Hj Hx Hy.
  destruct (decide (i = j)) as [->|]; [replace y with x by congruence; by apply cmp_self|].
  destruct (decide (j = pl)) as [->|]; [|apply (Hs i j); done || lia].
  destruct (ix_in l (pl - 1)) as (z & Hz); [lia|]. specialize (Hd ltac:(lia) z y Hz Hy).
  destruct (decide (i = pl - 1)) as [->|]; [by replace x with z by congruence|].
  apply (cmp_trans O x z y); [|done]. apply (Hs i (pl - 1)); try done; lia.
Qed.

Lemma sift_spec fuel l a hi pl :
  0 <= a -> a <= pl < hi -> hi <= len l -> pl - a < Z.of_nat fuel ->
  exists l', sift fuel l a pl = Ok l' /\ within a hi l l' /\
    (ordering -> sifting l a hi pl -> sorted l' a hi).
Proof using Type.
  revert l pl. induction fuel as [|f IH]; intros l pl Ha Hpl Hl Hf; [lia|]. cbn [sift].
  destruct (Z.ltb_spec a pl).
  - destruct (cmp_at_in l (pl - 1) pl) as (x & y & -> & Hx & Hy); [lia..|]. cbn [rbind].
    destruct (Z.ltb_spec 0 (cmp x y)).
    + destruct (swap_within a hi l pl (pl - 1)) as (l1 & -> & W1 & X1); [lia..|]. cbn [rbind].
      assert (len l1 = len l) as HL by apply W1.
      destruct (IH l1 (pl - 1)) as (l2 & -> & W2 & S2); [lia..|].
      exists l2. split_and!; [done|by eapply within_trans|]. intros O Hs. apply S2; [done|].
      eapply sifting_step; try done; lia.
    + exists l. split_and!; [done|apply within_refl|]. intros O Hs. eapply sifting_done; try done.
      intros _ x' y' Hx' Hy'. replace x' with x by congruence. replace y' with y by congruence. lia.
  - exists l. split_and!; [done|apply within_refl|]. intros O Hs. eapply sifting_done; try done. lia.
Qed.

Lemma insert_from_spec k l a pm :
  0 <= a -> a < pm -> pm + Z.of_nat k <= len l ->
  exists l', insert_from k l a pm = Ok l' /\ within a (pm + Z.of_nat k) l l' /\
    (ordering -> sorted l a pm -> sorted l' a (pm + Z.of_nat k)).
Proof using Type.
  revert l pm. induction k as [|k IH]; intros l pm Ha Hpm Hl; cbn [insert_from].
  { exists l. rewrite Z.add_0_r. split_and!; [done|apply within_refl|done]. }
  destruct (sift_spec (S (Z.to_nat (pm - a))) l a (pm + 1) pm) as (l1 & -> & W1 & S1); [lia..|]. cbn [rbind].
  assert (len l1 = len l) as HL by apply W1.
  destruct (IH l1 (pm + 1)) as (l2 & -> & W2 & S2); [lia..|].
  replace (pm + 1 + Z.of_nat k) with (pm + Z.of_nat (S k)) in * by lia.
  exists l2. split_and!; [done| |].
  - eapply within_trans; [|done]. eapply within_mono; [..|done]; lia.
  - intros O Hs. apply S2; [done|]. apply S1; [done|].
    intros i j x y Hi Hij Hj Hne Hx Hy. apply (Hs i j); done || lia.
Qed.

Lemma insertion_spec l a n :
  0 <= a -> 0 <= n -> a + n <= len l ->
  exists l', insertion l a n = Ok l' /\ within a (a + n) l l' /\ (ordering -> sorted l' a (a + n)).
Proof using Type.
  intros Ha Hn Hl. unfold insertion. destruct (Z.ltb_spec 1 n).
  - destruct (insert_from_spec (Z.to_nat (n - 1)) l a (a + 1)) as (l' & -> & W & S); [lia..|].
    replace (a + 1 + Z.of_nat (Z.to_nat (n - 1))) with (a + n) in * by lia.
    exists l'. split_and!; [done..|]. intros O. apply S; [done|]. intros i j x y ? ? ? Hx Hy.
    replace j with i in Hy by lia. replace y with x by congruence. by apply cmp_self.
  - replace (Z.to_nat (n - 1)) with O by lia. exists l. split_and!; [done|apply within_refl|].
    intros O i j x y ? ? ? Hx Hy. replace j with i in Hy by lia. replace y with x by congruence.
    by apply cmp_self.
Qed.

(** ** Partition *)

(** [v] is the pivot: behind it elements equal to it, then smaller ones; at the
    end equal ones, before them greater ones.  Nothing is asked of [cmp]. *)
Record parted (a n : Z) (v : E) (s : part) : Prop := mk_parted {
  parted_order : a < pa s /\ pa s <= pb s /\ pb s <= pc s + 1 /\ pc s <= pd s /\ pd s < a + n;
  parted_len : a + n <= len (arr s);
  parted_pivot : ix (arr s) a = Some v;
  parted_eq1 : all (fun x => cmp x v = 0) (arr s) (a + 1) (pa s);
  parted_lt : all (fun x => cmp x v < 0) (arr s) (pa s) (pb s);
  parted_gt : all (fun x => 0 < cmp x v) (arr s) (pc s + 1) (pd s + 1);
  parted_eq2 : all (fun x => cmp x v = 0) (arr s) (pd s + 1) (a + n)
}.

(** A range after an exchange, position by position. *)
Ltac after_swap X :=
  let i := fresh "i" in let x := fresh "x" in let Hi := fresh "Hi" in let Hx := fresh "Hx" in
  intros i x Hi Hx; rewrite X in Hx; repeat (case_cmp; subst; try lia).

Lemma up_spec fuel a n v s :
  0 <= a -> parted a n v s -> pc s - pb s + 1 < Z.of_nat fuel ->
  exists s', up fuel a s = Ok s' /\ parted a n v s' /\ within (a + 1) (a + n) (arr s) (arr s') /\
    pc s' = pc s /\ pd s' = pd s /\ pb s <= pb s' /\
    (pb s' <= pc s' -> forall x, ix (arr s') (pb s') = Some x -> 0 < cmp x v).
Proof using Type.
  revert s. induction fuel as [|f IH]; intros s Ha HP Hf; [destruct HP; lia|]. cbn [up].
  pose proof HP as [Ho Hl Hv He1 Hlt Hgt He2].
  destruct (Z.leb_spec (pb s) (pc s)) as [Hbc|];
    [|exists s; split_and!; try first [done|apply within_refl|lia]].
  destruct (cmp_at_in (arr s) (pb s) a) as (x & v' & -> & Hx & Hv'); [lia..|]. cbn [rbind].
  assert (v' = v) as -> by congruence.
  destruct (Z.leb_spec (cmp x v) 0).
  - destruct (Z.eqb_spec (cmp x v) 0) as [E0|].
    + destruct (swap_within (a + 1) (a + n) (arr s) (pa s) (pb s)) as (l1 & -> & W1 & X1); [lia..|]. cbn [rbind].
      destruct (IH (mk_part l1 (pa s + 1) (pb s + 1) (pc s) (pd s) true)) as (s' & -> & HP' & W' & Hc & Hd & Hb & Hx');
        [done| |simpl; lia|].
      { constructor; simpl; [lia|by rewrite (within_len _ _ _ _ W1)|rewrite X1; repeat (case_cmp; try lia); done|..];
          after_swap X1.
        - by replace x0 with x by congruence.
        - by eapply He1; [|done]; lia.
        - by eapply Hlt; [|done]; lia.
        - by eapply Hlt; [|done]; lia.
        - by eapply Hgt; [|done]; lia.
        - by eapply He2; [|done]; lia. }
      simpl in *. exists s'. split_and!; [done..|by eapply within_trans|done|done|lia|done].
    + destruct (IH (mk_part (arr s) (pa s) (pb s + 1) (pc s) (pd s) (swap_cnt s))) as (s' & -> & HP' & W' & Hc & Hd & Hb & Hx');
        [done| |simpl; lia|].
      { constructor; simpl; try done; [lia|]. intros i y Hi Hy. destruct (decide (i = pb s)) as [->|].
        - replace y with x by congruence. lia.
        - eapply Hlt; [|done]. lia. }
      simpl in *. exists s'. split_and!; try done. lia.
  - exists s. split_and!; try done. intros _ y Hy. by replace y with x by congruence.
Qed.

Lemma down_spec fuel a n v s :
  0 <= a -> parted a n v s -> pc s - pb s + 1 < Z.of_nat fuel ->
  exists s', down fuel a s = Ok s' /\ parted a n v s' /\ within (a + 1) (a + n) (arr s) (arr s') /\
    pa s' = pa s /\ pb s' = pb s /\ pc s' <= pc s /\
    (pb s' <= pc s' -> forall x, ix (arr s') (pc s') = Some x -> cmp x v < 0) /\
    (forall k, a <= k < pb s -> ix (arr s') k = ix (arr s) k) /\
    (pb s' <= pc s' -> ix (arr s') (pb s') = ix (arr s) (pb s)).
Proof using Type.
  revert s. induction fuel as [|f IH]; intros s Ha HP Hf; [destruct HP; lia|]. cbn [down].
  pose proof HP as [Ho Hl Hv He1 Hlt Hgt He2].
  destruct (Z.leb_spec (pb s) (pc s)) as [Hbc|];
    [|exists s; split_and!; try first [done|apply within_refl|lia]].
  destruct (cmp_at_in (arr s) (pc s) a) as (x & v' & -> & Hx & Hv'); [lia..|]. cbn [rbind].
  assert (v' = v) as -> by congruence.
  destruct (Z.leb_spec 0 (cmp x v)).
  - destruct (Z.eqb_spec (cmp x v) 0) as [E0|].
    + destruct (swap_within (a + 1) (a + n) (arr s) (pc s) (pd s)) as (l1 & -> & W1 & X1); [lia..|]. cbn [rbind].
      destruct (IH (mk_part l1 (pa s) (pb s) (pc s - 1) (pd s - 1) true))
        as (s' & -> & HP' & W' & Hpa & Hb & Hc & Hx' & Hk & Hkb); [done| |simpl; lia|].
      { constructor; simpl; [lia|by rewrite (within_len _ _ _ _ W1)|rewrite X1; repeat (case_cmp; try lia); done|..];
          after_swap X1.
        - by eapply He1; [|done]; lia.
        - by eapply Hlt; [|done]; lia.
        - by eapply Hgt; [|done]; lia.
        - by eapply Hgt; [|done]; lia.
        - replace (pd s) with (pc s) in * by lia. by replace x0 with x by congruence.
        - by replace x0 with x by congruence.
        - by eapply He2; [|done]; lia. }
      simpl in *. exists s'. split_and!; try done; [by eapply within_trans|lia|..].
      * intros k Hk'. rewrite Hk by lia. rewrite X1. repeat (case_cmp; try lia). done.
      * intros Hle. rewrite Hkb by done. rewrite X1. repeat (case_cmp; try lia). done.
    + destruct (IH (mk_part (arr s) (pa s) (pb s) (pc s - 1) (pd s) (swap_cnt s)))
        as (s' & -> & HP' & W' & Hpa & Hb & Hc & Hx' & Hk & Hkb); [done| |simpl; lia|].
      { constructor; simpl; try done; [lia|]. intros i y Hi Hy. destruct (decide (i = pc s)) as [->|].
        - replace y with x by congruence. lia.
        - eapply Hgt; [|done]. lia. }
      simpl in *. exists s'. split_and!; try done. lia.
  - exists s. split_and!; try done. intros _ y Hy. by replace y with x by congruence.
Qed.

Lemma partition_spec fuel a n v s :
  0 <= a -> parted a n v s -> pc s - pb s + 1 < Z.of_nat fuel ->
  exists s', partition fuel n a s = Ok s' /\ parted a n v s' /\ within (a + 1) (a + n) (arr s) (arr s') /\
    pb s' = pc s' + 1.
Proof using Type.
  revert s. induction fuel as [|f IH]; intros s Ha HP Hf; [destruct HP; lia|]. cbn [partition].
  destruct (up_spec (S (Z.to_nat n)) a n v s) as (s1 & -> & P1 & W1 & C1 & D1 & B1 & X1);
    [done|done|destruct HP; lia|]. cbn [rbind].
  destruct (down_spec (S (Z.to_nat n)) a n v s1) as (s2 & -> & P2 & W2 & A2 & B2 & C2 & X2 & K2 & KB2);
    [done|done|destruct P1; lia|]. cbn [rbind].
  assert (within (a + 1) (a + n) (arr s) (arr s2)) as W12 by (by eapply within_trans).
  pose proof P2 as [Ho Hl Hv He1 Hlt Hgt He2].
  destruct (Z.ltb_spec (pc s2) (pb s2)); [exists s2; split_and!; [done..|lia]|].
  destruct (swap_within (a + 1) (a + n) (arr s2) (pb s2) (pc s2)) as (l3 & -> & W3 & X3); [lia..|]. cbn [rbind].
  destruct (ix_in (arr s2) (pb s2)) as (x & Hx); [lia|]. destruct (ix_in (arr s2) (pc s2)) as (y & Hy); [lia|].
  assert (0 < cmp x v) as Hxv by (apply X1; [lia|]; by rewrite <- Hx, KB2 by lia).
  assert (cmp y v < 0) as Hyv by (by apply X2).
  assert (pb s2 <> pc s2) by (intros E'; rewrite E' in Hx; replace x with y in Hxv by congruence; lia).
  destruct (IH (mk_part l3 (pa s2) (pb s2 + 1) (pc s2 - 1) (pd s2) true)) as (s' & -> & P' & W' & Hb); [done| |simpl; lia|].
  { constructor; simpl; [lia|by rewrite (within_len _ _ _ _ W3)|rewrite X3; repeat (case_cmp; try lia); done|..];
      after_swap X3.
    - by eapply He1; [|done]; lia.
    - by replace x0 with y by congruence.
    - by eapply Hlt; [|done]; lia.
    - by replace x0 with x by congruence.
    - by eapply Hgt; [|done]; lia.
    - by eapply He2; [|done]; lia. }
  simpl in *. exists s'. split_and!; [done..| |done].
  eapply within_trans; [done|]. by eapply within_trans.
Qed.

(** ** The whole sort *)

Context (Hes : 0 < es).

Lemma sext_small w z : 0 < w -> 0 <= z < 2 ^ (w - 1) -> sext w z = z.
Proof using Type.
  intros Hw Hz. assert (2 ^ w = 2 * 2 ^ (w - 1)) as Hp by (rewrite <- Z.pow_succ_r by lia; f_equal; lia).
  unfold sext. rewrite wrap_small by lia. by rewrite (proj2 (Z.ltb_lt _ _)) by lia.
Qed.

Lemma elts_mul k : elts (k * es) = Ok k.
Proof using Hes. unfold elts. rewrite Z.mod_mul, Z.div_mul by lia. done. Qed.

Lemma int_mul k n : 0 <= k <= n -> n * es < 2 ^ 31 -> sext 32 (k * es) = k * es.
Proof using Hes. intros ? ?. apply sext_small; [lia|]. nia. Qed.

Lemma med3_in l a b c lo hi :
  0 <= lo -> hi <= len l -> lo <= a < hi -> lo <= b < hi -> lo <= c < hi ->
  exists p, med3 l a b c = Ok p /\ lo <= p < hi.
Proof using Type.
  intros. unfold med3. destruct (cmp_at_in l a b) as (? & ? & -> & _); [lia..|].
  destruct (cmp_at_in l b c) as (? & ? & -> & _); [lia..|].
  destruct (cmp_at_in l a c) as (? & ? & -> & _); [lia..|]. cbn [rbind].
  eexists. split; [done|]. repeat case_cmp; lia.
Qed.

Lemma pivot_in l a n :
  0 <= a -> 7 <= n -> a + n <= len l -> n * es < 2 ^ 31 ->
  exists pm, pivot l a n = Ok pm /\ a <= pm < a + n.
Proof using Hes.
  intros Ha Hn Hl Hb. unfold pivot. pose proof (Z.div_mod n 2). pose proof (Z.mod_pos_bound n 2).
  destruct (Z.ltb_spec 7 n); [|eexists; split; [done|lia]].
  destruct (Z.ltb_spec 40 n).
  - pose proof (Z.div_mod n 8). pose proof (Z.mod_pos_bound n 8).
    rewrite (int_mul _ n) by lia. replace (2 * (n / 8 * es)) with (2 * (n / 8) * es) by lia.
    rewrite (int_mul _ n), !elts_mul by lia. cbn [rbind].
    destruct (med3_in l a (a + n / 8) (a + 2 * (n / 8)) a (a + n)) as (p1 & -> & H1'); [lia..|]. cbn [rbind].
    destruct (med3_in l (a + n / 2 - n / 8) (a + n / 2) (a + n / 2 + n / 8) a (a + n)) as (p2 & -> & H2'); [lia..|].
    cbn [rbind].
    destruct (med3_in l (a + (n - 1) - 2 * (n / 8)) (a + (n - 1) - n / 8) (a + (n - 1)) a (a + n))
      as (p3 & -> & H3'); [lia..|]. cbn [rbind].
    apply med3_in; lia.
  - cbn [rbind]. apply med3_in; lia.
Qed.

Lemma vecswap_spec lo hi l p q k n :
  0 <= lo -> hi <= len l -> lo <= p -> 0 <= k <= n -> n * es < 2 ^ 31 -> p + k <= q - k -> q <= hi ->
  exists l', vecswap l p q (sext 32 (k * es)) = Ok l' /\ within lo hi l l' /\
    forall x, ix l' x = ix l (if (p <=? x) && (x <? p + k) then x + (q - k - p)
                              else if (q - k <=? x) && (x <? q) then x - (q - k - p) else x).
Proof using Hes.
  intros ? ? ? Hk Hb ? ?. unfold vecswap. rewrite (int_mul k n) by done.
  destruct (Z.ltb_spec 0 (k * es)).
  - rewrite elts_mul. cbn [rbind].
    destruct (swap_range_within lo hi (Z.to_nat k) l p (q - k)) as (l' & -> & W & X); [lia..|].
    exists l'. split_and!; [done..|]. intros x. rewrite X. f_equal.
    rewrite Z2Nat.id by lia. repeat (case_cmp; cbn [andb]); lia.
  - assert (k = 0) as -> by nia. exists l. split_and!; [done|apply within_refl|]. intros x. f_equal.
    repeat (case_cmp; cbn [andb]); lia.
Qed.

(** The pivot and what compares as equal to it. *)
Definition level (v x : E) : Prop := cmp x v = 0 \/ x = v.

(** The equal elements are brought from both ends to the middle. *)
Lemma gather_spec a n v s :
  0 <= a -> n * es < 2 ^ 31 -> parted a n v s -> pb s = pc s + 1 ->
  exists l1 l2, vecswap (arr s) a (pb s) (sext 32 (Z.min (pa s - a) (pb s - pa s) * es)) = Ok l1 /\
    vecswap l1 (pb s) (a + n) (sext 32 (Z.min (pd s - pc s) (a + n - pd s - 1) * es)) = Ok l2 /\
    within a (a + n) (arr s) l2 /\
    all (fun x => cmp x v < 0) l2 a (a + (pb s - pa s)) /\
    all (level v) l2 (a + (pb s - pa s)) (a + n - (pd s - pc s)) /\
    all (fun x => 0 < cmp x v) l2 (a + n - (pd s - pc s)) (a + n).
Proof using Hes.
  intros Ha Hb [Ho Hl Hv He1 Hlt Hgt He2] Hbc.
  destruct (vecswap_spec a (pb s) (arr s) a (pb s) (Z.min (pa s - a) (pb s - pa s)) n)
    as (l1 & E1 & W1 & X1); [lia..|].
  assert (len l1 = len (arr s)) as L1 by apply W1.
  destruct (vecswap_spec (pb s) (a + n) l1 (pb s) (a + n) (Z.min (pd s - pc s) (a + n - pd s - 1)) n)
    as (l2 & E2 & W2 & X2); [lia..|].
  assert (all (level v) (arr s) a (pa s)) as Hq1.
  { intros i x Hi Hx. destruct (decide (i = a)) as [->|]; [right; congruence|].
    left. eapply He1; [|done]. lia. }
  assert (all (fun x => cmp x v < 0) l1 a (a + (pb s - pa s)) /\
    all (level v) l1 (a + (pb s - pa s)) (pb s)) as [A1 B1].
  { split; intros i x Hi Hx; rewrite X1 in Hx.
    - eapply Hlt; [|exact Hx]. repeat (case_cmp; cbn [andb]); lia.
    - eapply Hq1; [|exact Hx]. repeat (case_cmp; cbn [andb]); lia. }
  assert (all (fun x => 0 < cmp x v) l1 (pb s) (pd s + 1) /\
    all (fun x => cmp x v = 0) l1 (pd s + 1) (a + n)) as [A2 B2].
  { split; eapply outside_all; try done; [right; lia| |right; lia].
    intros i x Hi Hx. eapply Hgt; [|done]. lia. }
  exists l1, l2. split_and!; [done..| | | |].
  - eapply within_trans; (eapply within_mono; [..|done]); lia.
  - eapply outside_all; [exact W2|lia|done].
  - intros i x Hi Hx. destruct (Z.ltb_spec i (pb s)) as [Hlt'|Hge].
    + eapply (outside_all _ _ _ _ _ _ (pb s) W2 ltac:(lia) B1); [|exact Hx]. lia.
    + rewrite X2 in Hx. left. eapply B2; [|exact Hx]. repeat (case_cmp; cbn [andb]); lia.
  - intros i x Hi Hx. rewrite X2 in Hx. eapply A2; [|exact Hx]. repeat (case_cmp; cbn [andb]); lia.
Qed.

Lemma sorted_glue l a m1 m2 b v :
  ordering -> sorted l a m1 -> sorted l m2 b -> all (fun x => cmp x v < 0) l a m1 ->
  all (level v) l m1 m2 -> all (fun x => 0 < cmp x v) l m2 b -> m1 <= m2 -> sorted l a b.
Proof using Type.
  intros O S1 S2 Hlt Hq Hgt Hm i j x y Hi Hij Hj Hx Hy.
  assert (i < m2 -> cmp x v <= 0) as Hxv.
  { intros H. destruct (Z.ltb_spec i m1); [assert (cmp x v < 0); [eapply Hlt; [|done]; lia|lia]|].
    destruct (Hq i x) as [->| ->]; [lia|done|lia|by apply cmp_self]. }
  assert (m1 <= j -> cmp v y <= 0) as Hvy.
  { intros H. apply (cmp_sign O). destruct (Z.ltb_spec j m2).
    - destruct (Hq j y) as [->| ->]; [lia|done|lia|]. pose proof (cmp_self O v) as Hs. by apply (cmp_sign O) in Hs.
    - assert (0 < cmp y v); [eapply Hgt; [|done]; lia|lia]. }
  destruct (Z.ltb_spec j m1); [apply (S1 i j); done || lia|].
  destruct (Z.ltb_spec i m2); [|apply (S2 i j); done || lia].
  apply (cmp_trans O x v y); [apply Hxv|apply Hvy]; lia.
Qed.

Lemma sorted_short l lo hi : ordering -> hi - lo <= 1 -> sorted l lo hi.
Proof using Type.
  intros O Hs i j x y ? ? ? Hx Hy. replace j with i in Hy by lia. replace y with x by congruence.
  by apply cmp_self.
Qed.

Lemma sorted_same lo hi l l' lo' hi' :
  within lo hi l l' -> hi' <= lo \/ hi <= lo' -> sorted l lo' hi' -> sorted l' lo' hi'.
Proof using Type.
  intros [_ _ H] Hd Hs i j x y ? ? ? Hx Hy. rewrite H in Hx, Hy by lia. by eapply (Hs i j).
Qed.

Lemma qsort_spec fuel l a n :
  0 <= a -> 0 <= n -> a + n <= len l -> n * es < 2 ^ 31 -> n < Z.of_nat fuel ->
  exists l', qsort fuel l a n = Ok l' /\ within a (a + n) l l' /\ (ordering -> sorted l' a (a + n)).
Proof using Hes.
  revert l a n. induction fuel as [|f IH]; intros l a n Ha Hn Hl Hb Hf; [lia|]. cbn [qsort].
  destruct (Z.ltb_spec n 7); [by apply insertion_spec|].
  destruct (pivot_in l a n) as (pm & -> & Hpm); [lia..|]. cbn [rbind].
  destruct (swap_within a (a + n) l a pm) as (l1 & -> & W1 & X1); [lia..|]. cbn [rbind].
  assert (len l1 = len l) as L1 by apply W1. destruct (ix_in l1 a) as (v & Hv); [lia|].
  destruct (partition_spec (S (Z.to_nat n)) a n v
    (mk_part l1 (a + 1) (a + 1) (a + (n - 1)) (a + (n - 1)) false)) as (s & -> & HP & W2 & Hbc); [done| |simpl; lia|].
  { constructor; simpl; try lia; try done; intros i x Hi; lia. }
  cbn [rbind arr] in *. pose proof (parted_order _ _ _ _ HP) as Ho. pose proof (parted_len _ _ _ _ HP) as Hl2.
  assert (within a (a + n) l (arr s)) as W12.
  { eapply within_trans; [done|]. eapply within_mono; [..|done]; lia. }
  destruct (swap_cnt s); cbn [negb].
  2: { destruct (insertion_spec (arr s) a n) as (l' & -> & W & S); [lia..|].
       exists l'. split_and!; [done|by eapply within_trans|done]. }
  destruct (gather_spec a n v s) as (l3 & l4 & -> & E4 & W4 & A1 & A2 & A3); [done..|]. cbn [rbind].
  rewrite E4. cbn [rbind]. assert (len l4 = len (arr s)) as L4 by apply W4.
  rewrite !(int_mul _ n), !(wrap_small 64), !Z.div_mul by nia.
  assert (forall l' a' k, 0 <= a' -> 0 <= k < n -> a' + k <= len l' ->
    exists l'', (if es <? k * es then qsort f l' a' k else Ok l') = Ok l'' /\
      within a' (a' + k) l' l'' /\ (ordering -> sorted l'' a' (a' + k))) as Hhalf.
  { intros l' a' k Ha' Hk Hl'. destruct (Z.ltb_spec es (k * es)); [apply IH; nia|].
    exists l'. split_and!; [done|apply within_refl|]. intros O. apply sorted_short; [done|nia]. }
  destruct (Hhalf l4 a (pb s - pa s)) as (l5 & -> & W5 & S5); [lia..|]. cbn [rbind]. rewrite elts_mul. cbn [rbind].
  assert (len l5 = len l4) as L5 by apply W5.
  destruct (Hhalf l5 (a + n - (pd s - pc s)) (pd s - pc s)) as (l6 & -> & W6 & S6); [lia..|].
  exists l6. split_and!; [done| |].
  - eapply within_trans; [done|]. eapply within_trans; [done|].
    eapply within_trans; (eapply within_mono; [..|done]); lia.
  - intros O. replace (a + n) with (a + n - (pd s - pc s) + (pd s - pc s)) by lia.
    eapply (sorted_glue l6 a (a + (pb s - pa s)) (a + n - (pd s - pc s)) _ v O).
    + eapply sorted_same; [exact W6|lia|by apply S5].
    + by apply S6.
    + eapply outside_all; [exact W6|lia|]. by eapply within_all; [..|exact W5|].
    + eapply outside_all; [exact W6|lia|]. eapply outside_all; [exact W5|lia|done].
    + eapply within_all; [..|exact W6|]; [lia|]. eapply outside_all; [exact W5|lia|].
      by replace (a + n - (pd s - pc s) + (pd s - pc s)) with (a + n) by lia.
    + lia.
Qed.

End qsort.

(** ** Theorems *)

(** Two blocks of [n] bytes exchanged. *)
Definition exchanged (m m' : mem) (a b n : Z) : Prop :=
  forall x, ldb m' x = ldb m (if (a <=? x) && (x <? a + n) then x + (b - a)
                              else if (b <=? x) && (x <? b + n) then x - (b - a) else x).

Lemma swap_word w m a b :
  a + Z.of_nat w <= b \/ b + Z.of_nat w <= a ->
  exchanged m (stn w (stn w m a (ldn w m b)) b (ldn w m a)) a b (Z.of_nat w).
Proof.
  intros Hd x. rewrite ldb_stn. destruct (Z.leb_spec b x), (Z.ltb_spec x (b + Z.of_nat w)); cbn [andb];
    [rewrite ldn_byte by lia|rewrite ldb_stn_ldn..];
    repeat (case_cmp; cbn [andb]; try lia); f_equal; lia.
Qed.

Lemma swap_words_spec w i m a b :
  (0 < w)%nat -> (0 < i)%nat -> a + Z.of_nat (w * i) <= b \/ b + Z.of_nat (w * i) <= a ->
  exchanged m (swap_words w m a b i) a b (Z.of_nat (w * i)).
Proof.
  intros Hw. revert m a b. induction i as [|i IH]; intros m a b Hi Hd; [lia|]. cbn [swap_words].
  destruct i as [|i]; [rewrite Nat.mul_1_r in *; by apply swap_word|].
  intros x. rewrite (IH _ (a + Z.of_nat w) (b + Z.of_nat w)) by lia. rewrite swap_word by lia. f_equal.
  destruct (Z.leb_spec (a + Z.of_nat w) x), (Z.ltb_spec x (a + Z.of_nat w + Z.of_nat (w * S i))),
    (Z.leb_spec (b + Z.of_nat w) x), (Z.ltb_spec x (b + Z.of_nat w + Z.of_nat (w * S i))); cbn [andb];
    repeat (case_cmp; cbn [andb]); lia.
Qed.

(** Whatever way of exchanging [SWAPINIT] picks for the array, two of its
    elements are exchanged and the rest of memory is kept. *)
Theorem swap_bytes_exchanges base es m a b :
  0 < es -> a + es <= b \/ b + es <= a -> exchanged m (swap_bytes m a b es (SWAPINIT base es)) a b es.
Proof.
  intros Hes Hd. unfold swap_bytes, swapfunc, SWAPINIT, truth.
  destruct (Z.eqb_spec (base mod 8) 0), (Z.eqb_spec (es mod 8) 0); cbn [negb orb].
  2-4: (pose proof (swap_words_spec 1 (Z.to_nat es) m a b) as H;
    rewrite Nat.mul_1_l, Z2Nat.id in H by lia; apply H; lia).
  destruct (Z.eqb_spec es 8) as [->|]; [by apply (swap_word 8)|].
  pose proof (Z.div_mod es 8 ltac:(lia)) as Hdm.
  pose proof (swap_words_spec 8 (Z.to_nat (es / 8)) m a b) as H.
  replace (Z.of_nat (8 * Z.to_nat (es / 8))) with es in H by lia. apply H; lia.
Qed.

Lemma StronglySorted_lookup {A} (R : A -> A -> Prop) (l : list A) :
  (forall i j x y, (i < j)%nat -> l !! i = Some x -> l !! j = Some y -> R x y) -> StronglySorted R l.
Proof.
  induction l as [|a l IH]; intros H; constructor.
  - apply IH. intros i j x y Hij Hx Hy. apply (H (S i) (S j)); [lia|done..].
  - apply Forall_lookup. intros i x Hx. apply (H O (S i)); [lia|done..].
Qed.

(** C16: for every comparison function, even one that contradicts itself,
    [qsort] ends without leaving the array and leaves a rearrangement of its
    elements; if the function orders the elements, the result is sorted.  The
    array is smaller than [2^31] bytes, what the [int] variables hold. *)
Theorem qsort_sorts {E} (es : Z) (cmp : E -> E -> Z) (l : list E) (fuel : nat) :
  0 < es -> Z.of_nat (length l) * es < 2 ^ 31 -> (length l < fuel)%nat ->
  exists l', qsort es cmp fuel l 0 (Z.of_nat (length l)) = Ok l' /\ l ≡ₚ l' /\
    (ordering cmp -> StronglySorted (fun x y => cmp x y <= 0) l').
Proof.
  intros Hes Hb Hf.
  destruct (qsort_spec es cmp Hes fuel l 0 (Z.of_nat (length l))) as (l' & E' & [HP HL _] & HS);
    [unfold len; lia..|].
  exists l'. split_and!; [done..|]. intros O. specialize (HS O).
  assert (forall i x, l' !! i = Some x -> ix l' (Z.of_nat i) = Some x) as Hix.
  { intros i x Hx. unfold ix. rewrite (proj2 (Z.ltb_ge _ _)) by lia. by rewrite Nat2Z.id. }
  apply StronglySorted_lookup. intros i j x y Hij Hx Hy.
  apply (HS (Z.of_nat i) (Z.of_nat j)); auto; [lia..|]. apply lookup_lt_Some in Hy. unfold len in HL. lia.
Qed.

Lemma qsort_sorts_witness :
  exists l', qsort 8 Z.sub 9 [3; 1; 2; 3; 0; 7; 5; 1] 0 8 = Ok l' /\ [3; 1; 2; 3; 0; 7; 5; 1] ≡ₚ l' /\
    StronglySorted (fun x y => x - y <= 0) l'.
Proof.
  destruct (qsort_sorts 8 Z.sub [3; 1; 2; 3; 0; 7; 5; 1] 9 ltac:(lia) ltac:(simpl; lia) ltac:(simpl; lia))
    as (l' & E & HP & HS).
  exists l'. split; [exact E|]. split; [exact HP|]. apply HS. constructor; intros; lia.
Defined.
