(* ===== verification/Cs.v ===== *)
(** The core of Capstone ([src/Lilu/capstone/cs.c]) with the entry points of its
    X86 module ([arch/X86/X86Module.c]), as Lilu builds it: the diet engine for
    X86, whose instructions have no text, with memory functions that are set by
    an option.

    Memory is a map from addresses to the blocks the code allocates; an
    allocation takes the next answer of the environment, whether it succeeds.
    Using or freeing a block that is not allocated, and writing outside of an
    array, have no result ([WStuck]); a write through a null pointer that an
    unchecked allocation gave is [WNull].  The decoder behind the function
    pointers of the handle is the class [backend]; the search for the public id
    of its opcodes is modelled here, with the cache that it allocates. *)

From Stdlib Require Import ZArith Lia List Bool.
From stdpp Require Import prelude gmap.
From S2P Require Import Prelude McInst CsUtils.

Open Scope Z_scope.

(** ** Data *)

Inductive cs_err :=
  | ERR_OK | ERR_MEM | ERR_ARCH | ERR_HANDLE | ERR_CSH | ERR_MODE | ERR_OPTION | ERR_DETAIL
  | ERR_MEMSETUP | ERR_VERSION | ERR_DIET | ERR_SKIPDATA | ERR_X86_ATT | ERR_X86_INTEL.

#[export] Instance cs_err_eq_dec : EqDecision cs_err.
Proof. solve_decision. Defined.

Definition CS_ARCH_X86 : Z := 3.
Definition CS_ARCH_MAX : Z := 8.
Definition CS_MODE_LITTLE_ENDIAN : Z := 0.
Definition CS_MODE_16 : Z := 1 .<< 1.
Definition CS_MODE_32 : Z := 1 .<< 2.
Definition CS_MODE_64 : Z := 1 .<< 3.
Definition CS_OPT_OFF : Z := 0.
Definition CS_OPT_ON : Z := 3.
Definition CS_OPT_SYNTAX_DEFAULT : Z := 0.
Definition CS_OPT_SYNTAX_INTEL : Z := 1.
Definition CS_OPT_SYNTAX_ATT : Z := 2.
Definition INSN_CACHE_SIZE : Z := 8.

(** What an instruction reads and writes, its groups, and its operands with
    their types and immediates. *)
Record cs_detail := mk_detail {
  regs_read : list Z;
  regs_write : list Z;
  groups : list Z;
  operands : list (Z * Z)
}.

(** [bytes] holds at most 16 bytes; [detail] points to a block of its own. *)
Record cs_insn := mk_insn {
  id : Z;
  address : Z;
  isize : Z;
  ibytes : list Z;
  idetail : option Z
}.

(** [callback]: of the memory, the code, its size and the offset. *)
Record cs_struct := mk_ud {
  arch : Z;
  mode : Z;
  syntax : Z;
  printer_info : option Z;
  regsize_map_64 : bool;
  errnum : cs_err;
  detail : Z;
  insn_cache : option Z;
  skipdata : bool;
  skipdata_size : Z;
  callback : option (mem -> Z -> Z -> Z -> Z)
}.

Inductive block :=
  | BHandle (ud : cs_struct)
  | BInsns (l : list (option cs_insn))
  | BDetail (d : option cs_detail)
  | BRegInfo
  | BCache (c : list Z).

(** [memset]: whether the memory functions are set. *)
Record world := mk_world {
  blocks : gmap Z block;
  next : Z;
  answers : list bool;
  memset : bool
}.

Inductive wout (A : Type) := WRet (a : A) (w : world) | WNull | WStuck.
Arguments WRet {A} a w.
Arguments WNull {A}.
Arguments WStuck {A}.

Definition W (A : Type) : Type := world -> wout A.

Definition wret {A} (a : A) : W A := fun w => WRet a w.
Definition wbind {A B} (x : W A) (f : A -> W B) : W B := fun w =>
  match x w with WRet a w' => f a w' | WNull => WNull | WStuck => WStuck end.
Definition wstuck {A} : W A := fun _ => WStuck.
Definition wnull {A} : W A := fun _ => WNull.

Declare Scope w_scope.
Delimit Scope w_scope with W.
Notation "'let#' x := e 'in' k" := (wbind e (fun x => k))
  (at level 200, x name, e at level 100, k at level 200) : w_scope.
Notation "'let#' ' p := e 'in' k" := (wbind e (fun p => k))
  (at level 200, p strict pattern, e at level 100, k at level 200) : w_scope.
Notation "e ';#' k" := (wbind e (fun _ => k)) (at level 100, right associativity) : w_scope.
Open Scope w_scope.

(** ** Memory functions *)

(** The next answer; all allocations succeed when no answers are left. *)
Definition malloc (b : block) : W (option Z) := fun w =>
  match answers w with
  | false :: rest => WRet None (mk_world (blocks w) (next w) rest (memset w))
  | _ => WRet (Some (next w))
           (mk_world (<[next w := b]> (blocks w)) (next w + 1) (tail (answers w)) (memset w))
  end.

(** [free]: null is allowed. *)
Definition free (p : option Z) : W unit := fun w =>
  match p with
  | None => WRet tt w
  | Some a =>
      match blocks w !! a with
      | None => WStuck
      | Some _ => WRet tt (mk_world (delete a (blocks w)) (next w) (answers w) (memset w))
      end
  end.

(** [realloc] of an array of instructions to [n] elements: the array moves, new
    elements are not initialised; it stays where it is when there is no memory. *)
Definition resize (l : list (option cs_insn)) (n : Z) : list (option cs_insn) :=
  take (Z.to_nat n) l ++ replicate (Z.to_nat n - length l) None.

Definition realloc (p n : Z) : W (option Z) := fun w =>
  match blocks w !! p with
  | Some (BInsns l) =>
      match malloc (BInsns (resize l n)) w with
      | WRet (Some q) w' =>
          WRet (Some q) (mk_world (delete p (blocks w')) (next w') (answers w') (memset w'))
      | WRet None w' => WRet None w'
      | WNull => WNull
      | WStuck => WStuck
      end
  | _ => WStuck
  end.

Definition load_handle (ud : Z) : W cs_struct := fun w =>
  match blocks w !! ud with Some (BHandle h) => WRet h w | _ => WStuck end.

Definition store_handle (ud : Z) (h : cs_struct) : W unit := fun w =>
  match blocks w !! ud with
  | Some (BHandle _) => WRet tt (mk_world (<[ud := BHandle h]> (blocks w)) (next w) (answers w) (memset w))
  | _ => WStuck
  end.

Definition with_errnum (e : cs_err) (h : cs_struct) : cs_struct :=
  mk_ud (arch h) (mode h) (syntax h) (printer_info h) (regsize_map_64 h) e (detail h) (insn_cache h)
    (skipdata h) (skipdata_size h) (callback h).

Definition with_cache (p : option Z) (h : cs_struct) : cs_struct :=
  mk_ud (arch h) (mode h) (syntax h) (printer_info h) (regsize_map_64 h) (errnum h) (detail h) p
    (skipdata h) (skipdata_size h) (callback h).

Definition set_errnum (ud : Z) (e : cs_err) : W unit :=
  let# h := load_handle ud in
  store_handle ud (with_errnum e h).

(** [insn_cache[i]]: the element must be inside of the array. *)
Definition touch (p i : Z) : W unit := fun w =>
  match blocks w !! p with
  | Some (BInsns l) => if (0 <=? i) && (i <? Z.of_nat (length l)) then WRet tt w else WStuck
  | _ => WStuck
  end.

Definition store_insn (p i : Z) (x : cs_insn) : W unit := fun w =>
  match blocks w !! p with
  | Some (BInsns l) =>
      if (0 <=? i) && (i <? Z.of_nat (length l)) then
        WRet tt (mk_world (<[p := BInsns (<[Z.to_nat i := Some x]> l)]> (blocks w)) (next w) (answers w) (memset w))
      else WStuck
  | _ => WStuck
  end.

Definition load_insn (p i : Z) : W cs_insn := fun w =>
  match blocks w !! p with
  | Some (BInsns l) =>
      match (if 0 <=? i then l !! Z.to_nat i else None) with
      | Some (Some x) => WRet x w
      | _ => WStuck
      end
  | _ => WStuck
  end.

(** What the decoder clears of the details, if there are any, before it decodes. *)
Definition clear_operands (d : cs_detail) : cs_detail :=
  mk_detail (regs_read d) (regs_write d) (groups d) [].

Definition clear_detail (p : option Z) : W unit := fun w =>
  match p with
  | None => WRet tt w
  | Some a =>
      match blocks w !! a with
      | Some (BDetail d) =>
          WRet tt (mk_world (<[a := BDetail (option_map clear_operands d)]> (blocks w)) (next w) (answers w) (memset w))
      | _ => WStuck
      end
  end.

(** Writing the details; the pointer is not checked. *)
Definition store_detail (p : option Z) (d : cs_detail) : W unit := fun w =>
  match p with
  | None => WNull
  | Some a =>
      match blocks w !! a with
      | Some (BDetail _) => WRet tt (mk_world (<[a := BDetail (Some d)]> (blocks w)) (next w) (answers w) (memset w))
      | _ => WStuck
      end
  end.

Definition load_cache (p : Z) : W (list Z) := fun w =>
  match blocks w !! p with Some (BCache c) => WRet c w | _ => WStuck end.

Definition store_cache (p : Z) (c : list Z) : W unit := fun w =>
  match blocks w !! p with
  | Some (BCache _) => WRet tt (mk_world (<[p := BCache c]> (blocks w)) (next w) (answers w) (memset w))
  | _ => WStuck
  end.

(** A result of the helper functions. *)
Definition lift {A} (x : res A) : W A := match x with Ok a => wret a | _ => wstuck end.

(** ** The back end *)

(** The functions of the X86 module behind the handle: the decoder, of the
    handle, the code, its size and address, with the size of the instruction,
    the low-level instruction and the details that it and the printer write; the
    table of public ids; and what the printer changes of the low-level
    instruction.  A decoder consumes something, but not more than there is; the
    last id of the table is the largest. *)
Class backend := {
  disasm : cs_struct -> mem -> Z -> Z -> MCInst -> Z -> option (Z * MCInst * cs_detail);
  insns : list insn_map;
  printer : MCInst -> MCInst;
  disasm_size h m code len i off n i' d :
    disasm h m code len i off = Some (n, i', d) -> 0 < n <= len /\ n < 2 ^ 16;
  disasm_opcode h m code len i off n i' d : disasm h m code len i off = Some (n, i', d) -> 0 <= Opcode i';
  insns_ok : table_ok insns (Z.of_nat (length insns))
}.

(** What a new block of 16-bit values holds before it is written. *)
Class fresh_memory := {
  heap : Z -> list Z;
  heap_length n : length (heap n) = Z.to_nat n
}.

Section core.
Context {Hbe : backend} {Hfm : fresh_memory}.

(** The unused contents of a local [MCInst]. *)
Context (stack : MCInst).

(** ** Opening and closing *)

Definition X86_global_init (ud : Z) : W cs_err :=
  let# mri := malloc BRegInfo in
  match mri with
  | None => wnull
  | Some _ =>
      let# h := load_handle ud in
      store_handle ud (mk_ud (arch h) (mode h) CS_OPT_SYNTAX_INTEL mri (mode h =? CS_MODE_64) (errnum h)
                         (detail h) (insn_cache h) (skipdata h) (skipdata_size h) (callback h)) ;#
      wret ERR_OK
  end.

(** [cs_arch_init] and [cs_arch_disallowed_mode_mask]: only X86 is built in. *)
Definition cs_arch_init (a : Z) : option (Z -> W cs_err) :=
  if a =? CS_ARCH_X86 then Some X86_global_init else None.
Definition cs_arch_disallowed_mode_mask (a : Z) : Z :=
  if a =? CS_ARCH_X86 then Z.lnot (CS_MODE_LITTLE_ENDIAN .| CS_MODE_32 .| CS_MODE_64 .| CS_MODE_16) else 0.

(** The error and what is stored to [*handle], if anything. *)
Definition cs_open (a md : Z) : W (cs_err * option Z) := fun w =>
  if negb (memset w) then WRet (ERR_MEMSETUP, None) w
  else
    match (if (0 <=? a) && (a <? CS_ARCH_MAX) then cs_arch_init a else None) with
    | Some init =>
        if truth (md .& cs_arch_disallowed_mode_mask a) then WRet (ERR_MODE, Some 0) w
        else
          (let# ud := malloc (BHandle (mk_ud a md 0 None false ERR_OK CS_OPT_OFF None false 0 None)) in
           match ud with
           | None => wret (ERR_MEM, None)
           | Some ud =>
               let# err := init ud in
               if decide (err = ERR_OK) then wret (ERR_OK, Some ud)
               else free (Some ud) ;# wret (err, Some 0)
           end) w
    | None => WRet (ERR_ARCH, Some 0) w
    end.

Definition cs_close (handle : Z) : W (cs_err * Z) :=
  if handle =? 0 then wret (ERR_CSH, handle)
  else
    let# h := load_handle handle in
    (match printer_info h with Some p => free (Some p) | None => wret tt end) ;#
    free (insn_cache h) ;#
    free (Some handle) ;#
    wret (ERR_OK, 0).

Definition cs_errno (handle : Z) : W cs_err :=
  if handle =? 0 then wret ERR_CSH else let# h := load_handle handle in wret (errnum h).

(** ** Options *)

Inductive cs_opt :=
  | OPT_SYNTAX (value : Z)
  | OPT_DETAIL (value : Z)
  | OPT_MODE (value : Z)
  | OPT_MEM (set : bool)
  | OPT_SKIPDATA (value : Z)
  | OPT_SKIPDATA_SETUP (setup : option (option (mem -> Z -> Z -> Z -> Z)))
  | OPT_OTHER (type value : Z).

(** The sizes of the other architectures do not matter: their handles cannot be
    opened. *)
Definition skipdata_bytes_of (h : cs_struct) : Z :=
  if arch h =? CS_ARCH_X86 then 1 else 255.

Definition X86_option (ud : Z) (o : cs_opt) : W cs_err :=
  let# h := load_handle ud in
  match o with
  | OPT_MODE value =>
      store_handle ud (mk_ud (arch h) (sext 32 value) (syntax h) (printer_info h) (value =? CS_MODE_64) (errnum h)
                         (detail h) (insn_cache h) (skipdata h) (skipdata_size h) (callback h)) ;#
      wret ERR_OK
  | OPT_SYNTAX value =>
      if (value =? CS_OPT_SYNTAX_DEFAULT) || (value =? CS_OPT_SYNTAX_INTEL) then
        store_handle ud (mk_ud (arch h) (mode h) CS_OPT_SYNTAX_INTEL (printer_info h) (regsize_map_64 h) (errnum h)
                           (detail h) (insn_cache h) (skipdata h) (skipdata_size h) (callback h)) ;#
        wret ERR_OK
      else if value =? CS_OPT_SYNTAX_ATT then store_handle ud (with_errnum ERR_DIET h) ;# wret ERR_DIET
      else store_handle ud (with_errnum ERR_OPTION h) ;# wret ERR_OPTION
  | _ => wret ERR_OK
  end.

Definition cs_option (ud : Z) (o : cs_opt) : W cs_err :=
  match o with
  | OPT_MEM set => fun w => WRet ERR_OK (mk_world (blocks w) (next w) (answers w) set)
  | _ =>
      if ud =? 0 then wret ERR_CSH
      else
        let# h := load_handle ud in
        match o with
        | OPT_DETAIL value =>
            store_handle ud (mk_ud (arch h) (mode h) (syntax h) (printer_info h) (regsize_map_64 h) (errnum h)
                               (u32 value) (insn_cache h) (skipdata h) (skipdata_size h) (callback h)) ;#
            wret ERR_OK
        | OPT_SKIPDATA value =>
            let on := value =? CS_OPT_ON in
            let sz := if on && (skipdata_size h =? 0) then skipdata_bytes_of h else skipdata_size h in
            store_handle ud (mk_ud (arch h) (mode h) (syntax h) (printer_info h) (regsize_map_64 h) (errnum h)
                               (detail h) (insn_cache h) on sz (callback h)) ;#
            wret ERR_OK
        | OPT_SKIPDATA_SETUP (Some cb) =>
            store_handle ud (mk_ud (arch h) (mode h) (syntax h) (printer_info h) (regsize_map_64 h) (errnum h)
                               (detail h) (insn_cache h) (skipdata h) (skipdata_size h) cb) ;#
            wret ERR_OK
        | OPT_SKIPDATA_SETUP None => wret ERR_OK
        | OPT_MODE value =>
            if truth (value .& u64 (cs_arch_disallowed_mode_mask (arch h))) then wret ERR_OPTION
            else X86_option ud o
        | _ => X86_option ud o
        end
  end.

(** ** Public ids *)

(** [insn_find(insns, ARR_SIZE(insns), op, &h->insn_cache)]: the first call
    makes the cache, without a check of the allocation. *)
Definition find_insn (ud op : Z) : W Z :=
  let max := Z.of_nat (length insns) in
  let# h := load_handle ud in
  let# last := lift (CsUtils.insn_id insns (u32 (max - 1))) in
  if last <? op then wret 0
  else
    let# cache :=
      (match insn_cache h with
       | Some p => load_cache p
       | None =>
           let# p := malloc (BCache (heap (u16 last + 1))) in
           match p with
           | None => wnull
           | Some p =>
               let# cache := lift (make_id2insn (fun n => Some (heap n)) insns max) in
               store_cache p cache ;# store_handle ud (with_cache (Some p) h) ;# wret cache
           end
       end) in
    lift (cache_get cache op).

(** The new id, or [None] when it is not written. *)
Definition X86_get_insn_id (ud op : Z) : W (option Z) :=
  let# i := find_insn ud op in
  if i =? 0 then wret None
  else match insns !! Z.to_nat i with Some e => wret (Some (mapid e)) | None => wstuck end.

(** ** Disassembling *)

(** [handle->disasm] for an instruction with the details at [p]: they are cleared
    if there are any, and written without a check if the handle wants them. *)
Definition fetch (h : cs_struct) (m : mem) (code size off : Z) (p : option Z) : W (option (Z * MCInst)) :=
  clear_detail p ;#
  match disasm h m code size (MCInst_Init stack) off with
  | Some (n, mci, det) =>
      (if truth (detail h) then store_detail p det else wret tt) ;# wret (Some (n, mci))
  | None => wret None
  end.

(** The diet part of [fill_insn]; X86 has no post printer. *)
Definition fill_insn (x : cs_insn) (mci : MCInst) (m : mem) (code : Z) : cs_insn :=
  let copy_size := Z.min 16 (isize x) in
  mk_insn (if truth (MCInst_getOpcodePub mci) then MCInst_getOpcodePub mci else id x)
    (address x) copy_size (bytes m (code + isize x - copy_size) (Z.to_nat copy_size)) (idetail x).

(** The instruction for [n] bytes of data; more than 16 do not fit. *)
Definition data_insn (n : Z) (m : mem) (code offset : Z) (d : option Z) : W cs_insn :=
  if 16 <? n then wstuck else wret (mk_insn 0 offset (u16 n) (bytes m code (Z.to_nat n)) d).

(** Whether data is skipped, and how much of it: the conditions that leave the
    loop give [None]. *)
Definition skip (h : cs_struct) (m : mem) (code code_size off size : Z) : option Z :=
  if negb (skipdata h) || (size <? skipdata_size h) then None
  else
    match callback h with
    | Some cb =>
        let n := cb m code code_size off in
        if size <? n then None else if n =? 0 then None else Some n
    | None => Some (skipdata_size h)
    end.

(** The local variables of [cs_disasm]: the array, the instructions so far, the
    index in the cache, its size, and the rest of the code. *)
Record locals := mk_locals {
  total : Z;
  c : Z;
  f : Z;
  cache_size : Z;
  lcap : Z;
  buffer : Z;
  lsize : Z;
  offset : Z
}.

(** The loop that frees the details of [n] instructions from [i] on. *)
Fixpoint free_details (n : nat) (p i : Z) : W unit :=
  match n with
  | O => wret tt
  | S n' => let# x := load_insn p i in free (idetail x) ;# free_details n' p (i + 1)
  end.

(** Giving up for lack of memory. *)
Definition out_of_memory (ud : Z) (h : cs_struct) (p n : Z) : W unit :=
  (if truth (detail h) then free_details (Z.to_nat n) p 0 else wret tt) ;#
  free (Some p) ;#
  set_errnum ud ERR_MEM.

(** How the loop ends: out of memory, or with the variables. *)
Definition outcome : Type := option locals.

(** What follows an instruction of [n] bytes. *)
Definition advance (ud : Z) (h : cs_struct) (count n : Z) (v : locals)
    : W (outcome * bool) :=
  let f' := u32 (f v + 1) in
  let c' := c v + 1 in
  let v := mk_locals (total v) c' f' (cache_size v) (lcap v) (buffer v) (lsize v) (offset v) in
  if (0 <? count) && (c' =? count) then wret (Some v, true)
  else
    let rest (v : locals) :=
      mk_locals (total v) (c v) (f v) (cache_size v) (lcap v) (buffer v + n) (u64 (lsize v - n)) (u64 (offset v + n)) in
    if f' =? cache_size v then
      let cs := u32 (cache_size v * 8) / 5 in
      let cap := lcap v + cs in
      let# tmp := realloc (total v) cap in
      match tmp with
      | None => out_of_memory ud h (total v) c' ;# wret (None, true)
      | Some t => wret (Some (rest (mk_locals t c' 0 cs cap (buffer v) (lsize v) (offset v))), false)
      end
    else wret (Some (rest v), false).

(** The id of an instruction in the array before it is written. *)
Definition uninit_id : Z := nth 0 (heap 1) 0.

(** The loop of [cs_disasm]; [None] when the fuel is used up.  [h] are the members
    of the handle that the loop reads, none of which it changes. *)
Fixpoint disasm_loop (fuel : nat) (ud : Z) (h : cs_struct) (m : mem) (org size_org offset_org count : Z)
    (v : locals) : W (option outcome) :=
  match fuel with
  | O => wret None
  | S fuel' =>
      if 0 <? lsize v then
        touch (total v) (c v) ;#
        let# d := (if truth (detail h) then malloc (BDetail None) else wret None) in
        let# r := fetch h m (buffer v) (lsize v) (offset v) d in
        let# next :=
          (match r with
           | Some (insn_size, mci) =>
               let# i := X86_get_insn_id ud (Opcode mci) in
               let x := mk_insn (default uninit_id i) (offset v) insn_size [] d in
               store_insn (total v) (c v) (fill_insn x (printer mci) m (buffer v)) ;#
               wret (Some insn_size)
           | None =>
               (if truth (detail h) then free d else wret tt) ;#
               match skip h m org size_org (u64 (offset v - offset_org)) (lsize v) with
               | None => wret None
               | Some n =>
                   let# x := data_insn n m (buffer v) (offset v) None in
                   store_insn (total v) (c v) x ;# wret (Some n)
               end
           end) in
        match next with
        | None => wret (Some (Some v))
        | Some n =>
            let# '(o, stop) := advance ud h count n v in
            match o with
            | None => wret (Some None)
            | Some v => if stop then wret (Some (Some v))
                        else disasm_loop fuel' ud h m org size_org offset_org count v
            end
        end
      else wret (Some (Some v))
  end.

(** The end: an empty array is freed, one that is too long is cut.  The result is
    the number of instructions and what is stored to [*insn]. *)
Definition finish (ud : Z) (h : cs_struct) (v : locals) : W (Z * option (option Z)) :=
  if c v =? 0 then free (Some (total v)) ;# wret (0, Some None)
  else if negb (f v =? cache_size v) then
    let# tmp := realloc (total v) (lcap v - (cache_size v - f v)) in
    match tmp with
    | None => out_of_memory ud h (total v) (c v) ;# wret (0, Some None)
    | Some t => wret (c v, Some (Some t))
    end
  else wret (c v, Some (Some (total v))).

(** [None] as the second result: [*insn] is not written. *)
Definition cs_disasm (fuel : nat) (ud : Z) (m : mem) (code size off count : Z)
    : W (option (Z * option (option Z))) :=
  if ud =? 0 then wret (Some (0, None))
  else
    set_errnum ud ERR_OK ;#
    let# h := load_handle ud in
    let# t := malloc (BInsns (replicate (Z.to_nat INSN_CACHE_SIZE) None)) in
    match t with
    | None => set_errnum ud ERR_MEM ;# wret (Some (0, None))
    | Some t =>
        let# o := disasm_loop fuel ud h m code size off count
                    (mk_locals t 0 0 INSN_CACHE_SIZE INSN_CACHE_SIZE code size off) in
        match o with
        | None => wret None
        | Some None => wret (Some (0, Some None))
        | Some (Some v) => let# r := finish ud h v in wret (Some r)
        end
    end.

Definition cs_free (insn : option Z) (count : Z) : W unit :=
  (match insn with
   | Some p => free_details (Z.to_nat count) p 0
   | None => if 0 <? count then wstuck else wret tt
   end) ;#
  free insn.

(** [cs_malloc]: an array of one instruction. *)
Definition cs_malloc (ud : Z) : W (option Z) :=
  let# p := malloc (BInsns [None]) in
  match p with
  | None => set_errnum ud ERR_MEM ;# wret None
  | Some p =>
      let# h := load_handle ud in
      if truth (detail h) then
        let# d := malloc (BDetail None) in
        match d with
        | None => free (Some p) ;# set_errnum ud ERR_MEM ;# wret None
        | Some d => store_insn p 0 (mk_insn 0 0 0 [] (Some d)) ;# wret (Some p)
        end
      else store_insn p 0 (mk_insn 0 0 0 [] None) ;# wret (Some p)
  end.

(** One step: the new code, size and address; the instruction is written over
    the one at [insn], whose details are kept. *)
Definition cs_disasm_iter (ud : Z) (m : mem) (code size addr insn : Z)
    : W (bool * (Z * Z * Z)) :=
  if ud =? 0 then wret (false, (code, size, addr))
  else
    set_errnum ud ERR_OK ;#
    let# h := load_handle ud in
    let# old := load_insn insn 0 in
    let old := mk_insn (id old) addr (isize old) (ibytes old) (idetail old) in
    store_insn insn 0 old ;#
    let# r := fetch h m code size addr (idetail old) in
    match r with
    | Some (insn_size, mci) =>
        let# i := X86_get_insn_id ud (Opcode mci) in
        let x := mk_insn (default (id old) i) addr insn_size (ibytes old) (idetail old) in
        store_insn insn 0 (fill_insn x (printer mci) m code) ;#
        wret (true, (code + insn_size, u64 (size - insn_size), u64 (addr + insn_size)))
    | None =>
        match skip h m code size 0 size with
        | None => wret (false, (code, size, addr))
        | Some n =>
            let# x := data_insn n m code addr (idetail old) in
            store_insn insn 0 x ;#
            wret (true, (code + n, u64 (size - n), u64 (addr + n)))
        end
    end.

(** ** Questions about an instruction *)

Definition arr_exist (arr : list Z) (i : Z) : bool := existsb (fun x => x =? i) arr.

(** The checks of the five functions: the details, or an error. *)
Definition details_of (ud : Z) (x : cs_insn) : W (option cs_detail) :=
  let# h := load_handle ud in
  if negb (truth (detail h)) then set_errnum ud ERR_DETAIL ;# wret None
  else if id x =? 0 then set_errnum ud ERR_SKIPDATA ;# wret None
  else
    match idetail x with
    | None => set_errnum ud ERR_DETAIL ;# wret None
    | Some p => fun w =>
        match blocks w !! p with
        | Some (BDetail (Some d)) => WRet (Some d) w
        | _ => WStuck
        end
    end.

Definition cs_insn_group (ud : Z) (x : cs_insn) (group_id : Z) : W bool :=
  if ud =? 0 then wret false
  else let# d := details_of ud x in
       wret (match d with Some d => arr_exist (groups d) group_id | None => false end).
Definition cs_reg_read (ud : Z) (x : cs_insn) (reg_id : Z) : W bool :=
  if ud =? 0 then wret false
  else let# d := details_of ud x in
       wret (match d with Some d => arr_exist (regs_read d) reg_id | None => false end).
Definition cs_reg_write (ud : Z) (x : cs_insn) (reg_id : Z) : W bool :=
  if ud =? 0 then wret false
  else let# d := details_of ud x in
       wret (match d with Some d => arr_exist (regs_write d) reg_id | None => false end).

Fixpoint count_ops (ops : list (Z * Z)) (op_type : Z) : Z :=
  match ops with
  | [] => 0
  | o :: ops' => (if o.1 =? op_type then 1 else 0) + count_ops ops' op_type
  end.

Definition cs_op_count (ud : Z) (x : cs_insn) (op_type : Z) : W Z :=
  if ud =? 0 then wret (-1)
  else
    let# d := details_of ud x in
    match d with
    | None => wret (-1)
    | Some d =>
        let# h := load_handle ud in
        if arch h =? CS_ARCH_X86 then set_errnum ud ERR_OK ;# wret (count_ops (operands d) op_type)
        else set_errnum ud ERR_HANDLE ;# wret (-1)
    end.

(** The test for the position comes after every operand, counted or not. *)
Fixpoint index_op (ops : list (Z * Z)) (op_type post count i : Z) : Z :=
  match ops with
  | [] => -1
  | o :: ops' =>
      let count := if o.1 =? op_type then count + 1 else count in
      if count =? post then i else index_op ops' op_type post count (i + 1)
  end.

Definition cs_op_index (ud : Z) (x : cs_insn) (op_type post : Z) : W Z :=
  if ud =? 0 then wret (-1)
  else
    let# d := details_of ud x in
    match d with
    | None => wret (-1)
    | Some d =>
        let# h := load_handle ud in
        if arch h =? CS_ARCH_X86 then set_errnum ud ERR_OK ;# wret (index_op (operands d) op_type post 0 0)
        else set_errnum ud ERR_HANDLE ;# wret (-1)
    end.
End core.
