(* ===== verification/CsThm.v ===== *)
(** Theorems on the core of Capstone ([Cs.v]): [cs_disasm] computes a reference
    disassembly, its array never overflows, and nothing leaks: what is left is
    the cache of ids, which belongs to the handle.  The allocations that the code
    does not check are those of the details and of that cache. *)

From Stdlib Require Import ZArith Lia List Bool.
From stdpp Require Import prelude gmap.
From S2P Require Import Prelude McInst CsUtils Cs.

Open Scope Z_scope.
Open Scope w_scope.

(** ** The reference disassembly *)

(** An instruction and its details. *)
Definition view : Type := cs_insn * option cs_detail.

(** A count of zero asks for all instructions. *)
Definition cut {A} (count : Z) (l : list A) : list A :=
  if 0 <? count then take (Z.to_nat count) l else l.

Section spec.
Context {Hbe : backend} {Hfm : fresh_memory} (stack : MCInst).

(** The largest opcode of the table. *)
Definition last_id : Z := match list.last insns with Some l => CsUtils.id l | None => 0 end.

(** The index in the table that the cache has for an opcode: for one that the
    table lacks it is what the block for the cache held. *)
Definition cache_index (op : Z) : Z := index_of insns (heap (last_id + 1)) op.

(** The public id of an opcode; none for an opcode above the largest, or for the
    index 0. *)
Definition public_id (op : Z) : option Z :=
  if last_id <? op then None
  else if cache_index op =? 0 then None else mapid <$> insns !! Z.to_nat (cache_index op).

(** The lookup does not leave the table. *)
Definition indexed (op : Z) : Prop := cache_index op = 0 \/ is_Some (insns !! Z.to_nat (cache_index op)).

(** The instruction at [code] with its details, which a handle has to want, and
    its size. *)
Definition decode_one (h : cs_struct) (m : mem) (org size_org offset_org code size off : Z)
    : option (view * Z) :=
  match disasm h m code size (MCInst_Init stack) off with
  | Some (n, mci, det) =>
      Some ((fill_insn (mk_insn (default uninit_id (public_id (Opcode mci))) off n [] None) (printer mci) m code,
             if truth (detail h) then Some det else None), n)
  | None =>
      match skip h m org size_org (u64 (off - offset_org)) size with
      | Some n => Some ((mk_insn 0 off (u16 n) (bytes m code (Z.to_nat n)) None, None), n)
      | None => None
      end
  end.

Fixpoint decode_all (fuel : nat) (h : cs_struct) (m : mem) (org size_org offset_org code size off : Z)
    : list view :=
  match fuel with
  | O => []
  | S f =>
      if 0 <? size then
        match decode_one h m org size_org offset_org code size off with
        | Some (x, n) => x :: decode_all f h m org size_org offset_org (code + n) (size - n) (u64 (off + n))
        | None => []
        end
      else []
  end.

(** Skipping moves forward, and the bytes skipped fit into an instruction. *)
Definition skip_ok (h : cs_struct) : Prop :=
  skipdata h = true -> 0 < skipdata_size h <= 16 /\
  forall cb, callback h = Some cb -> forall m code size off, 0 <= cb m code size off <= 16.

Lemma skip_range h m code size off left n :
  skip_ok h -> skip h m code size off left = Some n -> 0 < n <= left /\ n <= 16.
Proof using Type.
  unfold skip_ok, skip. intros Hok. destruct (skipdata h); [|done]. destruct Hok as [Hs Hcb]; [done|].
  cbn [negb orb]. destruct (Z.ltb_spec left (skipdata_size h)); [done|].
  destruct (callback h) as [cb|]; [|intros [= <-]; lia].
  specialize (Hcb cb eq_refl m code size off). destruct (Z.ltb_spec left (cb m code size off)); [done|].
  destruct (Z.eqb_spec (cb m code size off) 0); [done|]. intros [= <-]. lia.
Qed.
End spec.

(** Without the address of the details. *)
Definition strip (x : cs_insn) : cs_insn := mk_insn (id x) (address x) (isize x) (ibytes x) None.
Definition bare (v : view) : view := (strip v.1, v.2).

(** A back end none of whose opcodes is looked up outside of the table, given what
    new blocks hold. *)
Class ids_indexed {Hbe : backend} {Hfm : fresh_memory} : Prop := {
  opcodes_indexed h m code len i off n i' d : disasm h m code len i off = Some (n, i', d) -> indexed (Opcode i')
}.

(** Memory that is cleared when it is allocated. *)
Definition zeroed_memory : fresh_memory.
Proof. refine {| heap n := replicate (Z.to_nat n) 0 |}. intros n. apply length_replicate. Defined.

Lemma zeroed_ids {Hbe : backend} : @ids_indexed Hbe zeroed_memory.
Proof.
  constructor. intros h m code len i off n i' d _. unfold indexed, cache_index, index_of.
  destruct (find_spec insns (Opcode i')) as [k|] eqn:E.
  - right. destruct (find_spec_Some _ _ _ E) as (_ & e & He & _). by exists e.
  - left. apply nth_replicate.
Qed.

(** ** The monad *)

Lemma wbind_ret {A B} (x : W A) (k : A -> W B) w a w' : x w = WRet a w' -> wbind x k w = k a w'.
Proof. intros E. unfold wbind. by rewrite E. Qed.

Lemma wbind_wret {A B} (a : A) (k : A -> W B) w : wbind (wret a) k w = k a w.
Proof. done. Qed.

Lemma wbind_assoc {A B C} (x : W A) (f : A -> W B) (g : B -> W C) w :
  wbind (wbind x f) g w = wbind x (fun a => wbind (f a) g) w.
Proof. unfold wbind. by destruct (x w). Qed.

(** ** Memory *)

(** Addresses in use are below the next one. *)
Definition wf (w : world) : Prop :=
  0 < next w /\ forall k b, blocks w !! k = Some b -> 0 < k < next w.

Lemma wf_fresh w : wf w -> blocks w !! next w = None.
Proof. intros [_ Hw]. destruct (blocks w !! next w) eqn:E; [|done]. apply Hw in E. lia. Qed.

(** What an operation that allocates may change besides the blocks. *)
Definition goes_on (w w' : world) : Prop :=
  next w <= next w' /\ answers w' `suffix_of` answers w /\ memset w' = memset w.

#[export] Instance goes_on_preorder : PreOrder goes_on.
Proof.
  split; [by intros w; repeat split|]. intros w1 w2 w3 (N1 & A1 & M1) (N2 & A2 & M2).
  split_and!; [lia|by etrans|congruence].
Qed.

Lemma alloc_cases b w :
  (false ∈ answers w /\ exists w', malloc b w = WRet None w' /\ blocks w' = blocks w /\ next w' = next w /\ goes_on w w') \/
  (exists w', malloc b w = WRet (Some (next w)) w' /\ blocks w' = <[next w := b]> (blocks w) /\
     next w' = next w + 1 /\ goes_on w w').
Proof.
  unfold malloc, goes_on. destruct (answers w) as [|[] rest] eqn:E.
  - right. eexists. split; [done|]. simpl. split_and!; [done..|lia|done|done].
  - right. eexists. split; [done|]. simpl. split_and!; [done..|lia| |done]. by apply suffix_cons_r.
  - left. split; [apply list_elem_of_here|]. eexists. split; [done|]. simpl.
    split_and!; [done..|lia| |done]. by apply suffix_cons_r.
Qed.

(** A world that allocates no new addresses stays well-formed. *)
Lemma wf_mono w w' :
  wf w -> next w <= next w' ->
  (forall k b, blocks w' !! k = Some b -> k = next w /\ next w < next w' \/ exists b', blocks w !! k = Some b') ->
  wf w'.
Proof.
  intros [Hn Hw] Hx H. split; [lia|]. intros k b Hk.
  destruct (H k b Hk) as [[-> ?]|[b' Hb]]; [lia|]. apply Hw in Hb. lia.
Qed.

Lemma wf_alloc w w' b :
  wf w -> blocks w' = <[next w := b]> (blocks w) -> next w' = next w + 1 -> wf w'.
Proof.
  intros Hw Hb Hn. eapply wf_mono; [exact Hw|lia|]. intros k b' Hk. rewrite Hb in Hk.
  destruct (decide (k = next w)) as [->|]; [left; lia|]. rewrite lookup_insert_ne in Hk by done. eauto.
Qed.

Lemma free_some a b w :
  blocks w !! a = Some b ->
  exists w', free (Some a) w = WRet tt w' /\ blocks w' = delete a (blocks w) /\ next w' = next w /\
    answers w' = answers w /\ memset w' = memset w.
Proof. intros H. unfold free. rewrite H. by eexists. Qed.

Lemma goes_on_false w w' : goes_on w w' -> false ∈ answers w' -> false ∈ answers w.
Proof. intros (_ & [pre ->] & _) H. apply elem_of_app. by right. Qed.

(** [B] is [base] with the details of the instructions [vs], each once. *)
Fixpoint own (base : gmap Z block) (vs : list view) (B : gmap Z block) : Prop :=
  match vs with
  | [] => B = base
  | (x, d) :: vs' =>
      match idetail x, d with
      | None, None => own base vs' B
      | Some p, Some d => B !! p = Some (BDetail (Some d)) /\ own base vs' (delete p B)
      | _, _ => False
      end
  end.

(** Goes to the next instruction of a list that is owned. *)
Ltac own_cases v :=
  destruct v as [x' d']; cbn [own app] in *; destruct (idetail x') as [q|] eqn:Heqo, d' as [c|]; cbn beta iota in *; try done.

Lemma own_snoc_none base vs x B :
  own base vs B -> idetail x = None -> own base (vs ++ [(x, None)]) B.
Proof.
  revert B. induction vs as [|v vs IH]; intros B; cbn [own app]; [by intros -> ->|].
  own_cases v; [intros [? ?]|intros ?]; auto.
Qed.

(** What [base] has is kept. *)
Lemma own_base base vs B k b : own base vs B -> base !! k = Some b -> B !! k = Some b.
Proof.
  revert B. induction vs as [|v vs IH]; intros B; cbn [own]; [by intros ->|].
  own_cases v; [|auto]. intros [_ Ho] Hk. specialize (IH _ Ho Hk). by apply lookup_delete_Some in IH as [_ ?].
Qed.

(** Blocks that are not details of the list can change. *)
Lemma own_insert base vs B k b :
  own base vs B -> is_Some (base !! k) \/ B !! k = None -> own (<[k := b]> base) vs (<[k := b]> B).
Proof.
  revert B. induction vs as [|v vs IH]; intros B; cbn [own]; [by intros ->|].
  own_cases v; [|auto]. intros [Hq Ho] Hk.
  assert (k <> q) as Hne.
  { intros ->. destruct Hk as [[b0 Hc]|Hk]; [|congruence]. apply (own_base _ _ _ _ _ Ho) in Hc.
    by rewrite lookup_delete_eq in Hc. }
  rewrite lookup_insert_ne, delete_insert_ne by done. split; [done|]. apply IH; [done|].
  rewrite lookup_delete_ne by done. done.
Qed.

(** A block of [base] becomes the details of one more instruction. *)
Lemma own_claim base vs B x p d :
  own (<[p := BDetail (Some d)]> base) vs B -> base !! p = None -> idetail x = Some p ->
  own base (vs ++ [(x, Some d)]) B.
Proof.
  revert B. induction vs as [|v vs IH]; intros B; cbn [own app].
  - intros -> Hp ->. by rewrite lookup_insert_eq, delete_insert_id.
  - own_cases v; [intros [? ?]|intros ?]; auto.
Qed.

(** The details of an instruction can be read. *)
Definition has_detail (B : gmap Z block) (v : view) : Prop :=
  match idetail v.1 with
  | Some p => exists d, v.2 = Some d /\ B !! p = Some (BDetail (Some d))
  | None => v.2 = None
  end.

Lemma own_details base vs B : own base vs B -> Forall (has_detail B) vs.
Proof.
  revert B. induction vs as [|v vs IH]; intros B; cbn [own]; [constructor|].
  own_cases v; intros Ho.
  - destruct Ho as [Hq Ho]. constructor; [unfold has_detail; cbn [fst snd]; rewrite Heqo; eauto|].
    eapply Forall_impl; [apply IH, Ho|]. intros y. unfold has_detail.
    destruct (idetail y.1); [|done]. intros (d & Hd & Hl). apply lookup_delete_Some in Hl as [_ ?]. eauto.
  - constructor; [unfold has_detail; cbn [fst snd]; by rewrite Heqo|auto].
Qed.

Lemma free_details_own base T l vs k B w :
  blocks w = <[T := BInsns l]> B -> B !! T = None -> own base vs B -> 0 <= k ->
  (forall i v, vs !! i = Some v -> l !! (Z.to_nat k + i)%nat = Some (Some v.1)) ->
  exists w', free_details (length vs) T k w = WRet tt w' /\ blocks w' = <[T := BInsns l]> base /\
    base !! T = None /\ next w' = next w /\ answers w' = answers w /\ memset w' = memset w.
Proof.
  revert k B w. induction vs as [|v vs IH]; intros k B w Hb HT Ho Hk Hl; cbn [length free_details own] in *.
  { subst B. exists w. split_and!; done. }
  unfold wbind at 1, load_insn. rewrite Hb, lookup_insert_eq, (proj2 (Z.leb_le 0 k)) by done.
  pose proof (Hl O v eq_refl) as H0. rewrite Nat.add_0_r in H0. rewrite H0. unfold wbind.
  assert (forall i y, vs !! i = Some y -> l !! (Z.to_nat (k + 1) + i)%nat = Some (Some y.1)) as Hl'.
  { intros i y Hy. rewrite <- (Hl (S i) y Hy). f_equal. lia. }
  own_cases v; [|cbn [fst]; rewrite Heqo; by eapply IH; [..|lia|done]]. cbn [fst]. rewrite Heqo.
  destruct Ho as [Hq Ho]. assert (q <> T) by congruence.
  destruct (free_some q (BDetail (Some c)) w) as (w1 & -> & B1 & N1 & A1 & M1).
  { rewrite Hb. by rewrite lookup_insert_ne. }
  destruct (IH (k + 1) (delete q B) w1) as (w2 & -> & B2 & T2 & N2 & A2 & M2).
  - by rewrite B1, Hb, delete_insert_ne.
  - by rewrite lookup_delete_ne.
  - done.
  - lia.
  - done.
  - exists w2. split_and!; congruence.
Qed.

(** Without detail mode there is nothing to free. *)
Definition plain (v : view) : Prop := idetail v.1 = None.

Lemma own_plain base vs B : own base vs B -> Forall plain vs -> B = base.
Proof.
  intros Ho Hx. revert B Ho. induction Hx as [|v vs Hx _ IH]; intros B; cbn [own]; [done|].
  unfold plain in Hx. own_cases v; [by cbn in Hx; congruence|auto].
Qed.

Definition set_err (ud : Z) (e : cs_err) (h : cs_struct) (B : gmap Z block) : gmap Z block :=
  <[ud := BHandle (with_errnum e h)]> B.

Lemma set_errnum_spec ud e h w :
  blocks w !! ud = Some (BHandle h) ->
  exists w', set_errnum ud e w = WRet tt w' /\ blocks w' = set_err ud e h (blocks w) /\ next w' = next w /\
    answers w' = answers w /\ memset w' = memset w.
Proof.
  intros H. unfold set_errnum, wbind, load_handle, store_handle. rewrite H. rewrite H. by eexists.
Qed.

Lemma out_of_memory_spec base ud h hb T l vs B w :
  base !! ud = Some (BHandle hb) -> blocks w = <[T := BInsns l]> B -> B !! T = None -> own base vs B ->
  (truth (detail h) = false -> Forall plain vs) ->
  (forall i v, vs !! i = Some v -> l !! i = Some (Some v.1)) ->
  exists w', out_of_memory ud h T (Z.of_nat (length vs)) w = WRet tt w' /\
    blocks w' = set_err ud ERR_MEM hb base /\ next w' = next w /\ answers w' = answers w /\ memset w' = memset w.
Proof.
  intros Hh Hb HT Ho Hd Hl. unfold out_of_memory, wbind at 1.
  assert (exists w1, (if truth (detail h) then free_details (Z.to_nat (Z.of_nat (length vs))) T 0 else wret tt) w
      = WRet tt w1 /\ blocks w1 = <[T := BInsns l]> base /\ base !! T = None /\
      next w1 = next w /\ answers w1 = answers w /\ memset w1 = memset w) as (w1 & -> & B1 & T1 & N1 & A1 & M1).
  { rewrite Nat2Z.id. destruct (truth (detail h)).
    - eapply free_details_own; [done..|lia|]. intros i x Hx. apply (Hl i x Hx).
    - exists w. assert (B = base) as -> by (by apply (own_plain base vs); auto). split_and!; done. }
  unfold wbind. destruct (free_some T (BInsns l) w1) as (w2 & -> & B2 & N2 & A2 & M2).
  { by rewrite B1, lookup_insert_eq. }
  assert (blocks w2 = base) as E2 by (by rewrite B2, B1, delete_insert_id).
  destruct (set_errnum_spec ud ERR_MEM hb w2) as (w3 & -> & B3 & N3 & A3 & M3); [by rewrite E2|].
  exists w3. rewrite E2 in B3. split_and!; congruence.
Qed.

Lemma regrow_cases T l n w :
  wf w -> blocks w !! T = Some (BInsns l) ->
  (false ∈ answers w /\ exists w', realloc T n w = WRet None w' /\ blocks w' = blocks w /\ next w' = next w /\ goes_on w w') \/
  (exists w', realloc T n w = WRet (Some (next w)) w' /\
     blocks w' = <[next w := BInsns (resize l n)]> (delete T (blocks w)) /\ next w' = next w + 1 /\ goes_on w w').
Proof.
  intros Hw HT. unfold realloc. rewrite HT.
  destruct (alloc_cases (BInsns (resize l n)) w) as [(Hf & w' & -> & Hb & Hn & Hg)|(w' & -> & Hb & Hn & Hg)].
  - left. split; [done|]. exists w'. split_and!; done.
  - right. eexists. split; [done|]. simpl. split_and!; [|done..].
    rewrite Hb. apply delete_insert_ne. apply Hw in HT. lia.
Qed.

(** ** The cache of ids *)

Section cache.
Context {Hbe : backend} {Hfm : fresh_memory}.

(** A cache as [make_id2insn] fills it. *)
Definition cached (c : list Z) : Prop := forall op, 0 <= op <= last_id -> cache_get c op = Ok (cache_index op).

Definition cache_ok (B : gmap Z block) (h : cs_struct) : Prop :=
  forall p, insn_cache h = Some p -> exists c, B !! p = Some (BCache c) /\ cached c.

(** What looking up ids may change: a handle without a cache gets one. *)
Definition grown (ud : Z) (h h' : cs_struct) (B B' : gmap Z block) : Prop :=
  (h' = h /\ B' = B) \/
  (insn_cache h = None /\ exists p c, B !! p = None /\ cached c /\ h' = with_cache (Some p) h /\
     B' = <[ud := BHandle h']> (<[p := BCache c]> B)).

Lemma grown_trans ud h1 h2 h3 B1 B2 B3 : grown ud h1 h2 B1 B2 -> grown ud h2 h3 B2 B3 -> grown ud h1 h3 B1 B3.
Proof using Type.
  intros [[-> ->]|H]; [done|]. intros [[-> ->]|H']; [by right|].
  destruct H as (_ & p & c & _ & _ & -> & _), H' as [[=] _].
Qed.

Lemma grown_uncached ud h h' B B' : grown ud h h' B B' -> insn_cache h' = None -> insn_cache h = None.
Proof using Type. intros [[-> _]|[? _]]; done. Qed.

Lemma grown_detail ud h h' B B' : grown ud h h' B B' -> detail h' = detail h.
Proof using Type. intros [[-> _]|(_ & p & c & _ & _ & -> & _)]; done. Qed.

Lemma grown_handle ud h h' B B' :
  grown ud h h' B B' -> B !! ud = Some (BHandle h) -> cache_ok B h -> B' !! ud = Some (BHandle h') /\ cache_ok B' h'.
Proof using Type.
  intros [[-> ->]|(_ & p & c & Hp & Hc & -> & ->)] Hh Hok; [done|]. assert (p <> ud) by congruence.
  split; [by rewrite lookup_insert_eq|]. intros q [= <-]. exists c. by rewrite lookup_insert_ne, lookup_insert_eq.
Qed.

(** The table and a new cache. *)
Lemma insns_last : 0 <= last_id < 65536 /\
  CsUtils.insn_id insns (u32 (Z.of_nat (length insns) - 1)) = Ok last_id /\
  exists c, make_id2insn (fun n => Some (heap n)) insns (Z.of_nat (length insns)) = Ok c /\ cached c.
Proof using Type.
  destruct (table_last _ _ insns_ok) as (l & El & E1 & Hr). unfold cached, cache_index, last_id. rewrite El. split_and!; try done; try lia.
  pose proof (heap_length (CsUtils.id l + 1)) as Hl.
  destruct (make_id2insn_ok (fun n => Some (heap n)) insns _ _ l insns_ok El eq_refl Hl) as (c & Ec & Hc).
  exists c. split; [done|]. intros op Ho. by apply (cache_of_get _ _ _ _ _ Hc).
Qed.

(** An opcode that the table has. *)
Lemma found_public op :
  0 <= op -> is_Some (find_spec insns op) -> op <= last_id /\ indexed op /\ is_Some (public_id op).
Proof using Type.
  intros Ho [k Hk]. destruct (find_spec_Some _ _ _ Hk) as (Hk1 & e & He & Eid).
  destruct (table_last _ _ insns_ok) as (l & El & _).
  assert (op <= last_id) as Hle.
  { unfold last_id. rewrite El, <- Eid. apply (to_last _ _ insns_ok e l El). by eapply list_elem_of_lookup_2. }
  assert (cache_index op = k) as Ek by (unfold cache_index, index_of; by rewrite Hk).
  unfold indexed, public_id. rewrite Ek, He, (proj2 (Z.ltb_ge _ _)), (proj2 (Z.eqb_neq _ _)) by lia.
  split_and!; [done|right; by eexists|by eexists].
Qed.

Lemma cached_id c op w :
  cached c -> 0 <= op <= last_id -> indexed op ->
  (let# i := lift (cache_get c op) in
   if i =? 0 then wret None
   else match insns !! Z.to_nat i with Some e => wret (Some (mapid e)) | None => wstuck end) w =
  WRet (public_id op) w.
Proof using Type.
  intros Hc Ho Hop. rewrite (Hc op Ho). unfold wbind, public_id. cbn [lift wret].
  rewrite (proj2 (Z.ltb_ge _ _)) by lia. destruct (Z.eqb_spec (cache_index op) 0); [done|].
  destruct Hop as [|[e He]]; [done|]. by rewrite He.
Qed.

Lemma get_id_spec ud h op w :
  wf w -> blocks w !! ud = Some (BHandle h) -> cache_ok (blocks w) h -> 0 <= op -> indexed op ->
  (X86_get_insn_id ud op w = WNull /\ false ∈ answers w /\ insn_cache h = None) \/
  (exists h' w', X86_get_insn_id ud op w = WRet (public_id op) w' /\ goes_on w w' /\ wf w' /\
     grown ud h h' (blocks w) (blocks w')).
Proof using Type.
  intros Hw Hh Hok Ho Hop. destruct insns_last as (Hr & E1 & c & Ec & Hc).
  assert (load_handle ud w = WRet h w) as Eh by (unfold load_handle; by rewrite Hh).
  unfold X86_get_insn_id, find_insn. rewrite !wbind_assoc, (wbind_ret _ _ _ _ _ Eh). rewrite E1. cbn [lift].
  rewrite wbind_assoc, wbind_wret. destruct (Z.ltb_spec last_id op) as [Hlt|Hle].
  { right. exists h, w. rewrite wbind_wret. unfold public_id. rewrite (proj2 (Z.ltb_lt _ _)) by done.
    split; [done|]. split; [done|]. split; [done|]. by left. }
  rewrite wbind_assoc. destruct (insn_cache h) as [p|] eqn:Ei.
  - right. destruct (Hok p Ei) as (c' & Hp & Hc').
    rewrite (wbind_ret _ _ _ c' w) by (unfold load_cache; by rewrite Hp).
    exists h, w. rewrite cached_id by done. split_and!; [done..|by left].
  - rewrite wbind_assoc.
    destruct (alloc_cases (BCache (heap (u16 last_id + 1))) w) as [(Hf & w1 & E2 & _)|(w1 & E2 & B1 & N1 & G1)].
    { left. unfold wbind at 1. by rewrite E2. }
    right. rewrite (wbind_ret _ _ _ _ _ E2), Ec. cbn [lift]. rewrite wbind_assoc, wbind_wret, wbind_assoc.
    pose proof (wf_fresh w Hw) as Hfr. assert (next w <> ud) as Hne by congruence.
    erewrite wbind_ret by (unfold store_cache; rewrite B1, lookup_insert_eq; reflexivity). rewrite wbind_assoc.
    erewrite wbind_ret.
    2: { unfold store_handle. cbn [blocks]. rewrite insert_insert_eq, lookup_insert_ne, Hh by done. reflexivity. }
    rewrite wbind_wret, cached_id by done.
    eexists (with_cache (Some (next w)) h), _. split; [done|]. split; [done|]. split.
    + eapply wf_mono; [exact Hw|cbn; lia|]. cbn. intros k b. rewrite !lookup_insert_Some.
      intros [[<- _]|[_ [[<- _]|[_ ?]]]]; [right; eauto|left; lia|right; eauto].
    + right. split; [done|]. exists (next w), c. by split_and!.
Qed.
End cache.

(** ** The loop of [cs_disasm] *)

Section loop.
Context {Hbe : backend} {Hfm : fresh_memory} (stack : MCInst) (ud : Z) (h : cs_struct).

(** The instructions [vs] are in the array [l] at [T], their details beside it;
    the rest of the memory is [base], with the handle. *)
Record holds (base : gmap Z block) (hb : cs_struct) (T : Z) (l : list (option cs_insn)) (vs : list view) (w : world)
    (B : gmap Z block) : Prop := mk_holds {
  holds_wf : wf w;
  holds_handle : base !! ud = Some (BHandle hb);
  holds_cache : cache_ok base hb;
  holds_blocks : blocks w = <[T := BInsns l]> B;
  holds_apart : B !! T = None;
  holds_own : own base vs B;
  holds_insns i v : vs !! i = Some v -> l !! i = Some (Some v.1);
  holds_plain : truth (detail h) = false -> Forall plain vs
}.

(** The variables: the array has room for the rest of the cache. *)
Record linv (base : gmap Z block) (hb : cs_struct) (v : locals) (vs : list view) (w : world) : Prop := mk_linv {
  linv_holds : exists B l, holds base hb (total v) l vs w B /\ Z.of_nat (length l) = lcap v;
  linv_c : c v = Z.of_nat (length vs);
  linv_cap : lcap v = c v + (cache_size v - f v);
  linv_f : 0 <= f v <= cache_size v /\ f v <= c v /\ 8 <= cache_size v <= lcap v
}.

(** Same addresses, other contents. *)
Lemma wf_same w w' :
  wf w -> next w' = next w -> (forall k, is_Some (blocks w' !! k) -> is_Some (blocks w !! k)) -> wf w'.
Proof using Type.
  intros Hw Hn Hk. eapply wf_mono; [done|lia|]. intros k b Hb. right. destruct (Hk k) as [b' ?]; eauto.
Qed.

(** The memory is the same when only the answers are used up. *)
Lemma holds_same base hb T l vs w w' B :
  holds base hb T l vs w B -> blocks w' = blocks w -> next w <= next w' -> holds base hb T l vs w' B.
Proof using Type.
  intros [Hw Hh Hc Hb HT Ho Hi Hp] E Hn. constructor; try done; [|congruence].
  eapply wf_mono; [exact Hw|lia|]. rewrite E. eauto.
Qed.

(** Only the rest is left. *)
Lemma holds_rest base hb T l vs w w' B e :
  holds base hb T l vs w B -> blocks w' = base \/ blocks w' = set_err ud e hb base -> next w <= next w' -> wf w'.
Proof using Type.
  intros [Hw Hh Hc Hb HT Ho Hi Hp] E Hn. eapply wf_mono; [exact Hw|done|]. intros k b Hk. right.
  assert (is_Some (base !! k)) as [b' Hk'].
  { destruct E as [E|E]; rewrite E in Hk; [by eexists|]. unfold set_err in Hk.
    apply lookup_insert_Some in Hk as [[<- _]|[_ ?]]; by eexists. }
  pose proof (own_base _ _ _ _ _ Ho Hk') as HB. exists b'. by rewrite Hb, lookup_insert_ne by congruence.
Qed.

(** A block is allocated and belongs to nobody yet. *)
Lemma holds_fresh base hb T l vs w w' B p b :
  holds base hb T l vs w B -> blocks w !! p = None -> blocks w' = <[p := b]> (blocks w) -> wf w' ->
  base !! p = None /\ holds (<[p := b]> base) hb T l vs w' (<[p := b]> B).
Proof using Type.
  intros [Hw Hh Hc Hb HT Ho Hi Hp] Hfr E Hw'.
  assert (p <> T) as Hne by (intros ->; rewrite Hb, lookup_insert_eq in Hfr; done).
  assert (B !! p = None) as HBp by (by rewrite Hb, lookup_insert_ne in Hfr).
  assert (base !! p = None) as Hbp.
  { destruct (base !! p) eqn:Eb; [|done]. apply (own_base _ _ _ _ _ Ho) in Eb. congruence. }
  split; [done|]. constructor; try done.
  - rewrite lookup_insert_ne; [done|]. congruence.
  - intros q Hq. destruct (Hc q Hq) as (c & Hcq & Hcc). exists c. split; [|done].
    rewrite lookup_insert_ne; [done|]. congruence.
  - by rewrite E, Hb, insert_insert_ne.
  - by rewrite lookup_insert_ne.
  - apply own_insert; [done|by right].
Qed.

(** A block of the rest is written. *)
Lemma holds_update base hb T l vs w w' B p b :
  holds base hb T l vs w B -> is_Some (base !! p) -> blocks w' = <[p := b]> (blocks w) -> next w' = next w ->
  (<[p := b]> base) !! ud = Some (BHandle hb) -> cache_ok (<[p := b]> base) hb ->
  holds (<[p := b]> base) hb T l vs w' (<[p := b]> B).
Proof using Type.
  intros [Hw Hh Hc Hb HT Ho Hi Hp] [b0 Hb0] E En Hu Hk. pose proof (own_base _ _ _ _ _ Ho Hb0) as HB.
  assert (p <> T) as Hne by congruence. constructor; try done.
  - eapply wf_same; [exact Hw|done|]. intros k. rewrite E, lookup_insert_is_Some'. intros [<-|?]; [|done].
    rewrite Hb, lookup_insert_ne by done. eauto.
  - by rewrite E, Hb, insert_insert_ne.
  - by rewrite lookup_insert_ne.
  - apply own_insert; [done|]. left. eauto.
Qed.

(** The handle gets its cache. *)
Lemma holds_grown base hb T l vs w w' B h' :
  holds base hb T l vs w B -> grown ud hb h' (blocks w) (blocks w') -> wf w' ->
  exists base' B', grown ud hb h' base base' /\ holds base' h' T l vs w' B'.
Proof using Type.
  intros H Hg Hw'. pose proof H as [Hw Hh Hc Hb HT Ho Hi Hp].
  destruct Hg as [[-> Eb]|(Hn & p & c & Hfr & Hcc & -> & Eb)].
  { exists base, B. split; [by left|]. constructor; try done. congruence. }
  set (h' := with_cache (Some p) hb) in *.
  assert (p <> T) as HpT by (intros ->; rewrite Hb, lookup_insert_eq in Hfr; done).
  assert (B !! p = None) as HBp by (by rewrite Hb, lookup_insert_ne in Hfr).
  assert (base !! p = None) as Hbp.
  { destruct (base !! p) eqn:E0; [|done]. apply (own_base _ _ _ _ _ Ho) in E0. congruence. }
  assert (p <> ud) as Hpu by congruence. pose proof (own_base _ _ _ _ _ Ho Hh) as HBu.
  assert (ud <> T) as HuT by congruence.
  exists (<[ud := BHandle h']> (<[p := BCache c]> base)), (<[ud := BHandle h']> (<[p := BCache c]> B)). split.
  { right. split; [done|]. by exists p, c. }
  constructor; try done.
  - by rewrite lookup_insert_eq.
  - intros q [= <-]. exists c. by rewrite lookup_insert_ne, lookup_insert_eq.
  - rewrite Eb, Hb. by rewrite (insert_insert_ne _ p T), (insert_insert_ne _ ud T).
  - by rewrite !lookup_insert_ne.
  - apply own_insert; [apply own_insert; [done|by right]|]. left. rewrite lookup_insert_ne by done. eauto.
Qed.

Lemma store_insn_ok T l w B i x :
  blocks w = <[T := BInsns l]> B -> 0 <= i < Z.of_nat (length l) ->
  store_insn T i x w =
  WRet tt (mk_world (<[T := BInsns (<[Z.to_nat i := Some x]> l)]> B) (next w) (answers w) (memset w)).
Proof using Type.
  intros Hb Hi. unfold store_insn. rewrite Hb, lookup_insert_eq, (proj2 (Z.leb_le _ _)), (proj2 (Z.ltb_lt _ _)) by lia.
  cbn [andb]. by rewrite insert_insert_eq.
Qed.

(** Recording an instruction: with the details at [p], which were in nobody's
    hands, or without any. *)
Lemma record_spec base base1 hb T l vs w B x d :
  holds base1 hb T l vs w B -> (length vs < length l)%nat ->
  base !! ud = Some (BHandle hb) -> cache_ok base hb -> (truth (detail h) = false -> idetail x = None) ->
  match idetail x, d with
  | Some p, Some dt => base !! p = None /\ base1 = <[p := BDetail (Some dt)]> base
  | None, None => base1 = base
  | _, _ => False
  end ->
  exists w', store_insn T (Z.of_nat (length vs)) x w = WRet tt w' /\
    holds base hb T (<[length vs := Some x]> l) (vs ++ [(x, d)]) w' B /\ goes_on w w'.
Proof using Type.
  intros [Hw Hh Hc Hb HT Ho Hi Hp] Hl Hh' Hc' Hx Hd. eexists. split; [by apply (store_insn_ok T l w B); [|lia]|].
  rewrite Nat2Z.id. split; [|done].
  constructor; try done.
  - eapply wf_same; [exact Hw|done|]. cbn. intros k. rewrite Hb. by rewrite !lookup_insert_is_Some'.
  - destruct (idetail x) as [p|] eqn:Ex, d as [dt|]; try done.
    + destruct Hd as [Hp' ->]. by eapply own_claim.
    + subst base1. by apply own_snoc_none.
  - intros i y Hy. apply lookup_snoc_Some in Hy as [[Hlt Hy]|[-> <-]].
    + rewrite list_lookup_insert_ne by (unfold view in *; lia). by apply Hi.
    + by apply list_lookup_insert_eq.
  - intros Hz. apply Forall_app. split; [auto|]. constructor; [|constructor]. by apply Hx.
Qed.

Lemma advance_spec base hb count n v l xs w B :
  holds base hb (total v) l xs w B -> Z.of_nat (length l) = lcap v -> c v + 1 = Z.of_nat (length xs) ->
  lcap v = c v + (cache_size v - f v) -> 0 <= f v < cache_size v -> f v <= c v -> 8 <= cache_size v <= lcap v ->
  (0 < count -> c v < count) -> 0 < n <= lsize v -> c v + lsize v < 2 ^ 28 ->
  exists o stop w', advance ud h count n v w = WRet (o, stop) w' /\ goes_on w w' /\
    match o with
    | None => false ∈ answers w /\ wf w' /\ blocks w' = set_err ud ERR_MEM hb base
    | Some v' => linv base hb v' xs w' /\
        if stop : bool then 0 < count /\ c v' = count
        else f v' < cache_size v' /\ (0 < count -> c v' < count) /\ buffer v' = buffer v + n /\
             lsize v' = lsize v - n /\ offset v' = u64 (offset v + n)
    end.
Proof using Type.
  intros H Hl Hc Hcap Hf Hfc Hcs Hcount Hn Hs. unfold advance. rewrite (wrap_small 32) by lia.
  cbn [c f cache_size lcap buffer lsize offset total].
  destruct (Z.ltb_spec 0 count); [destruct (Z.eqb_spec (c v + 1) count)|]; cbn [andb].
  1: { eexists _, true, w. split; [done|]. split; [done|]. split; [|simpl; lia].
       constructor; simpl; [by exists B, l|done|lia|lia]. }
  all: destruct (Z.eqb_spec (f v + 1) (cache_size v)) as [Ef|].
  2, 4: (eexists _, false, w; split; [done|]; split; [done|]; split;
    [constructor; simpl; [by exists B, l|done|lia|lia]|simpl; rewrite (wrap_small 64) by lia; split_and!; lia || done]).
  all: unfold wbind; pose proof (holds_blocks _ _ _ _ _ _ _ H) as Hb;
    assert (blocks w !! total v = Some (BInsns l)) as HT by (by rewrite Hb, lookup_insert_eq);
    rewrite (wrap_small 32) by lia;
    destruct (regrow_cases (total v) l (lcap v + cache_size v * 8 / 5) w (holds_wf _ _ _ _ _ _ _ H) HT)
      as [(Hfalse & w' & -> & Hb' & Hn' & Hg)|(w' & -> & Hb' & Hn' & Hg)].
  1, 3: (rewrite Hc; destruct (out_of_memory_spec base ud h hb (total v) l xs B w') as (w2 & -> & B2 & N2 & A2 & M2);
    [apply H|congruence|apply H|apply H|apply H|apply H|];
    eexists None, true, w2; split; [done|]; split;
    [destruct Hg as (? & ? & ?); split_and!; [lia|congruence|congruence]|];
    split_and!; [done| |done]; eapply holds_rest; [exact H|by right|lia]).
  all: eexists _, false, w'; split; [done|]; split; [done|]; split;
    [|simpl; rewrite (wrap_small 64) by lia; pose proof (Z.div_mod (cache_size v * 8) 5);
      pose proof (Z.mod_pos_bound (cache_size v * 8) 5); split_and!; lia || done].
  all: pose proof (Z.div_mod (cache_size v * 8) 5); pose proof (Z.mod_pos_bound (cache_size v * 8) 5);
    assert (blocks w' = <[next w := BInsns (resize l (lcap v + cache_size v * 8 / 5))]> B) as Hb2
      by (rewrite Hb', Hb, delete_insert_id by apply H; done);
    assert (B !! next w = None) as HBn
      by (pose proof (wf_fresh w (holds_wf _ _ _ _ _ _ _ H)) as Hx; rewrite Hb in Hx;
          by apply lookup_insert_None in Hx as [? _]);
    (constructor; simpl; [|done|lia|lia]);
    exists B, (resize l (lcap v + cache_size v * 8 / 5)); (split; [|unfold resize; rewrite length_app, length_take, length_replicate; lia]);
    destruct H as [Hw Hhh Hch _ HT' Ho Hi Hp]; constructor; try done.
  all: try (eapply wf_mono; [exact Hw|lia|]; intros k b Hk; rewrite Hb' in Hk;
    destruct (decide (k = next w)) as [->|]; [left; lia|];
    rewrite lookup_insert_ne in Hk by done; apply lookup_delete_Some in Hk as [_ ?]; eauto).
  all: intros i x Hx; apply Hi in Hx as Hx'; apply lookup_lt_Some in Hx' as Hlt; unfold resize;
    rewrite lookup_app_l, lookup_take_lt by (rewrite ?length_take; lia); done.
Qed.

Context (m : mem) (org size_org offset_org count : Z) (Hskip : skip_ok h) {Hids : ids_indexed}.

Notation decode F := (decode_all stack F h m org size_org offset_org).
Notation limit k l := (if 0 <? count then take (Z.to_nat (count - k)) l%list else l%list).

(** The allocations that are not checked: of the details, and of the cache. *)
Definition null_used (hb : cs_struct) (w : world) : Prop :=
  false ∈ answers w /\ (truth (detail h) = true \/ insn_cache hb = None).

Lemma null_used_before ud0 hb hb' w w' B B' : goes_on w w' -> grown ud0 hb hb' B B' -> null_used hb' w' -> null_used hb w.
Proof using Type.
  intros Hg Hr [Hf Hn]. split; [by eapply goes_on_false|]. destruct Hn as [|Hn]; [by left|right].
  by eapply grown_uncached.
Qed.

(** The allocation of the details. *)
Lemma detail_spec base hb T l vs w B :
  holds base hb T l vs w B ->
  exists d w1, (if truth (detail h) then malloc (BDetail None) else wret None) w = WRet d w1 /\ goes_on w w1 /\
    match d with
    | None => (truth (detail h) = true -> false ∈ answers w) /\ holds base hb T l vs w1 B
    | Some p => truth (detail h) = true /\ base !! p = None /\ blocks w !! p = None /\
        blocks w1 = <[p := BDetail None]> (blocks w) /\
        holds (<[p := BDetail None]> base) hb T l vs w1 (<[p := BDetail None]> B)
    end.
Proof using Type.
  intros H. destruct (truth (detail h)) eqn:Ed.
  2: { exists None, w. split_and!; try done; lia. }
  pose proof (holds_wf _ _ _ _ _ _ _ H) as Hw.
  destruct (alloc_cases (BDetail None) w) as [(Hf & w' & -> & Hb & Hn & Hg)|(w' & -> & Hb & Hn & Hg)].
  - exists None, w'. split_and!; try done; try apply Hg. eapply holds_same; [done|done|lia].
  - exists (Some (next w)), w'. pose proof (wf_alloc _ _ _ Hw Hb Hn) as Hw'.
    destruct (holds_fresh _ _ _ _ _ _ _ _ _ _ H (wf_fresh _ Hw) Hb Hw') as [Hfr H']. split_and!; try done; try apply Hg. by apply wf_fresh.
Qed.

(** One iteration: the code at the front is decoded and recorded, or the loop
    ends. *)
Definition body (v : locals) : W (option Z) :=
  touch (total v) (c v) ;#
  let# d := (if truth (detail h) then malloc (BDetail None) else wret None) in
  let# r := fetch stack h m (buffer v) (lsize v) (offset v) d in
  match r with
  | Some (insn_size, mci) =>
      let# i := X86_get_insn_id ud (Opcode mci) in
      let x := mk_insn (default uninit_id i) (offset v) insn_size [] d in
      store_insn (total v) (c v) (fill_insn x (printer mci) m (buffer v)) ;#
      wret (Some insn_size)
  | None =>
      (if truth (detail h) then free d else wret tt) ;#
      match skip h m org size_org (u64 (offset v - offset_org)) (lsize v) with
      | None => wret None
      | Some n =>
          let# x := data_insn n m (buffer v) (offset v) None in
          store_insn (total v) (c v) x ;# wret (Some n)
      end
  end.

Lemma clear_fresh p B w :
  blocks w = <[p := BDetail None]> B -> clear_detail (Some p) w = WRet tt w.
Proof using Type.
  intros Hb. unfold clear_detail. rewrite Hb, lookup_insert_eq. cbn [option_map]. rewrite insert_insert_eq, <- Hb.
  by destruct w.
Qed.

(** An instruction that is decoded is recorded with its details. *)
Lemma record_decoded base hb v l vs w1 B d n mci det :
  match d with
  | None => truth (detail h) = false /\ holds base hb (total v) l vs w1 B
  | Some p => truth (detail h) = true /\ base !! p = None /\
      holds (<[p := BDetail (Some det)]> base) hb (total v) l vs w1 B
  end ->
  base !! ud = Some (BHandle hb) -> cache_ok base hb ->
  c v = Z.of_nat (length vs) -> (length vs < length l)%nat ->
  0 <= Opcode mci -> indexed (Opcode mci) ->
  let o := (let# i := X86_get_insn_id ud (Opcode mci) in
     let x := mk_insn (default uninit_id i) (offset v) n [] d in
     store_insn (total v) (c v) (fill_insn x (printer mci) m (buffer v)) ;# wret (Some n)) w1 in
  (o = WNull /\ false ∈ answers w1 /\ insn_cache hb = None) \/
  exists w2 base' hb' B' y, o = WRet (Some n) w2 /\ goes_on w1 w2 /\ grown ud hb hb' base base' /\
    holds base' hb' (total v) (<[length vs := Some y]> l)
      (vs ++ [(y, if truth (detail h) then Some det else None)]) w2 B' /\
    strip y = fill_insn (mk_insn (default uninit_id (public_id (Opcode mci))) (offset v) n [] None) (printer mci) m (buffer v).
Proof using Type.
  intros Hd Hh Hk Hc Hl Ho Hop o.
  set (base1 := match d with Some p => <[p := BDetail (Some det)]> base | None => base end).
  assert (holds base1 hb (total v) l vs w1 B) as H by (unfold base1; destruct d; by apply Hd).
  pose proof H as [Hw Hh1 Hk1 Hb HT Hown _ _].
  assert (blocks w1 !! ud = Some (BHandle hb)) as Hu.
  { pose proof (own_base _ _ _ _ _ Hown Hh1). rewrite Hb, lookup_insert_ne by congruence. done. }
  assert (cache_ok (blocks w1) hb) as Hkw.
  { intros q Hq. destruct (Hk1 q Hq) as (cc & Hcq & ?). exists cc. split; [|done].
    pose proof (own_base _ _ _ _ _ Hown Hcq). rewrite Hb, lookup_insert_ne by congruence. done. }
  destruct (get_id_spec ud hb (Opcode mci) w1 Hw Hu Hkw Ho Hop) as [(E & ? & ?)|(hb' & w2 & E & G2 & W2 & Hg)].
  { left. unfold o, wbind at 1. by rewrite E. }
  right. unfold o. rewrite (wbind_ret _ _ _ _ _ E).
  destruct (holds_grown _ _ _ _ _ _ _ _ _ H Hg W2) as (base1' & B' & Hg1 & H2).
  assert (exists base', grown ud hb hb' base base' /\
    match d with Some p => base' !! p = None /\ base1' = <[p := BDetail (Some det)]> base' | None => base1' = base' end)
    as (base' & Hgb & Hd').
  { destruct d as [p|]; [|by exists base1']. destruct Hd as (_ & Hp & _). unfold base1 in Hg1.
    destruct Hg1 as [[-> ->]|(Hn & q & cc & Hq & Hcc & -> & ->)]; [exists base; split; [by left|done]|].
    apply lookup_insert_None in Hq as [Hq Hpq]. assert (p <> ud) by congruence.
    eexists. split; [right; split; [done|]; by exists q, cc|]. split.
    - by rewrite !lookup_insert_ne by done.
    - by rewrite (insert_insert_ne _ q p), (insert_insert_ne _ ud p) by done. }
  destruct (grown_handle _ _ _ _ _ Hgb Hh Hk) as [Hh' Hk'].
  set (y := fill_insn (mk_insn (default uninit_id (public_id (Opcode mci))) (offset v) n [] d) (printer mci) m (buffer v)).
  destruct (record_spec base' base1' hb' (total v) l vs w2 B' y (if truth (detail h) then Some det else None))
    as (w3 & E3 & H3 & G3); try done.
  - intros Ez. cbn. destruct d; [|done]. by destruct Hd as [? _]; congruence.
  - cbn. destruct d as [p|]; destruct Hd as [-> _]; done.
  - rewrite Hc. rewrite (wbind_ret _ _ _ _ _ E3). eexists w3, base', hb', B', y. split; [done|].
    split; [by etrans|]. by split_and!.
Qed.

Lemma body_spec base hb v l vs w B :
  holds base hb (total v) l vs w B -> c v = Z.of_nat (length vs) -> (length vs < length l)%nat ->
  (body v w = WNull /\ null_used hb w) \/
  exists r w', body v w = WRet r w' /\ goes_on w w' /\
    match decode_one stack h m org size_org offset_org (buffer v) (lsize v) (offset v) with
    | None => r = None /\ holds base hb (total v) l vs w' B
    | Some (x, n) => r = Some n /\ 0 < n <= lsize v /\
        exists base' hb' B' y, grown ud hb hb' base base' /\
          holds base' hb' (total v) (<[length vs := Some y.1]> l) (vs ++ [y]) w' B' /\ bare y = x
    end.
Proof using Hskip Hids.
  intros H Hc Hl. pose proof (holds_blocks _ _ _ _ _ _ _ H) as Hb.
  unfold body. rewrite (wbind_ret _ _ _ tt w).
  2: { unfold touch. rewrite Hb, lookup_insert_eq, Hc. by rewrite (proj2 (Z.leb_le _ _)), (proj2 (Z.ltb_lt _ _)) by lia. }
  destruct (detail_spec _ _ _ _ _ _ _ H) as (d & w1 & E1 & G1 & Hd). rewrite (wbind_ret _ _ _ _ _ E1).
  assert (clear_detail d w1 = WRet tt w1) as Ecl.
  { destruct d as [p|]; [|done]. destruct Hd as (_ & _ & _ & Hb1 & _). by eapply clear_fresh. }
  unfold fetch. rewrite wbind_assoc, (wbind_ret _ _ _ _ _ Ecl). unfold decode_one.
  destruct (disasm h m (buffer v) (lsize v) (MCInst_Init stack) (offset v)) as [[[n mci] det]|] eqn:ED.
  - pose proof (disasm_opcode _ _ _ _ _ _ _ _ _ ED) as Hop. pose proof (opcodes_indexed _ _ _ _ _ _ _ _ _ ED) as Hkn.
    apply disasm_size in ED as [Hn _]. rewrite wbind_assoc.
    assert (((if truth (detail h) then store_detail d det else wret tt) w1 = WNull /\ null_used hb w) \/
      exists w2 B2, (if truth (detail h) then store_detail d det else wret tt) w1 = WRet tt w2 /\ goes_on w1 w2 /\
        match d with
        | None => truth (detail h) = false /\ holds base hb (total v) l vs w2 B2
        | Some p => truth (detail h) = true /\ base !! p = None /\
            holds (<[p := BDetail (Some det)]> base) hb (total v) l vs w2 B2
        end) as [[E2 ?]|(w2 & B2 & E2 & G2 & H2)].
    { destruct d as [p|].
      - right. destruct Hd as (-> & Hp & _ & Hb1 & H1). unfold store_detail. rewrite Hb1, lookup_insert_eq. pose proof H1 as [_ Hh1 Hk1 _ _ _ _ _].
        eexists _, _. split; [reflexivity|]. split; [done|]. split; [done|]. split; [done|].
        rewrite <- (insert_insert_eq base p (BDetail (Some det)) (BDetail None)).
        apply (holds_update _ _ _ _ _ _ _ _ _ _ H1); [by rewrite lookup_insert_eq|by rewrite Hb1|done| |].
        + destruct (decide (ud = p)) as [<-|]; [by rewrite lookup_insert_eq in Hh1|by rewrite lookup_insert_ne by done].
        + intros q Hq. destruct (Hk1 q Hq) as (cc & Hcq & ?). exists cc. split; [|done].
          destruct (decide (q = p)) as [->|]; [by rewrite lookup_insert_eq in Hcq|by rewrite lookup_insert_ne by done].
      - destruct Hd as [Hf H1]. destruct (truth (detail h)) eqn:Ed; [left|right; exists w1, B; by split_and!].
        split; [done|]. split; [by apply Hf|by left]. }
    { left. unfold wbind at 1. by rewrite E2. }
    rewrite (wbind_ret _ _ _ _ _ E2), wbind_wret.
    destruct (record_decoded base hb v l vs w2 B2 d n mci det H2) as [(Ez & Hf & Hnc)|(w3 & base' & hb' & B' & y & E3 & G3 & Hg & H3 & Hy)];
      [apply H|apply H|done|done|done|done| |].
    { left. split; [exact Ez|]. split; [|by right]. by eapply goes_on_false; [|exact Hf]; etrans. }
    right. exists (Some n), w3. split; [exact E3|]. split; [etrans; [done|by etrans]|]. split; [done|]. split; [lia|].
    eexists base', hb', B', (y, _). split; [done|]. split; [exact H3|]. unfold bare. cbn [fst snd]. by rewrite Hy.
  - right. rewrite wbind_wret.
    assert (exists w2, (if truth (detail h) then free d else wret tt) w1 = WRet tt w2 /\ goes_on w w2 /\
      holds base hb (total v) l vs w2 B) as (w2 & E2 & G2 & H2).
    { destruct d as [p|].
      - destruct Hd as (-> & Hp & Hfr & Hb1 & H1).
        destruct (free_some p (BDetail None) w1) as (w2 & -> & B2 & N2 & A2 & M2); [by rewrite Hb1, lookup_insert_eq|].
        assert (blocks w2 = blocks w) as Eb by (by rewrite B2, Hb1, delete_insert_id).
        exists w2. split; [done|]. destruct G1 as (? & ? & ?). split; [split_and!; [lia|congruence|congruence]|].
        eapply holds_same; [done|done|lia].
      - exists w1. split; [by destruct (truth (detail h))|]. by destruct Hd. }
    rewrite (wbind_ret _ _ _ _ _ E2).
    destruct (skip h m org size_org (u64 (offset v - offset_org)) (lsize v)) as [n|] eqn:Es;
      [|by exists None, w2].
    apply skip_range in Es as [Hn H16]; [|done]. set (x := mk_insn 0 (offset v) (u16 n) (bytes m (buffer v) (Z.to_nat n)) None).
    rewrite (wbind_ret _ _ _ x w2) by (unfold data_insn; by rewrite (proj2 (Z.ltb_ge _ _)) by lia).
    destruct (record_spec base base hb (total v) l vs w2 B x None) as (w3 & E3 & H3 & G3); try done; [apply H2|apply H2|].
    rewrite Hc, (wbind_ret _ _ _ _ _ E3). eexists _, w3. split; [done|]. split; [by etrans|]. split_and!; [done|lia|lia|].
    exists base, hb, B, (x, None). split; [by left|]. by split.
Qed.

Lemma disasm_loop_unfold fuel v w :
  disasm_loop stack (S fuel) ud h m org size_org offset_org count v w =
  if 0 <? lsize v then
    match body v w with
    | WNull => WNull
    | WStuck => WStuck
    | WRet None w' => WRet (Some (Some v)) w'
    | WRet (Some n) w' =>
        match advance ud h count n v w' with
        | WNull => WNull
        | WStuck => WStuck
        | WRet (None, _) w'' => WRet (Some None) w''
        | WRet (Some v', true) w'' => WRet (Some (Some v')) w''
        | WRet (Some v', false) w'' => disasm_loop stack fuel ud h m org size_org offset_org count v' w''
        end
    end
  else WRet (Some (Some v)) w.
Proof using Type.
  cbn [disasm_loop]. destruct (0 <? lsize v); [|done]. unfold body.
  unfold wbind.
  destruct (touch (total v) (c v) w) as [[] w1| |]; [|done|done].
  destruct ((if truth (detail h) then malloc (BDetail None) else wret None) w1) as [d w2| |]; [|done|done].
  destruct (fetch stack h m (buffer v) (lsize v) (offset v) d w2) as [r w3| |]; [|done|done].
  match goal with |- context [match ?x w3 with WRet _ _ => _ | WNull => _ | WStuck => _ end] =>
    destruct (x w3) as [[n|] w4| |] end; [|done|done|done].
  destruct (advance ud h count n v w4) as [[[v'|] []] w5| |]; done.
Qed.

Lemma loop_spec fuel base hb v vs w :
  linv base hb v vs w -> f v < cache_size v -> (0 < count -> c v < count) ->
  0 <= lsize v < Z.of_nat fuel -> c v + lsize v < 2 ^ 28 ->
  (disasm_loop stack fuel ud h m org size_org offset_org count v w = WNull /\ null_used hb w) \/
  exists o w' base' hb', disasm_loop stack fuel ud h m org size_org offset_org count v w = WRet (Some o) w' /\
    goes_on w w' /\ grown ud hb hb' base base' /\
    match o with
    | None => false ∈ answers w /\ wf w' /\ blocks w' = set_err ud ERR_MEM hb' base'
    | Some v' => exists ys, linv base' hb' v' (vs ++ ys) w' /\
        bare <$> ys = limit (c v) (decode fuel (buffer v) (lsize v) (offset v))
    end.
Proof using Hskip Hids.
  revert base hb v vs w. induction fuel as [|fuel IH]; intros base hb v vs w HI Hf Hcnt Hs Hb; [lia|].
  rewrite disasm_loop_unfold. cbn [decode_all].
  destruct (Z.ltb_spec 0 (lsize v)) as [Hpos|].
  2: { right. exists (Some v), w, base, hb. split; [done|]. split; [done|]. split; [by left|]. exists []. rewrite app_nil_r. split; [done|].
       destruct (0 <? count); by rewrite ?take_nil. }
  pose proof HI as [(B & l & H & Hl) Hc Hcap Hfv].
  destruct (body_spec base hb v l vs w B H Hc) as [[-> ?]|(r & w1 & -> & G1 & HD)]; [lia|by left|].
  destruct (decode_one stack h m org size_org offset_org (buffer v) (lsize v) (offset v)) as [[x n]|].
  2: { right. destruct HD as [-> H1]. exists (Some v), w1, base, hb. split; [done|]. split; [done|]. split; [by left|].
       exists []. rewrite app_nil_r.
       split; [|destruct (0 <? count); by rewrite ?take_nil]. constructor; try done. by exists B, l. }
  destruct HD as (-> & Hn & base1 & hb1 & B' & y & Hg1 & H1 & Hy).
  destruct (advance_spec base1 hb1 count n v (<[length vs := Some y.1]> l) (vs ++ [y]) w1 B')
    as (o & stop & w2 & -> & G2 & HO); [done|by rewrite length_insert|rewrite length_app; simpl; lia|lia|lia|lia|lia|done|lia|lia|].
  assert (goes_on w w2) as G12 by (by etrans).
  destruct o as [v'|].
  2: { right. destruct HO as [Hfalse HB]. exists None, w2, base1, hb1. split; [by destruct stop|]. split; [done|]. split; [done|]. split; [|done].
       by apply (goes_on_false w w1). }
  destruct HO as [HI' HO]. pose proof (linv_c _ _ _ _ _ HI') as Hc'. rewrite length_app in Hc'. simpl in Hc'. destruct stop.
  - right. destruct HO as [Hpc Hcc]. exists (Some v'), w2, base1, hb1. split; [done|]. split; [done|]. split; [done|]. exists [y]. split; [done|].
    rewrite (proj2 (Z.ltb_lt _ _)) by done.
    replace (Z.to_nat (count - c v)) with 1%nat by lia. simpl. by rewrite take_0, Hy.
  - destruct HO as (Hf' & Hcnt' & Hbuf & Hsz & Hoff).
    destruct (IH base1 hb1 v' (vs ++ [y]) w2) as [[-> Hnull]|(o & w3 & base2 & hb2 & -> & G3 & Hg2 & HR)]; [done..|lia|lia| |].
    { left. split; [done|]. by eapply null_used_before. }
    right. exists o, w3, base2, hb2. split; [done|]. split; [by etrans|]. split; [by eapply grown_trans|]. destruct o as [v''|].
    + destruct HR as (ys & HI'' & Hys). exists (y :: ys). rewrite <- app_assoc in HI''. split; [done|].
      rewrite fmap_cons, Hy, Hys, Hbuf, Hsz, Hoff. destruct (Z.ltb_spec 0 count); [|done].
      replace (Z.to_nat (count - c v)) with (S (Z.to_nat (count - c v'))) by lia. done.
    + destruct HR as [Hfalse HB]. split; [|done]. by apply (goes_on_false w w2).
Qed.

Lemma holds_full base hb T l vs w B :
  holds base hb T l vs w B -> length l = length vs -> l = (fun v : view => Some v.1) <$> vs.
Proof using Type.
  intros H Hl. apply list_eq. intros i. rewrite list_lookup_fmap. destruct (vs !! i) as [z|] eqn:E.
  - by apply (holds_insns _ _ _ _ _ _ _ H) in E.
  - apply lookup_ge_None in E. apply lookup_ge_None. lia.
Qed.

Lemma finish_spec base hb v vs w :
  linv base hb v vs w ->
  exists r w', finish ud h v w = WRet r w' /\ goes_on w w' /\
    ((false ∈ answers w /\ r = (0, Some None) /\ wf w' /\ blocks w' = set_err ud ERR_MEM hb base) \/
     (vs = [] /\ r = (0, Some None) /\ wf w' /\ blocks w' = base) \/
     (exists t B, vs <> [] /\ r = (Z.of_nat (length vs), Some (Some t)) /\
        holds base hb t ((fun v : view => Some v.1) <$> vs) vs w' B)).
Proof using Type.
  intros [(B & l & H & Hl) Hc Hcap Hfv]. unfold finish. pose proof (holds_blocks _ _ _ _ _ _ _ H) as Hb.
  assert (blocks w !! total v = Some (BInsns l)) as HT by (by rewrite Hb, lookup_insert_eq).
  destruct (Z.eqb_spec (c v) 0).
  { destruct vs; [|simpl in Hc; lia]. unfold wbind.
    destruct (free_some _ _ _ HT) as (w1 & -> & B1 & N1 & A1 & M1). eexists _, w1. split; [done|].
    split; [split_and!; [lia|by rewrite A1|done]|]. right. left.
    assert (blocks w1 = base) as E by (rewrite B1, Hb, delete_insert_id by apply H; apply H).
    split_and!; [done|done| |done]. eapply holds_rest; [exact H|by left|lia]. Unshelve. exact ERR_OK. }
  assert (vs <> []) as Hne by (intros ->; simpl in *; lia).
  destruct (Z.eqb_spec (f v) (cache_size v)); cbn [negb].
  { eexists _, w. split; [done|]. split; [done|]. right. right. exists (total v), B. split_and!; [done|by rewrite Hc|].
    by rewrite <- (holds_full _ _ _ _ _ _ _ H) by lia. }
  unfold wbind. replace (lcap v - (cache_size v - f v)) with (c v) by lia.
  destruct (regrow_cases (total v) l (c v) w (holds_wf _ _ _ _ _ _ _ H) HT)
    as [(Hfalse & w' & -> & Hb' & Hn' & Hg)|(w' & -> & Hb' & Hn' & Hg)].
  - rewrite Hc. destruct (out_of_memory_spec base ud h hb (total v) l vs B w') as (w2 & -> & B2 & N2 & A2 & M2);
      [apply H|congruence|apply H|apply H|apply H|apply H|].
    eexists _, w2. split; [done|]. destruct Hg as (? & ? & ?).
    split; [split_and!; [lia|congruence|congruence]|]. left. split_and!; [done|done| |done].
    eapply holds_rest; [exact H|by right|lia].
  - eexists _, w'. split; [done|]. split; [done|]. right. right. exists (next w), B.
    split_and!; [done|by rewrite Hc|]. pose proof H as [Hw Hh Hk _ HT' Ho Hi Hp].
    assert (resize l (c v) = (fun v : view => Some v.1) <$> vs) as <-.
    { unfold resize. replace (Z.to_nat (c v) - length l)%nat with 0%nat by lia. rewrite app_nil_r, Hc, Nat2Z.id.
      apply list_eq. intros i. rewrite list_lookup_fmap. destruct (vs !! i) as [x|] eqn:E.
      - rewrite lookup_take_lt by (by apply lookup_lt_Some in E). by apply Hi.
      - apply lookup_ge_None in E. by rewrite lookup_take_ge. }
    constructor; try done.
    + eapply wf_mono; [exact Hw|lia|]. intros k b Hkb. rewrite Hb' in Hkb.
      destruct (decide (k = next w)) as [->|]; [left; lia|].
      rewrite lookup_insert_ne in Hkb by done. apply lookup_delete_Some in Hkb as [_ ?]. eauto.
    + by rewrite Hb', Hb, delete_insert_id.
    + pose proof (wf_fresh w Hw) as Hx. rewrite Hb in Hx. by apply lookup_insert_None in Hx as [? _].
    + intros i x Hx. unfold resize. pose proof (Hi i x Hx) as Hx'. apply lookup_lt_Some in Hx. unfold view in *.
      rewrite lookup_app_l, lookup_take_lt by (rewrite ?length_take; lia). done.
Qed.

Lemma cs_free_spec base hb t vs w B :
  holds base hb t ((fun v : view => Some v.1) <$> vs) vs w B ->
  exists w', cs_free (Some t) (Z.of_nat (length vs)) w = WRet tt w' /\ blocks w' = base /\ wf w' /\ goes_on w w'.
Proof using Type.
  intros H. pose proof H as [Hw Hh Hk Hb HT Ho Hi Hp]. unfold cs_free, wbind. rewrite Nat2Z.id.
  destruct (free_details_own base t _ vs 0 B w Hb HT Ho) as (w1 & -> & B1 & T1 & N1 & A1 & M1); [lia|done|].
  destruct (free_some t (BInsns ((fun v : view => Some v.1) <$> vs)) w1) as (w2 & -> & B2 & N2 & A2 & M2); [by rewrite B1, lookup_insert_eq|].
  assert (blocks w2 = base) as E2 by (by rewrite B2, B1, delete_insert_id).
  exists w2. split; [done|]. split; [done|]. split; [|split_and!; [lia|by rewrite A2, A1|congruence]].
  by apply (holds_rest base hb t ((fun v : view => Some v.1) <$> vs) vs w w2 B ERR_OK); [|left|lia].
Qed.

Lemma holds_details base hb t l vs w B : holds base hb t l vs w B -> Forall (has_detail (blocks w)) vs.
Proof using Type.
  intros [Hw Hh Hk Hb HT Ho Hi Hp]. eapply Forall_impl; [by eapply own_details|]. intros x. unfold has_detail.
  destruct (idetail x.1) as [p|]; [|done]. intros (d & Hd & Hl). exists d. split; [done|].
  by rewrite Hb, lookup_insert_ne by congruence.
Qed.

Lemma holds_handle_block base hb t l vs w B : holds base hb t l vs w B -> blocks w !! ud = Some (BHandle hb).
Proof using Type.
  intros [Hw Hh Hk Hb HT Ho Hi Hp]. pose proof (own_base _ _ _ _ _ Ho Hh). by rewrite Hb, lookup_insert_ne by congruence.
Qed.
End loop.

(** ** A handle in use *)

Section session.
Context {Hbe : backend} {Hfm : fresh_memory} {Hids : ids_indexed}.

(** An open handle: its cache, if it has one, is filled. *)
Record opened (ud : Z) (h : cs_struct) (w : world) : Prop := mk_opened {
  opened_wf : wf w;
  opened_handle : blocks w !! ud = Some (BHandle h);
  opened_cache : cache_ok (blocks w) h
}.

(** What [cs_disasm] leaves of the blocks from before, with the error in the
    handle: nothing is missing, and nothing is new but the cache of a handle that
    had none. *)
Definition left_over (ud : Z) (e : cs_err) (h : cs_struct) (B B' : gmap Z block) : Prop :=
  B' = set_err ud e h B \/
  (insn_cache h = None /\ exists p c, B !! p = None /\ cached c /\
     B' = set_err ud e (with_cache (Some p) h) (<[p := BCache c]> B)).

(** A null pointer is only used after a failed allocation, of details or of the
    cache. *)
Definition may_crash (h : cs_struct) (w : world) : Prop :=
  false ∈ answers w /\ (truth (detail h) = true \/ insn_cache h = None).

Lemma left_over_grown ud h hb' B base' :
  B !! ud = Some (BHandle h) -> grown ud (with_errnum ERR_OK h) hb' (set_err ud ERR_OK h B) base' ->
  left_over ud ERR_OK h B base' /\ left_over ud ERR_MEM h B (set_err ud ERR_MEM hb' base').
Proof using Type.
  intros Hh [[-> ->]|(Hn & p & c & Hp & Hc & -> & ->)].
  - split; left; [done|]. unfold set_err. by rewrite insert_insert_eq.
  - unfold set_err in Hp. apply lookup_insert_None in Hp as [Hp Hne].
    split; right; (split; [done|]); exists p, c; (split; [done|]); (split; [done|]); unfold set_err.
    + by rewrite (insert_insert_ne _ p ud), insert_insert_eq by done.
    + by rewrite insert_insert_eq, (insert_insert_ne _ p ud), insert_insert_eq by done.
Qed.

Lemma cs_disasm_spec stack ud h m code size off count fuel w :
  opened ud h w -> skip_ok h -> 0 <= size < 2 ^ 28 -> size < Z.of_nat fuel ->
  let h0 := with_errnum ERR_OK h in
  let spec := cut count (decode_all stack fuel h0 m code size off code size off) in
  (cs_disasm stack fuel ud m code size off count w = WNull /\ may_crash h w) \/
  exists n p w', cs_disasm stack fuel ud m code size off count w = WRet (Some (n, p)) w' /\ wf w' /\ goes_on w w' /\
    ((false ∈ answers w /\ n = 0 /\ (p = None \/ p = Some None) /\ left_over ud ERR_MEM h (blocks w) (blocks w')) \/
     (spec = [] /\ n = 0 /\ p = Some None /\ left_over ud ERR_OK h (blocks w) (blocks w')) \/
     (exists t (vs : list view) w'' hb, vs <> [] /\ n = Z.of_nat (length spec) /\ p = Some (Some t) /\ bare <$> vs = spec /\
        blocks w' !! t = Some (BInsns ((fun v : view => Some v.1) <$> vs)) /\ Forall (has_detail (blocks w')) vs /\
        blocks w' !! ud = Some (BHandle hb) /\ errnum hb = ERR_OK /\
        cs_free (Some t) n w' = WRet tt w'' /\ wf w'' /\ goes_on w' w'' /\ left_over ud ERR_OK h (blocks w) (blocks w''))).
Proof using Hids.
  intros [Hw Hh Hk] Hs Hsz Hf h0 spec. unfold cs_disasm. pose proof Hw as [_ Hkw]. apply Hkw in Hh as Hud.
  rewrite (proj2 (Z.eqb_neq _ _)) by lia.
  destruct (set_errnum_spec ud ERR_OK h w Hh) as (w1 & E1 & B1 & N1 & A1 & M1). rewrite (wbind_ret _ _ _ _ _ E1).
  set (base := blocks w1). assert (base !! ud = Some (BHandle h0)) as Hbase.
  { unfold base. rewrite B1. apply lookup_insert_eq. }
  assert (cache_ok base h0) as Hkb.
  { intros q Hq. destruct (Hk q Hq) as (cc & Hcq & ?). exists cc. split; [|done].
    unfold base. rewrite B1. unfold set_err. by rewrite lookup_insert_ne by congruence. }
  assert (wf w1) as Hw1.
  { eapply wf_same; [exact Hw|done|]. intros k. rewrite B1. unfold set_err. rewrite lookup_insert_is_Some'.
    intros [<-|?]; [by eexists|done]. }
  rewrite (wbind_ret _ _ _ h0 w1) by (unfold load_handle; fold base; by rewrite Hbase).
  assert (forall hb' base', grown ud h0 hb' base base' -> left_over ud ERR_OK h (blocks w) base' /\
    left_over ud ERR_MEM h (blocks w) (set_err ud ERR_MEM hb' base')) as Hleft.
  { intros hb' base' Hg. apply left_over_grown; [done|]. unfold base in Hg. by rewrite B1 in Hg. }
  assert (goes_on w w1) as G1 by (split_and!; [lia|by rewrite A1|done]).
  destruct (alloc_cases (BInsns (replicate (Z.to_nat INSN_CACHE_SIZE) None)) w1)
    as [(Hfalse & w2 & E2 & B2 & N2 & G2)|(w2 & E2 & B2 & N2 & G2)]; rewrite (wbind_ret _ _ _ _ _ E2).
  { right. destruct (set_errnum_spec ud ERR_MEM h0 w2) as (w3 & E3 & B3 & N3 & A3 & M3); [by rewrite B2|].
    rewrite (wbind_ret _ _ _ _ _ E3). assert (goes_on w w3) as G3.
    { etrans; [exact G1|]. etrans; [exact G2|]. split_and!; [lia|by rewrite A3|done]. }
    eexists _, _, w3. split; [done|]. split; [|split; [done|]].
    { eapply (wf_same w1); [done|congruence|]. intros k. rewrite B3, B2. unfold set_err. rewrite lookup_insert_is_Some'.
      intros [<-|?]; [|done]. fold base. rewrite Hbase. by eexists. }
    left. split_and!; [by eapply goes_on_false; [exact G1|]|done|by left|].
    rewrite B3, B2. apply (Hleft h0 base). by left. }
  fold base in B2. assert (base !! next w1 = None) as Hfresh by (by apply wf_fresh).
  assert (linv ud h0 base h0 (mk_locals (next w1) 0 0 INSN_CACHE_SIZE INSN_CACHE_SIZE code size off) [] w2) as HI.
  { constructor; simpl; [|done|done|unfold INSN_CACHE_SIZE; lia].
    exists base, (replicate (Z.to_nat INSN_CACHE_SIZE) None). split; [|by rewrite length_replicate].
    constructor; simpl; try done. by eapply wf_alloc. }
  destruct (loop_spec stack ud h0 m code size off count Hs fuel base h0 _ [] w2 HI) as [[E3 [Hf3 Hn3]]|(o & w3 & base' & hb' & E3 & G3 & Hg & HO)];
    [done|simpl; lia..| |].
  { left. unfold wbind at 1. rewrite E3. split; [done|]. split; [|done]. eapply goes_on_false; [|exact Hf3]. by etrans. }
  right. rewrite (wbind_ret _ _ _ _ _ E3). destruct (Hleft _ _ Hg) as [Hok Hmem].
  assert (goes_on w w2) as G02 by (by etrans). assert (goes_on w w3) as G03 by (by etrans).
  destruct o as [v|].
  2: { destruct HO as (Hfalse & W3 & HB). eexists _, _, w3. split; [done|]. split; [done|]. split; [done|].
       left. split_and!; [by apply (goes_on_false w w2)|done|by right|by rewrite HB]. }
  destruct HO as (ys & HI' & Hys). simpl in HI', Hys.
  assert (bare <$> ys = spec) as Hspec by (unfold spec, cut; by rewrite Hys, Z.sub_0_r).
  destruct (finish_spec ud h0 base' hb' v ys w3 HI') as (r & w4 & E4 & G4 & HR). rewrite (wbind_ret _ _ _ _ _ E4).
  assert (goes_on w w4) as G04 by (by etrans).
  destruct HR as [(Hfalse & -> & W4 & HB)|[(-> & -> & W4 & HB)|(t & B & Hne & -> & HH)]].
  - eexists _, _, w4. split; [done|]. split; [done|]. split; [done|].
    left. split_and!; [by apply (goes_on_false w w3)|done|by right|by rewrite HB].
  - eexists _, _, w4. split; [done|]. split; [done|]. split; [done|].
    right. left. split_and!; [by rewrite <- Hspec|done|done|]. by rewrite HB.
  - destruct (cs_free_spec ud h0 base' hb' t ys w4 B HH) as (w5 & E5 & B5 & W5 & G5).
    eexists _, _, w4. split; [done|]. split; [by eapply holds_wf|]. split; [done|]. right. right. exists t, ys, w5, hb'.
    rewrite <- Hspec, length_fmap. split; [done|]. split; [done|]. split; [done|]. split; [done|].
    split; [|split; [by eapply holds_details|split; [by eapply holds_handle_block|split; [|by rewrite B5]]]].
    + rewrite (holds_blocks _ _ _ _ _ _ _ _ _ HH). apply lookup_insert_eq.
    + destruct Hg as [[-> _]|(_ & p & c & _ & _ & -> & _)]; done.
Qed.
End session.

(** ** Theorems *)

(** C5: with an open handle that skips at most 16 bytes of data at a time (or none),
    a back end none of whose opcodes is looked up outside of the table of ids (any,
    if new memory is cleared) and code below 2^28 bytes [cs_disasm] ends, however
    the allocations go, without leaving its array or using a block that it does
    not have.  (1) It returns the instructions of the reference disassembly, with
    their details if the handle wants them, cut to the count, in an array that
    [cs_free] releases together with the details; or (2) there are none; or (3) an
    allocation failed, and the error says so.  What is then left of the memory is
    what there was, and the cache of public ids, which a handle gets at its first
    instruction and [cs_close] frees.  (4) Only the allocations of details and of
    that cache are not checked: after one of them failed a null pointer may be
    used. *)
Theorem cs_disasm_correct {Hbe : backend} {Hfm : fresh_memory} {Hids : ids_indexed} stack ud h m code size off count fuel w :
  opened ud h w -> skip_ok h -> 0 <= size < 2 ^ 28 -> size < Z.of_nat fuel ->
  let spec := cut count (decode_all stack fuel (with_errnum ERR_OK h) m code size off code size off) in
  match cs_disasm stack fuel ud m code size off count w with
  | WRet (Some (n, Some (Some t))) w' =>
      exists (vs : list view) w'', spec <> [] /\ n = Z.of_nat (length spec) /\ bare <$> vs = spec /\
        blocks w' !! t = Some (BInsns ((fun v : view => Some v.1) <$> vs)) /\ Forall (has_detail (blocks w')) vs /\
        cs_free (Some t) n w' = WRet tt w'' /\ left_over ud ERR_OK h (blocks w) (blocks w'')
  | WRet (Some (n, p)) w' => n = 0 /\
      ((p = Some None /\ spec = [] /\ left_over ud ERR_OK h (blocks w) (blocks w')) \/
       (false ∈ answers w /\ left_over ud ERR_MEM h (blocks w) (blocks w')))
  | WNull => false ∈ answers w /\ (truth (detail h) = true \/ insn_cache h = None)
  | WRet None _ | WStuck => False
  end.
Proof.
  intros Ho Hs Hsz Hf spec.
  destruct (cs_disasm_spec stack ud h m code size off count fuel w Ho Hs Hsz Hf) as [[-> ?]|(n & p & w' & -> & _ & _ & HR)]; [done|].
  fold spec in HR. destruct HR as [(Hf' & -> & Hp & HB)|[(E & -> & -> & HB)|(t & vs & w'' & hb & Hne & -> & -> & E & Ht & Hd & _ & _ & Hfree & _ & _ & HB)]].
  - destruct Hp as [-> | ->]; auto.
  - auto.
  - exists vs, w''. split_and!; try done. rewrite <- E. by destruct vs.
Qed.

(** A handle that [cs_open] returns is closed by [cs_close] without a trace:
    the handle and the register information are released, the blocks from before
    are left.  Where it fails, nothing is left allocated. *)
Theorem cs_open_close a md w :
  wf w -> false ∉ answers w ->
  exists e p w', cs_open a md w = WRet (e, p) w' /\ wf w' /\
    (e <> ERR_OK /\ (p = None \/ p = Some 0) /\ w' = w \/
     e = ERR_OK /\ a = CS_ARCH_X86 /\ md .& cs_arch_disallowed_mode_mask a = 0 /\
     exists ud w'', p = Some ud /\ cs_errno ud w' = WRet ERR_OK w' /\
       cs_close ud w' = WRet (ERR_OK, 0) w'' /\ blocks w'' = blocks w).
Proof.
  intros Hw Hans. unfold cs_open. destruct (memset w); cbn [negb].
  2: { eexists _, _, w. split; [done|]. split; [done|]. left. split_and!; [done|by left|done]. }
  unfold cs_arch_init. destruct (Z.eqb_spec a CS_ARCH_X86) as [->|].
  2: { eexists _, _, w. split; [by destruct (_ && _)|]. split; [done|]. left. split_and!; [done|by right|done]. }
  cbn [Z.leb Z.ltb andb CS_ARCH_X86 CS_ARCH_MAX Z.compare Pos.compare Pos.compare_cont].
  destruct (truth (md .& cs_arch_disallowed_mode_mask CS_ARCH_X86)) eqn:Em.
  { eexists _, _, w. split; [done|]. split; [done|]. left. split_and!; [done|by right|done]. }
  unfold wbind at 1.
  match goal with |- context [malloc ?b w] => destruct (alloc_cases b w) as [[? _]|(w1 & -> & B1 & N1 & G1)]; [done|] end.
  unfold X86_global_init, wbind. pose proof (wf_alloc _ _ _ Hw B1 N1) as W1.
  destruct (alloc_cases BRegInfo w1) as [[Hf _]|(w2 & -> & B2 & N2 & G2)].
  { destruct G1 as (_ & [pre Hp] & _). destruct Hans. rewrite Hp. by apply elem_of_app; right. }
  pose proof (wf_alloc _ _ _ W1 B2 N2) as W2. assert (next w1 <> next w) as Hne by lia.
  assert (exists h, blocks w2 !! next w = Some (BHandle h) /\ insn_cache h = None /\ errnum h = ERR_OK) as (h & E & Hc & He).
  { rewrite B2, lookup_insert_ne, B1, lookup_insert_eq by done. by eexists. }
  unfold load_handle, store_handle. rewrite E, E. simpl. eexists _, _, _. split; [done|].
  split; [|right; split_and!; [done..|by apply Z.eqb_eq, negb_false_iff|]].
  { eapply wf_same; [exact W2|done|]. simpl. intros k. rewrite lookup_insert_is_Some'. intros [<-|?]; [|done]. by rewrite E. }
  exists (next w). pose proof Hw as [Hn _].
  unfold cs_errno, cs_close, wbind, load_handle, free. rewrite (proj2 (Z.eqb_neq _ _)) by lia.
  cbn [blocks next answers memset]. rewrite lookup_insert_eq. simpl. rewrite lookup_insert_ne by done. rewrite B2, lookup_insert_eq. simpl.
  rewrite Hc, He. simpl. rewrite delete_insert_ne, lookup_insert_eq by done.
  eexists. split_and!; [done..|]. simpl. rewrite delete_insert_eq, B1.
  pose proof (wf_fresh w Hw). pose proof (wf_fresh w1 W1) as F1. rewrite B1 in F1.
  rewrite (delete_insert_id _ (next w1)), delete_insert_id by done. done.
Qed.

(** ** Sessions *)

(** A client that opens a handle, disassembles pieces of code one after the
    other, frees what it is given, and closes the handle. *)
Section sessions.
Context {Hbe : backend} {Hfm : fresh_memory} {Hids : ids_indexed} (stack : MCInst) (fuel : nat) (m : mem).

Record job := mk_job { jcode : Z; jsize : Z; joff : Z; jcount : Z }.

Fixpoint run_jobs (ud : Z) (jobs : list job) : W bool :=
  match jobs with
  | [] => wret true
  | j :: jobs' =>
      let# r := cs_disasm stack fuel ud m (jcode j) (jsize j) (joff j) (jcount j) in
      match r with
      | None => wret false
      | Some (n, p) =>
          (match p with Some (Some t) => cs_free (Some t) n | _ => wret tt end) ;# run_jobs ud jobs'
      end
  end.

Definition run_session (md : Z) (jobs : list job) : W (cs_err * bool) :=
  let# '(e, p) := cs_open CS_ARCH_X86 md in
  match p with
  | Some ud =>
      if decide (e = ERR_OK) then
        let# done := run_jobs ud jobs in
        let# '(e, _) := cs_close ud in
        wret (e, done)
      else wret (e, true)
  | None => wret (e, true)
  end.

(** Between the calls: the blocks from before, the handle, the register
    information, and the cache. *)
Record in_session (B0 : gmap Z block) (ud : Z) (w : world) : Prop := mk_in_session {
  in_session_wf : wf w;
  in_session_blocks : exists h ri, blocks w !! ud = Some (BHandle h) /\ printer_info h = Some ri /\ skipdata h = false /\
    ud <> 0 /\ B0 !! ud = None /\ B0 !! ri = None /\ ud <> ri /\
    match insn_cache h with
    | None => blocks w = <[ud := BHandle h]> (<[ri := BRegInfo]> B0)
    | Some p => exists c, cached c /\ B0 !! p = None /\ p <> ud /\ p <> ri /\
        blocks w = <[ud := BHandle h]> (<[p := BCache c]> (<[ri := BRegInfo]> B0))
    end
}.

Lemma in_session_left B0 ud w w' h e :
  in_session B0 ud w -> blocks w !! ud = Some (BHandle h) -> wf w' -> left_over ud e h (blocks w) (blocks w') ->
  in_session B0 ud w'.
Proof using Type.
  intros [Hw (h' & ri & Hh' & Hri & Hsk & Hz & Hu & Hr & Hne & Hm)] Hh Hw' HL.
  rewrite Hh in Hh'. injection Hh' as <-. constructor; [done|].
  destruct HL as [E|(Hn & p & c & Hp & Hc & E)]; unfold set_err in E.
  - exists (with_errnum e h), ri. rewrite E, lookup_insert_eq. split_and!; try done. cbn [with_errnum insn_cache].
    destruct (insn_cache h) as [p|].
    + destruct Hm as (c & Hc & Hp & Hpu & Hpr & ->). exists c. split_and!; try done. by rewrite insert_insert_eq.
    + by rewrite Hm, insert_insert_eq.
  - exists (with_errnum e (with_cache (Some p) h)), ri. rewrite E, lookup_insert_eq. split_and!; try done.
    cbn [with_errnum with_cache insn_cache]. rewrite Hn in Hm. rewrite Hm in Hp.
    apply lookup_insert_None in Hp as [Hp Hpu]. apply lookup_insert_None in Hp as [Hp Hpr].
    exists c. split_and!; try done. rewrite Hm, (insert_insert_ne _ p ud), insert_insert_eq by done. done.
Qed.

Lemma in_session_opened B0 ud w : in_session B0 ud w -> exists h, opened ud h w /\ skip_ok h.
Proof using Type.
  intros [Hw (h & ri & Hh & Hri & Hsk & Hz & Hu & Hr & Hne & Hm)]. exists h. split; [|intros E; congruence].
  constructor; [done|done|]. intros p E. rewrite E in Hm. destruct Hm as (c & Hc & Hp & Hpu & Hpr & ->).
  exists c. by rewrite lookup_insert_ne, lookup_insert_eq.
Qed.

Lemma run_jobs_spec B0 ud jobs w :
  in_session B0 ud w -> Forall (fun j => 0 <= jsize j < 2 ^ 28 /\ jsize j < Z.of_nat fuel) jobs ->
  (run_jobs ud jobs w = WNull /\ false ∈ answers w) \/
  exists w', run_jobs ud jobs w = WRet true w' /\ in_session B0 ud w'.
Proof using Hids.
  intros HI HF. revert w HI. induction HF as [|j jobs [Hj1 Hj2] _ IH]; intros w HI; cbn [run_jobs]; [right; by exists w|].
  destruct (in_session_opened _ _ _ HI) as (h & Ho & Hs).
  destruct (cs_disasm_spec stack ud h m (jcode j) (jsize j) (joff j) (jcount j) fuel w Ho Hs Hj1 Hj2)
    as [[E [Hf _]]|(n & p & w1 & E & W1 & G1 & HR)].
  { left. unfold wbind at 1. by rewrite E. }
  rewrite (wbind_ret _ _ _ _ _ E). pose proof (opened_handle _ _ _ Ho) as Hh.
  assert (exists w2, (match p with Some (Some t) => cs_free (Some t) n | _ => wret tt end) w1 = WRet tt w2 /\
    goes_on w w2 /\ in_session B0 ud w2) as (w2 & E2 & G2 & HI2).
  { destruct HR as [(_ & -> & Hp & HB)|[(_ & -> & -> & HB)|(t & vs & w2 & hb & _ & -> & -> & _ & _ & _ & _ & _ & Hfree & W2 & G2 & HB)]].
    - exists w1. split; [by destruct Hp as [-> | ->]|]. split; [done|]. by eapply in_session_left.
    - exists w1. split; [done|]. split; [done|]. by eapply in_session_left.
    - exists w2. split; [done|]. split; [by etrans|]. by eapply in_session_left. }
  rewrite (wbind_ret _ _ _ _ _ E2). destruct (IH w2 HI2) as [[E3 Hf]|(w3 & E3 & HI3)].
  - left. split; [done|]. by apply (goes_on_false w w2).
  - right. by exists w3.
Qed.

(** Closing the handle releases it, the register information and the cache. *)
Lemma cs_close_session B0 ud w :
  in_session B0 ud w -> exists w', cs_close ud w = WRet (ERR_OK, 0) w' /\ blocks w' = B0.
Proof using Type.
  intros [Hw (h & ri & Hh & Hri & Hsk & Hz & Hu & Hr & Hne & Hm)]. unfold cs_close.
  rewrite (proj2 (Z.eqb_neq _ _)) by done. unfold wbind, load_handle. rewrite Hh. rewrite Hri.
  destruct (insn_cache h) as [p|].
  - destruct Hm as (c & Hc & Hp & Hpu & Hpr & Hm).
    destruct (free_some ri BRegInfo w) as (w1 & -> & B1 & _); [by rewrite Hm, !lookup_insert_ne, lookup_insert_eq by done|].
    rewrite Hm, !delete_insert_ne, delete_insert_id in B1 by done.
    destruct (free_some p (BCache c) w1) as (w2 & -> & B2 & _); [by rewrite B1, lookup_insert_ne, lookup_insert_eq by done|].
    rewrite B1, delete_insert_ne, delete_insert_id in B2 by done.
    destruct (free_some ud (BHandle h) w2) as (w3 & -> & B3 & _); [by rewrite B2, lookup_insert_eq|].
    exists w3. split; [done|]. by rewrite B3, B2, delete_insert_id.
  - destruct (free_some ri BRegInfo w) as (w1 & -> & B1 & _); [by rewrite Hm, lookup_insert_ne, lookup_insert_eq by done|].
    rewrite Hm, delete_insert_ne, delete_insert_id in B1 by done. change (free None w1) with (WRet tt w1). cbv beta iota.
    destruct (free_some ud (BHandle h) w1) as (w3 & -> & B3 & _); [by rewrite B1, lookup_insert_eq|].
    exists w3. split; [done|]. by rewrite B3, B1, delete_insert_id.
Qed.

Lemma cs_open_session md w :
  wf w ->
  (cs_open CS_ARCH_X86 md w = WNull /\ false ∈ answers w) \/
  exists e p w', cs_open CS_ARCH_X86 md w = WRet (e, p) w' /\ goes_on w w' /\
    (memset w = true -> truth (md .& cs_arch_disallowed_mode_mask CS_ARCH_X86) = false -> false ∉ answers w -> e = ERR_OK) /\
    if decide (e = ERR_OK) then exists ud, p = Some ud /\ in_session (blocks w) ud w' else blocks w' = blocks w.
Proof using Type.
  intros Hw. unfold cs_open. destruct (memset w); cbn [negb]; [|right; eexists _, _, w; by split_and!].
  cbn [Z.leb Z.ltb andb CS_ARCH_X86 CS_ARCH_MAX Z.compare Pos.compare Pos.compare_cont cs_arch_init Z.eqb Pos.eqb].
  destruct (truth (md .& cs_arch_disallowed_mode_mask CS_ARCH_X86)) eqn:Emask;
    [right; eexists _, _, w; by split_and!|].
  match goal with |- context [malloc ?b] => destruct (alloc_cases b w) as [(Hf & w1 & E1 & B1 & N1 & G1)|(w1 & E1 & B1 & N1 & G1)] end;
    unfold CS_ARCH_X86 in *; rewrite (wbind_ret _ _ _ _ _ E1); [right; eexists _, _, w1; by split_and!|].
  unfold X86_global_init. rewrite wbind_assoc. pose proof (wf_alloc _ _ _ Hw B1 N1) as W1.
  destruct (alloc_cases BRegInfo w1) as [(Hf & w2 & E2 & _)|(w2 & E2 & B2 & N2 & G2)].
  { left. unfold wbind at 1. rewrite E2. split; [done|]. by eapply goes_on_false. }
  right. rewrite (wbind_ret _ _ _ _ _ E2). rewrite wbind_assoc. pose proof (wf_alloc _ _ _ W1 B2 N2) as W2.
  pose proof (wf_fresh w Hw) as F0. pose proof (wf_fresh w1 W1) as F1. rewrite B1, N1 in F1.
  assert (blocks w2 !! next w = blocks w1 !! next w) as Eh by (rewrite B2, lookup_insert_ne by lia; done).
  rewrite B1, lookup_insert_eq in Eh. unfold wbind at 1, load_handle. rewrite Eh. rewrite wbind_assoc.
  erewrite wbind_ret by (unfold store_handle; rewrite Eh; reflexivity). rewrite wbind_wret, decide_True by done.
  eexists _, _, _. split; [done|]. split; [etrans; [exact G1|exact G2]|]. split; [done|]. rewrite decide_True by done. eexists. split; [done|].
  constructor.
  { eapply wf_same; [exact W2|done|]. cbn. intros k. rewrite lookup_insert_is_Some'. intros [<-|?]; [|done]. by rewrite Eh. }
  cbn [blocks]. eexists _, (next w1). rewrite lookup_insert_eq. split; [done|]. split; [done|]. split; [done|].
  destruct Hw as [Hn _]. apply lookup_insert_None in F1 as [F1 _].
  split; [lia|]. split; [done|]. split; [by rewrite N1|]. split; [lia|]. cbn [insn_cache].
  rewrite B2, B1, N1. rewrite (insert_insert_ne _ (next w + 1) (next w)) by lia. by rewrite insert_insert_eq.
Qed.
End sessions.

(** C15: a session with Capstone is balanced, for a back end none of whose opcodes is
    looked up outside of the table of ids (any, if new memory is cleared): however many pieces of code below 2^28
    bytes a client disassembles between [cs_open] and [cs_close], freeing what it
    is given, it never uses a block that is not allocated, and when the handle is
    closed exactly the blocks from before are left: no array, no details, no cache
    of ids.  This holds however the allocations go, unless an allocation that the
    code does not check fails and its null pointer is used.  When the memory
    functions are set, the mode is allowed and no allocation fails, the session
    succeeds. *)
Theorem cs_session_balanced {Hbe : backend} {Hfm : fresh_memory} {Hids : ids_indexed} stack fuel m md jobs w :
  wf w -> Forall (fun j => 0 <= jsize j < 2 ^ 28 /\ jsize j < Z.of_nat fuel) jobs ->
  match run_session stack fuel m md jobs w with
  | WRet (e, ended) w' => ended = true /\ blocks w' = blocks w /\
      (memset w = true -> truth (md .& cs_arch_disallowed_mode_mask CS_ARCH_X86) = false -> false ∉ answers w -> e = ERR_OK)
  | WNull => false ∈ answers w
  | WStuck => False
  end.
Proof.
  intros Hw HF. unfold run_session. destruct (cs_open_session md w Hw) as [[E Hf]|(e & p & w1 & E & G1 & He & H1)].
  { unfold wbind. by rewrite E. }
  rewrite (wbind_ret _ _ _ _ _ E). destruct (decide (e = ERR_OK)) as [->|].
  2: { by destruct p. }
  destruct H1 as (ud & -> & H1).
  destruct (run_jobs_spec stack fuel m (blocks w) ud jobs w1 H1 HF) as [[E2 Hf]|(w2 & E2 & H2)].
  { unfold wbind. rewrite E2. by apply (goes_on_false w w1). }
  rewrite (wbind_ret _ _ _ _ _ E2). destruct (cs_close_session _ _ _ H2) as (w3 & E3 & B3).
  by rewrite (wbind_ret _ _ _ _ _ E3).
Qed.

(** ** Instruction by instruction *)

Section iter.
Context {Hbe : backend} {Hfm : fresh_memory} (stack : MCInst).

(** The table has the opcodes of the decoder: otherwise the id of the caller's
    instruction stays. *)
Hypothesis Hfound : forall h m code len i off n i' d,
  disasm h m code len i off = Some (n, i', d) -> is_Some (find_spec insns (Opcode i')).

(** What the caller of [cs_disasm_iter] provides: a handle that has its cache, and
    an instruction with room for details if the handle wants them. *)
Record iter_ready (ud p : Z) (h : cs_struct) (x : cs_insn) (w : world) : Prop := mk_ready {
  ready_ud : ud <> 0;
  ready_handle : blocks w !! ud = Some (BHandle h);
  ready_insn : blocks w !! p = Some (BInsns [Some x]);
  ready_detail d : idetail x = Some d -> exists o, blocks w !! d = Some (BDetail o);
  ready_wanted : truth (detail h) = true -> is_Some (idetail x);
  ready_cache : exists q c, insn_cache h = Some q /\ blocks w !! q = Some (BCache c) /\ cached c
}.

Lemma store_first p x y w :
  blocks w !! p = Some (BInsns [x]) ->
  store_insn p 0 y w = WRet tt (mk_world (<[p := BInsns [Some y]]> (blocks w)) (next w) (answers w) (memset w)).
Proof using Type. intros H. unfold store_insn. by rewrite H. Qed.

(** Writing a block of details keeps all that. *)
Lemma ready_block ud p h x w d o :
  iter_ready ud p h x w -> idetail x = Some d ->
  let w' := mk_world (<[d := BDetail o]> (blocks w)) (next w) (answers w) (memset w) in
  iter_ready ud p h x w' /\ dom (blocks w') = dom (blocks w).
Proof using Type.
  intros [Hn Hh Hi Hd Hwt (q & c & Hq & Hc & Hcc)] Ed w'. destruct (Hd d Ed) as [o' E]. split.
  - constructor; cbn; try done; try (by rewrite lookup_insert_ne by congruence).
    + intros d' Hd'. assert (d' = d) as -> by congruence. rewrite lookup_insert_eq. eauto.
    + exists q, c. by rewrite lookup_insert_ne by congruence.
  - apply dom_insert_lookup_L. by eexists.
Qed.

Lemma fetch_ready ud p h x m code size off w :
  iter_ready ud p h x w ->
  exists w', fetch stack h m code size off (idetail x) w =
      WRet (match disasm h m code size (MCInst_Init stack) off with Some (n, mci, _) => Some (n, mci) | None => None end) w' /\
    iter_ready ud p h x w' /\ dom (blocks w') = dom (blocks w).
Proof using Type.
  intros H. unfold fetch.
  assert (exists w1, clear_detail (idetail x) w = WRet tt w1 /\ iter_ready ud p h x w1 /\ dom (blocks w1) = dom (blocks w))
    as (w1 & E1 & H1 & D1).
  { destruct (idetail x) as [d|] eqn:Ed; [|by exists w]. unfold clear_detail. destruct (ready_detail _ _ _ _ _ H d Ed) as [o ->].
    eexists. split; [reflexivity|]. by apply (ready_block _ _ _ _ _ _ _ H). }
  rewrite (wbind_ret _ _ _ _ _ E1). destruct (disasm _ _ _ _ _ _) as [[[n mci] det]|]; [|by exists w1].
  destruct (truth (detail h)) eqn:Et; [|rewrite wbind_wret; by exists w1].
  destruct (ready_wanted _ _ _ _ _ H1 Et) as [d Ed]. rewrite Ed. destruct (ready_detail _ _ _ _ _ H1 d Ed) as [o Eo].
  erewrite wbind_ret by (unfold store_detail; rewrite Eo; reflexivity). eexists. split; [reflexivity|].
  destruct (ready_block _ _ _ _ _ d (Some det) H1 Ed) as [? D2]. split; [done|]. by rewrite D2.
Qed.

Lemma ready_store ud p h x y w :
  iter_ready ud p h x w -> idetail y = idetail x ->
  exists w', store_insn p 0 y w = WRet tt w' /\ iter_ready ud p h y w' /\ dom (blocks w') = dom (blocks w).
Proof using Type.
  intros [Hn Hh Hi Hd Hwt (q & c & Hq & Hc & Hcc)] E. eexists. split; [by eapply store_first|]. split.
  - constructor; cbn; [done|by rewrite lookup_insert_ne by congruence|by rewrite lookup_insert_eq| |by rewrite E|].
    + intros d Hd'. rewrite E in Hd'. destruct (Hd d Hd') as [o Ho].
      exists o. by rewrite lookup_insert_ne by congruence.
    + exists q, c. by rewrite lookup_insert_ne by congruence.
  - cbn. apply dom_insert_lookup_L. by eexists.
Qed.

(** The cache answers without a change. *)
Lemma ready_id ud p h x w op :
  iter_ready ud p h x w -> 0 <= op -> is_Some (find_spec insns op) ->
  X86_get_insn_id ud op w = WRet (public_id op) w.
Proof using Type.
  intros [Hn Hh Hi Hd Hwt (q & c & Hq & Hc & Hcc)] Ho Hop. destruct insns_last as (_ & E1 & _).
  destruct (found_public op Ho Hop) as (Hle & Hix & _).
  unfold X86_get_insn_id, find_insn. rewrite wbind_assoc, (wbind_ret _ _ _ h w) by (unfold load_handle; by rewrite Hh).
  rewrite E1. cbn [lift]. rewrite wbind_assoc, wbind_wret, (proj2 (Z.ltb_ge _ _)), Hq, wbind_assoc by done.
  rewrite (wbind_ret _ _ _ c w) by (unfold load_cache; by rewrite Hc). by apply cached_id.
Qed.

(** One call decodes what the reference decodes. *)
Lemma cs_disasm_iter_spec ud p h x m code size addr w :
  iter_ready ud p h x w -> skip_ok h -> 0 <= size < 2 ^ 64 ->
  let h0 := with_errnum ERR_OK h in
  exists r w', cs_disasm_iter stack ud m code size addr p w = WRet r w' /\ dom (blocks w') = dom (blocks w) /\
    match decode_one stack h0 m code size addr code size addr with
    | Some (y, n) => 0 < n <= size /\ r = (true, (code + n, size - n, u64 (addr + n))) /\
        exists y', strip y' = y.1 /\ iter_ready ud p h0 y' w'
    | None => r = (false, (code, size, addr)) /\ exists y', iter_ready ud p h0 y' w'
    end.
Proof using Hfound.
  intros Hr Hs Hsz h0. pose proof Hr as [Hn Hh Hi Hd Hwt (q & c & Hq & Hc & Hcc)]. unfold cs_disasm_iter, decode_one.
  rewrite (proj2 (Z.eqb_neq _ _)) by done.
  destruct (set_errnum_spec ud ERR_OK h w Hh) as (w1 & E1 & B1 & _). fold h0 in B1. rewrite (wbind_ret _ _ _ _ _ E1).
  assert (iter_ready ud p h0 x w1) as R1.
  { constructor; rewrite ?B1; unfold set_err; [done|by rewrite lookup_insert_eq|by rewrite lookup_insert_ne by congruence| |done|].
    - intros d Hx. destruct (Hd d Hx) as [o Ho]. exists o. by rewrite lookup_insert_ne by congruence.
    - exists q, c. by rewrite lookup_insert_ne by congruence. }
  assert (dom (blocks w1) = dom (blocks w)) as D1.
  { rewrite B1. apply dom_insert_lookup_L. by eexists. }
  rewrite (wbind_ret _ _ _ h0 w1) by (unfold load_handle; by rewrite (ready_handle _ _ _ _ _ R1)).
  rewrite (wbind_ret _ _ _ x w1) by (unfold load_insn; by rewrite (ready_insn _ _ _ _ _ R1)).
  destruct (ready_store ud p h0 x (mk_insn (id x) addr (isize x) (ibytes x) (idetail x)) w1 R1 eq_refl)
    as (w2 & E2 & R2 & D2). rewrite (wbind_ret _ _ _ _ _ E2). rewrite D1 in D2.
  destruct (fetch_ready ud p h0 _ m code size addr w2 R2) as (w3 & E3 & R3 & D3). cbn [idetail] in E3 |- *.
  rewrite (wbind_ret _ _ _ _ _ E3).
  destruct (disasm h0 m code size (MCInst_Init stack) addr) as [[[n mci] det]|] eqn:E.
  - pose proof (disasm_opcode _ _ _ _ _ _ _ _ _ E) as Hop. pose proof (Hfound _ _ _ _ _ _ _ _ _ E) as Hkn. apply disasm_size in E as [Hn0 _].
    destruct (found_public _ Hop Hkn) as (_ & _ & [i Ei]).
    rewrite (wbind_ret _ _ _ _ _ (ready_id _ _ _ _ _ _ R3 Hop Hkn)), Ei. cbn [default].
    match goal with |- context [store_insn p 0 ?y] => destruct (ready_store _ _ _ _ y w3 R3 eq_refl) as (w4 & E4 & R4 & D4) end.
    rewrite (wbind_ret _ _ _ _ _ E4). eexists _, w4. split; [done|]. split; [congruence|]. split; [done|].
    split; [by rewrite (wrap_small 64 (size - n)) by lia|]. eexists. split; [|exact R4]. done.
  - replace (u64 (addr - addr)) with 0 by (by rewrite Z.sub_diag).
    destruct (skip h0 m code size 0 size) as [n|] eqn:Es.
    + apply skip_range in Es as [Hr0 H16]; [|done]. rewrite (wbind_ret _ _ _ (mk_insn 0 addr (u16 n) (bytes m code (Z.to_nat n)) (idetail x)) w3).
      2: { unfold data_insn. by rewrite (proj2 (Z.ltb_ge _ _)) by lia. }
      match goal with |- context [store_insn p 0 ?y] => destruct (ready_store _ _ _ _ y w3 R3 eq_refl) as (w4 & E4 & R4 & D4) end.
      rewrite (wbind_ret _ _ _ _ _ E4). eexists _, w4. split; [done|]. split; [congruence|]. split; [done|].
      split; [by rewrite (wrap_small 64 (size - n)) by lia|]. eexists. split; [|exact R4]. done.
    + eexists _, w3. split; [done|]. split; [congruence|]. split; [done|by eexists].
Qed.

(** The loop of a caller, which collects the instructions. *)
Fixpoint iterate (fuel : nat) (ud : Z) (m : mem) (code size addr p : Z) : W (list cs_insn) :=
  match fuel with
  | O => wret []
  | S f =>
      let# '(more, (code, size, addr)) := cs_disasm_iter stack ud m code size addr p in
      if more then
        let# x := load_insn p 0 in
        let# l := iterate f ud m code size addr p in
        wret (strip x :: l)
      else wret []
  end.

Lemma decode_one_plain h m o s f o' s' f' code size off :
  callback h = None -> decode_one stack h m o s f code size off = decode_one stack h m o' s' f' code size off.
Proof using Type. intros H. unfold decode_one, skip. by rewrite H. Qed.

Lemma decode_one_empty h m o s f code off : skip_ok h -> decode_one stack h m o s f code 0 off = None.
Proof using Type.
  intros Hs. unfold decode_one. destruct (disasm _ _ _ _ _ _) as [[[n i] d]|] eqn:E.
  { apply disasm_size in E. lia. }
  destruct (skip _ _ _ _ _ _) as [n|] eqn:Es; [|done]. apply skip_range in Es; [lia|done].
Qed.

(** Disassembling one instruction after the other with [cs_disasm_iter] gives
    the same instructions as the reference of [cs_disasm], up to the first that
    cannot be decoded, when no callback sees the difference; nothing is allocated
    or released on the way. *)
Theorem cs_disasm_iter_all ud p h x m org size_org offset_org code size addr fuel w :
  iter_ready ud p h x w -> skip_ok h -> callback h = None -> 0 <= size < 2 ^ 64 -> size < Z.of_nat fuel ->
  exists w', iterate fuel ud m code size addr p w =
      WRet (fst <$> decode_all stack fuel (with_errnum ERR_OK h) m org size_org offset_org code size addr) w' /\
    dom (blocks w') = dom (blocks w).
Proof using Hfound.
  intros Hr Hs Hcb. revert h x code size addr w Hr Hs Hcb.
  induction fuel as [|fuel IH]; intros h x code size addr w Hr Hs Hcb Hsz Hf; [lia|].
  destruct (cs_disasm_iter_spec ud p h x m code size addr w Hr Hs Hsz) as (r & w1 & E & D1 & HD).
  cbn [iterate decode_all]. unfold wbind at 1. rewrite E.
  rewrite (decode_one_plain _ m code size addr org size_org offset_org) in HD by done.
  destruct (Z.ltb_spec 0 size) as [Hp|].
  2: { assert (size = 0) as -> by lia. rewrite decode_one_empty in HD by done. destruct HD as [-> _]. by exists w1. }
  destruct (decode_one _ _ _ _ _ _ _ _ _) as [[y n]|]; [|destruct HD as [-> _]; by exists w1].
  destruct HD as (Hn & -> & y' & Hy & R1). unfold wbind, load_insn. rewrite (ready_insn _ _ _ _ _ R1).
  destruct (IH _ _ (code + n) (size - n) (u64 (addr + n)) w1 R1) as (w2 & E2 & D2); [done|done|lia|lia|].
  simpl. rewrite E2, Hy. exists w2. split; [done|congruence].
Qed.
End iter.

(** ** Concrete runs *)

(** A back end with two instructions: [nop], and a call with an immediate of one
    byte relative to the instruction behind it; and its public ids. *)
Definition toy_table : list insn_map := [CsUtils.mk_insn 0 0; CsUtils.mk_insn 5 7; CsUtils.mk_insn 6 56].

Definition toy_disasm (h : cs_struct) (m : mem) (code len : Z) (i : MCInst) (off : Z) : option (Z * MCInst * cs_detail) :=
  if (m code =? 0x90) && (0 <? len) then Some (1, MCInst_setOpcode i 5, mk_detail [] [] [] [])
  else if (m code =? 0xe8) && (1 <? len) then
    Some (2, MCInst_setOpcode i 6, mk_detail [] [] [] [(2, off + 2 + m (code + 1))])
  else None.

Definition toy : backend.
Proof.
  refine {| disasm := toy_disasm; insns := toy_table; printer i := i |}.
  - intros h m code len i off n i' d. unfold toy_disasm.
    destruct (m code =? 0x90), (m code =? 0xe8), (Z.ltb_spec 0 len), (Z.ltb_spec 1 len); simpl; intros [= <- _ _]; lia.
  - intros h m code len i off n i' d. unfold toy_disasm.
    destruct (m code =? 0x90), (m code =? 0xe8), (0 <? len), (1 <? len); simpl; intros [= _ <- _]; simpl; lia.
  - constructor; [done|cbn; lia|repeat constructor; cbn; lia|].
    intros x l [= <-] Hx. unfold toy_table in Hx. set_unfold in Hx. destruct_or!; subst; cbn; lia.
Defined.

Definition dead_memory : fresh_memory.
Proof. refine {| heap n := replicate (Z.to_nat n) 0xDEAD |}. intros n. apply length_replicate. Defined.

Definition scratch : MCInst := mk_inst 0 0 false 0 0 [] false.
Definition run_handle (skipping : bool) : cs_struct :=
  mk_ud CS_ARCH_X86 CS_MODE_64 CS_OPT_SYNTAX_INTEL None true ERR_MEM CS_OPT_ON None skipping 1 None.
Definition run_world (skipping : bool) (ans : list bool) : world :=
  mk_world {[1 := BHandle (run_handle skipping)]} 3 ans true.
(** Mostly [nop], a byte that is no instruction, and a call. *)
Definition toy_code : mem := fun a => if a =? 102 then 0 else if a =? 105 then 0xe8 else if a =? 106 then 0x20 else 0x90.

Lemma run_world_opened {Hbe : backend} {Hfm : fresh_memory} skipping ans : opened 1 (run_handle skipping) (run_world skipping ans).
Proof.
  constructor; [|done|done]. split; [done|]. simpl. intros k b. rewrite lookup_singleton_Some. intros [<- _]. lia.
Qed.

Lemma run_handle_skip_ok skipping : skip_ok (run_handle skipping).
Proof. intros _. split; [simpl; lia|]. by intros cb [=]. Qed.

#[local] Existing Instances toy dead_memory.

Lemma toy_found h m code len i off n i' d :
  disasm h m code len i off = Some (n, i', d) -> is_Some (find_spec insns (Opcode i')).
Proof.
  cbn. unfold toy_disasm. destruct (m code =? 0x90), (m code =? 0xe8), (0 <? len), (1 <? len); simpl;
    intros [= _ <- _]; by eexists.
Qed.

Lemma toy_indexed : ids_indexed.
Proof.
  constructor. intros h m code len i off n i' d E. apply found_public; [by eapply disasm_opcode|by eapply toy_found].
Qed.
#[local] Existing Instance toy_indexed.

Lemma cs_disasm_correct_witness :
  let h := run_handle true in
  let w := run_world true [] in
  let spec := cut 0 (decode_all scratch 13 (with_errnum ERR_OK h) toy_code 100 12 0x1000 100 12 0x1000) in
  map (fun v : view => (id v.1, address v.1, isize v.1, operands <$> v.2)) (take 5 spec)
    = [(7, 0x1000, 1, Some []); (7, 0x1001, 1, Some []); (0, 0x1002, 1, None); (7, 0x1003, 1, Some []);
       (7, 0x1004, 1, Some [])] /\
  (operands <$> (spec !! 5%nat ≫= snd)) = Some [(2, 0x1027)] /\ length spec = 11%nat /\
  match cs_disasm scratch 13 1 toy_code 100 12 0x1000 0 w with
  | WRet (Some (n, Some (Some t))) w' =>
      exists (vs : list view) w'', spec <> [] /\ n = Z.of_nat (length spec) /\ bare <$> vs = spec /\
        blocks w' !! t = Some (BInsns ((fun v : view => Some v.1) <$> vs)) /\ Forall (has_detail (blocks w')) vs /\
        cs_free (Some t) n w' = WRet tt w'' /\ left_over 1 ERR_OK h (blocks w) (blocks w'')
  | WRet (Some (n, p)) w' => n = 0 /\
      ((p = Some None /\ spec = [] /\ left_over 1 ERR_OK h (blocks w) (blocks w')) \/
       (false ∈ answers w /\ left_over 1 ERR_MEM h (blocks w) (blocks w')))
  | WNull => false ∈ answers w /\ (truth (detail h) = true \/ insn_cache h = None)
  | WRet None _ | WStuck => False
  end.
Proof.
  split; [vm_compute; reflexivity|]. split; [vm_compute; reflexivity|]. split; [vm_compute; reflexivity|].
  apply (cs_disasm_correct scratch 1 (run_handle true) toy_code 100 12 0x1000 0 13 (run_world true [])).
  - apply run_world_opened.
  - apply run_handle_skip_ok.
  - lia.
  - lia.
Defined.

(** The run of that witness gives the eleven instructions. *)
Example cs_disasm_run :
  match cs_disasm scratch 13 1 toy_code 100 12 0x1000 0 (run_world true []) with
  | WRet (Some (n, Some (Some _))) _ => n = 11
  | _ => False
  end.
Proof. vm_compute. reflexivity. Qed.

(** The allocations that are not checked: when the details of the first
    instruction, or the cache, cannot be allocated, the null pointer is used. *)
Theorem unchecked_allocations :
  cs_disasm scratch 13 1 toy_code 100 12 0x1000 0 (run_world false [true; false]) = WNull /\
  cs_disasm scratch 13 1 toy_code 100 12 0x1000 0 (run_world false [true; true; false]) = WNull.
Proof. split; vm_compute; reflexivity. Qed.

Lemma cs_session_balanced_witness :
  let jobs := [mk_job 100 12 0x1000 0; mk_job 103 9 0x2000 4] in
  let w := mk_world (∅ : gmap Z block) 1 [] true in
  match run_session scratch 13 toy_code CS_MODE_64 jobs w with
  | WRet (e, ended) w' => ended = true /\ blocks w' = blocks w /\
      (memset w = true -> truth (CS_MODE_64 .& cs_arch_disallowed_mode_mask CS_ARCH_X86) = false -> false ∉ answers w -> e = ERR_OK)
  | WNull => false ∈ answers w
  | WStuck => False
  end.
Proof.
  apply (cs_session_balanced scratch 13 toy_code CS_MODE_64 [mk_job 100 12 0x1000 0; mk_job 103 9 0x2000 4]
           (mk_world (∅ : gmap Z block) 1 [] true)).
  - split; [done|]. intros k b Hk. cbn in Hk. by rewrite lookup_empty in Hk.
  - repeat constructor; cbn; lia.
Defined.

Lemma cs_open_close_witness :
  exists e p w', cs_open CS_ARCH_X86 CS_MODE_64 (run_world false [true; true]) = WRet (e, p) w' /\ wf w' /\
    (e <> ERR_OK /\ (p = None \/ p = Some 0) /\ w' = run_world false [true; true] \/
     e = ERR_OK /\ CS_ARCH_X86 = CS_ARCH_X86 /\ CS_MODE_64 .& cs_arch_disallowed_mode_mask CS_ARCH_X86 = 0 /\
     exists ud w'', p = Some ud /\ cs_errno ud w' = WRet ERR_OK w' /\
       cs_close ud w' = WRet (ERR_OK, 0) w'' /\ blocks w'' = blocks (run_world false [true; true])).
Proof.
  apply (cs_open_close CS_ARCH_X86 CS_MODE_64 (run_world false [true; true])).
  - apply (opened_wf 1 (run_handle false)). apply run_world_opened.
  - simpl. rewrite !elem_of_cons, elem_of_nil. intuition discriminate.
Defined.

(** A world with an instruction and a cache for [cs_disasm_iter]. *)
Definition iter_handle : cs_struct := with_cache (Some 3) (run_handle false).
Definition iter_world : world :=
  mk_world {[1 := BHandle iter_handle; 2 := BInsns [Some (mk_insn 0 0 0 [] (Some 4))]; 3 := BCache [0xDEAD; 0xDEAD; 0xDEAD; 0xDEAD; 0xDEAD; 1; 2];
             4 := BDetail None]} 5 [] true.

Lemma cs_disasm_iter_all_witness :
  exists w', iterate scratch 9 1 toy_code 103 8 0x1000 2 iter_world =
      WRet (fst <$> decode_all scratch 9 (with_errnum ERR_OK iter_handle) toy_code 0 0 0 103 8 0x1000) w' /\
    dom (blocks w') = dom (blocks iter_world).
Proof.
  apply (cs_disasm_iter_all scratch toy_found 1 2 iter_handle (mk_insn 0 0 0 [] (Some 4)) toy_code 0 0 0 103 8 0x1000 9 iter_world).
  - constructor; [lia|reflexivity|reflexivity| |by eexists|].
    + intros d [= <-]. by exists None.
    + exists 3, [0xDEAD; 0xDEAD; 0xDEAD; 0xDEAD; 0xDEAD; 1; 2]. split_and!; [reflexivity|reflexivity|].
      intros op Ho. assert (op ∈ [0; 1; 2; 3; 4; 5; 6]) as Hin.
      { change last_id with 6 in Ho. rewrite !elem_of_cons. lia. }
      set_unfold in Hin. destruct_or!; subst; vm_compute; reflexivity.
  - intros _. split; [simpl; lia|]. by intros cb [=].
  - reflexivity.
  - lia.
  - lia.
Defined.
