(* ===== verification/DisasmCs.v ===== *)
(** Lilu's disassembler over Capstone: the rest of
    [src/Lilu/Lilu/Sources/kern_disasm.cpp], in the configuration with advanced
    disassembly ([LILU_ADVANCED_DISASSEMBLY]).  The theorems relate each
    operation to the reference disassembly of [CsThm.v] and show that it releases
    all it allocates. *)

From Stdlib Require Import ZArith Lia List Bool.
From stdpp Require Import prelude gmap.
From S2P Require Import Prelude McInst CsUtils Cs CsThm.

Open Scope Z_scope.
Open Scope w_scope.

(** ** Data *)

(** The object, with the static variable of [init]. *)
Record Disassembler := mk_dis {
  initialised : bool;
  handle : Z;
  capstoneInitialised : bool
}.

Definition MaxInstruction : Z := 15.
Definition X86_INS_CALL : Z := 56.
Definition X86_INS_JMP : Z := 266.
Definition X86_OP_INVALID : Z := 0.
Definition X86_OP_IMM : Z := 2.

(** One element of a signature: whether the argument of a call must be an
    immediate, and whether the address of this instruction is wanted. *)
Record DisasmSig := mk_sig { ins : Z; sub : bool; addr : bool }.

Section front.
Context {Hbe : backend} {Hfm : fresh_memory} {Hids : ids_indexed} (stack : MCInst) (fuel : nat).

(** ** Start and end *)

Definition init (detailed : bool) (d : Disassembler) : W (bool * Disassembler) :=
  if initialised d then wret (true, d)
  else
    let# err := (if capstoneInitialised d then wret ERR_OK else cs_option 0 (OPT_MEM true)) in
    if decide (err <> ERR_OK) then wret (false, d)
    else
      let# '(err, p) := cs_open CS_ARCH_X86 CS_MODE_64 in
      let hd := match p with Some v => v | None => handle d end in
      if decide (err <> ERR_OK) then wret (false, mk_dis false hd true)
      else
        let d := mk_dis true hd true in
        if detailed then
          let# err := cs_option hd (OPT_DETAIL CS_OPT_ON) in
          wret (bool_decide (err = ERR_OK), d)
        else wret (true, d).

Definition deinit (d : Disassembler) : W Disassembler :=
  if initialised d then
    let# '(_, hd) := cs_close (handle d) in
    wret (mk_dis false hd (capstoneInitialised d))
  else wret d.

(** ** Buffers *)

(** The number of instructions and the array; [None] when the fuel is used up. *)
Definition disasmBuf (d : Disassembler) (m : mem) (at_ size : Z) : W (option (Z * option Z)) :=
  let# o := cs_disasm stack fuel (handle d) m at_ size 0 0 in
  match o with
  | None => wret None
  | Some (insts, p) =>
      let result := match p with Some q => q | None => None end in
      let# err := cs_errno (handle d) in
      if decide (err <> ERR_OK) then
        match result with
        | Some t => cs_free (Some t) insts ;# wret (Some (0, None))
        | None => wret (Some (insts, None))
        end
      else wret (Some (insts, result))
  end.

(** The loop that adds sizes of the [n] instructions from [i] on. *)
Fixpoint add_sizes (n : nat) (result i min size : Z) : W Z :=
  match n with
  | O => wret size
  | S n' =>
      if size <? min then
        let# x := load_insn result i in
        add_sizes n' result (i + 1) min (u64 (size + isize x))
      else wret size
  end.

Definition instructionSize (d : Disassembler) (m : mem) (at_ min : Z) : W (option Z) :=
  let# o := disasmBuf d m at_ (u64 (min + MaxInstruction)) in
  match o with
  | None => wret None
  | Some (insts, Some t) =>
      let# size := add_sizes (Z.to_nat insts) t 0 min 0 in
      cs_free (Some t) insts ;#
      wret (Some (if min <=? size then size else 0))
  | Some (_, None) => wret (Some 0)
  end.

(** ** Searching *)

(** The frame of the four searches: [loop] over the array, which is freed. *)
Definition searching (d : Disassembler) (m : mem) (at_ lookup_size : Z) (loop : nat -> Z -> W Z) : W (option Z) :=
  let# o := disasmBuf d m at_ lookup_size in
  match o with
  | None => wret None
  | Some (n, result) =>
      if 0 <? n then
        match result with
        | Some t => let# a := loop (Z.to_nat n) t in cs_free (Some t) n ;# wret (Some a)
        | None => wstuck
        end
      else wret (Some 0)
  end.

Definition read_detail (p : Z) : W cs_detail := fun w =>
  match blocks w !! p with Some (BDetail (Some d)) => WRet d w | _ => WStuck end.

(** Calls and jumps with an immediate target; without details the search stops. *)
Fixpoint target_loop (which : Z) (at_ num : Z) (n : nat) (result i counter : Z) : W Z :=
  match n with
  | O => wret 0
  | S n' =>
      let# x := load_insn result i in
      if id x =? which then
        match idetail x with
        | None => wret 0
        | Some p =>
            let# dt := read_detail p in
            match operands dt with
            | [o] =>
                if o.1 =? X86_OP_IMM then
                  if u64 (counter + 1) =? num then wret (u64 (o.2 + at_))
                  else target_loop which at_ num n' result (i + 1) (u64 (counter + 1))
                else if counter =? num then wret 0 else target_loop which at_ num n' result (i + 1) counter
            | _ => if counter =? num then wret 0 else target_loop which at_ num n' result (i + 1) counter
            end
        end
      else if counter =? num then wret 0 else target_loop which at_ num n' result (i + 1) counter
  end.

Definition disasmNthSub (d : Disassembler) (m : mem) (at_ num lookup_size : Z) : W (option Z) :=
  searching d m at_ lookup_size (fun n t => target_loop X86_INS_CALL at_ num n t 0 0).
Definition disasmNthJmp (d : Disassembler) (m : mem) (at_ num lookup_size : Z) : W (option Z) :=
  searching d m at_ lookup_size (fun n t => target_loop X86_INS_JMP at_ num n t 0 0).

Fixpoint ins_loop (which at_ num : Z) (n : nat) (result i counter : Z) : W Z :=
  match n with
  | O => wret 0
  | S n' =>
      let# x := load_insn result i in
      let found := id x =? which in
      let counter := if found then u64 (counter + 1) else counter in
      if counter =? num then wret (if found then u64 (address x + at_) else 0)
      else ins_loop which at_ num n' result (i + 1) counter
  end.

Definition disasmNthIns (d : Disassembler) (m : mem) (at_ which num lookup_size : Z) : W (option Z) :=
  searching d m at_ lookup_size (fun n t => ins_loop which at_ num n t 0 0).

(** The inner loop of [disasmSig]: whether the elements from [j] on match, and
    the address that is needed so far. *)
Fixpoint sig_match (sg : list DisasmSig) (sig_count size result i j needed : Z) : W (bool * Z) :=
  match sg with
  | [] => wret (true, needed)
  | s :: sg' =>
      if size <? i + sig_count then wret (false, needed)
      else
        let# x := load_insn result (i + j) in
        if id x =? ins s then
          let# ok :=
            (if negb (ins s =? X86_INS_CALL) || negb (sub s) then wret true
             else
               match idetail x with
               | None => wstuck
               | Some p =>
                   let# dt := read_detail p in
                   wret (match operands dt with o :: _ => o.1 =? X86_OP_IMM | [] => X86_OP_INVALID =? X86_OP_IMM end)
               end) in
          if ok then sig_match sg' sig_count size result i (j + 1) (if addr s || (j =? 0) then address x else needed)
          else wret (false, needed)
        else wret (false, needed)
  end.

Fixpoint sig_loop (sg : list DisasmSig) (at_ num size : Z) (n : nat) (result i counter needed : Z) : W Z :=
  match n with
  | O => wret 0
  | S n' =>
      let# '(found, needed) := sig_match sg (Z.of_nat (length sg)) size result i 0 needed in
      let counter := if found then u64 (counter + 1) else counter in
      if counter =? num then wret (if found then u64 (needed + at_) else 0)
      else sig_loop sg at_ num size n' result (i + 1) counter needed
  end.

Definition disasmSig (d : Disassembler) (m : mem) (at_ : Z) (sg : list DisasmSig) (num lookup_size : Z)
    : W (option Z) :=
  searching d m at_ lookup_size (fun n t => sig_loop sg at_ num (Z.of_nat n) n t 0 0 0).

(** ** References *)

(** The [num]th of a list of offsets, from one on, as an address; or zero. *)
Definition pick (at_ num : Z) (l : list Z) : Z :=
  if 0 <? num then match l !! Z.to_nat (num - 1) with Some a => u64 (a + at_) | None => 0 end else 0.

(** The immediate targets of an instruction, up to one that has no details. *)
Fixpoint targets (which : Z) (vs : list view) : list Z :=
  match vs with
  | [] => []
  | (x, d) :: vs' =>
      if id x =? which then
        match d with
        | None => []
        | Some d =>
            match operands d with
            | [o] => if o.1 =? X86_OP_IMM then o.2 :: targets which vs' else targets which vs'
            | _ => targets which vs'
            end
        end
      else targets which vs'
  end.

Definition places (which : Z) (vs : list view) : list Z :=
  (fun v : view => address v.1) <$> filter (fun v : view => id v.1 = which) vs.

(** The address a signature without conditions on calls stands for here. *)
Fixpoint sig_at (sg : list DisasmSig) (vs : list view) (first : bool) (needed : Z) : option Z :=
  match sg, vs with
  | [], _ => Some needed
  | s :: sg', (x, _) :: vs' =>
      if id x =? ins s then sig_at sg' vs' false (if addr s || first then address x else needed) else None
  | _ :: _, [] => None
  end.

Fixpoint sites (sg : list DisasmSig) (vs : list view) : list Z :=
  match vs with
  | [] => []
  | _ :: vs' => match sig_at sg vs true 0 with Some a => a :: sites sg vs' | None => sites sg vs' end
  end.

(** The size of the shortest prefix of at least [min] bytes, or of everything. *)
Fixpoint cover (min size : Z) (vs : list view) : Z :=
  match vs with
  | [] => size
  | (x, _) :: vs' => if size <? min then cover min (size + isize x) vs' else size
  end.

(** What every operation promises: it ends; its answer is the value, or an
    allocation failed and it is zero and the handle has the error; and it
    releases what it allocated, but for the cache of ids, which is the handle's.
    A null pointer is only used after an allocation of details or of the cache
    failed. *)
Definition answered (d : Disassembler) (h : cs_struct) (w : world) (o : wout (option Z)) (value : Z) : Prop :=
  match o with
  | WRet (Some r) w' =>
      (r = value /\ left_over (handle d) ERR_OK h (blocks w) (blocks w')) \/
      (r = 0 /\ false ∈ answers w /\ left_over (handle d) ERR_MEM h (blocks w) (blocks w'))
  | WNull => may_crash h w
  | WRet None _ | WStuck => False
  end.

(** ** Loops over an array *)

Record array (t : Z) (vs : list view) (w : world) : Prop := mk_array {
  array_insns : blocks w !! t = Some (BInsns ((fun v : view => Some v.1) <$> vs));
  array_details : Forall (has_detail (blocks w)) vs
}.

Lemma array_load t vs w i v : array t vs w -> vs !! i = Some v -> load_insn t (Z.of_nat i) w = WRet v.1 w.
Proof using Type.
  intros [H _] E. unfold load_insn. rewrite H, (proj2 (Z.leb_le _ _)), Nat2Z.id by lia.
  assert (((fun v : view => Some v.1) <$> vs) !! i = Some (Some v.1)) as E'; [|by rewrite E'].
  by apply (list_lookup_fmap_Some_2 (fun v : view => Some v.1) vs i v).
Qed.

Lemma array_mid t pre v ys w :
  array t (pre ++ v :: ys) w -> load_insn t (Z.of_nat (length pre)) w = WRet v.1 w.
Proof using Type. intros H. apply (array_load t _ w _ v H). by rewrite list_lookup_middle. Qed.

Lemma array_detail t pre v ys w :
  array t (pre ++ v :: ys) w ->
  match idetail v.1 with
  | Some p => exists dt, read_detail p w = WRet dt w /\ v.2 = Some dt
  | None => v.2 = None
  end.
Proof using Type.
  intros [_ H]. apply Forall_app in H as [_ H]. apply Forall_cons in H as [H _]. unfold has_detail in H.
  destruct (idetail v.1) as [p|]; [|done]. destruct H as (dt & E & Hd). exists dt. unfold read_detail. by rewrite Hd.
Qed.

Lemma pick_cons at_ k a l :
  pick at_ k (a :: l) = if k =? 1 then u64 (a + at_) else pick at_ (k - 1) l.
Proof using Type.
  unfold pick. destruct (Z.eqb_spec k 1) as [->|]; [done|].
  destruct (Z.ltb_spec 0 k), (Z.ltb_spec 0 (k - 1)); try lia.
  replace (Z.to_nat (k - 1)) with (S (Z.to_nat (k - 1 - 1))) by lia. done.
Qed.

Lemma pick_nil at_ k : pick at_ k [] = 0.
Proof using Type. unfold pick. by destruct (0 <? k). Qed.

Lemma pick_stop at_ num counter l : counter = num -> pick at_ (num - counter) l = 0.
Proof using Type. intros ->. unfold pick. by rewrite Z.sub_diag. Qed.

(** The common steps of a loop at its next element. *)
Ltac next_elem H :=
  pose proof (array_mid _ _ _ _ _ H) as Hload; unfold wbind at 1; rewrite Hload; clear Hload;
  rewrite (cons_middle _ _ _), (assoc_L (++)) in H.

Lemma length_snoc_Z {A} (pre : list A) x : Z.of_nat (length pre) + 1 = Z.of_nat (length (pre ++ [x])).
Proof using Type. rewrite length_app. simpl. lia. Qed.

Lemma target_loop_spec t w which at_ num pre ys counter :
  array t (pre ++ ys) w -> 0 <= counter -> counter + Z.of_nat (length ys) < 2 ^ 64 ->
  target_loop which at_ num (length ys) t (Z.of_nat (length pre)) counter w =
  WRet (pick at_ (num - counter) (targets which (bare <$> ys))) w.
Proof using Type.
  revert pre counter. induction ys as [|v ys IH]; intros pre counter H Hc Hn; cbn [length target_loop fmap list_fmap targets].
  { by rewrite pick_nil. }
  pose proof H as H'. next_elem H'. rewrite (length_snoc_Z pre v).
  assert (forall k, k = counter \/ k = counter + 1 ->
    target_loop which at_ num (length ys) t (Z.of_nat (length (pre ++ [v]))) k w =
    WRet (pick at_ (num - k) (targets which (bare <$> ys))) w) as IH'.
  { intros k Hk. simpl in Hn. apply IH; [done|lia|lia]. }
  assert ((if counter =? num then wret 0 else target_loop which at_ num (length ys) t (Z.of_nat (length (pre ++ [v]))) counter) w
    = WRet (pick at_ (num - counter) (targets which (bare <$> ys))) w) as Hskip.
  { destruct (Z.eqb_spec counter num); [by rewrite pick_stop|]. by apply IH'; left. }
  change (bare v) with (strip v.1, v.2). cbn [strip id fst snd targets]. pose proof (array_detail _ _ _ _ _ H) as Hd.
  destruct (id v.1 =? which); [|done]. destruct (idetail v.1) as [p|] eqn:Ep.
  2: { rewrite Hd. by rewrite pick_nil. }
  destruct Hd as (dt & Er & ->).
  rewrite (wbind_ret _ _ _ _ _ Er). destruct (operands dt) as [|o [|]]; [done| |done].
  destruct (o.1 =? X86_OP_IMM); [|done]. rewrite pick_cons. simpl in Hn. rewrite wrap_small by lia.
  destruct (Z.eqb_spec (counter + 1) num), (Z.eqb_spec (num - counter) 1); try lia; [done|].
  rewrite IH' by auto. do 2 f_equal. lia.
Qed.

Lemma ins_loop_spec t w which at_ num pre ys counter :
  array t (pre ++ ys) w -> 0 <= counter -> counter + Z.of_nat (length ys) < 2 ^ 64 ->
  ins_loop which at_ num (length ys) t (Z.of_nat (length pre)) counter w =
  WRet (pick at_ (num - counter) (places which (bare <$> ys))) w.
Proof using Type.
  revert pre counter. induction ys as [|v ys IH]; intros pre counter H Hc Hn; cbn [length ins_loop fmap list_fmap].
  { unfold places. rewrite filter_nil. by rewrite pick_nil. }
  pose proof H as H'. next_elem H'. rewrite (length_snoc_Z pre v). unfold places. rewrite filter_cons. cbn [bare strip id fst].
  simpl in Hn. destruct (Z.eqb_spec (id v.1) which).
  - rewrite decide_True by done. cbn [fmap list_fmap]. rewrite pick_cons, wrap_small by lia. cbn [bare strip address fst].
    destruct (Z.eqb_spec (counter + 1) num), (Z.eqb_spec (num - counter) 1); try lia; [done|].
    rewrite IH by (done || lia). do 2 f_equal. lia.
  - rewrite decide_False by done. destruct (Z.eqb_spec counter num); [by rewrite pick_stop|].
    rewrite IH by (done || lia). done.
Qed.

Lemma sig_at_short sg vs first needed : (length vs < length sg)%nat -> sig_at sg vs first needed = None.
Proof using Type.
  revert vs first needed. induction sg as [|s sg IH]; intros [|[x dx] vs] first needed H; simpl in *; try done; try lia.
  destruct (id x =? ins s); [|done]. apply IH. lia.
Qed.

(** The first instruction sets the address. *)
Lemma sig_at_needed s sg vs n1 n2 : sig_at (s :: sg) vs true n1 = sig_at (s :: sg) vs true n2.
Proof using Type. destruct vs as [|[x dx] vs]; [done|]. simpl. by rewrite orb_true_r. Qed.

Lemma sig_match_spec t w sg done_ pre mid ys needed :
  array t (pre ++ mid ++ ys) w -> Forall (fun s => sub s = false) sg ->
  (length (mid ++ ys) >= length mid + length sg)%nat -> done_ = Z.of_nat (length mid + length sg) ->
  exists n', sig_match sg done_ (Z.of_nat (length (pre ++ mid ++ ys))) t (Z.of_nat (length pre)) (Z.of_nat (length mid))
      needed w = WRet (bool_decide (is_Some (sig_at sg (bare <$> ys) (bool_decide (mid = [])) needed)), n') w /\
    forall a, sig_at sg (bare <$> ys) (bool_decide (mid = [])) needed = Some a -> n' = a.
Proof using Type.
  intros H Hs. revert mid ys needed H. induction Hs as [|s sg Hs _ IH]; intros mid ys needed H Hl ->; cbn [sig_match sig_at].
  { exists needed. split; [done|]. by intros a [= ->]. }
  rewrite (proj2 (Z.ltb_ge _ _)) by (rewrite !length_app in *; simpl in *; lia).
  destruct ys as [|x ys]; [rewrite length_app in Hl; simpl in Hl; lia|].
  pose proof H as H'. rewrite (assoc_L (++)) in H'.
  pose proof (array_mid _ _ _ _ _ H') as Hload. rewrite length_app, Nat2Z.inj_add in Hload.
  unfold wbind at 1. rewrite Hload. cbn [fmap list_fmap]. change (bare x) with (strip x.1, x.2). cbn [strip id address].
  destruct (id x.1 =? ins s); [|exists needed; by split].
  unfold wbind. rewrite Hs, orb_true_r. cbn [wret].
  assert (bool_decide (mid ++ [x] = []) = false) as Ef by (apply bool_decide_eq_false; by destruct mid).
  specialize (IH (mid ++ [x]) ys (if addr s || (Z.of_nat (length mid) =? 0) then address x.1 else needed)).
  rewrite Ef, <- (length_snoc_Z mid x), <- !(assoc_L (++)) in IH. simpl in IH.
  assert ((Z.of_nat (length mid) =? 0) = bool_decide (mid = [])) as Eb.
  { destruct mid; [done|]. rewrite bool_decide_eq_false_2 by done. simpl. lia. }
  rewrite <- Eb. destruct IH as (n' & E & Hn'); [done|rewrite !length_app in *; simpl in *; lia|rewrite !length_app; simpl; lia|].
  exists n'. split; [|done]. rewrite <- E. f_equal.
Qed.

Lemma sig_loop_spec t w sg at_ num pre ys counter needed :
  array t (pre ++ ys) w -> Forall (fun s => sub s = false) sg -> (sg = [] -> needed = 0) ->
  0 <= counter -> counter + Z.of_nat (length ys) < 2 ^ 64 ->
  sig_loop sg at_ num (Z.of_nat (length (pre ++ ys))) (length ys) t (Z.of_nat (length pre)) counter needed w =
  WRet (pick at_ (num - counter) (sites sg (bare <$> ys))) w.
Proof using Type.
  intros H Hs. revert pre counter needed H.
  induction ys as [|x ys IH]; intros pre counter needed H Hnd Hc Hn; cbn [length sig_loop]; [by rewrite pick_nil|].
  assert (exists n', sig_match sg (Z.of_nat (length sg)) (Z.of_nat (length (pre ++ x :: ys))) t (Z.of_nat (length pre)) 0 needed w
    = WRet (bool_decide (is_Some (sig_at sg (bare <$> x :: ys) true 0)), n') w /\
    (sg = [] -> n' = 0) /\ forall a, sig_at sg (bare <$> x :: ys) true 0 = Some a -> n' = a) as (n' & E & Hn0 & Ha).
  { assert (sig_at sg (bare <$> x :: ys) true needed = sig_at sg (bare <$> x :: ys) true 0) as En.
    { destruct sg as [|s sg]; [by rewrite Hnd|apply sig_at_needed]. }
    destruct (decide (length (x :: ys) < length sg)%nat) as [Hlt|].
    - destruct sg as [|s sg]; [simpl in Hlt; lia|]. rewrite sig_at_short by (by rewrite length_fmap).
      cbn [sig_match]. rewrite (proj2 (Z.ltb_lt _ _)) by (rewrite length_app; lia). by exists needed.
    - destruct (sig_match_spec t w sg (Z.of_nat (length sg)) pre [] (x :: ys) needed) as (n' & E & Ha); [done|done|simpl in *; lia|done|].
      rewrite (bool_decide_eq_true_2 (@nil view = [])), En in E, Ha by done. exists n'. split; [exact E|]. split; [|done].
      intros ->. by apply Ha. }
  unfold wbind. rewrite E. rewrite (cons_middle _ _ _), (assoc_L (++)) in H. rewrite (length_snoc_Z pre x).
  rewrite (cons_middle x pre ys), (assoc_L (++)). cbn [sites fmap list_fmap] in *. simpl in Hn.
  destruct (sig_at sg (bare x :: (bare <$> ys)) true 0) as [a|].
  - rewrite bool_decide_eq_true_2 by (by eexists). rewrite (Ha a eq_refl), pick_cons, wrap_small by lia.
    destruct (Z.eqb_spec (counter + 1) num), (Z.eqb_spec (num - counter) 1); try lia; [done|].
    rewrite IH; [do 2 f_equal; lia|done| |lia|lia]. intros ->. by rewrite <- (Ha a eq_refl), Hn0.
  - rewrite bool_decide_eq_false_2 by (by intros []). destruct (Z.eqb_spec counter num); [by rewrite pick_stop|].
    by rewrite IH by (done || lia).
Qed.

Lemma add_sizes_spec t w min pre ys size :
  array t (pre ++ ys) w -> Forall (fun v : view => 0 <= isize v.1 <= 16) ys -> 0 <= size < min + 16 -> min < 2 ^ 63 ->
  add_sizes (length ys) t (Z.of_nat (length pre)) min size w = WRet (cover min size (bare <$> ys)) w.
Proof using Type.
  intros H Hs. revert pre size H. induction Hs as [|x ys Hx _ IH]; intros pre size H Hz Hm; [done|].
  cbn [length add_sizes fmap list_fmap]. change (bare x) with (strip x.1, x.2). cbn [cover strip isize]. destruct (Z.ltb_spec size min); [|done].
  next_elem H. rewrite (length_snoc_Z pre x), wrap_small by lia. apply IH; [done|lia|lia].
Qed.

Lemma disasmBuf_spec d h m at_ size w :
  opened (handle d) h w -> skip_ok h -> 0 <= size < 2 ^ 28 -> size < Z.of_nat fuel ->
  let spec := decode_all stack fuel (with_errnum ERR_OK h) m at_ size 0 at_ size 0 in
  (disasmBuf d m at_ size w = WNull /\ may_crash h w) \/
  exists n r w', disasmBuf d m at_ size w = WRet (Some (n, r)) w' /\
    ((false ∈ answers w /\ n = 0 /\ r = None /\ left_over (handle d) ERR_MEM h (blocks w) (blocks w')) \/
     (spec = [] /\ n = 0 /\ r = None /\ left_over (handle d) ERR_OK h (blocks w) (blocks w')) \/
     (exists t vs w'', spec <> [] /\ n = Z.of_nat (length vs) /\ r = Some t /\ bare <$> vs = spec /\ array t vs w' /\
        cs_free (Some t) n w' = WRet tt w'' /\ left_over (handle d) ERR_OK h (blocks w) (blocks w''))).
Proof using Hids.
  intros Ho Hs Hsz Hf spec. unfold disasmBuf.
  destruct (cs_disasm_spec stack (handle d) h m at_ size 0 0 fuel w Ho Hs Hsz Hf) as [[E Hc]|(n & p & w1 & E & _ & _ & HR)].
  { left. unfold wbind at 1. by rewrite E. }
  right. rewrite (wbind_ret _ _ _ _ _ E). pose proof (opened_handle _ _ _ Ho) as Hh.
  assert (handle d <> 0) as Hne by (apply (opened_wf _ _ _ Ho) in Hh; lia).
  assert (forall e B, left_over (handle d) e h B (blocks w1) -> cs_errno (handle d) w1 = WRet e w1) as Herr.
  { intros e B HB. unfold cs_errno, wbind, load_handle. rewrite (proj2 (Z.eqb_neq _ _)) by done.
    destruct HB as [-> |(_ & q & c & _ & _ & ->)]; unfold set_err; by rewrite lookup_insert_eq. }
  destruct HR as [(Hans & -> & Hp & HB)|[(Hnil & -> & -> & HB)|(t & vs & w2 & hb & Hx & -> & -> & Hxs & Ht & Hd & Hud & He & Hfree & _ & _ & HB)]].
  - rewrite (wbind_ret _ _ _ _ _ (Herr _ _ HB)). exists 0, None, w1. split; [|by left]. by destruct Hp as [-> | ->].
  - rewrite (wbind_ret _ _ _ _ _ (Herr _ _ HB)). exists 0, None, w1. split; [done|]. right. by left.
  - rewrite (wbind_ret _ _ _ ERR_OK w1).
    2: { unfold cs_errno. rewrite (proj2 (Z.eqb_neq _ _)) by done. unfold wbind, load_handle. by rewrite Hud, He. }
    eexists _, _, w1. split; [done|]. right. right. exists t, vs, w2.
    assert (spec = bare <$> vs) as -> by done. split_and!; try done; [by destruct vs|by rewrite <- Hxs, length_fmap].
Qed.

(** ** The reference disassembly in numbers *)

Lemma decode_one_size h m o s f code size off x n :
  skip_ok h -> decode_one stack h m o s f code size off = Some (x, n) ->
  0 < n <= size /\ 0 < isize x.1 <= 16 /\ isize x.1 <= n.
Proof using Type.
  intros Hs. unfold decode_one. destruct (disasm _ _ _ _ _ _) as [[[k i] dt]|] eqn:E.
  { apply disasm_size in E. intros [= <- <-]. cbn [fill_insn isize fst]. lia. }
  destruct (skip _ _ _ _ _ _) as [k|] eqn:Es; [|done]. apply skip_range in Es; [|done].
  intros [= <- <-]. cbn [isize fst]. rewrite wrap_small by lia. lia.
Qed.

Lemma decode_all_size n h m o s f code size off :
  skip_ok h -> 0 <= size ->
  let l := decode_all stack n h m o s f code size off in
  Z.of_nat (length l) <= size /\ Forall (fun v : view => 0 < isize v.1 <= 16) l.
Proof using Type.
  intros Hs. revert code size off. induction n as [|n IH]; intros code size off Hz; cbn [decode_all].
  { split; [simpl; lia|constructor]. }
  destruct (0 <? size); [|split; [simpl; lia|constructor]].
  destruct (decode_one _ _ _ _ _ _ _ _ _) as [[x k]|] eqn:E; [|split; [simpl; lia|constructor]].
  apply decode_one_size in E as (Hk & Hx & _); [|done].
  destruct (IH (code + k) (size - k) (u64 (off + k))) as [Hl HF]; [lia|].
  split; [simpl length; lia|by constructor].
Qed.

(** What an operation needs: an open handle and memory in order. *)
Record in_order (d : Disassembler) (h : cs_struct) (w : world) : Prop := mk_in_order {
  in_order_opened : opened (handle d) h w;
  in_order_skip : skip_ok h
}.

(** The instructions and details that an operation is about. *)
Definition reference (h : cs_struct) (m : mem) (at_ size : Z) : list view :=
  decode_all stack fuel (with_errnum ERR_OK h) m at_ size 0 at_ size 0.

Lemma reference_array h m at_ size vs :
  skip_ok h -> 0 <= size -> bare <$> vs = reference h m at_ size ->
  Z.of_nat (length vs) <= size /\ Forall (fun v : view => 0 <= isize v.1 <= 16) vs.
Proof using Type.
  intros Hs Hz E. destruct (decode_all_size fuel (with_errnum ERR_OK h) m at_ size 0 at_ size 0 Hs Hz) as [Hl HF].
  unfold reference in E. rewrite <- E in Hl, HF. rewrite length_fmap in Hl. split; [done|].
  apply Forall_fmap in HF. eapply Forall_impl; [exact HF|]. cbn. lia.
Qed.

Lemma searching_spec d h m at_ size w loop ref :
  in_order d h w -> 0 <= size < 2 ^ 28 -> size < Z.of_nat fuel -> ref [] = 0 ->
  (forall t vs w', array t vs w' -> Z.of_nat (length vs) < 2 ^ 64 ->
     loop (length vs) t w' = WRet (ref (bare <$> vs)) w') ->
  answered d h w (searching d m at_ size loop w) (ref (reference h m at_ size)).
Proof using Hids.
  intros [Ho Hs] Hz Hf H0 Hloop. unfold searching.
  destruct (disasmBuf_spec d h m at_ size w Ho Hs Hz Hf) as [[E Hc]|(n & r & w1 & E & HR)].
  { unfold wbind. by rewrite E. }
  rewrite (wbind_ret _ _ _ _ _ E).
  destruct HR as [(Ha & -> & -> & HB)|[(Hnil & -> & -> & HB)|(t & vs & w2 & Hne & -> & -> & Hxs & Harr & Hfree & HB)]].
  - right. by split_and!.
  - left. split; [|done]. unfold reference. by rewrite Hnil.
  - destruct (reference_array h m at_ size vs Hs ltac:(lia) Hxs) as [Hl _].
    destruct vs as [|v vs]; [by rewrite <- Hxs in Hne|]. set (l := v :: vs) in *.
    rewrite (proj2 (Z.ltb_lt _ _)) by (unfold l; simpl; lia). rewrite Nat2Z.id.
    rewrite (wbind_ret _ _ _ _ _ (Hloop t l w1 Harr ltac:(lia))), (wbind_ret _ _ _ _ _ Hfree).
    left. split; [|done]. unfold reference. by rewrite <- Hxs.
Qed.
End front.

Arguments reference {Hbe Hfm} stack fuel h m at_ size.

(** ** Theorems *)

(** C38: with an open handle that skips at most 16 bytes of data at a time (or none),
    a back end none of whose opcodes is looked up outside of the table of ids (any,
    if new memory is cleared) and fewer than 2^28 bytes to look at, the searches for
    the [num]th call or jump give the immediate operand of the [num]th such
    instruction of the reference disassembly that has one, and the search for the
    [num]th instruction of a kind its offset, as an address: with the address of
    the code added; zero when there are fewer.  They end; if an allocation failed
    the answer may be zero with the error in the handle, and if it was one of
    details or of the cache, which are not checked, a null pointer may be used;
    nothing is left allocated but the handle's cache of ids. *)
Theorem disasm_searches_correct {Hbe : backend} {Hfm : fresh_memory} {Hids : ids_indexed} stack fuel d h m at_ num which size w :
  in_order d h w -> 0 <= size < 2 ^ 28 -> size < Z.of_nat fuel ->
  let spec := reference stack fuel h m at_ size in
  answered d h w (disasmNthSub stack fuel d m at_ num size w) (pick at_ num (targets X86_INS_CALL spec)) /\
  answered d h w (disasmNthJmp stack fuel d m at_ num size w) (pick at_ num (targets X86_INS_JMP spec)) /\
  answered d h w (disasmNthIns stack fuel d m at_ which num size w) (pick at_ num (places which spec)).
Proof.
  intros Hu Hz Hf spec. unfold disasmNthSub, disasmNthJmp, disasmNthIns. split_and!.
  - apply (searching_spec stack fuel d h m at_ size w _ (fun vs => pick at_ num (targets X86_INS_CALL vs)));
      [done..|by rewrite pick_nil|]. intros t vs w' Ha Hl.
    rewrite <- (Z.sub_0_r num) at 2. by apply (target_loop_spec t w' _ at_ num [] vs 0).
  - apply (searching_spec stack fuel d h m at_ size w _ (fun vs => pick at_ num (targets X86_INS_JMP vs)));
      [done..|by rewrite pick_nil|]. intros t vs w' Ha Hl.
    rewrite <- (Z.sub_0_r num) at 2. by apply (target_loop_spec t w' _ at_ num [] vs 0).
  - apply (searching_spec stack fuel d h m at_ size w _ (fun vs => pick at_ num (places which vs)));
      [done..|by rewrite pick_nil|]. intros t vs w' Ha Hl.
    rewrite <- (Z.sub_0_r num) at 2. by apply (ins_loop_spec t w' which at_ num [] vs 0).
Qed.

(** A signature without conditions on calls is found at its [num]th
    occurrence; the address is that of the last instruction marked in it, or of
    the first. *)
Theorem disasmSig_correct {Hbe : backend} {Hfm : fresh_memory} {Hids : ids_indexed} stack fuel d h m at_ sg num size w :
  in_order d h w -> 0 <= size < 2 ^ 28 -> size < Z.of_nat fuel -> Forall (fun s => sub s = false) sg ->
  answered d h w (disasmSig stack fuel d m at_ sg num size w)
    (pick at_ num (sites sg (reference stack fuel h m at_ size))).
Proof.
  intros Hu Hz Hf Hs. unfold disasmSig.
  apply (searching_spec stack fuel d h m at_ size w _ (fun vs => pick at_ num (sites sg vs))); [done..|by rewrite pick_nil|].
  intros t vs w' Ha Hl. rewrite <- (Z.sub_0_r num) at 2. by apply (sig_loop_spec t w' sg at_ num [] vs 0 0).
Qed.

Lemma cover_bounds min size vs :
  Forall (fun v : view => 0 < isize v.1 <= 16) vs -> size < min + 16 ->
  size <= cover min size vs < min + 16.
Proof.
  intros HF. revert size. induction HF as [|[x dx] vs Hx _ IH]; intros size Hs; cbn [cover]; [lia|].
  destruct (Z.ltb_spec size min); [|lia]. simpl in Hx. specialize (IH (size + isize x)). lia.
Qed.

(** [instructionSize] gives the size of the shortest run of instructions of
    the reference disassembly that has [min] bytes, less than sixteen more, or
    zero when there are too few; nothing but the cache stays allocated. *)
Theorem instructionSize_correct {Hbe : backend} {Hfm : fresh_memory} {Hids : ids_indexed} stack fuel d h m at_ min w :
  in_order d h w -> 0 <= min -> min + MaxInstruction < 2 ^ 28 -> min + MaxInstruction < Z.of_nat fuel ->
  let c := cover min 0 (reference stack fuel h m at_ (min + MaxInstruction)) in
  c < min + 16 /\ answered d h w (instructionSize stack fuel d m at_ min w) (if min <=? c then c else 0).
Proof.
  intros [Ho Hs] Hm Hz Hf c. assert (MaxInstruction = 15) as HM by done. split.
  { apply cover_bounds; [|lia]. by apply decode_all_size; [|lia]. }
  unfold instructionSize. rewrite wrap_small by lia.
  destruct (disasmBuf_spec stack fuel d h m at_ (min + MaxInstruction) w Ho Hs ltac:(lia) Hf) as [[E Hc]|(n & r & w1 & E & HR)].
  { unfold wbind. by rewrite E. }
  rewrite (wbind_ret _ _ _ _ _ E). unfold c, reference.
  destruct HR as [(Ha & -> & -> & HB)|[(Hnil & -> & -> & HB)|(t & vs & w2 & Hne & -> & -> & Hxs & Harr & Hfree & HB)]].
  - right. by split_and!.
  - left. split; [|done]. rewrite Hnil. cbn. by destruct (min <=? 0).
  - destruct (reference_array stack fuel h m at_ (min + MaxInstruction) vs Hs ltac:(lia) Hxs) as [Hl HF].
    pose proof (add_sizes_spec t w1 min [] vs 0 Harr HF ltac:(lia) ltac:(lia)) as Ea.
    change (Z.of_nat (@length view [])) with 0 in Ea.
    rewrite Nat2Z.id, (wbind_ret _ _ _ _ _ Ea), (wbind_ret _ _ _ _ _ Hfree).
    left. split; [|done]. by rewrite <- Hxs.
Qed.

(** ** Concrete runs *)

#[local] Existing Instances toy dead_memory toy_indexed.

Definition run_dis : Disassembler := mk_dis true 1 true.

Lemma run_in_order skipping ans : in_order run_dis (run_handle skipping) (run_world skipping ans).
Proof. constructor; [apply run_world_opened|apply run_handle_skip_ok]. Qed.

(** The call at offset 2 of the code goes to 0x24 from its start. *)
Lemma disasm_searches_correct_witness :
  let spec := reference scratch 11 (run_handle false) toy_code 103 10 in
  let w := run_world false [] in
  pick 103 1 (targets X86_INS_CALL spec) = 103 + 0x24 /\ pick 103 3 (places 7 spec) = 103 + 4 /\
  answered run_dis (run_handle false) w (disasmNthSub scratch 11 run_dis toy_code 103 1 10 w)
    (pick 103 1 (targets X86_INS_CALL spec)) /\
  answered run_dis (run_handle false) w (disasmNthJmp scratch 11 run_dis toy_code 103 1 10 w)
    (pick 103 1 (targets X86_INS_JMP spec)) /\
  answered run_dis (run_handle false) w (disasmNthIns scratch 11 run_dis toy_code 103 7 1 10 w)
    (pick 103 1 (places 7 spec)).
Proof.
  split; [vm_compute; reflexivity|]. split; [vm_compute; reflexivity|].
  apply (disasm_searches_correct scratch 11 run_dis (run_handle false) toy_code 103 1 7 10 (run_world false []));
    [apply run_in_order|lia|lia].
Defined.

Example disasmNthSub_run :
  match disasmNthSub scratch 11 run_dis toy_code 103 1 10 (run_world false []) with
  | WRet (Some r) _ => r = 103 + 0x24
  | _ => False
  end.
Proof. vm_compute. reflexivity. Qed.

Lemma disasmSig_correct_witness :
  answered run_dis (run_handle false) (run_world false [true; false])
    (disasmSig scratch 11 run_dis toy_code 103 [mk_sig 7 false false; mk_sig 7 false true] 2 10 (run_world false [true; false]))
    (pick 103 2 (sites [mk_sig 7 false false; mk_sig 7 false true] (reference scratch 11 (run_handle false) toy_code 103 10))).
Proof.
  apply (disasmSig_correct scratch 11 run_dis (run_handle false) toy_code 103 [mk_sig 7 false false; mk_sig 7 false true] 2 10
           (run_world false [true; false])); [apply run_in_order|lia|lia|].
  repeat constructor.
Defined.

Lemma instructionSize_correct_witness :
  let c := cover 5 0 (reference scratch 21 (run_handle false) toy_code 103 (5 + MaxInstruction)) in
  c < 5 + 16 /\
  answered run_dis (run_handle false) (run_world false []) (instructionSize scratch 21 run_dis toy_code 103 5 (run_world false []))
    (if 5 <=? c then c else 0).
Proof.
  apply (instructionSize_correct scratch 21 run_dis (run_handle false) toy_code 103 5 (run_world false []));
    [apply run_in_order|lia|unfold MaxInstruction; lia|unfold MaxInstruction; lia].
Defined.
