(* ===== verification/Lzss.v ===== *)
(** LZSS of Lilu ([src/Lilu/Lilu/Sources/kern_compression.cpp]): the decoder, the
    encoder with its binary search trees.

    An array is a function of the index; every access is checked against the
    length the source declares.  The source is read as a list of bytes, and the
    destination is the list of bytes written so far: the two buffers do not
    overlap.  Indices, characters and lengths are far from the limits of [int]. *)

From Stdlib Require Import ZArith Lia List Bool.
From stdpp Require Import prelude.
From S2P Require Import Prelude.

Open Scope Z_scope.

(** ** Data *)

Definition RBSIZE : Z := 4096.
Definition UPLIM : Z := 18.
Definition THRESHOLD : Z := 2.
Definition NIL : Z := RBSIZE.

Definition arr : Type := Z -> Z.

Definition aget (n : Z) (a : arr) (i : Z) : res Z :=
  if (0 <=? i) && (i <? n) then Ok (a i) else Fault.
Definition upd (a : arr) (i v : Z) : arr := fun j => if j =? i then v else a j.
Definition aset (n : Z) (a : arr) (i v : Z) : res arr :=
  if (0 <=? i) && (i <? n) then Ok (upd a i v) else Fault.

(** [for (i = lo; i < hi; i++) a[i] = v]. *)
Definition fill (a : arr) (lo hi v : Z) : arr := fun i => if (lo <=? i) && (i <? hi) then v else a i.

Record encode_state := mk_es {
  lchild : arr;
  rchild : arr;
  parent : arr;
  text_buf : arr;
  match_position : Z;
  match_length : Z
}.

(** The lengths of the arrays. *)
Definition n_lchild : Z := RBSIZE + 1.
Definition n_rchild : Z := RBSIZE + 257.
Definition n_parent : Z := RBSIZE + 1.
Definition n_text : Z := RBSIZE + UPLIM - 1.

Definition set_lchild (sp : encode_state) (i v : Z) : res encode_state :=
  let! a := aset n_lchild (lchild sp) i v in
  Ok (mk_es a (rchild sp) (parent sp) (text_buf sp) (match_position sp) (match_length sp)).
Definition set_rchild (sp : encode_state) (i v : Z) : res encode_state :=
  let! a := aset n_rchild (rchild sp) i v in
  Ok (mk_es (lchild sp) a (parent sp) (text_buf sp) (match_position sp) (match_length sp)).
Definition set_parent (sp : encode_state) (i v : Z) : res encode_state :=
  let! a := aset n_parent (parent sp) i v in
  Ok (mk_es (lchild sp) (rchild sp) a (text_buf sp) (match_position sp) (match_length sp)).
Definition set_text (sp : encode_state) (i v : Z) : res encode_state :=
  let! a := aset n_text (text_buf sp) i v in
  Ok (mk_es (lchild sp) (rchild sp) (parent sp) a (match_position sp) (match_length sp)).
Definition set_match (sp : encode_state) (pos len : Z) : encode_state :=
  mk_es (lchild sp) (rchild sp) (parent sp) (text_buf sp) pos len.

Definition get_lchild (sp : encode_state) (i : Z) : res Z := aget n_lchild (lchild sp) i.
Definition get_rchild (sp : encode_state) (i : Z) : res Z := aget n_rchild (rchild sp) i.
Definition get_parent (sp : encode_state) (i : Z) : res Z := aget n_parent (parent sp) i.
Definition get_text (sp : encode_state) (i : Z) : res Z := aget n_text (text_buf sp) i.

(** ** The decoder *)

(** The loop that copies a match: [k] characters from [i] on, to [r]; a full
    destination ends it. *)
Fixpoint copy_loop (k : nat) (dstlen i : Z) (text : arr) (r : Z) (dst : list Z) : res (arr * Z * list Z) :=
  match k with
  | O => Ok (text, r, dst)
  | S k' =>
      let! c := aget n_text text (i .& (RBSIZE - 1)) in
      if Z.of_nat (length dst) <? dstlen then
        let! text := aset n_text text r c in
        copy_loop k' dstlen (i + 1) text ((r + 1) .& (RBSIZE - 1)) (dst ++ [c])
      else Ok (text, r, dst)
  end.

(** One round with the flag in the lowest bit of [flags]; [rest] is the loop. *)
Definition decode_unit (rest : arr -> Z -> list Z -> list Z -> res (list Z)) (dstlen flags : Z)
    (text : arr) (r : Z) (src dst : list Z) : res (list Z) :=
  if truth (flags .& 1) then
    match src with
    | [] => Ok dst
    | c :: src =>
        if Z.of_nat (length dst) <? dstlen then
          let! text := aset n_text text r c in
          rest text ((r + 1) .& (RBSIZE - 1)) src (dst ++ [c])
        else Ok dst
    end
  else
    match src with
    | i :: j :: src =>
        let i := i .| ((j .& 0xF0) .<< 4) in
        let j := (j .& 0x0F) + THRESHOLD in
        let! '(text, r, dst) := copy_loop (Z.to_nat (j + 1)) dstlen i text r dst in
        rest text r src dst
    | _ => Ok dst
    end.

(** The main loop; [src] and [dst] are what is left and what is written. *)
Fixpoint decode_loop (fuel : nat) (dstlen flags : Z) (text : arr) (r : Z) (src dst : list Z) : res (list Z) :=
  match fuel with
  | O => NoFuel
  | S f =>
      let flags := flags .>> 1 in
      if (flags .& 0x100) =? 0 then
        match src with
        | [] => Ok dst
        | c :: src => let flags := c .| 0xFF00 in decode_unit (decode_loop f dstlen flags) dstlen flags text r src dst
        end
      else decode_unit (decode_loop f dstlen flags) dstlen flags text r src dst
  end.

(** [junk]: what the local buffer holds before it is filled.  Every round reads
    a byte of the source, or ends. *)
Definition decompress_lzss (junk : arr) (dstlen : Z) (src : list Z) : res (list Z) :=
  decode_loop (S (length src)) dstlen 0 (fill junk 0 (RBSIZE - UPLIM) 32) (RBSIZE - UPLIM) src [].

(** ** The search trees *)

Definition init_state : encode_state :=
  mk_es (fun _ => 0) (fill (fun _ => 0) (RBSIZE + 1) (RBSIZE + 256 + 1) NIL)
    (fill (fun _ => 0) 0 RBSIZE NIL) (fill (fun _ => 0) 0 (RBSIZE - UPLIM) 32) 0 0.

(** The comparison of the keys at [r] and [p] from [i] on: where they differ, and
    the last difference. *)
Fixpoint compare_loop (k : nat) (sp : encode_state) (r p i cmp : Z) : res (Z * Z) :=
  match k with
  | O => Ok (i, cmp)
  | S k' =>
      let! a := get_text sp (r + i) in
      let! b := get_text sp (p + i) in
      let cmp := a - b in
      if truth cmp then Ok (i, cmp) else compare_loop k' sp r p (i + 1) cmp
  end.

(** The descent of [insert_node]: the node was hung up, or its key is equal to
    the one at a node, which it replaces. *)
Fixpoint insert_loop (fuel : nat) (sp : encode_state) (r p cmp : Z) : res (encode_state * option Z) :=
  match fuel with
  | O => NoFuel
  | S f =>
      let! c := (if 0 <=? cmp then get_rchild sp p else get_lchild sp p) in
      if negb (c =? NIL) then
        let p := c in
        let! '(i, cmp) := compare_loop (Z.to_nat (UPLIM - 1)) sp r p 1 cmp in
        if match_length sp <? i then
          let sp := set_match sp p i in
          if UPLIM <=? i then Ok (sp, Some p) else insert_loop f sp r p cmp
        else insert_loop f sp r p cmp
      else
        let! sp := (if 0 <=? cmp then set_rchild sp p r else set_lchild sp p r) in
        let! sp := set_parent sp r p in
        Ok (sp, None)
  end.

(** Node [r] takes the place of [p]. *)
Definition replace_node (sp : encode_state) (r p : Z) : res encode_state :=
  let! v := get_parent sp p in let! sp := set_parent sp r v in
  let! v := get_lchild sp p in let! sp := set_lchild sp r v in
  let! v := get_rchild sp p in let! sp := set_rchild sp r v in
  let! v := get_lchild sp p in let! sp := set_parent sp v r in
  let! v := get_rchild sp p in let! sp := set_parent sp v r in
  let! q := get_parent sp p in
  let! v := get_rchild sp q in
  let! sp := (if v =? p then set_rchild sp q r else set_lchild sp q r) in
  set_parent sp p NIL.

(** A descent visits every node at most once. *)
Definition insert_node (sp : encode_state) (r : Z) : res encode_state :=
  let! k := get_text sp r in
  let p := RBSIZE + 1 + k in
  let! sp := set_lchild sp r NIL in
  let! sp := set_rchild sp r NIL in
  let sp := set_match sp (match_position sp) 0 in
  let! '(sp, o) := insert_loop (S (Z.to_nat RBSIZE)) sp r p 1 in
  match o with
  | None => Ok sp
  | Some p => replace_node sp r p
  end.

(** [do q = rchild[q]; while (rchild[q] != NIL)]. *)
Fixpoint rightmost (fuel : nat) (sp : encode_state) (q : Z) : res Z :=
  match fuel with
  | O => NoFuel
  | S f =>
      let! q := get_rchild sp q in
      let! v := get_rchild sp q in
      if negb (v =? NIL) then rightmost f sp q else Ok q
  end.

(** The node with two children: [q] is the one that takes its place. *)
Definition delete_inner (sp : encode_state) (p : Z) : res (encode_state * Z) :=
  let! q := get_lchild sp p in
  let! v := get_rchild sp q in
  let! '(sp, q) :=
    (if negb (v =? NIL) then
       let! q := rightmost (Z.to_nat RBSIZE) sp q in
       let! pq := get_parent sp q in
       let! v := get_lchild sp q in let! sp := set_rchild sp pq v in
       let! v := get_lchild sp q in let! w := get_parent sp q in let! sp := set_parent sp v w in
       let! v := get_lchild sp p in let! sp := set_lchild sp q v in
       let! v := get_lchild sp p in let! sp := set_parent sp v q in
       Ok (sp, q)
     else Ok (sp, q)) in
  let! v := get_rchild sp p in let! sp := set_rchild sp q v in
  let! v := get_rchild sp p in let! sp := set_parent sp v q in
  Ok (sp, q).

(** Node [q], or nothing, takes the place of [p]. *)
Definition relink (sp : encode_state) (p q : Z) : res encode_state :=
  let! v := get_parent sp p in let! sp := set_parent sp q v in
  let! pp := get_parent sp p in
  let! v := get_rchild sp pp in
  let! sp := (if v =? p then set_rchild sp pp q else set_lchild sp pp q) in
  set_parent sp p NIL.

Definition delete_node (sp : encode_state) (p : Z) : res encode_state :=
  let! v := get_parent sp p in
  if v =? NIL then Ok sp
  else
    let! rc := get_rchild sp p in
    let! '(sp, q) :=
      (if rc =? NIL then let! q := get_lchild sp p in Ok (sp, q)
       else
         let! lc := get_lchild sp p in
         if lc =? NIL then Ok (sp, rc) else delete_inner sp p) in
    relink sp p q.

(** ** The encoder *)

(** The codes that wait to be sent. *)
Record code := mk_code {
  code_buf : arr;
  code_buf_ptr : Z;
  mask : Z
}.
Definition n_code : Z := 17.
Definition no_code (a : arr) : code := mk_code (upd a 0 0) 1 1.

(** [text_buf[r + len] = *src++] for at most [k] bytes. *)
Fixpoint read_first (k : nat) (sp : encode_state) (r len : Z) (src : list Z) : res (encode_state * Z * list Z) :=
  match k, src with
  | S k', c :: src' => let! sp := set_text sp (r + len) c in read_first k' sp r (len + 1) src'
  | _, _ => Ok (sp, len, src)
  end.

(** [insert_node(sp, r - i)] for [k] values of [i]. *)
Fixpoint insert_first (k : nat) (sp : encode_state) (r i : Z) : res encode_state :=
  match k with
  | O => Ok sp
  | S k' => let! sp := insert_node sp (r - i) in insert_first k' sp r (i + 1)
  end.

(** One unit of code for the match found, whose length is returned in the state. *)
Definition emit_unit (sp : encode_state) (r len : Z) (b : code) : res (encode_state * code) :=
  let sp := if len <? match_length sp then set_match sp (match_position sp) len else sp in
  if match_length sp <=? THRESHOLD then
    let sp := set_match sp (match_position sp) 1 in
    let! f := aget n_code (code_buf b) 0 in
    let! a := aset n_code (code_buf b) 0 (u8 (f .| mask b)) in
    let! c := get_text sp r in
    let! a := aset n_code a (code_buf_ptr b) c in
    Ok (sp, mk_code a (code_buf_ptr b + 1) (mask b))
  else
    let! a := aset n_code (code_buf b) (code_buf_ptr b) (u8 (match_position sp)) in
    let! a := aset n_code a (code_buf_ptr b + 1)
                (u8 (((match_position sp .>> 4) .& 0xF0) .| (match_length sp - (THRESHOLD + 1)))) in
    Ok (sp, mk_code a (code_buf_ptr b + 2) (mask b)).

(** The encoder gives up, with null for its result, when the destination is full;
    the bytes written until then stay there. *)
Inductive sent (A : Type) := Sent (a : A) | Null (dst : list Z).
Arguments Sent {A} a.
Arguments Null {A} dst.

(** [*dst++ = code_buf[i]] for [k] bytes from [i] on. *)
Fixpoint send (k : nat) (dstlen : Z) (b : code) (i : Z) (dst : list Z) : res (sent (list Z)) :=
  match k with
  | O => Ok (Sent dst)
  | S k' =>
      if Z.of_nat (length dst) <? dstlen then
        let! c := aget n_code (code_buf b) i in
        send k' dstlen b (i + 1) (dst ++ [c])
      else Ok (Null dst)
  end.

(** The next bit of the mask; eight units are sent together. *)
Definition shift_mask (dstlen : Z) (b : code) (dst : list Z) : res (sent (code * list Z)) :=
  let mk := u8 (mask b .<< 1) in
  if mk =? 0 then
    let! o := send (Z.to_nat (code_buf_ptr b)) dstlen b 0 dst in
    match o with
    | Sent dst => Ok (Sent (no_code (code_buf b), dst))
    | Null dst => Ok (Null dst)
    end
  else Ok (Sent (mk_code (code_buf b) (code_buf_ptr b) mk, dst)).

(** Old strings leave and new bytes come in, at most [k]; the number that is left
    of [k] when the source ends. *)
Fixpoint slide (k : nat) (sp : encode_state) (s r : Z) (src : list Z) : res (encode_state * Z * Z * list Z * nat) :=
  match k, src with
  | S k', c :: src' =>
      let! sp := delete_node sp s in
      let! sp := set_text sp s c in
      let! sp := (if s <? UPLIM - 1 then set_text sp (s + RBSIZE) c else Ok sp) in
      let s := (s + 1) .& (RBSIZE - 1) in
      let r := (r + 1) .& (RBSIZE - 1) in
      let! sp := insert_node sp r in
      slide k' sp s r src'
  | _, _ => Ok (sp, s, r, src, k)
  end.

(** After the end of the text. *)
Fixpoint drain (k : nat) (sp : encode_state) (s r len : Z) : res (encode_state * Z * Z * Z) :=
  match k with
  | O => Ok (sp, s, r, len)
  | S k' =>
      let! sp := delete_node sp s in
      let s := (s + 1) .& (RBSIZE - 1) in
      let r := (r + 1) .& (RBSIZE - 1) in
      let len := len - 1 in
      let! sp := (if truth len then insert_node sp r else Ok sp) in
      drain k' sp s r len
  end.

Fixpoint encode_loop (fuel : nat) (dstlen : Z) (sp : encode_state) (s r len : Z) (src : list Z) (b : code)
    (dst : list Z) : res (sent (code * list Z)) :=
  match fuel with
  | O => NoFuel
  | S f =>
      let! '(sp, b) := emit_unit sp r len b in
      let! o := shift_mask dstlen b dst in
      match o with
      | Null dst => Ok (Null dst)
      | Sent (b, dst) =>
          let! '(sp, s, r, src, k) := slide (Z.to_nat (match_length sp)) sp s r src in
          let! '(sp, s, r, len) := drain k sp s r len in
          if 0 <? len then encode_loop f dstlen sp s r len src b dst else Ok (Sent (b, dst))
      end
  end.

(** [memory]: whether the state can be allocated; [junk]: the local code buffer.
    The result is the bytes written, and whether it is null. *)
Definition compress_lzss (memory : bool) (junk : arr) (dstlen : Z) (src : list Z) : res (sent (list Z)) :=
  if negb memory then Ok (Null [])
  else
    let sp := init_state in
    let b := no_code junk in
    let s := 0 in
    let r := RBSIZE - UPLIM in
    let n := length src in
    let! '(sp, len, src) := read_first (Z.to_nat UPLIM) sp r 0 src in
    if negb (truth len) then Ok (Null [])
    else
      let! sp := insert_first (Z.to_nat UPLIM) sp r 1 in
      let! sp := insert_node sp r in
      let! o := encode_loop n dstlen sp s r len src b [] in
      match o with
      | Null dst => Ok (Null dst)
      | Sent (b, dst) =>
          if 1 <? code_buf_ptr b then send (Z.to_nat (code_buf_ptr b)) dstlen b 0 dst else Ok (Sent dst)
      end.

Example lzss_small :
  compress_lzss true (fun _ => 7) 100 [97; 98; 99; 97; 98; 99; 97; 98; 99; 100] =
  Ok (Sent [23; 97; 98; 99; 238; 243; 100]).
Proof. vm_compute. reflexivity. Qed.
