(* ===== verification/LzssTree.v ===== *)
(** The search trees of the LZSS encoder ([Lzss.v]): the arrays [lchild], [rchild]
    and [parent] hold a forest of 256 trees, which [insert_node] and [delete_node]
    keep, whatever the order of the keys.  Their loops end, their accesses are
    inside of the arrays, and what [insert_node] reports is a match. *)

From Stdlib Require Import ZArith Lia List Bool.
From stdpp Require Import prelude.
From S2P Require Import Prelude Lzss.

Open Scope Z_scope.

(** ** Trees in arrays *)

Inductive tree := Leaf | Node (l : tree) (p : Z) (r : tree).

Fixpoint nodes (t : tree) : list Z :=
  match t with
  | Leaf => []
  | Node l p r => p :: nodes l ++ nodes r
  end.

(** The place of a subtree: the left or right child of a node; the roots are the
    right children of the numbers from [RBSIZE + 1] on. *)
Definition slot : Type := bool * Z.

Definition get (sp : encode_state) (s : slot) : Z := if s.1 then rchild sp s.2 else lchild sp s.2.

Fixpoint holds (sp : encode_state) (s : slot) (t : tree) : Prop :=
  match t with
  | Leaf => get sp s = NIL
  | Node l p r =>
      get sp s = p /\ 0 <= p < RBSIZE /\ parent sp p = s.2 /\ holds sp (false, p) l /\ holds sp (true, p) r
  end.

Lemma holds_range sp s t x : holds sp s t -> x ∈ nodes t -> 0 <= x < RBSIZE.
Proof.
  revert s. induction t as [|l IHl p r IHr]; intros s; simpl; [set_solver|].
  intros (_ & Hp & _ & Hl & Hr) [-> | [Hx|Hx]%elem_of_app]%elem_of_cons; eauto.
Qed.

(** A node by the side of one of its children. *)
Definition node (d : bool) (a : tree) (p : Z) (b : tree) : tree :=
  if d then Node b p a else Node a p b.

Lemma nodes_node d a p b : nodes (node d a p b) ≡ₚ p :: nodes a ++ nodes b.
Proof. destruct d; simpl; [by rewrite (Permutation_app_comm (nodes b))|done]. Qed.

Lemma holds_node sp s d a p b :
  holds sp s (node d a p b) <->
  get sp s = p /\ 0 <= p < RBSIZE /\ parent sp p = s.2 /\ holds sp (d, p) a /\ holds sp (negb d, p) b.
Proof. destruct d; simpl; tauto. Qed.

Lemma holds_root sp s t x : holds sp s t -> x ∈ nodes t -> get sp s ∈ nodes t /\ parent sp (get sp s) = s.2.
Proof. destruct t as [|l p r]; simpl; [set_solver|]. intros (-> & _ & -> & _) _. set_solver. Qed.

(** Moving a tree to another slot changes the parent of its root only. *)
Lemma holds_move sp sp' s s' t :
  holds sp s t -> NoDup (nodes t) -> get sp' s' = get sp s ->
  (forall x d, x ∈ nodes t -> get sp' (d, x) = get sp (d, x)) ->
  (forall x, x ∈ nodes t -> x <> get sp s -> parent sp' x = parent sp x) ->
  (get sp s ∈ nodes t -> parent sp' (get sp s) = s'.2) ->
  holds sp' s' t.
Proof.
  revert s s'. induction t as [|l IHl p r IHr]; intros s s'; simpl; [congruence|].
  intros (Hg & Hp & Hpar & Hl & Hr) [Hnp [Hnl [Hd Hnr]]%NoDup_app]%NoDup_cons Hs Hc Hps Hroot. rewrite Hg in *.
  assert (forall d t', holds sp (d, p) t' -> (forall x, x ∈ nodes t' -> x ∈ nodes l ++ nodes r) -> NoDup (nodes t') ->
    (forall s1 s2, holds sp s1 t' -> NoDup (nodes t') -> get sp' s2 = get sp s1 ->
       (forall x d, x ∈ nodes t' -> get sp' (d, x) = get sp (d, x)) ->
       (forall x, x ∈ nodes t' -> x <> get sp s1 -> parent sp' x = parent sp x) ->
       (get sp s1 ∈ nodes t' -> parent sp' (get sp s1) = s2.2) -> holds sp' s2 t') ->
    holds sp' (d, p) t') as Hchild.
  { intros d t' H Hsub Hn IH.
    assert (forall x, x ∈ nodes t' -> parent sp' x = parent sp x) as Hpx.
    { intros x Hx. apply Hps; [set_solver|]. intros ->. by apply Hnp, Hsub. }
    apply (IH (d, p)); [done|done|apply Hc; set_solver|intros; apply Hc; set_solver|auto|].
    intros Hx. rewrite Hpx by done. by destruct (holds_root _ _ _ _ H Hx). }
  split; [done|]. split; [done|]. split; [apply Hroot; set_solver|].
  split; eapply Hchild; eauto; set_solver.
Qed.

Lemma holds_frame sp sp' s t :
  holds sp s t -> NoDup (nodes t) -> get sp' s = get sp s ->
  (forall x, x ∈ nodes t -> parent sp' x = parent sp x) ->
  (forall x d, x ∈ nodes t -> get sp' (d, x) = get sp (d, x)) ->
  holds sp' s t.
Proof.
  intros H Hn Hg Hx Hc. apply (holds_move sp sp' s s t); auto.
  intros Hd. rewrite Hx by done. by destruct (holds_root _ _ _ _ H Hd).
Qed.

(** ** Subtrees *)

(** [sub s t s' t' rest]: below the tree [t] at [s] is the tree [t'] at [s'];
    [rest] are the other nodes. *)
Inductive sub : slot -> tree -> slot -> tree -> list Z -> Prop :=
  | sub_here s t : sub s t s t []
  | sub_down s d a p b s' t' rest :
      sub (d, p) a s' t' rest -> sub s (node d a p b) s' t' (p :: nodes b ++ rest).

Lemma sub_nodes s t s' t' rest : sub s t s' t' rest -> nodes t ≡ₚ nodes t' ++ rest.
Proof.
  induction 1 as [| s d a p b s' t' rest _ IH]; [by rewrite app_nil_r|].
  rewrite nodes_node, IH. solve_Permutation.
Qed.

Lemma sub_holds s t s' t' rest sp : sub s t s' t' rest -> holds sp s t -> holds sp s' t'.
Proof. induction 1 as [| s d a p b s' t' rest _ IH]; [done|]. rewrite holds_node. tauto. Qed.

Lemma sub_owner s t s' t' rest : sub s t s' t' rest -> (s' = s /\ rest = []) \/ s'.2 ∈ rest.
Proof.
  induction 1 as [| s d a p b s' t' rest _ IH]; [by left|right].
  destruct IH as [[-> ->]|?]; simpl; set_solver.
Qed.

Lemma sub_find s t p : p ∈ nodes t -> exists s' l r rest, sub s t s' (Node l p r) rest.
Proof.
  revert s. induction t as [|l IHl q r IHr]; intros s; simpl; [set_solver|].
  intros [-> | [Hx|Hx]%elem_of_app]%elem_of_cons.
  - exists s, l, r, []. constructor.
  - destruct (IHl (false, q) Hx) as (s' & l' & r' & rest & H). eexists _, _, _, _. by apply (sub_down s false).
  - destruct (IHr (true, q) Hx) as (s' & l' & r' & rest & H). eexists _, _, _, _. by apply (sub_down s true).
Qed.

(** Another tree in the place of a subtree. *)
Lemma sub_rebuild s t s' t' rest sp sp' t2 :
  sub s t s' t' rest -> NoDup (s.2 :: nodes t) -> holds sp s t -> holds sp' s' t2 ->
  (forall x, x ∈ rest -> parent sp' x = parent sp x) ->
  (forall x d, x ∈ rest -> (d, x) <> s' -> get sp' (d, x) = get sp (d, x)) ->
  (s <> s' -> get sp' s = get sp s) ->
  exists t2', holds sp' s t2' /\ nodes t2' ≡ₚ nodes t2 ++ rest.
Proof.
  induction 1 as [s t | s d a p b s' t' rest Hsub IH]; intros Hnd H H2 Hpar Hget Hs.
  { exists t2. by rewrite app_nil_r. }
  rewrite nodes_node in Hnd. apply holds_node in H as (Hg & Hp & Hpp & Ha & Hb).
  pose proof (sub_nodes _ _ _ _ _ Hsub) as Hperm. pose proof (sub_owner _ _ _ _ _ Hsub) as Hown. simpl in Hown.
  apply NoDup_cons in Hnd as [Hns [Hnp [Hna [Hdis Hnb]]%NoDup_app]%NoDup_cons].
  assert (forall x, x ∈ rest -> x ∈ nodes a) as Hra by (intros x Hx; rewrite Hperm; set_solver).
  assert (s'.2 = p \/ s'.2 ∈ nodes a) as Hos by (destruct Hown as [[-> _]|?]; [by left|right; auto]).
  destruct IH as (t2' & Ht2 & Hn2); [constructor; set_solver|done|done|set_solver|set_solver|intros; apply Hget; set_solver|].
  exists (node d t2' p b). split; [|rewrite nodes_node, Hn2; solve_Permutation].
  apply holds_node. split; [|split; [done|split; [|split; [done|]]]].
  - rewrite <- Hg. apply Hs. intros <-. set_solver.
  - by rewrite Hpar by set_solver.
  - apply (holds_frame sp); [done|done| |intros; apply Hpar; set_solver|].
    + apply Hget; [set_solver|]. intros <-. destruct Hown as [[E _]|Hx]; [by destruct d|]. simpl in Hx. set_solver.
    + intros x d' Hx. apply Hget; [set_solver|]. intros <-. simpl in Hos. destruct Hos as [->|?]; [set_solver|].
      by apply (Hdis x).
Qed.

(** ** Writing to the arrays *)

Definition put_child (s : slot) (v : Z) (sp : encode_state) : encode_state :=
  if s.1 then mk_es (lchild sp) (upd (rchild sp) s.2 v) (parent sp) (text_buf sp) (match_position sp) (match_length sp)
  else mk_es (upd (lchild sp) s.2 v) (rchild sp) (parent sp) (text_buf sp) (match_position sp) (match_length sp).
Definition put_parent (i v : Z) (sp : encode_state) : encode_state :=
  mk_es (lchild sp) (rchild sp) (upd (parent sp) i v) (text_buf sp) (match_position sp) (match_length sp).

(** The slots whose owners are in the arrays. *)
Definition valid (s : slot) : Prop := 0 <= s.2 < RBSIZE \/ s.1 = true /\ RBSIZE < s.2 < n_rchild.

Lemma get_put_child s v sp s2 : get (put_child s v sp) s2 = if decide (s2 = s) then v else get sp s2.
Proof.
  destruct s as [[] x], s2 as [[] y]; unfold get, put_child, upd; simpl; try done;
    destruct (Z.eqb_spec y x), (decide _); congruence.
Qed.
Lemma parent_put_child s v sp : parent (put_child s v sp) = parent sp.
Proof. by destruct s as [[] x]. Qed.
Lemma get_put_parent i v sp s : get (put_parent i v sp) s = get sp s.
Proof. done. Qed.
Lemma parent_put_parent i v sp x : parent (put_parent i v sp) x = if decide (x = i) then v else parent sp x.
Proof. simpl. unfold upd. destruct (Z.eqb_spec x i), (decide _); congruence. Qed.

Lemma set_child_ok s v sp :
  valid s -> (if s.1 then set_rchild sp s.2 v else set_lchild sp s.2 v) = Ok (put_child s v sp).
Proof.
  unfold valid, set_rchild, set_lchild, aset, put_child, n_lchild, n_rchild, RBSIZE. destruct s as [[] x]; simpl; intros H;
    rewrite (proj2 (Z.leb_le _ _)), (proj2 (Z.ltb_lt _ _)) by (destruct H as [?|[]]; try done; lia); done.
Qed.
Lemma set_rchild_ok sp x v : valid (true, x) -> set_rchild sp x v = Ok (put_child (true, x) v sp).
Proof. apply (set_child_ok (true, x)). Qed.
Lemma set_lchild_ok sp x v : valid (false, x) -> set_lchild sp x v = Ok (put_child (false, x) v sp).
Proof. apply (set_child_ok (false, x)). Qed.
Lemma set_parent_ok sp x v : 0 <= x <= NIL -> set_parent sp x v = Ok (put_parent x v sp).
Proof.
  intros H. unfold set_parent, aset, n_parent, NIL in *.
  by rewrite (proj2 (Z.leb_le _ _)), (proj2 (Z.ltb_lt _ _)) by lia.
Qed.
Lemma get_rchild_ok sp x : valid (true, x) -> get_rchild sp x = Ok (get sp (true, x)).
Proof.
  unfold valid, get_rchild, aget, n_rchild, RBSIZE. simpl. intros H.
  by rewrite (proj2 (Z.leb_le _ _)), (proj2 (Z.ltb_lt _ _)) by lia.
Qed.
Lemma get_lchild_ok sp x : valid (false, x) -> get_lchild sp x = Ok (get sp (false, x)).
Proof.
  unfold valid, get_lchild, aget, n_lchild, RBSIZE. simpl. intros H.
  by rewrite (proj2 (Z.leb_le _ _)), (proj2 (Z.ltb_lt _ _)) by (destruct H as [?|[]]; [lia|done]).
Qed.
Lemma get_parent_ok sp x : 0 <= x <= NIL -> get_parent sp x = Ok (parent sp x).
Proof.
  intros H. unfold get_parent, aget, n_parent, NIL in *.
  by rewrite (proj2 (Z.leb_le _ _)), (proj2 (Z.ltb_lt _ _)) by lia.
Qed.

(** The code that finds the side of a node with its parent. *)
Lemma set_side_ok sp s p v :
  valid s -> get sp s = p -> (s.1 = false -> get sp (true, s.2) <> p) ->
  (if get sp (true, s.2) =? p then set_rchild sp s.2 v else set_lchild sp s.2 v) = Ok (put_child s v sp).
Proof.
  intros Hv Hg Hs. rewrite <- set_child_ok by done. destruct s as [[] q]; simpl in *.
  - by rewrite (proj2 (Z.eqb_eq _ _)).
  - by rewrite (proj2 (Z.eqb_neq _ _)) by auto.
Qed.

Lemma holds_get sp s t : holds sp s t -> 0 <= get sp s <= NIL /\ (get sp s ∈ nodes t \/ t = Leaf /\ get sp s = NIL).
Proof. destruct t; simpl; unfold NIL; [intros ->; unfold RBSIZE; auto with lia|]. intros (-> & ? & _). set_solver by lia. Qed.

Lemma holds_get_ne sp s t y : holds sp s t -> y ∉ nodes t -> y <> NIL -> get sp s <> y.
Proof. intros H Hy Hn E. destruct (holds_get _ _ _ H) as [_ [?|[_ ?]]]; congruence. Qed.

Lemma valid_node d x : 0 <= x < RBSIZE -> valid (d, x).
Proof. by left. Qed.

Lemma valid_right s : valid s -> valid (true, s.2).
Proof. intros [?|[_ ?]]; [by left|by right]. Qed.

(** What a change below a slot leaves alone. *)
Record local (N : list Z) (s : slot) (sp sp' : encode_state) : Prop := mk_local {
  local_text : text_buf sp' = text_buf sp;
  local_match : match_position sp' = match_position sp /\ match_length sp' = match_length sp;
  local_parent x : x ∉ N -> x <> NIL -> parent sp' x = parent sp x;
  local_get d x : x ∉ N -> (d, x) <> s -> get sp' (d, x) = get sp (d, x)
}.

(** Reads and writes of a state of [put]s. *)
Ltac ne := solve [congruence | intros <-; simpl in *; congruence | intros ->; simpl in *; congruence | lia].
Ltac puts := repeat first
  [ rewrite get_put_parent | rewrite parent_put_child
  | rewrite get_put_child; first [rewrite decide_True by congruence | rewrite decide_False by ne]
  | rewrite parent_put_parent; first [rewrite decide_True by congruence | rewrite decide_False by ne] ].

(** Runs the code up to the next access that is not known to be inside. *)
Ltac run := repeat (first
  [ rewrite get_parent_ok by (done || unfold NIL; lia) | rewrite set_parent_ok by (done || unfold NIL; lia)
  | rewrite get_lchild_ok by (by apply valid_node) | rewrite set_lchild_ok by (by apply valid_node)
  | rewrite get_rchild_ok by (done || by apply valid_node) | rewrite set_rchild_ok by (done || by apply valid_node) ];
  cbn [rbind]; puts).

Lemma replace_node_spec sp s l p b r :
  holds sp s (Node l p b) -> valid s -> NoDup (s.2 :: r :: nodes (Node l p b)) -> 0 <= r < RBSIZE ->
  (s.1 = false -> get sp (true, s.2) <> p) ->
  exists sp', replace_node sp r p = Ok sp' /\ holds sp' s (Node l r b) /\
    local (p :: r :: nodes l ++ nodes b) s sp sp' /\ parent sp' p = NIL.
Proof.
  intros (Hg & Hp & Hpar & Hl & Hb) Hv Hnd Hr Hside. simpl in Hnd.
  pose proof (holds_get _ _ _ Hl) as [Hlc Hlin]. pose proof (holds_get _ _ _ Hb) as [Hbc Hbin].
  apply NoDup_cons in Hnd as [Hns [Hnr [Hnp [Hnl [Hdis Hnb]]%NoDup_app]%NoDup_cons]%NoDup_cons].
  assert (p <> r) as Hpr by set_solver. assert (s.2 <> p /\ s.2 <> r) as [Hsp Hsr] by set_solver.
  assert (0 <= r <= NIL /\ 0 <= p <= NIL /\ r <> NIL /\ p <> NIL) as (Hr' & Hp' & HrN & HpN) by (unfold NIL; lia).
  assert (get sp (false, p) <> p /\ get sp (false, p) <> r /\ get sp (true, p) <> p /\ get sp (true, p) <> r)
    as (L1 & L2 & B1 & B2).
  { split_and!; (eapply holds_get_ne; [done| |done]); set_solver. }
  unfold replace_node. run. rewrite Hpar, get_rchild_ok by (by apply valid_right). cbn [rbind].
  rewrite (set_side_ok _ s p); [|done|by puts|by puts]. cbn [rbind]. run.
  eexists. split; [reflexivity|].
  assert (forall x, x ∈ nodes l ++ nodes b -> x <> r /\ x <> p /\ x <> s.2 /\ x <> NIL) as Hx.
  { intros x Hx. assert (0 <= x < RBSIZE).
    { apply elem_of_app in Hx as [Hx|Hx]; [eapply holds_range, Hx; exact Hl|eapply holds_range, Hx; exact Hb]. }
    split_and!; [set_solver..|unfold NIL; lia]. }
  split; [|split].
  - cbn [holds]. puts. split; [done|]. split; [done|]. split; [done|]. split.
    + apply (holds_move sp _ (false, p)); [exact Hl|done|by puts| | |].
      * intros x d H. destruct (Hx x) as (? & ? & ? & ?); [set_solver|]. by puts.
      * intros x H Hroot. destruct (Hx x) as (? & ? & ? & ?); [set_solver|].
        assert (get sp (true, p) <> x) by (eapply holds_get_ne; [exact Hb|auto|done]). by puts.
      * intros H. assert (get sp (true, p) <> get sp (false, p)).
        { eapply holds_get_ne; [exact Hb|auto|]. by apply Hx; set_solver. } by puts.
    + apply (holds_move sp _ (true, p)); [exact Hb|done|by puts| | |].
      * intros x d H. destruct (Hx x) as (? & ? & ? & ?); [set_solver|]. by puts.
      * intros x H Hroot. destruct (Hx x) as (? & ? & ? & ?); [set_solver|].
        assert (get sp (false, p) <> x) by (eapply holds_get_ne; [exact Hl|intros ?; by apply (Hdis x)|done]). by puts.
      * intros H. by puts.
  - constructor; [by destruct s as [[] q]|by destruct s as [[] q]| |].
    + intros x H1 H2. 
      assert (get sp (false, p) <> x) by (eapply holds_get_ne; [exact Hl|set_solver|done]).
      assert (get sp (true, p) <> x) by (eapply holds_get_ne; [exact Hb|set_solver|done]).
      assert (x <> r /\ x <> p) as [? ?] by set_solver. by puts.
    + intros d x H1 H2. assert (x <> r /\ x <> p) as [? ?] by set_solver. by puts.
  - by puts.
Qed.

(** ** Deleting a node *)

(** A tree at its root, whatever the root hangs on. *)
Definition rooted (sp : encode_state) (q : Z) (t : tree) : Prop :=
  match t with
  | Leaf => q = NIL
  | Node l p r => q = p /\ 0 <= p < RBSIZE /\ holds sp (false, p) l /\ holds sp (true, p) r
  end.

Lemma holds_rooted sp s t : holds sp s t -> rooted sp (get sp s) t.
Proof. destruct t; simpl; tauto. Qed.

Lemma local_refl N s sp : local N s sp sp.
Proof. by constructor. Qed.

Lemma local_trans N1 N2 s1 s2 N s sp1 sp2 sp3 :
  local N1 s1 sp1 sp2 -> local N2 s2 sp2 sp3 ->
  (forall x, x ∈ N1 \/ x ∈ N2 -> x ∈ N) -> (s1 = s \/ s1.2 ∈ N) -> (s2 = s \/ s2.2 ∈ N) ->
  local N s sp1 sp3.
Proof.
  intros [T1 [M1 M1'] P1 G1] [T2 [M2 M2'] P2 G2] HN H1 H2. constructor.
  - congruence.
  - split; congruence.
  - intros x Hx Hn. rewrite P2, P1; auto.
  - intros d x Hx Hs. rewrite G2, G1; auto.
    + intros <-. by destruct H1.
    + intros <-. by destruct H2.
Qed.

Lemma holds_local N s sp sp' s0 t0 :
  local N s sp sp' -> holds sp s0 t0 -> NoDup (nodes t0) -> s0 <> s -> s0.2 ∉ N ->
  (forall x, x ∈ nodes t0 -> x ∉ N /\ x <> s.2) -> holds sp' s0 t0.
Proof.
  intros [_ _ HP HG] H Hn Hs HsN Hx. apply (holds_frame sp); [done|done| | |].
  - destruct s0 as [d x]. by apply HG.
  - intros x H1. destruct (Hx x H1) as [H2 _]. apply HP; [done|]. pose proof (holds_range _ _ _ _ H H1). unfold NIL. lia.
  - intros x d H1. destruct (Hx x H1) as [H2 H3]. apply HG; [done|]. intros <-. done.
Qed.

(** The subtree at [s0] is hung up at [s1]. *)
Definition adopt (s0 s1 : slot) (sp : encode_state) : encode_state :=
  put_parent (get sp s0) s1.2 (put_child s1 (get sp s0) sp).

Lemma adopt_spec sp s0 s1 t :
  holds sp s0 t -> NoDup (s1.2 :: nodes t) ->
  holds (adopt s0 s1 sp) s1 t /\ local (nodes t) s1 sp (adopt s0 s1 sp).
Proof.
  intros H [Hs Hn]%NoDup_cons. unfold adopt. split.
  - apply (holds_move sp _ s0); [done|done|by puts| | |].
    + intros x d Hx. assert ((d, x) <> s1) by (intros <-; done). by puts.
    + intros x Hx Hne. by puts.
    + intros _. by puts.
  - constructor; [by destruct s1 as [[] q]|by destruct s1 as [[] q]| |].
    + intros x Hx HxN. pose proof (holds_get_ne _ _ _ x H Hx HxN). by puts.
    + intros d x Hx Hne. by puts.
Qed.

Lemma relink_spec sp s p q t :
  rooted sp q t -> valid s -> get sp s = p -> 0 <= p < RBSIZE -> parent sp p = s.2 ->
  NoDup (s.2 :: p :: nodes t) -> (s.1 = false -> get sp (true, s.2) <> p) ->
  exists sp', relink sp p q = Ok sp' /\ holds sp' s t /\ local (p :: nodes t) s sp sp' /\ parent sp' p = NIL.
Proof.
  intros Ht Hv Hg Hp Hpar Hnd Hside.
  apply NoDup_cons in Hnd as [Hns [Hnp Hnt]%NoDup_cons].
  assert (0 <= q <= NIL /\ q <> p) as [Hq Hqp].
  { destruct t as [|l x b]; simpl in Ht; [subst; unfold NIL, RBSIZE in *; lia|].
    destruct Ht as (-> & ? & _). split; [unfold NIL; lia|]. set_solver. }
  assert (0 <= p <= NIL) as Hp' by (unfold NIL; lia).
  assert (s.2 <> p) by set_solver.
  unfold relink. run. rewrite Hpar, get_rchild_ok by (by apply valid_right). cbn [rbind].
  rewrite (set_side_ok _ s p); [|done|by puts|by puts]. cbn [rbind]. run.
  eexists. split; [reflexivity|]. split; [|split].
  - destruct t as [|l x b]; simpl in Ht; [subst; cbn [holds]; by puts|]. destruct Ht as (-> & Hx & Hl & Hb).
    simpl in Hns, Hnp, Hnt. apply NoDup_cons in Hnt as [Hnx [Hnl [Hdis Hnb]]%NoDup_app].
    cbn [holds]. puts. split; [done|]. split; [done|]. split; [done|].
    assert (forall d t', holds sp (d, x) t' -> NoDup (nodes t') -> (forall y, y ∈ nodes t' -> y ∈ nodes l ++ nodes b) ->
      holds (put_parent p NIL (put_child s x (put_parent x s.2 sp))) (d, x) t') as Hsub.
    { intros d t' H' Hn' Hin. apply (holds_frame sp); [done|done| | |].
      - assert ((d, x) <> s) by (intros <-; set_solver). by puts.
      - intros y Hy%Hin. assert (y <> x /\ y <> p) as [? ?] by set_solver. by puts.
      - intros y d' Hy%Hin. assert ((d', y) <> s) by (intros <-; set_solver). by puts. }
    split; apply Hsub; auto; set_solver.
  - constructor; [by destruct s as [[] y]|by destruct s as [[] y]| |].
    + intros x H1 H2. assert (x <> p) by set_solver.
      assert (x <> q) by (destruct t; simpl in Ht; [congruence|destruct Ht as (-> & _); set_solver]). by puts.
    + intros d x H1 H2. by puts.
  - by puts.
Qed.

Lemma rightmost_spec sp fuel x c :
  holds sp (true, x) c -> 0 <= x < RBSIZE -> c <> Leaf -> (length (nodes c) <= fuel)%nat ->
  exists q s' ql rest, rightmost fuel sp x = Ok q /\ sub (true, x) c s' (Node ql q Leaf) rest /\ s'.1 = true.
Proof.
  revert fuel x. induction c as [|l _ q r IH]; intros fuel x H Hx Hne Hf; [done|].
  destruct fuel as [|fuel]; [simpl in Hf; lia|]. destruct H as (Hg & Hq & _ & Hl & Hr). cbn [rightmost].
  run. rewrite Hg. run. destruct (Z.eqb_spec (get sp (true, q)) NIL) as [E|E]; cbn [negb].
  - assert (r = Leaf) as ->.
    { destruct r as [|? y ?]; [done|]. destruct Hr as (Hy & Hr & _). unfold NIL in E. lia. }
    exists q, (true, x), l, []. split; [done|]. split; [constructor|done].
  - destruct (IH fuel q) as (q' & s' & ql & rest & -> & Hsub & Hs'); [done|done| |simpl in Hf; rewrite length_app in Hf; lia|].
    { intros ->. simpl in Hr. by apply E. }
    exists q', s', ql, (q :: nodes l ++ rest). split; [done|]. split; [|done]. by apply (sub_down (true, x) true).
Qed.

(** The last step of [delete_inner]: [q] with [l'] on its left takes the right
    subtree [b] of [p]. *)
Lemma adopt_right sp p q l' b :
  holds sp (false, q) l' -> holds sp (true, p) b -> 0 <= p < RBSIZE -> 0 <= q < RBSIZE ->
  NoDup (p :: q :: nodes l' ++ nodes b) ->
  rooted (adopt (true, p) (true, q) sp) q (Node l' q b) /\ local (nodes b) (true, q) sp (adopt (true, p) (true, q) sp).
Proof.
  intros Hl Hb Hp Hq [Hnp [Hnq [Hnl [Hdis Hnb]]%NoDup_app]%NoDup_cons]%NoDup_cons.
  destruct (adopt_spec sp (true, p) (true, q) b) as [Hb' Hloc]; [done|constructor; set_solver|].
  split; [|done]. simpl. split_and!; try done; try lia.
  eapply holds_local; [exact Hloc|done|done|done|set_solver|]. intros x Hx. split; [auto|]. intros ->. set_solver.
Qed.

(** The middle steps: the last node [q] of the left subtree leaves its place and
    takes the rest of it. *)
Lemma adopt_left sp p q s' ql rest l :
  holds sp (false, p) l -> 0 <= p < RBSIZE -> NoDup (p :: nodes l) ->
  sub (false, p) l s' (Node ql q Leaf) rest -> s'.1 = true ->
  let sp1 := adopt (false, q) s' sp in
  let sp2 := adopt (false, p) (false, q) sp1 in
  exists l', holds sp2 (false, q) l' /\ nodes l ≡ₚ q :: nodes l' /\ s'.2 ∈ nodes l /\
    local (nodes l) (false, q) sp sp2.
Proof.
  intros Hl Hp Hnd Hsub Hs' sp1 sp2. pose proof (sub_holds _ _ _ _ _ _ Hsub Hl) as (Hg & Hq & Hpq & Hql & _).
  pose proof (sub_nodes _ _ _ _ _ Hsub) as Hperm. simpl in Hperm. rewrite app_nil_r in Hperm.
  destruct (sub_owner _ _ _ _ _ Hsub) as [[-> _]|Hown]; [done|].
  pose proof Hnd as Hnd0. rewrite Hperm in Hnd. apply NoDup_cons in Hnd as [Hnp [Hnq [Hnql [Hdis Hnrest]]%NoDup_app]%NoDup_cons].
  destruct (adopt_spec sp (false, q) s' ql) as [H1 L1]; [done|constructor; [intros ?; by apply (Hdis s'.2)|done]|]. fold sp1 in H1, L1.
  assert (forall x, x ∈ rest -> x ∉ nodes ql /\ x <> NIL) as Hrest.
  { intros x Hx. split; [intros ?; by apply (Hdis x)|]. 
    assert (0 <= x < RBSIZE) by (eapply holds_range; [exact Hl|rewrite Hperm; set_solver]). unfold NIL. lia. }
  destruct (sub_rebuild _ _ _ _ _ sp sp1 ql Hsub) as (l' & H2 & Hn2); [done|done|done| | | |].
  { intros x Hx. apply L1; by apply Hrest. }
  { intros x d Hx Hd. apply L1; [by apply Hrest|done]. }
  { intros Hd. apply L1; [set_solver|done]. }
  destruct (adopt_spec sp1 (false, p) (false, q) l') as [H3 L3]; [done| |].
  { simpl. rewrite Hn2. constructor; [done|]. apply NoDup_app. done. }
  exists l'. split; [done|]. split; [by rewrite Hperm, Hn2|]. split; [rewrite Hperm; set_solver|].
  eapply local_trans; [exact L1|exact L3| | |by left].
  - intros x. rewrite Hn2, Hperm. set_solver.
  - right. rewrite Hperm. set_solver.
Qed.

Lemma delete_inner_spec sp p l b :
  holds sp (false, p) l -> holds sp (true, p) b -> 0 <= p < RBSIZE -> l <> Leaf ->
  NoDup (p :: nodes l ++ nodes b) ->
  exists sp1 q t2, delete_inner sp p = Ok (sp1, q) /\ rooted sp1 q t2 /\ nodes t2 ≡ₚ nodes l ++ nodes b /\
    q ∈ nodes l /\ local (nodes l ++ nodes b) (false, q) sp sp1.
Proof.
  intros Hl Hb Hp Hne Hnd. pose proof Hnd as [Hnp [Hnl [Hdis Hnb]]%NoDup_app]%NoDup_cons.
  pose proof (holds_get _ _ _ Hb) as [Hbc _].
  assert ((length (nodes l) <= Z.to_nat RBSIZE)%nat) as Hlen.
  { apply NoDup_range_length; [done|]. intros x Hx. rewrite Z2Nat.id by done. exact (holds_range _ _ _ _ Hl Hx). }
  destruct l as [|l0 q0 c]; [done|]. pose proof Hl as (Hg & Hq0 & Hpq0 & Hl0 & Hc). unfold delete_inner.
  run. rewrite Hg. run. destruct (Z.eqb_spec (get sp (true, q0)) NIL) as [E|E]; cbn [negb].
  - assert (c = Leaf) as ->.
    { destruct c as [|? y ?]; [done|]. destruct Hc as (Hy & Hr & _). unfold NIL in E. lia. }
    cbn [rbind]. assert (q0 <> p) by set_solver. run.
    destruct (adopt_right sp p q0 l0 b) as [Hroot Hloc]; [done..| |].
    { simpl in *. rewrite app_nil_r in Hnd. done. }
    eexists _, q0, _. split; [done|]. split; [exact Hroot|]. simpl. rewrite app_nil_r. split; [done|]. split; [set_solver|].
    eapply local_trans; [apply (local_refl [] (false, q0))|exact Hloc|set_solver|by left|right; set_solver].
  - destruct (rightmost_spec sp (Z.to_nat RBSIZE) q0 c) as (q & s' & ql & rest & -> & Hsub & Hs'); [done|done| | |].
    { intros ->. simpl in Hc. done. }
    { cbn [nodes length] in Hlen. rewrite length_app in Hlen. lia. }
    cbn [rbind]. apply (sub_down (false, p) true _ q0 l0) in Hsub. cbn [node] in Hsub.
    set (l := Node l0 q0 c) in *. set (rest' := q0 :: nodes l0 ++ rest) in *.
    pose proof (sub_holds _ _ _ _ _ _ Hsub Hl) as (Hgq & Hq & Hpq & Hql & _).
    pose proof (sub_nodes _ _ _ _ _ Hsub) as Hperm.
    destruct (adopt_left sp p q s' ql rest' l) as (l' & H2 & Hn2 & Hs'l & L2); [done|done|constructor; set_solver|done|done|].
    assert (0 <= s'.2 < RBSIZE) as Hs'r by exact (holds_range _ _ _ _ Hl Hs'l).
    assert (q ∈ nodes l) as Hql' by (rewrite Hn2; set_solver).
    assert (forall x, x ∈ nodes l -> x <> p) as HlP by (intros x Hx ->; apply Hnp, elem_of_app; by left).
    pose proof (HlP _ Hql') as Hqp. pose proof (HlP _ Hs'l) as Hsp.
    pose proof (holds_get _ _ _ Hql) as [Hqlc _]. destruct s' as [d' x']. simpl in Hs', Hs'r, Hsp, Hpq, Hs'l. subst d'.
    assert (q <> x') as Hqx. { intros ->. pose proof (sub_owner _ _ _ _ _ Hsub) as [[[=] _]|Ho]. simpl in Ho.
      rewrite Hperm in Hnl. apply NoDup_cons in Hnl as [Hx _]. apply Hx, elem_of_app. by right. }
    assert (0 <= get sp (false, p) <= NIL) as Hplc by (unfold NIL; lia). rewrite <- Hpq in *.
    eexists (adopt (true, p) (true, q) (adopt (false, p) (false, q) (adopt (false, q) (true, parent sp q) sp))), q, (Node l' q b).
    split; [run; unfold adopt; simpl snd; by puts|].
    destruct (adopt_right _ p q l' b H2) as [Hroot Hloc]; [|done|done| |].
    { eapply holds_local; [exact L2|done|done|done| |]; simpl; [by intros ?%HlP|].
      intros x Hx. split; [intros ?; by apply (Hdis x)|]. intros ->. by apply (Hdis q). }
    { change (q :: nodes l' ++ nodes b) with ((q :: nodes l') ++ nodes b). by rewrite <- Hn2. }
    split; [exact Hroot|]. split; [change ((q :: nodes l') ++ nodes b ≡ₚ nodes l ++ nodes b); by rewrite <- Hn2|]. split; [done|].
    eapply local_trans; [exact L2|exact Hloc| |by left|right; apply elem_of_app; by left].
    intros x. rewrite elem_of_app. tauto.
Qed.

(** Deleting a node at its slot. *)
Lemma delete_at sp s l p b :
  holds sp s (Node l p b) -> valid s -> NoDup (s.2 :: nodes (Node l p b)) -> (s.1 = false -> get sp (true, s.2) <> p) ->
  exists sp' t2, delete_node sp p = Ok sp' /\ holds sp' s t2 /\ nodes t2 ≡ₚ nodes l ++ nodes b /\
    local (nodes (Node l p b)) s sp sp' /\ parent sp' p = NIL.
Proof.
  intros (Hg & Hp & Hpar & Hl & Hb) Hv Hnd Hside. simpl nodes in *.
  assert (0 <= p <= NIL) as Hp' by (unfold NIL; lia). unfold delete_node. run.
  assert (s.2 <> NIL) as HsN by (unfold NIL; destruct Hv as [?|[_ ?]]; lia).
  rewrite Hpar, (proj2 (Z.eqb_neq _ _)) by done. run.
  pose proof Hnd as [Hns [Hnp [Hnl [Hdis Hnb]]%NoDup_app]%NoDup_cons]%NoDup_cons.
  assert (s.2 ∉ nodes l ++ nodes b) as Hns' by (intros ?; apply Hns; by right).
  assert (p <> NIL) as HpN by (unfold NIL; lia).
  assert (forall sp1 q t2, rooted sp1 q t2 -> nodes t2 ≡ₚ nodes l ++ nodes b -> local (nodes l ++ nodes b) s sp sp1 ->
    (forall d, get sp1 (d, s.2) = get sp (d, s.2)) ->
    exists sp' t3, relink sp1 p q = Ok sp' /\ holds sp' s t3 /\ nodes t3 ≡ₚ nodes l ++ nodes b /\
      local (p :: nodes l ++ nodes b) s sp sp' /\ parent sp' p = NIL) as Hrelink.
  { intros sp1 q t2 Hr Hn L1 Hs.
    destruct (relink_spec sp1 s p q t2) as (sp' & E & H' & L' & Hz); [done|done| |done| | | |].
    - rewrite <- Hg. destruct s as [d x]. apply Hs.
    - rewrite <- Hpar. by apply L1.
    - rewrite Hn. done.
    - rewrite Hs. done.
    - exists sp', t2. split_and!; try done. eapply local_trans; [exact L1|exact L'| |by left|by left].
      intros x [Hx|Hx]; [by right|]. by rewrite Hn in Hx. }
  destruct (Z.eqb_spec (get sp (true, p)) NIL) as [Eb|Eb].
  { assert (b = Leaf) as ->.
    { destruct b as [|? y ?]; [done|]. destruct Hb as (Hy & Hr & _). unfold NIL in Eb. lia. }
    run. apply (Hrelink _ _ l); [by apply holds_rooted|by rewrite app_nil_r|apply local_refl|done]. }
  run. destruct (Z.eqb_spec (get sp (false, p)) NIL) as [El|El].
  { assert (l = Leaf) as ->.
    { destruct l as [|? y ?]; [done|]. destruct Hl as (Hy & Hr & _). unfold NIL in El. lia. }
    cbn [rbind]. apply (Hrelink _ _ b); [by apply holds_rooted|done|apply local_refl|done]. }
  destruct (delete_inner_spec sp p l b) as (sp1 & q & t2 & -> & Hr & Hn & Hq & L1); [done|done|done| |by apply NoDup_cons in Hnd as [_ ?]|].
  { intros ->. simpl in Hl. done. }
  assert (q ∈ nodes l ++ nodes b) as HqN by (apply elem_of_app; by left).
  cbn [rbind]. apply (Hrelink _ _ t2); [done|done| |].
  - eapply local_trans; [apply (local_refl [] s)|exact L1|set_solver|by left|by right].
  - intros d. apply L1; [done|]. intros [= -> <-]. done.
Qed.

(** ** Inserting a node *)

(** What is reported for the key at [r]: nothing, or a node whose key has the same
    characters after the first. *)
Definition found (N : list Z) (r : Z) (sp : encode_state) : Prop :=
  match_length sp = 0 \/
  match_position sp ∈ N /\ 1 <= match_length sp <= UPLIM /\
  forall i, 1 <= i < match_length sp -> text_buf sp (r + i) = text_buf sp (match_position sp + i).

Lemma get_text_ok sp i : 0 <= i < n_text -> get_text sp i = Ok (text_buf sp i).
Proof. intros H. unfold get_text, aget. by rewrite (proj2 (Z.leb_le _ _)), (proj2 (Z.ltb_lt _ _)) by lia. Qed.

Lemma compare_loop_spec k sp r p i cmp :
  0 <= r < RBSIZE -> 0 <= p < RBSIZE -> 1 <= i -> i + Z.of_nat k = UPLIM ->
  exists i' cmp', compare_loop k sp r p i cmp = Ok (i', cmp') /\ i <= i' <= UPLIM /\
    forall j, i <= j < i' -> text_buf sp (r + j) = text_buf sp (p + j).
Proof.
  intros Hr Hp. revert i cmp. induction k as [|k IH]; intros i cmp Hi Hk; cbn [compare_loop].
  { exists i, cmp. split; [done|]. split; lia. }
  rewrite get_text_ok by (unfold n_text, UPLIM in *; lia). cbn [rbind].
  rewrite get_text_ok by (unfold n_text, UPLIM in *; lia). cbn [rbind].
  unfold truth. destruct (Z.eqb_spec (text_buf sp (r + i) - text_buf sp (p + i)) 0) as [E|E]; cbn [negb].
  - destruct (IH (i + 1) (text_buf sp (r + i) - text_buf sp (p + i))) as (i' & cmp' & -> & Hi' & Hj); [lia|lia|].
    exists i', cmp'. split; [done|]. split; [lia|]. intros j Hj'. destruct (decide (j = i)) as [->|]; [lia|]. apply Hj. lia.
  - eexists i, _. split; [done|]. split; lia.
Qed.

Lemma holds_match sp s t a b : holds sp s t -> NoDup (nodes t) -> holds (set_match sp a b) s t.
Proof. intros H Hn. by apply (holds_frame sp). Qed.

Lemma sub_valid s t s' t' rest sp : sub s t s' t' rest -> holds sp s t -> valid s -> valid s'.
Proof.
  induction 1 as [| s d a p b s' t' rest _ IH]; [done|]. intros (_ & Hp & _ & Ha & _)%holds_node _.
  apply IH; [done|by apply valid_node].
Qed.

Lemma insert_loop_spec N r t : 0 <= r < RBSIZE -> forall fuel s sp cmp,
  holds sp s t -> valid s -> NoDup (nodes t) -> (0 <=? cmp) = s.1 -> (length (nodes t) < fuel)%nat ->
  found N r sp -> (forall x, x ∈ nodes t -> x ∈ N) ->
  exists a b, let sp1 := set_match sp a b in found N r sp1 /\
    ((exists s' rest, sub s t s' Leaf rest /\
        insert_loop fuel sp r s.2 cmp = Ok (put_parent r s'.2 (put_child s' r sp1), None)) \/
     (exists p, p ∈ nodes t /\ insert_loop fuel sp r s.2 cmp = Ok (sp1, Some p))).
Proof.
  intros Hr. induction t as [|l IHl q b IHb]; intros fuel s sp cmp H Hv Hn Hd Hf Hfound HN;
    (destruct fuel as [|fuel]; [lia|]); cbn [insert_loop]; rewrite Hd.
  - exists (match_position sp), (match_length sp). split; [done|]. left. exists s, []. split; [constructor|].
    replace (if s.1 then get_rchild sp s.2 else get_lchild sp s.2) with (Ok (get sp s)).
    2: { destruct s as [[] x]; simpl; [by rewrite get_rchild_ok|by rewrite get_lchild_ok]. }
    cbn [rbind]. simpl in H. rewrite H. cbn [negb Z.eqb NIL RBSIZE Pos.eqb]. rewrite set_child_ok by done. cbn [rbind].
    rewrite set_parent_ok by (unfold NIL; lia). cbn [rbind]. by destruct sp.
  - destruct H as (Hg & Hq & Hpar & Hl & Hb).
    replace (if s.1 then get_rchild sp s.2 else get_lchild sp s.2) with (Ok (get sp s)).
    2: { destruct s as [[] x]; simpl; [by rewrite get_rchild_ok|by rewrite get_lchild_ok]. }
    cbn [rbind]. rewrite Hg, (proj2 (Z.eqb_neq q NIL)) by (unfold NIL; lia). cbn [negb].
    destruct (compare_loop_spec (Z.to_nat (UPLIM - 1)) sp r q 1 cmp) as (i & cmp' & -> & Hi & Hj); [done|done|lia|done|].
    cbn [rbind]. simpl in Hn. pose proof Hn as [Hnq [Hnl [_ Hnb]]%NoDup_app]%NoDup_cons.
    assert (forall sp', (forall x y, holds sp x y -> NoDup (nodes y) -> holds sp' x y) -> found N r sp' ->
      (exists a b, sp' = set_match sp a b) ->
      exists a b', let sp1 := set_match sp a b' in found N r sp1 /\
        ((exists s' rest, sub s (Node l q b) s' Leaf rest /\
            insert_loop fuel sp' r q cmp' = Ok (put_parent r s'.2 (put_child s' r sp1), None)) \/
         (exists p, p ∈ nodes (Node l q b) /\ insert_loop fuel sp' r q cmp' = Ok (sp1, Some p)))) as Hnext.
    { intros sp' Hh Hf' (a0 & b0 & ->). simpl in Hf. rewrite length_app in Hf. destruct (0 <=? cmp') eqn:Ec.
      - destruct (IHb fuel (true, q) (set_match sp a0 b0) cmp') as (a & b' & H1 & H2); [auto|by apply valid_node|done|done|lia|done|set_solver|].
        exists a, b'. split; [done|]. destruct H2 as [(s' & rest & H2 & H3)|(p & H2 & H3)]; [left|right].
        + exists s', (q :: nodes l ++ rest). split; [by apply (sub_down s true)|done].
        + exists p. split; [simpl; set_solver|done].
      - destruct (IHl fuel (false, q) (set_match sp a0 b0) cmp') as (a & b' & H1 & H2); [auto|by apply valid_node|done|done|lia|done|set_solver|].
        exists a, b'. split; [done|]. destruct H2 as [(s' & rest & H2 & H3)|(p & H2 & H3)]; [left|right].
        + exists s', (q :: nodes b ++ rest). split; [by apply (sub_down s false)|done].
        + exists p. split; [simpl; set_solver|done]. }
    destruct (Z.ltb_spec (match_length sp) i).
    + assert (found N r (set_match sp q i)) as Hf'.
      { right. simpl. split; [apply HN; simpl; set_solver|]. split; [done|]. intros j ?. apply Hj. lia. }
      destruct (Z.leb_spec UPLIM i).
      * exists q, i. split; [done|]. right. exists q. split; [simpl; set_solver|done].
      * apply Hnext; [intros; by apply holds_match|done|eauto].
    + apply Hnext; [done|done|]. exists (match_position sp), (match_length sp). by destruct sp.
Qed.

(** ** The forest *)

Definition root (c : Z) : slot := (true, RBSIZE + 1 + c).

(** A tree for every character; nodes that are in none have no parent. *)
Record forest (F : Z -> tree) (sp : encode_state) : Prop := mk_forest {
  f_holds c : 0 <= c < 256 -> holds sp (root c) (F c);
  f_out c : ~ 0 <= c < 256 -> F c = Leaf;
  f_nodup c : NoDup (nodes (F c));
  f_apart c c' x : x ∈ nodes (F c) -> x ∈ nodes (F c') -> c = c';
  f_free x : 0 <= x < RBSIZE -> (forall c, x ∉ nodes (F c)) -> parent sp x = NIL
}.

Definition plant (c : Z) (t : tree) (F : Z -> tree) : Z -> tree := fun k => if k =? c then t else F k.

Lemma valid_root c : 0 <= c < 256 -> valid (root c).
Proof. right. unfold root, n_rchild, RBSIZE. simpl. lia. Qed.

Lemma forest_range F sp c x : forest F sp -> x ∈ nodes (F c) -> 0 <= x < RBSIZE /\ 0 <= c < 256.
Proof.
  intros HF Hx. destruct (decide (0 <= c < 256)) as [Hc|Hc].
  - split; [|done]. eapply holds_range; [by apply (f_holds _ _ HF)|done].
  - rewrite (f_out _ _ HF) in Hx by done. simpl in Hx. set_solver.
Qed.

Lemma forest_nodup F sp c : forest F sp -> 0 <= c < 256 -> NoDup ((root c).2 :: nodes (F c)).
Proof.
  intros HF Hc. constructor; [|apply HF]. intros Hx. apply (forest_range _ _ _ _ HF) in Hx as [Hx _]. simpl in Hx. lia.
Qed.

(** A node on the left is not on the right. *)
Lemma sub_side sp s t s' l p r rest :
  sub s t s' (Node l p r) rest -> holds sp s t -> NoDup (nodes t) -> s.1 = true -> s'.1 = false ->
  get sp (true, s'.2) <> p.
Proof.
  intros Hsub H Hn Hs Hs'. assert (s' = s \/ get sp (true, s'.2) <> p) as [->|?]; [|congruence|done].
  clear Hs. remember (Node l p r) as t' eqn:Et.
  induction Hsub as [s0 t0 | s d a q b s' t' rest Hsub IH]; subst; [by left|right].
  apply holds_node in H as (Hg & Hq & _ & Ha & Hb). rewrite nodes_node in Hn.
  apply NoDup_cons in Hn as [Hnq [Hna [Hdis Hnb]]%NoDup_app]. destruct IH as [->|?]; [done..| |done].
  simpl in Hs'. subst d. simpl. pose proof (sub_nodes _ _ _ _ _ Hsub) as Hp.
  assert (p ∈ nodes a) as Hpa by (rewrite Hp; simpl; set_solver).
  eapply holds_get_ne; [exact Hb|by apply Hdis|]. pose proof (holds_range _ _ _ _ Ha Hpa). unfold NIL. lia.
Qed.

Lemma forest_update F sp c t' sp' N s' :
  forest F sp -> 0 <= c < 256 -> holds sp' (root c) t' -> NoDup (nodes t') -> local N s' sp sp' ->
  (s' = root c \/ s'.2 ∈ nodes (F c)) -> (forall x, x ∈ N -> 0 <= x < RBSIZE) ->
  (forall x, x ∈ N \/ x ∈ nodes t' -> x ∈ nodes (F c) \/ forall c', x ∉ nodes (F c')) ->
  (forall x, 0 <= x < RBSIZE -> x ∈ N \/ x ∈ nodes (F c) -> x ∉ nodes t' -> parent sp' x = NIL) ->
  forest (plant c t' F) sp'.
Proof.
  intros HF Hc Ht Hn L Hs Hrange HN Hfree. unfold plant.
  assert (forall c' x, x ∈ nodes (F c') -> c' <> c -> x ∉ N /\ x ∉ nodes t' /\ x <> s'.2) as Hother.
  { intros c' x Hx Hne. assert (x ∉ nodes (F c)) as Hxc by (intros ?; by destruct Hne; eapply f_apart).
    split_and!; [intros ?; destruct (HN x); [by left|done|naive_solver]|intros ?; destruct (HN x); [by right|done|naive_solver]|].
    destruct Hs as [->|Hs]; [|congruence]. apply (forest_range _ _ _ _ HF) in Hx. simpl. lia. }
  constructor.
  - intros k Hk. destruct (Z.eqb_spec k c) as [->|Hne]; [done|].
    eapply holds_local; [exact L|by apply HF|apply HF| | |].
    + intros E. destruct Hs as [->|Hs]; [unfold root in E; injection E; lia|]. rewrite <- E in Hs.
      apply (forest_range _ _ _ _ HF) in Hs as [Hs _]. simpl in Hs. lia.
    + intros Hx%Hrange. simpl in Hx. lia.
    + intros x Hx. split; by eapply Hother.
  - intros k Hk. destruct (Z.eqb_spec k c) as [->|]; [done|by apply HF].
  - intros k. destruct (k =? c); [done|apply HF].
  - intros k k' x. destruct (Z.eqb_spec k c) as [->|H1], (Z.eqb_spec k' c) as [->|H2]; [done| | |apply HF].
    + intros Hx Hx'. by destruct (Hother k' x Hx' H2) as (_ & ? & _).
    + intros Hx Hx'. by destruct (Hother k x Hx H1) as (_ & ? & _).
  - intros x Hx Hnone. assert (x ∉ nodes t') as Hxt by (specialize (Hnone c); by rewrite Z.eqb_refl in Hnone).
    destruct (decide (x ∈ N \/ x ∈ nodes (F c))) as [Hin|Hout]; [by apply Hfree|].
    rewrite (local_parent _ _ _ _ L) by (tauto || unfold NIL; lia). apply HF; [done|]. intros k Hk.
    destruct (decide (k = c)) as [->|Hkc]; [tauto|]. apply (Hnone k). by rewrite (proj2 (Z.eqb_neq _ _)).
Qed.

Lemma sub_fresh F sp c s' t0 rest :
  forest F sp -> 0 <= c < 256 -> sub (root c) (F c) s' t0 rest -> NoDup (s'.2 :: nodes t0).
Proof.
  intros HF Hc Hsub. pose proof (sub_nodes _ _ _ _ _ Hsub) as Hperm. pose proof (f_nodup _ _ HF c) as Hn.
  rewrite Hperm in Hn. apply NoDup_app in Hn as (Hn & Hdis & _). constructor; [|done]. intros Hx.
  destruct (sub_owner _ _ _ _ _ Hsub) as [[-> _]|Hr]; [|by apply (Hdis s'.2)].
  pose proof (forest_nodup _ _ _ HF Hc) as [Hnd _]%NoDup_cons. apply Hnd. rewrite Hperm. set_solver.
Qed.

(** A change at a slot of the forest, as a change of the forest. *)
Lemma forest_graft F sp c s' t0 rest sp' N t2 :
  forest F sp -> 0 <= c < 256 -> sub (root c) (F c) s' t0 rest -> holds sp' s' t2 -> local N s' sp sp' ->
  NoDup (nodes t2 ++ rest) ->
  (forall x, x ∈ N \/ x ∈ nodes t2 -> 0 <= x < RBSIZE /\ (x ∈ nodes t0 \/ forall c', x ∉ nodes (F c'))) ->
  (forall x, x ∈ N \/ x ∈ nodes t0 -> x ∉ nodes t2 -> parent sp' x = NIL) ->
  exists t', forest (plant c t' F) sp' /\ nodes t' ≡ₚ nodes t2 ++ rest.
Proof.
  intros HF Hc Hsub Ht2 L Hn2 HN Hfree. pose proof (f_holds _ _ HF c Hc) as Hh.
  pose proof (forest_nodup _ _ _ HF Hc) as Hnd. pose proof (sub_nodes _ _ _ _ _ Hsub) as Hperm.
  pose proof (f_nodup _ _ HF c) as Hn. rewrite Hperm in Hn. apply NoDup_app in Hn as (_ & Hdis & _).
  assert (forall x, x ∈ rest -> x ∈ nodes (F c)) as Hrc by (intros x Hx; rewrite Hperm; set_solver).
  assert (forall x, x ∈ rest -> x ∉ N /\ x <> NIL) as Hrest.
  { intros x Hx. split.
    - intros HxN. destruct (HN x) as [_ [H|H]]; [by left|by apply (Hdis x)|by apply (H c), Hrc].
    - apply Hrc, (forest_range _ _ _ _ HF) in Hx. unfold NIL. lia. }
  destruct (sub_rebuild _ _ _ _ _ sp sp' t2 Hsub) as (t' & Ht' & Hp'); [done|done|done| | | |].
  { intros x Hx. by apply L; apply Hrest. } { intros x d Hx Hd. apply L; [by apply Hrest|done]. }
  { intros Hd. apply L; [|done]. intros Hx. destruct (HN (root c).2) as [H _]; [by left|]. simpl in H. lia. }
  exists t'. split; [|done]. eapply forest_update; [done|done|done|by rewrite Hp'|exact L| |intros x Hx; apply HN; by left| |].
  - destruct (sub_owner _ _ _ _ _ Hsub) as [[-> _]|Hr]; [by left|right; auto].
  - intros x Hx. rewrite Hp', elem_of_app in Hx.
    assert (x ∈ rest \/ (x ∈ N \/ x ∈ nodes t2)) as [?|Hx'] by tauto; [auto|].
    destruct (HN x Hx') as [_ [H|H]]; [left; rewrite Hperm; set_solver|by right].
  - intros x _ Hx Hnt. rewrite Hp', elem_of_app in Hnt. apply Hfree; [|tauto]. destruct Hx as [?|Hx]; [by left|right].
    rewrite Hperm, elem_of_app in Hx. tauto.
Qed.

(** [delete_node] removes a node, if it is in a tree, and nothing else. *)
Lemma delete_node_spec F sp p :
  forest F sp -> 0 <= p < RBSIZE ->
  exists sp' F', delete_node sp p = Ok sp' /\ forest F' sp' /\
    (forall c x, x ∈ nodes (F' c) <-> x ∈ nodes (F c) /\ x <> p) /\
    text_buf sp' = text_buf sp /\ match_position sp' = match_position sp /\ match_length sp' = match_length sp.
Proof.
  intros HF Hp. destruct (decide (Exists (fun c => p ∈ nodes (F c)) (seqZ 0 256))) as [Hin|Hout].
  - apply Exists_exists in Hin as (c & Hc%elem_of_seqZ & Hin). assert (0 <= c < 256) as Hc' by lia. clear Hc.
    pose proof (f_holds _ _ HF c Hc') as Hh. pose proof (f_nodup _ _ HF c) as Hn.
    destruct (sub_find (root c) _ _ Hin) as (s' & l & b & rest & Hsub).
    pose proof (sub_nodes _ _ _ _ _ Hsub) as Hperm. pose proof (sub_fresh _ _ _ _ _ _ HF Hc' Hsub) as Hnd.
    destruct (delete_at sp s' l p b) as (sp' & t2 & E & Ht2 & Hp2 & L & HpN); [by eapply sub_holds| | | |].
    { eapply sub_valid; [done|done|by apply valid_root]. } { done. } { intros Hd. by eapply sub_side. }
    assert (nodes (F c) ≡ₚ p :: nodes t2 ++ rest) as HFt by (rewrite Hperm, Hp2; done).
    pose proof Hn as Hn'. rewrite HFt in Hn'. apply NoDup_cons in Hn' as [Hpn Hn2].
    destruct (forest_graft F sp c s' (Node l p b) rest sp' (nodes (Node l p b)) t2) as (t' & HF' & Hp'); try done.
    { intros x Hx. assert (x ∈ nodes (Node l p b)) as Hx' by (rewrite Hp2 in Hx; simpl in *; set_solver).
      split; [|by left]. apply (forest_range F sp c x HF). rewrite Hperm. set_solver. }
    { intros x Hx Hnt. assert (x = p) as ->; [|done]. rewrite Hp2 in Hnt. simpl in Hx. set_solver. }
    exists sp', (plant c t' F). split; [done|]. split; [done|]. split; [|by destruct L as [? [? ?] _ _]].
    intros k x. unfold plant. destruct (Z.eqb_spec k c) as [->|Hk].
    + rewrite HFt, Hp'. set_solver.
    + split; [|tauto]. intros Hx. split; [done|]. intros ->. apply Hk. exact (f_apart _ _ HF k c p Hx Hin).
  - assert (forall c, p ∉ nodes (F c)) as Hnone.
    { intros c Hc. apply Hout, Exists_exists. exists c. split; [|done]. apply elem_of_seqZ.
      apply (forest_range _ _ _ _ HF) in Hc. lia. }
    exists sp, F. unfold delete_node. run. rewrite (f_free _ _ HF) by done. split; [done|]. split; [done|].
    split; [|done]. intros c x. split; [|tauto]. intros Hx. split; [done|]. intros ->. by apply (Hnone c).
Qed.

(** Initialising the children of a new node. *)
Lemma forest_fresh F sp r a :
  forest F sp -> 0 <= r < RBSIZE -> (forall c, r ∉ nodes (F c)) ->
  forest F (set_match (put_child (true, r) NIL (put_child (false, r) NIL sp)) a 0).
Proof.
  intros HF Hr Hnone. set (sp0 := set_match _ _ _).
  assert (forall d x, x <> r -> get sp0 (d, x) = get sp (d, x)) as Hg.
  { intros d x Hx. change (get sp0 (d, x)) with (get (put_child (true, r) NIL (put_child (false, r) NIL sp)) (d, x)). by puts. }
  constructor; try apply HF.
  - intros c Hc. apply (holds_frame sp); [by apply HF|apply HF| |done|].
    + apply Hg. simpl. lia.
    + intros x d Hx. apply Hg. intros ->. by apply (Hnone c).
Qed.

Lemma sub_place F sp c r s' t0 rest :
  forest F sp -> 0 <= c < 256 -> 0 <= r < RBSIZE -> (forall c', r ∉ nodes (F c')) -> sub (root c) (F c) s' t0 rest ->
  valid s' /\ s'.2 <> r /\ NoDup (nodes t0 ++ rest) /\ forall x, x ∈ nodes t0 ++ rest -> 0 <= x < RBSIZE /\ x <> r.
Proof.
  intros HF Hc Hr Hnone Hsub. pose proof (sub_nodes _ _ _ _ _ Hsub) as Hperm. split_and!.
  - eapply sub_valid; [done|by apply (f_holds _ _ HF)|by apply valid_root].
  - destruct (sub_owner _ _ _ _ _ Hsub) as [[-> _]|Hx]; [simpl; lia|]. intros E. rewrite E in Hx.
    apply (Hnone c). rewrite Hperm. apply elem_of_app. by right.
  - rewrite <- Hperm. apply HF.
  - intros x Hx. rewrite <- Hperm in Hx. split; [by destruct (forest_range _ _ _ _ HF Hx)|]. intros ->. by apply (Hnone c).
Qed.

(** Hanging up a node at an empty slot. *)
Lemma forest_hang F sp c r s' rest :
  forest F sp -> 0 <= c < 256 -> 0 <= r < RBSIZE -> (forall c', r ∉ nodes (F c')) -> (forall d, get sp (d, r) = NIL) ->
  sub (root c) (F c) s' Leaf rest ->
  let sp' := put_parent r s'.2 (put_child s' r sp) in
  exists t', forest (plant c t' F) sp' /\ nodes t' ≡ₚ r :: nodes (F c) /\ local [r] s' sp sp'.
Proof.
  intros HF Hc Hr Hnone Hr0 Hsub sp'. destruct (sub_place _ _ _ _ _ _ _ HF Hc Hr Hnone Hsub) as (Hv & Hsr & Hn2 & Hx2).
  assert (local [r] s' sp sp') as L.
  { constructor; [by destruct s' as [[] ?]|by destruct s' as [[] ?]| |]; unfold sp'.
    - intros x Hx _. assert (x <> r) by set_solver. by puts.
    - intros d x Hx Hd. by puts. }
  destruct (forest_graft F sp c s' Leaf rest sp' [r] (Node Leaf r Leaf)) as (t' & HF' & Hp'); try done.
  - cbn [holds]. unfold sp'. puts. by rewrite !Hr0.
  - simpl. constructor; [|done]. intros Hx. by destruct (Hx2 r).
  - intros x Hx. assert (x = r) as -> by set_solver. auto.
  - intros x Hx Hnt. set_solver.
  - exists t'. split; [done|]. split; [|done]. rewrite Hp'. by rewrite (sub_nodes _ _ _ _ _ Hsub).
Qed.

(** A node in the place of another. *)
Lemma forest_replace F sp c r p :
  forest F sp -> 0 <= c < 256 -> 0 <= r < RBSIZE -> (forall c', r ∉ nodes (F c')) -> p ∈ nodes (F c) ->
  exists sp' t' N s', replace_node sp r p = Ok sp' /\ forest (plant c t' F) sp' /\
    p :: nodes t' ≡ₚ r :: nodes (F c) /\ local N s' sp sp'.
Proof.
  intros HF Hc Hr Hnone Hp. destruct (sub_find (root c) _ _ Hp) as (s' & l & e & rest & Hsub).
  destruct (sub_place _ _ _ _ _ _ _ HF Hc Hr Hnone Hsub) as (Hv & Hsr & Hn2 & Hx2).
  pose proof (sub_fresh _ _ _ _ _ _ HF Hc Hsub) as Hnd. pose proof (f_holds _ _ HF c Hc) as Hh.
  destruct (replace_node_spec sp s' l p e r) as (sp' & E & H' & L & HpN); [by eapply sub_holds|done| |done| |].
  { apply NoDup_cons in Hnd as [Hd1 Hd2]. constructor; [set_solver|]. constructor; [|done]. intros Hx.
    destruct (Hx2 r); [set_solver|done]. }
  { intros Hd. eapply sub_side; [done|done|apply HF|done|done]. }
  destruct (forest_graft F sp c s' (Node l p e) rest sp' (p :: r :: nodes l ++ nodes e) (Node l r e)) as (t' & HF' & Hp'); try done.
  - simpl in Hn2 |- *. apply NoDup_cons in Hn2 as [_ Hn2]. constructor; [|done]. intros Hx. destruct (Hx2 r); [simpl; set_solver|done].
  - intros x Hx. destruct (decide (x = r)) as [->|Hxr]; [auto|]. assert (x ∈ nodes (Node l p e)) as Hx' by (simpl in *; set_solver).
    split; [apply Hx2; set_solver|by left].
  - intros x Hx Hnt. assert (x = p) as -> by (simpl in *; set_solver). done.
  - eexists sp', t', _, s'. split; [done|]. split; [done|]. split; [|done].
    rewrite Hp', (sub_nodes _ _ _ _ _ Hsub). simpl. constructor.
Qed.

(** [insert_node] adds a node to the tree of its first character, in the place of
    a node with the same key if there is one, and reports a match with a node
    that was there. *)
Lemma insert_node_spec F sp r :
  let c := text_buf sp r in
  forest F sp -> 0 <= r < RBSIZE -> 0 <= c < 256 -> (forall c', r ∉ nodes (F c')) ->
  exists sp' t', insert_node sp r = Ok sp' /\ forest (plant c t' F) sp' /\
    (forall x, x ∈ nodes t' -> x = r \/ x ∈ nodes (F c)) /\ text_buf sp' = text_buf sp /\
    found (nodes (F c)) r sp'.
Proof.
  intros c HF Hr Hc Hnone. unfold insert_node. rewrite get_text_ok by (unfold n_text, UPLIM, RBSIZE in *; lia).
  cbn [rbind]. fold c. run.
  set (sp0 := set_match _ _ _). pose proof (forest_fresh F sp r (match_position (put_child (true, r) NIL (put_child (false, r) NIL sp))) HF Hr Hnone) as HF0.
  fold sp0 in HF0. pose proof (f_nodup _ _ HF c) as Hn.
  assert ((length (nodes (F c)) < S (Z.to_nat RBSIZE))%nat) as Hlen.
  { apply Nat.lt_succ_r, NoDup_range_length; [done|]. intros x Hx. rewrite Z2Nat.id by done.
    by destruct (forest_range _ _ _ _ HF Hx). }
  destruct (insert_loop_spec (nodes (F c)) r (F c) Hr (S (Z.to_nat RBSIZE)) (root c) sp0 1) as (a & b & Hfound & H);
    [by apply HF0|by apply valid_root|done|done|done|by left|done|].
  set (sp1 := set_match sp0 a b) in *. change (RBSIZE + 1 + c) with (root c).2.
  assert (forest F sp1) as HF1.
  { constructor; try apply HF0. intros k Hk. apply holds_match; apply HF0. done. }
  assert (forall d, get sp1 (d, r) = NIL) as Hr0.
  { intros d. change (get sp1 (d, r)) with (get (put_child (true, r) NIL (put_child (false, r) NIL sp)) (d, r)). destruct d; by puts. }
  assert (forall N s' sp2, local N s' sp1 sp2 -> text_buf sp2 = text_buf sp /\ found (nodes (F c)) r sp2) as Hloc.
  { intros N s' sp2 [Lt [Lp Ll] _ _]. split; [done|]. unfold found in *. by rewrite Lt, Lp, Ll. }
  destruct H as [(s' & rest & Hsub & ->)|(p & Hp & ->)]; cbn [rbind].
  - destruct (forest_hang F sp1 c r s' rest) as (t' & HF' & Hp' & L); [done..|].
    eexists _, t'. split; [done|]. split; [done|]. split; [|by eapply Hloc]. intros x. rewrite Hp'. set_solver.
  - destruct (forest_replace F sp1 c r p) as (sp2 & t' & N & s' & -> & HF' & Hp' & L); [done..|].
    exists sp2, t'. split; [done|]. split; [done|]. split; [|by eapply Hloc].
    intros x Hx. assert (x ∈ p :: nodes t') as Hx' by (by right). rewrite Hp' in Hx'. set_solver.
Qed.
