(* ===== verification/LzssThm.v ===== *)
(** Theorems on LZSS ([Lzss.v]): the decoder ends on every input and stays inside
    of its buffers; the encoder ends, and the decoder gives back what it was
    given. *)

From Stdlib Require Import ZArith Lia List Bool.
From stdpp Require Import prelude.
From S2P Require Import Prelude Lzss LzssTree.

Open Scope Z_scope.

(** ** The ring *)

Lemma ring_index x : x .& (RBSIZE - 1) = x mod 4096.
Proof. change (RBSIZE - 1) with (Z.ones 12). rewrite Z.land_ones by lia. done. Qed.

Lemma aget_ok n a i : 0 <= i < n -> aget n a i = Ok (a i).
Proof. intros H. unfold aget. by rewrite (proj2 (Z.leb_le _ _)), (proj2 (Z.ltb_lt _ _)) by lia. Qed.
Lemma aset_ok n a i v : 0 <= i < n -> aset n a i v = Ok (upd a i v).
Proof. intros H. unfold aset. by rewrite (proj2 (Z.leb_le _ _)), (proj2 (Z.ltb_lt _ _)) by lia. Qed.
Lemma upd_eq a i v : upd a i v i = v.
Proof. unfold upd. by rewrite Z.eqb_refl. Qed.
Lemma upd_other a i v j : j <> i -> upd a i v j = a j.
Proof. intros H. unfold upd. by rewrite (proj2 (Z.eqb_neq _ _)). Qed.

Lemma mod_range x : 0 <= x mod 4096 < 4096.
Proof. apply Z.mod_pos_bound. lia. Qed.

(** Positions of the ring that are less than a lap apart. *)
Lemma mod_apart i j : i <> j -> - 4096 < i - j < 4096 -> i mod 4096 <> j mod 4096.
Proof. intros Hn Hd E. zdm. Qed.

Lemma n_text_val : n_text = 4113.
Proof. done. Qed.

(** ** Safety of the decoder *)

Lemma copy_loop_safe k dstlen i text r dst :
  0 <= r < 4096 -> Z.of_nat (length dst) <= dstlen \/ dst = [] ->
  exists text' r' dst', copy_loop k dstlen i text r dst = Ok (text', r', dst') /\ 0 <= r' < 4096 /\
    (Z.of_nat (length dst') <= dstlen \/ dst' = []).
Proof.
  revert i text r dst. induction k as [|k IH]; intros i text r dst Hr Hd; cbn [copy_loop].
  { by exists text, r, dst. }
  rewrite !ring_index. pose proof (mod_range i). pose proof (mod_range (r + 1)).
  rewrite aget_ok by (rewrite n_text_val; lia). cbn [rbind].
  destruct (Z.ltb_spec (Z.of_nat (length dst)) dstlen); [|by exists text, r, dst].
  rewrite aset_ok by (rewrite n_text_val; lia). cbn [rbind]. apply IH; [done|left]. rewrite length_app. simpl. lia.
Qed.

Lemma decode_loop_safe fuel dstlen flags text r src dst :
  0 <= r < 4096 -> (length src < fuel)%nat -> Z.of_nat (length dst) <= dstlen \/ dst = [] ->
  exists out, decode_loop fuel dstlen flags text r src dst = Ok out /\ (Z.of_nat (length out) <= dstlen \/ out = []).
Proof.
  revert flags text r src dst. induction fuel as [|fuel IH]; intros flags text r src dst Hr Hf Hd; [lia|].
  assert (forall flags src, (length src <= fuel)%nat -> exists out,
    decode_unit (decode_loop fuel dstlen flags) dstlen flags text r src dst = Ok out /\
    (Z.of_nat (length out) <= dstlen \/ out = [])) as Hunit.
  { intros fl src' Hs. unfold decode_unit. destruct (truth (fl .& 1)).
    - destruct src' as [|c src']; [by exists dst|]. simpl in Hs.
      destruct (Z.ltb_spec (Z.of_nat (length dst)) dstlen); [|by exists dst].
      rewrite aset_ok by (rewrite n_text_val; lia). cbn [rbind]. rewrite ring_index.
      apply IH; [apply mod_range|lia|left]. rewrite length_app. simpl. lia.
    - destruct src' as [|i [|j src']]; [by exists dst..|]. simpl in Hs.
      destruct (copy_loop_safe (Z.to_nat ((j .& 0x0F) + THRESHOLD + 1)) dstlen (i .| ((j .& 0xF0) .<< 4)) text r dst)
        as (text' & r' & dst' & -> & Hr' & Hd'); [done|done|]. cbn [rbind]. apply IH; [done|lia|done]. }
  cbn [decode_loop]. destruct (_ =? 0); [|apply Hunit; lia].
  destruct src as [|c src]; [by exists dst|]. apply Hunit. simpl in Hf. lia.
Qed.

(** On every source, well formed or not, the decoder ends, never leaves its
    ring buffer, whatever it held, and writes at most the destination. *)
Theorem decompress_lzss_safe junk dstlen src :
  0 <= dstlen -> exists out, decompress_lzss junk dstlen src = Ok out /\ Z.of_nat (length out) <= dstlen.
Proof.
  intros Hd. unfold decompress_lzss.
  destruct (decode_loop_safe (S (length src)) dstlen 0 (fill junk 0 (RBSIZE - UPLIM) 32) (RBSIZE - UPLIM) src [])
    as (out & -> & Ho); [done|lia|by right|]. exists out. split; [done|]. destruct Ho as [?| ->]; [done|simpl; lia].
Qed.

(** ** Units of code *)

Inductive unit_ := Lit (c : Z) | Ref (p L : Z).

Definition is_lit (u : unit_) : bool := match u with Lit _ => true | Ref _ _ => false end.

Definition ubytes (u : unit_) : list Z :=
  match u with
  | Lit c => [c]
  | Ref p L => [u8 p; u8 (((p .>> 4) .& 0xF0) .| (L - (THRESHOLD + 1)))]
  end.

Definition payload (g : list unit_) : list Z := concat (ubytes <$> g).

Fixpoint flags (g : list unit_) : Z :=
  match g with
  | [] => 0
  | u :: g' => (if is_lit u then 1 else 0) + 2 * flags g'
  end.

Definition gbytes (g : list unit_) : list Z := flags g :: payload g.

(** The units of a position and a length, read back. *)
Lemma ref_bytes p L :
  0 <= p < 4096 -> 3 <= L <= 18 ->
  let i := u8 p in
  let j := u8 (((p .>> 4) .& 0xF0) .| (L - (THRESHOLD + 1))) in
  i .| ((j .& 0xF0) .<< 4) = p /\ (j .& 0x0F) + THRESHOLD + 1 = L.
Proof.
  intros Hp HL.
  assert (forallb (fun p => forallb (fun L =>
    let i := u8 p in let j := u8 (((p .>> 4) .& 0xF0) .| (L - (THRESHOLD + 1))) in
    (i .| ((j .& 0xF0) .<< 4) =? p) && ((j .& 0x0F) + THRESHOLD + 1 =? L)) (seqZ 3 16)) (seqZ 0 4096) = true) as H
    by (vm_compute; reflexivity).
  rewrite forallb_forall in H. specialize (H p). rewrite <- list_elem_of_In in H.
  specialize (H (proj2 (elem_of_seqZ 0 4096 p) ltac:(lia))). rewrite forallb_forall in H. specialize (H L).
  rewrite <- list_elem_of_In in H. specialize (H (proj2 (elem_of_seqZ 3 16 L) ltac:(lia))).
  apply andb_true_iff in H as [H1 H2]. split; by apply Z.eqb_eq.
Qed.

Lemma flags_range g : 0 <= flags g < 2 ^ Z.of_nat (length g).
Proof.
  induction g as [|u g IH]; [done|]. cbn [flags length]. rewrite Nat2Z.inj_succ, Z.pow_succ_r by lia.
  destruct (is_lit u); lia.
Qed.

Lemma flags_snoc g u : flags (g ++ [u]) = flags g + (if is_lit u then 2 ^ Z.of_nat (length g) else 0).
Proof.
  induction g as [|v g IH]; [simpl; by destruct (is_lit u)|]. cbn [flags app length].
  rewrite IH, Nat2Z.inj_succ, Z.pow_succ_r by lia. destruct (is_lit u), (is_lit v); lia.
Qed.

Lemma flags_testbit g k : (k < length g)%nat ->
  Z.testbit (flags g) (Z.of_nat k) = match g !! k with Some u => is_lit u | None => false end.
Proof.
  revert k. induction g as [|u g IH]; intros k Hk; [simpl in Hk; lia|]. cbn [flags].
  rewrite Z.add_comm. destruct k as [|k].
  - change (Z.of_nat 0) with 0. change ((u :: g) !! 0%nat) with (Some u). cbv iota.
    destruct (is_lit u); [apply Z.testbit_odd_0|rewrite Z.add_0_r; apply Z.testbit_even_0].
  - rewrite Nat2Z.inj_succ. simpl in Hk. simpl lookup. rewrite <- IH by lia. destruct (is_lit u).
    + by rewrite Z.testbit_odd_succ by lia.
    + by rewrite Z.add_0_r, Z.testbit_even_succ by lia.
Qed.

Lemma payload_snoc g u : payload (g ++ [u]) = payload g ++ ubytes u.
Proof. unfold payload. rewrite fmap_app, concat_app. simpl. by rewrite app_nil_r. Qed.

Section text.
Context (all : list Z) (Hall : Forall (fun c => 0 <= c < 256) all).

(** The text behind the spaces the ring starts with, and its character. *)
Definition st (i : Z) : Z := if i <? 4078 then 32 else nth (Z.to_nat (i - 4078)) all 0.

Lemma st_range i : 0 <= st i < 256.
Proof using Hall.
  unfold st. case_cmp; [lia|]. rewrite Forall_forall in Hall.
  destruct (nth_in_or_default (Z.to_nat (i - 4078)) all 0) as [Hi| ->]; [|lia]. apply Hall. by apply list_elem_of_In.
Qed.

(** What a unit stands for after [t] characters: it covers [L] of them. *)
Definition means (t : Z) (u : unit_) (L : Z) : Prop :=
  match u with
  | Lit c => L = 1 /\ c = st (4078 + t)
  | Ref p L' => L = L' /\ 3 <= L' <= 18 /\
      exists i, p = i mod 4096 /\ 0 <= i /\ t <= i < 4078 + t /\ forall k, 0 <= k < L' -> st (i + k) = st (4078 + t + k)
  end.

Inductive spells : Z -> list unit_ -> Z -> Prop :=
  | spells_nil t : spells t [] t
  | spells_cons t u L us t' : means t u L -> spells (t + L) us t' -> spells t (u :: us) t'.

Lemma spells_app t us t' us' t'' : spells t us t' -> spells t' us' t'' -> spells t (us ++ us') t''.
Proof using Type. induction 1 as [|t u L us t' Hu _ IH]; [done|]. intros H'. simpl. econstructor; [exact Hu|auto]. Qed.

Lemma spells_snoc t us t' u L : spells t us t' -> means t' u L -> spells t (us ++ [u]) (t' + L).
Proof using Type. intros H Hu. eapply spells_app; [done|]. econstructor; [done|constructor]. Qed.

Lemma spells_split t us us' t'' : spells t (us ++ us') t'' -> exists t', spells t us t' /\ spells t' us' t''.
Proof using Type.
  revert t. induction us as [|u us IH]; intros t; simpl; [exists t; by split; [constructor|]|].
  inversion 1 as [|? ? L ? ? Hu Hrest]; subst. destruct (IH _ Hrest) as (t' & H1 & H2).
  exists t'. split; [by econstructor|done].
Qed.

Lemma spells_bound t us t' :
  spells t us t' -> Z.of_nat (length (payload us)) <= t' - t /\ Z.of_nat (length us) <= t' - t.
Proof using Type.
  induction 1 as [t | t u L us t' Hu _ IH]; [simpl; lia|].
  change (payload (u :: us)) with (ubytes u ++ payload us). rewrite length_app.
  destruct u as [c|p L']; simpl in Hu; [destruct Hu as [-> _]|destruct Hu as (-> & HL & _)]; cbn [ubytes length]; lia.
Qed.

(** ** Decoding units *)

(** The ring and the output of the decoder after [t] characters. *)
Record dec (t : Z) (text : arr) (r : Z) (dst : list Z) : Prop := mk_dec {
  dec_r : r = (4078 + t) mod 4096;
  dec_dst : dst = (fun k => st (4078 + Z.of_nat k)) <$> seq 0 (Z.to_nat t);
  dec_text i : 0 <= i -> t - 18 <= i < 4078 + t -> text (i mod 4096) = st i;
  dec_t : 0 <= t
}.

Lemma dec_length t text r dst : dec t text r dst -> Z.of_nat (length dst) = t.
Proof using Type. intros [_ -> _ Ht]. rewrite length_fmap, length_seq. lia. Qed.

(** One character more. *)
Lemma dec_put t text r dst :
  dec t text r dst ->
  dec (t + 1) (upd text r (st (4078 + t))) ((r + 1) .& (RBSIZE - 1)) (dst ++ [st (4078 + t)]).
Proof using Type.
  intros [Hr Hd Ht H0]. constructor.
  - rewrite ring_index, Hr. rewrite Zplus_mod_idemp_l. f_equal. lia.
  - rewrite Hd, Z2Nat.inj_add, Nat.add_1_r, seq_S, fmap_app by lia. simpl. do 3 f_equal. lia.
  - intros i Hi Hw. subst r. destruct (decide (i = 4078 + t)) as [->|Hn]; [apply upd_eq|].
    rewrite upd_other by (apply mod_apart; lia). apply Ht; lia.
  - lia.
Qed.

Lemma copy_loop_spec k dstlen t i text r dst j :
  dec (t + j) text r dst -> 0 <= i -> t <= i < 4078 + t -> 0 <= j -> t + j + Z.of_nat k <= dstlen ->
  (forall n, 0 <= n < j + Z.of_nat k -> st (i + n) = st (4078 + t + n)) -> j + Z.of_nat k <= 18 ->
  exists text' r' dst', copy_loop k dstlen (i mod 4096 + j) text r dst = Ok (text', r', dst') /\
    dec (t + j + Z.of_nat k) text' r' dst'.
Proof using Type.
  revert text r dst j. induction k as [|k IH]; intros text r dst j HD Hi Hw Hj Hlen Hst H18; cbn [copy_loop].
  { exists text, r, dst. split; [done|]. by rewrite Z.add_0_r. }
  rewrite ring_index, Zplus_mod_idemp_l. pose proof (mod_range (i + j)). pose proof (dec_length _ _ _ _ HD) as Hl.
  rewrite aget_ok by (rewrite n_text_val; lia). cbn [rbind].
  rewrite (dec_text _ _ _ _ HD) by lia. rewrite Hst by lia.
  rewrite (proj2 (Z.ltb_lt _ _)) by lia. pose proof (mod_range (4078 + (t + j))) as Hr.
  rewrite aset_ok by (rewrite (dec_r _ _ _ _ HD), n_text_val; lia). cbn [rbind].
  apply dec_put in HD. rewrite (Z.add_assoc 4078 t j) in HD. rewrite <- (Z.add_assoc t j 1) in HD.
  destruct (IH _ _ _ (j + 1) HD) as (text' & r' & dst' & E & HD'); [lia|lia|lia|lia|intros; apply Hst; lia|lia|].
  exists text', r', dst'. rewrite Z.add_assoc in E. split; [exact E|].
  replace (t + j + Z.of_nat (S k)) with (t + (j + 1) + Z.of_nat k) by lia. done.
Qed.

Lemma decode_unit_spec rest dstlen fl t u L text r src dst :
  truth (fl .& 1) = is_lit u -> means t u L -> t + L <= dstlen -> dec t text r dst ->
  exists text' r' dst', decode_unit rest dstlen fl text r (ubytes u ++ src) dst = rest text' r' src dst' /\
    dec (t + L) text' r' dst'.
Proof using Type.
  intros Hf Hu Hlen HD. unfold decode_unit. rewrite Hf. pose proof (dec_length _ _ _ _ HD) as Hl.
  destruct u as [c|p L']; simpl in Hu; cbn [is_lit ubytes app].
  - destruct Hu as [-> ->]. rewrite (proj2 (Z.ltb_lt _ _)) by lia. pose proof (mod_range (4078 + t)) as Hr.
    rewrite aset_ok by (rewrite (dec_r _ _ _ _ HD), n_text_val; lia). cbn [rbind].
    eexists _, _, _. split; [done|]. by apply dec_put.
  - destruct Hu as (-> & HL & i & -> & Hi & Hw & Hst). pose proof (mod_range i) as Hp.
    destruct (ref_bytes (i mod 4096) L' Hp HL) as [-> ->].
    destruct (copy_loop_spec (Z.to_nat L') dstlen t i text r dst 0) as (text' & r' & dst' & E & HD').
    { by rewrite Z.add_0_r. } { done. } { done. } { done. } { lia. } { intros; apply Hst; lia. } { lia. }
    rewrite Z.add_0_r in E. rewrite E. cbn [rbind]. exists text', r', dst'. split; [done|].
    replace (t + 0 + Z.of_nat (Z.to_nat L')) with (t + L') in HD' by lia. done.
Qed.

(** ** Decoding groups *)

(** The flags after the unit with bit [k]. *)
Definition used (b : Z) (k : nat) : Z := (b .| 0xFF00) .>> Z.of_nat k.

Lemma used_next b k : used b k .>> 1 = used b (S k).
Proof using Type. unfold used. rewrite Z.shiftr_shiftr by lia. f_equal. lia. Qed.

Lemma used_bit b k : 0 <= b < 256 -> (k < 8)%nat -> truth (used b k .& 1) = Z.testbit b (Z.of_nat k).
Proof using Type.
  intros Hb Hk. rewrite (truth_pow2_testbit _ 0) by lia. unfold used. rewrite Z.shiftr_spec, Z.lor_spec, Z.add_0_l by lia.
  do 8 (destruct k as [|k]; [apply orb_false_r|]). lia.
Qed.

Lemma used_more b k : 0 <= b < 256 -> (k <= 8)%nat -> ((used b k .& 0x100) =? 0) = (k =? 8)%nat.
Proof using Type.
  intros Hb Hk. pose proof (truth_pow2_testbit (used b k) 8 ltac:(lia)) as H. unfold truth in H.
  change (2 ^ 8) with 0x100 in H. rewrite <- (negb_involutive (_ =? 0)), H. unfold used.
  rewrite Z.shiftr_spec, Z.lor_spec by lia.
  replace (Z.testbit b (8 + Z.of_nat k)) with false.
  - do 9 (destruct k as [|k]; [done|]). lia.
  - symmetry. apply Z.bits_above_log2; [lia|]. destruct (decide (b = 0)) as [->|]; [simpl; lia|].
    apply Z.lt_le_trans with 8; [|lia]. apply Z.log2_lt_pow2; lia.
Qed.

Lemma decode_tail dstlen b k g t t' fuel text r src dst :
  0 <= b < 256 -> (k + length g <= 7)%nat ->
  (forall j u, g !! j = Some u -> Z.testbit b (Z.of_nat (k + S j)) = is_lit u) ->
  spells t g t' -> t' <= dstlen -> dec t text r dst -> (length (payload g ++ src) < fuel)%nat ->
  exists fuel' text' r' dst',
    decode_loop fuel dstlen (used b k) text r (payload g ++ src) dst =
    decode_loop fuel' dstlen (used b (k + length g)) text' r' src dst' /\
    dec t' text' r' dst' /\ (length src < fuel')%nat.
Proof using Type.
  intros Hb. revert k t fuel text r dst. induction g as [|u g IH]; intros k t fuel text r dst Hk Hbits Hsp Hlen HD Hf.
  { inversion Hsp; subst. exists fuel, text, r, dst. by rewrite Nat.add_0_r. }
  inversion Hsp as [|? ? L ? ? Hu Hrest]; subst. destruct fuel as [|fuel]; [lia|]. cbn [decode_loop].
  rewrite used_next, used_more by (simpl in Hk; lia). rewrite (proj2 (Nat.eqb_neq _ _)) by (simpl in Hk; lia).
  change (payload (u :: g)) with (ubytes u ++ payload g) in *. rewrite <- app_assoc in *.
  pose proof (spells_bound _ _ _ Hrest) as [_ Hpos].
  destruct (decode_unit_spec (decode_loop fuel dstlen (used b (S k))) dstlen (used b (S k)) t u L text r (payload g ++ src) dst)
    as (text1 & r1 & dst1 & -> & HD1); [|done|lia|done|].
  { rewrite used_bit by (simpl in Hk; lia). rewrite <- Nat.add_1_r. by apply (Hbits 0%nat). }
  destruct (IH (S k) (t + L) fuel text1 r1 dst1) as (fuel' & text' & r' & dst' & E & HD' & Hf'); [simpl in Hk; lia| |done|done|done| |].
  { intros j v Hj. rewrite <- (Hbits (S j) v Hj). f_equal. lia. }
  { rewrite length_app in Hf. destruct u; simpl in Hf; lia. }
  exists fuel', text', r', dst'. split; [|done]. rewrite E. f_equal. f_equal. simpl. lia.
Qed.

Lemma decode_group dstlen fl g t t' fuel text r src dst :
  ((fl .>> 1) .& 0x100) = 0 -> (1 <= length g <= 8)%nat ->
  spells t g t' -> t' <= dstlen -> dec t text r dst -> (length (gbytes g ++ src) < fuel)%nat ->
  exists fuel' text' r' dst',
    decode_loop fuel dstlen fl text r (gbytes g ++ src) dst =
    decode_loop fuel' dstlen (used (flags g) (length g - 1)) text' r' src dst' /\
    dec t' text' r' dst' /\ (length src < fuel')%nat.
Proof using Type.
  intros Hfl Hg Hsp Hlen HD Hf. destruct g as [|u g]; [simpl in Hg; lia|]. set (b := flags (u :: g)).
  assert (0 <= b < 256) as Hb.
  { pose proof (flags_range (u :: g)) as Hr. fold b in Hr. split; [lia|]. eapply Z.lt_le_trans; [apply Hr|].
    apply (Z.pow_le_mono_r 2 _ 8); lia. }
  inversion Hsp as [|? ? L ? ? Hu Hrest]; subst. destruct fuel as [|fuel]; [lia|]. unfold gbytes. fold b. cbn [decode_loop app].
  rewrite Hfl. cbn [Z.eqb]. pose proof (spells_bound _ _ _ Hrest) as [_ Hpos].
  assert (forall j v, (u :: g) !! j = Some v -> Z.testbit b (Z.of_nat j) = is_lit v) as Hbits.
  { intros j v Hj. unfold b. rewrite flags_testbit by (by apply lookup_lt_Some in Hj). by rewrite Hj. }
  assert (b .| 0xFF00 = used b 0) as -> by (unfold used; by rewrite Z.shiftr_0_r).
  change (payload (u :: g)) with (ubytes u ++ payload g). rewrite <- app_assoc.
  destruct (decode_unit_spec (decode_loop fuel dstlen (used b 0)) dstlen (used b 0) t u L text r (payload g ++ src) dst)
    as (text1 & r1 & dst1 & -> & HD1); [|done|lia|done|].
  { rewrite used_bit by (done || lia). by apply (Hbits 0%nat). }
  destruct (decode_tail dstlen b 0 g (t + L) t' fuel text1 r1 src dst1) as (fuel' & text' & r' & dst' & E & HD' & Hf'); try done.
  { simpl in Hg. lia. } { intros j v Hj. by apply (Hbits (S j)). }
  { unfold gbytes in Hf. change (payload (u :: g)) with (ubytes u ++ payload g) in Hf. cbn [app length] in Hf.
    rewrite <- app_assoc, length_app in Hf. destruct u; simpl in Hf; lia. }
  exists fuel', text', r', dst'. split; [|done]. rewrite E. f_equal. simpl. by rewrite Nat.sub_0_r.
Qed.

Lemma decode_groups dstlen gs fl t t' fuel text r src dst :
  ((fl .>> 1) .& 0x100) = 0 -> Forall (fun g => length g = 8%nat) gs ->
  spells t (concat gs) t' -> t' <= dstlen -> dec t text r dst -> (length (concat (gbytes <$> gs) ++ src) < fuel)%nat ->
  exists fuel' fl' text' r' dst',
    decode_loop fuel dstlen fl text r (concat (gbytes <$> gs) ++ src) dst =
    decode_loop fuel' dstlen fl' text' r' src dst' /\
    ((fl' .>> 1) .& 0x100) = 0 /\ dec t' text' r' dst' /\ (length src < fuel')%nat.
Proof using Type.
  intros Hfl Hgs. revert fl t fuel text r dst Hfl.
  induction Hgs as [|g gs Hg _ IH]; intros fl t fuel text r dst Hfl Hsp Hlen HD Hf.
  { inversion Hsp; subst. by exists fuel, fl, text, r, dst. }
  change (concat (gbytes <$> g :: gs)) with (gbytes g ++ concat (gbytes <$> gs)) in *. rewrite <- app_assoc in *.
  apply spells_split in Hsp as (t1 & Hs1 & Hs2). pose proof (spells_bound _ _ _ Hs2) as [_ Hpos].
  destruct (decode_group dstlen fl g t t1 fuel text r (concat (gbytes <$> gs) ++ src) dst)
    as (f1 & text1 & r1 & dst1 & -> & HD1 & Hf1); [done|lia|done|lia|done|done|].
  apply (IH _ t1); [|done|done|done|done]. rewrite used_next, Hg. apply Z.eqb_eq.
  rewrite used_more; [done| |lia]. pose proof (flags_range g) as Hr. rewrite Hg in Hr. done.
Qed.

(** ** The state of the encoder *)

(** The ring after [t] characters with [len] more read ahead; its first places are
    repeated behind its end. *)
Record ring (t len : Z) (text : arr) : Prop := mk_ring {
  ring_text i : t <= i < 4078 + t + len -> text (i mod 4096) = st i;
  ring_mirror i : 4096 <= i -> t <= i < 4078 + t + len -> i mod 4096 < 17 -> text (i mod 4096 + 4096) = st i
}.

(** The trees hold places of the text from [lo] to [hi], by their first characters. *)
Definition trees (lo hi : Z) (sp : encode_state) : Prop :=
  exists F, forest F sp /\
    forall c x, x ∈ nodes (F c) -> exists i, x = i mod 4096 /\ lo <= i < hi /\ 4060 <= i /\ st i = c.

(** The match reported for the text after [t] characters. *)
Definition matched (t len : Z) (sp : encode_state) : Prop :=
  0 <= match_length sp <= 18 /\
  (0 < match_length sp -> exists i, match_position sp = i mod 4096 /\ t <= i < 4078 + t /\ 4060 <= i /\
     forall k, 0 <= k < match_length sp -> k < len -> st (i + k) = st (4078 + t + k)).

Lemma ring_at t len text i k :
  ring t len text -> t <= i -> 4060 <= i -> 0 <= k < 18 -> i + k < 4078 + t + len ->
  text (i mod 4096 + k) = st (i + k).
Proof using Type.
  intros [H1 H2] Ht Hi Hk Hlt. destruct (Z.lt_ge_cases (i mod 4096 + k) 4096) as [Hw|Hw].
  - rewrite <- H1 by lia. f_equal. zdm.
  - rewrite <- H2; [|zdm|lia|zdm]. f_equal. zdm.
Qed.

Lemma insert_step t len sp :
  ring t len (text_buf sp) -> trees t (4078 + t) sp -> 0 <= t -> 1 <= len <= 18 ->
  exists sp', insert_node sp ((4078 + t) mod 4096) = Ok sp' /\ text_buf sp' = text_buf sp /\
    trees t (4078 + t + 1) sp' /\ matched t len sp'.
Proof using Hall.
  intros HR (F & HF & Hx) Ht Hlen. pose proof (mod_range (4078 + t)) as Hr.
  assert (text_buf sp ((4078 + t) mod 4096) = st (4078 + t)) as Hkey by (apply HR; lia).
  destruct (insert_node_spec F sp ((4078 + t) mod 4096)) as (sp' & t' & E & HF' & Hn' & Htext & Hfound).
  - done.
  - done.
  - rewrite Hkey. apply st_range.
  - intros c' Hin. apply Hx in Hin as (i & E & Hi & _). by eapply (mod_apart i (4078 + t)); [lia|lia|].
  - rewrite Hkey in *. exists sp'. split; [done|]. split; [done|]. split.
    + eexists. split; [exact HF'|]. intros c x. unfold plant. destruct (Z.eqb_spec c (st (4078 + t))) as [->|].
      * intros [-> |Hin]%Hn'; [exists (4078 + t); split_and!; lia|].
        destruct (Hx _ _ Hin) as (i & ? & ? & ? & ?). exists i. split_and!; lia.
      * intros Hin. destruct (Hx _ _ Hin) as (i & ? & ? & ? & ?). exists i. split_and!; lia.
    + unfold found in Hfound. destruct Hfound as [Hz|(Hin & Hl & Hj)]; [split; [lia|lia]|].
      split; [unfold UPLIM in Hl; lia|]. intros _. destruct (Hx _ _ Hin) as (i & Ei & Hi & H60 & Hc).
      exists i. split_and!; [done|lia|lia|done|]. intros k Hk Hkl.
      destruct (decide (k = 0)) as [->|]; [by rewrite !Z.add_0_r|]. unfold UPLIM in Hl.
      rewrite <- (ring_at t len (text_buf sp) i k), <- (ring_at t len (text_buf sp) (4078 + t) k) by (done || lia).
      rewrite <- Ei, <- Htext. symmetry. apply Hj. lia.
Qed.

Lemma delete_step t sp :
  trees t (4078 + t + 1) sp ->
  exists sp', delete_node sp (t mod 4096) = Ok sp' /\ text_buf sp' = text_buf sp /\ trees (t + 1) (4078 + t + 1) sp'.
Proof using Type.
  intros (F & HF & Hx). destruct (delete_node_spec F sp (t mod 4096) HF (mod_range t)) as (sp' & F' & E & HF' & Hn' & Htext & _).
  exists sp'. split; [done|]. split; [done|]. exists F'. split; [done|]. intros c x [Hin Hne]%Hn'.
  destruct (Hx _ _ Hin) as (i & -> & Hi & H60 & Hc). exists i. split_and!; try done; try lia.
  assert (i <> t) by congruence. lia.
Qed.

Lemma trees_text lo hi sp i v :
  0 <= i < n_text -> trees lo hi sp ->
  exists sp', set_text sp i v = Ok sp' /\ text_buf sp' = upd (text_buf sp) i v /\ trees lo hi sp'.
Proof using Type.
  intros Hi (F & HF & Hx). unfold set_text. rewrite aset_ok by done. cbn [rbind]. eexists. split; [done|]. split; [done|].
  exists F. split; [|done]. constructor; try apply HF. intros c Hc. apply (holds_frame sp); [by apply HF|apply HF|done|done|done].
Qed.

(** Everything between two rounds; [src] is what is not read yet. *)
Record state (t len : Z) (src : list Z) (sp : encode_state) : Prop := mk_state {
  state_t : 0 <= t;
  state_len : 0 <= len <= 18;
  state_src : src = drop (Z.to_nat (t + len)) all;
  state_full : src <> [] -> len = 18;
  state_sum : t + len + Z.of_nat (length src) = Z.of_nat (length all);
  state_ring : ring t len (text_buf sp);
  state_trees : trees t (4078 + t + 1) sp
}.

(** Reading a character over the oldest one. *)
Lemma read_step t sp c :
  ring t 18 (text_buf sp) -> trees (t + 1) (4078 + t + 1) sp -> 0 <= t -> c = st (4096 + t) ->
  exists sp', (let! sp := set_text sp (t mod 4096) c in
               if t mod 4096 <? UPLIM - 1 then set_text sp (t mod 4096 + RBSIZE) c else Ok sp) = Ok sp' /\
    ring (t + 1) 18 (text_buf sp') /\ trees (t + 1) (4078 + t + 1) sp'.
Proof using Type.
  intros HR HT Ht ->. pose proof (mod_range t) as Hm.
  destruct (trees_text _ _ sp (t mod 4096) (st (4096 + t)) ltac:(rewrite n_text_val; lia) HT) as (sp1 & -> & E1 & HT1).
  cbn [rbind]. change (UPLIM - 1) with 17. change RBSIZE with 4096.
  assert (forall a, (forall j, j < 4096 -> a j = upd (text_buf sp) (t mod 4096) (st (4096 + t)) j) ->
    (forall j, 4096 <= j < 4113 -> a j = if (j =? t mod 4096 + 4096) then st (4096 + t) else text_buf sp j) ->
    ring (t + 1) 18 a) as Hring.
  { intros a Ha Hb. assert ((4096 + t) mod 4096 = t mod 4096) as Em by zdm. constructor.
    - intros i Hi. pose proof (mod_range i). rewrite Ha by lia. destruct (decide (i = 4096 + t)) as [->|].
      + rewrite Em. apply upd_eq.
      + rewrite upd_other by (apply mod_apart; lia). apply HR. lia.
    - intros i H96 Hi H17. pose proof (mod_range i). rewrite Hb by lia. case_cmp.
      + destruct (decide (i = 4096 + t)) as [->|]; [done|]. exfalso. apply (mod_apart i t); lia.
      + apply HR; try lia. assert (i <> 4096 + t) by congruence. lia. }
  destruct (Z.ltb_spec (t mod 4096) 17).
  - destruct (trees_text _ _ sp1 (t mod 4096 + 4096) (st (4096 + t)) ltac:(rewrite n_text_val; lia) HT1) as (sp2 & -> & E2 & HT2).
    exists sp2. split; [done|]. split; [|done]. rewrite E2, E1. apply Hring.
    + intros j Hj. by rewrite upd_other by lia.
    + intros j Hj. unfold upd. case_cmp; [done|]. by rewrite (proj2 (Z.eqb_neq j (t mod 4096))) by lia.
  - exists sp1. split; [done|]. split; [|done]. rewrite E1. apply Hring; [done|].
    intros j Hj. rewrite (proj2 (Z.eqb_neq _ _)) by lia. apply upd_other. lia.
Qed.

Lemma next_place t : (t mod 4096 + 1) .& (RBSIZE - 1) = (t + 1) mod 4096.
Proof using Type. by rewrite ring_index, Zplus_mod_idemp_l. Qed.

Lemma src_head t len c src :
  0 <= t + len -> c :: src = drop (Z.to_nat (t + len)) all ->
  c = st (4078 + t + len) /\ src = drop (Z.to_nat (t + len + 1)) all.
Proof using Type.
  intros H0 E. assert (all !! Z.to_nat (t + len) = Some c) as Hc.
  { rewrite <- (Nat.add_0_r (Z.to_nat (t + len))), <- lookup_drop, <- E. done. }
  split.
  - unfold st. rewrite (proj2 (Z.ltb_ge _ _)) by lia. replace (4078 + t + len - 4078) with (t + len) by lia.
    symmetry. by apply nth_lookup_Some.
  - rewrite Z2Nat.inj_add, <- drop_drop, <- E by lia. done.
Qed.

(** [slide] moves on by [k] characters, as long as there are new ones. *)
Lemma slide_spec k t len src sp :
  state t len src sp -> (0 < len) -> 
  exists sp' src' k', slide k sp (t mod 4096) ((4078 + t) mod 4096) src =
      Ok (sp', (t + Z.of_nat k - Z.of_nat k') mod 4096, (4078 + (t + Z.of_nat k - Z.of_nat k')) mod 4096, src', k') /\
    (k' <= k)%nat /\ state (t + Z.of_nat k - Z.of_nat k') len src' sp' /\ (k' <> 0%nat -> src' = []) /\
    ((k' < k)%nat \/ matched t len sp -> matched (t + Z.of_nat k - Z.of_nat k') len sp').
Proof using Hall.
  revert t src sp. induction k as [|k IH]; intros t src sp HS Hlen.
  { exists sp, src, 0%nat. replace (t + Z.of_nat 0 - Z.of_nat 0) with t by lia. split; [by destruct src|].
    split; [done|]. split; [done|]. split; [done|]. intros [?|?]; [lia|done]. }
  destruct src as [|c src]; cbn [slide].
  { exists sp, [], (S k). replace (t + Z.of_nat (S k) - Z.of_nat (S k)) with t by lia.
    split; [done|]. split; [done|]. split; [done|]. split; [done|]. intros [?|?]; [lia|done]. }
  pose proof HS as [Ht Hl Hsrc Hfull Hsum HR HT]. assert (len = 18) as -> by (by apply Hfull).
  apply src_head in Hsrc as [Hc Hsrc']; [|lia].
  destruct (delete_step t sp HT) as (sp1 & -> & Ex1 & HT1). cbn [rbind].
  destruct (read_step t sp1 c) as (sp2 & E2 & HR2 & HT2); [by rewrite Ex1|done|done|rewrite Hc; f_equal; lia|].
  destruct (set_text sp1 (t mod 4096) c) as [spx| |]; cbn [rbind] in E2 |- *; [|done|done].
  rewrite E2. cbn [rbind]. rewrite !next_place, <- (Z.add_assoc 4078 t 1).
  replace (4078 + t + 1) with (4078 + (t + 1)) in HT2 by lia.
  destruct (insert_step (t + 1) 18 sp2) as (sp3 & -> & Ex3 & HT3 & HM3); [done|done|lia|lia|]. cbn [rbind].
  destruct (IH (t + 1) src sp3) as (sp' & src' & k' & E & Hk' & HS' & Hend & HM'); [|lia|].
  { constructor; try done; try lia.
    - rewrite Hsrc'. f_equal. lia.
    - simpl in Hsum. lia.
    - by rewrite Ex3. }
  exists sp', src', k'. replace (t + Z.of_nat (S k) - Z.of_nat k') with (t + 1 + Z.of_nat k - Z.of_nat k') by lia.
  split; [exact E|]. split; [lia|]. split; [done|]. split; [done|]. intros _. apply HM'. by right.
Qed.

(** [drain] moves on behind the end of the text. *)
Lemma drain_spec k t len sp :
  state t len [] sp -> Z.of_nat k <= len ->
  exists sp', drain k sp (t mod 4096) ((4078 + t) mod 4096) len =
      Ok (sp', (t + Z.of_nat k) mod 4096, (4078 + (t + Z.of_nat k)) mod 4096, len - Z.of_nat k) /\
    state (t + Z.of_nat k) (len - Z.of_nat k) [] sp' /\
    ((0 < k)%nat \/ (0 < len -> matched t len sp) -> 0 < len - Z.of_nat k ->
     matched (t + Z.of_nat k) (len - Z.of_nat k) sp').
Proof using Hall.
  revert t len sp. induction k as [|k IH]; intros t len sp HS Hk.
  { exists sp. replace (t + Z.of_nat 0) with t by lia. replace (len - Z.of_nat 0) with len by lia.
    split; [done|]. split; [done|]. intros [?|?]; [lia|done]. }
  cbn [drain]. pose proof HS as [Ht Hl Hsrc Hfull Hsum HR HT].
  destruct (delete_step t sp HT) as (sp1 & -> & Ex1 & HT1). cbn [rbind].
  rewrite !next_place, <- (Z.add_assoc 4078 t 1).
  assert (ring (t + 1) (len - 1) (text_buf sp1)) as HR1.
  { rewrite Ex1. constructor; intros i; intros; apply HR; lia. }
  assert (exists sp2, (if truth (len - 1) then insert_node sp1 ((4078 + (t + 1)) mod 4096) else Ok sp1) = Ok sp2 /\
    state (t + 1) (len - 1) [] sp2 /\ (0 < len - 1 -> matched (t + 1) (len - 1) sp2)) as (sp2 & -> & HS2 & HM2).
  { replace (4078 + t + 1) with (4078 + (t + 1)) in HT1 by lia.
    assert (forall sp2, text_buf sp2 = text_buf sp1 -> trees (t + 1) (4078 + (t + 1) + 1) sp2 ->
      state (t + 1) (len - 1) [] sp2) as Hst.
    { intros sp2 Ex2 HT2. constructor; try done; try lia.
      - rewrite Hsrc. f_equal. lia.
      - by rewrite Ex2. }
    unfold truth. destruct (Z.eqb_spec (len - 1) 0); cbn [negb].
    - exists sp1. split; [done|]. split; [|lia]. apply Hst; [done|]. destruct HT1 as (F & HF & Hx). exists F. split; [done|].
      intros c x Hin. destruct (Hx c x Hin) as (i & ? & ? & ? & ?). exists i. split_and!; try done; lia.
    - destruct (insert_step (t + 1) (len - 1) sp1) as (sp2 & -> & Ex2 & HT2 & HM2); [done|done|lia|lia|].
      exists sp2. split; [done|]. split; [by apply Hst|done]. }
  cbn [rbind]. destruct (IH (t + 1) (len - 1) sp2) as (sp' & E & HS' & HM'); [done|lia|].
  exists sp'. replace (t + Z.of_nat (S k)) with (t + 1 + Z.of_nat k) by lia.
  replace (len - Z.of_nat (S k)) with (len - 1 - Z.of_nat k) by lia.
  split; [done|]. split; [done|]. intros _. apply HM'. by right.
Qed.

(** ** Sending *)

(** The buffer holds the group [g]. *)
Record held (b : code) (g : list unit_) : Prop := mk_held {
  held_ptr : code_buf_ptr b = Z.of_nat (length (gbytes g));
  held_buf k c : gbytes g !! k = Some c -> code_buf b (Z.of_nat k) = c
}.

(** A group that is not complete. *)
Definition codes (b : code) (g : list unit_) : Prop :=
  held b g /\ (length g < 8)%nat /\ mask b = 2 ^ Z.of_nat (length g).

Lemma payload_length g : (length (payload g) <= 2 * length g)%nat.
Proof using Type.
  induction g as [|u g IH]; [done|]. change (payload (u :: g)) with (ubytes u ++ payload g). rewrite length_app.
  destruct u; simpl; lia.
Qed.

Lemma send_spec k dstlen b l i dst :
  (forall j c, l !! j = Some c -> code_buf b (i + Z.of_nat j) = c) -> length l = k -> 0 <= i -> i + Z.of_nat k <= 17 ->
  Z.of_nat (length dst) <= dstlen ->
  exists o, send k dstlen b i dst = Ok o /\
    match o with
    | Sent dst' => dst' = dst ++ l /\ Z.of_nat (length dst') <= dstlen
    | Null dst' => dstlen < Z.of_nat (length (dst ++ l)) /\ Z.of_nat (length dst') <= dstlen
    end.
Proof using Type.
  revert i l dst. induction k as [|k IH]; intros i l dst Hb Hl Hi Hk Hd; cbn [send].
  { destruct l; [|done]. exists (Sent dst). by rewrite app_nil_r. }
  destruct l as [|c l]; [done|]. injection Hl as Hl. destruct (Z.ltb_spec (Z.of_nat (length dst)) dstlen).
  - rewrite aget_ok by (unfold n_code; lia). cbn [rbind].
    rewrite <- (Z.add_0_r i), (Hb 0%nat c eq_refl : code_buf b (i + 0) = c), Z.add_0_r.
    destruct (IH (i + 1) l (dst ++ [c])) as (o & -> & Ho);
      [intros j c' Hj; rewrite <- (Hb (S j) c' Hj); f_equal; lia|done|lia|lia|rewrite length_app; simpl; lia|].
    exists o. split; [done|]. by rewrite <- app_assoc in Ho.
  - exists (Null dst). split; [done|]. rewrite length_app. simpl length. lia.
Qed.

Lemma held_flags b g : held b g -> code_buf b 0 = flags g.
Proof using Type. intros H. by apply (held_buf _ _ H 0). Qed.

Lemma held_snoc b g u a m :
  held b g -> a 0 = flags (g ++ [u]) ->
  (forall k, 1 <= k < code_buf_ptr b -> a k = code_buf b k) ->
  (forall j c, ubytes u !! j = Some c -> a (code_buf_ptr b + Z.of_nat j) = c) ->
  held (mk_code a (code_buf_ptr b + Z.of_nat (length (ubytes u))) m) (g ++ [u]).
Proof using Type.
  intros [Hp Hb] H0 H1 H2. constructor; unfold gbytes in *; rewrite payload_snoc; simpl.
  - rewrite Hp. simpl length. rewrite length_app. lia.
  - intros [|k] c; simpl; [by intros [= <-]|]. intros Hk. simpl length in Hp. apply lookup_app_Some in Hk as [Hk|[Hge Hk]].
    + rewrite H1; [by apply Hb|]. apply lookup_lt_Some in Hk. lia.
    + apply H2 in Hk. rewrite <- Hk. f_equal. lia.
Qed.

(** [emit_unit] adds the unit for the match to the group. *)
Lemma emit_unit_spec t len src sp b g :
  state t len src sp -> matched t len sp -> 0 < len -> codes b g ->
  exists sp' b' u L, emit_unit sp ((4078 + t) mod 4096) len b = Ok (sp', b') /\ match_length sp' = L /\ 1 <= L <= len /\
    means t u L /\ held b' (g ++ [u]) /\ mask b' = mask b /\ state t len src sp'.
Proof using Hall.
  intros HS [Hl HM] Hlen (Hh & Hg & Hm). pose proof (held_ptr _ _ Hh) as Hp. pose proof (payload_length g) as Hpl.
  pose proof (held_flags _ _ Hh) as Hf. pose proof (flags_range g) as Hfr. unfold gbytes in Hp. simpl length in Hp.
  set (L0 := Z.min len (match_length sp)). unfold emit_unit. cbv zeta.
  assert (exists a, (if len <? match_length sp then set_match sp (match_position sp) len else sp) = set_match sp a L0 /\ a = match_position sp)
    as (a & -> & ->).
  { exists (match_position sp). unfold L0. split; [|done]. case_cmp; [f_equal; lia|]. rewrite Z.min_r by lia. by destruct sp. }
  assert (forall p L, state t len src (set_match sp p L)) as HS'.
  { intros p L. destruct HS as [? ? ? ? ? ? (F & HF & Hx)]. constructor; try done. exists F. split; [|done].
    constructor; try apply HF. intros c Hc. apply holds_match; by apply HF. }
  cbn [match_length set_match match_position]. destruct (Z.leb_spec L0 THRESHOLD) as [H2|H2].
  - rewrite aget_ok by done. cbn [rbind]. rewrite aset_ok by done. cbn [rbind].
    pose proof (mod_range (4078 + t)). rewrite get_text_ok by (rewrite n_text_val; lia). cbn [rbind].
    rewrite aset_ok by (unfold n_code; lia). cbn [rbind].
    assert (text_buf sp ((4078 + t) mod 4096) = st (4078 + t)) as Ht by (apply (state_ring _ _ _ _ HS); pose proof (state_t _ _ _ _ HS); lia).
    eexists _, _, (Lit (st (4078 + t))), 1. split; [done|]. split; [done|]. split; [lia|]. split; [done|].
    split; [|split; [done|apply (HS' _ 1)]]. apply (held_snoc b g (Lit (st (4078 + t)))); [done| | |].
    + rewrite upd_other by lia. rewrite upd_eq, Hf, Hm, flags_snoc. cbn [is_lit].
      rewrite Z.lor_comm, <- (Z.mul_1_l (2 ^ _)), lor_add_low by lia. rewrite u8_small; [lia|].
      assert (2 ^ Z.of_nat (length g) <= 2 ^ 7) by (apply Z.pow_le_mono_r; lia). lia.
    + intros k Hk. rewrite !upd_other by lia. done.
    + intros [|j] c; [|done]. intros [= <-]. simpl text_buf. rewrite Ht. rewrite Z.add_0_r. apply upd_eq.
  - unfold THRESHOLD in H2. destruct HM as (i & Ei & Hi & H60 & Hst); [lia|].
    rewrite aset_ok by (unfold n_code; lia). cbn [rbind]. rewrite aset_ok by (unfold n_code; lia). cbn [rbind].
    eexists _, _, (Ref (match_position sp) L0), L0. split; [done|]. split; [done|]. split; [lia|].
    split; [|split; [|split; [done|apply HS']]].
    + split; [done|]. split; [lia|]. exists i. split; [done|]. split; [lia|]. split; [lia|]. intros k Hk. apply Hst; lia.
    + apply (held_snoc b g (Ref (match_position sp) L0)); [done| | |].
      * rewrite !upd_other by lia. rewrite flags_snoc, Hf. simpl. lia.
      * intros k Hk. rewrite !upd_other by lia. done.
      * intros [|[|j]] c; [| |done]; intros [= <-].
        -- rewrite Z.add_0_r, upd_other by lia. apply upd_eq.
        -- apply upd_eq.
Qed.

Lemma send_held dstlen b g dst :
  held b g -> (length g <= 8)%nat -> Z.of_nat (length dst) <= dstlen ->
  exists o, send (Z.to_nat (code_buf_ptr b)) dstlen b 0 dst = Ok o /\
    match o with
    | Sent dst' => dst' = dst ++ gbytes g /\ Z.of_nat (length dst') <= dstlen
    | Null dst' => dstlen < Z.of_nat (length (dst ++ gbytes g)) /\ Z.of_nat (length dst') <= dstlen
    end.
Proof using Type.
  intros Hh Hg Hd. pose proof (payload_length g). pose proof (held_ptr _ _ Hh) as Hp.
  apply send_spec; [|by rewrite Hp, Nat2Z.id|done| |done].
  - intros j c Hj. by apply (held_buf _ _ Hh).
  - rewrite Hp, Nat2Z.id. unfold gbytes. simpl length. lia.
Qed.

(** The bytes sent so far are those of complete groups. *)
Lemma shift_mask_spec dstlen b g dst :
  held b g -> (1 <= length g <= 8)%nat -> mask b = 2 ^ (Z.of_nat (length g) - 1) -> Z.of_nat (length dst) <= dstlen ->
  exists o, shift_mask dstlen b dst = Ok o /\
    match o with
    | Null dst' => length g = 8%nat /\ dstlen < Z.of_nat (length (dst ++ gbytes g)) /\ Z.of_nat (length dst') <= dstlen
    | Sent (b', dst') =>
        (length g < 8)%nat /\ dst' = dst /\ codes b' g \/
        length g = 8%nat /\ dst' = dst ++ gbytes g /\ codes b' [] /\ Z.of_nat (length dst') <= dstlen
    end.
Proof using Type.
  intros Hh Hg Hm Hdl. pose proof (payload_length g) as Hpl. pose proof (held_ptr _ _ Hh) as Hp. unfold shift_mask.
  assert (mask b .<< 1 = 2 ^ Z.of_nat (length g)) as Hs.
  { rewrite Z.shiftl_mul_pow2, Hm, <- Z.pow_add_r by lia. f_equal. lia. }
  rewrite Hs. destruct (decide (length g = 8%nat)) as [E8|N8].
  - rewrite E8. change (u8 (2 ^ Z.of_nat 8) =? 0) with true. cbv iota.
    destruct (send_held dstlen b g dst Hh ltac:(lia) Hdl) as (o & -> & Ho). cbn [rbind].
    destruct o as [dst'|dst']; eexists; (split; [done|]).
    + destruct Ho as [-> Ho]. right. split; [done|]. split; [done|]. split; [|done]. split; [|split; [simpl; lia|done]].
      constructor; [done|]. intros [|k] c; simpl; [by intros [= <-]|done].
    + split; [done|exact Ho].
  - assert (0 < 2 ^ Z.of_nat (length g) <= 2 ^ 7) as Hr by (split; [apply Z.pow_pos_nonneg; lia|apply Z.pow_le_mono_r; lia]).
    rewrite u8_small by lia. rewrite (proj2 (Z.eqb_neq _ _)) by lia. eexists. split; [done|]. left.
    split; [lia|]. split; [done|]. split; [by destruct Hh|]. split; [simpl; lia|done].
Qed.

(** ** The main loop *)

Definition ser (gs : list (list unit_)) : list Z := concat (gbytes <$> gs).

Lemma ser_snoc gs g : ser (gs ++ [g]) = ser gs ++ gbytes g.
Proof using Type. unfold ser. rewrite fmap_app, concat_app. simpl. by rewrite app_nil_r. Qed.

Lemma payload_app us us' : payload (us ++ us') = payload us ++ payload us'.
Proof using Type. unfold payload. by rewrite fmap_app, concat_app. Qed.

Lemma ser_length gs :
  Forall (fun g => length g = 8%nat) gs ->
  length (ser gs) = (length gs + length (payload (concat gs)))%nat /\ length (concat gs) = (8 * length gs)%nat.
Proof using Type.
  induction 1 as [|g gs Hg _ [IH1 IH2]]; [done|]. change (ser (g :: gs)) with (gbytes g ++ ser gs). cbn [concat].
  rewrite payload_app, !length_app, IH1, IH2, Hg. unfold gbytes. simpl length. lia.
Qed.

(** The size of the code for [n] characters. *)
Lemma ser_bound gs g t :
  Forall (fun g => length g = 8%nat) gs -> spells 0 (concat gs ++ g) t ->
  Z.of_nat (length (ser gs ++ (if decide (g = []) then [] else gbytes g))) <= t + (t + 7) / 8.
Proof using Type.
  intros Hgs Hsp. apply spells_bound in Hsp as [Hp Hu]. destruct (ser_length gs Hgs) as [E1 E2].
  rewrite payload_app, length_app in Hp. rewrite length_app, E2 in Hu. rewrite length_app, E1. case_decide; subst; [simpl in *|unfold gbytes; simpl length].
  - zdm.
  - assert (1 <= length g)%nat by (destruct g; [done|simpl; lia]). zdm.
Qed.

(** What the loop has done: complete groups, and one that is open. *)
Definition encoded (dstlen : Z) (gs : list (list unit_)) (g : list unit_) (b : code) (dst : list Z) (t : Z) : Prop :=
  Forall (fun g => length g = 8%nat) gs /\ codes b g /\ (dst = ser gs /\ Z.of_nat (length dst) <= dstlen) /\
  spells 0 (concat gs ++ g) t.

Lemma encode_loop_spec fuel dstlen t len src sp b g gs dst :
  state t len src sp -> matched t len sp -> 0 < len -> encoded dstlen gs g b dst t -> len + Z.of_nat (length src) <= Z.of_nat fuel ->
  exists o, encode_loop fuel dstlen sp (t mod 4096) ((4078 + t) mod 4096) len src b dst = Ok o /\
    match o with
    | Null dst' => dstlen < Z.of_nat (length all) + (Z.of_nat (length all) + 7) / 8 /\ Z.of_nat (length dst') <= dstlen
    | Sent (b', dst') => exists gs' g', encoded dstlen gs' g' b' dst' (Z.of_nat (length all))
    end.
Proof using Hall.
  revert t len src sp b g gs dst.
  induction fuel as [|fuel IH]; intros t len src sp b g gs dst HS HM Hlen (Hgs & Hc & [Hd Hdl] & Hsp) Hf; [lia|].
  cbn [encode_loop]. pose proof Hc as (Hh & Hg & Hmask).
  destruct (emit_unit_spec t len src sp b g HS HM Hlen Hc) as (sp1 & b1 & u & L & -> & EL & HL & Hu & Hh1 & Hm1 & HS1).
  cbn [rbind]. pose proof (spells_snoc _ _ _ _ _ Hsp Hu) as Hsp1. rewrite <- app_assoc in Hsp1.
  assert (length (g ++ [u]) = S (length g)) as Hlg by (rewrite length_app; simpl; lia).
  pose proof (state_sum _ _ _ _ HS1) as Hsum.
  destruct (shift_mask_spec dstlen b1 (g ++ [u]) dst) as (o & -> & Ho); [done|lia|rewrite Hm1, Hmask; f_equal; lia|done|].
  cbn [rbind]. destruct o as [[b2 dst2]|dst2].
  2: { eexists. split; [done|]. destruct Ho as (H8 & Ho & Hdl2). subst dst.
       pose proof (ser_bound gs (g ++ [u]) (t + L) Hgs Hsp1) as Hb. rewrite decide_False in Hb by (by destruct g).
       assert ((t + L + 7) / 8 <= (Z.of_nat (length all) + 7) / 8) by (apply Z.div_le_mono; lia). lia. }
  assert (exists gs2 g2, encoded dstlen gs2 g2 b2 dst2 (t + L)) as (gs2 & g2 & HE2).
  { destruct Ho as [(H8 & -> & Hc2)|(H8 & -> & Hc2 & Hdl2)].
    - by exists gs, (g ++ [u]).
    - exists (gs ++ [g ++ [u]]), []. split; [by apply Forall_app; split; [done|constructor; [done|constructor]]|]. split; [done|]. split; [split; [by rewrite ser_snoc, Hd|done]|].
      rewrite app_nil_r, concat_app. simpl. by rewrite app_nil_r. }
  rewrite EL. destruct (slide_spec (Z.to_nat L) t len src sp1 HS1 Hlen) as (sp2 & src2 & k' & -> & Hk' & HS2 & Hend & HM2).
  cbn [rbind]. rewrite Z2Nat.id in * by lia.
  assert (exists sp3, drain k' sp2 ((t + L - Z.of_nat k') mod 4096) ((4078 + (t + L - Z.of_nat k')) mod 4096) len =
      Ok (sp3, (t + L) mod 4096, (4078 + (t + L)) mod 4096, len - Z.of_nat k') /\
    state (t + L) (len - Z.of_nat k') src2 sp3 /\
    (0 < len - Z.of_nat k' -> matched (t + L) (len - Z.of_nat k') sp3)) as (sp3 & -> & HS3 & HM3).
  { destruct (decide (k' = 0%nat)) as [->|Hk].
    - replace (t + L - Z.of_nat 0) with (t + L) in * by lia. replace (len - Z.of_nat 0) with len by lia.
      exists sp2. split; [done|]. split; [done|]. intros _. apply HM2. left. lia.
    - rewrite (Hend Hk) in *. destruct (drain_spec k' (t + L - Z.of_nat k') len sp2) as (sp3 & E3 & HS3 & HM3); [done|lia|].
      replace (t + L - Z.of_nat k' + Z.of_nat k') with (t + L) in * by lia.
      exists sp3. split; [done|]. split; [done|]. apply HM3. left. lia. }
  cbn [rbind]. pose proof (state_sum _ _ _ _ HS3) as Hsum3. destruct (Z.ltb_spec 0 (len - Z.of_nat k')).
  - apply (IH _ _ _ _ _ g2 gs2); [done|auto|done|done|lia].
  - eexists. split; [done|]. exists gs2, g2. pose proof (state_len _ _ _ _ HS3).
    assert (src2 = []) as ->. { destruct src2; [done|]. pose proof (state_full _ _ _ _ HS3 ltac:(done)). lia. }
    simpl in Hsum3. replace (Z.of_nat (length all)) with (t + L) by lia. done.
Qed.

(** ** The start *)

Lemma init_trees : trees 4078 4078 init_state.
Proof using Type.
  exists (fun _ => Leaf). split; [|by intros c x ?%elem_of_nil]. constructor; try done.
  - intros c Hc. simpl. unfold get, init_state, fill, RBSIZE. cbn [rchild fst snd root].
    rewrite (proj2 (Z.leb_le _ _)), (proj2 (Z.ltb_lt _ _)) by (unfold root, RBSIZE; simpl; lia). done.
  - intros c. constructor.
  - by intros c c' x ?%elem_of_nil.
  - intros x Hx _. unfold init_state, fill. cbn [parent].
    by rewrite (proj2 (Z.leb_le _ _)), (proj2 (Z.ltb_lt _ _)) by lia.
Qed.

Lemma read_first_spec k sp len :
  0 <= len -> len + Z.of_nat k = 18 -> trees 4078 4078 sp ->
  (forall i, 0 <= i < 4078 + len -> text_buf sp i = st i) -> Z.of_nat (length all) >= len ->
  exists sp' len', read_first k sp 4078 len (drop (Z.to_nat len) all) = Ok (sp', len', drop (Z.to_nat len') all) /\
    len <= len' <= 18 /\ (len' < 18 -> Z.of_nat (length all) = len') /\ len' <= Z.of_nat (length all) /\
    trees 4078 4078 sp' /\ (forall i, 0 <= i < 4078 + len' -> text_buf sp' i = st i).
Proof using Type.
  revert sp len. induction k as [|k IH]; intros sp len Hlen Hk HT Htext Hall'.
  { exists sp, len. cbn [read_first]. split_and!; try done; lia. }
  cbn [read_first]. destruct (drop (Z.to_nat len) all) as [|c src] eqn:E.
  { exists sp, len. rewrite E. apply (f_equal length) in E. rewrite length_drop in E. simpl in E. split_and!; try done; lia. }
  assert (len < Z.of_nat (length all)) as Hlt.
  { apply (f_equal length) in E. rewrite length_drop in E. simpl in E. lia. }
  symmetry in E. apply (src_head 0 len) in E as [Hc ->]; [|lia].
  destruct (trees_text _ _ sp (4078 + len) c ltac:(rewrite n_text_val; lia) HT) as (sp1 & -> & E1 & HT1). cbn [rbind].
  change (0 + len + 1) with (len + 1).
  destruct (IH sp1 (len + 1)) as (sp' & len' & -> & Hl & Hfull & Hle & HT' & Htext'); [lia|lia|done| | |].
  - intros i Hi. rewrite E1. destruct (decide (i = 4078 + len)) as [->|]; [by rewrite upd_eq, Hc, Z.add_0_r|].
    rewrite upd_other by done. apply Htext. lia.
  - lia.
  - exists sp', len'. split_and!; try done; lia.
Qed.

Lemma insert_first_spec k sp i :
  1 <= i -> i + Z.of_nat k = 19 -> trees (4079 - i) 4078 sp -> (forall j, 0 <= j < 4078 -> text_buf sp j = 32) ->
  exists sp', insert_first k sp 4078 i = Ok sp' /\ text_buf sp' = text_buf sp /\ trees 4060 4078 sp'.
Proof using Type.
  revert sp i. induction k as [|k IH]; intros sp i Hi Hk HT Htext; cbn [insert_first].
  { exists sp. replace (4079 - i) with 4060 in HT by lia. done. }
  destruct HT as (F & HF & Hx). assert (text_buf sp (4078 - i) = 32) as Hkey by (apply Htext; lia).
  destruct (insert_node_spec F sp (4078 - i)) as (sp1 & t' & -> & HF1 & Hn1 & E1 & _).
  - done.
  - unfold RBSIZE. lia.
  - rewrite Hkey. lia.
  - intros c' Hin. apply Hx in Hin as (j & E & Hj & H60 & _). rewrite Z.mod_small in E by lia. lia.
  - cbn [rbind]. destruct (IH sp1 (i + 1)) as (sp' & -> & E' & HT'); [lia|lia| |by rewrite E1|].
    + replace (4079 - (i + 1)) with (4078 - i) by lia. exists (plant (text_buf sp (4078 - i)) t' F). split; [done|].
      intros c x. unfold plant. rewrite Hkey in *. assert (st (4078 - i) = 32) as Hst.
      { unfold st. by rewrite (proj2 (Z.ltb_lt _ _)) by lia. }
      assert (forall c x, x ∈ nodes (F c) -> exists j, x = j mod 4096 /\ 4078 - i <= j < 4078 /\ 4060 <= j /\ st j = c) as Hx'.
      { intros c' x' Hin. destruct (Hx c' x' Hin) as (j & ? & ? & ? & ?). exists j. split_and!; try done; lia. }
      destruct (Z.eqb_spec c 32) as [->|]; [|apply Hx']. intros [-> |Hin]%Hn1; [|by apply Hx'].
      exists (4078 - i). rewrite Z.mod_small by lia. split_and!; try done; lia.
    + exists sp'. split; [done|]. split; [congruence|done].
Qed.

Lemma no_code_codes junk : codes (no_code junk) [].
Proof using Type.
  split; [|split; [simpl; lia|done]]. constructor; [done|]. intros [|k] c; simpl; [by intros [= <-]|done].
Qed.

(** The units of the whole text, from the code that was sent. *)
Lemma compress_spec junk dstlen :
  0 <= dstlen -> exists o, compress_lzss true junk dstlen all = Ok o /\
    match o with
    | Null out => Z.of_nat (length out) <= dstlen /\
        (all = [] \/ dstlen < Z.of_nat (length all) + (Z.of_nat (length all) + 7) / 8)
    | Sent out => Z.of_nat (length out) <= dstlen /\
        exists gs g, out = ser gs ++ (if decide (g = []) then [] else gbytes g) /\
        Forall (fun g => length g = 8%nat) gs /\ (length g < 8)%nat /\ spells 0 (concat gs ++ g) (Z.of_nat (length all))
    end.
Proof using Hall.
  intros Hd0. unfold compress_lzss. cbn [negb]. change (RBSIZE - UPLIM) with 4078.
  destruct (read_first_spec (Z.to_nat UPLIM) init_state 0) as (sp & len & E & Hlen & Hfull & Hle & HT & Htext);
    [lia|done|apply init_trees| |lia|].
  { intros i Hi. unfold init_state, fill, st. cbn [text_buf]. change (RBSIZE - UPLIM) with 4078.
    by rewrite (proj2 (Z.leb_le _ _)), (proj2 (Z.ltb_lt _ _)) by lia. }
  change (Z.to_nat 0) with 0%nat in E. rewrite drop_0 in E. rewrite E. cbn [rbind].
  unfold truth. destruct (Z.eqb_spec len 0) as [->|Hne]; cbn [negb].
  { eexists. split; [done|]. split; [done|]. left. destruct all; [done|]. simpl in Hfull. lia. }
  destruct (insert_first_spec (Z.to_nat UPLIM) sp 1) as (sp1 & -> & E1 & HT1); [lia|done|done| |].
  { intros j Hj. rewrite Htext by lia. unfold st. by rewrite (proj2 (Z.ltb_lt _ _)) by lia. }
  cbn [rbind]. assert (ring 0 len (text_buf sp1)) as HR.
  { rewrite E1. constructor; [|intros; lia]. intros i Hi. rewrite Z.mod_small by lia. apply Htext. lia. }
  assert (trees 0 (4078 + 0) sp1) as HT1'.
  { destruct HT1 as (F & HF & Hx). exists F. split; [done|]. intros c x Hin. destruct (Hx c x Hin) as (j & ? & ? & ? & ?).
    exists j. split_and!; try done; lia. }
  destruct (insert_step 0 len sp1) as (sp2 & E2 & Ex2 & HT2 & HM2); [done|done|lia|lia|].
  change ((4078 + 0) mod 4096) with 4078 in E2. rewrite E2. cbn [rbind].
  destruct (encode_loop_spec (length all) dstlen 0 len (drop (Z.to_nat len) all) sp2 (no_code junk) [] [] []) as (o & Eo & Ho).
  - constructor; try done; try lia.
    + intros Hd. destruct (decide (len = 18)); [done|]. destruct Hd. apply drop_ge. lia.
    + rewrite length_drop. lia.
    + by rewrite Ex2.
  - done.
  - lia.
  - split; [constructor|]. split; [apply no_code_codes|]. split; [done|constructor].
  - rewrite length_drop. lia.
  - change (0 mod 4096) with 0 in Eo. change ((4078 + 0) mod 4096) with 4078 in Eo. rewrite Eo. cbn [rbind].
    destruct o as [[b dst]|dst]; [|destruct Ho; eexists; split; [done|]; split; [done|by right]].
    destruct Ho as (gs & g & Hgs & (Hh & Hg & Hm) & [Hd Hdl] & Hsp). pose proof (held_ptr _ _ Hh) as Hp.
    pose proof (ser_bound gs g _ Hgs Hsp) as Hbound. destruct (decide (g = [])) as [->|Hgn].
    + rewrite Hp. simpl. exists (Sent dst). split; [done|]. split; [done|]. exists gs, []. rewrite decide_True, app_nil_r by done.
      split_and!; try done; simpl; lia.
    + pose proof (payload_length g). unfold gbytes in Hp. simpl length in Hp.
      assert (1 <= length (payload g))%nat by (destruct g as [|u g]; [done|]; change (payload (u :: g)) with (ubytes u ++ payload g); destruct u; simpl; lia).
      rewrite (proj2 (Z.ltb_lt _ _)) by lia. destruct (send_held dstlen b g dst Hh ltac:(lia) Hdl) as (o & -> & Ho).
      eexists. split; [done|]. destruct o as [out|out], Ho as [Ho Hol].
      * subst out. split; [done|]. exists gs, g. rewrite decide_False by done. subst dst. split_and!; done.
      * split; [done|]. right. subst dst. lia.
Qed.

(** The code is bytes. *)
Lemma gbytes_range t g t' :
  spells t g t' -> (length g <= 8)%nat -> Forall (fun c => 0 <= c < 256) (gbytes g).
Proof using Hall.
  intros Hsp Hg. constructor.
  - pose proof (flags_range g). assert (2 ^ Z.of_nat (length g) <= 2 ^ 8) by (apply Z.pow_le_mono_r; lia). lia.
  - clear Hg. induction Hsp as [|t u L us t' Hu _ IH]; [constructor|].
    change (payload (u :: us)) with (ubytes u ++ payload us). apply Forall_app. split; [|done].
    destruct u; simpl in *; repeat constructor; try apply u8_range; try (destruct Hu as [_ ->]; apply st_range).
Qed.

Lemma ser_range t gs t' :
  spells t (concat gs) t' -> Forall (fun g => length g = 8%nat) gs -> Forall (fun c => 0 <= c < 256) (ser gs).
Proof using Hall.
  intros Hsp Hgs. revert t Hsp. induction Hgs as [|g gs Hg _ IH]; intros t Hsp; [constructor|].
  apply spells_split in Hsp as (t1 & H1 & H2). change (ser (g :: gs)) with (gbytes g ++ ser gs). apply Forall_app.
  split; [eapply gbytes_range; [exact H1|lia]|by eapply IH].
Qed.

Lemma code_range gs g :
  Forall (fun g => length g = 8%nat) gs -> (length g < 8)%nat -> spells 0 (concat gs ++ g) (Z.of_nat (length all)) ->
  Forall (fun c => 0 <= c < 256) (ser gs ++ (if decide (g = []) then [] else gbytes g)).
Proof using Hall.
  intros Hgs Hg (t1 & H1 & H2)%spells_split. apply Forall_app. split; [by eapply ser_range|].
  case_decide; [constructor|]. eapply gbytes_range; [exact H2|lia].
Qed.

Lemma decode_end fuel dstlen fl text r dst :
  (0 < fuel)%nat -> decode_loop fuel dstlen fl text r [] dst = Ok dst.
Proof using Type.
  destruct fuel as [|fuel]; [lia|]. intros _. cbn [decode_loop]. unfold decode_unit.
  destruct (_ =? 0); [done|]. by destruct (truth (fl .>> 1 .& 1)).
Qed.

Lemma dec_start junk : dec 0 (fill junk 0 (RBSIZE - UPLIM) 32) (RBSIZE - UPLIM) [].
Proof using Type.
  constructor; [done|done| |done]. intros i H0 Hi. rewrite Z.mod_small by lia. unfold fill, st.
  change (RBSIZE - UPLIM) with 4078. by rewrite (proj2 (Z.leb_le _ _)), (proj2 (Z.ltb_lt _ _)) by lia.
Qed.

Lemma dec_all text r dst : dec (Z.of_nat (length all)) text r dst -> dst = all.
Proof using Type.
  intros [_ -> _ _]. rewrite Nat2Z.id. apply list_eq. intros k. rewrite list_lookup_fmap.
  destruct (decide (k < length all)%nat) as [Hk|Hk].
  - rewrite lookup_seq_lt by done. simpl. unfold st. rewrite (proj2 (Z.ltb_ge _ _)) by lia.
    replace (Z.to_nat (4078 + Z.of_nat k - 4078)) with k by lia.
    destruct (lookup_lt_is_Some_2 all k Hk) as [c Hc]. rewrite Hc. f_equal. by apply nth_lookup_Some.
  - rewrite lookup_seq_ge by lia. simpl. symmetry. apply lookup_ge_None. lia.
Qed.

Lemma decompress_spec junk dstlen gs g :
  Forall (fun g => length g = 8%nat) gs -> (length g < 8)%nat -> spells 0 (concat gs ++ g) (Z.of_nat (length all)) ->
  Z.of_nat (length all) <= dstlen ->
  decompress_lzss junk dstlen (ser gs ++ (if decide (g = []) then [] else gbytes g)) = Ok all.
Proof using Type.
  intros Hgs Hg Hsp Hlen. unfold decompress_lzss, ser. set (tail := if decide (g = []) then [] else gbytes g).
  apply spells_split in Hsp as (t1 & Hs1 & Hs2). pose proof (spells_bound _ _ _ Hs2) as [_ Hpos].
  destruct (decode_groups dstlen gs 0 0 t1 (S (length (concat (gbytes <$> gs) ++ tail))) (fill junk 0 (RBSIZE - UPLIM) 32)
    (RBSIZE - UPLIM) tail []) as (f1 & fl1 & text1 & r1 & dst1 & -> & Hfl & HD & Hf1); [done|done|done|lia|apply dec_start|lia|].
  subst tail. destruct (decide (g = [])) as [->|Hgn].
  - inversion Hs2; subst. rewrite decode_end by (simpl in Hf1; lia). f_equal. by eapply dec_all.
  - destruct (decode_group dstlen fl1 g t1 (Z.of_nat (length all)) f1 text1 r1 [] dst1) as (f2 & text2 & r2 & dst2 & E & HD2 & Hf2).
    { done. } { destruct g; [done|simpl in *; lia]. } { done. } { done. } { done. } { by rewrite app_nil_r. }
    rewrite app_nil_r in E. rewrite E, decode_end by (simpl in Hf2; lia). f_equal. by eapply dec_all.
Qed.
End text.

(** ** Theorems *)

(** C8: the encoder ends without leaving its arrays or the destination, whatever
    the text and the size of the destination.  If it succeeds, the decoder gives back the text;
    it fails only for an empty text or a destination that has less than a byte
    for every character and every eight of them. *)
Theorem lzss_roundtrip src junk junk' dstlen dstlen' :
  Forall (fun c => 0 <= c < 256) src -> 0 <= dstlen -> Z.of_nat (length src) <= dstlen' ->
  exists o, compress_lzss true junk dstlen src = Ok o /\
    match o with
    | Sent out => Z.of_nat (length out) <= dstlen /\ decompress_lzss junk' dstlen' out = Ok src
    | Null out => Z.of_nat (length out) <= dstlen /\
        (src = [] \/ dstlen < Z.of_nat (length src) + (Z.of_nat (length src) + 7) / 8)
    end.
Proof.
  intros Hsrc Hd Hlen. destruct (compress_spec src Hsrc junk dstlen Hd) as (o & -> & Ho). exists o. split; [done|].
  destruct o as [out|out]; [|done]. destruct Ho as (Ho & gs & g & -> & Hgs & Hg & Hsp). split; [done|by apply decompress_spec].
Qed.

Lemma lzss_roundtrip_witness :
  let src := [97; 98; 99; 97; 98; 99; 97; 98; 99; 100] in
  exists o, compress_lzss true (fun _ => 7) 12 src = Ok o /\
    match o with
    | Sent out => Z.of_nat (length out) <= 12 /\ decompress_lzss (fun _ => 9) 10 out = Ok src
    | Null out => Z.of_nat (length out) <= 12 /\
        (src = [] \/ 12 < Z.of_nat (length src) + (Z.of_nat (length src) + 7) / 8)
    end.
Proof.
  apply (lzss_roundtrip [97; 98; 99; 97; 98; 99; 97; 98; 99; 100] (fun _ => 7) (fun _ => 9) 12 10).
  - repeat (constructor; [lia|]). constructor.
  - lia.
  - simpl. lia.
Defined.

Lemma decompress_lzss_safe_witness :
  exists out, decompress_lzss (fun _ => 200) 5 [0; 255; 255; 1; 2; 3] = Ok out /\ Z.of_nat (length out) <= 5.
Proof. apply (decompress_lzss_safe (fun _ => 200) 5 [0; 255; 255; 1; 2; 3]). lia. Defined.
