(* ===== verification/Compression.v ===== *)
(** Lilu's compression interface: the functions around the decoders in
    [src/Lilu/Lilu/Sources/kern_compression.cpp], with LZSS ([Lzss.v]) and LZVN
    ([Lzvn.v]).  XNU's zlib is an argument.

    Memory is bytes; a buffer that is not given is allocated at an address the
    kernel chooses.  The results say whether that buffer is still allocated.  The
    source and destination buffers do not overlap. *)

From Stdlib Require Import ZArith Lia List Bool.
From stdpp Require Import prelude.
From S2P Require Import Prelude KUtil Lzvn Lzss LzssThm.

Open Scope Z_scope.

Definition ModeLZVN : Z := 0x6E767A6C.
Definition ModeLZSS : Z := 0x73737A6C.
Definition ModeZLIB : Z := 0x9C787A6C.
Definition Z_OK : Z := 0.
Definition Z_STREAM_END : Z := 1.

(** The memory of zlib: the size is kept in front of the data.  [at_]: where
    [IOMalloc] puts it, if it can. *)
Definition z_alloc (m : mem) (num_items size : Z) (at_ : option Z) : option Z * Z * mem :=
  let total := u32 (num_items * size) in
  let allocSize := u32 (total + 8) in
  match at_ with
  | Some zmem => (Some (zmem + 4), allocSize, st32 m zmem allocSize)
  | None => (None, allocSize, m)
  end.

(** What is passed to [IOFree]. *)
Definition z_free (m : mem) (ptr : Z) : Z * Z :=
  let zmem := ptr - 4 in (zmem, ld32 m zmem).

Section compression.
(** [inflateInit], and [inflate] of the destination and the source: its result,
    the bytes written and the memory. *)
Context (inflateInit : Z) (inflate : mem -> Z -> Z -> Z -> Z -> Z * Z * mem).

(** The contents of local arrays before they are written. *)
Context (junk : arr).

Definition decompress_zlib (m : mem) (dst dstlen src srclen : Z) : Z * mem :=
  if negb (inflateInit =? Z_OK) then (0, m)
  else
    let '(zlib_result, total_out, m) := inflate m dst dstlen src srclen in
    ((if (zlib_result =? Z_STREAM_END) || (zlib_result =? Z_OK) then total_out else 0), m).

(** The result, [*dstlen], the memory, and whether a new buffer is left. *)
Record outcome := mk_out { result : option Z; newlen : Z; memory : mem; kept : bool }.

(** [Buffer::create] of bytes. *)
Definition create (size : Z) (at_ : option Z) : option Z :=
  match Buffer_create 1 size with Some _ => at_ | None => None end.

(** The caller's buffer, or a new one. *)
Definition pick_buffer (buffer : option Z) (size : Z) (at_ : option Z) : option Z :=
  match buffer with Some b => Some b | None => create size at_ end.

Definition decode_as (compression : Z) (m : mem) (dst dstlen src srclen : Z) : res (Z * mem) :=
  if compression =? ModeLZSS then
    let! out := decompress_lzss junk dstlen (bytes m src (Z.to_nat srclen)) in
    Ok (Z.of_nat (length out), write_list m dst out)
  else if compression =? ModeLZVN then lzvn_decode_buffer m dst dstlen src srclen
  else if compression =? ModeZLIB then Ok (decompress_zlib m dst dstlen src srclen)
  else Ok (0, m).

Definition decompressInternal (m : mem) (compression dstlen src srclen : Z) (buffer at_ : option Z)
    (checkResult : bool) : res outcome :=
  match pick_buffer buffer dstlen at_ with
  | Some dst =>
      let! '(size, m) := decode_as compression m dst dstlen src srclen in
      if negb checkResult || (size =? dstlen) then Ok (mk_out (Some dst) (u32 size) m (bool_decide (buffer = None)))
      else Ok (mk_out None dstlen m false)
  | None => Ok (mk_out None dstlen m false)
  end.

Definition decompress (m : mem) (compression dstlen src srclen : Z) (buffer at_ : option Z) : res outcome :=
  decompressInternal m compression dstlen src srclen buffer at_ true.
Definition decompress_any (m : mem) (compression dstlen src srclen : Z) (buffer at_ : option Z) : res outcome :=
  decompressInternal m compression dstlen src srclen buffer at_ false.

(** [Buffer::resize] of [old] bytes at [p]: [moved] is where the kernel puts them,
    if it can; on failure the buffer stays. *)
Definition resized (m : mem) (p old size : Z) (moved : option Z) : Z * mem :=
  match Buffer_resize 1 size, moved with
  | Some _, Some q => (q, mem_move m q p (Z.min old size))
  | _, _ => (p, m)
  end.

(** [state]: whether the encoder finds memory for its state. *)
Definition compress (state : bool) (m : mem) (compression dstlen src srclen : Z) (buffer at_ moved : option Z)
    : res outcome :=
  match pick_buffer buffer dstlen at_ with
  | Some dst =>
      let! o := (if compression =? ModeLZSS then compress_lzss state junk dstlen (bytes m src (Z.to_nat srclen))
                 else Ok (Null [])) in
      match o with
      | Sent out =>
          let m := write_list m dst out in
          let len := u32 (Z.of_nat (length out)) in
          let '(dst, m) := (match buffer with Some _ => (dst, m) | None => resized m dst dstlen len moved end) in
          Ok (mk_out (Some dst) len m (bool_decide (buffer = None)))
      | Null out => Ok (mk_out None dstlen (write_list m dst out) false)
      end
  | None => Ok (mk_out None dstlen m false)
  end.

(** ** Theorems *)

(** Two blocks do not overlap. *)
Definition apart (a n b k : Z) : Prop := a + n <= b \/ b + k <= a.

Lemma resized_bytes m p old size moved q m' k :
  resized m p old size moved = (q, m') -> Z.of_nat k <= Z.min old size -> bytes m' q k = bytes m p k.
Proof using Type.
  unfold resized. intros E Hk. destruct (Buffer_resize 1 size), moved; simplify_eq; try done.
  apply bytes_copy. intros i Hi. unfold ldb, mem_move.
  rewrite (proj2 (Z.leb_le _ _)), (proj2 (Z.ltb_lt _ _)) by lia. cbn [andb]. do 2 f_equal. lia.
Qed.

(** C39: with a byte for every character and every eight of them, LZSS compression
    succeeds and reports at most the bytes it was given; decompressing what it left
    in its buffer, which may have moved, into a buffer of the old length gives
    exactly the old bytes and length.  Buffers come from the caller or are new. *)
Theorem compress_decompress m src n dstlen buffer at_ moved dst buffer' at_' dst' :
  0 < n -> n + (n + 7) / 8 <= dstlen -> dstlen < 2 ^ 32 ->
  pick_buffer buffer dstlen at_ = Some dst -> pick_buffer buffer' n at_' = Some dst' -> apart src n dst dstlen ->
  exists p len m1, compress true m ModeLZSS dstlen src n buffer at_ moved =
      Ok (mk_out (Some p) len m1 (bool_decide (buffer = None))) /\ 0 <= len <= dstlen /\
    (apart p len dst' n ->
     exists m2, decompress m1 ModeLZSS n p len buffer' at_' =
        Ok (mk_out (Some dst') n m2 (bool_decide (buffer' = None))) /\
      bytes m2 dst' (Z.to_nat n) = bytes m src (Z.to_nat n)).
Proof using Type.
  intros Hn Hd Hd32 Ep Ep' _. assert (0 <= (n + 7) / 8) by (apply Z.div_pos; lia).
  pose proof (bytes_range m src (Z.to_nat n)) as Hb. pose proof (bytes_length m src (Z.to_nat n)) as Hl.
  unfold compress. rewrite Ep. change (ModeLZSS =? ModeLZSS) with true. cbv iota.
  set (all := bytes m src (Z.to_nat n)) in *.
  destruct (compress_spec all Hb junk dstlen ltac:(lia)) as (o & -> & Ho). cbn [rbind].
  destruct o as [out|out], Ho as [Hout Ho].
  2: { rewrite Hl, Z2Nat.id in Ho by lia. destruct Ho as [E|]; [rewrite E in Hl; simpl in Hl|]; lia. }
  destruct Ho as (gs & g & E & Hgs & Hg & Hsp). rewrite u32_small by lia.
  assert (exists p m1, (match buffer with
      | Some _ => (dst, write_list m dst out)
      | None => resized (write_list m dst out) dst dstlen (Z.of_nat (length out)) moved
      end) = (p, m1) /\ bytes m1 p (length out) = out) as (p & m1 & -> & Hp).
  { assert (Forall (fun c => 0 <= c < 256) out) as Ho by (subst out; by eapply code_range).
    destruct buffer; [do 2 eexists; split; [done|by apply bytes_write_list]|].
    destruct (resized _ dst dstlen _ moved) as [p m1] eqn:Er. exists p, m1. split; [done|].
    rewrite (resized_bytes _ _ _ _ _ _ _ _ Er) by lia. by apply bytes_write_list. }
  exists p, (Z.of_nat (length out)), m1. split; [done|]. split; [lia|]. intros _.
  unfold decompress, decompressInternal. rewrite Ep'. unfold decode_as. change (ModeLZSS =? ModeLZSS) with true. cbv iota.
  rewrite Nat2Z.id, Hp, E, (decompress_spec all junk n gs g) by (done || lia). cbn [rbind].
  rewrite Hl, Z2Nat.id, Z.eqb_refl, u32_small by lia. cbn [negb orb]. eexists. split; [done|].
  rewrite <- Hl. by apply bytes_write_list.
Qed.
End compression.

Definition text_memory : mem := fun a => if (100 <=? a) && (a <? 110) then 97 + (a - 100) mod 3 else 0.

Lemma compress_decompress_witness :
  exists p len m1, compress (fun _ => 7) true text_memory ModeLZSS 12 100 10 None (Some 200) (Some 300) =
      Ok (mk_out (Some p) len m1 true) /\ 0 <= len <= 12 /\
    (apart p len 400 10 ->
     exists m2, decompress 0 (fun m _ _ _ _ => (0, 0, m)) (fun _ => 7) m1 ModeLZSS 10 p len (Some 400) None =
        Ok (mk_out (Some 400) 10 m2 false) /\
      bytes m2 400 (Z.to_nat 10) = bytes text_memory 100 (Z.to_nat 10)).
Proof.
  apply (compress_decompress 0 (fun m _ _ _ _ => (0, 0, m)) (fun _ => 7) text_memory 100 10 12 None (Some 200) (Some 300)
    200 (Some 400) None 400); try reflexivity; try (vm_compute; congruence).
  left. lia.
Defined.

(** Zlib's memory is freed at the address and with the size it was allocated with,
    as long as the header stays; the block holds the data if the product does not
    wrap, and need not if it does. *)
Lemma z_alloc_free m m' num_items size zmem :
  (forall x, zmem <= x < zmem + 4 -> m' x = snd (z_alloc m num_items size (Some zmem)) x) ->
  exists ptr allocSize, fst (z_alloc m num_items size (Some zmem)) = (Some ptr, allocSize) /\
    z_free m' ptr = (zmem, allocSize) /\
    (0 <= num_items * size -> num_items * size + 8 < 2 ^ 32 -> zmem <= ptr /\ ptr + num_items * size <= zmem + allocSize) /\
    snd (fst (z_alloc m 65536 65536 (Some zmem))) = 8.
Proof.
  intros Hm. exists (zmem + 4), (u32 (u32 (num_items * size) + 8)). split; [done|]. split; [|split; [|done]].
  - unfold z_free. replace (zmem + 4 - 4) with zmem by lia. f_equal.
    transitivity (ld32 (st32 m zmem (u32 (u32 (num_items * size) + 8))) zmem).
    + apply ldn_ext. intros k Hk. by apply Hm.
    + unfold ld32, st32. rewrite ldn_stn_same. apply Z.mod_small.
      exact (u32_range (u32 (num_items * size) + 8)).
  - intros H0 H1. rewrite (u32_small (num_items * size)), u32_small by lia. lia.
Qed.
