(* ===== verification/X86Tables.v ===== *)
(** The decoder tables of Capstone's X86 back end, reduced configuration, as
    numbers: [arch/X86/X86GenDisassemblerTables_reduce.inc] and the tables of
    [X86GenInstrInfo_reduce.inc], with the enumerations of
    [X86DisassemblerDecoderCommon.h] replaced by their values.

    Rows that repeat are written once: a table that the source writes out is a list
    of distinct rows and the list of their positions.  A row of an opcode table has
    only its entries that are not empty. *)

From Stdlib Require Import ZArith List.
From stdpp Require Import prelude.
From S2P Require Import Prelude.

Open Scope Z_scope.

(** An element of an array, if the index is inside. *)
Definition tget {A} (l : list A) (k : Z) : option A := if 0 <=? k then l !! Z.to_nat k else None.

(** The distinct rows of 32 contexts. *)
Definition context_rows : list (list Z) := [
  [
   0; 1; 6; 13; 5; 12; 6; 13; 0; 9; 6; 16; 5; 17; 6; 16; 2; 10; 8; 15; 7; 14; 8; 14; 2; 18; 8; 16; 7; 17; 8; 16];
  [
   3; 11; 6; 13; 5; 12; 6; 13; 3; 11; 6; 16; 5; 17; 6; 16; 2; 10; 8; 15; 7; 14; 8; 14; 2; 18; 8; 16; 7; 17; 8; 16];
  [
   19; 19; 20; 20; 21; 21; 21; 21; 23; 23; 24; 24; 25; 25; 25; 25; 22; 22; 22; 22; 22; 22; 22; 22; 26; 26; 26; 26;
   26; 26; 26; 26];
  [
   27; 27; 28; 28; 29; 29; 29; 29; 31; 31; 32; 32; 33; 33; 33; 33; 30; 30; 30; 30; 30; 30; 30; 30; 34; 34; 34; 34;
   34; 34; 34; 34];
  [
   35; 35; 36; 36; 37; 37; 37; 37; 39; 39; 40; 40; 41; 41; 41; 41; 38; 38; 38; 38; 38; 38; 38; 38; 42; 42; 42; 42;
   42; 42; 42; 42];
  [
   43; 43; 44; 44; 45; 45; 45; 45; 47; 47; 48; 48; 49; 49; 49; 49; 46; 46; 46; 46; 46; 46; 46; 46; 50; 50; 50; 50;
   50; 50; 50; 50];
  [
   51; 51; 52; 52; 53; 53; 53; 53; 55; 55; 56; 56; 57; 57; 57; 57; 54; 54; 54; 54; 54; 54; 54; 54; 58; 58; 58; 58;
   58; 58; 58; 58];
  [
   59; 59; 60; 60; 61; 61; 61; 61; 63; 63; 64; 64; 65; 65; 65; 65; 62; 62; 62; 62; 62; 62; 62; 62; 66; 66; 66; 66;
   66; 66; 66; 66];
  [
   67; 67; 68; 68; 69; 69; 69; 69; 71; 71; 72; 72; 73; 73; 73; 73; 70; 70; 70; 70; 70; 70; 70; 70; 74; 74; 74; 74;
   74; 74; 74; 74];
  [
   75; 75; 76; 76; 77; 77; 77; 77; 79; 79; 80; 80; 81; 81; 81; 81; 78; 78; 78; 78; 78; 78; 78; 78; 82; 82; 82; 82;
   82; 82; 82; 82];
  [
   155; 155; 156; 156; 157; 157; 157; 157; 159; 159; 160; 160; 161; 161; 161; 161; 158; 158; 158; 158; 158; 158;
   158; 158; 162; 162; 162; 162; 162; 162; 162; 162];
  [
   163; 163; 164; 164; 165; 165; 165; 165; 167; 167; 168; 168; 169; 169; 169; 169; 166; 166; 166; 166; 166; 166;
   166; 166; 170; 170; 170; 170; 170; 170; 170; 170];
  [
   171; 171; 172; 172; 173; 173; 173; 173; 175; 175; 176; 176; 177; 177; 177; 177; 174; 174; 174; 174; 174; 174;
   174; 174; 178; 178; 178; 178; 178; 178; 178; 178];
  [
   83; 83; 84; 84; 85; 85; 85; 85; 87; 87; 88; 88; 89; 89; 89; 89; 86; 86; 86; 86; 86; 86; 86; 86; 90; 90; 90; 90;
   90; 90; 90; 90];
  [
   91; 91; 92; 92; 93; 93; 93; 93; 95; 95; 96; 96; 97; 97; 97; 97; 94; 94; 94; 94; 94; 94; 94; 94; 98; 98; 98; 98;
   98; 98; 98; 98];
  [
   99; 99; 100; 100; 101; 101; 101; 101; 103; 103; 104; 104; 105; 105; 105; 105; 102; 102; 102; 102; 102; 102; 102;
   102; 106; 106; 106; 106; 106; 106; 106; 106];
  [
   107; 107; 108; 108; 109; 109; 109; 109; 111; 111; 112; 112; 113; 113; 113; 113; 110; 110; 110; 110; 110; 110;
   110; 110; 114; 114; 114; 114; 114; 114; 114; 114];
  [
   115; 115; 116; 116; 117; 117; 117; 117; 119; 119; 120; 120; 121; 121; 121; 121; 118; 118; 118; 118; 118; 118;
   118; 118; 122; 122; 122; 122; 122; 122; 122; 122];
  [
   123; 123; 124; 124; 125; 125; 125; 125; 127; 127; 128; 128; 129; 129; 129; 129; 126; 126; 126; 126; 126; 126;
   126; 126; 130; 130; 130; 130; 130; 130; 130; 130];
  [
   131; 131; 132; 132; 133; 133; 133; 133; 135; 135; 136; 136; 137; 137; 137; 137; 134; 134; 134; 134; 134; 134;
   134; 134; 138; 138; 138; 138; 138; 138; 138; 138];
  [
   139; 139; 140; 140; 141; 141; 141; 141; 143; 143; 144; 144; 145; 145; 145; 145; 142; 142; 142; 142; 142; 142;
   142; 142; 146; 146; 146; 146; 146; 146; 146; 146];
  [
   147; 147; 148; 148; 149; 149; 149; 149; 151; 151; 152; 152; 153; 153; 153; 153; 150; 150; 150; 150; 150; 150;
   150; 150; 154; 154; 154; 154; 154; 154; 154; 154]
].

(** For every 32 attribute masks, the row. *)
Definition context_index : list Z := [
  0; 1; 2; 2; 3; 3; 3; 3; 4; 4; 4; 4; 4; 4; 4; 4; 0; 1; 2; 2; 3; 3; 3; 3; 5; 5; 5; 5; 5; 5; 5; 5; 0; 1; 2; 2; 3; 3;
  3; 3; 6; 6; 6; 6; 6; 6; 6; 6; 0; 1; 2; 2; 3; 3; 3; 3; 6; 6; 6; 6; 6; 6; 6; 6; 0; 1; 2; 2; 3; 3; 3; 3; 7; 7; 7; 7;
  7; 7; 7; 7; 0; 1; 2; 2; 3; 3; 3; 3; 8; 8; 8; 8; 8; 8; 8; 8; 0; 1; 2; 2; 3; 3; 3; 3; 9; 9; 9; 9; 9; 9; 9; 9; 0; 1;
  2; 2; 3; 3; 3; 3; 9; 9; 9; 9; 9; 9; 9; 9; 0; 1; 2; 2; 3; 3; 3; 3; 10; 10; 10; 10; 10; 10; 10; 10; 0; 1; 2; 2; 3;
  3; 3; 3; 11; 11; 11; 11; 11; 11; 11; 11; 0; 1; 2; 2; 3; 3; 3; 3; 12; 12; 12; 12; 12; 12; 12; 12; 0; 1; 2; 2; 3;
  3; 3; 3; 12; 12; 12; 12; 12; 12; 12; 12; 0; 1; 2; 2; 3; 3; 3; 3; 10; 10; 10; 10; 10; 10; 10; 10; 0; 1; 2; 2; 3;
  3; 3; 3; 11; 11; 11; 11; 11; 11; 11; 11; 0; 1; 2; 2; 3; 3; 3; 3; 12; 12; 12; 12; 12; 12; 12; 12; 0; 1; 2; 2; 3;
  3; 3; 3; 12; 12; 12; 12; 12; 12; 12; 12; 0; 1; 2; 2; 3; 3; 3; 3; 13; 13; 13; 13; 13; 13; 13; 13; 0; 1; 2; 2; 3;
  3; 3; 3; 14; 14; 14; 14; 14; 14; 14; 14; 0; 1; 2; 2; 3; 3; 3; 3; 15; 15; 15; 15; 15; 15; 15; 15; 0; 1; 2; 2; 3;
  3; 3; 3; 15; 15; 15; 15; 15; 15; 15; 15; 0; 1; 2; 2; 3; 3; 3; 3; 16; 16; 16; 16; 16; 16; 16; 16; 0; 1; 2; 2; 3;
  3; 3; 3; 17; 17; 17; 17; 17; 17; 17; 17; 0; 1; 2; 2; 3; 3; 3; 3; 18; 18; 18; 18; 18; 18; 18; 18; 0; 1; 2; 2; 3;
  3; 3; 3; 18; 18; 18; 18; 18; 18; 18; 18; 0; 1; 2; 2; 3; 3; 3; 3; 19; 19; 19; 19; 19; 19; 19; 19; 0; 1; 2; 2; 3;
  3; 3; 3; 20; 20; 20; 20; 20; 20; 20; 20; 0; 1; 2; 2; 3; 3; 3; 3; 21; 21; 21; 21; 21; 21; 21; 21; 0; 1; 2; 2; 3;
  3; 3; 3; 21; 21; 21; 21; 21; 21; 21; 21; 0; 1; 2; 2; 3; 3; 3; 3; 19; 19; 19; 19; 19; 19; 19; 19; 0; 1; 2; 2; 3;
  3; 3; 3; 20; 20; 20; 20; 20; 20; 20; 20; 0; 1; 2; 2; 3; 3; 3; 3; 21; 21; 21; 21; 21; 21; 21; 21; 0; 1; 2; 2; 3;
  3; 3; 3; 21; 21; 21; 21; 21; 21; 21; 21
].

Definition x86DisassemblerContexts (attrMask : Z) : option Z :=
  match tget context_index (attrMask / 32) with
  | Some r => match tget context_rows r with Some row => tget row (attrMask mod 32) | None => None end
  | None => None
  end.

(** The instructions, as the decisions select them. *)
Definition modRMTable : list Z := [
  0; 104; 108; 81; 87; 107; 109; 86; 89; 102; 78; 1051; 1018; 981; 985; 963; 968; 984; 986; 967; 969; 979; 960;
  1047; 57; 60; 40; 44; 59; 61; 43; 45; 55; 37; 1062; 1029; 1290; 1293; 1273; 1277; 1292; 1294; 1276; 1278; 1288;
  1270; 1049; 1016; 147; 151; 130; 134; 150; 152; 133; 135; 145; 127; 460; 1483; 1487; 1466; 1470; 1486; 1488;
  1469; 1471; 1481; 1463; 461; 1655; 1659; 1638; 1642; 1658; 1660; 1641; 1643; 1653; 1635; 20; 436; 439; 419; 423;
  438; 440; 422; 424; 434; 416; 23; 551; 468; 1035; 1007; 1045; 1014; 208; 0; 157; 158; 462; 1064; 525; 528; 1034;
  526; 529; 560; 561; 993; 994; 632; 623; 590; 581; 596; 620; 587; 584; 639; 629; 635; 626; 608; 599; 605; 602;
  103; 980; 56; 1289; 146; 1482; 1654; 435; 105; 982; 58; 1291; 148; 1484; 1656; 437; 79; 961; 38; 1271; 128; 1464;
  1636; 417; 82; 965; 41; 1274; 131; 1467; 1639; 420; 0; 0; 0; 0; 0; 0; 0; 0; 106; 983; 0; 0; 149; 1485; 1657; 0;
  80; 962; 39; 1272; 129; 1465; 1637; 418; 83; 966; 42; 1275; 132; 1468; 1640; 421; 1539; 1540; 1524; 1525; 1617;
  1618; 1612; 1613; 844; 852; 802; 813; 850; 854; 812; 814; 803; 815; 658; 0; 816; 817; 1008; 0; 0; 0; 0; 0; 0; 0;
  1009; 0; 0; 0; 0; 0; 0; 0; 911; 1610; 459; 285; 495; 1053; 1020; 1207; 642; 846; 804; 841; 797; 862; 863; 441;
  442; 1533; 1519; 1446; 1447; 745; 746; 1295; 1296; 848; 809; 1174; 1198; 1085; 1109; 1368; 1408; 1228; 1253;
  1177; 1201; 1088; 1112; 1371; 1411; 1231; 1256; 1162; 1186; 1073; 1097; 1356; 1396; 1216; 1241; 1165; 1189; 1076;
  1100; 1359; 1399; 1219; 1244; 1147; 1150; 664; 0; 656; 0; 843; 0; 0; 0; 0; 0; 0; 0; 849; 0; 0; 0; 0; 0; 0; 0;
  801; 0; 0; 0; 0; 0; 0; 0; 811; 0; 0; 0; 0; 0; 0; 0; 492; 661; 752; 755; 565; 563; 566; 578; 1172; 1196; 1083;
  1107; 1366; 1406; 1226; 1251; 1175; 1199; 1086; 1110; 1369; 1409; 1229; 1254; 1160; 1184; 1071; 1095; 1354; 1394;
  1214; 1239; 1163; 1187; 1074; 1098; 1357; 1397; 1217; 1242; 1173; 1197; 1084; 1108; 1367; 1407; 1227; 1252; 1176;
  1200; 1087; 1111; 1370; 1410; 1230; 1255; 1161; 1185; 1072; 1096; 1355; 1395; 1215; 1240; 1164; 1188; 1075; 1099;
  1358; 1398; 1218; 1243; 22; 21; 1232; 1625; 0; 0; 0; 0; 0; 0; 0; 0; 0; 0; 0; 0; 0; 0; 0; 0; 0; 0; 0; 0; 0; 0; 0;
  0; 0; 0; 0; 0; 0; 0; 0; 0; 0; 0; 0; 0; 0; 0; 0; 0; 0; 0; 0; 0; 503; 0; 0; 0; 0; 0; 0; 0; 0; 0; 0; 0; 0; 0; 0; 0;
  0; 0; 0; 0; 0; 0; 0; 0; 0; 0; 0; 0; 751; 750; 749; 594; 544; 542; 991; 989; 283; 619; 500; 617; 545; 543; 992;
  990; 722; 564; 1131; 1139; 505; 293; 1534; 1535; 949; 909; 897; 538; 483; 512; 1536; 1538; 950; 910; 898; 539;
  484; 513; 1520; 1521; 945; 905; 893; 522; 479; 508; 1522; 1523; 946; 906; 894; 523; 480; 509; 288; 1442; 291;
  1445; 289; 1443; 558; 475; 0; 0; 0; 0; 0; 0; 559; 476; 0; 0; 0; 0; 0; 0; 550; 467; 277; 496; 613; 501; 1036; 0;
  549; 466; 278; 0; 614; 0; 1037; 0; 1153; 1041; 1010; 0; 872; 1039; 1040; 659; 0; 1011; 0; 0; 0; 0; 0; 0; 0; 1012;
  0; 0; 0; 0; 0; 0; 0; 1611; 1054; 1021; 830; 828; 821; 819; 1148; 1151; 662; 638; 280; 554; 471; 279; 496; 615;
  501; 1042; 0; 555; 472; 281; 0; 616; 0; 1043; 0; 69; 75; 74; 77; 66; 1050; 1017; 954; 958; 957; 959; 951; 1046;
  31; 35; 34; 36; 28; 1061; 1028; 1264; 1268; 1267; 1269; 1261; 1048; 1015; 121; 125; 124; 126; 118; 1457; 1461;
  1460; 1462; 1454; 1629; 1633; 1632; 1634; 1626; 410; 414; 413; 415; 407; 547; 464; 1031; 1004; 1044; 1013; 207;
  0; 1063; 517; 520; 1030; 518; 521; 562; 995; 67; 952; 29; 1262; 119; 1455; 1627; 408; 70; 955; 32; 1265; 122;
  1458; 1630; 411; 68; 953; 30; 1263; 120; 1456; 1628; 409; 71; 956; 33; 1266; 123; 1459; 1631; 412; 1517; 1518;
  1608; 1609; 785; 792; 791; 793; 786; 794; 657; 0; 795; 796; 1005; 0; 0; 0; 0; 0; 0; 0; 1006; 0; 0; 0; 0; 0; 0; 0;
  1607; 284; 458; 493; 1052; 1019; 787; 782; 865; 444; 1512; 1449; 748; 1298; 789; 1156; 1180; 1067; 1091; 1350;
  1390; 1210; 1235; 1159; 1183; 1070; 1094; 1353; 1393; 1213; 1238; 1149; 1152; 663; 0; 655; 0; 784; 0; 0; 0; 0; 0;
  0; 0; 790; 0; 0; 0; 0; 0; 0; 0; 754; 757; 577; 1154; 1178; 1065; 1089; 1348; 1388; 1208; 1233; 1157; 1181; 1068;
  1092; 1351; 1391; 1211; 1236; 1155; 1179; 1066; 1090; 1349; 1389; 1209; 1234; 1158; 1182; 1069; 1093; 1352; 1392;
  1212; 1237; 540; 987; 282; 618; 498; 541; 988; 1513; 1514; 943; 903; 891; 514; 477; 506; 1515; 1516; 944; 904;
  892; 515; 478; 507; 546; 463; 275; 494; 611; 499; 1032; 0; 548; 465; 276; 0; 612; 0; 1033; 0; 593; 93; 99; 98;
  101; 90; 973; 977; 976; 978; 970; 49; 53; 52; 54; 46; 1282; 1286; 1285; 1287; 1279; 139; 143; 142; 144; 136;
  1475; 1479; 1478; 1480; 1472; 1647; 1651; 1650; 1652; 1644; 428; 432; 431; 433; 425; 874; 877; 533; 536; 534;
  537; 91; 971; 47; 1280; 137; 1473; 1645; 426; 94; 974; 50; 1283; 140; 1476; 1648; 429; 92; 972; 48; 1281; 138;
  1474; 1646; 427; 96; 975; 51; 1284; 141; 1477; 1649; 430; 1531; 1532; 1615; 1616; 825; 836; 835; 837; 826; 838;
  660; 0; 839; 840; 1614; 286; 457; 829; 820; 864; 443; 1526; 1448; 747; 1297; 833; 1168; 1192; 1079; 1103; 1362;
  1402; 1222; 1247; 1171; 1195; 1082; 1106; 1365; 1405; 1225; 1250; 824; 0; 0; 0; 0; 0; 0; 0; 834; 0; 0; 0; 0; 0;
  0; 0; 753; 756; 579; 1166; 1190; 1077; 1101; 1360; 1400; 1220; 1245; 1169; 1193; 1080; 1104; 1363; 1403; 1223;
  1248; 1167; 1191; 1078; 1102; 1361; 1401; 1221; 1246; 1170; 1194; 1081; 1105; 1364; 1404; 1224; 1249; 1527; 1528;
  947; 907; 895; 530; 481; 510; 1529; 1530; 948; 908; 896; 531; 482; 511; 556; 473; 279; 497; 615; 502; 1042; 0;
  557; 474; 281; 0; 616; 0; 1043; 0; 1038; 827; 818; 552; 469; 279; 494; 615; 499; 1032; 0; 553; 470; 281; 0; 616;
  0; 1033; 0; 595; 556; 473; 279; 497; 615; 502; 1032; 0; 557; 474; 281; 0; 616; 0; 1033; 0; 1432; 1453; 677; 767;
  1561; 1563; 0; 0; 1434; 1451; 678; 768; 1562; 1564; 0; 0; 1346; 1429; 669; 675; 1437; 0; 679; 570; 0; 1565; 1568;
  1578; 1587; 0; 0; 0; 0; 0; 287; 1441; 0; 0; 0; 0; 1624; 1667; 0; 0; 1567; 0; 0; 0; 1579; 1571; 1569; 1581; 1444;
  290; 1431; 571; 1439; 1439; 1439; 1439; 1439; 1439; 1439; 1439; 0; 0; 0; 0; 0; 0; 0; 0; 680; 680; 680; 680; 680;
  680; 680; 680; 1489; 1126; 0; 0; 0; 0; 0; 0; 645; 646; 760; 761; 1490; 292; 1494; 567; 1590; 1547; 0; 0; 0; 0;
  920; 921; 922; 923; 0; 0; 0; 0; 924; 925; 926; 927; 930; 928; 931; 0; 932; 0; 933; 0; 934; 0; 935; 0; 929; 0; 0;
  807; 0; 808; 0; 799; 0; 800; 1598; 1125; 1117; 1118; 1491; 1492; 504; 374; 375; 356; 357; 308; 309; 302; 303;
  320; 321; 350; 351; 314; 315; 296; 297; 386; 387; 368; 369; 380; 381; 362; 363; 338; 339; 332; 333; 344; 345;
  326; 327; 1574; 1575; 1583; 1584; 634; 625; 592; 583; 598; 622; 589; 586; 641; 631; 637; 628; 610; 601; 607; 604;
  1339; 1340; 1333; 1334; 1319; 1320; 1309; 1310; 1321; 1322; 1331; 1332; 1313; 1314; 1311; 1312; 1343; 1344; 1337;
  1338; 1341; 1342; 1335; 1336; 1329; 1330; 1323; 1324; 1327; 1328; 1325; 1326; 1056; 1023; 455; 228; 230; 1377;
  1379; 1376; 1378; 0; 0; 0; 0; 0; 0; 0; 0; 779; 0; 0; 0; 0; 0; 0; 0; 1668; 0; 0; 0; 0; 0; 0; 0; 1669; 0; 0; 0; 0;
  0; 0; 0; 0; 0; 0; 0; 0; 0; 0; 0; 0; 0; 0; 0; 0; 0; 0; 0; 0; 0; 0; 0; 0; 0; 0; 0; 0; 0; 0; 0; 0; 0; 0; 0; 0; 0; 0;
  0; 0; 0; 0; 0; 0; 0; 0; 0; 0; 0; 0; 0; 1670; 0; 0; 0; 0; 0; 0; 0; 1622; 0; 0; 0; 0; 0; 0; 0; 1619; 0; 0; 0; 0; 0;
  0; 0; 1621; 0; 0; 0; 0; 0; 0; 0; 1620; 0; 0; 0; 0; 0; 0; 0; 1623; 0; 0; 0; 0; 0; 0; 0; 0; 0; 0; 0; 0; 0; 0; 0; 0;
  0; 0; 0; 0; 0; 0; 0; 1059; 1026; 1206; 264; 266; 1417; 1419; 1416; 1418; 0; 0; 0; 0; 1663; 1661; 1665; 0; 0; 0;
  0; 0; 0; 0; 0; 0; 524; 527; 453; 454; 448; 449; 765; 0; 252; 254; 666; 0; 672; 0; 884; 886; 883; 885; 1558; 0; 0;
  0; 0; 227; 263; 251; 239; 0; 0; 0; 0; 229; 265; 253; 241; 240; 242; 211; 212; 217; 218; 869; 871; 868; 870; 1605;
  1606; 1601; 1602; 0; 452; 0; 0; 0; 0; 1572; 1573; 0; 0; 0; 0; 0; 0; 1120; 1123; 221; 1347; 1430; 670; 676; 1437;
  0; 679; 570; 0; 1565; 1568; 1578; 1587; 0; 0; 0; 0; 0; 287; 1441; 0; 0; 0; 0; 1624; 1667; 0; 0; 1567; 0; 0; 0;
  1580; 1571; 1570; 1582; 1444; 290; 1431; 572; 1439; 1439; 1439; 1439; 1439; 1439; 1439; 1439; 0; 0; 0; 0; 0; 0;
  0; 0; 680; 680; 680; 680; 680; 680; 680; 680; 1489; 1126; 0; 0; 0; 0; 0; 0; 0; 831; 0; 832; 0; 822; 0; 823; 1576;
  1577; 1585; 1586; 1057; 1024; 456; 1060; 1027; 1432; 1453; 677; 767; 1561; 1563; 0; 0; 1433; 1450; 678; 768;
  1562; 1564; 0; 0; 1345; 1428; 668; 674; 1437; 0; 679; 570; 0; 1565; 1568; 1578; 1587; 0; 0; 0; 0; 0; 287; 1441;
  0; 0; 0; 0; 1624; 1667; 0; 0; 1567; 0; 0; 0; 1579; 1571; 1569; 1581; 1444; 290; 1431; 571; 1438; 1438; 1438;
  1438; 1438; 1438; 1438; 1438; 0; 0; 0; 0; 0; 0; 0; 0; 680; 680; 680; 680; 680; 680; 680; 680; 1489; 1126; 0; 0;
  0; 0; 0; 0; 643; 644; 758; 759; 0; 0; 0; 0; 912; 913; 914; 915; 0; 0; 0; 0; 916; 917; 918; 919; 937; 928; 938; 0;
  939; 0; 940; 0; 941; 0; 942; 0; 936; 0; 372; 373; 354; 355; 306; 307; 300; 301; 318; 319; 348; 349; 312; 313;
  294; 295; 384; 385; 366; 367; 378; 379; 360; 361; 336; 337; 330; 331; 342; 343; 324; 325; 633; 624; 591; 582;
  597; 621; 588; 585; 640; 630; 636; 627; 609; 600; 606; 603; 1055; 1022; 224; 226; 1373; 1375; 1372; 1374; 1058;
  1025; 260; 262; 1413; 1415; 1412; 1414; 516; 519; 446; 447; 764; 0; 248; 250; 665; 0; 671; 0; 879; 880; 0; 0; 0;
  0; 223; 259; 247; 235; 0; 0; 0; 0; 225; 261; 249; 237; 236; 238; 209; 210; 215; 216; 866; 867; 1599; 1600; 0;
  452; 0; 0; 0; 0; 1566; 1573; 0; 0; 0; 0; 0; 0; 1119; 1122; 1550; 1551; 775; 776; 0; 452; 0; 0; 0; 0; 1588; 1573;
  0; 0; 0; 0; 0; 0; 1120; 1123; 1548; 1549; 773; 774; 1435; 1453; 677; 767; 1561; 1563; 0; 0; 1436; 1452; 678; 768;
  1562; 1564; 0; 0; 1347; 1430; 670; 676; 1437; 0; 679; 570; 0; 1565; 1568; 1578; 1587; 0; 0; 0; 0; 0; 287; 1441;
  0; 0; 0; 0; 1624; 1667; 0; 0; 1567; 0; 0; 0; 1580; 1571; 1570; 1582; 1444; 290; 1431; 572; 1440; 1440; 1440;
  1440; 1440; 1440; 1440; 1440; 0; 0; 0; 0; 0; 0; 0; 0; 680; 680; 680; 680; 680; 680; 680; 680; 1489; 1126; 0; 0;
  0; 0; 0; 0; 647; 648; 762; 763; 1495; 1493; 376; 377; 358; 359; 310; 311; 304; 305; 322; 323; 352; 353; 316; 317;
  298; 299; 388; 389; 370; 371; 382; 383; 364; 365; 340; 341; 334; 335; 346; 347; 328; 329; 232; 234; 1381; 1383;
  1380; 1382; 268; 270; 1421; 1423; 1420; 1422; 0; 0; 0; 0; 1664; 1662; 1666; 0; 0; 0; 0; 0; 0; 0; 0; 0; 532; 535;
  450; 451; 766; 0; 256; 258; 667; 0; 673; 0; 888; 890; 887; 889; 0; 0; 0; 0; 231; 267; 255; 243; 0; 0; 0; 0; 233;
  269; 257; 245; 244; 246; 213; 214; 219; 220; 875; 878; 873; 876; 1603; 1604; 0; 445; 0; 0; 0; 0; 1572; 1573; 0;
  0; 0; 0; 0; 0; 1121; 1124; 222; 1347; 1430; 670; 676; 1437; 0; 679; 570; 0; 1565; 1568; 1578; 1587; 0; 0; 0; 0;
  0; 287; 1441; 0; 0; 0; 0; 1624; 1667; 0; 0; 1567; 0; 0; 0; 1580; 1571; 1570; 1582; 1444; 290; 1431; 572; 1438;
  1438; 1438; 1438; 1438; 1438; 1438; 1438; 0; 0; 0; 0; 0; 0; 0; 0; 680; 680; 680; 680; 680; 680; 680; 680; 1489;
  1126; 0; 0; 0; 0; 0; 0; 0; 0; 0; 0; 1663; 1661; 1665; 0; 1113; 1115; 1594; 1596; 0; 0; 0; 0; 0; 0; 0; 0; 1664;
  1662; 1666; 0; 1114; 1116; 1595; 1597; 0; 0; 0; 0; 1552; 1553; 777; 778; 0; 445; 0; 0; 0; 0; 1588; 1573; 0; 0; 0;
  0; 0; 0; 1121; 1124; 0; 445; 0; 0; 0; 0; 1566; 1573; 0; 0; 0; 0; 0; 0; 1121; 1124; 858; 0; 857; 0; 568; 0; 575;
  0; 573; 0; 856; 0; 855; 0; 62; 63; 114; 115; 860; 0; 859; 0; 569; 0; 576; 0; 574; 0; 116; 117; 64; 65; 153; 154;
  0; 203; 199; 191; 0; 0; 0; 0; 0; 204; 200; 192; 0; 0; 0; 0; 271; 272; 159; 160; 1000; 1001; 1257; 1258; 996; 997;
  899; 900; 1424; 1425; 1384; 1385; 155; 156; 0; 205; 201; 193; 0; 0; 0; 0; 0; 206; 202; 194; 0; 0; 0; 0; 273; 274;
  161; 162; 1002; 1003; 1259; 1260; 998; 999; 901; 902; 1426; 1427; 1386; 1387; 1202; 1203; 1204; 1205; 0; 167;
  187; 183; 1554; 175; 195; 1496; 0; 168; 188; 184; 1555; 176; 196; 1497; 0; 179; 0; 0; 0; 0; 171; 0; 0; 180; 0; 0;
  0; 0; 172; 0; 0; 169; 189; 185; 1556; 177; 197; 1498; 0; 170; 190; 186; 1557; 178; 198; 1499; 0; 181; 0; 0; 0; 0;
  173; 0; 0; 182; 0; 0; 0; 0; 174; 0; 163; 164; 165; 166; 0
].

(** The distinct rows of decisions: opcode, kind and position in [modRMTable]. *)
Definition decision_rows : list (list (Z * Z * Z)) := [
  [
   (0, 1, 1); (1, 1, 3); (2, 1, 5); (3, 1, 7); (4, 0, 9); (5, 0, 10); (6, 0, 11); (7, 0, 12); (8, 1, 13);
   (9, 1, 15); (10, 1, 17); (11, 1, 19); (12, 0, 21); (13, 0, 22); (14, 0, 23); (16, 1, 24); (17, 1, 26);
   (18, 1, 28); (19, 1, 30); (20, 0, 32); (21, 0, 33); (22, 0, 34); (23, 0, 35); (24, 1, 36); (25, 1, 38);
   (26, 1, 40); (27, 1, 42); (28, 0, 44); (29, 0, 45); (30, 0, 46); (31, 0, 47); (32, 1, 48); (33, 1, 50);
   (34, 1, 52); (35, 1, 54); (36, 0, 56); (37, 0, 57); (39, 0, 58); (40, 1, 59); (41, 1, 61); (42, 1, 63);
   (43, 1, 65); (44, 0, 67); (45, 0, 68); (47, 0, 69); (48, 1, 70); (49, 1, 72); (50, 1, 74); (51, 1, 76);
   (52, 0, 78); (53, 0, 79); (55, 0, 80); (56, 1, 81); (57, 1, 83); (58, 1, 85); (59, 1, 87); (60, 0, 89);
   (61, 0, 90); (63, 0, 91); (64, 0, 92); (65, 0, 92); (66, 0, 92); (67, 0, 92); (68, 0, 92); (69, 0, 92);
   (70, 0, 92); (71, 0, 92); (72, 0, 93); (73, 0, 93); (74, 0, 93); (75, 0, 93); (76, 0, 93); (77, 0, 93);
   (78, 0, 93); (79, 0, 93); (80, 0, 94); (81, 0, 94); (82, 0, 94); (83, 0, 94); (84, 0, 94); (85, 0, 94);
   (86, 0, 94); (87, 0, 94); (88, 0, 95); (89, 0, 95); (90, 0, 95); (91, 0, 95); (92, 0, 95); (93, 0, 95);
   (94, 0, 95); (95, 0, 95); (96, 0, 96); (97, 0, 97); (98, 1, 98); (99, 1, 100); (102, 0, 102); (104, 0, 103);
   (105, 1, 104); (106, 0, 106); (107, 1, 107); (108, 0, 109); (109, 0, 110); (110, 0, 111); (111, 0, 112);
   (112, 0, 113); (113, 0, 114); (114, 0, 115); (115, 0, 116); (116, 0, 117); (117, 0, 118); (118, 0, 119);
   (119, 0, 120); (120, 0, 121); (121, 0, 122); (122, 0, 123); (123, 0, 124); (124, 0, 125); (125, 0, 126);
   (126, 0, 127); (127, 0, 128); (128, 3, 129); (129, 3, 145); (130, 3, 161); (131, 3, 177); (132, 1, 193);
   (133, 1, 195); (134, 1, 197); (135, 1, 199); (136, 1, 201); (137, 1, 203); (138, 1, 205); (139, 1, 207);
   (140, 1, 209); (141, 1, 211); (142, 1, 213); (143, 3, 215); (144, 0, 231); (145, 0, 232); (146, 0, 232);
   (147, 0, 232); (148, 0, 232); (149, 0, 232); (150, 0, 232); (151, 0, 232); (152, 0, 233); (153, 0, 234);
   (154, 0, 235); (156, 0, 236); (157, 0, 237); (158, 0, 238); (159, 0, 239); (160, 0, 240); (161, 0, 241);
   (162, 0, 242); (163, 0, 243); (164, 0, 244); (165, 0, 245); (166, 0, 246); (167, 0, 247); (168, 0, 248);
   (169, 0, 249); (170, 0, 250); (171, 0, 251); (172, 0, 252); (173, 0, 253); (174, 0, 254); (175, 0, 255);
   (176, 0, 256); (177, 0, 256); (178, 0, 256); (179, 0, 256); (180, 0, 256); (181, 0, 256); (182, 0, 256);
   (183, 0, 256); (184, 0, 257); (185, 0, 257); (186, 0, 257); (187, 0, 257); (188, 0, 257); (189, 0, 257);
   (190, 0, 257); (191, 0, 257); (192, 3, 258); (193, 3, 274); (194, 0, 290); (195, 0, 291); (196, 1, 292);
   (197, 1, 294); (198, 3, 296); (199, 3, 312); (200, 0, 328); (201, 0, 329); (202, 0, 330); (203, 0, 331);
   (204, 0, 332); (205, 0, 333); (206, 0, 334); (207, 0, 335); (208, 3, 336); (209, 3, 352); (210, 3, 368);
   (211, 3, 384); (212, 0, 400); (213, 0, 401); (214, 0, 402); (215, 0, 403); (219, 2, 404); (224, 0, 476);
   (225, 0, 477); (226, 0, 478); (227, 0, 479); (228, 0, 480); (229, 0, 481); (230, 0, 482); (231, 0, 483);
   (232, 0, 484); (233, 0, 485); (234, 0, 486); (235, 0, 487); (236, 0, 488); (237, 0, 489); (238, 0, 490);
   (239, 0, 491); (240, 0, 492); (241, 0, 493); (242, 0, 494); (243, 0, 495); (244, 0, 496); (245, 0, 497);
   (246, 3, 498); (247, 3, 514); (248, 0, 530); (249, 0, 531); (250, 0, 532); (251, 0, 533); (252, 0, 534);
   (253, 0, 535); (254, 3, 536); (255, 3, 552)];
  [
   (0, 1, 1); (1, 1, 3); (2, 1, 5); (3, 1, 7); (4, 0, 9); (5, 0, 10); (8, 1, 13); (9, 1, 15); (10, 1, 17);
   (11, 1, 19); (12, 0, 21); (13, 0, 22); (16, 1, 24); (17, 1, 26); (18, 1, 28); (19, 1, 30); (20, 0, 32);
   (21, 0, 33); (24, 1, 36); (25, 1, 38); (26, 1, 40); (27, 1, 42); (28, 0, 44); (29, 0, 45); (32, 1, 48);
   (33, 1, 50); (34, 1, 52); (35, 1, 54); (36, 0, 56); (37, 0, 57); (40, 1, 59); (41, 1, 61); (42, 1, 63);
   (43, 1, 65); (44, 0, 67); (45, 0, 68); (48, 1, 70); (49, 1, 72); (50, 1, 74); (51, 1, 76); (52, 0, 78);
   (53, 0, 79); (56, 1, 81); (57, 1, 83); (58, 1, 85); (59, 1, 87); (60, 0, 89); (61, 0, 90); (72, 0, 568);
   (80, 0, 569); (81, 0, 569); (82, 0, 569); (83, 0, 569); (84, 0, 569); (85, 0, 569); (86, 0, 569); (87, 0, 569);
   (88, 0, 570); (89, 0, 570); (90, 0, 570); (91, 0, 570); (92, 0, 570); (93, 0, 570); (94, 0, 570); (95, 0, 570);
   (99, 1, 571); (102, 0, 102); (104, 0, 573); (105, 1, 104); (106, 0, 574); (107, 1, 107); (108, 0, 109);
   (109, 0, 110); (110, 0, 111); (111, 0, 112); (112, 0, 113); (113, 0, 114); (114, 0, 115); (115, 0, 116);
   (116, 0, 117); (117, 0, 118); (118, 0, 119); (119, 0, 120); (120, 0, 121); (121, 0, 122); (122, 0, 123);
   (123, 0, 124); (124, 0, 125); (125, 0, 126); (126, 0, 127); (127, 0, 128); (128, 3, 129); (129, 3, 145);
   (131, 3, 177); (132, 1, 193); (133, 1, 195); (134, 1, 197); (135, 1, 199); (136, 1, 201); (137, 1, 203);
   (138, 1, 205); (139, 1, 207); (140, 1, 209); (141, 1, 575); (142, 1, 213); (143, 3, 577); (144, 0, 231);
   (145, 0, 593); (146, 0, 593); (147, 0, 593); (148, 0, 593); (149, 0, 593); (150, 0, 593); (151, 0, 593);
   (152, 0, 233); (153, 0, 234); (156, 0, 594); (157, 0, 595); (158, 0, 238); (159, 0, 239); (160, 0, 596);
   (161, 0, 597); (162, 0, 598); (163, 0, 599); (164, 0, 244); (165, 0, 245); (166, 0, 246); (167, 0, 247);
   (168, 0, 248); (169, 0, 249); (170, 0, 250); (171, 0, 251); (172, 0, 252); (173, 0, 253); (174, 0, 254);
   (175, 0, 255); (176, 0, 256); (177, 0, 256); (178, 0, 256); (179, 0, 256); (180, 0, 256); (181, 0, 256);
   (182, 0, 256); (183, 0, 256); (184, 0, 257); (185, 0, 257); (186, 0, 257); (187, 0, 257); (188, 0, 257);
   (189, 0, 257); (190, 0, 257); (191, 0, 257); (192, 3, 258); (193, 3, 274); (194, 0, 600); (195, 0, 601);
   (196, 1, 292); (197, 1, 294); (198, 3, 296); (199, 3, 312); (200, 0, 328); (201, 0, 602); (202, 0, 330);
   (203, 0, 331); (204, 0, 332); (205, 0, 333); (207, 0, 335); (208, 3, 336); (209, 3, 352); (210, 3, 368);
   (211, 3, 384); (214, 0, 402); (215, 0, 403); (219, 2, 404); (224, 0, 476); (225, 0, 477); (226, 0, 478);
   (227, 0, 603); (228, 0, 480); (229, 0, 481); (230, 0, 482); (231, 0, 483); (232, 0, 604); (233, 0, 485);
   (235, 0, 487); (236, 0, 488); (237, 0, 489); (238, 0, 490); (239, 0, 491); (240, 0, 492); (241, 0, 493);
   (242, 0, 494); (243, 0, 495); (244, 0, 496); (245, 0, 497); (246, 3, 498); (247, 3, 514); (248, 0, 530);
   (249, 0, 531); (250, 0, 532); (251, 0, 533); (252, 0, 534); (253, 0, 535); (254, 3, 536); (255, 3, 605)];
  [
   (0, 1, 1); (1, 1, 621); (2, 1, 5); (3, 1, 623); (4, 0, 9); (5, 0, 625); (6, 0, 626); (7, 0, 627); (8, 1, 13);
   (9, 1, 628); (10, 1, 17); (11, 1, 630); (12, 0, 21); (13, 0, 632); (14, 0, 633); (16, 1, 24); (17, 1, 634);
   (18, 1, 28); (19, 1, 636); (20, 0, 32); (21, 0, 638); (22, 0, 639); (23, 0, 640); (24, 1, 36); (25, 1, 641);
   (26, 1, 40); (27, 1, 643); (28, 0, 44); (29, 0, 645); (30, 0, 646); (31, 0, 647); (32, 1, 48); (33, 1, 648);
   (34, 1, 52); (35, 1, 650); (36, 0, 56); (37, 0, 652); (39, 0, 58); (40, 1, 59); (41, 1, 653); (42, 1, 63);
   (43, 1, 655); (44, 0, 67); (45, 0, 657); (47, 0, 69); (48, 1, 70); (49, 1, 658); (50, 1, 74); (51, 1, 660);
   (52, 0, 78); (53, 0, 662); (55, 0, 80); (56, 1, 81); (57, 1, 663); (58, 1, 85); (59, 1, 665); (60, 0, 89);
   (61, 0, 667); (63, 0, 91); (64, 0, 668); (65, 0, 668); (66, 0, 668); (67, 0, 668); (68, 0, 668); (69, 0, 668);
   (70, 0, 668); (71, 0, 668); (72, 0, 669); (73, 0, 669); (74, 0, 669); (75, 0, 669); (76, 0, 669); (77, 0, 669);
   (78, 0, 669); (79, 0, 669); (80, 0, 670); (81, 0, 670); (82, 0, 670); (83, 0, 670); (84, 0, 670); (85, 0, 670);
   (86, 0, 670); (87, 0, 670); (88, 0, 671); (89, 0, 671); (90, 0, 671); (91, 0, 671); (92, 0, 671); (93, 0, 671);
   (94, 0, 671); (95, 0, 671); (96, 0, 672); (97, 0, 673); (98, 1, 674); (99, 1, 100); (102, 0, 102);
   (104, 0, 676); (105, 1, 677); (106, 0, 679); (107, 1, 680); (108, 0, 109); (109, 0, 682); (110, 0, 111);
   (111, 0, 683); (112, 0, 113); (113, 0, 114); (114, 0, 115); (115, 0, 116); (116, 0, 117); (117, 0, 118);
   (118, 0, 119); (119, 0, 120); (120, 0, 121); (121, 0, 122); (122, 0, 123); (123, 0, 124); (124, 0, 125);
   (125, 0, 126); (126, 0, 127); (127, 0, 128); (128, 3, 129); (129, 3, 684); (130, 3, 161); (131, 3, 700);
   (132, 1, 193); (133, 1, 716); (134, 1, 197); (135, 1, 718); (136, 1, 201); (137, 1, 720); (138, 1, 205);
   (139, 1, 722); (140, 1, 724); (141, 1, 726); (142, 1, 728); (143, 3, 730); (144, 0, 231); (145, 0, 746);
   (146, 0, 746); (147, 0, 746); (148, 0, 746); (149, 0, 746); (150, 0, 746); (151, 0, 746); (152, 0, 747);
   (153, 0, 748); (154, 0, 749); (156, 0, 750); (157, 0, 751); (158, 0, 238); (159, 0, 239); (160, 0, 240);
   (161, 0, 752); (162, 0, 242); (163, 0, 753); (164, 0, 244); (165, 0, 754); (166, 0, 246); (167, 0, 755);
   (168, 0, 248); (169, 0, 756); (170, 0, 250); (171, 0, 757); (172, 0, 252); (173, 0, 758); (174, 0, 254);
   (175, 0, 759); (176, 0, 256); (177, 0, 256); (178, 0, 256); (179, 0, 256); (180, 0, 256); (181, 0, 256);
   (182, 0, 256); (183, 0, 256); (184, 0, 760); (185, 0, 760); (186, 0, 760); (187, 0, 760); (188, 0, 760);
   (189, 0, 760); (190, 0, 760); (191, 0, 760); (192, 3, 258); (193, 3, 761); (194, 0, 777); (195, 0, 778);
   (196, 1, 779); (197, 1, 781); (198, 3, 296); (199, 3, 783); (200, 0, 328); (201, 0, 329); (202, 0, 799);
   (203, 0, 800); (204, 0, 332); (205, 0, 333); (206, 0, 334); (207, 0, 801); (208, 3, 336); (209, 3, 802);
   (210, 3, 368); (211, 3, 818); (212, 0, 400); (213, 0, 401); (214, 0, 402); (215, 0, 403); (219, 2, 404);
   (224, 0, 476); (225, 0, 477); (226, 0, 478); (227, 0, 479); (228, 0, 480); (229, 0, 834); (230, 0, 482);
   (231, 0, 835); (232, 0, 836); (233, 0, 837); (234, 0, 838); (235, 0, 487); (236, 0, 488); (237, 0, 839);
   (238, 0, 490); (239, 0, 840); (240, 0, 492); (241, 0, 493); (242, 0, 494); (243, 0, 495); (244, 0, 496);
   (245, 0, 497); (246, 3, 498); (247, 3, 841); (248, 0, 530); (249, 0, 531); (250, 0, 532); (251, 0, 533);
   (252, 0, 534); (253, 0, 535); (254, 3, 536); (255, 3, 857)];
  [
   (0, 1, 1); (1, 1, 3); (2, 1, 5); (3, 1, 7); (4, 0, 9); (5, 0, 10); (6, 0, 11); (7, 0, 12); (8, 1, 13);
   (9, 1, 15); (10, 1, 17); (11, 1, 19); (12, 0, 21); (13, 0, 22); (14, 0, 23); (16, 1, 24); (17, 1, 26);
   (18, 1, 28); (19, 1, 30); (20, 0, 32); (21, 0, 33); (22, 0, 34); (23, 0, 35); (24, 1, 36); (25, 1, 38);
   (26, 1, 40); (27, 1, 42); (28, 0, 44); (29, 0, 45); (30, 0, 46); (31, 0, 47); (32, 1, 48); (33, 1, 50);
   (34, 1, 52); (35, 1, 54); (36, 0, 56); (37, 0, 57); (39, 0, 58); (40, 1, 59); (41, 1, 61); (42, 1, 63);
   (43, 1, 65); (44, 0, 67); (45, 0, 68); (47, 0, 69); (48, 1, 70); (49, 1, 72); (50, 1, 74); (51, 1, 76);
   (52, 0, 78); (53, 0, 79); (55, 0, 80); (56, 1, 81); (57, 1, 83); (58, 1, 85); (59, 1, 87); (60, 0, 89);
   (61, 0, 90); (63, 0, 91); (64, 0, 92); (65, 0, 92); (66, 0, 92); (67, 0, 92); (68, 0, 92); (69, 0, 92);
   (70, 0, 92); (71, 0, 92); (72, 0, 93); (73, 0, 93); (74, 0, 93); (75, 0, 93); (76, 0, 93); (77, 0, 93);
   (78, 0, 93); (79, 0, 93); (80, 0, 94); (81, 0, 94); (82, 0, 94); (83, 0, 94); (84, 0, 94); (85, 0, 94);
   (86, 0, 94); (87, 0, 94); (88, 0, 95); (89, 0, 95); (90, 0, 95); (91, 0, 95); (92, 0, 95); (93, 0, 95);
   (94, 0, 95); (95, 0, 95); (96, 0, 96); (97, 0, 97); (98, 1, 98); (99, 1, 100); (102, 0, 102); (104, 0, 103);
   (105, 1, 104); (106, 0, 106); (107, 1, 107); (108, 0, 109); (109, 0, 110); (110, 0, 111); (111, 0, 112);
   (112, 0, 113); (113, 0, 114); (114, 0, 115); (115, 0, 116); (116, 0, 117); (117, 0, 118); (118, 0, 119);
   (119, 0, 120); (120, 0, 121); (121, 0, 122); (122, 0, 123); (123, 0, 124); (124, 0, 125); (125, 0, 126);
   (126, 0, 127); (127, 0, 128); (128, 3, 129); (129, 3, 145); (130, 3, 161); (131, 3, 177); (132, 1, 193);
   (133, 1, 195); (134, 1, 197); (135, 1, 199); (136, 1, 201); (137, 1, 203); (138, 1, 205); (139, 1, 207);
   (140, 1, 209); (141, 1, 211); (142, 1, 213); (143, 3, 215); (144, 0, 231); (145, 0, 232); (146, 0, 232);
   (147, 0, 232); (148, 0, 232); (149, 0, 232); (150, 0, 232); (151, 0, 232); (152, 0, 233); (153, 0, 234);
   (154, 0, 235); (156, 0, 236); (157, 0, 237); (158, 0, 238); (159, 0, 239); (160, 0, 240); (161, 0, 241);
   (162, 0, 242); (163, 0, 243); (164, 0, 244); (165, 0, 245); (166, 0, 246); (167, 0, 247); (168, 0, 248);
   (169, 0, 249); (170, 0, 250); (171, 0, 251); (172, 0, 252); (173, 0, 253); (174, 0, 254); (175, 0, 255);
   (176, 0, 256); (177, 0, 256); (178, 0, 256); (179, 0, 256); (180, 0, 256); (181, 0, 256); (182, 0, 256);
   (183, 0, 256); (184, 0, 257); (185, 0, 257); (186, 0, 257); (187, 0, 257); (188, 0, 257); (189, 0, 257);
   (190, 0, 257); (191, 0, 257); (192, 3, 258); (193, 3, 274); (194, 0, 290); (195, 0, 291); (196, 1, 292);
   (197, 1, 294); (198, 3, 296); (199, 3, 312); (200, 0, 328); (201, 0, 329); (202, 0, 330); (203, 0, 331);
   (204, 0, 332); (205, 0, 333); (206, 0, 334); (207, 0, 335); (208, 3, 336); (209, 3, 352); (210, 3, 368);
   (211, 3, 384); (212, 0, 400); (213, 0, 401); (214, 0, 402); (215, 0, 403); (219, 2, 404); (224, 0, 476);
   (225, 0, 477); (226, 0, 478); (227, 0, 873); (228, 0, 480); (229, 0, 481); (230, 0, 482); (231, 0, 483);
   (232, 0, 484); (233, 0, 485); (234, 0, 486); (235, 0, 487); (236, 0, 488); (237, 0, 489); (238, 0, 490);
   (239, 0, 491); (240, 0, 492); (241, 0, 493); (242, 0, 494); (243, 0, 495); (244, 0, 496); (245, 0, 497);
   (246, 3, 498); (247, 3, 514); (248, 0, 530); (249, 0, 531); (250, 0, 532); (251, 0, 533); (252, 0, 534);
   (253, 0, 535); (254, 3, 536); (255, 3, 552)];
  [
   (0, 1, 1); (1, 1, 874); (2, 1, 5); (3, 1, 876); (4, 0, 9); (5, 0, 878); (8, 1, 13); (9, 1, 879); (10, 1, 17);
   (11, 1, 881); (12, 0, 21); (13, 0, 883); (16, 1, 24); (17, 1, 884); (18, 1, 28); (19, 1, 886); (20, 0, 32);
   (21, 0, 888); (24, 1, 36); (25, 1, 889); (26, 1, 40); (27, 1, 891); (28, 0, 44); (29, 0, 893); (32, 1, 48);
   (33, 1, 894); (34, 1, 52); (35, 1, 896); (36, 0, 56); (37, 0, 898); (40, 1, 59); (41, 1, 899); (42, 1, 63);
   (43, 1, 901); (44, 0, 67); (45, 0, 903); (48, 1, 70); (49, 1, 904); (50, 1, 74); (51, 1, 906); (52, 0, 78);
   (53, 0, 908); (56, 1, 81); (57, 1, 909); (58, 1, 85); (59, 1, 911); (60, 0, 89); (61, 0, 913); (72, 0, 568);
   (80, 0, 569); (81, 0, 569); (82, 0, 569); (83, 0, 569); (84, 0, 569); (85, 0, 569); (86, 0, 569); (87, 0, 569);
   (88, 0, 570); (89, 0, 570); (90, 0, 570); (91, 0, 570); (92, 0, 570); (93, 0, 570); (94, 0, 570); (95, 0, 570);
   (99, 1, 914); (102, 0, 102); (104, 0, 573); (105, 1, 916); (106, 0, 574); (107, 1, 918); (108, 0, 109);
   (109, 0, 110); (110, 0, 111); (111, 0, 112); (112, 0, 113); (113, 0, 114); (114, 0, 115); (115, 0, 116);
   (116, 0, 117); (117, 0, 118); (118, 0, 119); (119, 0, 120); (120, 0, 121); (121, 0, 122); (122, 0, 123);
   (123, 0, 124); (124, 0, 125); (125, 0, 126); (126, 0, 127); (127, 0, 128); (128, 3, 129); (129, 3, 920);
   (131, 3, 936); (132, 1, 193); (133, 1, 952); (134, 1, 197); (135, 1, 954); (136, 1, 201); (137, 1, 956);
   (138, 1, 205); (139, 1, 958); (140, 1, 960); (141, 1, 962); (142, 1, 964); (143, 3, 577); (144, 0, 231);
   (145, 0, 966); (146, 0, 966); (147, 0, 966); (148, 0, 966); (149, 0, 966); (150, 0, 966); (151, 0, 966);
   (152, 0, 967); (153, 0, 968); (156, 0, 594); (157, 0, 595); (158, 0, 238); (159, 0, 239); (160, 0, 596);
   (161, 0, 969); (162, 0, 598); (163, 0, 970); (164, 0, 244); (165, 0, 971); (166, 0, 246); (167, 0, 972);
   (168, 0, 248); (169, 0, 973); (170, 0, 250); (171, 0, 974); (172, 0, 252); (173, 0, 975); (174, 0, 254);
   (175, 0, 976); (176, 0, 256); (177, 0, 256); (178, 0, 256); (179, 0, 256); (180, 0, 256); (181, 0, 256);
   (182, 0, 256); (183, 0, 256); (184, 0, 977); (185, 0, 977); (186, 0, 977); (187, 0, 977); (188, 0, 977);
   (189, 0, 977); (190, 0, 977); (191, 0, 977); (192, 3, 258); (193, 3, 978); (194, 0, 600); (195, 0, 601);
   (196, 1, 292); (197, 1, 294); (198, 3, 296); (199, 3, 994); (200, 0, 328); (201, 0, 602); (202, 0, 1010);
   (203, 0, 1011); (204, 0, 332); (205, 0, 333); (207, 0, 1012); (208, 3, 336); (209, 3, 1013); (210, 3, 368);
   (211, 3, 1029); (214, 0, 402); (215, 0, 403); (219, 2, 404); (224, 0, 476); (225, 0, 477); (226, 0, 478);
   (227, 0, 603); (228, 0, 480); (229, 0, 481); (230, 0, 482); (231, 0, 483); (232, 0, 604); (233, 0, 485);
   (235, 0, 487); (236, 0, 488); (237, 0, 489); (238, 0, 490); (239, 0, 491); (240, 0, 492); (241, 0, 493);
   (242, 0, 494); (243, 0, 495); (244, 0, 496); (245, 0, 497); (246, 3, 498); (247, 3, 1045); (248, 0, 530);
   (249, 0, 531); (250, 0, 532); (251, 0, 533); (252, 0, 534); (253, 0, 535); (254, 3, 536); (255, 3, 1061)];
  [
   (0, 1, 1); (1, 1, 621); (2, 1, 5); (3, 1, 623); (4, 0, 9); (5, 0, 625); (8, 1, 13); (9, 1, 628); (10, 1, 17);
   (11, 1, 630); (12, 0, 21); (13, 0, 632); (16, 1, 24); (17, 1, 634); (18, 1, 28); (19, 1, 636); (20, 0, 32);
   (21, 0, 638); (24, 1, 36); (25, 1, 641); (26, 1, 40); (27, 1, 643); (28, 0, 44); (29, 0, 645); (32, 1, 48);
   (33, 1, 648); (34, 1, 52); (35, 1, 650); (36, 0, 56); (37, 0, 652); (40, 1, 59); (41, 1, 653); (42, 1, 63);
   (43, 1, 655); (44, 0, 67); (45, 0, 657); (48, 1, 70); (49, 1, 658); (50, 1, 74); (51, 1, 660); (52, 0, 78);
   (53, 0, 662); (56, 1, 81); (57, 1, 663); (58, 1, 85); (59, 1, 665); (60, 0, 89); (61, 0, 667); (72, 0, 568);
   (80, 0, 670); (81, 0, 670); (82, 0, 670); (83, 0, 670); (84, 0, 670); (85, 0, 670); (86, 0, 670); (87, 0, 670);
   (88, 0, 671); (89, 0, 671); (90, 0, 671); (91, 0, 671); (92, 0, 671); (93, 0, 671); (94, 0, 671); (95, 0, 671);
   (99, 1, 571); (102, 0, 102); (104, 0, 1077); (105, 1, 677); (106, 0, 574); (107, 1, 680); (108, 0, 109);
   (109, 0, 682); (110, 0, 111); (111, 0, 683); (112, 0, 113); (113, 0, 114); (114, 0, 115); (115, 0, 116);
   (116, 0, 117); (117, 0, 118); (118, 0, 119); (119, 0, 120); (120, 0, 121); (121, 0, 122); (122, 0, 123);
   (123, 0, 124); (124, 0, 125); (125, 0, 126); (126, 0, 127); (127, 0, 128); (128, 3, 129); (129, 3, 684);
   (131, 3, 700); (132, 1, 193); (133, 1, 716); (134, 1, 197); (135, 1, 718); (136, 1, 201); (137, 1, 720);
   (138, 1, 205); (139, 1, 722); (140, 1, 724); (141, 1, 726); (142, 1, 728); (143, 3, 730); (144, 0, 231);
   (145, 0, 746); (146, 0, 746); (147, 0, 746); (148, 0, 746); (149, 0, 746); (150, 0, 746); (151, 0, 746);
   (152, 0, 747); (153, 0, 748); (156, 0, 750); (157, 0, 751); (158, 0, 238); (159, 0, 239); (160, 0, 596);
   (161, 0, 1078); (162, 0, 598); (163, 0, 1079); (164, 0, 244); (165, 0, 754); (166, 0, 246); (167, 0, 755);
   (168, 0, 248); (169, 0, 756); (170, 0, 250); (171, 0, 757); (172, 0, 252); (173, 0, 758); (174, 0, 254);
   (175, 0, 759); (176, 0, 256); (177, 0, 256); (178, 0, 256); (179, 0, 256); (180, 0, 256); (181, 0, 256);
   (182, 0, 256); (183, 0, 256); (184, 0, 760); (185, 0, 760); (186, 0, 760); (187, 0, 760); (188, 0, 760);
   (189, 0, 760); (190, 0, 760); (191, 0, 760); (192, 3, 258); (193, 3, 761); (194, 0, 777); (195, 0, 778);
   (196, 1, 779); (197, 1, 781); (198, 3, 296); (199, 3, 783); (200, 0, 328); (201, 0, 602); (202, 0, 799);
   (203, 0, 800); (204, 0, 332); (205, 0, 333); (207, 0, 801); (208, 3, 336); (209, 3, 802); (210, 3, 368);
   (211, 3, 818); (214, 0, 402); (215, 0, 403); (219, 2, 404); (224, 0, 476); (225, 0, 477); (226, 0, 478);
   (227, 0, 603); (228, 0, 480); (229, 0, 834); (230, 0, 482); (231, 0, 835); (232, 0, 836); (233, 0, 837);
   (235, 0, 487); (236, 0, 488); (237, 0, 839); (238, 0, 490); (239, 0, 840); (240, 0, 492); (241, 0, 493);
   (242, 0, 494); (243, 0, 495); (244, 0, 496); (245, 0, 497); (246, 3, 498); (247, 3, 841); (248, 0, 530);
   (249, 0, 531); (250, 0, 532); (251, 0, 533); (252, 0, 534); (253, 0, 535); (254, 3, 536); (255, 3, 1080)];
  [
   (0, 1, 1); (1, 1, 3); (2, 1, 5); (3, 1, 7); (4, 0, 9); (5, 0, 10); (8, 1, 13); (9, 1, 15); (10, 1, 17);
   (11, 1, 19); (12, 0, 21); (13, 0, 22); (16, 1, 24); (17, 1, 26); (18, 1, 28); (19, 1, 30); (20, 0, 32);
   (21, 0, 33); (24, 1, 36); (25, 1, 38); (26, 1, 40); (27, 1, 42); (28, 0, 44); (29, 0, 45); (32, 1, 48);
   (33, 1, 50); (34, 1, 52); (35, 1, 54); (36, 0, 56); (37, 0, 57); (40, 1, 59); (41, 1, 61); (42, 1, 63);
   (43, 1, 65); (44, 0, 67); (45, 0, 68); (48, 1, 70); (49, 1, 72); (50, 1, 74); (51, 1, 76); (52, 0, 78);
   (53, 0, 79); (56, 1, 81); (57, 1, 83); (58, 1, 85); (59, 1, 87); (60, 0, 89); (61, 0, 90); (72, 0, 568);
   (80, 0, 569); (81, 0, 569); (82, 0, 569); (83, 0, 569); (84, 0, 569); (85, 0, 569); (86, 0, 569); (87, 0, 569);
   (88, 0, 570); (89, 0, 570); (90, 0, 570); (91, 0, 570); (92, 0, 570); (93, 0, 570); (94, 0, 570); (95, 0, 570);
   (99, 1, 571); (102, 0, 102); (104, 0, 573); (105, 1, 104); (106, 0, 574); (107, 1, 107); (108, 0, 109);
   (109, 0, 110); (110, 0, 111); (111, 0, 112); (112, 0, 113); (113, 0, 114); (114, 0, 115); (115, 0, 116);
   (116, 0, 117); (117, 0, 118); (118, 0, 119); (119, 0, 120); (120, 0, 121); (121, 0, 122); (122, 0, 123);
   (123, 0, 124); (124, 0, 125); (125, 0, 126); (126, 0, 127); (127, 0, 128); (128, 3, 129); (129, 3, 145);
   (131, 3, 177); (132, 1, 193); (133, 1, 195); (134, 1, 197); (135, 1, 199); (136, 1, 201); (137, 1, 203);
   (138, 1, 205); (139, 1, 207); (140, 1, 209); (141, 1, 575); (142, 1, 213); (143, 3, 577); (144, 0, 231);
   (145, 0, 593); (146, 0, 593); (147, 0, 593); (148, 0, 593); (149, 0, 593); (150, 0, 593); (151, 0, 593);
   (152, 0, 233); (153, 0, 234); (156, 0, 594); (157, 0, 595); (158, 0, 238); (159, 0, 239); (160, 0, 596);
   (161, 0, 597); (162, 0, 598); (163, 0, 599); (164, 0, 244); (165, 0, 245); (166, 0, 246); (167, 0, 247);
   (168, 0, 248); (169, 0, 249); (170, 0, 250); (171, 0, 251); (172, 0, 252); (173, 0, 253); (174, 0, 254);
   (175, 0, 255); (176, 0, 256); (177, 0, 256); (178, 0, 256); (179, 0, 256); (180, 0, 256); (181, 0, 256);
   (182, 0, 256); (183, 0, 256); (184, 0, 257); (185, 0, 257); (186, 0, 257); (187, 0, 257); (188, 0, 257);
   (189, 0, 257); (190, 0, 257); (191, 0, 257); (192, 3, 258); (193, 3, 274); (194, 0, 600); (195, 0, 601);
   (196, 1, 292); (197, 1, 294); (198, 3, 296); (199, 3, 312); (200, 0, 328); (201, 0, 602); (202, 0, 330);
   (203, 0, 331); (204, 0, 332); (205, 0, 333); (207, 0, 335); (208, 3, 336); (209, 3, 352); (210, 3, 368);
   (211, 3, 384); (214, 0, 402); (215, 0, 403); (219, 2, 404); (224, 0, 476); (225, 0, 477); (226, 0, 478);
   (227, 0, 1096); (228, 0, 480); (229, 0, 481); (230, 0, 482); (231, 0, 483); (232, 0, 604); (233, 0, 485);
   (235, 0, 487); (236, 0, 488); (237, 0, 489); (238, 0, 490); (239, 0, 491); (240, 0, 492); (241, 0, 493);
   (242, 0, 494); (243, 0, 495); (244, 0, 496); (245, 0, 497); (246, 3, 498); (247, 3, 514); (248, 0, 530);
   (249, 0, 531); (250, 0, 532); (251, 0, 533); (252, 0, 534); (253, 0, 535); (254, 3, 536); (255, 3, 605)];
  [
   (0, 1, 1); (1, 1, 874); (2, 1, 5); (3, 1, 876); (4, 0, 9); (5, 0, 878); (8, 1, 13); (9, 1, 879); (10, 1, 17);
   (11, 1, 881); (12, 0, 21); (13, 0, 883); (16, 1, 24); (17, 1, 884); (18, 1, 28); (19, 1, 886); (20, 0, 32);
   (21, 0, 888); (24, 1, 36); (25, 1, 889); (26, 1, 40); (27, 1, 891); (28, 0, 44); (29, 0, 893); (32, 1, 48);
   (33, 1, 894); (34, 1, 52); (35, 1, 896); (36, 0, 56); (37, 0, 898); (40, 1, 59); (41, 1, 899); (42, 1, 63);
   (43, 1, 901); (44, 0, 67); (45, 0, 903); (48, 1, 70); (49, 1, 904); (50, 1, 74); (51, 1, 906); (52, 0, 78);
   (53, 0, 908); (56, 1, 81); (57, 1, 909); (58, 1, 85); (59, 1, 911); (60, 0, 89); (61, 0, 913); (72, 0, 568);
   (80, 0, 670); (81, 0, 670); (82, 0, 670); (83, 0, 670); (84, 0, 670); (85, 0, 670); (86, 0, 670); (87, 0, 670);
   (88, 0, 671); (89, 0, 671); (90, 0, 671); (91, 0, 671); (92, 0, 671); (93, 0, 671); (94, 0, 671); (95, 0, 671);
   (99, 1, 914); (102, 0, 102); (104, 0, 1077); (105, 1, 916); (106, 0, 574); (107, 1, 918); (108, 0, 109);
   (109, 0, 682); (110, 0, 111); (111, 0, 683); (112, 0, 113); (113, 0, 114); (114, 0, 115); (115, 0, 116);
   (116, 0, 117); (117, 0, 118); (118, 0, 119); (119, 0, 120); (120, 0, 121); (121, 0, 122); (122, 0, 123);
   (123, 0, 124); (124, 0, 125); (125, 0, 126); (126, 0, 127); (127, 0, 128); (128, 3, 129); (129, 3, 920);
   (131, 3, 936); (132, 1, 193); (133, 1, 952); (134, 1, 197); (135, 1, 954); (136, 1, 201); (137, 1, 956);
   (138, 1, 205); (139, 1, 958); (140, 1, 960); (141, 1, 962); (142, 1, 964); (143, 3, 730); (144, 0, 231);
   (145, 0, 966); (146, 0, 966); (147, 0, 966); (148, 0, 966); (149, 0, 966); (150, 0, 966); (151, 0, 966);
   (152, 0, 967); (153, 0, 968); (156, 0, 750); (157, 0, 751); (158, 0, 238); (159, 0, 239); (160, 0, 596);
   (161, 0, 969); (162, 0, 598); (163, 0, 970); (164, 0, 244); (165, 0, 971); (166, 0, 246); (167, 0, 972);
   (168, 0, 248); (169, 0, 973); (170, 0, 250); (171, 0, 974); (172, 0, 252); (173, 0, 975); (174, 0, 254);
   (175, 0, 976); (176, 0, 256); (177, 0, 256); (178, 0, 256); (179, 0, 256); (180, 0, 256); (181, 0, 256);
   (182, 0, 256); (183, 0, 256); (184, 0, 977); (185, 0, 977); (186, 0, 977); (187, 0, 977); (188, 0, 977);
   (189, 0, 977); (190, 0, 977); (191, 0, 977); (192, 3, 258); (193, 3, 978); (194, 0, 777); (195, 0, 778);
   (196, 1, 779); (197, 1, 781); (198, 3, 296); (199, 3, 994); (200, 0, 328); (201, 0, 602); (202, 0, 1010);
   (203, 0, 1011); (204, 0, 332); (205, 0, 333); (207, 0, 1012); (208, 3, 336); (209, 3, 1013); (210, 3, 368);
   (211, 3, 1029); (214, 0, 402); (215, 0, 403); (219, 2, 404); (224, 0, 476); (225, 0, 477); (226, 0, 478);
   (227, 0, 603); (228, 0, 480); (229, 0, 834); (230, 0, 482); (231, 0, 835); (232, 0, 836); (233, 0, 837);
   (235, 0, 487); (236, 0, 488); (237, 0, 839); (238, 0, 490); (239, 0, 840); (240, 0, 492); (241, 0, 493);
   (242, 0, 494); (243, 0, 495); (244, 0, 496); (245, 0, 497); (246, 3, 498); (247, 3, 1045); (248, 0, 530);
   (249, 0, 531); (250, 0, 532); (251, 0, 533); (252, 0, 534); (253, 0, 535); (254, 3, 536); (255, 3, 1097)];
  [
   ];
  [
   (0, 3, 1113); (1, 2, 1129); (2, 1, 1201); (3, 1, 1203); (5, 0, 1205); (6, 0, 1206); (7, 0, 1207); (8, 0, 1208);
   (9, 0, 1209); (11, 0, 1210); (24, 3, 1211); (25, 1, 1227); (26, 1, 1229); (27, 1, 1231); (28, 1, 1233);
   (29, 1, 1235); (30, 1, 1237); (31, 1, 1239); (32, 1, 1241); (33, 1, 1243); (34, 1, 1245); (35, 1, 1247);
   (48, 0, 1249); (49, 0, 1250); (50, 0, 1251); (51, 0, 1252); (52, 0, 1253); (53, 0, 1254); (55, 0, 1255);
   (64, 1, 1256); (65, 1, 1258); (66, 1, 1260); (67, 1, 1262); (68, 1, 1264); (69, 1, 1266); (70, 1, 1268);
   (71, 1, 1270); (72, 1, 1272); (73, 1, 1274); (74, 1, 1276); (75, 1, 1278); (76, 1, 1280); (77, 1, 1282);
   (78, 1, 1284); (79, 1, 1286); (120, 1, 1288); (121, 1, 1290); (128, 0, 1292); (129, 0, 1293); (130, 0, 1294);
   (131, 0, 1295); (132, 0, 1296); (133, 0, 1297); (134, 0, 1298); (135, 0, 1299); (136, 0, 1300); (137, 0, 1301);
   (138, 0, 1302); (139, 0, 1303); (140, 0, 1304); (141, 0, 1305); (142, 0, 1306); (143, 0, 1307); (144, 1, 1308);
   (145, 1, 1310); (146, 1, 1312); (147, 1, 1314); (148, 1, 1316); (149, 1, 1318); (150, 1, 1320); (151, 1, 1322);
   (152, 1, 1324); (153, 1, 1326); (154, 1, 1328); (155, 1, 1330); (156, 1, 1332); (157, 1, 1334); (158, 1, 1336);
   (159, 1, 1338); (160, 0, 1340); (161, 0, 1341); (162, 0, 1342); (163, 1, 1343); (164, 1, 1345); (165, 1, 1347);
   (166, 2, 1349); (167, 2, 1421); (168, 0, 1493); (169, 0, 1494); (170, 0, 1495); (171, 1, 1496); (172, 1, 1498);
   (173, 1, 1500); (174, 3, 1502); (175, 1, 1518); (176, 1, 1520); (177, 1, 1522); (178, 1, 1524); (179, 1, 1526);
   (180, 1, 1528); (181, 1, 1530); (182, 1, 1532); (183, 1, 1534); (185, 0, 1536); (186, 3, 1537); (187, 1, 1553);
   (188, 1, 1555); (189, 1, 1557); (190, 1, 1559); (191, 1, 1561); (192, 1, 1563); (193, 1, 1565); (199, 3, 1567);
   (200, 0, 1583); (201, 0, 1583); (202, 0, 1583); (203, 0, 1583); (204, 0, 1583); (205, 0, 1583); (206, 0, 1583);
   (207, 0, 1583)];
  [
   (0, 3, 1113); (1, 2, 1584); (2, 1, 1201); (3, 1, 1203); (5, 0, 1205); (6, 0, 1206); (7, 0, 1207); (8, 0, 1208);
   (9, 0, 1209); (11, 0, 1210); (24, 3, 1211); (25, 1, 1227); (26, 1, 1229); (27, 1, 1231); (28, 1, 1233);
   (29, 1, 1235); (30, 1, 1237); (31, 1, 1239); (32, 1, 1656); (33, 1, 1658); (34, 1, 1660); (35, 1, 1662);
   (48, 0, 1249); (49, 0, 1250); (50, 0, 1251); (51, 0, 1252); (52, 0, 1253); (53, 0, 1254); (55, 0, 1255);
   (64, 1, 1256); (65, 1, 1258); (66, 1, 1260); (67, 1, 1262); (68, 1, 1264); (69, 1, 1266); (70, 1, 1268);
   (71, 1, 1270); (72, 1, 1272); (73, 1, 1274); (74, 1, 1276); (75, 1, 1278); (76, 1, 1280); (77, 1, 1282);
   (78, 1, 1284); (79, 1, 1286); (120, 1, 1664); (121, 1, 1666); (128, 0, 1292); (129, 0, 1293); (130, 0, 1294);
   (131, 0, 1295); (132, 0, 1296); (133, 0, 1297); (134, 0, 1298); (135, 0, 1299); (136, 0, 1300); (137, 0, 1301);
   (138, 0, 1302); (139, 0, 1303); (140, 0, 1304); (141, 0, 1305); (142, 0, 1306); (143, 0, 1307); (144, 1, 1308);
   (145, 1, 1310); (146, 1, 1312); (147, 1, 1314); (148, 1, 1316); (149, 1, 1318); (150, 1, 1320); (151, 1, 1322);
   (152, 1, 1324); (153, 1, 1326); (154, 1, 1328); (155, 1, 1330); (156, 1, 1332); (157, 1, 1334); (158, 1, 1336);
   (159, 1, 1338); (160, 0, 1668); (161, 0, 1669); (162, 0, 1670); (163, 1, 1343); (164, 1, 1345); (165, 1, 1347);
   (166, 2, 1349); (167, 2, 1421); (168, 0, 1671); (169, 0, 1672); (170, 0, 1495); (171, 1, 1496); (172, 1, 1498);
   (173, 1, 1500); (174, 3, 1502); (175, 1, 1518); (176, 1, 1520); (177, 1, 1522); (178, 1, 1524); (179, 1, 1526);
   (180, 1, 1528); (181, 1, 1530); (182, 1, 1532); (183, 1, 1534); (185, 0, 1536); (186, 3, 1537); (187, 1, 1553);
   (188, 1, 1555); (189, 1, 1557); (190, 1, 1559); (191, 1, 1561); (192, 1, 1563); (193, 1, 1565); (199, 3, 1567);
   (200, 0, 1583); (201, 0, 1583); (202, 0, 1583); (203, 0, 1583); (204, 0, 1583); (205, 0, 1583); (206, 0, 1583);
   (207, 0, 1583)];
  [
   (0, 3, 1673); (1, 2, 1689); (2, 1, 1761); (3, 1, 1763); (5, 0, 1205); (6, 0, 1206); (7, 0, 1207); (8, 0, 1208);
   (9, 0, 1209); (11, 0, 1210); (24, 3, 1765); (25, 1, 1781); (26, 1, 1783); (27, 1, 1785); (28, 1, 1787);
   (29, 1, 1789); (30, 1, 1791); (31, 1, 1793); (32, 1, 1241); (33, 1, 1243); (34, 1, 1245); (35, 1, 1247);
   (48, 0, 1249); (49, 0, 1250); (50, 0, 1251); (51, 0, 1252); (52, 0, 1253); (53, 0, 1254); (55, 0, 1255);
   (64, 1, 1795); (65, 1, 1797); (66, 1, 1799); (67, 1, 1801); (68, 1, 1803); (69, 1, 1805); (70, 1, 1807);
   (71, 1, 1809); (72, 1, 1811); (73, 1, 1813); (74, 1, 1815); (75, 1, 1817); (76, 1, 1819); (77, 1, 1821);
   (78, 1, 1823); (79, 1, 1825); (120, 1, 1288); (121, 1, 1290); (128, 0, 1827); (129, 0, 1828); (130, 0, 1829);
   (131, 0, 1830); (132, 0, 1831); (133, 0, 1832); (134, 0, 1833); (135, 0, 1834); (136, 0, 1835); (137, 0, 1836);
   (138, 0, 1837); (139, 0, 1838); (140, 0, 1839); (141, 0, 1840); (142, 0, 1841); (143, 0, 1842); (144, 1, 1308);
   (145, 1, 1310); (146, 1, 1312); (147, 1, 1314); (148, 1, 1316); (149, 1, 1318); (150, 1, 1320); (151, 1, 1322);
   (152, 1, 1324); (153, 1, 1326); (154, 1, 1328); (155, 1, 1330); (156, 1, 1332); (157, 1, 1334); (158, 1, 1336);
   (159, 1, 1338); (160, 0, 1843); (161, 0, 1844); (162, 0, 1342); (163, 1, 1845); (164, 1, 1847); (165, 1, 1849);
   (166, 2, 1349); (167, 2, 1421); (168, 0, 1851); (169, 0, 1852); (170, 0, 1495); (171, 1, 1853); (172, 1, 1855);
   (173, 1, 1857); (174, 3, 1502); (175, 1, 1859); (176, 1, 1520); (177, 1, 1861); (178, 1, 1863); (179, 1, 1865);
   (180, 1, 1867); (181, 1, 1869); (182, 1, 1871); (183, 1, 1534); (185, 0, 1536); (186, 3, 1873); (187, 1, 1889);
   (188, 1, 1891); (189, 1, 1893); (190, 1, 1895); (191, 1, 1561); (192, 1, 1563); (193, 1, 1897); (199, 3, 1899);
   (200, 0, 1583); (201, 0, 1583); (202, 0, 1583); (203, 0, 1583); (204, 0, 1583); (205, 0, 1583); (206, 0, 1583);
   (207, 0, 1583)];
  [
   (0, 3, 1113); (1, 2, 1129); (2, 1, 1201); (3, 1, 1203); (5, 0, 1205); (6, 0, 1206); (7, 0, 1207); (8, 0, 1208);
   (9, 0, 1209); (11, 0, 1210); (24, 3, 1211); (25, 1, 1227); (26, 1, 1229); (27, 1, 1231); (28, 1, 1233);
   (29, 1, 1235); (30, 1, 1237); (31, 1, 1239); (32, 1, 1241); (33, 1, 1243); (34, 1, 1245); (35, 1, 1247);
   (48, 0, 1249); (49, 0, 1250); (50, 0, 1251); (51, 0, 1252); (52, 0, 1253); (53, 0, 1254); (55, 0, 1255);
   (64, 1, 1256); (65, 1, 1258); (66, 1, 1260); (67, 1, 1262); (68, 1, 1264); (69, 1, 1266); (70, 1, 1268);
   (71, 1, 1270); (72, 1, 1272); (73, 1, 1274); (74, 1, 1276); (75, 1, 1278); (76, 1, 1280); (77, 1, 1282);
   (78, 1, 1284); (79, 1, 1286); (120, 1, 1288); (121, 1, 1290); (128, 0, 1292); (129, 0, 1293); (130, 0, 1294);
   (131, 0, 1295); (132, 0, 1296); (133, 0, 1297); (134, 0, 1298); (135, 0, 1299); (136, 0, 1300); (137, 0, 1301);
   (138, 0, 1302); (139, 0, 1303); (140, 0, 1304); (141, 0, 1305); (142, 0, 1306); (143, 0, 1307); (144, 1, 1308);
   (145, 1, 1310); (146, 1, 1312); (147, 1, 1314); (148, 1, 1316); (149, 1, 1318); (150, 1, 1320); (151, 1, 1322);
   (152, 1, 1324); (153, 1, 1326); (154, 1, 1328); (155, 1, 1330); (156, 1, 1332); (157, 1, 1334); (158, 1, 1336);
   (159, 1, 1338); (160, 0, 1340); (161, 0, 1341); (162, 0, 1342); (163, 1, 1343); (164, 1, 1345); (165, 1, 1347);
   (166, 2, 1349); (167, 2, 1421); (168, 0, 1493); (169, 0, 1494); (170, 0, 1495); (171, 1, 1496); (172, 1, 1498);
   (173, 1, 1500); (174, 3, 1502); (175, 1, 1518); (176, 1, 1520); (177, 1, 1522); (178, 1, 1524); (179, 1, 1526);
   (180, 1, 1528); (181, 1, 1530); (182, 1, 1532); (183, 1, 1534); (185, 0, 1536); (186, 3, 1537); (187, 1, 1553);
   (188, 1, 1915); (189, 1, 1917); (190, 1, 1559); (191, 1, 1561); (192, 1, 1563); (193, 1, 1565); (199, 3, 1919);
   (200, 0, 1583); (201, 0, 1583); (202, 0, 1583); (203, 0, 1583); (204, 0, 1583); (205, 0, 1583); (206, 0, 1583);
   (207, 0, 1583)];
  [
   (188, 1, 1935); (189, 1, 1937)];
  [
   (0, 3, 1939); (1, 2, 1955); (2, 1, 2027); (3, 1, 2029); (5, 0, 1205); (6, 0, 1206); (7, 0, 2031); (8, 0, 1208);
   (9, 0, 1209); (11, 0, 1210); (24, 3, 1211); (25, 1, 1227); (26, 1, 1229); (27, 1, 1231); (28, 1, 1233);
   (29, 1, 1235); (30, 1, 1237); (31, 1, 1239); (32, 1, 1656); (33, 1, 1658); (34, 1, 1660); (35, 1, 1662);
   (48, 0, 1249); (49, 0, 1250); (50, 0, 1251); (51, 0, 1252); (52, 0, 1253); (53, 0, 2032); (55, 0, 1255);
   (64, 1, 2033); (65, 1, 2035); (66, 1, 2037); (67, 1, 2039); (68, 1, 2041); (69, 1, 2043); (70, 1, 2045);
   (71, 1, 2047); (72, 1, 2049); (73, 1, 2051); (74, 1, 2053); (75, 1, 2055); (76, 1, 2057); (77, 1, 2059);
   (78, 1, 2061); (79, 1, 2063); (120, 1, 1664); (121, 1, 1666); (128, 0, 1292); (129, 0, 1293); (130, 0, 1294);
   (131, 0, 1295); (132, 0, 1296); (133, 0, 1297); (134, 0, 1298); (135, 0, 1299); (136, 0, 1300); (137, 0, 1301);
   (138, 0, 1302); (139, 0, 1303); (140, 0, 1304); (141, 0, 1305); (142, 0, 1306); (143, 0, 1307); (144, 1, 1308);
   (145, 1, 1310); (146, 1, 1312); (147, 1, 1314); (148, 1, 1316); (149, 1, 1318); (150, 1, 1320); (151, 1, 1322);
   (152, 1, 1324); (153, 1, 1326); (154, 1, 1328); (155, 1, 1330); (156, 1, 1332); (157, 1, 1334); (158, 1, 1336);
   (159, 1, 1338); (160, 0, 1668); (161, 0, 1669); (162, 0, 1670); (163, 1, 2065); (164, 1, 2067); (165, 1, 2069);
   (166, 2, 1349); (167, 2, 1421); (168, 0, 1671); (169, 0, 1672); (170, 0, 1495); (171, 1, 2071); (172, 1, 2073);
   (173, 1, 2075); (174, 3, 2077); (175, 1, 2093); (176, 1, 1520); (177, 1, 2095); (178, 1, 2097); (179, 1, 2099);
   (180, 1, 2101); (181, 1, 2103); (182, 1, 2105); (183, 1, 2107); (185, 0, 1536); (186, 3, 2109); (187, 1, 2125);
   (188, 1, 2127); (189, 1, 2129); (190, 1, 2131); (191, 1, 2133); (192, 1, 1563); (193, 1, 2135); (199, 3, 2137);
   (200, 0, 2153); (201, 0, 2153); (202, 0, 2153); (203, 0, 2153); (204, 0, 2153); (205, 0, 2153); (206, 0, 2153);
   (207, 0, 2153)];
  [
   (0, 3, 1673); (1, 2, 2154); (2, 1, 1761); (3, 1, 1763); (5, 0, 1205); (6, 0, 1206); (7, 0, 1207); (8, 0, 1208);
   (9, 0, 1209); (11, 0, 1210); (24, 3, 1765); (25, 1, 1781); (26, 1, 1783); (27, 1, 1785); (28, 1, 1787);
   (29, 1, 1789); (30, 1, 1791); (31, 1, 1793); (32, 1, 1656); (33, 1, 1658); (34, 1, 1660); (35, 1, 1662);
   (48, 0, 1249); (49, 0, 1250); (50, 0, 1251); (51, 0, 1252); (52, 0, 1253); (53, 0, 1254); (55, 0, 1255);
   (64, 1, 1795); (65, 1, 1797); (66, 1, 1799); (67, 1, 1801); (68, 1, 1803); (69, 1, 1805); (70, 1, 1807);
   (71, 1, 1809); (72, 1, 1811); (73, 1, 1813); (74, 1, 1815); (75, 1, 1817); (76, 1, 1819); (77, 1, 1821);
   (78, 1, 1823); (79, 1, 1825); (120, 1, 1664); (121, 1, 1666); (128, 0, 1827); (129, 0, 1828); (130, 0, 1829);
   (131, 0, 1830); (132, 0, 1831); (133, 0, 1832); (134, 0, 1833); (135, 0, 1834); (136, 0, 1835); (137, 0, 1836);
   (138, 0, 1837); (139, 0, 1838); (140, 0, 1839); (141, 0, 1840); (142, 0, 1841); (143, 0, 1842); (144, 1, 1308);
   (145, 1, 1310); (146, 1, 1312); (147, 1, 1314); (148, 1, 1316); (149, 1, 1318); (150, 1, 1320); (151, 1, 1322);
   (152, 1, 1324); (153, 1, 1326); (154, 1, 1328); (155, 1, 1330); (156, 1, 1332); (157, 1, 1334); (158, 1, 1336);
   (159, 1, 1338); (160, 0, 1843); (161, 0, 1844); (162, 0, 1670); (163, 1, 1845); (164, 1, 1847); (165, 1, 1849);
   (166, 2, 1349); (167, 2, 1421); (168, 0, 1851); (169, 0, 1852); (170, 0, 1495); (171, 1, 1853); (172, 1, 1855);
   (173, 1, 1857); (174, 3, 1502); (175, 1, 1859); (176, 1, 1520); (177, 1, 1861); (178, 1, 1863); (179, 1, 1865);
   (180, 1, 1867); (181, 1, 1869); (182, 1, 1871); (183, 1, 1534); (185, 0, 1536); (186, 3, 1873); (187, 1, 1889);
   (188, 1, 1891); (189, 1, 1893); (190, 1, 1895); (191, 1, 1561); (192, 1, 1563); (193, 1, 1897); (199, 3, 1899);
   (200, 0, 1583); (201, 0, 1583); (202, 0, 1583); (203, 0, 1583); (204, 0, 1583); (205, 0, 1583); (206, 0, 1583);
   (207, 0, 1583)];
  [
   (0, 3, 1113); (1, 2, 1584); (2, 1, 1201); (3, 1, 1203); (5, 0, 1205); (6, 0, 1206); (7, 0, 1207); (8, 0, 1208);
   (9, 0, 1209); (11, 0, 1210); (24, 3, 1211); (25, 1, 1227); (26, 1, 1229); (27, 1, 1231); (28, 1, 1233);
   (29, 1, 1235); (30, 1, 1237); (31, 1, 1239); (32, 1, 1656); (33, 1, 1658); (34, 1, 1660); (35, 1, 1662);
   (48, 0, 1249); (49, 0, 1250); (50, 0, 1251); (51, 0, 1252); (52, 0, 1253); (53, 0, 1254); (55, 0, 1255);
   (64, 1, 1256); (65, 1, 1258); (66, 1, 1260); (67, 1, 1262); (68, 1, 1264); (69, 1, 1266); (70, 1, 1268);
   (71, 1, 1270); (72, 1, 1272); (73, 1, 1274); (74, 1, 1276); (75, 1, 1278); (76, 1, 1280); (77, 1, 1282);
   (78, 1, 1284); (79, 1, 1286); (120, 1, 1664); (121, 1, 1666); (128, 0, 1292); (129, 0, 1293); (130, 0, 1294);
   (131, 0, 1295); (132, 0, 1296); (133, 0, 1297); (134, 0, 1298); (135, 0, 1299); (136, 0, 1300); (137, 0, 1301);
   (138, 0, 1302); (139, 0, 1303); (140, 0, 1304); (141, 0, 1305); (142, 0, 1306); (143, 0, 1307); (144, 1, 1308);
   (145, 1, 1310); (146, 1, 1312); (147, 1, 1314); (148, 1, 1316); (149, 1, 1318); (150, 1, 1320); (151, 1, 1322);
   (152, 1, 1324); (153, 1, 1326); (154, 1, 1328); (155, 1, 1330); (156, 1, 1332); (157, 1, 1334); (158, 1, 1336);
   (159, 1, 1338); (160, 0, 1668); (161, 0, 1669); (162, 0, 1670); (163, 1, 1343); (164, 1, 1345); (165, 1, 1347);
   (166, 2, 1349); (167, 2, 1421); (168, 0, 1671); (169, 0, 1672); (170, 0, 1495); (171, 1, 1496); (172, 1, 1498);
   (173, 1, 1500); (174, 3, 2226); (175, 1, 1518); (176, 1, 1520); (177, 1, 1522); (178, 1, 1524); (179, 1, 1526);
   (180, 1, 1528); (181, 1, 1530); (182, 1, 1532); (183, 1, 1534); (185, 0, 1536); (186, 3, 1537); (187, 1, 1553);
   (188, 1, 1915); (189, 1, 1917); (190, 1, 1559); (191, 1, 1561); (192, 1, 1563); (193, 1, 1565); (199, 3, 1919);
   (200, 0, 1583); (201, 0, 1583); (202, 0, 1583); (203, 0, 1583); (204, 0, 1583); (205, 0, 1583); (206, 0, 1583);
   (207, 0, 1583)];
  [
   (0, 3, 1939); (1, 2, 1955); (2, 1, 2027); (3, 1, 2029); (5, 0, 1205); (6, 0, 1206); (7, 0, 2031); (8, 0, 1208);
   (9, 0, 1209); (11, 0, 1210); (24, 3, 1211); (25, 1, 1227); (26, 1, 1229); (27, 1, 1231); (28, 1, 1233);
   (29, 1, 1235); (30, 1, 1237); (31, 1, 1239); (32, 1, 1656); (33, 1, 1658); (34, 1, 1660); (35, 1, 1662);
   (48, 0, 1249); (49, 0, 1250); (50, 0, 1251); (51, 0, 1252); (52, 0, 1253); (53, 0, 2032); (55, 0, 1255);
   (64, 1, 2033); (65, 1, 2035); (66, 1, 2037); (67, 1, 2039); (68, 1, 2041); (69, 1, 2043); (70, 1, 2045);
   (71, 1, 2047); (72, 1, 2049); (73, 1, 2051); (74, 1, 2053); (75, 1, 2055); (76, 1, 2057); (77, 1, 2059);
   (78, 1, 2061); (79, 1, 2063); (120, 1, 1664); (121, 1, 1666); (128, 0, 1292); (129, 0, 1293); (130, 0, 1294);
   (131, 0, 1295); (132, 0, 1296); (133, 0, 1297); (134, 0, 1298); (135, 0, 1299); (136, 0, 1300); (137, 0, 1301);
   (138, 0, 1302); (139, 0, 1303); (140, 0, 1304); (141, 0, 1305); (142, 0, 1306); (143, 0, 1307); (144, 1, 1308);
   (145, 1, 1310); (146, 1, 1312); (147, 1, 1314); (148, 1, 1316); (149, 1, 1318); (150, 1, 1320); (151, 1, 1322);
   (152, 1, 1324); (153, 1, 1326); (154, 1, 1328); (155, 1, 1330); (156, 1, 1332); (157, 1, 1334); (158, 1, 1336);
   (159, 1, 1338); (160, 0, 1668); (161, 0, 1669); (162, 0, 1670); (163, 1, 2065); (164, 1, 2067); (165, 1, 2069);
   (166, 2, 1349); (167, 2, 1421); (168, 0, 1671); (169, 0, 1672); (170, 0, 1495); (171, 1, 2071); (172, 1, 2073);
   (173, 1, 2075); (174, 3, 2242); (175, 1, 2093); (176, 1, 1520); (177, 1, 2095); (178, 1, 2097); (179, 1, 2099);
   (180, 1, 2101); (181, 1, 2103); (182, 1, 2105); (183, 1, 2107); (185, 0, 1536); (186, 3, 2109); (187, 1, 2125);
   (188, 1, 2258); (189, 1, 2260); (190, 1, 2131); (191, 1, 2133); (192, 1, 1563); (193, 1, 2135); (199, 3, 2262);
   (200, 0, 2153); (201, 0, 2153); (202, 0, 2153); (203, 0, 2153); (204, 0, 2153); (205, 0, 2153); (206, 0, 2153);
   (207, 0, 2153)];
  [
   (0, 3, 1939); (1, 2, 1955); (2, 1, 2027); (3, 1, 2029); (5, 0, 1205); (6, 0, 1206); (7, 0, 2031); (8, 0, 1208);
   (9, 0, 1209); (11, 0, 1210); (24, 3, 1765); (25, 1, 1781); (26, 1, 1783); (27, 1, 1785); (28, 1, 1787);
   (29, 1, 1789); (30, 1, 1791); (31, 1, 1793); (32, 1, 1656); (33, 1, 1658); (34, 1, 1660); (35, 1, 1662);
   (48, 0, 1249); (49, 0, 1250); (50, 0, 1251); (51, 0, 1252); (52, 0, 1253); (53, 0, 2032); (55, 0, 1255);
   (64, 1, 2033); (65, 1, 2035); (66, 1, 2037); (67, 1, 2039); (68, 1, 2041); (69, 1, 2043); (70, 1, 2045);
   (71, 1, 2047); (72, 1, 2049); (73, 1, 2051); (74, 1, 2053); (75, 1, 2055); (76, 1, 2057); (77, 1, 2059);
   (78, 1, 2061); (79, 1, 2063); (120, 1, 1664); (121, 1, 1666); (128, 0, 1827); (129, 0, 1828); (130, 0, 1829);
   (131, 0, 1830); (132, 0, 1831); (133, 0, 1832); (134, 0, 1833); (135, 0, 1834); (136, 0, 1835); (137, 0, 1836);
   (138, 0, 1837); (139, 0, 1838); (140, 0, 1839); (141, 0, 1840); (142, 0, 1841); (143, 0, 1842); (144, 1, 1308);
   (145, 1, 1310); (146, 1, 1312); (147, 1, 1314); (148, 1, 1316); (149, 1, 1318); (150, 1, 1320); (151, 1, 1322);
   (152, 1, 1324); (153, 1, 1326); (154, 1, 1328); (155, 1, 1330); (156, 1, 1332); (157, 1, 1334); (158, 1, 1336);
   (159, 1, 1338); (160, 0, 1843); (161, 0, 1844); (162, 0, 1670); (163, 1, 2065); (164, 1, 2067); (165, 1, 2069);
   (166, 2, 1349); (167, 2, 1421); (168, 0, 1851); (169, 0, 1852); (170, 0, 1495); (171, 1, 2071); (172, 1, 2073);
   (173, 1, 2075); (174, 3, 2077); (175, 1, 2093); (176, 1, 1520); (177, 1, 2095); (178, 1, 2097); (179, 1, 2099);
   (180, 1, 2101); (181, 1, 2103); (182, 1, 2105); (183, 1, 2107); (185, 0, 1536); (186, 3, 2109); (187, 1, 2125);
   (188, 1, 2127); (189, 1, 2129); (190, 1, 2131); (191, 1, 2133); (192, 1, 1563); (193, 1, 2135); (199, 3, 2278);
   (200, 0, 2153); (201, 0, 2153); (202, 0, 2153); (203, 0, 2153); (204, 0, 2153); (205, 0, 2153); (206, 0, 2153);
   (207, 0, 2153)];
  [
   (240, 1, 2294); (241, 1, 2296)];
  [
   (128, 1, 2298); (129, 1, 2300); (130, 1, 2302); (240, 1, 2304); (241, 1, 2306); (246, 1, 2308)];
  [
   (240, 1, 2294); (241, 1, 2296); (246, 1, 2310)];
  [
   (240, 1, 2312); (241, 1, 2314)];
  [
   (128, 1, 2316); (129, 1, 2318); (130, 1, 2320); (240, 1, 2304); (241, 1, 2306); (246, 1, 2308)];
  [
   (240, 1, 2312); (241, 1, 2314); (246, 1, 2322)];
  [
   (128, 1, 2316); (129, 1, 2318); (130, 1, 2320); (240, 1, 2312); (241, 1, 2314); (246, 1, 2324)];
  [
   (242, 1, 2326); (243, 3, 2328); (245, 1, 2344); (247, 1, 2346)];
  [
   (245, 1, 2348); (247, 1, 2350)];
  [
   (245, 1, 2352); (246, 1, 2354); (247, 1, 2356)];
  [
   (247, 1, 2358)];
  [
   (242, 1, 2360); (243, 3, 2362); (245, 1, 2378); (247, 1, 2380)];
  [
   (245, 1, 2382); (247, 1, 2384)];
  [
   (245, 1, 2386); (246, 1, 2388); (247, 1, 2390)];
  [
   (247, 1, 2392)];
  [
   (240, 1, 2394)];
  [
   (240, 1, 2396)]
].

(** The rows of the opcodes of this length. *)
Definition x86DisassemblerOneByteOpcodes : list Z := [
  0; 1; 2; 3; 0; 0; 4; 5; 6; 1; 1; 4; 4; 7; 8
].

(** For every context, one more than the position of its decisions. *)
Definition index_x86DisassemblerOneByteOpcodes : list Z := [
  1; 2; 3; 4; 0; 5; 6; 0; 0; 7; 8; 9; 10; 11; 0; 0; 12; 13; 14; 0; 0; 0; 0; 0; 0; 0; 0; 0; 0; 0; 0; 0; 0; 0; 0; 0;
  0; 0; 0; 0; 0; 0; 0; 0; 0; 0; 0; 0; 0; 0; 0; 0; 0; 0; 0; 0; 0; 0; 0; 0; 0; 0; 0; 0; 0; 0; 0; 0; 0; 0; 0; 0; 0; 0;
  0; 0; 0; 0; 0; 0; 0; 0; 0; 0; 0; 0; 0; 0; 0; 0; 0; 0; 0; 0; 0; 0; 0; 0; 0; 0; 0; 0; 0; 0; 0; 0; 0; 0; 0; 0; 0; 0;
  0; 0; 0; 0; 0; 0; 0; 0; 0; 0; 0; 0; 0; 0; 0; 0; 0; 0; 0; 0; 0; 0; 0; 0; 0; 0; 0; 0; 0; 0; 0; 0; 0; 0; 0; 0; 0; 0;
  0; 0; 0; 0; 0; 0; 0; 0; 0; 0; 0; 0; 0; 0; 0; 0; 0; 0; 0; 0; 0; 0; 0; 0; 0; 0; 0; 0; 0
].

(** The rows of the opcodes of this length. *)
Definition x86DisassemblerTwoByteOpcodes : list Z := [
  9; 10; 11; 9; 9; 12; 13; 14; 15; 10; 10; 16; 13; 17; 14; 18; 8
].

(** For every context, one more than the position of its decisions. *)
Definition index_x86DisassemblerTwoByteOpcodes : list Z := [
  1; 2; 3; 4; 0; 5; 6; 0; 7; 8; 9; 10; 11; 12; 0; 13; 14; 15; 16; 0; 0; 0; 0; 0; 0; 0; 0; 0; 0; 0; 0; 0; 0; 0; 0;
  0; 0; 0; 0; 0; 0; 0; 0; 0; 0; 0; 0; 0; 0; 0; 0; 0; 0; 0; 0; 0; 0; 0; 0; 0; 0; 0; 0; 0; 0; 0; 0; 0; 0; 0; 0; 0; 0;
  0; 0; 0; 0; 0; 0; 0; 0; 0; 0; 0; 0; 0; 0; 0; 0; 0; 0; 0; 0; 0; 0; 0; 0; 0; 0; 0; 0; 0; 0; 0; 0; 0; 0; 0; 0; 0; 0;
  0; 0; 0; 0; 0; 0; 0; 0; 0; 0; 0; 0; 0; 0; 0; 0; 0; 0; 0; 0; 0; 0; 0; 0; 0; 0; 0; 0; 0; 0; 0; 0; 0; 0; 0; 0; 0; 0;
  0; 0; 0; 0; 0; 0; 0; 0; 0; 0; 0; 0; 0; 0; 0; 0; 0; 0; 0; 0; 0; 0; 0; 0; 0; 0; 0; 0; 0; 0
].

(** The rows of the opcodes of this length. *)
Definition x86DisassemblerThreeByte38Opcodes : list Z := [
  19; 19; 20; 19; 19; 21; 22; 23; 19; 19; 21; 24; 22; 25; 26; 27; 28; 29; 30; 31; 32; 33; 8
].

(** For every context, one more than the position of its decisions. *)
Definition index_x86DisassemblerThreeByte38Opcodes : list Z := [
  1; 2; 3; 4; 0; 5; 6; 0; 0; 7; 8; 9; 10; 11; 0; 0; 12; 13; 14; 15; 16; 17; 18; 19; 20; 21; 22; 0; 0; 0; 0; 0; 0;
  0; 0; 0; 0; 0; 0; 0; 0; 0; 0; 0; 0; 0; 0; 0; 0; 0; 0; 0; 0; 0; 0; 0; 0; 0; 0; 0; 0; 0; 0; 0; 0; 0; 0; 0; 0; 0; 0;
  0; 0; 0; 0; 0; 0; 0; 0; 0; 0; 0; 0; 0; 0; 0; 0; 0; 0; 0; 0; 0; 0; 0; 0; 0; 0; 0; 0; 0; 0; 0; 0; 0; 0; 0; 0; 0; 0;
  0; 0; 0; 0; 0; 0; 0; 0; 0; 0; 0; 0; 0; 0; 0; 0; 0; 0; 0; 0; 0; 0; 0; 0; 0; 0; 0; 0; 0; 0; 0; 0; 0; 0; 0; 0; 0; 0;
  0; 0; 0; 0; 0; 0; 0; 0; 0; 0; 0; 0; 0; 0; 0; 0; 0; 0; 0; 0; 0; 0; 0; 0; 0; 0; 0; 0; 0; 0; 0; 0
].

(** The rows of the opcodes of this length. *)
Definition x86DisassemblerThreeByte3AOpcodes : list Z := [
  34; 35; 8
].

(** For every context, one more than the position of its decisions. *)
Definition index_x86DisassemblerThreeByte3AOpcodes : list Z := [
  0; 0; 0; 0; 0; 0; 0; 0; 0; 0; 0; 0; 0; 0; 0; 0; 0; 0; 0; 0; 0; 1; 0; 0; 0; 2; 0; 0; 0; 0; 0; 0; 0; 0; 0; 0; 0; 0;
  0; 0; 0; 0; 0; 0; 0; 0; 0; 0; 0; 0; 0; 0; 0; 0; 0; 0; 0; 0; 0; 0; 0; 0; 0; 0; 0; 0; 0; 0; 0; 0; 0; 0; 0; 0; 0; 0;
  0; 0; 0; 0; 0; 0; 0; 0; 0; 0; 0; 0; 0; 0; 0; 0; 0; 0; 0; 0; 0; 0; 0; 0; 0; 0; 0; 0; 0; 0; 0; 0; 0; 0; 0; 0; 0; 0;
  0; 0; 0; 0; 0; 0; 0; 0; 0; 0; 0; 0; 0; 0; 0; 0; 0; 0; 0; 0; 0; 0; 0; 0; 0; 0; 0; 0; 0; 0; 0; 0; 0; 0; 0; 0; 0; 0;
  0; 0; 0; 0; 0; 0; 0; 0; 0; 0; 0; 0; 0; 0; 0; 0; 0; 0; 0; 0; 0; 0; 0; 0; 0; 0; 0
].

(** The encoding and the type of the operands of an instruction. *)
Definition x86OperandSets : list (list (Z * Z)) := [
  [(0, 0); (0, 0); (0, 0); (0, 0); (0, 0); (0, 0)];
  [(17, 12); (0, 0); (0, 0); (0, 0); (0, 0); (0, 0)];
  [(26, 79); (0, 0); (0, 0); (0, 0); (0, 0); (0, 0)];
  [(2, 77); (26, 79); (0, 0); (0, 0); (0, 0); (0, 0)];
  [(2, 77); (17, 79); (0, 0); (0, 0); (0, 0); (0, 0)];
  [(2, 77); (1, 78); (0, 0); (0, 0); (0, 0); (0, 0)];
  [(29, 82); (2, 78); (26, 79); (0, 0); (0, 0); (0, 0)];
  [(29, 82); (2, 78); (17, 79); (0, 0); (0, 0); (0, 0)];
  [(29, 82); (1, 78); (2, 77); (0, 0); (0, 0); (0, 0)];
  [(29, 82); (2, 78); (1, 78); (0, 0); (0, 0); (0, 0)];
  [(29, 82); (1, 78); (2, 78); (0, 0); (0, 0); (0, 0)];
  [(2, 77); (17, 14); (0, 0); (0, 0); (0, 0); (0, 0)];
  [(29, 82); (2, 78); (17, 14); (0, 0); (0, 0); (0, 0)];
  [(19, 15); (0, 0); (0, 0); (0, 0); (0, 0); (0, 0)];
  [(2, 77); (19, 15); (0, 0); (0, 0); (0, 0); (0, 0)];
  [(2, 77); (17, 15); (0, 0); (0, 0); (0, 0); (0, 0)];
  [(2, 77); (1, 11); (0, 0); (0, 0); (0, 0); (0, 0)];
  [(29, 82); (2, 11); (19, 15); (0, 0); (0, 0); (0, 0)];
  [(29, 82); (2, 11); (17, 15); (0, 0); (0, 0); (0, 0)];
  [(29, 82); (1, 11); (2, 77); (0, 0); (0, 0); (0, 0)];
  [(29, 82); (2, 11); (1, 11); (0, 0); (0, 0); (0, 0)];
  [(29, 82); (1, 11); (2, 11); (0, 0); (0, 0); (0, 0)];
  [(2, 23); (17, 12); (0, 0); (0, 0); (0, 0); (0, 0)];
  [(2, 23); (1, 8); (0, 0); (0, 0); (0, 0); (0, 0)];
  [(29, 82); (2, 8); (17, 12); (0, 0); (0, 0); (0, 0)];
  [(29, 82); (1, 8); (2, 23); (0, 0); (0, 0); (0, 0)];
  [(29, 82); (2, 8); (1, 8); (0, 0); (0, 0); (0, 0)];
  [(29, 82); (1, 8); (2, 8); (0, 0); (0, 0); (0, 0)];
  [(29, 82); (1, 10); (2, 77); (0, 0); (0, 0); (0, 0)];
  [(29, 82); (1, 10); (2, 10); (0, 0); (0, 0); (0, 0)];
  [(1, 10); (2, 77); (0, 0); (0, 0); (0, 0); (0, 0)];
  [(1, 10); (2, 10); (0, 0); (0, 0); (0, 0); (0, 0)];
  [(1, 11); (2, 77); (0, 0); (0, 0); (0, 0); (0, 0)];
  [(1, 11); (2, 11); (0, 0); (0, 0); (0, 0); (0, 0)];
  [(1, 10); (9, 10); (2, 77); (0, 0); (0, 0); (0, 0)];
  [(1, 10); (9, 10); (2, 10); (0, 0); (0, 0); (0, 0)];
  [(1, 11); (9, 11); (2, 77); (0, 0); (0, 0); (0, 0)];
  [(1, 11); (9, 11); (2, 11); (0, 0); (0, 0); (0, 0)];
  [(2, 77); (1, 9); (0, 0); (0, 0); (0, 0); (0, 0)];
  [(2, 9); (1, 9); (0, 0); (0, 0); (0, 0); (0, 0)];
  [(1, 10); (2, 77); (9, 10); (0, 0); (0, 0); (0, 0)];
  [(1, 10); (2, 10); (9, 10); (0, 0); (0, 0); (0, 0)];
  [(1, 11); (2, 77); (9, 11); (0, 0); (0, 0); (0, 0)];
  [(1, 11); (2, 11); (9, 11); (0, 0); (0, 0); (0, 0)];
  [(1, 10); (2, 77); (26, 79); (0, 0); (0, 0); (0, 0)];
  [(1, 10); (2, 10); (26, 79); (0, 0); (0, 0); (0, 0)];
  [(1, 11); (2, 77); (19, 15); (0, 0); (0, 0); (0, 0)];
  [(1, 11); (2, 11); (19, 15); (0, 0); (0, 0); (0, 0)];
  [(9, 10); (2, 77); (0, 0); (0, 0); (0, 0); (0, 0)];
  [(9, 10); (2, 10); (0, 0); (0, 0); (0, 0); (0, 0)];
  [(9, 11); (2, 77); (0, 0); (0, 0); (0, 0); (0, 0)];
  [(9, 11); (2, 11); (0, 0); (0, 0); (0, 0); (0, 0)];
  [(1, 78); (2, 77); (0, 0); (0, 0); (0, 0); (0, 0)];
  [(1, 78); (2, 78); (0, 0); (0, 0); (0, 0); (0, 0)];
  [(29, 82); (28, 78); (0, 0); (0, 0); (0, 0); (0, 0)];
  [(29, 82); (24, 11); (0, 0); (0, 0); (0, 0); (0, 0)];
  [(2, 78); (17, 79); (0, 0); (0, 0); (0, 0); (0, 0)];
  [(2, 78); (1, 78); (0, 0); (0, 0); (0, 0); (0, 0)];
  [(2, 78); (17, 14); (0, 0); (0, 0); (0, 0); (0, 0)];
  [(2, 11); (17, 15); (0, 0); (0, 0); (0, 0); (0, 0)];
  [(2, 11); (1, 11); (0, 0); (0, 0); (0, 0); (0, 0)];
  [(2, 77); (0, 0); (0, 0); (0, 0); (0, 0); (0, 0)];
  [(2, 78); (0, 0); (0, 0); (0, 0); (0, 0); (0, 0)];
  [(19, 4); (0, 0); (0, 0); (0, 0); (0, 0); (0, 0)];
  [(2, 11); (0, 0); (0, 0); (0, 0); (0, 0); (0, 0)];
  [(18, 2); (0, 0); (0, 0); (0, 0); (0, 0); (0, 0)];
  [(19, 3); (0, 0); (0, 0); (0, 0); (0, 0); (0, 0)];
  [(2, 78); (26, 79); (0, 0); (0, 0); (0, 0); (0, 0)];
  [(2, 11); (19, 15); (0, 0); (0, 0); (0, 0); (0, 0)];
  [(2, 8); (17, 12); (0, 0); (0, 0); (0, 0); (0, 0)];
  [(1, 8); (2, 23); (0, 0); (0, 0); (0, 0); (0, 0)];
  [(2, 8); (1, 8); (0, 0); (0, 0); (0, 0); (0, 0)];
  [(1, 8); (2, 8); (0, 0); (0, 0); (0, 0); (0, 0)];
  [(31, 41); (30, 37); (0, 0); (0, 0); (0, 0); (0, 0)];
  [(31, 43); (30, 39); (0, 0); (0, 0); (0, 0); (0, 0)];
  [(31, 44); (30, 40); (0, 0); (0, 0); (0, 0); (0, 0)];
  [(31, 42); (30, 38); (0, 0); (0, 0); (0, 0); (0, 0)];
  [(2, 28); (0, 0); (0, 0); (0, 0); (0, 0); (0, 0)];
  [(29, 82); (2, 78); (0, 0); (0, 0); (0, 0); (0, 0)];
  [(29, 82); (2, 11); (0, 0); (0, 0); (0, 0); (0, 0)];
  [(2, 23); (0, 0); (0, 0); (0, 0); (0, 0); (0, 0)];
  [(29, 82); (2, 8); (0, 0); (0, 0); (0, 0); (0, 0)];
  [(2, 8); (0, 0); (0, 0); (0, 0); (0, 0); (0, 0)];
  [(18, 13); (17, 12); (0, 0); (0, 0); (0, 0); (0, 0)];
  [(26, 79); (26, 79); (0, 0); (0, 0); (0, 0); (0, 0)];
  [(2, 30); (0, 0); (0, 0); (0, 0); (0, 0); (0, 0)];
  [(26, 79); (18, 13); (0, 0); (0, 0); (0, 0); (0, 0)];
  [(2, 31); (0, 0); (0, 0); (0, 0); (0, 0); (0, 0)];
  [(2, 32); (0, 0); (0, 0); (0, 0); (0, 0); (0, 0)];
  [(1, 78); (2, 77); (26, 79); (0, 0); (0, 0); (0, 0)];
  [(1, 78); (2, 77); (17, 79); (0, 0); (0, 0); (0, 0)];
  [(1, 78); (2, 78); (26, 79); (0, 0); (0, 0); (0, 0)];
  [(1, 78); (2, 78); (17, 79); (0, 0); (0, 0); (0, 0)];
  [(1, 78); (2, 77); (17, 14); (0, 0); (0, 0); (0, 0)];
  [(1, 78); (2, 78); (17, 14); (0, 0); (0, 0); (0, 0)];
  [(1, 11); (2, 77); (17, 15); (0, 0); (0, 0); (0, 0)];
  [(1, 11); (2, 11); (17, 15); (0, 0); (0, 0); (0, 0)];
  [(31, 41); (0, 0); (0, 0); (0, 0); (0, 0); (0, 0)];
  [(31, 43); (0, 0); (0, 0); (0, 0); (0, 0); (0, 0)];
  [(31, 42); (0, 0); (0, 0); (0, 0); (0, 0); (0, 0)];
  [(1, 10); (2, 28); (0, 0); (0, 0); (0, 0); (0, 0)];
  [(1, 11); (2, 28); (0, 0); (0, 0); (0, 0); (0, 0)];
  [(17, 1); (0, 0); (0, 0); (0, 0); (0, 0); (0, 0)];
  [(26, 80); (0, 0); (0, 0); (0, 0); (0, 0); (0, 0)];
  [(1, 11); (2, 10); (0, 0); (0, 0); (0, 0); (0, 0)];
  [(1, 78); (2, 30); (0, 0); (0, 0); (0, 0); (0, 0)];
  [(1, 78); (2, 31); (0, 0); (0, 0); (0, 0); (0, 0)];
  [(1, 78); (2, 27); (0, 0); (0, 0); (0, 0); (0, 0)];
  [(1, 11); (2, 27); (0, 0); (0, 0); (0, 0); (0, 0)];
  [(1, 11); (2, 32); (0, 0); (0, 0); (0, 0); (0, 0)];
  [(2, 9); (0, 0); (0, 0); (0, 0); (0, 0); (0, 0)];
  [(30, 37); (0, 0); (0, 0); (0, 0); (0, 0); (0, 0)];
  [(30, 39); (0, 0); (0, 0); (0, 0); (0, 0); (0, 0)];
  [(30, 40); (0, 0); (0, 0); (0, 0); (0, 0); (0, 0)];
  [(30, 38); (0, 0); (0, 0); (0, 0); (0, 0); (0, 0)];
  [(18, 13); (0, 0); (0, 0); (0, 0); (0, 0); (0, 0)];
  [(27, 46); (0, 0); (0, 0); (0, 0); (0, 0); (0, 0)];
  [(2, 77); (1, 74); (0, 0); (0, 0); (0, 0); (0, 0)];
  [(28, 78); (26, 79); (0, 0); (0, 0); (0, 0); (0, 0)];
  [(2, 78); (1, 74); (0, 0); (0, 0); (0, 0); (0, 0)];
  [(1, 74); (2, 77); (0, 0); (0, 0); (0, 0); (0, 0)];
  [(1, 74); (2, 78); (0, 0); (0, 0); (0, 0); (0, 0)];
  [(27, 47); (0, 0); (0, 0); (0, 0); (0, 0); (0, 0)];
  [(1, 76); (2, 10); (0, 0); (0, 0); (0, 0); (0, 0)];
  [(1, 75); (2, 10); (0, 0); (0, 0); (0, 0); (0, 0)];
  [(2, 10); (1, 76); (0, 0); (0, 0); (0, 0); (0, 0)];
  [(2, 10); (1, 75); (0, 0); (0, 0); (0, 0); (0, 0)];
  [(27, 48); (0, 0); (0, 0); (0, 0); (0, 0); (0, 0)];
  [(27, 45); (0, 0); (0, 0); (0, 0); (0, 0); (0, 0)];
  [(1, 76); (2, 11); (0, 0); (0, 0); (0, 0); (0, 0)];
  [(1, 75); (2, 11); (0, 0); (0, 0); (0, 0); (0, 0)];
  [(2, 11); (1, 76); (0, 0); (0, 0); (0, 0); (0, 0)];
  [(2, 11); (1, 75); (0, 0); (0, 0); (0, 0); (0, 0)];
  [(24, 11); (20, 79); (0, 0); (0, 0); (0, 0); (0, 0)];
  [(2, 11); (1, 74); (0, 0); (0, 0); (0, 0); (0, 0)];
  [(1, 74); (2, 11); (0, 0); (0, 0); (0, 0); (0, 0)];
  [(21, 8); (17, 12); (0, 0); (0, 0); (0, 0); (0, 0)];
  [(1, 78); (2, 23); (0, 0); (0, 0); (0, 0); (0, 0)];
  [(1, 78); (2, 8); (0, 0); (0, 0); (0, 0); (0, 0)];
  [(1, 78); (2, 9); (0, 0); (0, 0); (0, 0); (0, 0)];
  [(1, 11); (2, 23); (0, 0); (0, 0); (0, 0); (0, 0)];
  [(1, 11); (2, 9); (0, 0); (0, 0); (0, 0); (0, 0)];
  [(1, 11); (2, 8); (0, 0); (0, 0); (0, 0); (0, 0)];
  [(28, 78); (0, 0); (0, 0); (0, 0); (0, 0); (0, 0)];
  [(24, 11); (0, 0); (0, 0); (0, 0); (0, 0); (0, 0)];
  [(17, 79); (0, 0); (0, 0); (0, 0); (0, 0); (0, 0)];
  [(17, 14); (0, 0); (0, 0); (0, 0); (0, 0); (0, 0)];
  [(17, 15); (0, 0); (0, 0); (0, 0); (0, 0); (0, 0)];
  [(2, 77); (17, 12); (0, 0); (0, 0); (0, 0); (0, 0)];
  [(29, 82); (2, 78); (17, 12); (0, 0); (0, 0); (0, 0)];
  [(29, 82); (2, 11); (17, 12); (0, 0); (0, 0); (0, 0)];
  [(2, 10); (0, 0); (0, 0); (0, 0); (0, 0); (0, 0)];
  [(1, 10); (2, 77); (17, 12); (0, 0); (0, 0); (0, 0)];
  [(1, 10); (2, 10); (17, 12); (0, 0); (0, 0); (0, 0)];
  [(1, 11); (2, 77); (17, 12); (0, 0); (0, 0); (0, 0)];
  [(1, 11); (2, 11); (17, 12); (0, 0); (0, 0); (0, 0)];
  [(31, 44); (0, 0); (0, 0); (0, 0); (0, 0); (0, 0)];
  [(2, 77); (1, 78); (17, 12); (0, 0); (0, 0); (0, 0)];
  [(29, 82); (2, 78); (1, 78); (17, 12); (0, 0); (0, 0)];
  [(2, 77); (1, 11); (17, 12); (0, 0); (0, 0); (0, 0)];
  [(29, 82); (2, 11); (1, 11); (17, 12); (0, 0); (0, 0)];
  [(2, 77); (1, 10); (0, 0); (0, 0); (0, 0); (0, 0)];
  [(2, 10); (1, 10); (0, 0); (0, 0); (0, 0); (0, 0)];
  [(2, 86); (0, 0); (0, 0); (0, 0); (0, 0); (0, 0)]
].

(** For every instruction, its operands. *)
Definition x86DisassemblerInstrSpecifiers : list Z := [
  0; 0; 0; 0; 0; 0; 0; 0; 0; 0; 0; 0; 0; 0; 0; 0; 0; 0; 0; 0; 0; 1; 1; 0; 0; 0; 0; 0; 2; 3; 4; 5; 6; 7; 8; 9; 10;
  2; 3; 11; 5; 6; 12; 8; 9; 10; 13; 14; 15; 16; 17; 18; 19; 20; 21; 1; 22; 23; 24; 25; 26; 27; 28; 29; 19; 21; 2;
  3; 4; 5; 6; 7; 0; 0; 8; 9; 0; 10; 2; 3; 11; 5; 6; 12; 0; 0; 8; 9; 0; 10; 13; 14; 15; 16; 17; 0; 18; 0; 19; 20; 0;
  21; 1; 22; 23; 24; 24; 25; 26; 27; 0; 0; 0; 0; 30; 31; 32; 33; 2; 3; 4; 5; 6; 7; 8; 9; 10; 2; 3; 11; 5; 6; 12; 8;
  9; 10; 13; 14; 15; 16; 17; 18; 19; 20; 21; 1; 22; 23; 24; 24; 25; 26; 27; 34; 35; 36; 37; 38; 39; 40; 41; 42; 43;
  44; 45; 46; 47; 48; 49; 50; 51; 48; 49; 50; 51; 48; 49; 50; 51; 48; 49; 50; 51; 48; 49; 50; 51; 48; 49; 50; 51;
  48; 49; 50; 51; 48; 49; 50; 51; 48; 49; 50; 51; 48; 49; 50; 51; 52; 52; 52; 53; 52; 53; 32; 33; 52; 53; 52; 53;
  32; 33; 54; 55; 4; 5; 56; 57; 11; 5; 58; 57; 15; 16; 59; 60; 4; 5; 56; 57; 11; 5; 58; 57; 15; 16; 59; 60; 4; 5;
  56; 57; 11; 5; 58; 57; 15; 16; 59; 60; 4; 5; 56; 57; 11; 5; 58; 57; 15; 16; 59; 60; 40; 41; 42; 43; 61; 62; 61;
  62; 61; 63; 64; 65; 66; 0; 0; 0; 0; 0; 0; 0; 0; 0; 0; 8; 10; 8; 10; 19; 21; 8; 10; 8; 10; 19; 21; 8; 10; 8; 10;
  19; 21; 8; 10; 8; 10; 19; 21; 8; 10; 8; 10; 19; 21; 8; 10; 8; 10; 19; 21; 8; 10; 8; 10; 19; 21; 8; 10; 8; 10; 19;
  21; 8; 10; 8; 10; 19; 21; 8; 10; 8; 10; 19; 21; 8; 10; 8; 10; 19; 21; 8; 10; 8; 10; 19; 21; 8; 10; 8; 10; 19; 21;
  8; 10; 8; 10; 19; 21; 8; 10; 8; 10; 19; 21; 8; 10; 8; 10; 19; 21; 0; 0; 0; 0; 0; 0; 0; 0; 0; 0; 0; 0; 0; 0; 0; 0;
  0; 2; 3; 4; 5; 67; 56; 52; 57; 53; 2; 3; 11; 5; 67; 58; 52; 57; 53; 13; 14; 15; 16; 68; 59; 32; 60; 33; 1; 22;
  23; 69; 70; 71; 72; 73; 74; 75; 76; 77; 5; 57; 5; 57; 16; 60; 61; 23; 71; 0; 0; 0; 0; 0; 0; 0; 0; 61; 54; 78; 78;
  61; 54; 61; 78; 61; 78; 61; 79; 80; 81; 61; 62; 61; 62; 61; 64; 80; 82; 0; 0; 0; 0; 0; 0; 0; 83; 84; 85; 86; 87;
  88; 84; 85; 86; 87; 88; 0; 0; 0; 61; 62; 61; 62; 61; 64; 80; 82; 61; 62; 8; 89; 90; 10; 91; 92; 61; 62; 8; 89;
  93; 10; 91; 94; 61; 64; 19; 46; 95; 21; 47; 96; 80; 82; 1; 0; 1; 0; 1; 0; 61; 54; 78; 78; 61; 54; 61; 78; 61; 78;
  61; 79; 80; 81; 97; 98; 99; 1; 0; 0; 0; 0; 100; 101; 80; 0; 0; 100; 101; 100; 101; 0; 0; 0; 0; 102; 103; 103;
  102; 103; 103; 102; 103; 103; 102; 103; 103; 102; 102; 102; 102; 103; 103; 102; 103; 103; 102; 103; 103; 102;
  103; 103; 102; 103; 103; 61; 62; 61; 62; 61; 64; 102; 103; 103; 102; 103; 103; 102; 103; 103; 102; 103; 103; 102;
  103; 103; 102; 103; 103; 102; 103; 103; 102; 102; 103; 103; 0; 52; 53; 52; 53; 32; 104; 0; 0; 0; 0; 0; 0; 105;
  106; 52; 52; 107; 108; 0; 0; 105; 106; 105; 106; 109; 87; 87; 88; 105; 106; 109; 87; 87; 88; 61; 110; 61; 110; 0;
  0; 0; 0; 0; 0; 0; 0; 0; 0; 0; 0; 0; 0; 0; 0; 0; 0; 0; 0; 0; 0; 0; 0; 0; 0; 0; 0; 0; 0; 0; 0; 0; 0; 0; 0; 0; 0; 0;
  0; 0; 0; 0; 0; 0; 0; 0; 0; 0; 0; 0; 0; 0; 0; 0; 0; 0; 0; 0; 0; 0; 0; 0; 0; 111; 112; 113; 114; 102; 102; 102;
  115; 115; 2; 0; 0; 0; 52; 53; 52; 53; 32; 33; 105; 106; 109; 61; 110; 0; 0; 0; 0; 52; 53; 52; 53; 32; 33; 0; 0;
  0; 116; 116; 3; 5; 117; 116; 116; 118; 67; 52; 57; 53; 119; 120; 121; 122; 122; 123; 124; 3; 5; 117; 122; 122; 0;
  125; 126; 118; 0; 67; 52; 57; 53; 119; 120; 121; 116; 122; 127; 128; 129; 130; 14; 16; 117; 116; 122; 127; 128;
  131; 132; 133; 68; 32; 60; 33; 134; 120; 135; 128; 128; 22; 23; 0; 128; 128; 136; 69; 70; 0; 71; 0; 72; 5; 52; 5;
  52; 16; 32; 0; 73; 74; 75; 76; 137; 138; 52; 137; 139; 138; 104; 32; 32; 140; 141; 104; 142; 137; 138; 0; 0; 52;
  137; 139; 138; 32; 140; 141; 142; 61; 62; 61; 62; 61; 64; 80; 82; 34; 35; 36; 37; 61; 78; 61; 78; 61; 79; 80; 81;
  0; 61; 61; 61; 61; 62; 62; 62; 62; 61; 61; 61; 61; 62; 62; 62; 62; 53; 61; 61; 61; 61; 61; 61; 61; 61; 61; 61;
  61; 61; 61; 61; 61; 78; 61; 78; 61; 79; 80; 81; 2; 3; 4; 5; 6; 7; 8; 9; 10; 2; 3; 11; 5; 0; 6; 12; 8; 9; 10; 13;
  14; 15; 16; 17; 18; 19; 20; 21; 1; 22; 23; 24; 24; 25; 26; 27; 1; 0; 1; 0; 1; 0; 111; 112; 114; 34; 35; 36; 37;
  34; 35; 36; 37; 143; 61; 62; 143; 61; 62; 144; 61; 64; 0; 0; 0; 0; 0; 0; 0; 0; 0; 0; 0; 0; 0; 0; 0; 0; 0; 145;
  143; 61; 62; 146; 143; 61; 62; 2; 13; 147; 144; 61; 64; 0; 0; 0; 0; 0; 0; 0; 0; 0; 0; 0; 0; 0; 0; 0; 0; 0; 0; 0;
  2; 2; 61; 61; 148; 78; 78; 149; 61; 61; 148; 78; 78; 149; 61; 61; 148; 79; 79; 150; 80; 80; 22; 81; 81; 24; 61;
  61; 148; 78; 78; 149; 61; 61; 148; 78; 78; 149; 61; 61; 148; 79; 79; 150; 80; 80; 22; 81; 81; 24; 151; 64; 151;
  64; 0; 0; 62; 62; 64; 62; 62; 64; 0; 0; 0; 0; 0; 0; 0; 0; 0; 0; 0; 0; 0; 0; 0; 0; 0; 0; 0; 0; 0; 0; 115; 115; 2;
  0; 0; 0; 0; 61; 61; 148; 78; 78; 149; 61; 61; 148; 78; 78; 149; 61; 61; 148; 79; 79; 150; 80; 80; 22; 81; 81; 24;
  61; 61; 148; 78; 78; 149; 61; 61; 148; 78; 78; 149; 61; 61; 148; 79; 79; 150; 80; 80; 22; 81; 81; 24; 152; 153;
  154; 155; 0; 0; 61; 61; 148; 78; 78; 149; 61; 61; 148; 78; 78; 149; 61; 61; 148; 79; 79; 150; 80; 80; 22; 81; 81;
  24; 0; 61; 61; 148; 78; 78; 149; 61; 61; 148; 78; 78; 149; 61; 61; 148; 79; 79; 150; 80; 80; 22; 81; 81; 24; 40;
  41; 42; 43; 2; 3; 4; 5; 6; 7; 8; 9; 10; 2; 3; 11; 5; 6; 12; 8; 9; 10; 13; 14; 15; 16; 17; 18; 19; 20; 21; 1; 22;
  23; 24; 25; 26; 27; 97; 98; 156; 99; 0; 0; 0; 0; 0; 0; 0; 0; 0; 0; 80; 82; 80; 82; 80; 82; 0; 0; 0; 0; 80; 82;
  80; 82; 80; 82; 80; 82; 80; 82; 80; 82; 80; 82; 80; 82; 80; 82; 80; 82; 80; 82; 80; 82; 80; 82; 87; 87; 88; 61;
  61; 148; 78; 78; 149; 61; 61; 148; 78; 78; 149; 61; 61; 148; 79; 79; 150; 80; 80; 22; 81; 81; 24; 5; 157; 9; 158;
  5; 157; 9; 158; 16; 159; 20; 160; 40; 41; 42; 43; 61; 61; 148; 78; 78; 149; 61; 61; 148; 78; 78; 149; 61; 61;
  148; 79; 79; 150; 80; 80; 22; 81; 81; 24; 5; 157; 9; 158; 5; 157; 9; 158; 16; 159; 20; 160; 40; 41; 42; 43; 87;
  87; 88; 0; 61; 62; 62; 61; 64; 61; 62; 62; 64; 0; 0; 0; 0; 0; 97; 98; 156; 99; 62; 62; 64; 61; 2; 3; 4; 5; 6; 7;
  8; 9; 10; 2; 3; 11; 5; 6; 12; 8; 9; 10; 13; 14; 15; 16; 17; 18; 19; 20; 21; 1; 22; 23; 24; 24; 25; 26; 27; 0; 0;
  0; 0; 0; 0; 0; 48; 49; 50; 51; 0; 0; 0; 0; 0; 0; 0; 0; 0; 0; 0; 0; 2; 3; 3; 67; 67; 5; 57; 2; 3; 3; 67; 67; 5;
  57; 13; 14; 14; 68; 68; 16; 60; 1; 22; 22; 69; 0; 69; 23; 71; 0; 0; 0; 0; 0; 0; 0; 52; 53; 52; 53; 32; 33; 48;
  49; 50; 51; 0; 0; 0; 61; 110; 61; 110; 0; 61; 0; 0; 0; 0; 0; 61; 61; 161; 162; 16; 60; 0; 0; 0; 0; 0; 30; 31; 32;
  33; 0; 61; 0; 0; 0; 0; 0; 151; 64; 151; 64; 0; 5; 57; 5; 57; 16; 60; 23; 71; 143; 8; 10; 143; 143; 8; 10; 144;
  19; 21; 25; 27; 0; 0; 0; 0; 0; 0; 0; 2; 3; 4; 5; 6; 7; 8; 9; 10; 2; 3; 11; 5; 6; 12; 8; 9; 10; 13; 14; 15; 16;
  17; 18; 19; 20; 21; 1; 22; 23; 24; 24; 25; 26; 27; 163; 163; 163; 163; 163; 163; 0; 0; 0; 0
].

(** Instructions that have a form of 16 bits, with that form. *)
Definition x86_16_bit_eq_tbl : list (Z * Z) := [
  (25, 24); (26, 24); (37, 28); (38, 29); (39, 30); (40, 31); (41, 32); (42, 33); (43, 34); (44, 35); (45, 36);
  (46, 28); (48, 30); (49, 31); (51, 33); (52, 34); (53, 35); (54, 36); (78, 66); (79, 67); (80, 68); (81, 69);
  (82, 70); (83, 71); (84, 72); (85, 73); (86, 74); (87, 75); (88, 76); (89, 77); (90, 66); (92, 68); (93, 69);
  (96, 71); (97, 72); (98, 74); (99, 75); (100, 76); (101, 77); (127, 118); (128, 119); (129, 120); (130, 121);
  (131, 122); (132, 123); (133, 124); (134, 125); (135, 126); (136, 118); (138, 120); (139, 121); (141, 123);
  (142, 124); (143, 125); (144, 126); (208, 207); (211, 209); (212, 210); (213, 209); (214, 210); (217, 215);
  (218, 216); (219, 215); (220, 216); (227, 223); (228, 224); (229, 225); (230, 226); (231, 223); (232, 224);
  (233, 225); (234, 226); (239, 235); (240, 236); (241, 237); (242, 238); (243, 235); (244, 236); (245, 237);
  (246, 238); (251, 247); (252, 248); (253, 249); (254, 250); (255, 247); (256, 248); (257, 249); (258, 250);
  (263, 259); (264, 260); (265, 261); (266, 262); (267, 259); (268, 260); (269, 261); (270, 262); (277, 275);
  (278, 276); (279, 275); (281, 276); (283, 282); (289, 458); (296, 294); (297, 295); (298, 294); (299, 295);
  (302, 300); (303, 301); (304, 300); (305, 301); (308, 306); (309, 307); (310, 306); (311, 307); (314, 312);
  (315, 313); (316, 312); (317, 313); (320, 318); (321, 319); (322, 318); (323, 319); (326, 324); (327, 325);
  (328, 324); (329, 325); (332, 330); (333, 331); (334, 330); (335, 331); (338, 336); (339, 337); (340, 336);
  (341, 337); (344, 342); (345, 343); (346, 342); (347, 343); (350, 348); (351, 349); (352, 348); (353, 349);
  (356, 354); (357, 355); (358, 354); (359, 355); (362, 360); (363, 361); (364, 360); (365, 361); (368, 366);
  (369, 367); (370, 366); (371, 367); (374, 372); (375, 373); (376, 372); (377, 373); (380, 378); (381, 379);
  (382, 378); (383, 379); (386, 384); (387, 385); (388, 384); (389, 385); (393, 392); (416, 407); (417, 408);
  (418, 409); (419, 410); (420, 411); (421, 412); (422, 413); (423, 414); (424, 415); (425, 407); (427, 409);
  (428, 410); (430, 412); (431, 413); (432, 414); (433, 415); (442, 444); (443, 444); (448, 446); (449, 447);
  (450, 446); (451, 447); (466, 465); (467, 463); (468, 464); (471, 469); (472, 470); (473, 463); (474, 464);
  (479, 477); (480, 478); (481, 477); (482, 478); (495, 493); (496, 494); (500, 498); (501, 499); (508, 506);
  (509, 507); (510, 506); (511, 507); (522, 514); (523, 515); (524, 516); (525, 517); (526, 518); (527, 519);
  (528, 520); (529, 521); (530, 514); (531, 515); (532, 516); (534, 518); (535, 519); (537, 521); (542, 540);
  (543, 541); (549, 548); (550, 546); (551, 547); (554, 552); (555, 553); (556, 546); (557, 547); (561, 562);
  (565, 564); (578, 577); (579, 577); (613, 611); (614, 612); (615, 611); (616, 612); (645, 643); (646, 644);
  (647, 643); (648, 644); (651, 649); (652, 649); (656, 655); (658, 657); (660, 657); (664, 663); (666, 665);
  (667, 665); (669, 668); (670, 668); (672, 671); (673, 671); (675, 674); (676, 674); (684, 681); (685, 682);
  (686, 683); (688, 682); (689, 683); (695, 692); (696, 693); (697, 694); (699, 693); (700, 694); (704, 703);
  (705, 703); (708, 707); (709, 707); (714, 711); (715, 712); (716, 713); (718, 712); (719, 713); (726, 723);
  (727, 724); (728, 725); (730, 724); (731, 725); (737, 734); (738, 735); (739, 736); (741, 735); (742, 736);
  (746, 748); (747, 748); (752, 754); (753, 754); (755, 757); (756, 757); (760, 758); (761, 759); (762, 758);
  (763, 759); (765, 764); (766, 764); (770, 769); (771, 769); (775, 773); (776, 774); (777, 773); (778, 774);
  (797, 782); (798, 783); (801, 784); (802, 785); (803, 786); (804, 787); (805, 788); (809, 789); (811, 790);
  (812, 791); (813, 792); (814, 793); (815, 794); (816, 795); (817, 796); (818, 782); (819, 782); (819, 818);
  (820, 782); (820, 818); (825, 785); (826, 786); (827, 787); (828, 787); (828, 827); (829, 787); (829, 827);
  (833, 789); (835, 791); (836, 792); (837, 793); (838, 794); (839, 795); (840, 796); (857, 855); (858, 856);
  (859, 855); (860, 856); (863, 865); (864, 865); (869, 866); (871, 867); (874, 873); (875, 866); (877, 876);
  (878, 867); (884, 879); (886, 880); (893, 891); (894, 892); (895, 891); (896, 892); (905, 903); (906, 904);
  (907, 903); (908, 904); (912, 914); (916, 918); (920, 922); (924, 926); (929, 936); (930, 937); (931, 938);
  (932, 939); (933, 940); (934, 941); (935, 942); (945, 943); (946, 944); (947, 943); (948, 944); (960, 951);
  (961, 952); (962, 953); (963, 954); (965, 955); (966, 956); (967, 957); (968, 958); (969, 959); (970, 951);
  (972, 953); (973, 954); (975, 956); (976, 957); (977, 958); (978, 959); (989, 987); (990, 988); (994, 995);
  (1007, 1004); (1008, 1005); (1009, 1006); (1010, 1004); (1011, 1005); (1012, 1006); (1014, 1013); (1016, 1015);
  (1018, 1017); (1020, 1019); (1021, 1019); (1023, 1022); (1024, 1022); (1026, 1025); (1027, 1025); (1029, 1028);
  (1034, 1030); (1035, 1031); (1036, 1032); (1037, 1033); (1039, 1038); (1040, 1030); (1041, 1031); (1042, 1032);
  (1043, 1033); (1045, 1044); (1047, 1046); (1049, 1048); (1051, 1050); (1053, 1052); (1054, 1052); (1056, 1055);
  (1057, 1055); (1059, 1058); (1060, 1058); (1062, 1061); (1064, 1063); (1071, 1065); (1072, 1066); (1073, 1067);
  (1074, 1068); (1075, 1069); (1076, 1070); (1077, 1065); (1078, 1066); (1079, 1067); (1080, 1068); (1081, 1069);
  (1082, 1070); (1095, 1089); (1096, 1090); (1097, 1091); (1098, 1092); (1099, 1093); (1100, 1094); (1101, 1089);
  (1102, 1090); (1103, 1091); (1104, 1092); (1105, 1093); (1106, 1094); (1120, 1119); (1121, 1119); (1123, 1122);
  (1124, 1122); (1128, 1127); (1129, 1127); (1136, 1138); (1144, 1146); (1147, 1149); (1148, 1149); (1150, 1152);
  (1151, 1152); (1160, 1154); (1161, 1155); (1162, 1156); (1163, 1157); (1164, 1158); (1165, 1159); (1166, 1154);
  (1167, 1155); (1168, 1156); (1169, 1157); (1170, 1158); (1171, 1159); (1184, 1178); (1185, 1179); (1186, 1180);
  (1187, 1181); (1188, 1182); (1189, 1183); (1190, 1178); (1191, 1179); (1192, 1180); (1193, 1181); (1194, 1182);
  (1195, 1183); (1214, 1208); (1215, 1209); (1216, 1210); (1217, 1211); (1218, 1212); (1219, 1213); (1220, 1208);
  (1221, 1209); (1222, 1210); (1223, 1211); (1224, 1212); (1225, 1213); (1239, 1233); (1240, 1234); (1241, 1235);
  (1242, 1236); (1243, 1237); (1244, 1238); (1245, 1233); (1246, 1234); (1247, 1235); (1248, 1236); (1249, 1237);
  (1250, 1238); (1270, 1261); (1271, 1262); (1272, 1263); (1273, 1264); (1274, 1265); (1275, 1266); (1276, 1267);
  (1277, 1268); (1278, 1269); (1279, 1261); (1281, 1263); (1282, 1264); (1284, 1266); (1285, 1267); (1286, 1268);
  (1287, 1269); (1296, 1298); (1297, 1298); (1316, 1315); (1317, 1315); (1346, 1345); (1347, 1345); (1354, 1348);
  (1355, 1349); (1356, 1350); (1357, 1351); (1358, 1352); (1359, 1353); (1360, 1348); (1361, 1349); (1362, 1350);
  (1363, 1351); (1364, 1352); (1365, 1353); (1376, 1372); (1377, 1373); (1378, 1374); (1379, 1375); (1380, 1372);
  (1381, 1373); (1382, 1374); (1383, 1375); (1394, 1388); (1395, 1389); (1396, 1390); (1397, 1391); (1398, 1392);
  (1399, 1393); (1400, 1388); (1401, 1389); (1402, 1390); (1403, 1391); (1404, 1392); (1405, 1393); (1416, 1412);
  (1417, 1413); (1418, 1414); (1419, 1415); (1420, 1412); (1421, 1413); (1422, 1414); (1423, 1415); (1429, 1428);
  (1430, 1428); (1434, 1433); (1435, 1432); (1436, 1433); (1439, 1438); (1440, 1438); (1447, 1449); (1448, 1449);
  (1451, 1450); (1452, 1450); (1463, 1454); (1464, 1455); (1465, 1456); (1466, 1457); (1467, 1458); (1468, 1459);
  (1469, 1460); (1470, 1461); (1471, 1462); (1472, 1454); (1474, 1456); (1475, 1457); (1477, 1459); (1478, 1460);
  (1479, 1461); (1480, 1462); (1519, 1512); (1520, 1513); (1521, 1514); (1522, 1515); (1523, 1516); (1524, 1517);
  (1525, 1518); (1526, 1512); (1531, 1517); (1532, 1518); (1550, 1548); (1551, 1549); (1552, 1548); (1553, 1549);
  (1601, 1599); (1602, 1600); (1603, 1599); (1604, 1600); (1610, 1607); (1612, 1608); (1613, 1609); (1614, 1607);
  (1615, 1608); (1616, 1609); (1635, 1626); (1636, 1627); (1637, 1628); (1638, 1629); (1639, 1630); (1640, 1631);
  (1641, 1632); (1642, 1633); (1643, 1634); (1644, 1626); (1646, 1628); (1647, 1629); (1649, 1631); (1650, 1632);
  (1651, 1633); (1652, 1634)
].

(** For every instruction, one more than its first position in the table of forms. *)
Definition x86_16_bit_eq_lookup : list Z := [
  0; 0; 0; 0; 0; 0; 0; 0; 0; 0; 0; 0; 0; 0; 0; 0; 0; 0; 0; 0; 0; 0; 0; 0; 0; 1; 2; 0; 0; 0; 0; 0; 0; 0; 0; 0; 0; 3;
  4; 5; 6; 7; 8; 9; 10; 11; 12; 0; 13; 14; 0; 15; 16; 17; 18; 0; 0; 0; 0; 0; 0; 0; 0; 0; 0; 0; 0; 0; 0; 0; 0; 0; 0;
  0; 0; 0; 0; 0; 19; 20; 21; 22; 23; 24; 25; 26; 27; 28; 29; 30; 31; 0; 32; 33; 0; 0; 34; 35; 36; 37; 38; 39; 0; 0;
  0; 0; 0; 0; 0; 0; 0; 0; 0; 0; 0; 0; 0; 0; 0; 0; 0; 0; 0; 0; 0; 0; 0; 40; 41; 42; 43; 44; 45; 46; 47; 48; 49; 0;
  50; 51; 0; 52; 53; 54; 55; 0; 0; 0; 0; 0; 0; 0; 0; 0; 0; 0; 0; 0; 0; 0; 0; 0; 0; 0; 0; 0; 0; 0; 0; 0; 0; 0; 0; 0;
  0; 0; 0; 0; 0; 0; 0; 0; 0; 0; 0; 0; 0; 0; 0; 0; 0; 0; 0; 0; 0; 0; 0; 0; 0; 0; 0; 0; 0; 0; 0; 0; 0; 0; 56; 0; 0;
  57; 58; 59; 60; 0; 0; 61; 62; 63; 64; 0; 0; 0; 0; 0; 0; 65; 66; 67; 68; 69; 70; 71; 72; 0; 0; 0; 0; 73; 74; 75;
  76; 77; 78; 79; 80; 0; 0; 0; 0; 81; 82; 83; 84; 85; 86; 87; 88; 0; 0; 0; 0; 89; 90; 91; 92; 93; 94; 95; 96; 0; 0;
  0; 0; 0; 0; 97; 98; 99; 0; 100; 0; 101; 0; 0; 0; 0; 0; 102; 0; 0; 0; 0; 0; 0; 103; 104; 105; 106; 0; 0; 107; 108;
  109; 110; 0; 0; 111; 112; 113; 114; 0; 0; 115; 116; 117; 118; 0; 0; 119; 120; 121; 122; 0; 0; 123; 124; 125; 126;
  0; 0; 127; 128; 129; 130; 0; 0; 131; 132; 133; 134; 0; 0; 135; 136; 137; 138; 0; 0; 139; 140; 141; 142; 0; 0;
  143; 144; 145; 146; 0; 0; 147; 148; 149; 150; 0; 0; 151; 152; 153; 154; 0; 0; 155; 156; 157; 158; 0; 0; 159; 160;
  161; 162; 0; 0; 163; 164; 165; 166; 0; 0; 0; 167; 0; 0; 0; 0; 0; 0; 0; 0; 0; 0; 0; 0; 0; 0; 0; 0; 0; 0; 0; 0; 0;
  0; 168; 169; 170; 171; 172; 173; 174; 175; 176; 177; 0; 178; 179; 0; 180; 181; 182; 183; 0; 0; 0; 0; 0; 0; 0; 0;
  184; 185; 0; 0; 0; 0; 186; 187; 188; 189; 0; 0; 0; 0; 0; 0; 0; 0; 0; 0; 0; 0; 0; 0; 190; 191; 192; 0; 0; 193;
  194; 195; 196; 0; 0; 0; 0; 197; 198; 199; 200; 0; 0; 0; 0; 0; 0; 0; 0; 0; 0; 0; 0; 201; 202; 0; 0; 0; 203; 204;
  0; 0; 0; 0; 0; 0; 205; 206; 207; 208; 0; 0; 0; 0; 0; 0; 0; 0; 0; 0; 209; 210; 211; 212; 213; 214; 215; 216; 217;
  218; 219; 0; 220; 221; 0; 222; 0; 0; 0; 0; 223; 224; 0; 0; 0; 0; 0; 225; 226; 227; 0; 0; 228; 229; 230; 231; 0;
  0; 0; 232; 0; 0; 0; 233; 0; 0; 0; 0; 0; 0; 0; 0; 0; 0; 0; 0; 234; 235; 0; 0; 0; 0; 0; 0; 0; 0; 0; 0; 0; 0; 0; 0;
  0; 0; 0; 0; 0; 0; 0; 0; 0; 0; 0; 0; 0; 0; 0; 0; 0; 0; 0; 236; 237; 238; 239; 0; 0; 0; 0; 0; 0; 0; 0; 0; 0; 0; 0;
  0; 0; 0; 0; 0; 0; 0; 0; 0; 0; 0; 0; 0; 0; 0; 0; 240; 241; 242; 243; 0; 0; 244; 245; 0; 0; 0; 246; 0; 247; 0; 248;
  0; 0; 0; 249; 0; 250; 251; 0; 252; 253; 0; 254; 255; 0; 256; 257; 0; 0; 0; 0; 0; 0; 0; 258; 259; 260; 0; 261;
  262; 0; 0; 0; 0; 0; 263; 264; 265; 0; 266; 267; 0; 0; 0; 268; 269; 0; 0; 270; 271; 0; 0; 0; 0; 272; 273; 274; 0;
  275; 276; 0; 0; 0; 0; 0; 0; 277; 278; 279; 0; 280; 281; 0; 0; 0; 0; 0; 282; 283; 284; 0; 285; 286; 0; 0; 0; 287;
  288; 0; 0; 0; 0; 289; 290; 0; 291; 292; 0; 0; 0; 293; 294; 295; 296; 0; 297; 298; 0; 0; 0; 299; 300; 0; 0; 0;
  301; 302; 303; 304; 0; 0; 0; 0; 0; 0; 0; 0; 0; 0; 0; 0; 0; 0; 0; 0; 0; 0; 305; 306; 0; 0; 307; 308; 309; 310;
  311; 0; 0; 0; 312; 0; 313; 314; 315; 316; 317; 318; 319; 320; 321; 323; 0; 0; 0; 0; 325; 326; 327; 328; 330; 0;
  0; 0; 332; 0; 333; 334; 335; 336; 337; 338; 0; 0; 0; 0; 0; 0; 0; 0; 0; 0; 0; 0; 0; 0; 0; 0; 339; 340; 341; 342;
  0; 0; 343; 344; 0; 0; 0; 0; 345; 0; 346; 0; 0; 347; 348; 0; 349; 350; 0; 0; 0; 0; 0; 351; 0; 352; 0; 0; 0; 0; 0;
  0; 353; 354; 355; 356; 0; 0; 0; 0; 0; 0; 0; 0; 357; 358; 359; 360; 0; 0; 0; 361; 0; 0; 0; 362; 0; 0; 0; 363; 0;
  0; 0; 364; 0; 0; 0; 0; 365; 366; 367; 368; 369; 370; 371; 0; 0; 0; 0; 0; 0; 0; 0; 0; 372; 373; 374; 375; 0; 0; 0;
  0; 0; 0; 0; 0; 0; 0; 0; 376; 377; 378; 379; 0; 380; 381; 382; 383; 384; 385; 0; 386; 387; 0; 388; 389; 390; 391;
  0; 0; 0; 0; 0; 0; 0; 0; 0; 0; 392; 393; 0; 0; 0; 394; 0; 0; 0; 0; 0; 0; 0; 0; 0; 0; 0; 0; 395; 396; 397; 398;
  399; 400; 0; 401; 0; 402; 0; 403; 0; 404; 405; 0; 406; 407; 0; 408; 409; 0; 410; 0; 0; 0; 0; 411; 412; 413; 414;
  0; 415; 416; 417; 418; 419; 0; 420; 0; 421; 0; 422; 0; 423; 0; 424; 425; 0; 426; 427; 0; 428; 429; 0; 430; 0;
  431; 0; 0; 0; 0; 0; 0; 432; 433; 434; 435; 436; 437; 438; 439; 440; 441; 442; 443; 0; 0; 0; 0; 0; 0; 0; 0; 0; 0;
  0; 0; 444; 445; 446; 447; 448; 449; 450; 451; 452; 453; 454; 455; 0; 0; 0; 0; 0; 0; 0; 0; 0; 0; 0; 0; 0; 456;
  457; 0; 458; 459; 0; 0; 0; 460; 461; 0; 0; 0; 0; 0; 0; 462; 0; 0; 0; 0; 0; 0; 0; 463; 0; 0; 464; 465; 0; 466;
  467; 0; 0; 0; 0; 0; 0; 0; 0; 468; 469; 470; 471; 472; 473; 474; 475; 476; 477; 478; 479; 0; 0; 0; 0; 0; 0; 0; 0;
  0; 0; 0; 0; 480; 481; 482; 483; 484; 485; 486; 487; 488; 489; 490; 491; 0; 0; 0; 0; 0; 0; 0; 0; 0; 0; 0; 0; 0; 0;
  0; 0; 0; 0; 492; 493; 494; 495; 496; 497; 498; 499; 500; 501; 502; 503; 0; 0; 0; 0; 0; 0; 0; 0; 0; 0; 0; 0; 0;
  504; 505; 506; 507; 508; 509; 510; 511; 512; 513; 514; 515; 0; 0; 0; 0; 0; 0; 0; 0; 0; 0; 0; 0; 0; 0; 0; 0; 0; 0;
  0; 516; 517; 518; 519; 520; 521; 522; 523; 524; 525; 0; 526; 527; 0; 528; 529; 530; 531; 0; 0; 0; 0; 0; 0; 0; 0;
  532; 533; 0; 0; 0; 0; 0; 0; 0; 0; 0; 0; 0; 0; 0; 0; 0; 0; 0; 0; 534; 535; 0; 0; 0; 0; 0; 0; 0; 0; 0; 0; 0; 0; 0;
  0; 0; 0; 0; 0; 0; 0; 0; 0; 0; 0; 0; 0; 0; 0; 536; 537; 0; 0; 0; 0; 0; 0; 538; 539; 540; 541; 542; 543; 544; 545;
  546; 547; 548; 549; 0; 0; 0; 0; 0; 0; 0; 0; 0; 0; 550; 551; 552; 553; 554; 555; 556; 557; 0; 0; 0; 0; 0; 0; 0; 0;
  0; 0; 558; 559; 560; 561; 562; 563; 564; 565; 566; 567; 568; 569; 0; 0; 0; 0; 0; 0; 0; 0; 0; 0; 570; 571; 572;
  573; 574; 575; 576; 577; 0; 0; 0; 0; 0; 578; 579; 0; 0; 0; 580; 581; 582; 0; 0; 583; 584; 0; 0; 0; 0; 0; 0; 585;
  586; 0; 0; 587; 588; 0; 0; 0; 0; 0; 0; 0; 0; 0; 0; 589; 590; 591; 592; 593; 594; 595; 596; 597; 598; 0; 599; 600;
  0; 601; 602; 603; 604; 0; 0; 0; 0; 0; 0; 0; 0; 0; 0; 0; 0; 0; 0; 0; 0; 0; 0; 0; 0; 0; 0; 0; 0; 0; 0; 0; 0; 0; 0;
  0; 0; 0; 0; 0; 0; 0; 0; 605; 606; 607; 608; 609; 610; 611; 612; 0; 0; 0; 0; 613; 614; 0; 0; 0; 0; 0; 0; 0; 0; 0;
  0; 0; 0; 0; 0; 0; 0; 0; 615; 616; 617; 618; 0; 0; 0; 0; 0; 0; 0; 0; 0; 0; 0; 0; 0; 0; 0; 0; 0; 0; 0; 0; 0; 0; 0;
  0; 0; 0; 0; 0; 0; 0; 0; 0; 0; 0; 0; 0; 0; 0; 0; 0; 0; 0; 0; 0; 0; 0; 0; 619; 620; 621; 622; 0; 0; 0; 0; 0; 623;
  0; 624; 625; 626; 627; 628; 0; 0; 0; 0; 0; 0; 0; 0; 0; 0; 0; 0; 0; 0; 0; 0; 0; 0; 629; 630; 631; 632; 633; 634;
  635; 636; 637; 638; 0; 639; 640; 0; 641; 642; 643; 644; 0; 0; 0; 0; 0; 0; 0; 0; 0; 0; 0; 0; 0; 0; 0; 0; 0; 0
].

(** The instructions that [checkPrefix] allows with LOCK. *)
Definition lock_allowed : list Z := [
  929; 463; 467; 469; 471; 473; 475; 29; 30; 31; 38; 39; 40; 47; 48; 49; 56; 57; 67; 68; 69; 79; 80; 81; 91; 92;
  93; 103; 104; 119; 120; 121; 128; 129; 130; 137; 138; 139; 146; 147; 235; 236; 239; 240; 243; 244; 247; 248; 251;
  252; 255; 256; 259; 260; 263; 264; 267; 268; 445; 446; 448; 450; 453; 452; 546; 550; 552; 554; 556; 558; 903;
  905; 907; 909; 943; 945; 947; 949; 952; 953; 954; 961; 962; 963; 964; 971; 972; 973; 980; 981; 1262; 1263; 1264;
  1271; 1272; 1273; 1280; 1281; 1282; 1289; 1290; 1455; 1456; 1457; 1464; 1465; 1466; 1473; 1474; 1475; 1482; 1483;
  1599; 1601; 1603; 1605; 1608; 1612; 1615; 1617; 1627; 1628; 1629; 1636; 1637; 1638; 1645; 1646; 1647; 1654; 1655
].
