(* ===== verification/X86Dec.v ===== *)
(** The instruction decoder of Capstone's X86 back end,
    [src/Lilu/capstone/arch/X86/X86DisassemblerDecoder.c], in the reduced
    configuration of Lilu, over the tables of [X86Tables.v].

    The structure [InternalInstruction] is a function from its members to their
    values: enumerations and truth values are numbers, pointers into tables are
    positions.  An operation gives a value, or the error [-1] with the state it
    leaves behind, or is stuck where the code would leave an array. *)

From Stdlib Require Import ZArith Lia List Bool.
From stdpp Require Import prelude.
From S2P Require Import Prelude X86Tables.

Open Scope Z_scope.

(** ** Enumerations *)

Definition MODE_16BIT : Z := 0.
Definition MODE_32BIT : Z := 1.
Definition MODE_64BIT : Z := 2.

Definition ONEBYTE : Z := 0.
Definition TWOBYTE : Z := 1.
Definition THREEBYTE_38 : Z := 2.
Definition THREEBYTE_3A : Z := 3.
Definition XOP8_MAP : Z := 4.
Definition XOP9_MAP : Z := 5.
Definition XOPA_MAP : Z := 6.
Definition T3DNOW_MAP : Z := 7.

Definition TYPE_NO_VEX_XOP : Z := 0.
Definition TYPE_VEX_2B : Z := 1.
Definition TYPE_VEX_3B : Z := 2.
Definition TYPE_EVEX : Z := 3.
Definition TYPE_XOP : Z := 4.

Definition VEX_LOB_0F : Z := 1.
Definition VEX_LOB_0F38 : Z := 2.
Definition VEX_LOB_0F3A : Z := 3.
Definition XOP_MAP_SELECT_8 : Z := 8.
Definition XOP_MAP_SELECT_9 : Z := 9.
Definition XOP_MAP_SELECT_A : Z := 10.
Definition VEX_PREFIX_66 : Z := 1.
Definition VEX_PREFIX_F3 : Z := 2.
Definition VEX_PREFIX_F2 : Z := 3.

Definition SEG_OVERRIDE_CS : Z := 1.
Definition SEG_OVERRIDE_SS : Z := 2.
Definition SEG_OVERRIDE_DS : Z := 3.
Definition SEG_OVERRIDE_ES : Z := 4.
Definition SEG_OVERRIDE_FS : Z := 5.
Definition SEG_OVERRIDE_GS : Z := 6.

Definition EA_DISP_NONE : Z := 0.
Definition EA_DISP_8 : Z := 1.
Definition EA_DISP_16 : Z := 2.
Definition EA_DISP_32 : Z := 3.

Definition EA_BASE_NONE : Z := 0.
Definition EA_BASE_BX_SI : Z := 1.
Definition EA_BASE_EAX : Z := 17.
Definition EA_BASE_sib : Z := 21.
Definition EA_BASE_RAX : Z := 33.
Definition EA_BASE_sib64 : Z := 37.
(** [EA_REG_AL]: the registers follow the bases. *)
Definition EA_REG : Z := 49.
Definition EA_max : Z := 260.

Definition SIB_INDEX_NONE : Z := 0.
Definition SIB_INDEX_EAX : Z := 17.
Definition SIB_INDEX_sib : Z := 21.
Definition SIB_INDEX_RAX : Z := 33.
Definition SIB_INDEX_sib64 : Z := 37.
Definition SIB_BASE_NONE : Z := 0.
Definition SIB_BASE_EAX : Z := 1.
Definition SIB_BASE_RAX : Z := 17.

(** The registers, in the order of [ALL_REGS]; [MODRM_REG_x] is this number and
    [EA_REG_x] is [EA_REG] more. *)
Definition MODRM_REG : Z := 0.
Definition R_AL : Z := 0.
Definition R_SPL : Z := 16.
Definition R_AX : Z := 20.
Definition R_EAX : Z := 36.
Definition R_RAX : Z := 52.
Definition R_MM0 : Z := 68.
Definition R_XMM0 : Z := 76.
Definition R_YMM0 : Z := 108.
Definition R_ZMM0 : Z := 140.
Definition R_K0 : Z := 172.
Definition R_ES : Z := 180.
Definition R_DR0 : Z := 186.
Definition R_CR0 : Z := 194.
Definition MODRM_REG_max : Z := 211.

Definition ATTR_64BIT : Z := 1.
Definition ATTR_XS : Z := 2.
Definition ATTR_XD : Z := 4.
Definition ATTR_REXW : Z := 8.
Definition ATTR_OPSIZE : Z := 16.
Definition ATTR_ADSIZE : Z := 32.
Definition ATTR_VEX : Z := 64.
Definition ATTR_VEXL : Z := 128.
Definition ATTR_EVEX : Z := 256.
Definition ATTR_EVEXL : Z := 512.
Definition ATTR_EVEXL2 : Z := 1024.
Definition ATTR_EVEXK : Z := 2048.
Definition ATTR_EVEXKZ : Z := 4096.
Definition ATTR_EVEXB : Z := 8192.
Definition IC_OF : Z := 4.

Definition MODRM_ONEENTRY : Z := 0.
Definition MODRM_SPLITRM : Z := 1.
Definition MODRM_SPLITMISC : Z := 2.
Definition MODRM_SPLITREG : Z := 3.
Definition MODRM_FULL : Z := 4.

Definition X86_MAX_OPERANDS : Z := 5.

(** [OperandEncoding] *)
Definition ENCODING_NONE : Z := 0.
Definition ENCODING_REG : Z := 1.
Definition ENCODING_RM : Z := 2.
Definition ENCODING_RM_CD64 : Z := 8.
Definition ENCODING_VVVV : Z := 9.
Definition ENCODING_WRITEMASK : Z := 10.
Definition ENCODING_CB : Z := 11.
Definition ENCODING_CT : Z := 16.
Definition ENCODING_IB : Z := 17.
Definition ENCODING_IW : Z := 18.
Definition ENCODING_ID : Z := 19.
Definition ENCODING_IO : Z := 20.
Definition ENCODING_RB : Z := 21.
Definition ENCODING_RW : Z := 22.
Definition ENCODING_RD : Z := 23.
Definition ENCODING_RO : Z := 24.
Definition ENCODING_FP : Z := 25.
Definition ENCODING_Iv : Z := 26.
Definition ENCODING_Ia : Z := 27.
Definition ENCODING_Rv : Z := 28.
Definition ENCODING_DUP : Z := 29.
Definition ENCODING_SI : Z := 30.
Definition ENCODING_DI : Z := 31.

(** [OperandType] *)
Definition TYPE_REL8 : Z := 1.
Definition TYPE_REL32 : Z := 3.
Definition TYPE_REL64 : Z := 4.
Definition TYPE_R8 : Z := 8.
Definition TYPE_R16 : Z := 9.
Definition TYPE_R32 : Z := 10.
Definition TYPE_R64 : Z := 11.
Definition TYPE_IMM8 : Z := 12.
Definition TYPE_IMM16 : Z := 13.
Definition TYPE_IMM32 : Z := 14.
Definition TYPE_IMM64 : Z := 15.
Definition TYPE_IMM3 : Z := 16.
Definition TYPE_IMM5 : Z := 17.
Definition TYPE_M : Z := 22.
Definition TYPE_M8 : Z := 23.
Definition TYPE_M16 : Z := 24.
Definition TYPE_M32 : Z := 25.
Definition TYPE_M64 : Z := 26.
Definition TYPE_LEA : Z := 27.
Definition TYPE_M128 : Z := 28.
Definition TYPE_M256 : Z := 29.
Definition TYPE_M512 : Z := 86.
Definition TYPE_M1616 : Z := 30.
Definition TYPE_M1632 : Z := 31.
Definition TYPE_M1664 : Z := 32.
Definition TYPE_M32FP : Z := 50.
Definition TYPE_M64FP : Z := 51.
Definition TYPE_M80FP : Z := 52.
Definition TYPE_M16INT : Z := 53.
Definition TYPE_M32INT : Z := 54.
Definition TYPE_M64INT : Z := 55.
Definition TYPE_MOFFS8 : Z := 45.
Definition TYPE_MOFFS16 : Z := 46.
Definition TYPE_MOFFS32 : Z := 47.
Definition TYPE_MOFFS64 : Z := 48.
Definition TYPE_MM : Z := 57.
Definition TYPE_MM32 : Z := 58.
Definition TYPE_MM64 : Z := 59.
Definition TYPE_XMM : Z := 60.
Definition TYPE_XMM32 : Z := 61.
Definition TYPE_XMM64 : Z := 62.
Definition TYPE_XMM128 : Z := 63.
Definition TYPE_XMM256 : Z := 64.
Definition TYPE_XMM512 : Z := 65.
Definition TYPE_VK1 : Z := 66.
Definition TYPE_VK8 : Z := 69.
Definition TYPE_VK16 : Z := 70.
Definition TYPE_SEGMENTREG : Z := 74.
Definition TYPE_DEBUGREG : Z := 75.
Definition TYPE_CONTROLREG : Z := 76.
Definition TYPE_Mv : Z := 77.
Definition TYPE_Rv : Z := 78.
Definition TYPE_IMMv : Z := 79.
Definition TYPE_RELv : Z := 80.
Definition TYPE_DUP0 : Z := 81.

Create HintDb x86enum discriminated.
#[export] Hint Unfold
  MODE_16BIT MODE_32BIT MODE_64BIT ONEBYTE TWOBYTE THREEBYTE_38 THREEBYTE_3A XOP8_MAP XOP9_MAP XOPA_MAP
  T3DNOW_MAP TYPE_NO_VEX_XOP TYPE_VEX_2B TYPE_VEX_3B TYPE_EVEX TYPE_XOP VEX_LOB_0F VEX_LOB_0F38 VEX_LOB_0F3A
  XOP_MAP_SELECT_8 XOP_MAP_SELECT_9 XOP_MAP_SELECT_A VEX_PREFIX_66 VEX_PREFIX_F3 VEX_PREFIX_F2 SEG_OVERRIDE_CS
  SEG_OVERRIDE_SS SEG_OVERRIDE_DS SEG_OVERRIDE_ES SEG_OVERRIDE_FS SEG_OVERRIDE_GS EA_DISP_NONE EA_DISP_8
  EA_DISP_16 EA_DISP_32 EA_BASE_NONE EA_BASE_BX_SI EA_BASE_EAX EA_BASE_sib EA_BASE_RAX EA_BASE_sib64 EA_REG
  EA_max SIB_INDEX_NONE SIB_INDEX_EAX SIB_INDEX_sib SIB_INDEX_RAX SIB_INDEX_sib64 SIB_BASE_NONE SIB_BASE_EAX
  SIB_BASE_RAX MODRM_REG R_AL R_SPL R_AX R_EAX R_RAX R_MM0 R_XMM0 R_YMM0 R_ZMM0 R_K0 R_ES R_DR0 R_CR0
  MODRM_REG_max ATTR_64BIT ATTR_XS ATTR_XD ATTR_REXW ATTR_OPSIZE ATTR_ADSIZE ATTR_VEX ATTR_VEXL ATTR_EVEX
  ATTR_EVEXL ATTR_EVEXL2 ATTR_EVEXK ATTR_EVEXKZ ATTR_EVEXB IC_OF MODRM_ONEENTRY MODRM_SPLITRM MODRM_SPLITMISC
  MODRM_SPLITREG MODRM_FULL X86_MAX_OPERANDS ENCODING_NONE ENCODING_REG ENCODING_RM ENCODING_RM_CD64
  ENCODING_VVVV ENCODING_WRITEMASK ENCODING_CB ENCODING_CT ENCODING_IB ENCODING_IW ENCODING_ID ENCODING_IO
  ENCODING_RB ENCODING_RW ENCODING_RD ENCODING_RO ENCODING_FP ENCODING_Iv ENCODING_Ia ENCODING_Rv ENCODING_DUP
  ENCODING_SI ENCODING_DI TYPE_REL8 TYPE_REL32 TYPE_REL64 TYPE_R8 TYPE_R16 TYPE_R32 TYPE_R64 TYPE_IMM8
  TYPE_IMM16 TYPE_IMM32 TYPE_IMM64 TYPE_IMM3 TYPE_IMM5 TYPE_M TYPE_M8 TYPE_M16 TYPE_M32 TYPE_M64 TYPE_LEA
  TYPE_M128 TYPE_M256 TYPE_M512 TYPE_M1616 TYPE_M1632 TYPE_M1664 TYPE_M32FP TYPE_M64FP TYPE_M80FP TYPE_M16INT
  TYPE_M32INT TYPE_M64INT TYPE_MOFFS8 TYPE_MOFFS16 TYPE_MOFFS32 TYPE_MOFFS64 TYPE_MM TYPE_MM32 TYPE_MM64
  TYPE_XMM TYPE_XMM32 TYPE_XMM64 TYPE_XMM128 TYPE_XMM256 TYPE_XMM512 TYPE_VK1 TYPE_VK8 TYPE_VK16
  TYPE_SEGMENTREG TYPE_DEBUGREG TYPE_CONTROLREG TYPE_Mv TYPE_Rv TYPE_IMMv TYPE_RELv TYPE_DUP0 : x86enum.

(** ** The fields of instruction bytes *)

Definition modFromModRM (modRM : Z) : Z := (modRM .& 0xc0) .>> 6.
Definition regFromModRM (modRM : Z) : Z := (modRM .& 0x38) .>> 3.
Definition rmFromModRM (modRM : Z) : Z := modRM .& 0x7.
Definition scaleFromSIB (sib : Z) : Z := (sib .& 0xc0) .>> 6.
Definition indexFromSIB (sib : Z) : Z := (sib .& 0x38) .>> 3.
Definition baseFromSIB (sib : Z) : Z := sib .& 0x7.
Definition wFromREX (rex : Z) : Z := (rex .& 0x8) .>> 3.
Definition rFromREX (rex : Z) : Z := (rex .& 0x4) .>> 2.
Definition xFromREX (rex : Z) : Z := (rex .& 0x2) .>> 1.
Definition bFromREX (rex : Z) : Z := rex .& 0x1.
Definition rFromEVEX2of4 (evex : Z) : Z := (Z.lnot evex .& 0x80) .>> 7.
Definition xFromEVEX2of4 (evex : Z) : Z := (Z.lnot evex .& 0x40) .>> 6.
Definition bFromEVEX2of4 (evex : Z) : Z := (Z.lnot evex .& 0x20) .>> 5.
Definition r2FromEVEX2of4 (evex : Z) : Z := (Z.lnot evex .& 0x10) .>> 4.
Definition mmFromEVEX2of4 (evex : Z) : Z := evex .& 0x3.
Definition wFromEVEX3of4 (evex : Z) : Z := (evex .& 0x80) .>> 7.
Definition vvvvFromEVEX3of4 (evex : Z) : Z := (Z.lnot evex .& 0x78) .>> 3.
Definition ppFromEVEX3of4 (evex : Z) : Z := evex .& 0x3.
Definition zFromEVEX4of4 (evex : Z) : Z := (evex .& 0x80) .>> 7.
Definition l2FromEVEX4of4 (evex : Z) : Z := (evex .& 0x40) .>> 6.
Definition lFromEVEX4of4 (evex : Z) : Z := (evex .& 0x20) .>> 5.
Definition bFromEVEX4of4 (evex : Z) : Z := (evex .& 0x10) .>> 4.
Definition v2FromEVEX4of4 (evex : Z) : Z := (Z.lnot evex .& 0x8) .>> 3.
Definition aaaFromEVEX4of4 (evex : Z) : Z := evex .& 0x7.
(** VEX of three bytes, and XOP, which has the same fields. *)
Definition rFromVEX2of3 (vex : Z) : Z := (Z.lnot vex .& 0x80) .>> 7.
Definition xFromVEX2of3 (vex : Z) : Z := (Z.lnot vex .& 0x40) .>> 6.
Definition bFromVEX2of3 (vex : Z) : Z := (Z.lnot vex .& 0x20) .>> 5.
Definition mmmmmFromVEX2of3 (vex : Z) : Z := vex .& 0x1f.
Definition wFromVEX3of3 (vex : Z) : Z := (vex .& 0x80) .>> 7.
Definition vvvvFromVEX3of3 (vex : Z) : Z := (Z.lnot vex .& 0x78) .>> 3.
Definition lFromVEX3of3 (vex : Z) : Z := (vex .& 0x4) .>> 2.
Definition ppFromVEX3of3 (vex : Z) : Z := vex .& 0x3.
Definition rFromVEX2of2 (vex : Z) : Z := (Z.lnot vex .& 0x80) .>> 7.
Definition vvvvFromVEX2of2 (vex : Z) : Z := (Z.lnot vex .& 0x78) .>> 3.
Definition lFromVEX2of2 (vex : Z) : Z := (vex .& 0x4) .>> 2.
Definition ppFromVEX2of2 (vex : Z) : Z := vex .& 0x3.

(** ** The state *)

(** The members of [InternalInstruction] but the reader and the logger.  The
    members of one prefix byte are [isPrefix] and [prefix] of that byte; arrays
    have an index. *)
Inductive field :=
  | operandSize | prefix0 | prefix1 | prefix2 | prefix3
  | isPrefix (p : Z) | prefix (p : Z)
  | rexPrefix | segmentOverride | consumedModRM | orgModRM | consumedSIB | sib
  | consumedDisplacement | displacement | twoByteEscape | threeByteEscape
  | sibIndex | sibScale | sibBase | numImmediatesConsumed | xAcquireRelease
  | vectorExtensionPrefix (i : Z) | displacementOffset | immediateOffset
  (* not cleared before decoding from here on *)
  | readerCursor | mode | startLocation | length_ | vectorExtensionType
  | necessaryPrefixLocation | registerSize | addressSize | displacementSize
  | immediateSize | immSize | opcode | opcodeType | instructionID | spec | vvvv
  | writemask | modRM | firstByte | numImmediatesTranslated | immediates (i : Z)
  | opcodeRegister | eaBaseBase | eaRegBase | regBase | eaBase | eaDisplacement
  | reg | operands.

#[export] Instance field_eq_dec : EqDecision field.
Proof. solve_decision. Defined.

Definition insn : Type := field -> Z.
Definition put (i : insn) (f : field) (v : Z) : insn := fun g => if decide (g = f) then v else i g.

(** [memset] up to [reader]; the rest is what was on the stack. *)
Definition cleared (f : field) : bool :=
  match f with
  | readerCursor | mode | startLocation | length_ | vectorExtensionType | necessaryPrefixLocation
  | registerSize | addressSize | displacementSize | immediateSize | immSize | opcode | opcodeType
  | instructionID | spec | vvvv | writemask | modRM | firstByte | numImmediatesTranslated
  | immediates _ | opcodeRegister | eaBaseBase | eaRegBase | regBase | eaBase | eaDisplacement
  | reg | operands => false
  | _ => true
  end.
Definition zeroed (junk : insn) : insn := fun f => if cleared f then 0 else junk f.

(** ** Operations on the state *)

Inductive dout (A : Type) :=
  | Good (a : A) (i : insn)
  | Bad (i : insn)
  | Stuck
  | OutOfFuel.
Arguments Good {A} a i.
Arguments Bad {A} i.
Arguments Stuck {A}.
Arguments OutOfFuel {A}.

Definition D (A : Type) : Type := insn -> dout A.
Definition dret {A} (a : A) : D A := fun i => Good a i.
Definition dbad {A} : D A := fun i => Bad i.
Definition dstuck {A} : D A := fun _ => Stuck.
Definition dbind {A B} (d : D A) (k : A -> D B) : D B := fun i =>
  match d i with
  | Good a i => k a i
  | Bad i => Bad i
  | Stuck => Stuck
  | OutOfFuel => OutOfFuel
  end.
Definition get (f : field) : D Z := fun i => Good (i f) i.
Definition set (f : field) (v : Z) : D unit := fun i => Good tt (put i f v).
(** An array access. *)
Definition entry_of {A} (o : option A) : D A := match o with Some a => dret a | None => dstuck end.
(** A call whose failure the caller handles. *)
Definition attempt {A} (d : D A) : D (option A) := fun i =>
  match d i with
  | Good a i => Good (Some a) i
  | Bad i => Good None i
  | Stuck => Stuck
  | OutOfFuel => OutOfFuel
  end.

Declare Scope dec_scope.
Delimit Scope dec_scope with dec.
Notation "'let&' x := e 'in' k" := (dbind e (fun x => k))
  (at level 200, x name, e at level 200, k at level 200, right associativity) : dec_scope.
Notation "'let&' ' p := e 'in' k" := (dbind e (fun p => k))
  (at level 200, p strict pattern, e at level 200, k at level 200, right associativity) : dec_scope.
Notation "e ;& k" := (dbind e (fun _ => k)) (at level 100, k at level 200, right associativity) : dec_scope.
Open Scope dec_scope.

Definition oneof (x : Z) (l : list Z) : bool := existsb (Z.eqb x) l.

Section decoder.
(** The reader: the byte at an address, or an error. *)
Context (reader : Z -> option Z).

(** ** Tables *)

Definition contextForAttrs (attrMask : Z) : D Z := entry_of (x86DisassemblerContexts attrMask).

(** The tables of an opcode type; the types of XOP and 3DNow take the default. *)
Definition indextable (type : Z) : list Z :=
  if type =? TWOBYTE then index_x86DisassemblerTwoByteOpcodes
  else if type =? THREEBYTE_38 then index_x86DisassemblerThreeByte38Opcodes
  else if type =? THREEBYTE_3A then index_x86DisassemblerThreeByte3AOpcodes
  else index_x86DisassemblerOneByteOpcodes.
Definition decisions (type : Z) : list Z :=
  if type =? TWOBYTE then x86DisassemblerTwoByteOpcodes
  else if type =? THREEBYTE_38 then x86DisassemblerThreeByte38Opcodes
  else if type =? THREEBYTE_3A then x86DisassemblerThreeByte3AOpcodes
  else x86DisassemblerOneByteOpcodes.

(** [modRMDecisions[opcode]] of a row: the kind and [instructionIDs]. *)
Definition decision (row : list (Z * Z * Z)) (opc : Z) : option (Z * Z) :=
  if (0 <=? opc) && (opc <? 256) then
    Some match find (fun e => e.1.1 =? opc) row with Some e => (e.1.2, e.2) | None => (MODRM_ONEENTRY, 0) end
  else None.

(** [decision[index - 1].modRMDecisions[opcode]]. *)
Definition decisionFor (type index opc : Z) : option (Z * Z) :=
  match tget (decisions type) (index - 1) with
  | Some r => match tget decision_rows r with Some row => decision row opc | None => None end
  | None => None
  end.

Definition modRMRequired (type insnContext opc : Z) : D bool :=
  let& index := entry_of (tget (indextable type) insnContext) in
  if truth index then
    let& '(modrm_type, _) := entry_of (decisionFor type index opc) in
    dret (negb (modrm_type =? MODRM_ONEENTRY))
  else dret false.

Definition decode (type insnContext opc modrm : Z) : D Z :=
  let& index := entry_of (tget (indextable type) insnContext) in
  let& '(modrm_type, ids) :=
    (if truth index then entry_of (decisionFor type index opc) else entry_of (decision [] opc)) in
  if modrm_type =? MODRM_ONEENTRY then entry_of (tget modRMTable ids)
  else if modrm_type =? MODRM_SPLITRM then
    if modFromModRM modrm =? 3 then entry_of (tget modRMTable (ids + 1)) else entry_of (tget modRMTable ids)
  else if modrm_type =? MODRM_SPLITREG then
    if modFromModRM modrm =? 3 then entry_of (tget modRMTable (ids + ((modrm .& 0x38) .>> 3) + 8))
    else entry_of (tget modRMTable (ids + ((modrm .& 0x38) .>> 3)))
  else if modrm_type =? MODRM_SPLITMISC then
    if modFromModRM modrm =? 3 then entry_of (tget modRMTable (ids + (modrm .& 0x3f) + 8))
    else entry_of (tget modRMTable (ids + ((modrm .& 0x38) .>> 3)))
  else if modrm_type =? MODRM_FULL then entry_of (tget modRMTable (ids + modrm))
  else dret 0.

(** [specifierForUID(uid)->operands]. *)
Definition specOperands (uid : Z) : option Z := tget x86DisassemblerInstrSpecifiers uid.
(** [x86OperandSets[spec->operands][index]]: encoding and type. *)
Definition operandOf (uid index : Z) : D (Z * Z) :=
  let& s := entry_of (specOperands uid) in
  let& set := entry_of (tget x86OperandSets s) in
  entry_of (tget set index).

(** ** Reading bytes *)

Definition consumeByte : D Z := fun i =>
  match reader (i readerCursor) with
  | Some b => Good b (put i readerCursor (u64 (i readerCursor + 1)))
  | None => Bad i
  end.
Definition lookAtByte : D Z := fun i =>
  match reader (i readerCursor) with
  | Some b => Good b i
  | None => Bad i
  end.
Definition unconsumeByte : D unit :=
  let& c := get readerCursor in set readerCursor (u64 (c - 1)).

(** The loop of [CONSUME_FUNC] for a type of which [cast] is the conversion. *)
Fixpoint combine_bytes (cast : Z -> Z) (n : nat) (cursor offset combined : Z) : option Z :=
  match n with
  | O => Some combined
  | S n' =>
      match reader (u64 (cursor + offset)) with
      | Some byte => combine_bytes cast n' cursor (offset + 1) (cast (combined .| cast (u64 (byte .<< (offset * 8)))))
      | None => None
      end
  end.
Definition consume (size : nat) (cast : Z -> Z) : D Z := fun i =>
  match combine_bytes cast size (i readerCursor) 0 0 with
  | Some v => Good v (put i readerCursor (u64 (i readerCursor + Z.of_nat size)))
  | None => Bad i
  end.
Definition consumeInt8 : D Z := consume 1 (sext 8).
Definition consumeInt16 : D Z := consume 2 (sext 16).
Definition consumeInt32 : D Z := consume 4 (sext 32).
Definition consumeUInt16 : D Z := consume 2 u16.
Definition consumeUInt32 : D Z := consume 4 u32.
Definition consumeUInt64 : D Z := consume 8 u64.

(** ** Prefixes *)

Definition legacy (b : Z) : bool :=
  oneof b [0xf2; 0xf3; 0xf0; 0x2e; 0x36; 0x3e; 0x26; 0x64; 0x65; 0x66; 0x67].
Definition is_rex (b : Z) : bool := (b .& 0xf0) =? 0x40.

Definition setPrefixPresent (p location : Z) : D unit :=
  if legacy p then set (isPrefix p) 1 ;& set (prefix p) location else dret tt.
Definition isPrefixAtLocation (p location : Z) : D bool :=
  if legacy p then
    let& present := get (isPrefix p) in
    let& l := get (prefix p) in
    dret (truth present && (l =? location))
  else dret false.

(** [while (true)] over further REX bytes, of which the last is kept: it, and the
    byte behind it. *)
Fixpoint skip_rex (fuel : nat) (byte : Z) : D (Z * Z) :=
  match fuel with
  | O => fun _ => OutOfFuel
  | S f =>
      let& next := lookAtByte in
      if is_rex next then let& byte := consumeByte in skip_rex f byte else dret (byte, next)
  end.

(** Consecutive REX bytes in front: the last one is read again unless a legacy
    prefix follows it. *)
Definition drop_rex (fuel : nat) : D unit :=
  let& byte := consumeByte in
  if is_rex byte then
    let& '(_, next) := skip_rex fuel byte in
    if legacy next then dret tt else unconsumeByte
  else unconsumeByte.

(** The look at the byte behind a first REPNE or REP. *)
Definition hle_hint (byte : Z) : D unit :=
  let& nextByte := lookAtByte in
  (if (nextByte =? 0xf0) || ((nextByte .& 0xfe) =? 0x86) || ((nextByte .& 0xf8) =? 0x90)
   then set xAcquireRelease 1 else dret tt) ;&
  (if (byte =? 0xf3) && oneof nextByte [0x88; 0x89; 0xc6; 0xc7] then set xAcquireRelease 1 else dret tt) ;&
  let& md := get mode in
  if (md =? MODE_64BIT) && is_rex nextByte then
    let& _ := consumeByte in
    let& _ := lookAtByte in
    unconsumeByte
  else dret tt.

Definition segment_of (byte : Z) : Z :=
  if byte =? 0x2e then SEG_OVERRIDE_CS else if byte =? 0x36 then SEG_OVERRIDE_SS
  else if byte =? 0x3e then SEG_OVERRIDE_DS else if byte =? 0x26 then SEG_OVERRIDE_ES
  else if byte =? 0x64 then SEG_OVERRIDE_FS else SEG_OVERRIDE_GS.

(** The [switch] over a byte: whether it is a prefix, an operand-size or an
    address-size prefix. *)
Definition note_prefix (byte location : Z) : D (bool * bool * bool) :=
  if oneof byte [0xf2; 0xf3; 0xf0] then
    set (isPrefix 0xf2) 0 ;& set (isPrefix 0xf3) 0 ;& set (isPrefix 0xf0) 0 ;&
    setPrefixPresent byte location ;& set prefix0 byte ;& dret (true, false, false)
  else if oneof byte [0x2e; 0x36; 0x3e; 0x26; 0x64; 0x65] then
    set segmentOverride (segment_of byte) ;&
    set (isPrefix 0x2e) 0 ;& set (isPrefix 0x36) 0 ;& set (isPrefix 0x3e) 0 ;&
    set (isPrefix 0x26) 0 ;& set (isPrefix 0x64) 0 ;& set (isPrefix 0x65) 0 ;&
    setPrefixPresent byte location ;& set prefix1 byte ;& dret (true, false, false)
  else if byte =? 0x66 then
    setPrefixPresent byte location ;& set prefix2 byte ;& dret (true, true, false)
  else if byte =? 0x67 then
    setPrefixPresent byte location ;& set prefix3 byte ;& dret (true, false, true)
  else dret (false, false, false).

(** The loop over prefixes: the byte that is none, [hasOpSize] and [hasAdSize]. *)
Fixpoint legacy_loop (fuel : nat) (hasOpSize hasAdSize : bool) : D (Z * bool * bool) :=
  match fuel with
  | O => fun _ => OutOfFuel
  | S f =>
      let& md := get mode in
      (if md =? MODE_64BIT then drop_rex fuel else dret tt) ;&
      let& prefixLocation := get readerCursor in
      let& byte := consumeByte in
      let& c := get readerCursor in
      let& start := get startLocation in
      (if (u64 (c - 1) =? start) && ((byte =? 0xf2) || (byte =? 0xf3)) then hle_hint byte else dret tt) ;&
      let& '(found, op, ad) := note_prefix byte prefixLocation in
      if found then legacy_loop f (hasOpSize || op) (hasAdSize || ad)
      else dret (byte, hasOpSize, hasAdSize)
  end.

(** [necessaryPrefixLocation = readerCursor - n]. *)
Definition set_necessary (n : Z) : D unit :=
  let& c := get readerCursor in set necessaryPrefixLocation (u64 (c - n)).

(** Whether the [pp] field of a vector prefix stands for 0x66. *)
Definition pp_is_66 (pp : Z) : bool := pp =? VEX_PREFIX_66.

(** A REX prefix in place of the bits of a vector prefix, in 64-bit mode. *)
Definition simulate_rex (w r x b : Z) : D unit :=
  let& md := get mode in
  if md =? MODE_64BIT then set rexPrefix (u8 (0x40 .| (w .<< 3) .| (r .<< 2) .| (x .<< 1) .| (b .<< 0)))
  else dret tt.

(** The byte 0x62; the result is whether the operand size changes. *)
Definition read_evex (byte : Z) : D bool :=
  let& byte1 := consumeByte in
  let& md := get mode in
  if ((md =? MODE_64BIT) || ((byte1 .& 0xc0) =? 0xc0)) && ((Z.lnot byte1 .& 0xc) =? 0xc) then
    let& byte2 := lookAtByte in
    if (byte2 .& 0x4) =? 0x4 then
      set vectorExtensionType TYPE_EVEX ;&
      set (vectorExtensionPrefix 0) byte ;&
      set (vectorExtensionPrefix 1) byte1 ;&
      let& b := consumeByte in set (vectorExtensionPrefix 2) b ;&
      let& b := consumeByte in set (vectorExtensionPrefix 3) b ;&
      let& v1 := get (vectorExtensionPrefix 1) in
      let& v2 := get (vectorExtensionPrefix 2) in
      simulate_rex (wFromEVEX3of4 v2) (rFromEVEX2of4 v1) (xFromEVEX2of4 v1) (bFromEVEX2of4 v1) ;&
      dret (pp_is_66 (ppFromEVEX3of4 v2))
    else
      unconsumeByte ;& unconsumeByte ;& set_necessary 2 ;& dret false
  else unconsumeByte ;& unconsumeByte ;& dret false.

(** The bytes behind the first of VEX of three bytes and of XOP. *)
Definition read_vector3 (byte : Z) : D bool :=
  set (vectorExtensionPrefix 0) byte ;&
  let& b := consumeByte in set (vectorExtensionPrefix 1) b ;&
  let& b := consumeByte in set (vectorExtensionPrefix 2) b ;&
  let& v1 := get (vectorExtensionPrefix 1) in
  let& v2 := get (vectorExtensionPrefix 2) in
  simulate_rex (wFromVEX3of3 v2) (rFromVEX2of3 v1) (xFromVEX2of3 v1) (bFromVEX2of3 v1) ;&
  dret (pp_is_66 (ppFromVEX3of3 v2)).

(** The byte 0xc4. *)
Definition read_vex3 (byte : Z) : D bool :=
  let& byte1 := lookAtByte in
  let& md := get mode in
  if (md =? MODE_64BIT) || ((byte1 .& 0xc0) =? 0xc0) then
    set vectorExtensionType TYPE_VEX_3B ;& set_necessary 1 ;& read_vector3 byte
  else unconsumeByte ;& set_necessary 1 ;& dret false.

(** The byte 0xc5. *)
Definition read_vex2 (byte : Z) : D bool :=
  let& byte1 := lookAtByte in
  let& md := get mode in
  if (md =? MODE_64BIT) || ((byte1 .& 0xc0) =? 0xc0) then
    set vectorExtensionType TYPE_VEX_2B ;&
    set (vectorExtensionPrefix 0) byte ;&
    let& b := consumeByte in set (vectorExtensionPrefix 1) b ;&
    let& v1 := get (vectorExtensionPrefix 1) in
    simulate_rex 0 (rFromVEX2of2 v1) 0 0 ;&
    dret (pp_is_66 (ppFromVEX2of2 v1))
  else unconsumeByte ;& dret false.

(** The byte 0x8f. *)
Definition read_xop (byte : Z) : D bool :=
  let& byte1 := lookAtByte in
  if negb ((byte1 .& 0x38) =? 0) then
    set vectorExtensionType TYPE_XOP ;& set_necessary 1 ;& read_vector3 byte
  else unconsumeByte ;& set_necessary 1 ;& dret false.

(** Any other byte: REX, or the opcode. *)
Definition read_rex (fuel : nat) (byte : Z) : D unit :=
  let& md := get mode in
  if (md =? MODE_64BIT) && is_rex byte then
    let& '(byte, _) := skip_rex fuel byte in
    set rexPrefix byte ;& set_necessary 2
  else unconsumeByte ;& set_necessary 1.

Definition read_vector (fuel : nat) (byte : Z) : D bool :=
  set vectorExtensionType TYPE_NO_VEX_XOP ;&
  if byte =? 0x62 then read_evex byte
  else if byte =? 0xc4 then read_vex3 byte
  else if byte =? 0xc5 then read_vex2 byte
  else if byte =? 0x8f then read_xop byte
  else read_rex fuel byte ;& dret false.

Definition set_all_sizes (reg_ addr disp imm imms : Z) : D unit :=
  set registerSize reg_ ;& set addressSize addr ;& set displacementSize disp ;&
  set immediateSize imm ;& set immSize imms.

Definition set_sizes (hasOpSize hasAdSize : bool) : D unit :=
  let& md := get mode in
  let sz (b : bool) (x y : Z) := if b then x else y in
  if md =? MODE_16BIT then
    set_all_sizes (sz hasOpSize 4 2) (sz hasAdSize 4 2) (sz hasAdSize 4 2) (sz hasOpSize 4 2) (sz hasOpSize 4 2)
  else if md =? MODE_32BIT then
    set_all_sizes (sz hasOpSize 2 4) (sz hasAdSize 2 4) (sz hasAdSize 2 4) (sz hasOpSize 2 4) (sz hasOpSize 2 4)
  else if md =? MODE_64BIT then
    let& rex := get rexPrefix in
    if truth rex && truth (wFromREX rex) then set_all_sizes 8 (sz hasAdSize 4 8) 4 4 4
    else if truth rex then
      set_all_sizes (sz hasOpSize 2 4) (sz hasAdSize 4 8) (sz hasOpSize 2 4) (sz hasOpSize 2 4) (sz hasOpSize 2 4)
    else
      set_all_sizes (sz hasOpSize 2 4) (sz hasAdSize 4 8) (sz hasOpSize 2 4) (sz hasOpSize 2 4) (sz hasOpSize 4 8)
  else dret tt.

Definition readPrefixes (fuel : nat) : D unit :=
  set_necessary 1 ;&
  let& '(byte, hasOpSize, hasAdSize) := legacy_loop fuel false false in
  let& op := read_vector fuel byte in
  set_sizes (hasOpSize || op) hasAdSize.

(** ** The opcode *)

Definition consumeOpcode (type : Z) : D unit :=
  set opcodeType type ;& let& b := consumeByte in set opcode b.

(** [readOpcode] behind a vector prefix. *)
Definition vector_opcode (vt : Z) : D unit :=
  let& v1 := get (vectorExtensionPrefix 1) in
  if vt =? TYPE_EVEX then
    let mm := mmFromEVEX2of4 v1 in
    if mm =? VEX_LOB_0F then consumeOpcode TWOBYTE
    else if mm =? VEX_LOB_0F38 then consumeOpcode THREEBYTE_38
    else if mm =? VEX_LOB_0F3A then consumeOpcode THREEBYTE_3A
    else dbad
  else if vt =? TYPE_VEX_3B then
    let mm := mmmmmFromVEX2of3 v1 in
    if mm =? VEX_LOB_0F then set twoByteEscape 0x0f ;& consumeOpcode TWOBYTE
    else if mm =? VEX_LOB_0F38 then set twoByteEscape 0x0f ;& set threeByteEscape 0x38 ;& consumeOpcode THREEBYTE_38
    else if mm =? VEX_LOB_0F3A then set twoByteEscape 0x0f ;& set threeByteEscape 0x3a ;& consumeOpcode THREEBYTE_3A
    else dbad
  else if vt =? TYPE_VEX_2B then set twoByteEscape 0x0f ;& consumeOpcode TWOBYTE
  else
    let mm := mmmmmFromVEX2of3 v1 in
    if mm =? XOP_MAP_SELECT_8 then consumeOpcode XOP8_MAP
    else if mm =? XOP_MAP_SELECT_9 then consumeOpcode XOP9_MAP
    else if mm =? XOP_MAP_SELECT_A then consumeOpcode XOPA_MAP
    else dbad.

(** The opcode without a vector prefix.  In the reduced configuration the branch
    for two-byte opcodes is compiled out, with the assignment of their type. *)
Definition legacy_opcode : D unit :=
  let& current := consumeByte in
  set firstByte current ;&
  if current =? 0x0f then
    set twoByteEscape current ;&
    let& current := consumeByte in
    if current =? 0x38 then
      set threeByteEscape current ;&
      let& current := consumeByte in
      set opcodeType THREEBYTE_38 ;& set opcode current
    else if current =? 0x3a then
      set threeByteEscape current ;&
      let& current := consumeByte in
      set opcodeType THREEBYTE_3A ;& set opcode current
    else set opcode current
  else set opcode current.

Definition readOpcode : D unit :=
  set opcodeType ONEBYTE ;&
  set firstByte 0 ;&
  let& vt := get vectorExtensionType in
  if oneof vt [TYPE_EVEX; TYPE_VEX_3B; TYPE_VEX_2B; TYPE_XOP] then vector_opcode vt else legacy_opcode.

(** ** Addressing *)

(** The base registers of an address size: for the index and for the base. *)
Definition readSIB : D unit :=
  let& done := get consumedSIB in
  if truth done then dret tt
  else
    set consumedSIB 1 ;&
    let& asz := get addressSize in
    if asz =? 2 then dbad
    else
      let sibIndexBase := if asz =? 4 then SIB_INDEX_EAX else if asz =? 8 then SIB_INDEX_RAX else SIB_INDEX_NONE in
      let sibBaseBase := if asz =? 4 then SIB_BASE_EAX else if asz =? 8 then SIB_BASE_RAX else SIB_BASE_NONE in
      let& b := consumeByte in set sib b ;&
      let& s := get sib in
      let& rex := get rexPrefix in
      let& vt := get vectorExtensionType in
      let& v3 := get (vectorExtensionPrefix 3) in
      let index := u8 (indexFromSIB s .| (xFromREX rex .<< 3)) in
      let index := if vt =? TYPE_EVEX then u8 (index .| (v2FromEVEX4of4 v3 .<< 4)) else index in
      let si := sibIndexBase + index in
      set sibIndex (if index =? 4 then SIB_INDEX_NONE
                    else if (si =? SIB_INDEX_sib) || (si =? SIB_INDEX_sib64) then SIB_INDEX_NONE else si) ;&
      set sibScale (1 .<< scaleFromSIB s) ;&
      let base := u8 (baseFromSIB s .| (bFromREX rex .<< 3)) in
      if (base =? 5) || (base =? 0xd) then
        let& mrm := get modRM in
        let md := modFromModRM mrm in
        if md =? 0 then set eaDisplacement EA_DISP_32 ;& set sibBase SIB_BASE_NONE
        else if md =? 1 then set eaDisplacement EA_DISP_8 ;& set sibBase (sibBaseBase + base)
        else if md =? 2 then set eaDisplacement EA_DISP_32 ;& set sibBase (sibBaseBase + base)
        else dbad
      else set sibBase (sibBaseBase + base).

Definition readDisplacement : D unit :=
  let& done := get consumedDisplacement in
  if truth done then dret tt
  else
    set consumedDisplacement 1 ;&
    let& c := get readerCursor in
    let& start := get startLocation in
    set displacementOffset (u8 (c - start)) ;&
    let& d := get eaDisplacement in
    if d =? EA_DISP_NONE then set consumedDisplacement 0
    else if d =? EA_DISP_8 then let& v := consumeInt8 in set displacement v
    else if d =? EA_DISP_16 then let& v := consumeInt16 in set displacement v
    else if d =? EA_DISP_32 then let& v := consumeInt32 in set displacement v
    else dret tt.

(** [readModRM] for addresses of 16 bits. *)
Definition modrm16 (md rm : Z) : D unit :=
  set eaBaseBase EA_BASE_BX_SI ;&
  let& bb := get eaBaseBase in
  let& rb := get eaRegBase in
  if md =? 0 then
    if rm =? 6 then set eaBase EA_BASE_NONE ;& set eaDisplacement EA_DISP_16 ;& readDisplacement
    else set eaBase (u32 (bb + rm)) ;& set eaDisplacement EA_DISP_NONE
  else if md =? 1 then
    set eaBase (u32 (bb + rm)) ;& set eaDisplacement EA_DISP_8 ;& set displacementSize 1 ;& readDisplacement
  else if md =? 2 then
    set eaBase (u32 (bb + rm)) ;& set eaDisplacement EA_DISP_16 ;& readDisplacement
  else if md =? 3 then
    set eaBase (u32 (rb + rm)) ;& set eaDisplacement EA_DISP_NONE ;& readDisplacement
  else dret tt.

(** [readModRM] for addresses of 32 and 64 bits. *)
Definition modrm32 (asz md rm : Z) : D unit :=
  set eaBaseBase (if asz =? 4 then EA_BASE_EAX else EA_BASE_RAX) ;&
  let& bb := get eaBaseBase in
  let& rb := get eaRegBase in
  if md =? 0 then
    set eaDisplacement EA_DISP_NONE ;&
    if oneof rm [0x14; 0x4; 0xc] then
      set eaBase (if asz =? 4 then EA_BASE_sib else EA_BASE_sib64) ;& readSIB ;& readDisplacement
    else if oneof rm [0x5; 0xd] then
      set eaBase EA_BASE_NONE ;& set eaDisplacement EA_DISP_32 ;& readDisplacement
    else set eaBase (u32 (bb + rm))
  else if (md =? 1) || (md =? 2) then
    (if md =? 1 then set displacementSize 1 else dret tt) ;&
    set eaDisplacement (if md =? 1 then EA_DISP_8 else EA_DISP_32) ;&
    if oneof rm [0x14; 0x4; 0xc] then set eaBase EA_BASE_sib ;& readSIB ;& readDisplacement
    else set eaBase (u32 (bb + rm)) ;& readDisplacement
  else if md =? 3 then set eaDisplacement EA_DISP_NONE ;& set eaBase (u32 (rb + rm))
  else dret tt.

(** The register bases of [registerSize]; other sizes leave them. *)
Definition set_reg_bases : D unit :=
  let& rs := get registerSize in
  if rs =? 2 then set regBase (MODRM_REG + R_AX) ;& set eaRegBase (EA_REG + R_AX)
  else if rs =? 4 then set regBase (MODRM_REG + R_EAX) ;& set eaRegBase (EA_REG + R_EAX)
  else if rs =? 8 then set regBase (MODRM_REG + R_RAX) ;& set eaRegBase (EA_REG + R_RAX)
  else dret tt.

Definition readModRM : D unit :=
  let& done := get consumedModRM in
  if truth done then dret tt
  else
    let& b := consumeByte in set modRM b ;&
    set consumedModRM 1 ;&
    set orgModRM b ;&
    let& fb := get firstByte in
    let& ot := get opcodeType in
    let& opc := get opcode in
    (if (fb =? 0x0f) && (ot =? TWOBYTE) && (0x20 <=? opc) && (opc <=? 0x23)
     then set modRM (u8 (b .| 0xC0)) else dret tt) ;&
    let& mrm := get modRM in
    let md := modFromModRM mrm in
    set_reg_bases ;&
    let& rex := get rexPrefix in
    let& vt := get vectorExtensionType in
    let& v1 := get (vectorExtensionPrefix 1) in
    let r := u8 (regFromModRM mrm .| (rFromREX rex .<< 3)) in
    let rm := u8 (rmFromModRM mrm .| (bFromREX rex .<< 3)) in
    let r := if vt =? TYPE_EVEX then u8 (r .| (r2FromEVEX2of4 v1 .<< 4)) else r in
    let rm := if vt =? TYPE_EVEX then u8 (rm .| (xFromEVEX2of4 v1 .<< 4)) else rm in
    let& rb := get regBase in
    set reg (u32 (rb + r)) ;&
    let& asz := get addressSize in
    if asz =? 2 then modrm16 md rm
    else if (asz =? 4) || (asz =? 8) then modrm32 asz md rm
    else dret tt.

(** ** The identity *)

Definition getIDWithAttrMask (attrMask : Z) : D Z :=
  let& ot := get opcodeType in
  let& instructionClass := (if ot =? T3DNOW_MAP then dret IC_OF else contextForAttrs attrMask) in
  let& opc := get opcode in
  let& hasModRMExtension := modRMRequired ot instructionClass opc in
  if hasModRMExtension then
    readModRM ;&
    let& mrm := get modRM in
    decode ot instructionClass opc mrm
  else decode ot instructionClass opc 0.

(** The entries from a position on, as long as they are of [orig]. *)
Fixpoint has_form (orig equiv : Z) (l : list (Z * Z)) : bool :=
  match l with
  | (first, second) :: l' => (first =? orig) && ((second =? equiv) || has_form orig equiv l')
  | [] => false
  end.
Definition is16BitEquivalent (orig equiv : Z) : D bool :=
  let& idx := entry_of (tget x86_16_bit_eq_lookup orig) in
  dret (truth idx && has_form orig equiv (drop (Z.to_nat (idx - 1)) x86_16_bit_eq_tbl)).

(** The attribute of a [pp] field. *)
Definition pp_attr (pp : Z) : Z :=
  if pp =? VEX_PREFIX_66 then ATTR_OPSIZE
  else if pp =? VEX_PREFIX_F3 then ATTR_XS
  else if pp =? VEX_PREFIX_F2 then ATTR_XD
  else 0.
Definition attr_if (b : Z) (a : Z) : Z := if truth b then a else 0.

(** The attributes of a vector prefix. *)
Definition vector_attrs (vt : Z) : D Z :=
  let& v1 := get (vectorExtensionPrefix 1) in
  let& v2 := get (vectorExtensionPrefix 2) in
  let& v3 := get (vectorExtensionPrefix 3) in
  if vt =? TYPE_EVEX then
    dret (ATTR_EVEX .| pp_attr (ppFromEVEX3of4 v2) .| attr_if (zFromEVEX4of4 v3) ATTR_EVEXKZ
          .| attr_if (bFromEVEX4of4 v3) ATTR_EVEXB .| attr_if (aaaFromEVEX4of4 v3) ATTR_EVEXK
          .| attr_if (lFromEVEX4of4 v3) ATTR_EVEXL .| attr_if (l2FromEVEX4of4 v3) ATTR_EVEXL2)
  else if vt =? TYPE_VEX_3B then
    dret (ATTR_VEX .| pp_attr (ppFromVEX3of3 v2) .| attr_if (lFromVEX3of3 v2) ATTR_VEXL)
  else if vt =? TYPE_VEX_2B then
    dret (ATTR_VEX .| pp_attr (ppFromVEX2of2 v1) .| attr_if (lFromVEX2of2 v1) ATTR_VEXL)
  else if vt =? TYPE_XOP then
    dret (ATTR_VEX .| pp_attr (ppFromVEX3of3 v2) .| attr_if (lFromVEX3of3 v2) ATTR_VEXL)
  else dbad.

(** The attributes of the prefixes in front of the opcode. *)
Definition legacy_attrs : D Z :=
  let& md := get mode in
  let& npl := get necessaryPrefixLocation in
  let& p66 := isPrefixAtLocation 0x66 npl in
  let& p67 := isPrefixAtLocation 0x67 npl in
  let& pf3 := isPrefixAtLocation 0xf3 npl in
  let& pf2 := isPrefixAtLocation 0xf2 npl in
  let long := negb (md =? MODE_16BIT) in
  dret (if long && p66 then ATTR_OPSIZE
        else if p67 then ATTR_ADSIZE
        else if long && pf3 then ATTR_XS
        else if long && pf2 then ATTR_XD
        else 0).

(** [insn->instructionID = id; insn->spec = specifierForUID(id)]. *)
Definition set_id (id : Z) : D unit := set instructionID id ;& set spec id.

(** The instruction with the operand-size attribute, when the table has a form of
    16 bits of the one without it. *)
Definition opsize_form (attrMask id : Z) : D unit :=
  let& o := attempt (getIDWithAttrMask (attrMask .| ATTR_OPSIZE)) in
  match o with
  | None => set_id id
  | Some idWithOpsize =>
      let& eq := is16BitEquivalent id idWithOpsize in
      let& md := get mode in
      let& p66 := get (isPrefix 0x66) in
      if eq && xorb (md =? MODE_16BIT) (truth p66) then set_id idWithOpsize else set_id id
  end.

(** NOP with REX.B is an exchange. *)
Definition xchg_form (attrMask id : Z) : D unit :=
  set opcode 0x91 ;&
  let& o := attempt (getIDWithAttrMask attrMask) in
  set opcode 0x90 ;&
  match o with
  | None => set_id id
  | Some idWithNewOpcode => set_id idWithNewOpcode
  end.

Definition getID : D unit :=
  let& md := get mode in
  let& vt := get vectorExtensionType in
  let& a := (if negb (vt =? TYPE_NO_VEX_XOP) then vector_attrs vt else legacy_attrs) in
  let& rex := get rexPrefix in
  let attrMask := (if md =? MODE_64BIT then ATTR_64BIT else 0) .| a .| attr_if (rex .& 0x08) ATTR_REXW in
  let& id := getIDWithAttrMask attrMask in
  let& p66 := get (isPrefix 0x66) in
  let& opc := get opcode in
  let fix_call := (md =? MODE_64BIT) && truth p66 && ((opc =? 0xE8) || (opc =? 0xE9)) in
  let attrMask := if fix_call then Z.lxor attrMask ATTR_OPSIZE else attrMask in
  let& id := (if fix_call then getIDWithAttrMask attrMask else dret id) in
  let& fix_jcxz :=
    (if (md =? MODE_16BIT) && (opc =? 0xE3) then
       let& '(_, type) := operandOf id 0 in dret (type =? TYPE_REL8)
     else dret false) in
  let attrMask := if fix_jcxz then Z.lxor attrMask ATTR_ADSIZE else attrMask in
  let& id := (if fix_jcxz then getIDWithAttrMask attrMask else dret id) in
  let& ot := get opcodeType in
  if ((md =? MODE_16BIT) || truth p66) && negb (truth (attrMask .& ATTR_OPSIZE)) then opsize_form attrMask id
  else if (ot =? ONEBYTE) && (opc =? 0x90) && truth (rex .& 0x01) then xchg_form attrMask id
  else set_id id.

(** ** Operands *)

(** The switch that sets [operandSize]; other types leave it. *)
Definition size_of_type (type : Z) : option Z :=
  if oneof type [TYPE_R8] then Some 1
  else if oneof type [TYPE_R16; TYPE_XMM; TYPE_MM] then Some 2
  else if oneof type [TYPE_R32; TYPE_XMM32; TYPE_MM32; TYPE_CONTROLREG] then Some 4
  else if oneof type [TYPE_R64; TYPE_XMM64; TYPE_MM64] then Some 8
  else if type =? TYPE_XMM512 then Some 64
  else if type =? TYPE_XMM256 then Some 32
  else if type =? TYPE_XMM128 then Some 16
  else None.

(** [GENERIC_FIXUP_FUNC]: [base] and [first] are the two register bases; the value
    of the second switch, [None] when it is not valid. *)
Definition fixed_value (rex base first type index : Z) : option Z :=
  if type =? TYPE_Rv then Some (u8 (base + index))
  else if type =? TYPE_R8 then
    if truth rex && (4 <=? index) && (index <=? 7) then Some (u8 (first + R_SPL + (index - 4)))
    else Some (u8 (first + R_AL + index))
  else if type =? TYPE_R16 then Some (u8 (first + R_AX + index))
  else if type =? TYPE_R32 then Some (u8 (first + R_EAX + index))
  else if type =? TYPE_R64 then Some (u8 (first + R_RAX + index))
  else if type =? TYPE_XMM512 then Some (u8 (first + R_ZMM0 + index))
  else if type =? TYPE_XMM256 then Some (u8 (first + R_YMM0 + index))
  else if oneof type [TYPE_XMM128; TYPE_XMM64; TYPE_XMM32; TYPE_XMM] then Some (u8 (first + R_XMM0 + index))
  else if oneof type [TYPE_VK1; TYPE_VK8; TYPE_VK16] then
    if 7 <? index then None else Some (u8 (first + R_K0 + index))
  else if oneof type [TYPE_MM64; TYPE_MM32; TYPE_MM] then Some (u8 (first + R_MM0 + (index .& 7)))
  else if type =? TYPE_SEGMENTREG then if 5 <? index then None else Some (u8 (first + R_ES + index))
  else if type =? TYPE_DEBUGREG then if 7 <? index then None else Some (u8 (first + R_DR0 + index))
  else if type =? TYPE_CONTROLREG then Some (u8 (first + R_CR0 + index))
  else None.
Definition fixupValue (base first type index : Z) : D (option Z) :=
  (match size_of_type type with Some s => set operandSize s | None => dret tt end) ;&
  let& rex := get rexPrefix in
  dret (fixed_value rex base first type index).
Definition fixupRegValue (type index : Z) : D (option Z) :=
  let& b := get regBase in fixupValue b MODRM_REG type index.
Definition fixupRMValue (type index : Z) : D (option Z) :=
  let& b := get eaRegBase in fixupValue b EA_REG type index.

(** The value is stored before it is found not to be valid, and then not used. *)
Definition store_valid (f : field) (o : option Z) : D unit :=
  match o with Some v => set f v | None => dbad end.

(** [CASE_ENCODING_RM]. *)
Definition encoding_rm (encoding : Z) : bool := (ENCODING_RM <=? encoding) && (encoding <=? ENCODING_RM_CD64).

Definition fixupReg (encoding type : Z) : D unit :=
  if encoding =? ENCODING_VVVV then
    let& v := get vvvv in
    let& o := fixupRegValue type (u8 v) in store_valid vvvv o
  else if encoding =? ENCODING_REG then
    let& r := get reg in
    let& b := get regBase in
    let& o := fixupRegValue type (u8 (r - b)) in store_valid reg o
  else if encoding_rm encoding then
    let& e := get eaBase in
    let& b := get eaRegBase in
    if b <=? e then
      let& o := fixupRMValue type (u8 (e - b)) in store_valid eaBase o
    else dret tt
  else dbad.

Definition readOpcodeRegister (size : Z) : D unit :=
  let& rs := get registerSize in
  let size := if size =? 0 then rs else size in
  set operandSize size ;&
  let& rex := get rexPrefix in
  let& opc := get opcode in
  let n := (bFromREX rex .<< 3) .| (opc .& 7) in
  if size =? 1 then
    let r := MODRM_REG + R_AL + n in
    set opcodeRegister
      (if truth rex && (R_AL + 4 <=? r) && (r <? R_AL + 8) then MODRM_REG + R_SPL + (r - R_AL - 4) else r)
  else if size =? 2 then set opcodeRegister (MODRM_REG + R_AX + n)
  else if size =? 4 then set opcodeRegister (MODRM_REG + R_EAX + n)
  else if size =? 8 then set opcodeRegister (MODRM_REG + R_RAX + n)
  else dret tt.

(** [insn->immediates[k] = v]. *)
Definition set_immediate (k v : Z) : D unit :=
  if (0 <=? k) && (k <? 2) then set (immediates k) v else dstuck.
Definition get_immediate (k : Z) : D Z :=
  if (0 <=? k) && (k <? 2) then get (immediates k) else dstuck.

Definition readImmediate (size : Z) : D unit :=
  let& n := get numImmediatesConsumed in
  if n =? 2 then dbad
  else
    let& isz := get immediateSize in
    let& size := (if size =? 0 then dret isz else set immediateSize size ;& dret size) in
    let& c := get readerCursor in
    let& start := get startLocation in
    set immediateOffset (u8 (c - start)) ;&
    (if size =? 1 then let& v := consumeByte in set_immediate n v
     else if size =? 2 then let& v := consumeUInt16 in set_immediate n v
     else if size =? 4 then let& v := consumeUInt32 in set_immediate n v
     else if size =? 8 then let& v := consumeUInt64 in set_immediate n v
     else dret tt) ;&
    set numImmediatesConsumed (u8 (n + 1)).

(** Whether there is a [vvvv] field. *)
Definition readVVVV : D bool :=
  let& vt := get vectorExtensionType in
  let& v1 := get (vectorExtensionPrefix 1) in
  let& v2 := get (vectorExtensionPrefix 2) in
  let& v3 := get (vectorExtensionPrefix 3) in
  let& md := get mode in
  let cut (v : Z) := if negb (md =? MODE_64BIT) then v .& 0x7 else v in
  if vt =? TYPE_EVEX then set vvvv (cut ((v2FromEVEX4of4 v3 .<< 4) .| vvvvFromEVEX3of4 v2)) ;& dret true
  else if vt =? TYPE_VEX_3B then set vvvv (cut (vvvvFromVEX3of3 v2)) ;& dret true
  else if vt =? TYPE_VEX_2B then set vvvv (cut (vvvvFromVEX2of2 v1)) ;& dret true
  else if vt =? TYPE_XOP then set vvvv (cut (vvvvFromVEX3of3 v2)) ;& dret true
  else dret false.

Definition readMaskRegister : D unit :=
  let& vt := get vectorExtensionType in
  if negb (vt =? TYPE_EVEX) then dbad
  else let& v3 := get (vectorExtensionPrefix 3) in set writemask (aaaFromEVEX4of4 v3).

(** One operand: the new values of [needVVVV] and [sawRegImm]. *)
Definition readOperand (hasVVVV needVVVV sawRegImm : bool) (encoding type : Z) : D (bool * bool) :=
  let done := dret (needVVVV, sawRegImm) in
  if oneof encoding [ENCODING_NONE; ENCODING_SI; ENCODING_DI; ENCODING_FP; ENCODING_DUP] then done
  else if (encoding =? ENCODING_REG) || encoding_rm encoding then
    readModRM ;&
    fixupReg encoding type ;&
    let& ed := get eaDisplacement in
    let& d := get displacement in
    (if negb (encoding =? ENCODING_REG) && (ed =? EA_DISP_8)
     then set displacement (sext 32 (d * (1 .<< (encoding - ENCODING_RM)))) else dret tt) ;&
    done
  else if encoding =? ENCODING_IB then
    if sawRegImm then
      let& n := get numImmediatesConsumed in
      let& v := get_immediate (n - 1) in
      set_immediate n (v .& 0xf) ;&
      set numImmediatesConsumed (u8 (n + 1)) ;& done
    else
      readImmediate 1 ;&
      dret (needVVVV, (type =? TYPE_XMM128) || (type =? TYPE_XMM256))
  else if encoding =? ENCODING_IW then readImmediate 2 ;& done
  else if encoding =? ENCODING_ID then readImmediate 4 ;& done
  else if encoding =? ENCODING_IO then readImmediate 8 ;& done
  else if encoding =? ENCODING_Iv then let& s := get immediateSize in readImmediate s ;& done
  else if encoding =? ENCODING_Ia then let& s := get addressSize in readImmediate s ;& done
  else if encoding =? ENCODING_RB then readOpcodeRegister 1 ;& done
  else if encoding =? ENCODING_RW then readOpcodeRegister 2 ;& done
  else if encoding =? ENCODING_RD then readOpcodeRegister 4 ;& done
  else if encoding =? ENCODING_RO then readOpcodeRegister 8 ;& done
  else if encoding =? ENCODING_Rv then readOpcodeRegister 0 ;& done
  else if encoding =? ENCODING_VVVV then
    if negb hasVVVV then dbad else fixupReg encoding type ;& dret (false, sawRegImm)
  else if encoding =? ENCODING_WRITEMASK then readMaskRegister ;& done
  else dbad.

(** The operands from [index] on, of which there are [k]; whether [vvvv] is still
    to be used. *)
Fixpoint operand_loop (k : nat) (index : Z) (hasVVVV needVVVV sawRegImm : bool) : D bool :=
  match k with
  | O => dret needVVVV
  | S k' =>
      let& s := get spec in
      let& '(encoding, type) := operandOf s index in
      let& '(needVVVV, sawRegImm) := readOperand hasVVVV needVVVV sawRegImm encoding type in
      operand_loop k' (index + 1) hasVVVV needVVVV sawRegImm
  end.

Definition readOperands : D unit :=
  let& hasVVVV := readVVVV in
  let& v := get vvvv in
  let& needVVVV := operand_loop (Z.to_nat X86_MAX_OPERANDS) 0 hasVVVV (hasVVVV && truth v) false in
  if needVVVV then dbad else dret tt.

(** Whether the instruction may not have its prefixes. *)
Definition checkPrefix : D bool :=
  let& pf0 := get (isPrefix 0xf0) in
  let& pf2 := get (isPrefix 0xf2) in
  let& id := get instructionID in
  let& two := get twoByteEscape in
  if truth pf0 then dret (negb (oneof id lock_allowed))
  else
    (if truth pf2 && (two =? 0x0f) then set prefix0 0 else dret tt) ;&
    dret false.

(** [fuel]: more than the bytes that can be read. *)
Definition decodeInstruction (fuel : nat) (startLoc md : Z) : D unit :=
  set startLocation startLoc ;&
  set readerCursor startLoc ;&
  set mode md ;&
  readPrefixes fuel ;&
  readOpcode ;&
  getID ;&
  let& id := get instructionID in
  if id =? 0 then dbad
  else
    let& bad := checkPrefix in
    if bad then dbad
    else
      readOperands ;&
      let& c := get readerCursor in
      let& start := get startLocation in
      set length_ (u64 (c - start)) ;&
      let& len := get length_ in
      if 15 <? len then dbad
      else
        let& os := get operandSize in
        let& rs := get registerSize in
        (if os =? 0 then set operandSize rs else dret tt) ;&
        let& s := get spec in
        let& o := entry_of (specOperands s) in
        set operands o.
End decoder.
