(* ===== verification/X86DecThm.v ===== *)
(** The decoder of [X86Dec.v] is safe: whatever bytes the reader gives, it ends,
    stays inside its tables and arrays, keeps every member in the range of its
    type, and never reads more than is there. *)

From Stdlib Require Import ZArith Lia List Bool.
From stdpp Require Import prelude.
From S2P Require Import Prelude X86Tables X86Dec.

Open Scope Z_scope.

(** ** Types *)

(** The least value of the type of a member, and the first above it. *)
Definition ctype (f : field) : Z * Z :=
  match f with
  | isPrefix _ | consumedModRM | consumedSIB | consumedDisplacement | xAcquireRelease => (0, 2)
  | prefix _ | readerCursor | startLocation | length_ | necessaryPrefixLocation | immediates _ => (0, 2 ^ 64)
  | displacement => (- 2 ^ 31, 2 ^ 31)
  | instructionID | spec | operands => (0, 2 ^ 16)
  | segmentOverride | sibIndex | sibBase | mode | vectorExtensionType | opcodeType | vvvv | writemask
  | opcodeRegister | eaBaseBase | eaRegBase | regBase | eaBase | eaDisplacement | reg => (0, 2 ^ 32)
  | _ => (0, 2 ^ 8)
  end.
Definition has_type (f : field) (v : Z) : Prop := (ctype f).1 <= v < (ctype f).2.
Definition typed (i : insn) : Prop := forall f, has_type f (i f).

Lemma put_eq i f v : put i f v f = v.
Proof. unfold put. by rewrite decide_True. Qed.
Lemma put_ne i f g v : g <> f -> put i f v g = i g.
Proof. intros H. unfold put. by rewrite decide_False. Qed.

Ltac put_simpl := repeat first [rewrite put_eq | rewrite put_ne by discriminate].

(** ** The tables *)

Lemma tget_Some {A} (l : list A) k a : tget l k = Some a -> 0 <= k /\ l !! Z.to_nat k = Some a.
Proof. unfold tget. destruct (Z.leb_spec 0 k); [done|discriminate]. Qed.

Lemma tget_range {A} (l : list A) k : 0 <= k < Z.of_nat (length l) -> exists a, tget l k = Some a.
Proof.
  intros H. unfold tget. rewrite (proj2 (Z.leb_le _ _)) by lia. destruct (lookup_lt_is_Some_2 l (Z.to_nat k)) as [a Ha]; [lia|].
  by exists a.
Qed.

Lemma tget_all {A} (p : A -> bool) l k a : forallb p l = true -> tget l k = Some a -> p a = true.
Proof. intros H [_ E]%tget_Some. rewrite forallb_forall in H. apply H. apply list_elem_of_In. by eapply list_elem_of_lookup_2. Qed.

Definition within (n v : Z) : bool := (0 <=? v) && (v <? n).
Lemma within_iff n v : within n v = true <-> 0 <= v < n.
Proof. unfold within. rewrite andb_true_iff, Z.leb_le, Z.ltb_lt. done. Qed.

(** How many entries of [modRMTable] a decision may select from. *)
Definition entries (modrm_type : Z) : Z :=
  if modrm_type =? MODRM_ONEENTRY then 1 else if modrm_type =? MODRM_SPLITRM then 2
  else if modrm_type =? MODRM_SPLITMISC then 72 else if modrm_type =? MODRM_SPLITREG then 16 else 256.

Lemma contexts_inside : forallb (forallb (within 179)) context_rows = true.
Proof. vm_compute. reflexivity. Qed.
Lemma context_rows_full : forallb (fun r => Nat.eqb (length r) 32) context_rows = true.
Proof. vm_compute. reflexivity. Qed.
Lemma context_index_inside : forallb (within 22) context_index = true.
Proof. vm_compute. reflexivity. Qed.
Lemma indextables_inside :
  forallb (fun t => forallb (within (Z.of_nat (length (decisions t)) + 1)) (indextable t) &&
                    Nat.eqb (length (indextable t)) 179) [0; 1; 2; 3] = true.
Proof. vm_compute. reflexivity. Qed.
Lemma decisions_inside : forallb (fun t => forallb (within 36) (decisions t)) [0; 1; 2; 3] = true.
Proof. vm_compute. reflexivity. Qed.
Lemma rows_inside :
  forallb (forallb (fun e => within 5 e.1.2 && (0 <=? e.2) && (e.2 + entries e.1.2 <=? 2467))) decision_rows = true.
Proof. vm_compute. reflexivity. Qed.
Lemma modRMTable_inside : forallb (within 1671) modRMTable = true.
Proof. vm_compute. reflexivity. Qed.
Lemma specifiers_inside : forallb (within 164) x86DisassemblerInstrSpecifiers = true.
Proof. vm_compute. reflexivity. Qed.
(** Every set has six operands, in the reduced configuration none of them a vector
    register in an immediate. *)
Lemma operand_sets_shape :
  forallb (fun s => Nat.eqb (length s) 6 &&
    forallb (fun o => within 32 o.1 && within 87 o.2 &&
                      negb ((o.1 =? ENCODING_IB) && oneof o.2 [TYPE_XMM128; TYPE_XMM256])) s) x86OperandSets = true.
Proof. vm_compute. reflexivity. Qed.
Lemma eq_lookup_inside : forallb (within 645) x86_16_bit_eq_lookup = true.
Proof. vm_compute. reflexivity. Qed.

Lemma table_lengths :
  length context_index = 512%nat /\ length context_rows = 22%nat /\ length modRMTable = 2467%nat /\
  length x86DisassemblerInstrSpecifiers = 1671%nat /\ length x86OperandSets = 164%nat /\
  length decision_rows = 36%nat /\ length x86_16_bit_eq_lookup = 1671%nat.
Proof. vm_compute. by split_and!. Qed.

Lemma contexts_total a : 0 <= a < 16384 -> exists c, x86DisassemblerContexts a = Some c /\ 0 <= c < 179.
Proof.
  intros Ha. destruct table_lengths as (Hi & Hr & _). unfold x86DisassemblerContexts.
  assert (0 <= a / 32 < 512) by (split; [apply Z.div_pos; lia|apply Z.div_lt_upper_bound; lia]).
  destruct (tget_range context_index (a / 32)) as [r E]; [rewrite Hi; lia|]. rewrite E.
  pose proof (proj1 (within_iff _ _) (tget_all _ _ _ _ context_index_inside E)) as Hb.
  destruct (tget_range context_rows r) as [row Er]; [rewrite Hr; lia|]. rewrite Er.
  pose proof (tget_all _ _ _ _ context_rows_full Er) as Hl. apply Nat.eqb_eq in Hl.
  pose proof (Z.mod_pos_bound a 32 ltac:(lia)).
  destruct (tget_range row (a mod 32)) as [c Ec]; [rewrite Hl; lia|]. rewrite Ec. exists c. split; [done|].
  apply within_iff. exact (tget_all _ _ _ _ (tget_all _ _ _ _ contexts_inside Er) Ec).
Qed.

(** The tables of a type are those of one of the first four. *)
Lemma type_tables t : exists t', In t' [0; 1; 2; 3] /\ indextable t = indextable t' /\ decisions t = decisions t'.
Proof.
  unfold indextable, decisions. destruct (t =? TWOBYTE); [exists 1; by split; [simpl; tauto|]|].
  destruct (t =? THREEBYTE_38); [exists 2; by split; [simpl; tauto|]|].
  destruct (t =? THREEBYTE_3A); [exists 3; by split; [simpl; tauto|]|]. exists 0; by split; [simpl; tauto|].
Qed.

Lemma indextable_total t c :
  0 <= c < 179 -> exists x, tget (indextable t) c = Some x /\ 0 <= x <= Z.of_nat (length (decisions t)).
Proof.
  intros Hc. destruct (type_tables t) as (t' & Hin & -> & ->).
  pose proof (proj1 (forallb_forall _ _) indextables_inside t' Hin) as H. apply andb_true_iff in H as [H1 H2%Nat.eqb_eq].
  destruct (tget_range (indextable t') c) as [x E]; [rewrite H2; lia|]. exists x. split; [done|].
  pose proof (proj1 (within_iff _ _) (tget_all _ _ _ _ H1 E)). lia.
Qed.

Definition fits_table (d : Z * Z) : Prop := 0 <= d.1 < 5 /\ 0 <= d.2 /\ d.2 + entries d.1 <= 2467.

Lemma decision_total row opc :
  In row ([] :: decision_rows) -> 0 <= opc < 256 -> exists d, decision row opc = Some d /\ fits_table d.
Proof.
  intros Hr Ho. unfold decision. rewrite (proj2 (Z.leb_le _ _)), (proj2 (Z.ltb_lt _ _)) by lia. cbn [andb].
  eexists. split; [done|]. destruct (find _ row) as [e|] eqn:E; [|by vm_compute].
  destruct Hr as [<-|Hr]; [done|]. apply find_some in E as [Hin _].
  pose proof (proj1 (forallb_forall _ _) (proj1 (forallb_forall _ _) rows_inside row Hr) e Hin) as H.
  rewrite !andb_true_iff, within_iff, !Z.leb_le in H. unfold fits_table. cbn [fst snd]. lia.
Qed.

Lemma decisionFor_total t x opc :
  0 < x <= Z.of_nat (length (decisions t)) -> 0 <= opc < 256 -> exists d, decisionFor t x opc = Some d /\ fits_table d.
Proof.
  intros Hx Ho. unfold decisionFor. destruct (tget_range (decisions t) (x - 1)) as [r E]; [lia|]. rewrite E.
  destruct (type_tables t) as (t' & Hin & _ & Et). rewrite Et in E.
  pose proof (proj1 (within_iff _ _) (tget_all _ _ _ _ (proj1 (forallb_forall _ _) decisions_inside t' Hin) E)) as Hr.
  destruct (tget_range decision_rows r) as [row Er]; [destruct table_lengths as (_ & _ & _ & _ & _ & -> & _); lia|].
  rewrite Er. apply decision_total; [|done]. right. apply list_elem_of_In. apply tget_Some in Er as [_ Er].
  by eapply list_elem_of_lookup_2.
Qed.

Lemma existsb_eqb_In x l : existsb (Z.eqb x) l = true <-> In x l.
Proof.
  rewrite existsb_exists. split; [intros (y & Hy & E%Z.eqb_eq); congruence|]. intros H. exists x. by rewrite Z.eqb_refl.
Qed.

(** The identities of instructions: the entries of [modRMTable]. *)
Definition known (id : Z) : Prop := 0 <= id < 1671 /\ id ∈ modRMTable.

Lemma known_zero : known 0.
Proof. split; [lia|]. apply list_elem_of_In, (proj1 (existsb_eqb_In 0 modRMTable)). vm_compute. reflexivity. Qed.

Lemma modRMTable_total k : 0 <= k < 2467 -> exists id, tget modRMTable k = Some id /\ known id.
Proof.
  intros Hk. destruct (tget_range modRMTable k) as [id E]; [destruct table_lengths as (_ & _ & -> & _); lia|].
  exists id. split; [done|]. split; [apply within_iff; exact (tget_all _ _ _ _ modRMTable_inside E)|].
  apply tget_Some in E as [_ E]. by eapply list_elem_of_lookup_2.
Qed.

(** ** Numbers of some bits *)

Definition bits (k v : Z) : Prop := 0 <= v < 2 ^ k.

Lemma bits_log2 k v : 0 < k -> 0 <= v -> Z.log2 v < k -> bits k v.
Proof.
  intros Hk Hv H. split; [done|]. destruct (Z.eq_dec v 0) as [->|]; [apply Z.pow_pos_nonneg; lia|]. apply Z.log2_lt_pow2; lia.
Qed.
Lemma log2_bits k v : 0 < k -> bits k v -> Z.log2 v < k.
Proof. intros Hk [H0 H]. destruct (Z.eq_dec v 0) as [->|]; [done|]. apply Z.log2_lt_pow2; lia. Qed.

Lemma bits_lor k a b : 0 < k -> bits k a -> bits k b -> bits k (a .| b).
Proof.
  intros Hk Ha Hb. pose proof (log2_bits k a Hk Ha). pose proof (log2_bits k b Hk Hb). destruct Ha, Hb.
  apply bits_log2; [done|by apply Z.lor_nonneg|]. rewrite Z.log2_lor by done. lia.
Qed.
Lemma bits_lxor k a b : 0 < k -> bits k a -> bits k b -> bits k (Z.lxor a b).
Proof.
  intros Hk Ha Hb. pose proof (log2_bits k a Hk Ha). pose proof (log2_bits k b Hk Hb). destruct Ha, Hb.
  apply bits_log2; [done|by apply Z.lxor_nonneg|]. pose proof (Z.log2_lxor a b ltac:(done) ltac:(done)). lia.
Qed.

Lemma land_le a m : 0 <= m -> 0 <= a .& m <= m.
Proof.
  intros Hm. assert (0 <= a .& m) by (apply Z.land_nonneg; by right). split; [done|].
  rewrite (Z.land_comm a m) in *. pose proof (Z.add_lor_land (Z.ldiff m a) (m .& a)) as E.
  assert (Z.ldiff m a .& (m .& a) = 0) as E0.
  { apply Z.bits_inj'. intros n Hn. rewrite Z.bits_0, !Z.land_spec, Z.ldiff_spec by lia.
    by destruct (Z.testbit m n), (Z.testbit a n). }
  rewrite Z.lor_ldiff_and, E0 in E. assert (0 <= Z.ldiff m a) by (apply Z.ldiff_nonneg; by left). lia.
Qed.

Lemma bits_land k a m : bits k m -> bits k (a .& m).
Proof. unfold bits. intros H. pose proof (land_le a m). lia. Qed.

Lemma bits_shiftr k a n : 0 <= n -> bits k a -> bits k (a .>> n).
Proof.
  unfold bits. intros Hn Ha. rewrite Z.shiftr_div_pow2 by done. assert (0 < 2 ^ n) by (apply Z.pow_pos_nonneg; lia).
  split; [apply Z.div_pos; lia|]. apply Z.le_lt_trans with a; [|lia]. apply Z.div_le_upper_bound; [lia|].
  rewrite <- (Z.mul_1_l a) at 1. apply Z.mul_le_mono_nonneg_r; lia.
Qed.

Lemma bits_shiftr_drop k a n : 0 <= n <= k + n -> bits (k + n) a -> bits k (a .>> n).
Proof.
  unfold bits. intros Hn Ha. rewrite Z.shiftr_div_pow2 by lia. assert (0 < 2 ^ n) by (apply Z.pow_pos_nonneg; lia).
  split; [apply Z.div_pos; lia|]. apply Z.div_lt_upper_bound; [lia|]. rewrite Z.pow_add_r in Ha by lia. lia.
Qed.

Lemma bits_shiftl k a n : 0 <= n <= k -> bits (k - n) a -> bits k (a .<< n).
Proof.
  unfold bits. intros Hn Ha. rewrite Z.shiftl_mul_pow2 by lia. replace k with (k - n + n) at 1 by lia.
  rewrite Z.pow_add_r by lia. assert (0 < 2 ^ n) by (apply Z.pow_pos_nonneg; lia). nia.
Qed.

Lemma bits_wrap k w v : 0 <= w <= k -> bits k (wrap w v).
Proof.
  intros H. unfold bits. pose proof (wrap_range w ltac:(lia) v). assert (2 ^ w <= 2 ^ k) by (apply Z.pow_le_mono_r; lia). lia.
Qed.

Lemma bits_add k a b : 1 <= k -> bits (k - 1) a -> bits (k - 1) b -> bits k (a + b).
Proof. unfold bits. intros Hk Ha Hb. replace k with (1 + (k - 1)) by lia. rewrite Z.pow_add_r by lia. lia. Qed.

Lemma modrm_mod_range v : 0 <= (v .& 0xc0) .>> 6 <= 3.
Proof. pose proof (land_le v 0xc0 ltac:(lia)). rewrite Z.shiftr_div_pow2 by lia. change (2 ^ 6) with 64. zdm. Qed.

Lemma scale_bits v : bits 8 (1 .<< scaleFromSIB v).
Proof.
  pose proof (modrm_mod_range v) as H. unfold scaleFromSIB. set (x := (v .& 0xc0) .>> 6) in *. range_cases x 0 4%nat; by vm_compute.
Qed.

(** ** Triples *)

Create HintDb moves discriminated.
Create HintDb keeps discriminated.
#[export] Hint Constants Opaque : moves.
#[export] Hint Constants Opaque : keeps.

Section safe.
(** The reader gives no byte [N] or more behind the start. *)
Context (reader : Z -> option Z) (start N md : Z).
Hypothesis start_range : 0 <= start < 2 ^ 64.
Hypothesis N_range : 0 <= N < 2 ^ 63.
Hypothesis reader_byte : forall a b, reader a = Some b -> 0 <= b < 256.
Hypothesis reader_inside : forall k b, 0 <= k <= N -> reader (u64 (start + k)) = Some b -> k < N.

(** How far a decoding has come: a position that the cursor has passed, the
    identity of the instruction, and a relation between members. *)
Record stage := mk_stage { passed : Z; named : option Z; related : insn -> Prop }.

(** What a member may hold. *)
Definition bound (n : stage) (f : field) (v : Z) : Prop :=
  has_type f v /\
  match f with
  | readerCursor => exists k, passed n <= k <= N /\ v = u64 (start + k)
  | startLocation => v = start
  | mode => v = md
  | numImmediatesConsumed => v <= 2
  | segmentOverride => v < 7
  | sibIndex => v < 145
  | sibBase => v < 33
  | instructionID | spec => match named n with Some id => v = id /\ known id | None => True end
  | _ => True
  end.
Definition fits (n : stage) (i : insn) : Prop := (forall f, bound n f (i f)) /\ related n i.

(** The members that the relations are about are written by few operations; all
    others may change. *)
Definition unrelated (f : field) : bool :=
  match f with
  | consumedModRM | regBase | reg | registerSize | vectorExtensionType | opcodeRegister | vvvv => false
  | _ => true
  end.
Record framed (n : stage) : Prop := {
  passed_range : 0 <= passed n;
  related_put : forall f v i, unrelated f = true -> related n i -> related n (put i f v)
}.

(** [Q] after success, [E] after an error. *)
Definition wp {A} (E : insn -> Prop) (d : D A) (Q : A -> insn -> Prop) (i : insn) : Prop :=
  match d i with
  | Good a j => Q a j
  | Bad j => E j
  | Stuck => False
  | OutOfFuel => False
  end.
Definition unnamed (n : stage) : stage := mk_stage (passed n) None (related n).
Definition keeps {A} (n : stage) (d : D A) (Q : A -> Prop) : Prop :=
  forall i, fits n i -> wp (fits (unnamed n)) d (fun a j => fits n j /\ Q a) i.

Lemma fits_unnamed n i : fits n i -> fits (unnamed n) i.
Proof using Type. intros [H HM]. split; [|done]. intros f. destruct (H f) as [H1 H2]. split; [done|]. by destruct f. Qed.

Lemma unnamed_id n : named n = None -> unnamed n = n.
Proof using Type. destruct n; cbn. by intros ->. Qed.

Lemma fits_put' n i f v : fits n i -> bound n f v -> related n (put i f v) -> fits n (put i f v).
Proof using Type. intros [H _] Hv HM. split; [|done]. intros g. unfold put. case_decide as E; [by rewrite E|done]. Qed.

Lemma fits_put n (Hfr : framed n) i f v : fits n i -> unrelated f = true -> bound n f v -> fits n (put i f v).
Proof using Type. intros H Hf Hv. apply fits_put'; [done|done|]. apply (related_put n Hfr); [done|apply H]. Qed.

Lemma wp_bind {A C} E (d : D A) (k : A -> D C) Q i : wp E d (fun a => wp E (k a) Q) i -> wp E (dbind d k) Q i.
Proof using Type. unfold wp, dbind. by destruct (d i). Qed.

Lemma wp_weaken {A} (E F : insn -> Prop) (d : D A) (Q R : A -> insn -> Prop) i :
  wp E d Q i -> (forall j, E j -> F j) -> (forall a j, Q a j -> R a j) -> wp F d R i.
Proof using Type. unfold wp. intros H HE HQ. destruct (d i); auto. Qed.
Lemma wp_mono {A} E (d : D A) (Q R : A -> insn -> Prop) i : wp E d Q i -> (forall a j, Q a j -> R a j) -> wp E d R i.
Proof using Type. intros H HQ. eapply wp_weaken; [exact H|done|exact HQ]. Qed.
Lemma wp_get E f (Q : Z -> insn -> Prop) i : Q (i f) i -> wp E (get f) Q i.
Proof using Type. done. Qed.
Lemma wp_set E f v (Q : unit -> insn -> Prop) i : Q tt (put i f v) -> wp E (set f v) Q i.
Proof using Type. done. Qed.

Lemma keeps_bind {A C} n (d : D A) (k : A -> D C) Q R :
  keeps n d Q -> (forall a, Q a -> keeps n (k a) R) -> keeps n (dbind d k) R.
Proof using Type. intros H1 H2 i Hi. apply wp_bind. eapply wp_mono; [by apply H1|]. intros a j [Hj Ha]. by apply H2. Qed.

Lemma keeps_weaken {A} n (d : D A) (Q R : A -> Prop) : keeps n d Q -> (forall a, Q a -> R a) -> keeps n d R.
Proof using Type. intros H HQ i Hi. eapply wp_mono; [by apply H|]. intros a j [? ?]. auto. Qed.

Lemma keeps_ret {A} n (a : A) (Q : A -> Prop) : Q a -> keeps n (dret a) Q.
Proof using Type. intros H i Hi. by split. Qed.
Lemma keeps_bad {A} n (Q : A -> Prop) : keeps n dbad Q.
Proof using Type. intros i Hi. by apply fits_unnamed. Qed.
Lemma keeps_get n f : keeps n (get f) (bound n f).
Proof using Type. intros i Hi. split; [done|apply Hi]. Qed.
Lemma keeps_set n (Hfr : framed n) f v : unrelated f = true -> bound n f v -> keeps n (set f v) (fun _ => True).
Proof using Type. intros Hf Hv i Hi. split; [by apply fits_put|done]. Qed.
Lemma keeps_entry_of {A} n (o : option A) a (Q : A -> Prop) : o = Some a -> Q a -> keeps n (entry_of o) Q.
Proof using Type. intros -> H i Hi. by split. Qed.
Lemma keeps_attempt {A} n (d : D A) (Q : A -> Prop) :
  named n = None -> keeps n d Q -> keeps n (attempt d) (fun o => match o with Some a => Q a | None => True end).
Proof using Type.
  intros Hn H i Hi. specialize (H i Hi). rewrite unnamed_id in * by done. unfold wp, attempt in *. by destruct (d i).
Qed.

Lemma keeps_consumeByte n (Hfr : framed n) : keeps n (consumeByte reader) (fun b => 0 <= b < 256).
Proof using All.
  intros i Hi. unfold wp, consumeByte. destruct (proj1 Hi readerCursor) as (_ & k & Hk & E). pose proof (passed_range n Hfr).
  destruct (reader _) as [b|] eqn:Er; [|by apply fits_unnamed]. split; [|by eapply reader_byte].
  apply fits_put; [done|done|done|]. rewrite E in *. pose proof (reader_inside k b ltac:(lia) Er). split.
  - apply (wrap_range 64). lia.
  - exists (k + 1). split; [lia|]. rewrite wrap_add_l by lia. by rewrite Z.add_assoc.
Qed.

Lemma keeps_lookAtByte n (Hfr : framed n) : keeps n (lookAtByte reader) (fun b => 0 <= b < 256).
Proof using reader_byte.
  intros i Hi. unfold wp, lookAtByte. destruct (reader _) as [b|] eqn:Er; [|by apply fits_unnamed].
  split; [done|by eapply reader_byte].
Qed.

(** [combine_bytes] reads consecutive bytes; its result is one of the conversion. *)
Lemma combine_bytes_spec (P : Z -> Prop) cast n k off c v :
  (forall x, P (cast x)) -> 0 <= k -> 0 <= off -> k + off <= N -> P c ->
  combine_bytes reader cast n (u64 (start + k)) off c = Some v -> P v /\ k + off + Z.of_nat n <= N.
Proof using reader_inside.
  intros HP Hk. revert off c. induction n as [|n IH]; intros off c Ho Hb Hc; cbn [combine_bytes].
  { intros [= <-]. split; [done|lia]. }
  rewrite wrap_add_l by lia. destruct (reader _) as [b|] eqn:Er; [|done]. rewrite <- Z.add_assoc in Er.
  pose proof (reader_inside (k + off) b ltac:(lia) Er). intros E. destruct (IH (off + 1) _ ltac:(lia) ltac:(lia) (HP _) E).
  split; [done|lia].
Qed.

Lemma keeps_consume n (Hfr : framed n) size cast (P : Z -> Prop) :
  (forall x, P (cast x)) -> P 0 -> keeps n (consume reader size cast) P.
Proof using All.
  intros HP H0 i Hi. unfold wp, consume. destruct (proj1 Hi readerCursor) as (_ & k & Hk & E). pose proof (passed_range n Hfr). rewrite E.
  destruct (combine_bytes _ _ _ _ _ _) as [v|] eqn:Ec; [|by apply fits_unnamed].
  destruct (combine_bytes_spec P cast size k 0 0 v HP ltac:(lia) ltac:(lia) ltac:(lia) H0 Ec) as [Hv Hle].
  split; [|done]. apply fits_put; [done|done|done|]. split; [apply (wrap_range 64); lia|].
  exists (k + Z.of_nat size). split; [lia|]. rewrite wrap_add_l by lia. by rewrite Z.add_assoc.
Qed.

(** ** Every operation keeps the bounds *)

Ltac bits_tac := repeat first
  [ assumption
  | apply bits_lor; [lia| |] | apply bits_land | apply bits_shiftr; [lia|] | apply bits_shiftl; [lia|]
  | apply bits_wrap; lia | apply scale_bits | progress unfold bits; autounfold with x86enum; lia
  | apply bits_add; [lia| |] ].
Ltac range_tac :=
  lazymatch goal with
  | |- 0 <= ?v < 2 ^ ?k => first [autounfold with x86enum; lia | change (bits k v); bits_tac]
  | |- _ <= sext 32 _ < _ => apply (sext_range 32); lia
  | |- _ => lia
  end.
Ltac bound_tac :=
  split; [unfold has_type; cbn [ctype fst snd]; repeat case_match; range_tac
         |first [exact Logic.I | cbn beta iota; lia | cbn beta iota; repeat case_match; autounfold with x86enum; lia]].
Ltac take :=
  let a := fresh "v" in let H := fresh "H" in
  intros a H; cbn beta in H;
  lazymatch type of H with
  | bound _ _ _ => let H' := fresh "H" in destruct H as [H H']; unfold has_type in H; cbn [ctype fst snd] in H; cbn beta iota in H'
  | _ => idtac
  end.
Ltac leaf :=
  lazymatch goal with
  | |- keeps _ (get _) _ => apply keeps_get
  | |- keeps _ (consumeByte _) _ => apply keeps_consumeByte; done
  | |- keeps _ (lookAtByte _) _ => apply keeps_lookAtByte; done
  | |- _ => solve [eauto 2 with keeps]
  end.
Ltac keep1 :=
  lazymatch goal with
  | |- keeps ?n (@dbind ?A _ ?d ?k) _ =>
      lazymatch A with
      | unit => apply (keeps_bind n d k (fun _ => True)); [|intros ? _]
      | _ => eapply keeps_bind; [leaf|take]
      end
  | |- keeps _ (set _ _) _ => apply keeps_set; [done|reflexivity|bound_tac]
  | |- keeps _ (dret _) _ => apply keeps_ret
  | |- keeps _ dbad _ => apply keeps_bad
  | |- keeps _ (match ?x with _ => _ end) _ => destruct x eqn:?
  | |- keeps _ (let _ := _ in _) _ => cbv zeta
  | |- keeps _ _ _ => leaf
  | |- True => exact Logic.I
  | |- (fun _ => True) _ => exact Logic.I
  end.
Ltac keep := repeat keep1.

Lemma keeps_consumeInt size w n (Hfr : framed n) :
  0 < w <= 32 -> keeps n (consume reader size (sext w)) (fun v => - 2 ^ 31 <= v < 2 ^ 31).
Proof using All.
  intros Hw. apply keeps_consume; [done| |lia]. intros x. pose proof (sext_range w x ltac:(lia)).
  assert (2 ^ (w - 1) <= 2 ^ 31) by (apply Z.pow_le_mono_r; lia). lia.
Qed.
Lemma keeps_consumeUInt size w n (Hfr : framed n) :
  0 < w <= 64 -> keeps n (consume reader size (wrap w)) (fun v => 0 <= v < 2 ^ 64).
Proof using All. intros Hw. apply keeps_consume; [done| |lia]. intros x. apply bits_wrap. lia. Qed.

Hint Extern 1 (keeps _ (consume _ _ (sext _)) _) => apply keeps_consumeInt; [done|lia] : keeps.
Hint Extern 1 (keeps _ (consume _ _ (wrap _)) _) => apply keeps_consumeUInt; [done|lia] : keeps.

Lemma v2_bits v : bits 5 (v2FromEVEX4of4 v .<< 4).
Proof using Type.
  clear. apply bits_shiftl; [lia|]. unfold v2FromEVEX4of4. apply bits_shiftr_drop; [lia|]. apply bits_land. by vm_compute.
Qed.
Lemma sib_field_bits s rex : bits 4 (indexFromSIB s .| (xFromREX rex .<< 3)) /\ bits 4 (baseFromSIB s .| (bFromREX rex .<< 3)).
Proof using Type.
  clear. unfold indexFromSIB, xFromREX, baseFromSIB, bFromREX. split; apply bits_lor; try lia.
  - apply bits_shiftr_drop; [lia|]. apply bits_land. by vm_compute.
  - apply bits_shiftl; [lia|]. apply bits_shiftr_drop; [lia|]. apply bits_land. by vm_compute.
  - apply bits_land. by vm_compute.
  - apply bits_shiftl; [lia|]. apply bits_land. by vm_compute.
Qed.

Lemma keeps_readSIB n (Hfr : framed n) : keeps n (readSIB reader) (fun _ => True).
Proof using All.
  unfold readSIB. keep1. case_match; [keep|]. keep1; [keep|]. keep1. case_match; [keep|]. cbv zeta.
  set (ib := if _ =? 4 then SIB_INDEX_EAX else _). set (bb := if _ =? 4 then SIB_BASE_EAX else _).
  assert (0 <= ib <= 33 /\ 0 <= bb <= 17) as [Hib Hbb] by (subst ib bb; repeat case_match; by vm_compute).
  clearbody ib bb. keep1. keep1; [keep|]. do 4 keep1.
  match goal with |- context [indexFromSIB ?s .| (xFromREX ?r .<< 3)] => destruct (sib_field_bits s r) as [Hx Hb] end.
  match goal with |- context [v2FromEVEX4of4 ?e] => pose proof (v2_bits e) as Hv2 end.
  set (x := indexFromSIB _ .| _) in *. set (b := baseFromSIB _ .| _) in *. clearbody x b. unfold bits in Hx, Hb.
  rewrite (u8_small x), (u8_small b) by lia.
  set (index := if _ =? TYPE_EVEX then _ else x). assert (0 <= index < 32) as Hindex.
  { subst index. case_match; [|lia].
    match goal with |- context [x .| ?w] => assert (bits 5 (x .| w)) as Hw end.
    { apply bits_lor; [lia|unfold bits; lia|done]. }
    unfold bits in Hw. rewrite u8_small by lia. lia. }
  clearbody index. keep.
Qed.
Hint Resolve keeps_readSIB : keeps.

Lemma keeps_readDisplacement n (Hfr : framed n) : keeps n (readDisplacement reader) (fun _ => True).
Proof using All. unfold readDisplacement, consumeInt8, consumeInt16, consumeInt32. keep. Qed.
Hint Resolve keeps_readDisplacement : keeps.

Lemma keeps_modrm16 n (Hfr : framed n) m rm : keeps n (modrm16 reader m rm) (fun _ => True).
Proof using All. unfold modrm16. keep. Qed.
Lemma keeps_modrm32 n (Hfr : framed n) asz m rm : keeps n (modrm32 reader asz m rm) (fun _ => True).
Proof using All. unfold modrm32. keep. Qed.
Hint Resolve keeps_modrm16 keeps_modrm32 : keeps.

(** [readModRM] keeps the relation; see below for the relations of which this
    holds. *)
Definition modrm_keeps (n : stage) : Prop := keeps n (readModRM reader) (fun _ => True).
Hint Extern 1 (keeps _ (readModRM _) _) => assumption : keeps.

Lemma keeps_modRMRequired n (Hfr : framed n) t c opc : 0 <= c < 179 -> 0 <= opc < 256 -> keeps n (modRMRequired t c opc) (fun _ => True).
Proof using All.
  intros Hc Ho. unfold modRMRequired. destruct (indextable_total t c Hc) as (x & Ex & Hx).
  eapply keeps_bind; [by apply (keeps_entry_of n _ x (eq x) Ex)|]. intros ? <-. unfold truth.
  destruct (Z.eqb_spec x 0); cbn [negb]; [by apply keeps_ret|].
  destruct (decisionFor_total t x opc ltac:(lia) Ho) as (d & Ed & _).
  eapply keeps_bind; [by apply (keeps_entry_of n _ d (fun _ => True) Ed)|]. intros [ty ids] _. by apply keeps_ret.
Qed.

Lemma keeps_entry n (Hfr : framed n) k : 0 <= k < 2467 -> keeps n (entry_of (tget modRMTable k)) known.
Proof using Type. intros Hk. destruct (modRMTable_total k Hk) as (id & E & Hid). by eapply keeps_entry_of. Qed.

Lemma reg_range v : 0 <= (v .& 0x38) .>> 3 <= 7.
Proof using Type. clear. pose proof (land_le v 0x38 ltac:(lia)). rewrite Z.shiftr_div_pow2 by lia. change (2 ^ 3) with 8. zdm. Qed.

Lemma keeps_decode n (Hfr : framed n) t c opc m :
  0 <= c < 179 -> 0 <= opc < 256 -> 0 <= m < 256 -> keeps n (decode t c opc m) known.
Proof using All.
  intros Hc Ho Hm. unfold decode. destruct (indextable_total t c Hc) as (x & Ex & Hx).
  eapply keeps_bind; [by apply (keeps_entry_of n _ x (eq x) Ex)|]. intros ? <-.
  apply (keeps_bind n _ _ fits_table).
  { unfold truth. destruct (Z.eqb_spec x 0); cbn [negb].
    - destruct (decision_total [] opc ltac:(by left) Ho) as (d & Ed & Hd). by eapply keeps_entry_of.
    - destruct (decisionFor_total t x opc ltac:(lia) Ho) as (d & Ed & Hd). by eapply keeps_entry_of. }
  intros [ty ids] (H1 & H2 & H3). cbn [fst snd] in *. pose proof (reg_range m). pose proof (land_le m 0x3f ltac:(lia)).
  unfold entries in H3. repeat (case_match; [apply keeps_entry; first [done|lia]|]).
  repeat case_match; solve [apply keeps_entry; first [done|lia] | apply keeps_ret; apply known_zero].
Qed.


Lemma keeps_getIDWithAttrMask n (Hfr : framed n) (Hmm : modrm_keeps n) a : bits 14 a -> keeps n (getIDWithAttrMask reader a) known.
Proof using All.
  intros Ha. unfold getIDWithAttrMask. eapply keeps_bind; [leaf|take].
  apply (keeps_bind n _ _ (fun c => 0 <= c < 179)).
  { destruct (_ =? _); [apply keeps_ret; unfold IC_OF; lia|]. destruct (contexts_total a Ha) as (c & E & Hc). by eapply keeps_entry_of. }
  intros c Hc. eapply keeps_bind; [leaf|take]. eapply keeps_bind; [by apply keeps_modRMRequired|]. intros [] _.
  - keep1; [leaf|]. eapply keeps_bind; [leaf|take]. by apply keeps_decode.
  - apply keeps_decode; done || lia.
Qed.

Lemma keeps_is16BitEquivalent n (Hfr : framed n) a b : known a -> keeps n (is16BitEquivalent a b) (fun _ => True).
Proof using Type.
  intros [Ha _]. unfold is16BitEquivalent.
  destruct (tget_range x86_16_bit_eq_lookup a) as [x E]; [destruct table_lengths as (_ & _ & _ & _ & _ & _ & ->); lia|].
  eapply keeps_bind; [by apply (keeps_entry_of n _ x (fun _ => True) E)|]. intros ? _. by apply keeps_ret.
Qed.

Lemma keeps_operandOf n (Hfr : framed n) id k :
  0 <= id < 1671 -> 0 <= k < 6 ->
  keeps n (operandOf id k) (fun o => 0 <= o.1 < 32 /\ 0 <= o.2 < 87 /\
    (o.1 = ENCODING_IB -> oneof o.2 [TYPE_XMM128; TYPE_XMM256] = false)).
Proof using Type.
  intros Hid Hk. unfold operandOf, specOperands. destruct table_lengths as (_ & _ & _ & H1 & H2 & _).
  destruct (tget_range x86DisassemblerInstrSpecifiers id) as [s E]; [lia|].
  pose proof (proj1 (within_iff _ _) (tget_all _ _ _ _ specifiers_inside E)) as Hs.
  destruct (tget_range x86OperandSets s) as [set Es]; [lia|].
  pose proof (tget_all _ _ _ _ operand_sets_shape Es) as Hset. apply andb_true_iff in Hset as [Hlen%Nat.eqb_eq Hall].
  destruct (tget_range set k) as [o Eo]; [lia|].
  eapply keeps_bind; [by apply (keeps_entry_of n _ s (eq s) E)|]. intros ? <-.
  eapply keeps_bind; [by apply (keeps_entry_of n _ set (eq set) Es)|]. intros ? <-.
  eapply keeps_entry_of; [done|]. pose proof (tget_all _ _ _ _ Hall Eo) as Ho.
  rewrite !andb_true_iff, !within_iff, negb_true_iff in Ho. destruct Ho as [[Ho1 Ho2] Ho3]. split_and!; [lia..|].
  intros Eib. rewrite Eib, Z.eqb_refl in Ho3. done.
Qed.

(** Operations that identify the instruction. *)
Definition naming (n : stage) (id : Z) : stage := mk_stage (passed n) (Some id) (related n).
Definition names (n : stage) (d : D unit) : Prop :=
  forall i, fits n i -> wp (fits n) d (fun _ j => exists id, fits (naming n id) j) i.

Lemma names_bind {A} n (d : D A) (k : A -> D unit) Q :
  named n = None -> keeps n d Q -> (forall a, Q a -> names n (k a)) -> names n (dbind d k).
Proof using Type.
  intros Hn H1 H2 i Hi. apply wp_bind. specialize (H1 i Hi). rewrite unnamed_id in H1 by done.
  eapply wp_mono; [exact H1|]. intros a j [Hj Ha]. by apply H2.
Qed.

Lemma names_set_id n id : framed n -> named n = None -> known id -> names n (set_id id).
Proof using Type.
  clear start_range N_range. intros Hfr Hn Hid i [Hi HM]. pose proof (proj1 Hid) as Hid01. unfold wp, set_id, set, dbind. exists id.
  split; [|by do 2 (apply (related_put n Hfr); [done|])]. intros f. unfold put. repeat case_decide; subst.
  - split; [unfold has_type; cbn [ctype fst snd]; lia|by split].
  - split; [unfold has_type; cbn [ctype fst snd]; lia|by split].
  - destruct (Hi f) as [H1 H2]. split; [done|]. by destruct f.
Qed.

Section identity.
Context (n : stage).
Hypothesis Hfr : framed n.
Hypothesis Hmm : modrm_keeps n.
Hypothesis Hnone : named n = None.

Lemma names_opsize_form a id : bits 14 a -> known id -> names n (opsize_form reader a id).
Proof using All.
  intros Ha Hid. unfold opsize_form.
  eapply names_bind; [done|apply keeps_attempt; [done|apply keeps_getIDWithAttrMask; [done|done|bits_tac]]|].
  intros [id'|]; [|intros _; by apply names_set_id]. intros Hid'.
  eapply names_bind; [done|by apply keeps_is16BitEquivalent|]. intros eq _.
  eapply names_bind; [done|leaf|take]. eapply names_bind; [done|leaf|take]. case_match; by apply names_set_id.
Qed.

Lemma names_xchg_form a id : bits 14 a -> known id -> names n (xchg_form reader a id).
Proof using All.
  intros Ha Hid. unfold xchg_form. eapply names_bind; [done|keep|]. intros _ _.
  eapply names_bind; [done|apply keeps_attempt; [done|by apply keeps_getIDWithAttrMask]|]. intros o Ho.
  eapply names_bind; [done|keep|]. intros _ _. destruct o; by apply names_set_id.
Qed.

Lemma keeps_isPrefixAtLocation p l : keeps n (isPrefixAtLocation p l) (fun _ => True).
Proof using All. unfold isPrefixAtLocation. keep. Qed.
Hint Resolve keeps_isPrefixAtLocation : keeps.

Lemma pp_attr_bits pp : bits 14 (pp_attr pp).
Proof using Type. clear. unfold pp_attr. repeat case_match; by vm_compute. Qed.
Lemma attr_if_bits b a : bits 14 a -> bits 14 (attr_if b a).
Proof using Type. clear. unfold attr_if. intros. case_match; [done|by vm_compute]. Qed.
Ltac attrs := repeat first [apply pp_attr_bits | apply attr_if_bits | apply bits_lor; [lia| |]]; repeat case_match; bits_tac.

Lemma keeps_vector_attrs vt : keeps n (vector_attrs vt) (bits 14).
Proof using All. unfold vector_attrs. keep; attrs. Qed.
Lemma keeps_legacy_attrs : keeps n legacy_attrs (bits 14).
Proof using All. unfold legacy_attrs. keep; attrs. Qed.

Lemma names_getID : names n (getID reader).
Proof using All.
  unfold getID. eapply names_bind; [done|leaf|take]. eapply names_bind; [done|leaf|take].
  apply (names_bind n _ _ (bits 14)); [done| |].
  { case_match; [apply keeps_vector_attrs|apply keeps_legacy_attrs]. }
  intros a Ha. eapply names_bind; [done|leaf|take]. cbv zeta.
  set (m0 := _ .| a .| _).
  assert (bits 14 m0) as Hm0 by (subst m0; attrs).
  clearbody m0. eapply names_bind; [done|by apply keeps_getIDWithAttrMask|]. intros id Hid.
  eapply names_bind; [done|leaf|take]. eapply names_bind; [done|leaf|take].
  set (fc := _ && _ && _). set (m1 := if fc then _ else m0).
  assert (bits 14 m1) as Hm1 by (subst m1; case_match; [apply bits_lxor; [lia|done|by vm_compute]|done]).
  clearbody m1. apply (names_bind n _ _ known); [done| |].
  { case_match; [by apply keeps_getIDWithAttrMask|by apply keeps_ret]. }
  intros id1 Hid1. apply (names_bind n _ _ (fun _ => True)); [done| |].
  { case_match; [|by apply keeps_ret]. eapply keeps_bind; [apply keeps_operandOf; [done|by apply Hid1|lia]|]. intros [? ?] _. by apply keeps_ret. }
  intros fj _. set (m2 := if fj then _ else m1).
  assert (bits 14 m2) as Hm2 by (subst m2; case_match; [apply bits_lxor; [lia|done|by vm_compute]|done]).
  clearbody m2. apply (names_bind n _ _ known); [done| |].
  { case_match; [by apply keeps_getIDWithAttrMask|by apply keeps_ret]. }
  intros id2 Hid2. eapply names_bind; [done|leaf|take].
  case_match; [by apply names_opsize_form|]. case_match; [by apply names_xchg_form|by apply names_set_id].
Qed.

End identity.

(** ** Operands *)

Lemma size_of_type_bits t s : size_of_type t = Some s -> bits 8 s.
Proof using Type. clear. unfold size_of_type. repeat case_match; intros; simplify_eq; by vm_compute. Qed.

Lemma keeps_fixupValue n (Hfr : framed n) base first t x :
  keeps n (fixupValue base first t x) (fun o => exists rex, o = fixed_value rex base first t x).
Proof using All.
  unfold fixupValue. apply (keeps_bind n _ _ (fun _ => True)).
  { destruct (size_of_type t) eqn:E; keep. by apply size_of_type_bits in E. }
  intros _ _. eapply keeps_bind; [leaf|take]. apply keeps_ret. by eexists.
Qed.

Lemma fixed_value_bits rex base first t x v : fixed_value rex base first t x = Some v -> bits 8 v.
Proof using Type. clear. unfold fixed_value. repeat case_match; intros; simplify_eq; apply bits_wrap; lia. Qed.

(** The general registers stay below the number of registers. *)
Lemma fixed_value_reg rex base t x v :
  0 <= base <= R_RAX -> 0 <= x <= 31 -> x <= 15 \/ t = TYPE_R32 \/ t = TYPE_R64 ->
  fixed_value rex base MODRM_REG t x = Some v -> 0 <= v < MODRM_REG_max.
Proof using Type.
  clear. intros Hb Hx Ht E. split; [by apply fixed_value_bits in E as [? _]|]. revert E. unfold fixed_value.
  pose proof (land_le x 7 ltac:(lia)).
  assert (forall y, 0 <= y < MODRM_REG_max -> u8 y < MODRM_REG_max) as Hu.
  { intros y Hy. unfold MODRM_REG_max in *. rewrite u8_small by lia. lia. }
  destruct Ht as [Ht|[->| ->]].
  - repeat case_match; intros; simplify_eq; apply Hu; revert Hb; autounfold with x86enum; lia.
  - cbn. intros [= <-]. apply Hu. autounfold with x86enum. lia.
  - cbn. intros [= <-]. apply Hu. autounfold with x86enum. lia.
Qed.

(** ** What relates the members *)

(** Whether EVEX is possible; whether [reg] and [opcodeRegister] are final; what
    [vvvv] may be. *)
Record facts := mk_facts { evex : bool; reg_done : bool; op_done : bool; vmax : option Z }.

Definition based (x : facts) (i : insn) : Prop :=
  In (i registerSize) [2; 4; 8] /\ (evex x = false -> i vectorExtensionType <> TYPE_EVEX) /\
  (op_done x = true -> i opcodeRegister < MODRM_REG_max) /\
  match vmax x with Some m => i vvvv <= m | None => True end.
Definition located (x : facts) (i : insn) : Prop :=
  In (i regBase) [R_AX; R_EAX; R_RAX] /\
  (if reg_done x then i reg < MODRM_REG_max else i regBase <= i reg <= i regBase + (if evex x then 31 else 15)).
Definition holds (x : facts) (i : insn) : Prop :=
  based x i /\ (i consumedModRM = 1 -> located x i) /\ (reg_done x = true -> i consumedModRM = 1).
Definition staged (k : Z) (id : option Z) (x : facts) : stage := mk_stage k id (holds x).

Lemma based_put x i f v : unrelated f = true \/ In f [consumedModRM; regBase; reg] -> based x i -> based x (put i f v).
Proof using Type.
  clear. intros Hf H. unfold based. rewrite !put_ne; [exact H|..]; intros <-; simpl in Hf; intuition discriminate.
Qed.

Lemma framed_staged k id x : 0 <= k -> framed (staged k id x).
Proof using Type.
  clear. intros Hk. split; [done|]. intros f v i Hf (H1 & H2 & H3). cbn [related staged] in *.
  assert (forall g, unrelated g = false -> put i f v g = i g) as E by (intros g Hg; apply put_ne; congruence).
  split; [apply based_put; [by left|done]|]. unfold located. by rewrite !E.
Qed.

Lemma reg_bits m r : bits 4 (regFromModRM m .| (rFromREX r .<< 3)).
Proof using Type.
  clear. apply bits_lor; [lia| |].
  - unfold regFromModRM. apply bits_shiftr_drop; [lia|]. apply bits_land. by vm_compute.
  - apply bits_shiftl; [lia|]. unfold rFromREX. apply bits_shiftr_drop; [lia|]. apply bits_land. by vm_compute.
Qed.
Lemma reg2_bits v : bits 5 (r2FromEVEX2of4 v .<< 4).
Proof using Type.
  clear. apply bits_shiftl; [lia|]. unfold r2FromEVEX2of4. apply bits_shiftr_drop; [lia|]. apply bits_land. by vm_compute.
Qed.


(** The register bases, for the sizes there are. *)
Lemma set_reg_bases_spec E i (Q : unit -> insn -> Prop) :
  In (i registerSize) [2; 4; 8] ->
  (forall b, In b [R_AX; R_EAX; R_RAX] -> Q tt (put (put i regBase b) eaRegBase (EA_REG + b))) -> wp E set_reg_bases Q i.
Proof using Type.
  clear. intros H HQ. unfold set_reg_bases. apply wp_bind, wp_get.
  destruct H as [<-|[<-|[<-|[]]]]; cbn [Z.eqb Pos.eqb]; apply wp_bind, wp_set, wp_set; apply HQ; simpl; tauto.
Qed.

(** The relation before [reg] is set. *)
Definition half (x : facts) (i : insn) : Prop := based x i /\ i consumedModRM = 1.
Lemma framed_half k id x : 0 <= k -> framed (mk_stage k id (half x)).
Proof using Type.
  clear. intros Hk. split; [done|]. intros f v i Hf [H1 H2]. split; [apply based_put; [by left|done]|].
  cbn [related] in *. rewrite put_ne; [done|]. by intros <-.
Qed.

Lemma located_after k id x i rb r :
  fits (mk_stage k id (half x)) i -> reg_done x = false -> In rb [R_AX; R_EAX; R_RAX] ->
  0 <= r <= (if evex x then 31 else 15) ->
  fits (staged k id x) (put (put (put i regBase rb) eaRegBase (EA_REG + rb)) reg (u32 (rb + r))).
Proof using Type.
  clear. intros [Hi [Hb Hc]] Hr Hrb Hr15.
  assert (20 <= rb <= 52) as Hrb' by (destruct Hrb as [<-|[<-|[<-|[]]]]; by vm_compute).
  assert (0 <= r <= 31) by (destruct (evex x); lia). rewrite u32_small by lia. split.
  - intros f. unfold put. repeat case_decide; subst; [split; [unfold has_type, EA_REG; cbn [ctype fst snd]; lia|done]..|].
    apply (Hi f).
  - split; [do 3 (apply based_put; [by first [left; reflexivity|right; simpl; tauto]|]); exact Hb|].
    split; [|congruence]. intros _. unfold located. rewrite Hr. put_simpl. split; [done|lia].
Qed.

Definition reg_field (i : insn) : Z :=
  let r := u8 (regFromModRM (i modRM) .| (rFromREX (i rexPrefix) .<< 3)) in
  if i vectorExtensionType =? TYPE_EVEX then u8 (r .| (r2FromEVEX2of4 (i (vectorExtensionPrefix 1)) .<< 4)) else r.

Lemma reg_field_range x i : based x i -> 0 <= reg_field i <= (if evex x then 31 else 15).
Proof using Type.
  clear. intros (_ & He & _). unfold reg_field. pose proof (reg_bits (i modRM) (i rexPrefix)) as H4.
  pose proof (reg2_bits (i (vectorExtensionPrefix 1))) as H5. unfold bits in H4. cbv zeta.
  rewrite (u8_small (regFromModRM (i modRM) .| _)) by lia.
  destruct (Z.eqb_spec (i vectorExtensionType) TYPE_EVEX) as [E|E].
  - destruct (evex x); [|by destruct He]. assert (bits 5 ((regFromModRM (i modRM) .| rFromREX (i rexPrefix) .<< 3)
      .| r2FromEVEX2of4 (i (vectorExtensionPrefix 1)) .<< 4)) as H6 by (apply bits_lor; [lia|unfold bits; lia|done]).
    unfold bits in H6. rewrite u8_small by lia. lia.
  - destruct (evex x); lia.
Qed.

(** The relation once the byte is read. *)
Definition read_ (k : Z) (id : option Z) (x : facts) : stage := mk_stage k id (fun i => holds x i /\ i consumedModRM = 1).
Lemma framed_read k id x : 0 <= k -> framed (read_ k id x).
Proof using Type.
  clear. intros Hk. split; [done|]. intros f v i Hf [H1 H2].
  split; [by apply (related_put _ (framed_staged k id x Hk))|]. rewrite put_ne; [done|]. by intros <-.
Qed.
Lemma fits_read k id x i : fits (read_ k id x) i <-> fits (staged k id x) i /\ i consumedModRM = 1.
Proof using Type. clear. unfold fits. cbn [related read_ staged]. tauto. Qed.

Lemma readModRM_spec k id x i :
  0 <= k -> fits (staged k id x) i ->
  wp (fits (unnamed (staged k id x))) (readModRM reader) (fun _ j => fits (read_ k id x) j) i.
Proof using All.
  intros Hk Hi. pose proof (framed_staged k id x Hk) as Hfr. unfold readModRM. apply wp_bind, wp_get.
  unfold truth. destruct (Z.eqb_spec (i consumedModRM) 0) as [E0|N0]; cbn [negb].
  2: { apply fits_read. split; [done|]. destruct (proj1 Hi consumedModRM) as [Ht _]. unfold has_type in Ht. cbn [ctype fst snd] in Ht. lia. }
  assert (reg_done x = false) as Hr by (destruct Hi as [_ (_ & _ & H)]; destruct (reg_done x); [specialize (H eq_refl); lia|done]).
  apply wp_bind. eapply wp_mono; [by apply keeps_consumeByte|]. intros b i1 [H1 Hb].
  apply wp_bind, wp_set, wp_bind, wp_set.
  set (h := mk_stage k id (half x)). pose proof (framed_half k id x Hk) as Hfh. fold h in Hfh.
  assert (fits h (put (put i1 modRM b) consumedModRM 1)) as H2.
  { assert (fits (staged k id x) (put i1 modRM b)) as [H2 [HM _]] by (apply fits_put; [done|done|done|by split]).
    split; [intros f; unfold put at 1; case_decide as E; [rewrite E; by split|apply H2]|].
    split; [apply based_put; [right; simpl; tauto|done]|apply put_eq]. }
  set (i2 := put _ consumedModRM 1) in *. clearbody i2. apply wp_bind, wp_set.
  assert (fits h (put i2 orgModRM b)) as H3 by (apply fits_put; [done|done|done|by split]).
  set (i3 := put i2 _ _) in *. clearbody i3. do 3 apply wp_bind, wp_get. apply wp_bind.
  apply (wp_mono _ _ (fun _ j => fits h j)).
  { destruct (_ && _); [|done]. apply wp_set. apply fits_put; [done|done|done|]. split; [|done].
    change (bits 8 (u8 (b .| 0xC0))). apply bits_wrap; lia. }
  intros [] i4 H4. apply wp_bind, wp_get. apply wp_bind. apply set_reg_bases_spec; [apply H4|]. intros rb Hrb.
  do 3 apply wp_bind, wp_get. cbv zeta. apply wp_bind, wp_get. put_simpl. apply wp_bind, wp_set. fold (reg_field i4).
  pose proof (located_after k id x i4 rb (reg_field i4) H4 Hr Hrb (reg_field_range x i4 (proj1 (proj2 H4)))) as H5.
  assert (fits (read_ k id x) (put (put (put i4 regBase rb) eaRegBase (EA_REG + rb)) reg (u32 (rb + reg_field i4)))) as H6.
  { apply fits_read. split; [done|]. put_simpl. apply H4. }
  apply wp_bind, wp_get.
  eapply (wp_weaken (fits (unnamed (read_ k id x))) _ _ (fun _ j => fits (read_ k id x) j /\ True));
    [|by intros j [? [? _]]|by intros ? j [? _]].
  pose proof (framed_read k id x Hk). repeat case_match; first [by apply keeps_modrm16 | by apply keeps_modrm32 | by split].
Qed.

Lemma modrm_holds k id x : 0 <= k -> modrm_keeps (staged k id x).
Proof using All.
  intros Hk i Hi. eapply wp_mono; [by apply readModRM_spec|]. intros [] j H%fits_read. by destruct H.
Qed.


(** ** Operands *)

Definition op_register (e : Z) : bool := oneof e [ENCODING_RB; ENCODING_RW; ENCODING_RD; ENCODING_RO; ENCODING_Rv].
(** What an operand adds to the facts. *)
Definition after (e : Z) (x : facts) : facts :=
  mk_facts (evex x) (reg_done x || (e =? ENCODING_REG)) (op_done x || op_register e)
    (if e =? ENCODING_VVVV then Some (MODRM_REG_max - 1) else vmax x).
(** The operands can be read in this order: one [reg], one [vvvv] that is a general
    register, no vector register in an immediate. *)
Fixpoint readable (l : list (Z * Z)) (x : facts) : bool :=
  match l with
  | [] => true
  | (e, t) :: l' =>
      negb ((e =? ENCODING_REG) && reg_done x) &&
      negb ((e =? ENCODING_VVVV) && negb (oneof t [TYPE_R32; TYPE_R64] &&
              match vmax x with Some m => m <=? 31 | None => true end)) &&
      negb ((e =? ENCODING_IB) && oneof t [TYPE_XMM128; TYPE_XMM256]) &&
      readable l' (after e x)
  end.
Definition begin (has : bool) : facts := mk_facts false false false (if has then Some 31 else None).

Lemma operand_sets_readable :
  forallb (fun s => readable (take 5 s) (begin true) && readable (take 5 s) (begin false)) x86OperandSets = true.
Proof using Type. vm_compute. reflexivity. Qed.

(** Whatever is known, the members are in their bounds. *)
Definition loose (k : Z) : stage := mk_stage k None (fun _ => True).
Lemma fits_loose k id x i : fits (mk_stage k id x) i -> fits (loose k) i.
Proof using Type. intros [H _]. split; [|done]. intros f. destruct (H f) as [H1 H2]. split; [done|]. by destruct f. Qed.

Lemma keeps_wp {A} k id x (d : D A) Q i :
  keeps (mk_stage k id x) d Q -> fits (mk_stage k id x) i ->
  wp (fits (loose k)) d (fun a j => fits (mk_stage k id x) j /\ Q a) i.
Proof using Type. intros H Hi. eapply wp_weaken; [by apply H|apply fits_loose|done]. Qed.

Ltac facts_simpl e :=
  unfold staged, holds, based, located, after; cbn [related evex reg_done op_done vmax];
  try change (e =? ENCODING_REG) with false; try change (e =? ENCODING_REG) with true;
  try change (e =? ENCODING_VVVV) with false; try change (e =? ENCODING_VVVV) with true;
  try change (op_register e) with false; try change (op_register e) with true;
  rewrite ?orb_false_r, ?orb_true_r; cbv iota; put_simpl.
Ltac other_members Hi :=
  let f := fresh "f" in
  intros f; unfold put; case_decide; subst; [split; [unfold has_type; cbn [ctype fst snd]; lia|done]|apply (Hi f)].

Lemma vvvv_kept k id x v i :
  fits (staged k id x) i -> 0 <= v < MODRM_REG_max -> fits (staged k id (after ENCODING_VVVV x)) (put i vvvv v).
Proof using Type.
  clear. intros [Hi ((H1 & H2 & H3 & H4) & H5 & H6)] Hv. unfold MODRM_REG_max in Hv. split; [other_members Hi|].
  facts_simpl ENCODING_VVVV. split_and!; try done. unfold MODRM_REG_max. lia.
Qed.

Lemma reg_kept k id x v i :
  fits (staged k id x) i -> i consumedModRM = 1 -> 0 <= v < MODRM_REG_max ->
  fits (staged k id (after ENCODING_REG x)) (put i reg v).
Proof using Type.
  clear. intros [Hi ((H1 & H2 & H3 & H4) & H5 & H6)] Hc Hv. unfold MODRM_REG_max in Hv. split; [other_members Hi|].
  facts_simpl ENCODING_REG. split_and!; try done. intros _. split; [by apply H5|unfold MODRM_REG_max; lia].
Qed.

Lemma op_kept k id x v e i :
  op_register e = true -> fits (staged k id x) i -> 0 <= v < MODRM_REG_max ->
  fits (staged k id (after e x)) (put i opcodeRegister v).
Proof using Type.
  clear. intros He [Hi ((H1 & H2 & H3 & H4) & H5 & H6)] Hv. unfold MODRM_REG_max in Hv. split; [other_members Hi|].
  assert ((e =? ENCODING_REG) = false /\ (e =? ENCODING_VVVV) = false) as [E1 E2].
  { split; apply Z.eqb_neq; intros ->; by vm_compute in He. }
  unfold staged, holds, based, located, after. cbn [related evex reg_done op_done vmax].
  rewrite E1, E2, He, orb_false_r, orb_true_r. put_simpl. split_and!; try done. unfold MODRM_REG_max. lia.
Qed.

(** Operands that set none of the three. *)
Lemma after_other e x :
  (e =? ENCODING_REG) = false -> (e =? ENCODING_VVVV) = false -> op_register e = false -> after e x = x.
Proof using Type. clear. intros H1 H2 H3. unfold after. rewrite H1, H2, H3, !orb_false_r. by destruct x. Qed.


Section operand.
Context (k : Z) (id : option Z) (x : facts).
Hypothesis Hk : 0 <= k.
Hypothesis no_evex : evex x = false.

Lemma fixup_reg_spec t i :
  fits (read_ k id x) i -> reg_done x = false ->
  wp (fits (loose k)) (fixupReg ENCODING_REG t) (fun _ j => fits (staged k id (after ENCODING_REG x)) j) i.
Proof using All.
  intros Hi Hr. pose proof (framed_read k id x Hk) as Hfr. unfold fixupReg. cbn [Z.eqb Pos.eqb ENCODING_REG ENCODING_VVVV].
  apply wp_bind, wp_get, wp_bind, wp_get, wp_bind. unfold fixupRegValue. apply wp_bind, wp_get.
  destruct (proj1 (proj2 Hi)) as (_ & Hloc & _). destruct (Hloc (proj2 (proj2 Hi))) as [Hrb Hreg]. rewrite Hr, no_evex in Hreg.
  assert (R_AX <= i regBase <= R_RAX) as Hrb' by (destruct Hrb as [<-|[<-|[<-|[]]]]; by vm_compute). unfold R_AX in Hrb'.
  rewrite u8_small by lia.
  eapply wp_mono; [apply (keeps_wp k id); [by apply keeps_fixupValue|exact Hi]|]. intros o j [Hj [rex E]].
  unfold store_valid. destruct o as [v|]; [|by eapply fits_loose].
  apply wp_set. apply fits_read in Hj as [Hj Hc]. apply reg_kept; [done|done|]. symmetry in E.
  eapply fixed_value_reg; [| | |exact E]; [lia|lia|left; lia].
Qed.

Lemma fixup_rm_spec e t i :
  encoding_rm e = true -> fits (read_ k id x) i ->
  wp (fits (loose k)) (fixupReg e t) (fun _ j => fits (staged k id x) j) i.
Proof using All.
  intros He Hi. pose proof (framed_read k id x Hk) as Hfr.
  assert ((e =? ENCODING_VVVV) = false /\ (e =? ENCODING_REG) = false) as [E1 E2].
  { unfold encoding_rm in He. apply andb_true_iff in He as [H1%Z.leb_le H2%Z.leb_le]. autounfold with x86enum in *. split; apply Z.eqb_neq; lia. }
  unfold fixupReg. rewrite E1, E2, He. apply wp_bind, wp_get, wp_bind, wp_get.
  apply fits_read in Hi as [Hi Hc]. destruct (_ <=? _); [|done]. apply wp_bind. unfold fixupRMValue. apply wp_bind, wp_get.
  eapply wp_mono; [apply (keeps_wp k id); [apply keeps_fixupValue; by apply framed_staged|exact Hi]|]. intros o j [Hj [rex E]].
  unfold store_valid. destruct o as [v|]; [|by eapply fits_loose]. apply wp_set. symmetry in E. apply fixed_value_bits in E.
  apply fits_put; [by apply framed_staged|done|done|]. split; [|done]. unfold has_type, bits in *. cbn [ctype fst snd]. lia.
Qed.

Lemma fixup_vvvv_spec t i m :
  fits (staged k id x) i -> vmax x = Some m -> m <= 31 -> oneof t [TYPE_R32; TYPE_R64] = true ->
  wp (fits (loose k)) (fixupReg ENCODING_VVVV t) (fun _ j => fits (staged k id (after ENCODING_VVVV x)) j) i.
Proof using All.
  intros Hi Hm Hm31 Ht. unfold fixupReg. cbn [Z.eqb Pos.eqb ENCODING_VVVV].
  apply wp_bind, wp_get, wp_bind. unfold fixupRegValue. apply wp_bind, wp_get.
  destruct (proj1 (proj2 Hi)) as (_ & _ & _ & Hv). rewrite Hm in Hv.
  destruct (proj1 Hi vvvv) as [Hv0 _]. unfold has_type in Hv0. cbn [ctype fst snd] in Hv0. rewrite u8_small by lia.
  eapply wp_mono; [apply (keeps_wp k id); [apply keeps_fixupValue; by apply framed_staged|exact Hi]|]. intros o j [Hj [rex E]].
  unfold store_valid. destruct o as [v|]; [|by eapply fits_loose]. apply wp_set. apply vvvv_kept; [done|]. symmetry in E.
  assert (t = TYPE_R32 \/ t = TYPE_R64) as Ht'.
  { unfold oneof in Ht. cbn [existsb] in Ht. rewrite orb_false_r, orb_true_iff, !Z.eqb_eq in Ht. tauto. }
  assert (fixed_value rex 0 MODRM_REG t (i vvvv) = Some v) as E0 by (destruct Ht' as [-> | ->]; exact E).
  eapply fixed_value_reg; [| | |exact E0]; [by vm_compute|lia|by right].
Qed.

Lemma opcode_register_spec e size i :
  op_register e = true -> bits 8 size -> In size [0; 1; 2; 4; 8] -> fits (staged k id x) i ->
  wp (fits (loose k)) (readOpcodeRegister size) (fun _ j => fits (staged k id (after e x)) j) i.
Proof using All.
  intros He Hs Hin Hi. pose proof (framed_staged k id x Hk) as Hfr. unfold readOpcodeRegister. apply wp_bind, wp_get.
  destruct (proj1 (proj2 Hi)) as (Hrs & _). set (sz := if size =? 0 then _ else _).
  assert (In sz [1; 2; 4; 8]) as Hsz by (subst sz; case_match; [simpl in *; tauto|]; simpl in *; destruct Hin as [<-|?]; [done|tauto]).
  clearbody sz. apply wp_bind, wp_set. do 2 apply wp_bind, wp_get. put_simpl. cbv zeta.
  assert (fits (staged k id x) (put i operandSize sz)) as Hi1.
  { apply fits_put; [done|done|done|]. split; [|done]. destruct Hsz as [<-|[<-|[<-|[<-|[]]]]]; by vm_compute. }
  set (n := _ .| _). assert (bits 4 n) as Hn by (subst n; unfold bFromREX; bits_tac). clearbody n. unfold bits in Hn.
  change (2 ^ 4) with 16 in Hn.
  destruct Hsz as [<-|[<-|[<-|[<-|[]]]]]; cbn [Z.eqb Pos.eqb]; apply wp_set; apply op_kept; try done;
    try case_match; autounfold with x86enum; lia.
Qed.
End operand.

Lemma keeps_set_immediate n (Hfr : framed n) k v : 0 <= k < 2 -> 0 <= v < 2 ^ 64 -> keeps n (set_immediate k v) (fun _ => True).
Proof using Type.
  intros Hk Hv. unfold set_immediate. rewrite (proj2 (Z.leb_le _ _)), (proj2 (Z.ltb_lt _ _)) by lia.
  apply keeps_set; [done|done|]. by split.
Qed.

Lemma keeps_readImmediate n (Hfr : framed n) size : bits 8 size -> keeps n (readImmediate reader size) (fun _ => True).
Proof using All.
  intros Hs. unfold readImmediate, consumeUInt16, consumeUInt32, consumeUInt64. keep1. case_match; [keep|]. keep1.
  apply (keeps_bind n _ _ (bits 8)).
  { case_match; [by apply keeps_ret|]. apply (keeps_bind n _ _ (fun _ => True)); [keep|]. intros _ _. by apply keeps_ret. }
  intros size' Hs'. keep1. keep1. keep1; [keep|].
  assert (0 <= v < 2) by (destruct (Z.eqb_spec v 2); [done|lia]).
  keep1; [|apply keeps_set; [done|done|rewrite u8_small by lia; bound_tac]].
  repeat case_match; keep; apply keeps_set_immediate; done || lia.
Qed.

Lemma keeps_readMaskRegister n (Hfr : framed n) : keeps n readMaskRegister (fun _ => True).
Proof using All. unfold readMaskRegister. keep. Qed.
Lemma keeps_checkPrefix n (Hfr : framed n) : keeps n checkPrefix (fun _ => True).
Proof using All. unfold checkPrefix. keep. Qed.
Hint Resolve keeps_readMaskRegister : keeps.
Hint Extern 1 (keeps _ (readImmediate _ _) _) => apply keeps_readImmediate; [done|unfold bits; lia] : keeps.

(** The last steps of the operand that a byte says. *)
Lemma keeps_displacement n (Hfr : framed n) e (r : bool * bool) :
  keeps n (let& ed := get eaDisplacement in
           let& d := get displacement in
           (if negb (e =? ENCODING_REG) && (ed =? EA_DISP_8)
            then set displacement (sext 32 (d * (1 .<< (e - ENCODING_RM)))) else dret tt) ;&
           dret r) (fun r' => r' = r).
Proof using All. keep; done. Qed.

(** Operands that set none of the three are read by operations that keep the facts. *)
Lemma quiet_operand k id x e (d : D unit) (r : bool * bool) i :
  0 <= k -> after e x = x -> keeps (staged k id x) d (fun _ => True) -> fits (staged k id x) i ->
  wp (fits (loose k)) (dbind d (fun _ => dret r)) (fun r' j => fits (staged k id (after e x)) j /\ r' = r) i.
Proof using Type.
  intros Hk -> Hd Hi. apply wp_bind. eapply wp_mono; [by apply (keeps_wp k id)|]. intros _ j [Hj _]. by split.
Qed.

Lemma modrm_operand k id x e t (r : bool * bool) i :
  0 <= k -> evex x = false -> (e =? ENCODING_REG) || encoding_rm e = true -> (e = ENCODING_REG -> reg_done x = false) ->
  fits (staged k id x) i ->
  wp (fits (loose k))
    (readModRM reader ;& fixupReg e t ;&
     let& ed := get eaDisplacement in
     let& d := get displacement in
     (if negb (e =? ENCODING_REG) && (ed =? EA_DISP_8)
      then set displacement (sext 32 (d * (1 .<< (e - ENCODING_RM)))) else dret tt) ;&
     dret r)
    (fun r' j => fits (staged k id (after e x)) j /\ r' = r) i.
Proof using All.
  intros Hk Hx He Hr Hi. apply wp_bind. eapply wp_weaken; [by apply readModRM_spec|by intros j [? _]%fits_loose|].
  intros [] i1 H1. apply wp_bind.
  apply (wp_mono _ _ (fun _ j => fits (staged k id (after e x)) j)).
  - destruct (Z.eqb_spec e ENCODING_REG) as [->|Hne]; [by apply fixup_reg_spec; auto|].
    cbn [orb] in He. rewrite after_other; [by apply fixup_rm_spec|by apply Z.eqb_neq|..].
    + apply Z.eqb_neq. intros ->. by vm_compute in He.
    + destruct (op_register e) eqn:E; [|done]. apply existsb_exists in E as (e' & Hin & <-%Z.eqb_eq).
      by destruct Hin as [<-|[<-|[<-|[<-|[<-|[]]]]]].
  - intros [] i2 H2. apply (keeps_wp k id (holds (after e x))); [|done]. apply keeps_displacement. by apply framed_staged.
Qed.

(** One operand; no vector register is in an immediate. *)
Lemma readOperand_spec k id x has need e t i :
  0 <= k -> evex x = false -> (has = true -> vmax x <> None) -> readable [(e, t)] x = true ->
  fits (staged k id x) i ->
  wp (fits (loose k)) (readOperand reader has need false e t)
    (fun r j => fits (staged k id (after e x)) j /\ r.2 = false) i.
Proof using All.
  intros Hk Hx Hv Hrd Hi. pose proof (framed_staged k id x Hk) as Hfr. cbn [readable] in Hrd.
  rewrite andb_true_r, !andb_true_iff, !negb_true_iff in Hrd. destruct Hrd as [[Hr1 Hr2] Hr3].
  assert (forall (d : D unit) (r : bool * bool), r.2 = false -> after e x = x -> keeps (staged k id x) d (fun _ => True) ->
    wp (fits (loose k)) (dbind d (fun _ => dret r)) (fun r j => fits (staged k id (after e x)) j /\ r.2 = false) i) as quiet.
  { intros d r Hr Ha Hd. eapply wp_mono; [by apply quiet_operand|]. by intros r' j [? ->]. }
  assert (forall size, op_register e = true -> In size [0; 1; 2; 4; 8] ->
    wp (fits (loose k)) (readOpcodeRegister size ;& dret (need, false))
      (fun r j => fits (staged k id (after e x)) j /\ r.2 = false) i) as opreg.
  { intros size He Hs. apply wp_bind. eapply wp_mono; [apply opcode_register_spec; try done|].
    - simpl in Hs. destruct Hs as [<-|[<-|[<-|[<-|[<-|[]]]]]]; by vm_compute.
    - intros [] j Hj. by split. }
  unfold readOperand. destruct (oneof e _) eqn:E0.
  { apply existsb_exists in E0 as (e' & Hin & <-%Z.eqb_eq). split; [|done]. rewrite after_other; [done|..];
      by destruct Hin as [<-|[<-|[<-|[<-|[<-|[]]]]]]. }
  destruct (_ || encoding_rm e) eqn:E1.
  { eapply wp_mono; [apply modrm_operand; try done|by intros r j [? ->]].
    intros ->. by destruct (reg_done x). }
  clear E0 E1.
  assert (bits 8 (i immediateSize) /\ bits 8 (i addressSize)) as [Hs1 Hs2] by (split; [apply (proj1 Hi immediateSize)|apply (proj1 Hi addressSize)]).
  repeat match goal with
  | |- context [e =? ?c] => destruct (Z.eqb_spec e c) as [->|_];
      [lazymatch goal with |- wp _ (dbind (get _) _) _ _ => apply wp_bind, wp_get | _ => idtac end;
       first [ apply opreg; [done|simpl; tauto]
             | apply quiet; [done|by apply after_other|first [by apply keeps_readMaskRegister | by apply keeps_readImmediate]]
             | idtac ]|]
  end.
  - apply quiet; [|by apply after_other|by apply keeps_readImmediate]. cbn [snd].
    unfold oneof in Hr3. cbn [existsb andb] in Hr3. by rewrite orb_false_r in Hr3.
  - destruct has; cbn [negb]; [|by eapply fits_loose]. destruct (vmax x) as [m|] eqn:Em; [|by destruct Hv].
    cbn [andb] in Hr2. rewrite negb_false_iff, andb_true_iff, Z.leb_le in Hr2. destruct Hr2 as [Ht Hm].
    apply wp_bind. eapply wp_mono; [by eapply fixup_vvvv_spec|]. intros [] j Hj. by split.
  - by eapply fits_loose.
Qed.

(** The facts after some operands. *)
Definition after_all (ops : list (Z * Z)) (x : facts) : facts := fold_left (fun x o => after o.1 x) ops x.

Lemma after_all_evex ops x : evex (after_all ops x) = evex x.
Proof using Type. clear. revert x. induction ops as [|o ops IH]; intros x; [done|]. unfold after_all. cbn [fold_left]. by rewrite IH. Qed.

Lemma operandOf_eq id s ops index o i :
  specOperands id = Some s -> tget x86OperandSets s = Some ops -> tget ops index = Some o -> operandOf id index i = Good o i.
Proof using Type. clear. intros H1 H2 H3. unfold operandOf, dbind. rewrite H1. unfold entry_of at 1, dret at 1. rewrite H2. unfold entry_of at 1, dret at 1. by rewrite H3. Qed.

Lemma operand_loop_spec k id s ops n has index need x i :
  0 <= k -> specOperands id = Some s -> tget x86OperandSets s = Some ops ->
  0 <= index -> index + Z.of_nat n <= Z.of_nat (length ops) ->
  readable (take n (drop (Z.to_nat index) ops)) x = true -> evex x = false -> (has = true -> vmax x <> None) ->
  fits (staged k (Some id) x) i ->
  wp (fits (loose k)) (operand_loop reader n index has need false)
    (fun _ j => fits (staged k (Some id) (after_all (take n (drop (Z.to_nat index) ops)) x)) j) i.
Proof using All.
  intros Hk Hs Ho. revert index need x i. induction n as [|n IH]; intros index need x i H0 Hn Hr Hx Hv Hi; [done|].
  cbn [operand_loop]. apply wp_bind, wp_get. destruct (proj1 Hi spec) as (_ & -> & _).
  destruct (tget_range ops index) as [[e t] Eo]; [lia|]. apply wp_bind. unfold wp at 1.
  rewrite (operandOf_eq _ _ _ _ _ _ Hs Ho Eo). apply tget_Some in Eo as [_ Eo].
  rewrite (drop_S _ _ _ Eo), <- Z2Nat.inj_succ in Hr |- * by lia. cbn [firstn readable] in Hr |- *.
  apply andb_true_iff in Hr as [Hr Hr']. apply wp_bind. eapply wp_mono.
  { apply (readOperand_spec k (Some id) x); try done. cbn [readable]. by rewrite Hr. }
  intros [need' saw] j [Hj Hsaw]. cbn [snd] in Hsaw. subst saw. unfold after_all. cbn [fold_left fst].
  apply IH; try done; [lia|lia|]. intros Hh. unfold after. cbn [vmax]. destruct (e =? ENCODING_VVVV); [discriminate|by apply Hv].
Qed.

Lemma vvvv_bits v3 v2 v1 :
  bits 5 ((v2FromEVEX4of4 v3 .<< 4) .| vvvvFromEVEX3of4 v2) /\ bits 5 (vvvvFromVEX3of3 v2) /\ bits 5 (vvvvFromVEX2of2 v1).
Proof using Type.
  clear. assert (forall v, bits 5 ((Z.lnot v .& 0x78) .>> 3)) as H.
  { intros v. apply bits_shiftr_drop; [lia|]. apply bits_land. by vm_compute. }
  split_and!; [|apply H..]. apply bits_lor; [lia| |apply H].
  apply bits_shiftl; [lia|]. unfold v2FromEVEX4of4. apply bits_shiftr_drop; [lia|]. apply bits_land. by vm_compute.
Qed.

Lemma readVVVV_spec k id i :
  fits (staged k id (begin false)) i ->
  wp (fits (loose k)) readVVVV (fun has j => fits (staged k id (begin has)) j) i.
Proof using Type.
  clear. intros Hi. unfold readVVVV. do 5 apply wp_bind, wp_get. cbv zeta.
  assert (forall v, bits 5 v -> fits (staged k id (begin true))
    (put i vvvv (if negb (i mode =? MODE_64BIT) then v .& 7 else v))) as Hput.
  { intros v Hv. set (w := if negb (i mode =? MODE_64BIT) then v .& 7 else v). assert (bits 5 w) as Hw by (subst w; case_match; [apply bits_land; by vm_compute|done]).
    clearbody w. unfold bits in Hw. change (2 ^ 5) with 32 in Hw.
    destruct Hi as [Hi ((H1 & H2 & H3 & H4) & H5 & H6)]. split; [other_members Hi|].
    unfold staged, holds, based, located, begin in *. cbn [related evex reg_done op_done vmax] in *. put_simpl.
    split_and!; try done. lia. }
  destruct (vvvv_bits (i (vectorExtensionPrefix 3)) (i (vectorExtensionPrefix 2)) (i (vectorExtensionPrefix 1))) as (Hb1 & Hb2 & Hb3).
  repeat (destruct (i vectorExtensionType =? _); [apply wp_bind, wp_set; by apply Hput|]). exact Hi.
Qed.

(** The facts that the operands of an instruction establish. *)
Definition established (ops : list (Z * Z)) (x : facts) : Prop := exists has, x = after_all (take 5 ops) (begin has).

Lemma readOperands_spec k id s ops i :
  0 <= k -> specOperands id = Some s -> tget x86OperandSets s = Some ops ->
  fits (staged k (Some id) (begin false)) i ->
  wp (fits (loose k)) (readOperands reader) (fun _ j => exists x, established ops x /\ fits (staged k (Some id) x) j) i.
Proof using All.
  intros Hk Hs Ho Hi. pose proof (tget_all _ _ _ _ operand_sets_readable Ho) as Hr. apply andb_true_iff in Hr as [Hr1 Hr2].
  pose proof (tget_all _ _ _ _ operand_sets_shape Ho) as Hl. apply andb_true_iff in Hl as [Hl%Nat.eqb_eq _].
  unfold readOperands. apply wp_bind. eapply wp_mono; [by apply readVVVV_spec|]. intros has i1 H1.
  apply wp_bind, wp_get, wp_bind. eapply wp_mono.
  { apply (operand_loop_spec k id s ops 5 has 0 _ (begin has)); try done; [lia|by destruct has|by intros ->]. }
  intros need i2 H2. destruct need; [by eapply fits_loose|]. exists (after_all (take 5 ops) (begin has)). split; [by eexists|done].
Qed.

(** ** EVEX names no instruction *)

(** No context with [ATTR_EVEX] has a table, nor has the one of 3DNow. *)
Definition no_table (c : Z) : bool :=
  forallb (fun t => match tget (indextable t) c with Some x => x =? 0 | None => false end) [0; 1; 2; 3].
Lemma evex_contexts :
  let bare := map (forallb no_table) context_rows in
  forallb (fun q => negb (Z.testbit (Z.of_nat q) 3) ||
    match tget context_index (Z.of_nat q) with
    | Some r => default false (tget bare r)
    | None => false
    end) (seq 0 512) = true.
Proof using Type. vm_compute. reflexivity. Qed.

Lemma tget_map {A B} (f : A -> B) l k : tget (map f l) k = option_map f (tget l k).
Proof using Type. clear. unfold tget. case_match; [|done]. apply list_lookup_fmap. Qed.

Definition evex_mask (a : Z) : Prop := bits 14 a /\ Z.testbit a 8 = true.

Lemma evex_context a t : evex_mask a -> exists c, x86DisassemblerContexts a = Some c /\ tget (indextable t) c = Some 0.
Proof using Type.
  clear. intros [Ha Hb]. unfold bits in Ha. change (2 ^ 14) with 16384 in Ha. change 8 with (3 + 5) in Hb.
  rewrite <- Z.shiftr_spec, Z.shiftr_div_pow2 in Hb by lia. change (2 ^ 5) with 32 in Hb.
  assert (0 <= a / 32 < 512) by (split; [apply Z.div_pos; lia|apply Z.div_lt_upper_bound; lia]).
  pose proof (proj1 (forallb_forall _ _) evex_contexts (Z.to_nat (a / 32)) ltac:(apply in_seq; lia)) as H'. cbn beta in H'.
  rewrite Z2Nat.id, Hb in H' by lia. cbn [negb orb] in H'. unfold x86DisassemblerContexts.
  destruct (tget context_index (a / 32)) as [r|]; [|done]. rewrite tget_map in H'.
  destruct (tget context_rows r) as [row|] eqn:Er; [|done]. cbn in H'.
  pose proof (tget_all _ _ _ _ context_rows_full Er) as Hl. apply Nat.eqb_eq in Hl.
  pose proof (Z.mod_pos_bound a 32 ltac:(lia)).
  destruct (tget_range row (a mod 32)) as [c Ec]; [rewrite Hl; lia|]. exists c. split; [done|].
  destruct (type_tables t) as (t' & Hin & -> & _). pose proof (tget_all _ _ _ _ H' Ec) as Hc.
  pose proof (proj1 (forallb_forall _ _) Hc t' Hin) as Hx. cbn beta in Hx. destruct (tget _ c); [|done]. by apply Z.eqb_eq in Hx as ->.
Qed.

Lemma evex_id a i : evex_mask a -> 0 <= i opcode < 256 -> getIDWithAttrMask reader a i = Good 0 i.
Proof using Type.
  clear. intros Ha Ho. unfold getIDWithAttrMask, contextForAttrs, modRMRequired, decode.
  unfold dbind at 1. unfold get at 1. cbv beta iota. set (t := i opcodeType).
  assert (exists c, (if t =? T3DNOW_MAP then dret IC_OF else entry_of (x86DisassemblerContexts a)) i = Good c i /\
    tget (indextable t) c = Some 0) as (c & E1 & E2).
  { destruct (Z.eqb_spec t T3DNOW_MAP) as [E|]; [rewrite E; exists IC_OF; split; [done|by vm_compute]|].
    destruct (evex_context a t Ha) as (c & E1 & E2). exists c. by rewrite E1. }
  unfold dbind at 1. rewrite E1. cbv beta iota. rewrite E2. unfold dbind, get, entry_of at 1 2, dret. cbn [truth Z.eqb negb].
  unfold decision. rewrite (proj2 (Z.leb_le _ _)), (proj2 (Z.ltb_lt _ _)) by lia. reflexivity.
Qed.

Lemma evex_mask_lor a b c : bits 14 a -> bits 14 c -> evex_mask b -> evex_mask (a .| b .| c).
Proof using Type. clear. intros Ha Hc [Hb Hb8]. split; [by repeat (apply bits_lor; [lia| |])|]. by rewrite !Z.lor_spec, Hb8, orb_true_r. Qed.
Lemma evex_mask_or a b : evex_mask a -> bits 14 b -> evex_mask (a .| b).
Proof using Type. clear. intros [Ha Ha8] Hb. split; [by apply bits_lor|]. by rewrite Z.lor_spec, Ha8. Qed.
Lemma evex_mask_lxor a b : evex_mask a -> bits 14 b -> Z.testbit b 8 = false -> evex_mask (Z.lxor a b).
Proof using Type. clear. intros [Ha Ha8] Hb Hb8. split; [by apply bits_lxor|]. by rewrite Z.lxor_spec, Ha8, Hb8. Qed.

Lemma evex_attrs i : i vectorExtensionType = TYPE_EVEX -> exists a, evex_mask a /\ vector_attrs TYPE_EVEX i = Good a i.
Proof using Type.
  clear. intros E. unfold vector_attrs, dbind, get, dret. rewrite Z.eqb_refl. eexists. split; [|done]. split.
  - repeat first [apply pp_attr_bits | apply attr_if_bits | apply bits_lor; [lia| |]]; by vm_compute.
  - rewrite !Z.lor_spec. reflexivity.
Qed.

Lemma evex_unnamed i :
  i vectorExtensionType = TYPE_EVEX -> 0 <= i opcode < 256 ->
  wp (fun _ => True) (getID reader) (fun _ j => j instructionID = 0) i.
Proof using Type.
  clear. intros Hv Ho. destruct (evex_attrs i Hv) as (a & Ha & Ea). unfold getID. do 2 apply wp_bind, wp_get.
  rewrite Hv. cbn [negb Z.eqb Pos.eqb TYPE_EVEX TYPE_NO_VEX_XOP]. apply wp_bind. unfold wp at 1. rewrite Ea. apply wp_bind, wp_get.
  cbv zeta. set (m := _ .| a .| _). assert (evex_mask m) as Hm.
  { apply evex_mask_lor; [case_match; by vm_compute|by apply attr_if_bits|done]. }
  clearbody m. apply wp_bind. unfold wp at 1. rewrite (evex_id m i Hm Ho). do 2 apply wp_bind, wp_get.
  set (fc := _ && _ && _). set (m1 := if fc then _ else m).
  assert (evex_mask m1) as Hm1 by (subst m1; case_match; [by apply evex_mask_lxor; vm_compute|done]).
  clearbody m1. apply wp_bind. assert ((if fc then getIDWithAttrMask reader m1 else dret 0) i = Good 0 i) as E1.
  { destruct fc; [by apply evex_id|done]. }
  unfold wp at 1. rewrite E1. clear E1. clearbody fc. apply wp_bind.
  set (jd := if _ && _ then _ else _). assert (exists fj, jd i = Good fj i) as (fj & E1).
  { subst jd. destruct (_ && _); eexists; reflexivity. }
  unfold wp at 1. rewrite E1. clear E1 jd. set (m2 := if fj then _ else m1).
  assert (evex_mask m2) as Hm2 by (subst m2; case_match; [by apply evex_mask_lxor; vm_compute|done]).
  clearbody m2. apply wp_bind. assert ((if fj then getIDWithAttrMask reader m2 else dret 0) i = Good 0 i) as E1.
  { destruct fj; [by apply evex_id|done]. }
  unfold wp at 1. rewrite E1. clear E1. apply wp_bind, wp_get. destruct (_ && negb _); [|destruct (_ && truth _)].
  - unfold opsize_form. apply wp_bind. unfold wp at 1, attempt. rewrite evex_id; [|by apply evex_mask_or|done].
    assert (exists b, is16BitEquivalent 0 0 i = Good b i) as [b Eb] by (eexists; reflexivity).
    apply wp_bind. unfold wp at 1. rewrite Eb. do 2 apply wp_bind, wp_get. by destruct (b && _).
  - unfold xchg_form. apply wp_bind, wp_set, wp_bind. unfold wp at 1, attempt. rewrite evex_id; [done|done|]. by rewrite put_eq.
  - done.
Qed.
(** ** Prefixes and opcode, with the position of the cursor *)

(** No ModR/M byte is read yet; the size of registers is known once the prefixes
    are read. *)
Definition opening (sized : bool) : stage :=
  mk_stage 0 None (fun i => i consumedModRM = 0 /\ (sized = true -> In (i registerSize) [2; 4; 8])).
Definition writes (n : stage) (f : field) : Prop := forall v i, related n i -> related n (put i f v).
Lemma opening_writes sized f : f <> consumedModRM -> (sized = true -> f <> registerSize) -> writes (opening sized) f.
Proof using Type.
  clear. intros H1 H2 v i [H3 H4]. split; [by rewrite put_ne by congruence|]. intros Hs. rewrite put_ne; [by apply H4|].
  intros E. by apply (H2 Hs).
Qed.

Section moving.
Context (sized : bool).
Let n := opening sized.

Definition at_ (k : Z) (i : insn) : Prop := 0 <= k <= N /\ i readerCursor = u64 (start + k).
Definition moves {A} (k : Z) (d : D A) (R : A -> Z -> Prop) : Prop :=
  forall i, fits n i -> at_ k i -> wp (fits n) d (fun a j => fits n j /\ exists k', at_ k' j /\ R a k') i.

Lemma moves_bind {A C} k (d : D A) (h : A -> D C) R S :
  moves k d R -> (forall a k', 0 <= k' <= N -> R a k' -> moves k' (h a) S) -> moves k (dbind d h) S.
Proof using Type.
  intros H1 H2 i Hi Hk. apply wp_bind. eapply wp_mono; [by apply H1|]. intros a j (Hj & k' & Hk' & Ha).
  apply (H2 a k'); [apply Hk'|done..].
Qed.
Lemma moves_weaken {A} k (d : D A) (R S : A -> Z -> Prop) :
  moves k d R -> (forall a k', 0 <= k' <= N -> R a k' -> S a k') -> moves k d S.
Proof using Type.
  intros H HR i Hi Hk. eapply wp_mono; [by apply H|]. intros a j (Hj & k' & Hk' & Ha). split; [done|].
  exists k'. split; [done|]. apply HR; [apply Hk'|done].
Qed.
Lemma moves_intro {A} k (d : D A) R : (0 <= k <= N -> moves k d R) -> moves k d R.
Proof using Type. intros H i Hi Hk. destruct Hk as [Hk E]. by apply H. Qed.
Lemma moves_ret {A} k (a : A) (R : A -> Z -> Prop) : R a k -> moves k (dret a) R.
Proof using Type. intros H i Hi Hk. split; [done|]. by exists k. Qed.
Lemma moves_get k f : moves k (get f) (fun v k' => k' = k /\ bound n f v).
Proof using Type. intros i Hi Hk. split; [done|]. exists k. split; [done|]. split; [done|]. apply Hi. Qed.
Lemma moves_set k f v :
  f <> readerCursor -> f <> consumedModRM -> (sized = true -> f <> registerSize) -> bound n f v ->
  moves k (set f v) (fun _ k' => k' = k).
Proof using Type.
  intros Hf H1 H2 Hv i Hi Hk. split; [apply fits_put'; [done|done|]; apply (opening_writes sized f H1 H2); apply Hi|]. exists k. split; [|done]. destruct Hk. split; [done|].
  by rewrite put_ne by congruence.
Qed.
Lemma cursor_bound m k : passed m <= k <= N -> bound m readerCursor (u64 (start + k)).
Proof using Type. clear. intros Hk. split; [apply (wrap_range 64); lia|]. by exists k. Qed.
Lemma framed_opening : framed n.
Proof using Type.
  clear. split; [done|]. intros f v i Hf. apply opening_writes; [by intros ->|by intros _ ->].
Qed.
Lemma moves_consume k : moves k (consumeByte reader) (fun b k' => k' = k + 1 /\ 0 <= b < 256).
Proof using All.
  intros i Hi [Hk E]. unfold wp, consumeByte. rewrite E. destruct (reader _) as [b|] eqn:Er; [|exact Hi].
  pose proof (reader_inside k b ltac:(lia) Er). rewrite wrap_add_l by lia. rewrite <- Z.add_assoc.
  split; [apply (fits_put n framed_opening); [done|done|]; apply cursor_bound; cbn [passed n opening]; lia|]. exists (k + 1). split; [|split; [done|by eapply reader_byte]].
  split; [lia|apply put_eq].
Qed.
Lemma moves_look k : moves k (lookAtByte reader) (fun b k' => k' = k /\ k < N /\ 0 <= b < 256).
Proof using All.
  intros i Hi [Hk E]. unfold wp, lookAtByte. rewrite E. destruct (reader _) as [b|] eqn:Er; [|exact Hi].
  split; [done|]. exists k. split; [done|]. split; [done|]. split; [eapply reader_inside; [|done]; lia|by eapply reader_byte].
Qed.
Lemma moves_unconsume k : 1 <= k -> moves k unconsumeByte (fun _ k' => k' = k - 1).
Proof using Type.
  intros H1 i Hi [Hk E]. unfold wp, unconsumeByte, get, set, dbind. rewrite E.
  replace (u64 (u64 (start + k) - 1)) with (u64 (start + (k - 1))).
  - split; [apply (fits_put n framed_opening); [done|done|]; apply cursor_bound; cbn [passed n opening]; lia|]. exists (k - 1). split; [|done]. split; [lia|apply put_eq].
  - change (u64 (start + k) - 1) with (u64 (start + k) + -1). rewrite wrap_add_l by lia. f_equal. lia.
Qed.


Ltac step1 :=
  lazymatch goal with
  | |- moves _ (get _) _ => apply moves_get
  | |- moves _ (set _ _) _ => apply moves_set; [discriminate|discriminate|intros _; discriminate|bound_tac]
  | |- moves _ (consumeByte _) _ => apply moves_consume
  | |- moves _ (lookAtByte _) _ => apply moves_look
  | |- moves _ unconsumeByte _ => apply moves_unconsume; lia
  | |- _ => solve [eauto 2 with moves]
  end.
Ltac move1 :=
  eapply moves_bind;
    [ step1
    | let a := fresh "v" in let k := fresh "p" in intros a k ?; cbn beta;
      lazymatch goal with
      | |- _ = _ /\ _ -> _ => intros [-> ?]
      | |- _ = _ -> _ => intros ->
      | |- _ -> _ => intros ?
      end ].
Ltac has_bound := repeat lazymatch goal with
  | H : bound _ _ _ |- _ => let H' := fresh "Hb" in destruct H as [H H']; unfold has_type in H; cbn [ctype fst snd] in H; cbn beta iota in H'
  end.
Ltac last_move :=
  lazymatch goal with
  | |- moves _ (dret _) _ => apply moves_ret; cbn beta
  | |- moves _ _ _ => eapply moves_weaken; [step1|]; cbn beta
  end.

Lemma moves_skip_rex fuel k byte :
  N - k < Z.of_nat fuel -> 0 <= byte < 256 ->
  moves k (skip_rex reader fuel byte) (fun r k' => k <= k' /\ 0 <= r.1 < 256 /\ 0 <= r.2 < 256).
Proof using All.
  revert k byte. induction fuel as [|f IH]; intros k byte Hf Hb.
  { intros i Hi [Hk _]. lia. }
  cbn [skip_rex]. move1. destruct (is_rex v).
  - move1. eapply moves_weaken; [apply IH; lia|]. intros r k' ? (? & ? & ?). cbn beta. lia.
  - apply moves_ret. cbn [fst snd]. lia.
Qed.

Lemma moves_drop_rex fuel k : N - k < Z.of_nat fuel -> moves k (drop_rex reader fuel) (fun _ k' => k <= k').
Proof using All.
  intros Hf. apply moves_intro. intros Hk. unfold drop_rex. move1. destruct (is_rex v).
  - eapply moves_bind; [apply moves_skip_rex; lia|]. intros [b x] k' ? (? & ? & ?).
    destruct (legacy x); last_move; [lia|]. intros; lia.
  - last_move. intros; lia.
Qed.


Lemma moves_hle_hint k byte : moves k (hle_hint reader byte) (fun _ k' => k' = k).
Proof using All.
  unfold hle_hint. move1. apply (moves_bind k _ _ (fun _ k' => k' = k)); [destruct (_ || _); last_move; try done; auto|].
  intros _ ? _ ->. apply (moves_bind k _ _ (fun _ k' => k' = k)); [destruct (_ && _); last_move; try done; auto|].
  intros _ ? _ ->. move1. destruct (_ && _); [|by apply moves_ret]. move1. move1. last_move. intros; lia.
Qed.

Lemma segment_range b : 0 <= segment_of b < 7.
Proof using Type. clear. unfold segment_of. repeat case_match; by vm_compute. Qed.


Lemma moves_setPrefixPresent k p l : bits 64 l -> moves k (setPrefixPresent p l) (fun _ k' => k' = k).
Proof using All. intros Hl. unfold setPrefixPresent. destruct (legacy p); [|by apply moves_ret]. move1. last_move. auto. Qed.
Hint Resolve moves_setPrefixPresent : moves.

Lemma moves_note_prefix k byte l :
  0 <= byte < 256 -> bits 64 l -> moves k (note_prefix byte l) (fun _ k' => k' = k).
Proof using All.
  intros Hb Hl. pose proof (segment_range byte). unfold note_prefix. repeat case_match; repeat move1; by last_move.
Qed.

Lemma moves_legacy_loop fuel k op ad :
  N - k < Z.of_nat fuel ->
  moves k (legacy_loop reader fuel op ad) (fun r k' => k + 1 <= k' /\ 0 <= r.1.1 < 256).
Proof using All.
  revert k op ad. induction fuel as [|f IH]; intros k op ad Hf.
  { intros i Hi [Hk _]. lia. }
  cbn [legacy_loop]. move1.
  apply (moves_bind k _ _ (fun _ k' => k <= k')).
  { destruct (_ =? _); [by apply moves_drop_rex|apply moves_ret; lia]. }
  intros _ k1 Hk1 Hle. move1. has_bound. move1. move1. move1.
  apply (moves_bind (k1 + 1) _ _ (fun _ k' => k' = k1 + 1)).
  { destruct (_ && _); [apply moves_hle_hint|by apply moves_ret]. }
  intros _ ? _ ->. eapply moves_bind; [by apply moves_note_prefix|]. intros [[found op'] ad'] ? _ ->.
  destruct found.
  - eapply moves_weaken; [apply IH; lia|]. intros r k' ? ?. cbn beta in *. lia.
  - apply moves_ret. cbn [fst snd]. lia.
Qed.


Lemma moves_set_necessary k x : moves k (set_necessary x) (fun _ k' => k' = k).
Proof using All. unfold set_necessary. move1. last_move. auto. Qed.
Lemma moves_simulate_rex k w r x b : moves k (simulate_rex w r x b) (fun _ k' => k' = k).
Proof using All. unfold simulate_rex. move1. destruct (_ =? _); last_move; auto. Qed.
Hint Resolve moves_set_necessary moves_simulate_rex : moves.

Lemma moves_read_vector3 k byte : 0 <= byte < 256 -> moves k (read_vector3 reader byte) (fun _ k' => k <= k').
Proof using All. intros Hb. unfold read_vector3. do 8 move1. last_move. lia. Qed.

Lemma moves_read_evex k byte : 1 <= k -> 0 <= byte < 256 -> moves k (read_evex reader byte) (fun _ k' => k - 1 <= k').
Proof using All.
  intros Hk Hb. unfold read_evex. move1. move1. destruct (_ && _); [move1; destruct (_ =? _)|].
  - do 10 move1. last_move. lia.
  - do 3 move1. last_move. lia.
  - do 2 move1. last_move. lia.
Qed.
Lemma moves_read_vex3 k byte : 1 <= k -> 0 <= byte < 256 -> moves k (read_vex3 reader byte) (fun _ k' => k - 1 <= k').
Proof using All.
  intros Hk Hb. unfold read_vex3. move1. move1. destruct (_ || _).
  - do 2 move1. eapply moves_weaken; [by apply moves_read_vector3|]. cbn beta. lia.
  - do 2 move1. last_move. lia.
Qed.
Lemma moves_read_vex2 k byte : 1 <= k -> 0 <= byte < 256 -> moves k (read_vex2 reader byte) (fun _ k' => k - 1 <= k').
Proof using All. intros Hk Hb. unfold read_vex2. move1. move1. destruct (_ || _); repeat move1; last_move; lia. Qed.
Lemma moves_read_xop k byte : 1 <= k -> 0 <= byte < 256 -> moves k (read_xop reader byte) (fun _ k' => k - 1 <= k').
Proof using All.
  intros Hk Hb. unfold read_xop. move1. destruct (negb _).
  - do 2 move1. eapply moves_weaken; [by apply moves_read_vector3|]. cbn beta. lia.
  - do 2 move1. last_move. lia.
Qed.
Lemma moves_read_rex fuel k byte :
  N - k < Z.of_nat fuel -> 1 <= k -> 0 <= byte < 256 -> moves k (read_rex reader fuel byte) (fun _ k' => k - 1 <= k').
Proof using All.
  intros Hf Hk Hb. unfold read_rex. move1. destruct (_ && _).
  - eapply moves_bind; [by apply moves_skip_rex|]. intros [b x] k' ? (? & Hr & ?). cbn [fst snd] in *. move1. last_move. lia.
  - move1. last_move. lia.
Qed.

Lemma moves_read_vector fuel k byte :
  N - k < Z.of_nat fuel -> 1 <= k -> 0 <= byte < 256 -> moves k (read_vector reader fuel byte) (fun _ k' => k - 1 <= k').
Proof using All.
  intros Hf Hk Hb. unfold read_vector. move1.
  destruct (byte =? 0x62); [by apply moves_read_evex|]. destruct (byte =? 0xc4); [by apply moves_read_vex3|].
  destruct (byte =? 0xc5); [by apply moves_read_vex2|]. destruct (byte =? 0x8f); [by apply moves_read_xop|].
  eapply moves_bind; [by apply moves_read_rex|]. intros [] k' ? ?. by apply moves_ret.
Qed.

Lemma moves_bad {A} k (R : A -> Z -> Prop) : moves k dbad R.
Proof using Type. intros i Hi Hk. exact Hi. Qed.
Lemma moves_consumeOpcode k t : bits 32 t -> moves k (consumeOpcode reader t) (fun _ k' => k + 1 <= k').
Proof using All. intros Ht. unfold consumeOpcode. do 2 move1. last_move. lia. Qed.
Hint Extern 1 (moves _ (consumeOpcode _ _) _) => apply moves_consumeOpcode; by vm_compute : moves.

(** The opcode takes at least a byte. *)
Lemma moves_readOpcode k : moves k (readOpcode reader) (fun _ k' => k + 1 <= k').
Proof using All.
  unfold readOpcode. do 3 move1. destruct (oneof _ _).
  - unfold vector_opcode. move1. repeat case_match; repeat move1; first [apply moves_bad | last_move; lia].
  - unfold legacy_opcode. do 2 move1. repeat case_match.
    + do 2 move1. repeat case_match; repeat move1; last_move; lia.
    + last_move. lia.
Qed.


End moving.
Lemma set_all_sizes_spec r a d im ims i :
  fits (opening false) i -> In r [2; 4; 8] -> In a [2; 4; 8] -> In d [2; 4; 8] -> In im [2; 4; 8] -> In ims [2; 4; 8] ->
  wp (fits (opening false)) (set_all_sizes r a d im ims)
    (fun _ j => fits (opening true) j /\ j readerCursor = i readerCursor) i.
Proof using Type.
  clear. intros [Hi [Hc _]] Hr Ha Hd Him Hims. unfold set_all_sizes. do 4 apply wp_bind, wp_set. apply wp_set.
  split; [|by put_simpl]. split; [|split; [by put_simpl|by put_simpl]].
  assert (forall v, In v [2; 4; 8] -> 0 <= v < 2 ^ 8) as Hv by (intros v [<-|[<-|[<-|[]]]]; lia).
  intros f. unfold put. repeat case_decide; subst; try (split; [by apply Hv|done]). apply (Hi f).
Qed.

Lemma set_sizes_spec k op ad i :
  0 <= md < 3 -> fits (opening false) i -> at_ k i ->
  wp (fits (opening false)) (set_sizes op ad) (fun _ j => fits (opening true) j /\ at_ k j) i.
Proof using Type.
  clear start_range N_range. intros Hm Hi [Hk Hc]. unfold set_sizes. apply wp_bind, wp_get.
  destruct (proj1 Hi mode) as [_ ->]. autounfold with x86enum.
  assert (forall r a d im ims, In r [2; 4; 8] -> In a [2; 4; 8] -> In d [2; 4; 8] -> In im [2; 4; 8] -> In ims [2; 4; 8] ->
    wp (fits (opening false)) (set_all_sizes r a d im ims) (fun _ j => fits (opening true) j /\ at_ k j) i) as Hset.
  { intros. eapply wp_mono; [by apply set_all_sizes_spec|]. intros [] j [Hj Ej]. by split; [|split; [|rewrite Ej]]. }
  assert (md = 0 \/ md = 1 \/ md = 2) as [-> | [-> | ->]] by lia; cbn [Z.eqb Pos.eqb]; cbv zeta.
  - destruct op, ad; apply Hset; simpl; tauto.
  - destruct op, ad; apply Hset; simpl; tauto.
  - apply wp_bind, wp_get. destruct (_ && _); [|destruct (truth _)]; destruct op, ad; apply Hset; simpl; tauto.
Qed.

Lemma readPrefixes_spec fuel i :
  0 <= md < 3 -> N < Z.of_nat fuel -> fits (opening false) i -> i readerCursor = start ->
  wp (fits (opening false)) (readPrefixes reader fuel) (fun _ j => fits (opening true) j /\ exists k, at_ k j) i.
Proof using All.
  intros Hm Hf Hi Hc. assert (at_ 0 i) as H0.
  { split; [lia|]. rewrite Hc, Z.add_0_r. symmetry. apply wrap_small; lia. }
  unfold readPrefixes. apply wp_bind. eapply wp_mono; [by apply (moves_set_necessary false)|].
  intros [] i1 (Hi1 & k0 & H1 & E0). subst k0. apply wp_bind.
  eapply wp_mono; [apply (moves_legacy_loop false fuel 0); [lia|done..]|].
  intros [[byte op] ad] i2 (Hi2 & k & H2 & Hk & Hb). cbn [fst snd] in Hb. apply wp_bind.
  eapply wp_mono; [apply (moves_read_vector false fuel k); [lia|lia|done|done|done]|].
  intros op' i3 (Hi3 & k3 & H3 & _). eapply wp_mono; [by apply (set_sizes_spec k3)|]. intros [] j [? ?]. split; [done|by exists k3].
Qed.

(** The state at the start of a decoding. *)
Definition ready (junk : insn) : insn := put (put (put (zeroed junk) startLocation start) readerCursor start) mode md.

Lemma ready_fits junk : typed junk -> 0 <= md < 3 -> fits (opening false) (ready junk).
Proof using start_range N_range.
  intros Hj Hm. split; [|split; [|done]].
  - intros f. unfold ready, put, zeroed. repeat case_decide; subst.
    + split; [|done]. unfold has_type; cbn [ctype fst snd]; lia.
    + split; [unfold has_type; cbn [ctype fst snd]; lia|]. exists 0. split; [cbn; lia|]. rewrite Z.add_0_r. symmetry. by apply wrap_small.
    + split; [|done]. unfold has_type; cbn [ctype fst snd]; lia.
    + pose proof (Hj f) as Ht. split; [|by destruct f]. destruct f; cbn [cleared]; unfold has_type in *; cbn [ctype fst snd] in *; done || lia.
  - unfold ready. by put_simpl.
Qed.

(** The facts before the instruction is named. *)
Definition opened (ev : bool) : facts := mk_facts ev false false None.
Lemma opened_fits ev k i :
  0 <= k -> fits (opening true) i -> at_ k i -> (ev = false -> i vectorExtensionType <> TYPE_EVEX) ->
  fits (staged k None (opened ev)) i.
Proof using Type.
  clear. intros Hk [Hi [Hc Hr]] [Hat E] Hv. split.
  - intros f. destruct (Hi f) as [H1 H2]. split; [done|]. destruct f; try done. exists k. split; [cbn; lia|done].
  - split; [|split; [intros E'; congruence|done]]. split; [by apply Hr|]. by split.
Qed.
(** The end of a decoding: the instruction of [id] with the operands [ops]. *)
Definition finished_as (id s : Z) (ops : list (Z * Z)) (x : facts) (i : insn) : Prop :=
  (1 <= id /\ known id) /\ specOperands id = Some s /\ tget x86OperandSets s = Some ops /\ established ops x /\
  fits (staged 1 (Some id) x) i /\ i operands = s /\ 1 <= i length_ <= 15 /\ i length_ <= N /\
  i readerCursor = u64 (start + i length_).
Definition finished (i : insn) : Prop := exists id s ops x, finished_as id s ops x i.

Lemma length_of_cursor k n i :
  0 <= k -> passed n = k -> fits n i ->
  k <= u64 (i readerCursor - start) <= N /\ i readerCursor = u64 (start + u64 (i readerCursor - start)).
Proof using N_range.
  intros Hk En Hi. destruct (proj1 Hi readerCursor) as (_ & c & Hc & ->). rewrite En in Hc.
  assert (u64 (u64 (start + c) - start) = c) as E.
  { change (u64 (start + c) - start) with (u64 (start + c) + - start). rewrite wrap_add_l by lia.
    replace (start + c + - start) with c by lia. apply wrap_small; lia. }
  by rewrite E.
Qed.

Lemma loose_le k k' i : k' <= k -> fits (loose k) i -> fits (loose k') i.
Proof using Type.
  clear. intros Hk [H _]. split; [|done]. intros f. destruct (H f) as [H1 H2]. split; [done|]. destruct f; try done.
  cbn in *. destruct H2 as (c & Hc & E). exists c. split; [lia|done].
Qed.

Lemma operands_total id :
  0 <= id < 1671 -> exists s ops, specOperands id = Some s /\ tget x86OperandSets s = Some ops /\ 0 <= s < 164.
Proof using Type.
  clear. intros Hid. destruct table_lengths as (_ & _ & _ & H1 & H2 & _).
  destruct (tget_range x86DisassemblerInstrSpecifiers id) as [s E]; [lia|].
  pose proof (proj1 (within_iff _ _) (tget_all _ _ _ _ specifiers_inside E)) as Hs.
  destruct (tget_range x86OperandSets s) as [ops Es]; [lia|]. by exists s, ops.
Qed.

(** From the operands on. *)
Definition conclude : D unit :=
  readOperands reader ;&
  let& c := get readerCursor in
  let& start := get startLocation in
  set length_ (u64 (c - start)) ;&
  let& len := get length_ in
  if 15 <? len then dbad
  else
    let& os := get operandSize in
    let& rs := get registerSize in
    (if os =? 0 then set operandSize rs else dret tt) ;&
    let& s := get spec in
    let& o := entry_of (specOperands s) in
    set operands o.

Lemma conclude_spec id i :
  1 <= id -> known id -> fits (staged 1 (Some id) (begin false)) i -> wp (fits (loose 0)) conclude (fun _ j => finished j) i.
Proof using All.
  intros Hid Hkn Hi. destruct (operands_total id (proj1 Hkn)) as (s & ops & Hs & Ho & Hs164).
  apply wp_bind. eapply wp_weaken; [by apply (readOperands_spec 1 id s ops)|intros j; apply loose_le; lia|].
  intros [] i5 (x & Hx & H5). pose proof (framed_staged 1 (Some id) x ltac:(lia)) as Hfr.
  destruct (proj1 H5 startLocation) as [_ E5].
  destruct (length_of_cursor 1 (staged 1 (Some id) x) i5 ltac:(lia) eq_refl H5) as [Hn Hcur].
  do 2 apply wp_bind, wp_get. apply wp_bind, wp_set, wp_bind, wp_get. rewrite E5, put_eq.
  set (n := u64 (i5 readerCursor - start)) in *.
  assert (fits (staged 1 (Some id) x) (put i5 length_ n)) as H6.
  { apply fits_put; [done|done|done|]. split; [|done]. apply (wrap_range 64). lia. }
  destruct (Z.ltb_spec 15 n) as [|H15]; [apply (loose_le 1); [lia|]; by eapply fits_loose|].
  do 2 apply wp_bind, wp_get. apply wp_bind.
  apply (wp_mono _ _ (fun _ j => fits (staged 1 (Some id) x) j /\ j length_ = n /\ j readerCursor = i5 readerCursor)).
  { destruct (_ =? 0).
    - apply wp_set. split; [|by put_simpl]. apply fits_put; [done|done|done|]. destruct (proj1 H6 registerSize) as [Hr _]. by split.
    - split; [done|by put_simpl]. }
  intros [] i7 (H7 & El & Ec). apply wp_bind, wp_get. destruct (proj1 H7 spec) as (_ & -> & _). rewrite Hs.
  apply wp_bind. apply wp_set. exists id, s, ops, x. unfold finished_as. put_simpl. rewrite El, Ec.
  split_and!; try done; try lia. apply fits_put; [done|done|done|]. split; [unfold has_type; cbn [ctype fst snd]; lia|done].
Qed.

Lemma named_zero k x id i :
  i instructionID = 0 -> fits (staged k (Some id) x) i -> id = 0.
Proof using Type. clear. intros E [H _]. destruct (H instructionID) as [_ [E' _]]. congruence. Qed.

Lemma wp_and {A} E (d : D A) (Q R : A -> insn -> Prop) i :
  wp E d Q i -> wp (fun _ => True) d R i -> wp E d (fun a j => Q a j /\ R a j) i.
Proof using Type. clear. unfold wp. by destruct (d i). Qed.

(** The instruction that [getID] names, if any, has no EVEX prefix. *)
Lemma getID_spec k i :
  0 <= k -> fits (opening true) i -> at_ k i ->
  wp (fits (loose 0)) (getID reader)
    (fun _ j => exists id, known id /\ j instructionID = id /\ fits (loose k) j /\
                           (id <> 0 -> fits (staged k (Some id) (begin false)) j)) i.
Proof using All.
  intros Hk Hi Hat. set (ev := bool_decide (i vectorExtensionType = TYPE_EVEX)).
  assert (fits (staged k None (opened ev)) i) as H1.
  { apply opened_fits; try done. by intros ?%bool_decide_eq_false. }
  pose proof (framed_staged k None (opened ev) Hk) as Hfr.
  pose proof (names_getID _ Hfr (modrm_holds k None (opened ev) Hk) eq_refl i H1) as Hn.
  assert (wp (fun _ => True) (getID reader) (fun _ j => ev = true -> j instructionID = 0) i) as He.
  { destruct (Z.eq_dec (i vectorExtensionType) TYPE_EVEX) as [E|E].
    - eapply wp_mono; [apply evex_unnamed; [done|]|done]. apply (proj1 Hi opcode).
    - assert (ev = false) as -> by by apply bool_decide_eq_false. eapply wp_weaken; [exact Hn|done|done]. }
  eapply wp_weaken; [exact (wp_and _ _ _ _ _ Hn He)| |].
  - intros j Hj. apply (loose_le k); [done|]. by eapply fits_loose.
  - intros [] j [(id & Hj) He']. exists id. destruct (proj1 Hj instructionID) as (_ & E & Hid). split_and!; [done|done|by eapply fits_loose|].
    intros Hid0. destruct ev; [|exact Hj]. by rewrite He' in E.
Qed.

Lemma decode_safe fuel junk :
  typed junk -> 0 <= md < 3 -> N < Z.of_nat fuel ->
  wp (fits (loose 0)) (decodeInstruction reader fuel start md) (fun _ i => finished i) (zeroed junk).
Proof using All.
  intros Hj Hm Hf. unfold decodeInstruction. do 3 apply wp_bind, wp_set.
  pose proof (ready_fits junk Hj Hm) as Hi. fold (ready junk).
  assert (ready junk readerCursor = start) as Hc by (unfold ready; by put_simpl).
  apply wp_bind. eapply wp_weaken; [by apply readPrefixes_spec|intros j; apply fits_loose|]. intros [] i1 [H1 [k1 Hk1]].
  apply wp_bind. eapply wp_weaken; [by apply (moves_readOpcode true k1)|intros j; apply fits_loose|].
  intros [] i2 (H2 & k2 & Hk2 & Hle). assert (0 <= k1) by (destruct Hk1; lia).
  apply wp_bind. eapply wp_mono; [apply (getID_spec k2); [lia|done|done]|]. intros [] i3 (id & Hid & E3 & H3 & H3').
  apply wp_bind, wp_get. rewrite E3. destruct (Z.eqb_spec id 0) as [|Hne]; [apply (loose_le k2); [lia|done]|].
  specialize (H3' Hne). pose proof (framed_staged k2 (Some id) (begin false) ltac:(lia)) as Hfr.
  apply wp_bind. eapply wp_weaken; [by apply (keeps_wp k2 (Some id)), H3'; apply keeps_checkPrefix| |].
  { intros j. apply loose_le. lia. }
  intros bad i4 [H4 _]. destruct bad; [apply (loose_le k2); [lia|]; by eapply fits_loose|].
  apply (conclude_spec id).
  - destruct Hid. lia.
  - done.
  - destruct H4 as [H4 HM]. split; [|done]. intros f. destruct (H4 f) as [Hf1 Hf2]. split; [done|]. destruct f; try done.
    destruct Hf2 as (c & Hc' & E). exists c. split; [cbn in *; lia|done].
Qed.

End safe.

(** ** Theorems *)

(** A reader of [N] bytes from [start] on. *)
Record reads (reader : Z -> option Z) (start N : Z) : Prop := {
  reads_start : 0 <= start < 2 ^ 64;
  reads_size : 0 <= N < 2 ^ 63;
  reads_byte : forall a b, reader a = Some b -> 0 <= b < 256;
  reads_inside : forall k b, 0 <= k <= N -> reader (u64 (start + k)) = Some b -> k < N
}.

Lemma decode_reads reader start N md fuel junk :
  reads reader start N -> typed junk -> 0 <= md < 3 -> N < Z.of_nat fuel ->
  wp (fits start N md (loose 0)) (decodeInstruction reader fuel start md) (fun _ i => finished start N md i) (zeroed junk).
Proof. intros [H1 H2 H3 H4] Hj Hm Hf. by apply decode_safe. Qed.

(** C7: whatever bytes the reader gives, the decoder ends without leaving its tables
    or arrays.  A decoded instruction has between one and 15 bytes, all of them
    there, and the cursor is behind them; its identity and its operands are in the
    tables, its registers too, and it is not one of EVEX.  After an error the cursor
    is not behind the bytes that are there. *)
Theorem decodeInstruction_safe reader start N md fuel junk :
  reads reader start N -> typed junk -> 0 <= md < 3 -> N < Z.of_nat fuel ->
  match decodeInstruction reader fuel start md (zeroed junk) with
  | Good _ i =>
      1 <= i length_ <= Z.min 15 N /\ i readerCursor = u64 (start + i length_) /\
      1 <= i instructionID < 1671 /\ i spec = i instructionID /\
      tget x86DisassemblerInstrSpecifiers (i spec) = Some (i operands) /\
      is_Some (tget x86OperandSets (i operands)) /\
      i vectorExtensionType <> TYPE_EVEX /\ i numImmediatesConsumed <= 2
  | Bad i => exists k, 0 <= k <= N /\ i readerCursor = u64 (start + k)
  | Stuck | OutOfFuel => False
  end.
Proof.
  intros Hr Hj Hm Hf. pose proof (decode_reads reader start N md fuel junk Hr Hj Hm Hf) as H. unfold wp in H.
  destruct (decodeInstruction _ _ _ _ _) as [a i|i| |]; try done; [|by destruct (proj1 H readerCursor) as [_ ?]].
  destruct H as (id & s & ops & x & (Hid & Hid' & Hkn) & Hs & Ho & (has & ->) & Hi & E & Hl & HN & Hc).
  destruct (proj1 Hi instructionID) as (_ & Eid & _). destruct (proj1 Hi spec) as (_ & Es & _).
  rewrite Eid, Es, E. split_and!; try lia; try done; [|apply (proj1 Hi numImmediatesConsumed)].
  destruct (proj1 (proj2 Hi)) as (_ & He & _). apply He. by rewrite after_all_evex.
Qed.

(** A reader of a list of bytes. *)
Definition bytes_reader (start : Z) (l : list Z) : Z -> option Z := fun a => l !! Z.to_nat (u64 (a - start)).
Lemma bytes_reads start l :
  0 <= start < 2 ^ 64 -> Z.of_nat (length l) < 2 ^ 63 -> forallb (within 256) l = true ->
  reads (bytes_reader start l) start (Z.of_nat (length l)).
Proof.
  intros Hs Hl Hb. split; [done|lia| |].
  - intros a b E. apply within_iff. rewrite forallb_forall in Hb. apply Hb, list_elem_of_In. by eapply list_elem_of_lookup_2.
  - intros k b Hk E. apply lookup_lt_Some in E. revert E.
    change (u64 (start + k) - start) with (u64 (start + k) + - start). rewrite wrap_add_l by lia.
    replace (start + k + - start) with k by lia. replace (u64 k) with k by (symmetry; apply wrap_small; lia). lia.
Qed.
Definition blank : insn := fun _ => 0.
Lemma blank_typed : typed blank.
Proof. intros f. by destruct f. Qed.

(** [mov rbp, rsp]. *)
Lemma decodeInstruction_safe_witness :
  match decodeInstruction (bytes_reader 4096 [0x48; 0x89; 0xe5]) 4 4096 MODE_64BIT (zeroed blank) with
  | Good _ i =>
      1 <= i length_ <= Z.min 15 3 /\ i readerCursor = u64 (4096 + i length_) /\
      1 <= i instructionID < 1671 /\ i spec = i instructionID /\
      tget x86DisassemblerInstrSpecifiers (i spec) = Some (i operands) /\
      is_Some (tget x86OperandSets (i operands)) /\
      i vectorExtensionType <> TYPE_EVEX /\ i numImmediatesConsumed <= 2
  | Bad i => exists k, 0 <= k <= 3 /\ i readerCursor = u64 (4096 + k)
  | Stuck | OutOfFuel => False
  end.
Proof.
  apply (decodeInstruction_safe (bytes_reader 4096 [0x48; 0x89; 0xe5]) 4096 3 MODE_64BIT 4 blank).
  - apply (bytes_reads 4096 [0x48; 0x89; 0xe5]); [lia|simpl; lia|reflexivity].
  - apply blank_typed.
  - unfold MODE_64BIT. lia.
  - lia.
Defined.

(** C40: in the reduced configuration the two bytes of an opcode 0F xx, xx neither 38
    nor 3A, are taken for the one-byte opcode xx: the type stays [ONEBYTE].  So
    [syscall], 0F 05, is decoded as the [add eax, imm32] of opcode 05, with the
    four bytes behind it. *)
Theorem two_byte_opcode_lost reader i xx :
  i vectorExtensionType = TYPE_NO_VEX_XOP -> reader (i readerCursor) = Some 0x0f ->
  reader (u64 (i readerCursor + 1)) = Some xx -> xx <> 0x38 -> xx <> 0x3a ->
  (exists j, readOpcode reader i = Good tt j /\ j opcodeType = ONEBYTE /\ j opcode = xx /\ j twoByteEscape = 0x0f) /\
  match decodeInstruction (bytes_reader 0 [0x0f; 0x05; 0x90; 0x90; 0x90; 0x90]) 7 0 MODE_64BIT (zeroed blank),
        decodeInstruction (bytes_reader 0 [0x05; 0x90; 0x90; 0x90; 0x90]) 6 0 MODE_64BIT (zeroed blank) with
  | Good _ j, Good _ k => j length_ = 6 /\ k length_ = 5 /\ j instructionID = k instructionID
  | _, _ => False
  end.
Proof.
  intros Hv H0 H1 Hx1 Hx2. split; [|by vm_compute].
  assert (wp (fun _ => False) (readOpcode reader)
    (fun _ j => j opcodeType = ONEBYTE /\ j opcode = xx /\ j twoByteEscape = 0x0f) i) as H.
  { unfold readOpcode. do 2 apply wp_bind, wp_set. apply wp_bind, wp_get. put_simpl. rewrite Hv.
    cbn [oneof existsb Z.eqb Pos.eqb orb TYPE_NO_VEX_XOP TYPE_EVEX TYPE_VEX_3B TYPE_VEX_2B TYPE_XOP].
    unfold legacy_opcode. apply wp_bind. unfold wp at 1, consumeByte. put_simpl. rewrite H0. apply wp_bind, wp_set.
    cbn [Z.eqb Pos.eqb]. apply wp_bind, wp_set, wp_bind. unfold wp at 1. put_simpl. rewrite H1.
    rewrite (proj2 (Z.eqb_neq _ _) Hx1), (proj2 (Z.eqb_neq _ _) Hx2). apply wp_set. by put_simpl. }
  unfold wp in H. destruct (readOpcode reader i) as [[] j|j| |]; try done. by exists j.
Qed.

Lemma two_byte_opcode_lost_witness :
  let i := put (put blank readerCursor 0) vectorExtensionType TYPE_NO_VEX_XOP in
  (exists j, readOpcode (bytes_reader 0 [0x0f; 0xa2]) i = Good tt j /\ j opcodeType = ONEBYTE /\ j opcode = 0xa2 /\
             j twoByteEscape = 0x0f) /\
  match decodeInstruction (bytes_reader 0 [0x0f; 0x05; 0x90; 0x90; 0x90; 0x90]) 7 0 MODE_64BIT (zeroed blank),
        decodeInstruction (bytes_reader 0 [0x05; 0x90; 0x90; 0x90; 0x90]) 6 0 MODE_64BIT (zeroed blank) with
  | Good _ j, Good _ k => j length_ = 6 /\ k length_ = 5 /\ j instructionID = k instructionID
  | _, _ => False
  end.
Proof.
  intros i. apply (two_byte_opcode_lost (bytes_reader 0 [0x0f; 0xa2]) i 0xa2); [reflexivity..|lia|lia].
Defined.
