(* ===== verification/X86Insns.v ===== *)
(** The table of public ids of the X86 back end of Capstone in the reduced
    configuration (the second [insns] of
    [src/Lilu/capstone/arch/X86/X86Mapping.c]): every opcode of the low level with
    the public id of its instruction, the numbers from
    [X86GenInstrInfo_reduce.inc] and [include/x86.h].  It has all but four of the
    opcodes that the decoder's tables name. *)

From Stdlib Require Import ZArith Lia List Bool.
From stdpp Require Import prelude.
From S2P Require Import Prelude CsUtils X86Tables X86Dec X86DecThm.

Open Scope Z_scope.

Definition insn_pairs : list (Z * Z) :=
  [(0, 0); (20, 1); (21, 2); (22, 3); (23, 4); (28, 6); (29, 6); (30, 6); (31, 6); (32, 6); (33, 6); (34, 6);
   (35, 6); (36, 6); (37, 6); (38, 6); (39, 6); (40, 6); (41, 6); (42, 6); (43, 6); (44, 6); (45, 6); (46, 6);
   (47, 6); (48, 6); (49, 6); (50, 6); (51, 6); (52, 6); (53, 6); (54, 6); (55, 6); (56, 6); (57, 6); (58, 6);
   (59, 6); (60, 6); (61, 6); (62, 7); (63, 7); (64, 7); (65, 7); (66, 8); (67, 8); (68, 8); (69, 8); (70, 8);
   (71, 8); (74, 8); (75, 8); (77, 8); (78, 8); (79, 8); (80, 8); (81, 8); (82, 8); (83, 8); (86, 8); (87, 8);
   (89, 8); (90, 8); (91, 8); (92, 8); (93, 8); (94, 8); (96, 8); (98, 8); (99, 8); (101, 8); (102, 8); (103, 8);
   (104, 8); (105, 8); (106, 8); (107, 8); (108, 8); (109, 8); (114, 18); (115, 18); (116, 18); (117, 18);
   (118, 25); (119, 25); (120, 25); (121, 25); (122, 25); (123, 25); (124, 25); (125, 25); (126, 25); (127, 25);
   (128, 25); (129, 25); (130, 25); (131, 25); (132, 25); (133, 25); (134, 25); (135, 25); (136, 25); (137, 25);
   (138, 25); (139, 25); (140, 25); (141, 25); (142, 25); (143, 25); (144, 25); (145, 25); (146, 25); (147, 25);
   (148, 25); (149, 25); (150, 25); (151, 25); (152, 25); (153, 26); (154, 26); (155, 26); (156, 26); (157, 31);
   (158, 31); (159, 32); (160, 32); (161, 32); (162, 32); (163, 32); (164, 32); (165, 32); (166, 32); (167, 33);
   (168, 33); (169, 33); (170, 33); (171, 34); (172, 34); (173, 34); (174, 34); (175, 35); (176, 35); (177, 35);
   (178, 35); (179, 36); (180, 36); (181, 36); (182, 36); (183, 37); (184, 37); (185, 37); (186, 37); (187, 42);
   (188, 42); (189, 42); (190, 42); (191, 43); (192, 43); (193, 43); (194, 43); (195, 44); (196, 44); (197, 44);
   (198, 44); (199, 45); (200, 45); (201, 45); (202, 45); (203, 46); (204, 46); (205, 46); (206, 46); (207, 47);
   (208, 47); (209, 48); (210, 48); (211, 48); (212, 48); (213, 48); (214, 48); (215, 49); (216, 49); (217, 49);
   (218, 49); (219, 49); (220, 49); (221, 50); (222, 50); (223, 51); (224, 51); (225, 51); (226, 51); (227, 51);
   (228, 51); (229, 51); (230, 51); (231, 51); (232, 51); (233, 51); (234, 51); (235, 52); (236, 52); (237, 52);
   (238, 52); (239, 52); (240, 52); (241, 52); (242, 52); (243, 52); (244, 52); (245, 52); (246, 52); (247, 53);
   (248, 53); (249, 53); (250, 53); (251, 53); (252, 53); (253, 53); (254, 53); (255, 53); (256, 53); (257, 53);
   (258, 53); (259, 54); (260, 54); (261, 54); (262, 54); (263, 54); (264, 54); (265, 54); (266, 54); (267, 54);
   (268, 54); (269, 54); (270, 54); (271, 55); (272, 55); (273, 55); (274, 55); (275, 56); (276, 56); (277, 56);
   (278, 56); (279, 56); (280, 56); (281, 56); (282, 56); (283, 56); (284, 57); (285, 58); (286, 59); (287, 61);
   (288, 62); (289, 63); (290, 65); (291, 66); (292, 67); (293, 68); (294, 69); (295, 69); (296, 69); (297, 69);
   (298, 69); (299, 69); (300, 70); (301, 70); (302, 70); (303, 70); (304, 70); (305, 70); (306, 71); (307, 71);
   (308, 71); (309, 71); (310, 71); (311, 71); (312, 72); (313, 72); (314, 72); (315, 72); (316, 72); (317, 72);
   (318, 75); (319, 75); (320, 75); (321, 75); (322, 75); (323, 75); (324, 77); (325, 77); (326, 77); (327, 77);
   (328, 77); (329, 77); (330, 78); (331, 78); (332, 78); (333, 78); (334, 78); (335, 78); (336, 79); (337, 79);
   (338, 79); (339, 79); (340, 79); (341, 79); (342, 80); (343, 80); (344, 80); (345, 80); (346, 80); (347, 80);
   (348, 83); (349, 83); (350, 83); (351, 83); (352, 83); (353, 83); (354, 85); (355, 85); (356, 85); (357, 85);
   (358, 85); (359, 85); (360, 86); (361, 86); (362, 86); (363, 86); (364, 86); (365, 86); (366, 88); (367, 88);
   (368, 88); (369, 88); (370, 88); (371, 88); (372, 89); (373, 89); (374, 89); (375, 89); (376, 89); (377, 89);
   (378, 90); (379, 90); (380, 90); (381, 90); (382, 90); (383, 90); (384, 92); (385, 92); (386, 92); (387, 92);
   (388, 92); (389, 92); (407, 93); (408, 93); (409, 93); (410, 93); (411, 93); (412, 93); (413, 93); (414, 93);
   (415, 93); (416, 93); (417, 93); (418, 93); (419, 93); (420, 93); (421, 93); (422, 93); (423, 93); (424, 93);
   (425, 93); (426, 93); (427, 93); (428, 93); (429, 93); (430, 93); (431, 93); (432, 93); (433, 93); (434, 93);
   (435, 93); (436, 93); (437, 93); (438, 93); (439, 93); (440, 93); (441, 96); (442, 97); (443, 98); (444, 100);
   (445, 101); (446, 102); (447, 102); (448, 102); (449, 102); (450, 102); (451, 102); (452, 103); (453, 102);
   (454, 102); (455, 111); (456, 111); (457, 112); (458, 130); (459, 131); (460, 132); (461, 133); (462, 134);
   (463, 135); (464, 135); (465, 135); (466, 135); (467, 135); (468, 135); (469, 135); (470, 135); (471, 135);
   (472, 135); (473, 135); (474, 135); (475, 135); (476, 135); (477, 136); (478, 136); (479, 136); (480, 136);
   (481, 136); (482, 136); (483, 136); (484, 136); (492, 152); (493, 156); (494, 156); (495, 156); (496, 156);
   (497, 156); (498, 157); (499, 157); (500, 157); (501, 157); (502, 157); (503, 187); (504, 206); (505, 209);
   (506, 212); (507, 212); (508, 212); (509, 212); (510, 212); (511, 212); (512, 212); (513, 212); (514, 214);
   (515, 214); (516, 214); (517, 214); (518, 214); (519, 214); (520, 214); (521, 214); (522, 214); (523, 214);
   (524, 214); (525, 214); (526, 214); (527, 214); (528, 214); (529, 214); (530, 214); (531, 214); (532, 214);
   (533, 214); (534, 214); (535, 214); (536, 214); (537, 214); (538, 214); (539, 214); (540, 215); (541, 215);
   (542, 215); (543, 215); (544, 215); (545, 215); (546, 216); (547, 216); (548, 216); (549, 216); (550, 216);
   (551, 216); (552, 216); (553, 216); (554, 216); (555, 216); (556, 216); (557, 216); (558, 216); (559, 216);
   (560, 217); (561, 220); (562, 221); (563, 222); (564, 223); (565, 224); (566, 225); (567, 226); (568, 227);
   (569, 227); (570, 228); (571, 229); (572, 229); (573, 230); (574, 230); (575, 231); (576, 231); (577, 232);
   (578, 233); (579, 234); (581, 255); (582, 255); (583, 255); (584, 256); (585, 256); (586, 256); (587, 257);
   (588, 257); (589, 257); (590, 258); (591, 258); (592, 258); (593, 259); (594, 260); (595, 260); (596, 261);
   (597, 261); (598, 261); (599, 262); (600, 262); (601, 262); (602, 263); (603, 263); (604, 263); (605, 264);
   (606, 264); (607, 264); (608, 265); (609, 265); (610, 265); (611, 266); (612, 266); (613, 266); (614, 266);
   (615, 266); (616, 266); (617, 266); (618, 266); (619, 266); (620, 267); (621, 267); (622, 267); (623, 268);
   (624, 268); (625, 268); (626, 269); (627, 269); (628, 269); (629, 270); (630, 270); (631, 270); (632, 271);
   (633, 271); (634, 271); (635, 272); (636, 272); (637, 272); (638, 273); (639, 274); (640, 274); (641, 274);
   (642, 307); (643, 308); (644, 308); (645, 308); (646, 308); (647, 308); (648, 308); (649, 102); (650, 101);
   (651, 102); (652, 102); (653, 102); (654, 103); (655, 311); (656, 311); (657, 315); (658, 315); (659, 315);
   (660, 315); (661, 316); (662, 316); (663, 317); (664, 317); (665, 319); (666, 319); (667, 319); (668, 320);
   (669, 320); (670, 320); (671, 321); (672, 321); (673, 321); (674, 322); (675, 322); (676, 322); (677, 323);
   (678, 323); (679, 324); (680, 324); (681, 8); (682, 8); (683, 8); (684, 8); (685, 8); (686, 8); (687, 8);
   (688, 8); (689, 8); (690, 8); (691, 8); (692, 25); (693, 25); (694, 25); (695, 25); (696, 25); (697, 25);
   (698, 25); (699, 25); (700, 25); (701, 25); (702, 25); (703, 135); (704, 135); (705, 135); (706, 135);
   (707, 216); (708, 216); (709, 216); (710, 216); (711, 325); (712, 325); (713, 325); (714, 325); (715, 325);
   (716, 325); (717, 325); (718, 325); (719, 325); (720, 325); (721, 325); (723, 326); (724, 326); (725, 326);
   (726, 326); (727, 326); (728, 326); (729, 326); (730, 326); (731, 326); (732, 326); (733, 326); (734, 327);
   (735, 327); (736, 327); (737, 327); (738, 327); (739, 327); (740, 327); (741, 327); (742, 327); (743, 327);
   (744, 327); (745, 328); (746, 329); (747, 330); (748, 331); (749, 332); (750, 333); (751, 334); (752, 335);
   (753, 336); (754, 335); (755, 335); (756, 336); (757, 335); (758, 337); (759, 337); (760, 337); (761, 337);
   (762, 337); (763, 337); (764, 338); (765, 338); (766, 338); (767, 339); (768, 339); (769, 340); (770, 340);
   (771, 340); (772, 340); (773, 341); (774, 341); (775, 341); (776, 341); (777, 341); (778, 341); (779, 441);
   (782, 442); (783, 442); (784, 442); (785, 442); (786, 442); (787, 442); (788, 442); (789, 442); (790, 442);
   (791, 442); (792, 442); (793, 442); (794, 442); (795, 442); (796, 442); (797, 442); (798, 442); (799, 442);
   (800, 442); (801, 442); (802, 442); (803, 442); (804, 442); (805, 442); (807, 442); (808, 442); (809, 442);
   (811, 442); (812, 442); (813, 442); (814, 442); (815, 442); (816, 442); (817, 442); (818, 443); (819, 443);
   (820, 443); (821, 443); (822, 442); (823, 442); (824, 442); (825, 442); (826, 442); (827, 443); (828, 443);
   (829, 443); (830, 443); (831, 442); (832, 442); (833, 443); (834, 442); (835, 442); (836, 442); (837, 442);
   (838, 442); (839, 442); (840, 442); (841, 442); (842, 442); (843, 442); (844, 442); (845, 442); (846, 442);
   (847, 442); (848, 442); (849, 442); (850, 442); (851, 442); (852, 442); (853, 442); (854, 442); (855, 444);
   (856, 444); (857, 444); (858, 444); (859, 444); (860, 444); (862, 463); (863, 464); (864, 467); (865, 469);
   (866, 470); (867, 470); (868, 470); (869, 470); (870, 470); (871, 470); (872, 471); (873, 470); (874, 471);
   (875, 470); (876, 470); (877, 471); (878, 470); (879, 474); (880, 474); (881, 474); (882, 474); (883, 474);
   (884, 474); (885, 474); (886, 474); (887, 474); (888, 474); (889, 474); (890, 474); (891, 476); (892, 476);
   (893, 476); (894, 476); (895, 476); (896, 476); (897, 476); (898, 476); (899, 481); (900, 481); (901, 481);
   (902, 481); (903, 486); (904, 486); (905, 486); (906, 486); (907, 486); (908, 486); (909, 486); (910, 486);
   (911, 487); (912, 487); (913, 487); (914, 487); (915, 487); (916, 487); (917, 487); (918, 487); (919, 487);
   (920, 487); (921, 487); (922, 487); (923, 487); (924, 487); (925, 487); (926, 487); (927, 487); (928, 487);
   (929, 487); (930, 487); (931, 487); (932, 487); (933, 487); (934, 487); (935, 487); (936, 487); (937, 487);
   (938, 487); (939, 487); (940, 487); (941, 487); (942, 487); (943, 488); (944, 488); (945, 488); (946, 488);
   (947, 488); (948, 488); (949, 488); (950, 488); (951, 325); (952, 325); (953, 325); (954, 325); (955, 325);
   (956, 325); (957, 325); (958, 325); (959, 325); (960, 325); (961, 325); (962, 325); (963, 325); (964, 325);
   (965, 325); (966, 325); (967, 325); (968, 325); (969, 325); (970, 325); (971, 325); (972, 325); (973, 325);
   (974, 325); (975, 325); (976, 325); (977, 325); (978, 325); (979, 325); (980, 325); (981, 325); (982, 325);
   (983, 325); (984, 325); (985, 325); (986, 325); (987, 489); (988, 489); (989, 489); (990, 489); (991, 489);
   (992, 489); (993, 490); (994, 491); (995, 492); (996, 505); (997, 505); (998, 505); (999, 505); (1000, 506);
   (1001, 506); (1002, 506); (1003, 506); (1004, 558); (1005, 558); (1006, 558); (1007, 558); (1008, 558);
   (1009, 558); (1010, 558); (1011, 558); (1012, 558); (1013, 559); (1014, 560); (1015, 558); (1016, 558);
   (1017, 558); (1018, 558); (1019, 562); (1020, 563); (1021, 564); (1022, 558); (1023, 558); (1024, 558);
   (1025, 558); (1026, 558); (1027, 558); (1028, 558); (1029, 558); (1030, 580); (1031, 580); (1032, 580);
   (1033, 580); (1034, 580); (1035, 580); (1036, 580); (1037, 580); (1038, 580); (1039, 580); (1040, 580);
   (1041, 580); (1042, 580); (1043, 580); (1044, 581); (1045, 582); (1046, 580); (1047, 580); (1048, 580);
   (1049, 580); (1050, 580); (1051, 580); (1052, 583); (1053, 584); (1054, 585); (1055, 580); (1056, 580);
   (1057, 580); (1058, 580); (1059, 580); (1060, 580); (1061, 580); (1062, 580); (1063, 580); (1064, 580);
   (1065, 586); (1066, 586); (1067, 586); (1068, 586); (1069, 586); (1070, 586); (1071, 586); (1072, 586);
   (1073, 586); (1074, 586); (1075, 586); (1076, 586); (1077, 586); (1078, 586); (1079, 586); (1080, 586);
   (1081, 586); (1082, 586); (1083, 586); (1084, 586); (1085, 586); (1086, 586); (1087, 586); (1088, 586);
   (1089, 589); (1090, 589); (1091, 589); (1092, 589); (1093, 589); (1094, 589); (1095, 589); (1096, 589);
   (1097, 589); (1098, 589); (1099, 589); (1100, 589); (1101, 589); (1102, 589); (1103, 589); (1104, 589);
   (1105, 589); (1106, 589); (1107, 589); (1108, 589); (1109, 589); (1110, 589); (1111, 589); (1112, 589);
   (1113, 590); (1114, 590); (1115, 591); (1116, 591); (1117, 592); (1118, 593); (1119, 594); (1120, 594);
   (1121, 594); (1122, 595); (1123, 595); (1124, 595); (1125, 596); (1126, 597); (1147, 149); (1148, 149);
   (1149, 149); (1150, 149); (1151, 149); (1152, 149); (1154, 598); (1155, 598); (1156, 598); (1157, 598);
   (1158, 598); (1159, 598); (1160, 598); (1161, 598); (1162, 598); (1163, 598); (1164, 598); (1165, 598);
   (1166, 598); (1167, 598); (1168, 598); (1169, 598); (1170, 598); (1171, 598); (1172, 598); (1173, 598);
   (1174, 598); (1175, 598); (1176, 598); (1177, 598); (1178, 599); (1179, 599); (1180, 599); (1181, 599);
   (1182, 599); (1183, 599); (1184, 599); (1185, 599); (1186, 599); (1187, 599); (1188, 599); (1189, 599);
   (1190, 599); (1191, 599); (1192, 599); (1193, 599); (1194, 599); (1195, 599); (1196, 599); (1197, 599);
   (1198, 599); (1199, 599); (1200, 599); (1201, 599); (1202, 600); (1203, 600); (1204, 600); (1205, 600);
   (1206, 605); (1207, 608); (1208, 609); (1209, 609); (1210, 609); (1211, 609); (1212, 609); (1213, 609);
   (1214, 609); (1215, 609); (1216, 609); (1217, 609); (1218, 609); (1219, 609); (1220, 609); (1221, 609);
   (1222, 609); (1223, 609); (1224, 609); (1225, 609); (1226, 609); (1227, 609); (1228, 609); (1229, 609);
   (1230, 609); (1231, 609); (1232, 610); (1233, 611); (1234, 611); (1235, 611); (1236, 611); (1237, 611);
   (1238, 611); (1239, 611); (1240, 611); (1241, 611); (1242, 611); (1243, 611); (1244, 611); (1245, 611);
   (1246, 611); (1247, 611); (1248, 611); (1249, 611); (1250, 611); (1251, 611); (1252, 611); (1253, 611);
   (1254, 611); (1255, 611); (1256, 611); (1257, 612); (1258, 612); (1259, 612); (1260, 612); (1261, 613);
   (1262, 613); (1263, 613); (1264, 613); (1265, 613); (1266, 613); (1267, 613); (1268, 613); (1269, 613);
   (1270, 613); (1271, 613); (1272, 613); (1273, 613); (1274, 613); (1275, 613); (1276, 613); (1277, 613);
   (1278, 613); (1279, 613); (1280, 613); (1281, 613); (1282, 613); (1283, 613); (1284, 613); (1285, 613);
   (1286, 613); (1287, 613); (1288, 613); (1289, 613); (1290, 613); (1291, 613); (1292, 613); (1293, 613);
   (1294, 613); (1295, 614); (1296, 615); (1297, 616); (1298, 617); (1309, 618); (1310, 618); (1311, 619);
   (1312, 619); (1313, 620); (1314, 620); (1319, 621); (1320, 621); (1321, 622); (1322, 622); (1323, 623);
   (1324, 623); (1325, 624); (1326, 624); (1327, 625); (1328, 625); (1329, 626); (1330, 626); (1331, 627);
   (1332, 627); (1333, 628); (1334, 628); (1335, 629); (1336, 629); (1337, 630); (1338, 630); (1339, 631);
   (1340, 631); (1341, 632); (1342, 632); (1343, 633); (1344, 633); (1345, 635); (1346, 635); (1347, 635);
   (1348, 643); (1349, 643); (1350, 643); (1351, 643); (1352, 643); (1353, 643); (1354, 643); (1355, 643);
   (1356, 643); (1357, 643); (1358, 643); (1359, 643); (1360, 643); (1361, 643); (1362, 643); (1363, 643);
   (1364, 643); (1365, 643); (1366, 643); (1367, 643); (1368, 643); (1369, 643); (1370, 643); (1371, 643);
   (1372, 644); (1373, 644); (1374, 644); (1375, 644); (1376, 644); (1377, 644); (1378, 644); (1379, 644);
   (1380, 644); (1381, 644); (1382, 644); (1383, 644); (1384, 645); (1385, 645); (1386, 645); (1387, 645);
   (1388, 646); (1389, 646); (1390, 646); (1391, 646); (1392, 646); (1393, 646); (1394, 646); (1395, 646);
   (1396, 646); (1397, 646); (1398, 646); (1399, 646); (1400, 646); (1401, 646); (1402, 646); (1403, 646);
   (1404, 646); (1405, 646); (1406, 646); (1407, 646); (1408, 646); (1409, 646); (1410, 646); (1411, 646);
   (1412, 647); (1413, 647); (1414, 647); (1415, 647); (1416, 647); (1417, 647); (1418, 647); (1419, 647);
   (1420, 647); (1421, 647); (1422, 647); (1423, 647); (1424, 648); (1425, 648); (1426, 648); (1427, 648);
   (1428, 651); (1429, 651); (1430, 651); (1431, 653); (1432, 654); (1433, 654); (1434, 654); (1435, 654);
   (1436, 654); (1437, 655); (1438, 655); (1439, 655); (1440, 655); (1441, 661); (1442, 662); (1443, 663);
   (1444, 664); (1445, 665); (1446, 667); (1447, 668); (1448, 669); (1449, 670); (1450, 671); (1451, 671);
   (1452, 671); (1453, 671); (1454, 326); (1455, 326); (1456, 326); (1457, 326); (1458, 326); (1459, 326);
   (1460, 326); (1461, 326); (1462, 326); (1463, 326); (1464, 326); (1465, 326); (1466, 326); (1467, 326);
   (1468, 326); (1469, 326); (1470, 326); (1471, 326); (1472, 326); (1473, 326); (1474, 326); (1475, 326);
   (1476, 326); (1477, 326); (1478, 326); (1479, 326); (1480, 326); (1481, 326); (1482, 326); (1483, 326);
   (1484, 326); (1485, 326); (1486, 326); (1487, 326); (1488, 326); (1489, 685); (1490, 686); (1491, 687);
   (1492, 688); (1493, 688); (1494, 689); (1495, 689); (1496, 690); (1497, 690); (1498, 690); (1499, 690);
   (1512, 691); (1513, 691); (1514, 691); (1515, 691); (1516, 691); (1517, 691); (1518, 691); (1519, 691);
   (1520, 691); (1521, 691); (1522, 691); (1523, 691); (1524, 691); (1525, 691); (1526, 691); (1527, 691);
   (1528, 691); (1529, 691); (1530, 691); (1531, 691); (1532, 691); (1533, 691); (1534, 691); (1535, 691);
   (1536, 691); (1538, 691); (1539, 691); (1540, 691); (1547, 692); (1548, 694); (1549, 694); (1550, 694);
   (1551, 694); (1552, 694); (1553, 694); (1554, 695); (1555, 695); (1556, 695); (1557, 695); (1558, 701);
   (1561, 769); (1562, 769); (1563, 770); (1564, 770); (1565, 898); (1566, 899); (1567, 900); (1568, 905);
   (1569, 906); (1570, 906); (1571, 907); (1572, 938); (1573, 939); (1574, 940); (1575, 940); (1576, 940);
   (1577, 940); (1578, 941); (1579, 942); (1580, 942); (1581, 943); (1582, 943); (1583, 948); (1584, 948);
   (1585, 948); (1586, 948); (1587, 949); (1588, 950); (1590, 1266); (1594, 1267); (1595, 1267); (1596, 1268);
   (1597, 1268); (1598, 1269); (1599, 340); (1600, 340); (1601, 340); (1602, 340); (1603, 340); (1604, 340);
   (1605, 340); (1606, 340); (1607, 1273); (1608, 1273); (1609, 1273); (1610, 1273); (1611, 1273); (1612, 1273);
   (1613, 1273); (1614, 1273); (1615, 1273); (1616, 1273); (1617, 1273); (1618, 1273); (1619, 1275); (1620, 1276);
   (1621, 1277); (1622, 1278); (1623, 1279); (1624, 1281); (1625, 1282); (1626, 327); (1627, 327); (1628, 327);
   (1629, 327); (1630, 327); (1631, 327); (1632, 327); (1633, 327); (1634, 327); (1635, 327); (1636, 327);
   (1637, 327); (1638, 327); (1639, 327); (1640, 327); (1641, 327); (1642, 327); (1643, 327); (1644, 327);
   (1645, 327); (1646, 327); (1647, 327); (1648, 327); (1649, 327); (1650, 327); (1651, 327); (1652, 327);
   (1653, 327); (1654, 327); (1655, 327); (1656, 327); (1657, 327); (1658, 327); (1659, 327); (1660, 327);
   (1661, 1284); (1662, 1285); (1663, 1286); (1664, 1287); (1665, 1288); (1666, 1289); (1667, 1290); (1668, 1291);
   (1669, 1292); (1670, 1293)].

Definition x86_insns : list insn_map := map (fun p => mk_insn p.1 p.2) insn_pairs.

(** The largest opcode is last, as [make_id2insn] assumes. *)
Lemma x86_insns_ok : table_ok x86_insns (Z.of_nat (length x86_insns)).
Proof.
  assert (forallb (fun x => (0 <=? id x) && (id x <=? 1670)) x86_insns = true) as Hall by (vm_compute; reflexivity).
  rewrite forallb_forall in Hall.
  assert (forall x, x ∈ x86_insns -> 0 <= id x <= 1670) as Hin.
  { intros x Hx%list_elem_of_In. specialize (Hall x Hx). apply andb_true_iff in Hall as [?%Z.leb_le ?%Z.leb_le]. lia. }
  constructor; [done|vm_compute; split; [discriminate|reflexivity]| |].
  - apply Forall_forall. intros x Hx. specialize (Hin x Hx). lia.
  - intros x l El Hx. assert (list.last x86_insns = Some (mk_insn 1670 1293)) as E by (vm_compute; reflexivity).
    rewrite E in El. injection El as <-. apply Hin in Hx. cbn. lia.
Qed.

(** The opcodes that the decoder's tables name and this table lacks: the prefixes
    [lock], [repne], [rep] and [rex64] as instructions. *)
Definition prefix_opcodes : list Z := [722; 1131; 1139; 1153].

Lemma known_in_table op : known op -> op <> 0 -> op ∉ prefix_opcodes -> is_Some (find_spec x86_insns op).
Proof.
  intros [_ Hk] H0 Hp.
  assert (forallb (fun x => (x =? 0) || existsb (Z.eqb x) prefix_opcodes ||
    match find_spec x86_insns x with Some _ => true | None => false end) modRMTable = true) as Hall by (vm_compute; reflexivity).
  rewrite forallb_forall in Hall. specialize (Hall op (proj1 (list_elem_of_In _ _) Hk)).
  rewrite !orb_true_iff in Hall. destruct Hall as [[E%Z.eqb_eq|E%existsb_eqb_In]|E]; [done| |].
  - by destruct Hp; apply list_elem_of_In.
  - destruct (find_spec x86_insns op); [by eexists|done].
Qed.

(** [cmovs] and three other instructions of two bytes, whose first byte is lost,
    are decoded as a prefix: their public id is looked up in memory that was never
    written. *)
Theorem prefix_opcodes_decoded :
  map (fun second => match decodeInstruction (bytes_reader 0 [0x0f; second; 0xc0]) 17 0 MODE_64BIT (zeroed blank) with
                     | Good _ i => i instructionID
                     | _ => 0
                     end) [0xf0; 0xf2; 0xf3; 0x48] = prefix_opcodes /\
  Forall (fun op => find_spec x86_insns op = None) prefix_opcodes.
Proof. split; [vm_compute; reflexivity|]. repeat constructor. Qed.
