(* ===== verification/X86Dis.v ===== *)
(** The translation of Capstone's X86 back end ([arch/X86/X86Disassembler.c],
    reduced configuration): from the internal instruction of [X86Dec.v] to the
    operands of an [MCInst], and the entry point [X86_getInstruction] that decodes,
    translates and copies the details.

    Accesses outside of the arrays of registers, of operands and of immediates
    fault. *)

From Stdlib Require Import ZArith List Bool.
From stdpp Require Import prelude.
From S2P Require Import Prelude McInst Cs X86Tables X86Dec.

Open Scope Z_scope.
Open Scope c_scope.

(** ** Registers and opcodes *)

Definition X86_BP : Z := 6.
Definition X86_BX : Z := 8.
Definition X86_DI : Z := 14.
Definition X86_EDI : Z := 23.
Definition X86_EIP : Z := 26.
Definition X86_ESI : Z := 29.
Definition X86_RDI : Z := 39.
Definition X86_RIP : Z := 41.
Definition X86_RSI : Z := 43.
Definition X86_SI : Z := 45.
Definition X86_ST0 : Z := 106.
Definition X86_K0 : Z := 82.
Definition X86_XMM0 : Z := 114.
Definition X86_YMM0 : Z := 146.
Definition X86_ZMM0 : Z := 178.
Definition X86_CS : Z := 11.
Definition X86_SS : Z := 49.
Definition X86_DS : Z := 17.
Definition X86_ES : Z := 28.
Definition X86_FS : Z := 32.
Definition X86_GS : Z := 33.
Definition X86_INT : Z := 563.
Definition X86_LDS16rm : Z := 655.
Definition X86_LDS32rm : Z := 656.
Definition X86_LES16rm : Z := 663.
Definition X86_LES32rm : Z := 664.

(** [llvmRegnums]: the registers of [ALL_REGS], then a zero. *)
Definition llvmRegnums : list Z := [
  2; 10; 16; 5; 1; 9; 13; 4; 210; 211; 212; 213; 214; 215; 216; 217; 48; 7; 46; 15; 3; 12; 18; 8; 47; 6; 45; 14;
  226; 227; 228; 229; 230; 231; 232; 233; 19; 22; 24; 21; 30; 20; 29; 23; 218; 219; 220; 221; 222; 223; 224; 225;
  35; 38; 40; 37; 44; 36; 43; 39; 98; 99; 100; 101; 102; 103; 104; 105; 90; 91; 92; 93; 94; 95; 96; 97; 114; 115;
  116; 117; 118; 119; 120; 121; 122; 123; 124; 125; 126; 127; 128; 129; 130; 131; 132; 133; 134; 135; 136; 137;
  138; 139; 140; 141; 142; 143; 144; 145; 146; 147; 148; 149; 150; 151; 152; 153; 154; 155; 156; 157; 158; 159;
  160; 161; 162; 163; 164; 165; 166; 167; 168; 169; 170; 171; 172; 173; 174; 175; 176; 177; 178; 179; 180; 181;
  182; 183; 184; 185; 186; 187; 188; 189; 190; 191; 192; 193; 194; 195; 196; 197; 198; 199; 200; 201; 202; 203;
  204; 205; 206; 207; 208; 209; 82; 83; 84; 85; 86; 87; 88; 89; 28; 11; 49; 17; 32; 33; 66; 67; 68; 69; 70; 71; 72;
  73; 50; 51; 52; 53; 54; 55; 56; 57; 58; 59; 60; 61; 62; 63; 64; 65; 41; 0
].

(** The registers of [ALL_EA_BASES].  Four pairs and the two marks of a SIB byte have numbers that fill in. *)
Definition ea_bases : list Z := [
  500; 501; 502; 503; 45; 14; 6; 8; 226; 227; 228; 229; 230; 231; 232; 233; 19; 22; 24; 21; 504; 20; 29; 23; 218;
  219; 220; 221; 222; 223; 224; 225; 35; 38; 40; 37; 505; 36; 43; 39; 98; 99; 100; 101; 102; 103; 104; 105
].

(** The registers of [ALL_SIB_BASES]. *)
Definition sib_bases : list Z := [
  19; 22; 24; 21; 30; 20; 29; 23; 218; 219; 220; 221; 222; 223; 224; 225; 35; 38; 40; 37; 44; 36; 43; 39; 98; 99;
  100; 101; 102; 103; 104; 105
].

(** [REGS_XMM], [REGS_YMM], [REGS_ZMM]. *)
Definition vector_indices : list Z := [
  114; 115; 116; 117; 118; 119; 120; 121; 122; 123; 124; 125; 126; 127; 128; 129; 130; 131; 132; 133; 134; 135;
  136; 137; 138; 139; 140; 141; 142; 143; 144; 145; 146; 147; 148; 149; 150; 151; 152; 153; 154; 155; 156; 157;
  158; 159; 160; 161; 162; 163; 164; 165; 166; 167; 168; 169; 170; 171; 172; 173; 174; 175; 176; 177; 178; 179;
  180; 181; 182; 183; 184; 185; 186; 187; 188; 189; 190; 191; 192; 193; 194; 195; 196; 197; 198; 199; 200; 201;
  202; 203; 204; 205; 206; 207; 208; 209
].

(** The public numbers of the same registers, a zero in front. *)
Definition sib_base_map : list Z := [
  0; 19; 22; 24; 21; 30; 20; 29; 23; 218; 219; 220; 221; 222; 223; 224; 225; 35; 38; 40; 37; 44; 36; 43; 39; 98;
  99; 100; 101; 102; 103; 104; 105
].
Definition sib_index_map : list Z := [
  0; 500; 501; 502; 503; 45; 14; 6; 8; 226; 227; 228; 229; 230; 231; 232; 233; 19; 22; 24; 21; 504; 20; 29; 23;
  218; 219; 220; 221; 222; 223; 224; 225; 35; 38; 40; 37; 505; 36; 43; 39; 98; 99; 100; 101; 102; 103; 104; 105;
  114; 115; 116; 117; 118; 119; 120; 121; 122; 123; 124; 125; 126; 127; 128; 129; 130; 131; 132; 133; 134; 135;
  136; 137; 138; 139; 140; 141; 142; 143; 144; 145; 146; 147; 148; 149; 150; 151; 152; 153; 154; 155; 156; 157;
  158; 159; 160; 161; 162; 163; 164; 165; 166; 167; 168; 169; 170; 171; 172; 173; 174; 175; 176; 177; 178; 179;
  180; 181; 182; 183; 184; 185; 186; 187; 188; 189; 190; 191; 192; 193; 194; 195; 196; 197; 198; 199; 200; 201;
  202; 203; 204; 205; 206; 207; 208; 209
].

(** ** From the internal instruction to operands *)

(** An access to an array. *)
Definition array_at (l : list Z) (k : Z) : res Z :=
  match tget l k with Some v => Ok v | None => Fault end.

Definition translateRegister (mcInst : MCInst) (r : Z) : res MCInst :=
  let! llvmRegnum := array_at llvmRegnums r in
  MCOperand_CreateReg0 mcInst llvmRegnum.

Definition segmentRegnums : list Z := [0; X86_CS; X86_SS; X86_DS; X86_ES; X86_FS; X86_GS].

(** The translations give whether they fail. *)
Definition translateSrcIndex (mcInst : MCInst) (i : insn) : res (bool * MCInst) :=
  let p67 := truth (i (isPrefix 0x67)) in
  let baseRegNo :=
    if i mode =? MODE_64BIT then if p67 then X86_ESI else X86_RSI
    else if i mode =? MODE_32BIT then if p67 then X86_SI else X86_ESI
    else if p67 then X86_ESI else X86_SI in
  let! mcInst := MCOperand_CreateReg0 mcInst baseRegNo in
  let! seg := array_at segmentRegnums (i segmentOverride) in
  let! mcInst := MCOperand_CreateReg0 mcInst seg in
  Ok (false, mcInst).

Definition translateDstIndex (mcInst : MCInst) (i : insn) : res (bool * MCInst) :=
  let p67 := truth (i (isPrefix 0x67)) in
  let baseRegNo :=
    if i mode =? MODE_64BIT then if p67 then X86_EDI else X86_RDI
    else if i mode =? MODE_32BIT then if p67 then X86_DI else X86_EDI
    else if p67 then X86_EDI else X86_DI in
  let! mcInst := MCOperand_CreateReg0 mcInst baseRegNo in
  Ok (false, mcInst).

(** [if (v & sign) v |= ~mask], the mask of as many bits. *)
Definition extend (sign mask v : Z) : Z := if truth (v .& sign) then v .| u64 (Z.lnot mask) else v.
Definition extend8 (v : Z) : Z := extend 0x80 0xff v.
Definition extend16 (v : Z) : Z := extend 0x8000 0xffff v.
Definition extend32 (v : Z) : Z := extend 0x80000000 0xffffffff v.

(** The sign of an immediate, by the type and the encoding of the operand. *)
Definition extend_immediate (mcInst : MCInst) (immediate encoding type : Z) (i : insn) : Z :=
  if type =? TYPE_RELv then
    if i displacementSize =? 1 then extend8 immediate
    else if i displacementSize =? 2 then extend16 immediate
    else if i displacementSize =? 4 then extend32 immediate
    else immediate
  else if oneof type [TYPE_IMM8; TYPE_IMM16; TYPE_IMM32; TYPE_IMM64; TYPE_IMMv] then
    if encoding =? ENCODING_IB then if negb (MCInst_getOpcode mcInst =? X86_INT) then extend8 immediate else immediate
    else if encoding =? ENCODING_IW then extend16 immediate
    else if encoding =? ENCODING_ID then extend32 immediate
    else immediate
  else immediate.

Definition translateImmediate (mcInst : MCInst) (immediate encoding type : Z) (i : insn) : res MCInst :=
  let immediate := extend_immediate mcInst immediate encoding type i in
  if oneof type [TYPE_XMM32; TYPE_XMM64; TYPE_XMM128] then MCOperand_CreateReg0 mcInst (u32 (X86_XMM0 + (u32 immediate .>> 4)))
  else if type =? TYPE_XMM256 then MCOperand_CreateReg0 mcInst (u32 (X86_YMM0 + (u32 immediate .>> 4)))
  else if type =? TYPE_XMM512 then MCOperand_CreateReg0 mcInst (u32 (X86_ZMM0 + (u32 immediate .>> 4)))
  else
    let immediate :=
      if type =? TYPE_REL8 then extend8 immediate
      else if (type =? TYPE_REL32) || (type =? TYPE_REL64) then extend32 immediate
      else immediate in
    let! mcInst := MCOperand_CreateImm0 mcInst immediate in
    if oneof type [TYPE_MOFFS8; TYPE_MOFFS16; TYPE_MOFFS32; TYPE_MOFFS64] then
      let! seg := array_at segmentRegnums (i segmentOverride) in
      MCOperand_CreateReg0 mcInst seg
    else Ok mcInst.

Definition is_sib (base : Z) : bool := (base =? EA_BASE_sib) || (base =? EA_BASE_sib64).

(** The cases of the registers are those behind the bases. *)
Definition translateRMRegister (mcInst : MCInst) (i : insn) : res (bool * MCInst) :=
  if is_sib (i eaBase) then Ok (true, mcInst)
  else if (EA_REG <=? i eaBase) && (i eaBase <? EA_max) then
    let! r := array_at llvmRegnums (i eaBase - EA_REG) in
    let! mcInst := MCOperand_CreateReg0 mcInst r in
    Ok (false, mcInst)
  else Ok (true, mcInst).

(** The register of a base or an index, [None] in the default case. *)
Definition base_of_sib (b : Z) : option Z :=
  if b =? SIB_BASE_NONE then Some 0 else tget sib_bases (b - SIB_BASE_EAX).
Definition index_of_sib (x : Z) : option Z :=
  if x =? SIB_INDEX_NONE then Some 0
  else if x <? SIB_INDEX_EAX then None
  else tget (drop 16 ea_bases ++ vector_indices) (x - SIB_INDEX_EAX).

(** The base and the index without a SIB byte. *)
Definition direct_base (i : insn) : option (Z * Z) :=
  if i eaBase =? EA_BASE_NONE then
    if i eaDisplacement =? EA_DISP_NONE then None
    else Some (if i mode =? MODE_64BIT then if i prefix3 =? 0x67 then X86_EIP else X86_RIP else 0, 0)
  else if i eaBase =? EA_BASE_BX_SI then Some (X86_BX, X86_SI)
  else if i eaBase =? EA_BASE_BX_SI + 1 then Some (X86_BX, X86_DI)
  else if i eaBase =? EA_BASE_BX_SI + 2 then Some (X86_BP, X86_SI)
  else if i eaBase =? EA_BASE_BX_SI + 3 then Some (X86_BP, X86_DI)
  else if i eaBase <? EA_REG then
    match tget ea_bases (i eaBase - EA_BASE_BX_SI) with Some b => Some (b, 0) | None => None end
  else None.

(** The operand of the base; the index register and the scale, or [None] when the
    translation fails. *)
Definition translate_base (mcInst : MCInst) (i : insn) : res (option (Z * Z) * MCInst) :=
  if is_sib (i eaBase) then
    match base_of_sib (i sibBase) with
    | None => Ok (None, mcInst)
    | Some b =>
        let! mcInst := MCOperand_CreateReg0 mcInst b in
        match index_of_sib (i sibIndex) with
        | None => Ok (None, mcInst)
        | Some x => Ok (Some (x, i sibScale), mcInst)
        end
    end
  else
    match direct_base i with
    | None => Ok (None, mcInst)
    | Some (b, x) => let! mcInst := MCOperand_CreateReg0 mcInst b in Ok (Some (x, 1), mcInst)
    end.

Definition translateRMMemory (mcInst : MCInst) (i : insn) : res (bool * MCInst) :=
  let! '(o, mcInst) := translate_base mcInst i in
  match o with
  | None => Ok (true, mcInst)
  | Some (indexReg, scaleAmount) =>
      let! mcInst := MCOperand_CreateImm0 mcInst scaleAmount in
      let! mcInst := MCOperand_CreateReg0 mcInst indexReg in
      let! mcInst := MCOperand_CreateImm0 mcInst (i displacement) in
      let! seg := array_at segmentRegnums (i segmentOverride) in
      let! mcInst := MCOperand_CreateReg0 mcInst seg in
      Ok (false, mcInst)
  end.

Definition translateRM (mcInst : MCInst) (type : Z) (i : insn) : res (bool * MCInst) :=
  if oneof type [TYPE_R8; TYPE_R16; TYPE_R32; TYPE_R64; TYPE_Rv; TYPE_MM; TYPE_MM32; TYPE_MM64; TYPE_XMM; TYPE_XMM32;
                 TYPE_XMM64; TYPE_XMM128; TYPE_XMM256; TYPE_XMM512; TYPE_VK1; TYPE_VK8; TYPE_VK16; TYPE_DEBUGREG;
                 TYPE_CONTROLREG]
  then translateRMRegister mcInst i
  else if oneof type [TYPE_M; TYPE_M8; TYPE_M16; TYPE_M32; TYPE_M64; TYPE_M128; TYPE_M256; TYPE_M512; TYPE_Mv; TYPE_M32FP;
                      TYPE_M64FP; TYPE_M80FP; TYPE_M16INT; TYPE_M32INT; TYPE_M64INT; TYPE_M1616; TYPE_M1632; TYPE_M1664;
                      TYPE_LEA]
  then translateRMMemory mcInst i
  else Ok (true, mcInst).

Definition translateFPRegister (mcInst : MCInst) (stackPos : Z) : res MCInst :=
  MCOperand_CreateReg0 mcInst (X86_ST0 + stackPos).

Definition translateMaskRegister (mcInst : MCInst) (maskRegNum : Z) : res (bool * MCInst) :=
  if 8 <=? maskRegNum then Ok (true, mcInst)
  else let! mcInst := MCOperand_CreateReg0 mcInst (X86_K0 + maskRegNum) in Ok (false, mcInst).

(** A translation that does not fail and leaves the internal instruction. *)
Definition passes (i : insn) (m : res MCInst) : res (bool * MCInst * insn) :=
  let! mcInst := m in Ok (false, mcInst, i).
Definition unchanged (i : insn) (m : res (bool * MCInst)) : res (bool * MCInst * insn) :=
  let! '(b, mcInst) := m in Ok (b, mcInst, i).

Definition encoding_imm (encoding : Z) : bool :=
  oneof encoding [ENCODING_IB; ENCODING_IW; ENCODING_ID; ENCODING_IO; ENCODING_Iv; ENCODING_Ia].

(** [ops] are the operands at [insn->operands].  A duplicate calls the translation
    of the operand it names. *)
Fixpoint translateOperand (fuel : nat) (ops : list (Z * Z)) (mcInst : MCInst) (op : Z * Z) (i : insn)
    : res (bool * MCInst * insn) :=
  match fuel with
  | O => NoFuel
  | S f =>
      let '(encoding, type) := op in
      if encoding =? ENCODING_REG then passes i (translateRegister mcInst (i reg))
      else if encoding =? ENCODING_WRITEMASK then unchanged i (translateMaskRegister mcInst (u8 (i writemask)))
      else if encoding_rm encoding then unchanged i (translateRM mcInst type i)
      else if encoding_imm encoding then
        let n := i numImmediatesTranslated in
        let i := put i numImmediatesTranslated (u8 (n + 1)) in
        if (0 <=? n) && (n <? 2) then passes i (translateImmediate mcInst (i (immediates n)) encoding type i) else Fault
      else if encoding =? ENCODING_SI then unchanged i (translateSrcIndex mcInst i)
      else if encoding =? ENCODING_DI then unchanged i (translateDstIndex mcInst i)
      else if oneof encoding [ENCODING_RB; ENCODING_RW; ENCODING_RD; ENCODING_RO; ENCODING_Rv]
      then passes i (translateRegister mcInst (i opcodeRegister))
      else if encoding =? ENCODING_FP then passes i (translateFPRegister mcInst (i modRM .& 7))
      else if encoding =? ENCODING_VVVV then passes i (translateRegister mcInst (i vvvv))
      else if encoding =? ENCODING_DUP then
        match tget ops (type - TYPE_DUP0) with
        | Some op => translateOperand f ops mcInst op i
        | None => Fault
        end
      else Ok (true, mcInst, i)
  end.

(** The loop over the operands from [index] on, of which there are [n]. *)
Fixpoint translate_loop (n : nat) (ops : list (Z * Z)) (index : Z) (mcInst : MCInst) (i : insn)
    : res (bool * MCInst * insn) :=
  match n with
  | O => Ok (false, mcInst, i)
  | S n' =>
      match tget ops index with
      | None => Fault
      | Some op =>
          if negb (op.1 =? ENCODING_NONE) then
            let! '(failed, mcInst, i) := translateOperand 2 ops mcInst op i in
            if failed : bool then Ok (true, mcInst, i) else translate_loop n' ops (index + 1) mcInst i
          else translate_loop n' ops (index + 1) mcInst i
      end
  end.

(** The specifier is never null. *)
Definition translateInstruction (mcInst : MCInst) (i : insn) : res (bool * MCInst * insn) :=
  match tget x86OperandSets (i operands) with
  | None => Fault
  | Some ops =>
      translate_loop (Z.to_nat X86_MAX_OPERANDS) ops 0 (MCInst_setOpcode mcInst (i instructionID))
        (put i numImmediatesTranslated 0)
  end.

(** ** The entry point *)

(** The reader: [info] has the code, its size and the address of its first byte. *)
Record reader_info := mk_info { rcode : mem; rbase : Z; rsize : Z; roffset : Z }.
Definition read_byte (info : reader_info) (addr : Z) : option Z :=
  if rsize info <=? u64 (addr - roffset info) then None
  else Some (u8 (rcode info (rbase info + u64 (addr - roffset info)))).

(** [cs_x86], the public details of an instruction; [x_operands] are the bytes of
    its operands. *)
Record cs_x86 := mk_x86 {
  x_prefix : list Z; x_opcode : list Z; x_rex : Z; x_addr_size : Z; x_modrm : Z; x_sib : Z; x_disp : Z;
  x_sib_index : Z; x_sib_scale : Z; x_sib_base : Z; x_sse_cc : Z; x_avx_cc : Z; x_avx_sae : Z; x_avx_rm : Z;
  x_op_count : Z; x_operands : list Z
}.

(** What the function sets before it decodes: everything else is kept. *)
Definition reset_x86 (d : cs_x86) : cs_x86 :=
  mk_x86 [0; 0; 0; 0] [0; 0; 0; 0] (x_rex d) (x_addr_size d) (x_modrm d) (x_sib d) (x_disp d) (x_sib_index d)
    (x_sib_scale d) (x_sib_base d) 0 0 0 0 0 (map (fun _ => 0) (x_operands d)).

Definition x86_map_sib_base (r : Z) : res Z := array_at sib_base_map r.
Definition x86_map_sib_index (r : Z) : res Z := array_at sib_index_map r.

Definition prefixes_of (i : insn) : list Z := [i prefix0; i prefix1; i prefix2; i prefix3].

Definition update_pub_insn (d : cs_x86) (i : insn) : res cs_x86 :=
  let old := x_opcode d in
  let opc :=
    if truth (i vectorExtensionType) then
      [i (vectorExtensionPrefix 0); i (vectorExtensionPrefix 1); i (vectorExtensionPrefix 2); i (vectorExtensionPrefix 3)]
    else if truth (i twoByteEscape) then
      if truth (i threeByteEscape) then <[0%nat := i twoByteEscape]> (<[1%nat := i threeByteEscape]> (<[2%nat := i opcode]> old))
      else <[0%nat := i twoByteEscape]> (<[1%nat := i opcode]> old)
    else <[0%nat := i opcode]> old in
  let! index := x86_map_sib_index (i sibIndex) in
  let! base := x86_map_sib_base (i sibBase) in
  Ok (mk_x86 (x_prefix d) opc (i rexPrefix) (i addressSize) (i orgModRM) (i sib) (i displacement)
        index (sext 8 (i sibScale)) base (x_sse_cc d) (x_avx_cc d) (x_avx_sae d) (x_avx_rm d) (x_op_count d) (x_operands d)).

(** The parts of an instruction that only this back end uses: of [MCInst], and the
    details behind [flat_insn] when there are any. *)
Record x86_parts := mk_parts { imm_size : Z; x86_prefix : list Z; x86_detail : option cs_x86 }.

(** The result, the size, the instruction and its parts. *)
Record fetched := mk_fetched { fok : bool; fsize : Z; finst : MCInst; fparts : x86_parts }.

(** The mode that the handle says. *)
Definition mode_of (handle_mode : Z) : Z :=
  if truth (handle_mode .& CS_MODE_16) then MODE_16BIT
  else if truth (handle_mode .& CS_MODE_32) then MODE_32BIT
  else MODE_64BIT.

(** LES and LDS, which 64-bit code does not have. *)
Definition not_in_64 (mcInst : MCInst) : bool :=
  oneof (Opcode mcInst) [X86_LES16rm; X86_LES32rm; X86_LDS16rm; X86_LDS32rm].

(** [junk]: the stack that the internal instruction is on.  The fuel is more than
    the bytes there are. *)
Definition X86_getInstruction (junk : insn) (handle : cs_struct) (m : mem) (code code_len : Z)
    (instr : MCInst) (parts : x86_parts) (address : Z) : res fetched :=
  let info := mk_info m code code_len address in
  let detail := option_map reset_x86 (x86_detail parts) in
  let parts := mk_parts (imm_size parts) (x86_prefix parts) detail in
  match decodeInstruction (read_byte info) (S (Z.to_nat code_len)) address (mode_of (Cs.mode handle)) (zeroed junk) with
  | Stuck => Fault
  | OutOfFuel => NoFuel
  | Bad i => Ok (mk_fetched false (u16 (i readerCursor - address)) instr parts)
  | Good _ i =>
      let sz := u16 (i length_) in
      let! '(failed, instr, i) := translateInstruction instr i in
      if failed : bool then Ok (mk_fetched false sz instr parts)
      else if truth (Cs.mode handle .& CS_MODE_64) && not_in_64 instr then Ok (mk_fetched false sz instr parts)
      else if truth (Cs.detail handle) then
        match detail with
        | None => Fault
        | Some d =>
            let! d := update_pub_insn d i in
            Ok (mk_fetched true sz instr (mk_parts (i immSize) (prefixes_of i) (Some d)))
        end
      else Ok (mk_fetched true sz instr (mk_parts (i immSize) (prefixes_of i) detail))
  end.
