(* ===== verification/X86DisThm.v ===== *)
(** The translation of [X86Dis.v] is safe on what the decoder gives, and with it
    the entry point of the X86 back end, which is so an instance of the class that
    the core of Capstone is verified against. *)

From Stdlib Require Import ZArith Lia List Bool.
From stdpp Require Import prelude.
From S2P Require Import Prelude McInst Cs X86Tables X86Dec X86DecThm X86Dis.

Open Scope Z_scope.

(** ** Results without a fault *)

Definition rsafe {A} (m : res A) (Q : A -> Prop) : Prop := match m with Ok a => Q a | _ => False end.

Lemma rsafe_bind {A B} (m : res A) (k : A -> res B) Q : rsafe m (fun a => rsafe (k a) Q) -> rsafe (rbind m k) Q.
Proof. by destruct m. Qed.
Lemma rsafe_mono {A} (m : res A) (Q R : A -> Prop) : rsafe m Q -> (forall a, Q a -> R a) -> rsafe m R.
Proof. destruct m; simpl; auto. Qed.
Lemma rsafe_Ok {A} (m : res A) (Q : A -> Prop) : rsafe m Q -> exists a, m = Ok a /\ Q a.
Proof. destruct m; simpl; [|done..]. eauto. Qed.

Lemma array_at_safe l k : 0 <= k < Z.of_nat (length l) -> rsafe (array_at l k) (fun _ => True).
Proof. intros H. unfold array_at. destruct (tget_range l k H) as [v ->]. done. Qed.

(** ** Operands *)

(** [k] operands more at most, and the same opcode. *)
Record grows (k : Z) (mc mc' : MCInst) : Prop := {
  grows_ok : inst_ok mc';
  grows_size : McInst.size mc <= McInst.size mc' <= McInst.size mc + k;
  grows_opcode : Opcode mc' = Opcode mc
}.

Lemma grows_refl k mc : 0 <= k -> inst_ok mc -> grows k mc mc.
Proof. intros Hk H. split; [done|lia|done]. Qed.
Lemma grows_trans a b mc mc' mc'' : grows a mc mc' -> grows b mc' mc'' -> grows (a + b) mc mc''.
Proof. intros [H1 H2 H3] [H4 H5 H6]. split; [done|lia|congruence]. Qed.
Lemma grows_le a b mc mc' : a <= b -> grows a mc mc' -> grows b mc mc'.
Proof. intros H [H1 H2 H3]. split; [done|lia|done]. Qed.

Lemma create_reg mc r : inst_ok mc -> McInst.size mc < 48 -> rsafe (MCOperand_CreateReg0 mc r) (grows 1 mc).
Proof.
  intros [Ha Hs] Hlt. unfold MCOperand_CreateReg0. destruct (oget_ok (Operands mc) (McInst.size mc)) as (o & -> & _); [lia|].
  cbn [rbind]. rewrite oset_ok by lia. cbn [rbind rsafe]. unfold with_ops. split; [split|..]; cbn; rewrite ?length_insert, ?u8_small; done || lia.
Qed.
Lemma create_imm mc v : inst_ok mc -> McInst.size mc < 48 -> rsafe (MCOperand_CreateImm0 mc v) (grows 1 mc).
Proof.
  intros [Ha Hs] Hlt. unfold MCOperand_CreateImm0. destruct (oget_ok (Operands mc) (McInst.size mc)) as (o & -> & _); [lia|].
  cbn [rbind]. rewrite oset_ok by lia. cbn [rbind rsafe]. unfold with_ops. split; [split|..]; cbn; rewrite ?length_insert, ?u8_small; done || lia.
Qed.

(** Another operand behind those there are. *)
Lemma reg_then {A} k mc0 mc r (f : MCInst -> res A) Q :
  grows k mc0 mc -> McInst.size mc0 + k < 48 ->
  (forall mc', grows (k + 1) mc0 mc' -> rsafe (f mc') Q) -> rsafe (rbind (MCOperand_CreateReg0 mc r) f) Q.
Proof.
  intros H Hk Hf. apply rsafe_bind. destruct H as [H1 H2 H3]. eapply rsafe_mono; [apply create_reg; [done|lia]|].
  intros mc' [H4 H5 H6]. apply Hf. split; [done|lia|congruence].
Qed.
Lemma imm_then {A} k mc0 mc v (f : MCInst -> res A) Q :
  grows k mc0 mc -> McInst.size mc0 + k < 48 ->
  (forall mc', grows (k + 1) mc0 mc' -> rsafe (f mc') Q) -> rsafe (rbind (MCOperand_CreateImm0 mc v) f) Q.
Proof.
  intros H Hk Hf. apply rsafe_bind. destruct H as [H1 H2 H3]. eapply rsafe_mono; [apply create_imm; [done|lia]|].
  intros mc' [H4 H5 H6]. apply Hf. split; [done|lia|congruence].
Qed.
Lemma index_then {A} l k (f : Z -> res A) Q :
  0 <= k < Z.of_nat (length l) -> (forall v, rsafe (f v) Q) -> rsafe (rbind (array_at l k) f) Q.
Proof. intros H Hf. apply rsafe_bind. eapply rsafe_mono; [by apply array_at_safe|]. auto. Qed.

Ltac operand :=
  lazymatch goal with
  | |- rsafe (rbind (MCOperand_CreateReg0 _ _) _) _ => eapply reg_then; [eassumption|lia|intros ? ?]
  | |- rsafe (rbind (MCOperand_CreateImm0 _ _) _) _ => eapply imm_then; [eassumption|lia|intros ? ?]
  | |- rsafe (rbind (array_at _ _) _) _ => apply index_then; [cbn [length llvmRegnums segmentRegnums]; lia|intros ?]
  end.
Ltac grown := eapply grows_le; [|eassumption]; lia.

Section translation.
(** A decoded instruction and one with the room for its operands. *)
Context (i : insn) (mc : MCInst).
Hypothesis mc_ok : inst_ok mc.
Hypothesis mc_room : McInst.size mc + 5 <= 48.
Hypothesis segment : 0 <= i segmentOverride < 7.

Let start : grows 0 mc mc := grows_refl 0 mc ltac:(lia) mc_ok.

Lemma translateRegister_safe r : 0 <= r < 212 -> rsafe (translateRegister mc r) (grows 5 mc).
Proof using All.
  intros Hr. unfold translateRegister. operand. eapply rsafe_mono; [apply create_reg; [done|lia]|]. intros mc' H. grown.
Qed.

Lemma translateSrcIndex_safe : rsafe (translateSrcIndex mc i) (fun r => grows 5 mc r.2).
Proof using All. unfold translateSrcIndex. cbv zeta. repeat operand. cbn. grown. Qed.
Lemma translateDstIndex_safe : rsafe (translateDstIndex mc i) (fun r => grows 5 mc r.2).
Proof using All. unfold translateDstIndex. cbv zeta. repeat operand. cbn. grown. Qed.

Lemma translateImmediate_safe v e t : rsafe (translateImmediate mc v e t i) (grows 5 mc).
Proof using All.
  unfold translateImmediate. cbv zeta.
  assert (forall r, rsafe (MCOperand_CreateReg0 mc r) (grows 5 mc)) as Hreg.
  { intros r. eapply rsafe_mono; [apply create_reg; [done|lia]|]. intros mc' H. grown. }
  do 3 (case_match; [apply Hreg|]). operand. case_match; [|cbn; grown]. operand.
  eapply rsafe_mono; [apply create_reg; [apply H2|destruct H2; lia]|]. intros mc'' H''.
  pose proof (grows_trans _ _ _ _ _ H2 H''). grown.
Qed.

Lemma translateRMRegister_safe : rsafe (translateRMRegister mc i) (fun r => grows 5 mc r.2).
Proof using All.
  unfold translateRMRegister. case_match; [cbn; grown|]. case_match; [|cbn; grown].
  apply andb_true_iff in H0 as [H1%Z.leb_le H2%Z.ltb_lt]. unfold EA_REG, EA_max in *. repeat operand. cbn. grown.
Qed.

Lemma translate_base_safe : rsafe (translate_base mc i) (fun r => grows 1 mc r.2).
Proof using All.
  unfold translate_base. case_match.
  - case_match; [|cbn; grown]. operand. case_match; cbn; grown.
  - destruct (direct_base i) as [[b x]|]; [|cbn; grown]. operand. cbn. grown.
Qed.

Lemma translateRMMemory_safe : rsafe (translateRMMemory mc i) (fun r => grows 5 mc r.2).
Proof using All.
  unfold translateRMMemory. apply rsafe_bind. eapply rsafe_mono; [apply translate_base_safe|]. intros [o mc1] H1. cbn [snd] in H1.
  destruct o as [[x s]|]; [|cbn; grown]. repeat operand. cbn. grown.
Qed.

Lemma translateRM_safe t : rsafe (translateRM mc t i) (fun r => grows 5 mc r.2).
Proof using All.
  unfold translateRM. case_match; [apply translateRMRegister_safe|]. case_match; [apply translateRMMemory_safe|]. cbn. grown.
Qed.

Lemma translateMaskRegister_safe r : rsafe (translateMaskRegister mc r) (fun r => grows 5 mc r.2).
Proof using All. unfold translateMaskRegister. case_match; [cbn; grown|]. operand. cbn. grown. Qed.

Lemma translateFPRegister_safe r : rsafe (translateFPRegister mc r) (grows 5 mc).
Proof using All. eapply rsafe_mono; [apply create_reg; [done|lia]|]. intros mc' H. grown. Qed.
End translation.

(** ** The operands of an instruction *)

(** What the translation of an operand uses of the instruction. *)
Definition at_hand (i : insn) (o : Z * Z) : Prop :=
  (o.1 = ENCODING_REG -> 0 <= i reg < 212) /\ (op_register o.1 = true -> 0 <= i opcodeRegister < 212) /\
  (o.1 = ENCODING_VVVV -> 0 <= i vvvv < 212).

(** The operand that a duplicate stands for. *)
Definition undup (ops : list (Z * Z)) (o : Z * Z) : option (Z * Z) :=
  if o.1 =? ENCODING_DUP then tget (take 5 ops) (o.2 - TYPE_DUP0) else Some o.
Definition immediates_of (ops : list (Z * Z)) (o : Z * Z) : Z :=
  match undup ops o with Some o' => if encoding_imm o'.1 then 1 else 0 | None => 0 end.
Definition count_immediates (ops l : list (Z * Z)) : Z := fold_right (fun o n => immediates_of ops o + n) 0 l.

(** Duplicates stand for an operand of the set that is none; no set has more than two
    immediates, duplicates included. *)
Lemma operand_sets_translatable :
  forallb (fun ops =>
    forallb (fun o => match undup ops o with Some o' => negb (o'.1 =? ENCODING_DUP) | None => false end) (take 5 ops) &&
    (count_immediates ops (take 5 ops) <=? 2)) x86OperandSets = true.
Proof. vm_compute. reflexivity. Qed.

(** But for the count of translated immediates the instruction is as before. *)
Definition same (i i' : insn) : Prop := forall f, f <> numImmediatesTranslated -> i' f = i f.

Lemma immediates_of_nonneg ops o : 0 <= immediates_of ops o.
Proof. unfold immediates_of. repeat case_match; lia. Qed.
Lemma count_nonneg ops l : 0 <= count_immediates ops l.
Proof.
  induction l as [|o l IH]; [done|]. unfold count_immediates in *. cbn [fold_right]. pose proof (immediates_of_nonneg ops o). lia.
Qed.

Section operands.
Context (i0 : insn) (ops : list (Z * Z)).
Hypothesis segment : 0 <= i0 segmentOverride < 7.

(** The result of an operand that has [n] immediates. *)
Definition translated (n : Z) (mc : MCInst) (i : insn) (r : bool * MCInst * insn) : Prop :=
  grows 5 mc r.1.2 /\ same i0 r.2 /\ r.2 numImmediatesTranslated = i numImmediatesTranslated + n.

Lemma passes_safe mc i m : same i0 i -> rsafe m (grows 5 mc) -> rsafe (passes i m) (translated 0 mc i).
Proof using Type.
  intros Hi H. apply rsafe_bind. eapply rsafe_mono; [exact H|]. intros mc' Hm. split_and!; [done|done|cbn; lia].
Qed.
Lemma unchanged_safe mc i m : same i0 i -> rsafe m (fun r => grows 5 mc r.2) -> rsafe (unchanged i m) (translated 0 mc i).
Proof using Type.
  intros Hi H. apply rsafe_bind. eapply rsafe_mono; [exact H|]. intros [b mc'] Hm. split_and!; [done|done|cbn; lia].
Qed.

(** An operand that is not a duplicate. *)
Lemma translateOperand_safe fuel mc o i :
  inst_ok mc -> McInst.size mc + 5 <= 48 -> same i0 i -> at_hand i0 o -> o.1 <> ENCODING_DUP ->
  0 <= i numImmediatesTranslated -> i numImmediatesTranslated + (if encoding_imm o.1 then 1 else 0) <= 2 ->
  rsafe (translateOperand (S fuel) ops mc o i) (translated (if encoding_imm o.1 then 1 else 0) mc i).
Proof using All.
  intros Hmc Hroom Hi (Hu1 & Hu2 & Hu3) Hd Hn0 Hn. assert (0 <= i segmentOverride < 7) as Hseg by (by rewrite Hi).
  destruct o as [e t]. cbn [fst] in *. cbn [translateOperand].
  destruct (Z.eqb_spec e ENCODING_REG) as [->|].
  { apply passes_safe; [done|]. apply translateRegister_safe with i; [done..|]. rewrite Hi by done. auto. }
  destruct (Z.eqb_spec e ENCODING_WRITEMASK) as [->|]; [apply unchanged_safe; [done|]; by apply translateMaskRegister_safe with i|].
  destruct (encoding_rm e) eqn:Erm.
  { assert (encoding_imm e = false) as ->.
    { destruct (encoding_imm e) eqn:E; [|done]. apply existsb_exists in E as (e' & Hin & <-%Z.eqb_eq).
      by destruct Hin as [<-|[<-|[<-|[<-|[<-|[<-|[]]]]]]]. }
    apply unchanged_safe; [done|]. by apply translateRM_safe. }
  destruct (encoding_imm e) eqn:Eimm.
  { cbv zeta. rewrite (proj2 (Z.leb_le _ _)), (proj2 (Z.ltb_lt _ _)) by lia. cbn [andb].
    set (i' := put i numImmediatesTranslated _). assert (same i0 i') as Hi'.
    { intros f Hf. subst i'. rewrite put_ne by done. by apply Hi. }
    eapply rsafe_mono; [apply passes_safe; [exact Hi'|]; apply translateImmediate_safe; [done|done|by rewrite Hi']|].
    intros r (H1 & H2 & H3). split_and!; [done|done|]. rewrite H3. subst i'. rewrite put_eq, u8_small by lia. lia. }
  destruct (Z.eqb_spec e ENCODING_SI) as [->|]; [apply unchanged_safe; [done|]; by apply translateSrcIndex_safe|].
  destruct (Z.eqb_spec e ENCODING_DI) as [->|]; [apply unchanged_safe; [done|]; by apply translateDstIndex_safe|].
  destruct (oneof e _) eqn:Eop.
  { apply passes_safe; [done|]. apply translateRegister_safe with i; [done..|]. rewrite Hi by done. apply Hu2. exact Eop. }
  destruct (Z.eqb_spec e ENCODING_FP) as [->|]; [apply passes_safe; [done|]; by apply translateFPRegister_safe with i|].
  destruct (Z.eqb_spec e ENCODING_VVVV) as [->|].
  { apply passes_safe; [done|]. apply translateRegister_safe with i; [done..|]. rewrite Hi by done. auto. }
  rewrite (proj2 (Z.eqb_neq _ _) Hd). split_and!; [apply grows_refl; [lia|done]|done|cbn; lia].
Qed.

Lemma translateOperand_dup mc o o' i :
  inst_ok mc -> McInst.size mc + 5 <= 48 -> same i0 i -> Forall (at_hand i0) (take 5 ops) -> o ∈ take 5 ops ->
  undup ops o = Some o' -> o'.1 <> ENCODING_DUP ->
  0 <= i numImmediatesTranslated -> i numImmediatesTranslated + immediates_of ops o <= 2 ->
  rsafe (translateOperand 2 ops mc o i) (translated (immediates_of ops o) mc i).
Proof using All.
  intros Hmc Hroom Hi Hu Hin Ho Hd Hn0. unfold immediates_of. rewrite Ho. intros Hn. unfold undup in Ho.
  rewrite Forall_forall in Hu. destruct (Z.eqb_spec o.1 ENCODING_DUP) as [Ed|Ed].
  - apply tget_Some in Ho as [H0 Ho]. assert (tget ops (o.2 - TYPE_DUP0) = Some o') as Et.
    { unfold tget. rewrite (proj2 (Z.leb_le _ _)) by lia. rewrite lookup_take in Ho. by case_decide. }
    destruct o as [e t]. cbn [fst snd] in *. subst e.
    change (translateOperand 2 ops mc (ENCODING_DUP, t) i) with
      (match tget ops (t - TYPE_DUP0) with Some op => translateOperand 1 ops mc op i | None => Fault end).
    rewrite Et. apply translateOperand_safe; try done. apply Hu. by eapply list_elem_of_lookup_2.
  - simplify_eq. apply translateOperand_safe; try done. by apply Hu.
Qed.

Hypothesis translatable : forallb (fun o => match undup ops o with Some o' => negb (o'.1 =? ENCODING_DUP) | None => false end) (take 5 ops) = true.
Hypothesis all_usable : Forall (at_hand i0) (take 5 ops).
Hypothesis ops_length : (5 <= length ops)%nat.

Lemma translate_loop_safe n index mc i :
  (index + n = 5)%nat -> inst_ok mc -> McInst.size mc + 5 * Z.of_nat n <= 48 -> same i0 i ->
  0 <= i numImmediatesTranslated -> i numImmediatesTranslated + count_immediates ops (drop index (take 5 ops)) <= 2 ->
  rsafe (translate_loop n ops (Z.of_nat index) mc i) (fun r => grows (5 * Z.of_nat n) mc r.1.2 /\ same i0 r.2).
Proof using All.
  revert index mc i. induction n as [|n IH]; intros index mc i Hin Hmc Hroom Hi Hn0 Hn.
  { cbn. split; [|done]. apply grows_refl; [lia|done]. }
  cbn [translate_loop]. destruct (lookup_lt_is_Some_2 ops index ltac:(lia)) as [o Eo].
  assert (tget ops (Z.of_nat index) = Some o) as -> by (unfold tget; rewrite (proj2 (Z.leb_le _ _)), Nat2Z.id by lia; done).
  assert (take 5 ops !! index = Some o) as Et by (rewrite lookup_take; case_decide; [done|lia]).
  rewrite (drop_S _ _ _ Et) in Hn. cbn [count_immediates fold_right] in Hn. fold (count_immediates ops (drop (S index) (take 5 ops))) in Hn.
  pose proof (count_nonneg ops (drop (S index) (take 5 ops))). pose proof (immediates_of_nonneg ops o).
  replace (Z.of_nat index + 1) with (Z.of_nat (S index)) by lia.
  destruct (negb (o.1 =? ENCODING_NONE)).
  - apply rsafe_bind. assert (o ∈ take 5 ops) as Hino by (by eapply list_elem_of_lookup_2).
    rewrite forallb_forall in translatable. pose proof (translatable o (proj1 (list_elem_of_In _ _) Hino)) as Ho.
    destruct (undup ops o) as [o'|] eqn:Eu; [|done]. apply negb_true_iff, Z.eqb_neq in Ho.
    eapply rsafe_mono; [by apply (translateOperand_dup mc o o' i); try done; lia|].
    intros [[failed mc'] i'] (H1 & H2 & H3). cbn [fst snd] in *. destruct failed.
    + cbn. split; [|done]. eapply grows_le; [|exact H1]. lia.
    + destruct H1 as [G1 G2 G3]. eapply rsafe_mono; [apply IH; try done; lia|].
      intros r [H4 H5]. split; [|done]. destruct H4 as [G4 G5 G6]. split; [done|lia|congruence].
  - eapply rsafe_mono; [apply IH; try done; lia|]. intros r [[G1 G2 G3] H5]. split; [|done]. split; [done|lia|done].
Qed.
End operands.

(** ** What the decoder gives *)

Lemma after_all_reg l x : reg_done (after_all l x) = reg_done x || existsb (fun o => o.1 =? ENCODING_REG) l.
Proof.
  revert x. induction l as [|o l IH]; intros x; [by rewrite orb_false_r|].
  change (after_all (o :: l) x) with (after_all l (after o.1 x)). rewrite IH. cbn [existsb after reg_done]. by rewrite orb_assoc.
Qed.
Lemma after_all_op l x : op_done (after_all l x) = op_done x || existsb (fun o => op_register o.1) l.
Proof.
  revert x. induction l as [|o l IH]; intros x; [by rewrite orb_false_r|].
  change (after_all (o :: l) x) with (after_all l (after o.1 x)). rewrite IH. cbn [existsb after op_done]. by rewrite orb_assoc.
Qed.
Lemma after_all_vvvv l x :
  vmax x = Some (MODRM_REG_max - 1) \/ existsb (fun o => o.1 =? ENCODING_VVVV) l = true ->
  vmax (after_all l x) = Some (MODRM_REG_max - 1).
Proof.
  revert x. induction l as [|o l IH]; intros x H; [destruct H; [done|discriminate]|].
  change (after_all (o :: l) x) with (after_all l (after o.1 x)). apply IH. cbn [existsb] in H. cbn [after vmax].
  destruct (o.1 =? ENCODING_VVVV); [by left|]. exact H.
Qed.

Lemma finished_usable start N md id s ops x i :
  finished_as start N md id s ops x i -> Forall (at_hand i) (take 5 ops).
Proof.
  intros (_ & _ & _ & (has & ->) & [Hi (Hb & Hl & Hc)] & _). rewrite Forall_forall. intros o Hin.
  assert (forall p : Z * Z -> bool, p o = true -> existsb p (take 5 ops) = true) as Hex.
  { intros p Hp. apply existsb_exists. exists o. split; [by apply list_elem_of_In|done]. }
  destruct Hb as (_ & _ & Hop & Hv). destruct (Hi reg) as [H1 _], (Hi opcodeRegister) as [H2 _], (Hi vvvv) as [H3 _].
  unfold has_type in *. cbn [ctype fst snd] in *. unfold at_hand, MODRM_REG_max in *. split_and!.
  - intros E. assert (reg_done (after_all (take 5 ops) (begin has)) = true) as Hd.
    { rewrite after_all_reg. cbn [orb begin reg_done]. apply Hex. by rewrite E. }
    destruct (Hl (Hc Hd)) as [_ Hr]. rewrite Hd in Hr. unfold MODRM_REG_max in Hr. lia.
  - intros E. assert (op_done (after_all (take 5 ops) (begin has)) = true) as Hd.
    { rewrite after_all_op. cbn [orb begin op_done]. by apply Hex. }
    specialize (Hop Hd). lia.
  - intros E. rewrite after_all_vvvv in Hv; [unfold MODRM_REG_max in Hv; lia|]. right. apply Hex. by rewrite E.
Qed.

Lemma translateInstruction_safe start N md i mc :
  finished start N md i -> inst_ok mc -> McInst.size mc = 0 ->
  rsafe (translateInstruction mc i)
    (fun r => inst_ok r.1.2 /\ McInst.size r.1.2 <= 25 /\ Opcode r.1.2 = i instructionID /\ same i r.2).
Proof.
  intros (id & s & ops & x & Hfin) Hmc Hsz. pose proof (finished_usable _ _ _ _ _ _ _ _ Hfin) as Hu.
  destruct Hfin as (Hid & Hs & Ho & _ & [Hi _] & E & _). unfold translateInstruction. rewrite E, Ho.
  pose proof (tget_all _ _ _ _ operand_sets_translatable Ho) as Ht. apply andb_true_iff in Ht as [Ht Hc%Z.leb_le].
  pose proof (tget_all _ _ _ _ operand_sets_shape Ho) as Hl. apply andb_true_iff in Hl as [Hl%Nat.eqb_eq _].
  destruct (Hi segmentOverride) as [Hg1 Hg2]. unfold has_type in Hg1. cbn [ctype fst snd] in Hg1.
  eapply rsafe_mono.
  { apply (translate_loop_safe i ops (conj (proj1 Hg1) Hg2) Ht Hu ltac:(lia) 5 0); [done|..].
    - by split; destruct Hmc.
    - cbn. lia.
    - intros f Hf. by rewrite put_ne.
    - by rewrite put_eq.
    - rewrite put_eq. exact Hc. }
  intros r [[G1 G2 G3] Hsame]. cbn in G2. split_and!; [done|lia|by rewrite G3|done].
Qed.

(** ** The entry point *)

Lemma read_byte_reads m code len addr :
  0 <= addr < 2 ^ 64 -> 0 <= len < 2 ^ 63 -> reads (read_byte (mk_info m code len addr)) addr len.
Proof.
  intros Ha Hl. split; [done|done| |]; unfold read_byte; cbn [rsize roffset rcode rbase].
  - intros a b. case_match; [done|]. intros [= <-]. apply (wrap_range 8). lia.
  - intros k b Hk. change (u64 (addr + k) - addr) with (u64 (addr + k) + - addr). rewrite wrap_add_l by lia.
    replace (addr + k + - addr) with k by lia. replace (u64 k) with k by (symmetry; apply wrap_small; lia).
    destruct (Z.leb_spec len k); [done|]. intros _. lia.
Qed.

Lemma mode_of_range hm : 0 <= mode_of hm < 3.
Proof. unfold mode_of. repeat case_match; by vm_compute. Qed.

Lemma update_pub_insn_safe start N md i d :
  finished start N md i -> rsafe (update_pub_insn d i) (fun d' => x_prefix d' = x_prefix d).
Proof.
  intros (id & s & ops & x & _ & _ & _ & _ & [Hi _] & _). unfold update_pub_insn. cbv zeta.
  destruct (Hi sibIndex) as [H1 H2], (Hi sibBase) as [H3 H4]. unfold has_type in *. cbn [ctype fst snd] in *.
  unfold x86_map_sib_index, x86_map_sib_base. apply index_then; [cbn [length sib_index_map]; lia|]. intros ?.
  apply index_then; [cbn [length sib_base_map]; lia|]. done.
Qed.

(** Of a finished instruction only members other than the count are used. *)
Lemma update_same i i' d : same i i' -> update_pub_insn d i' = update_pub_insn d i.
Proof. intros H. unfold update_pub_insn. by rewrite !H. Qed.
Lemma prefixes_same i i' : same i i' -> prefixes_of i' = prefixes_of i.
Proof. intros H. unfold prefixes_of. by rewrite !H. Qed.

Section entry.
Context (junk : insn) (h : cs_struct) (m : mem) (code len addr : Z).
Hypothesis junk_typed : typed junk.
Hypothesis addr_range : 0 <= addr < 2 ^ 64.
Hypothesis len_range : 0 <= len < 2 ^ 63.

(** The decoding in the entry point. *)
Lemma entry_decode :
  let md := mode_of (Cs.mode h) in
  wp (fits addr len md (loose 0))
    (decodeInstruction (read_byte (mk_info m code len addr)) (S (Z.to_nat len)) addr md)
    (fun _ i => finished addr len md i) (zeroed junk).
Proof using All.
  apply decode_reads; [by apply read_byte_reads|done|apply mode_of_range|lia].
Qed.

Lemma finished_size md i : finished addr len md i -> 1 <= u16 (i length_) <= Z.min 15 len.
Proof using Type. intros (id & s & ops & x & H). destruct H as (_ & _ & _ & _ & _ & _ & H1 & H2 & _). rewrite u16_small by lia. lia. Qed.

(** Whatever the instruction to fill, a decoded one has a size of the bytes there. *)
Lemma entry_size mc parts f :
  X86_getInstruction junk h m code len mc parts addr = Ok f -> fok f = true -> 1 <= fsize f <= Z.min 15 len.
Proof using All.
  pose proof entry_decode as H. cbv zeta in H. unfold wp in H. unfold X86_getInstruction. cbv zeta.
  destruct (decodeInstruction _ _ _ _ _) as [[] i|i| |]; [|by intros [= <-]|done..].
  pose proof (finished_size _ _ H) as Hs. destruct (translateInstruction _ _) as [[[failed mc'] i']| |]; [|done..]. cbn [rbind].
  repeat case_match; intros E; simplify_eq; try done.
  destruct (update_pub_insn _ _); cbn [rbind] in E; simplify_eq; done.
Qed.
End entry.

Lemma getInstruction_total junk h m code len mc parts addr :
  typed junk -> 0 <= addr < 2 ^ 64 -> 0 <= len < 2 ^ 63 -> inst_ok mc -> McInst.size mc = 0 ->
  (truth (Cs.detail h) = true -> x86_detail parts <> None) ->
  exists f, X86_getInstruction junk h m code len mc parts addr = Ok f /\ inst_ok (finst f) /\ 0 <= fsize f < 2 ^ 16 /\
    (fok f = true ->
       1 <= fsize f <= Z.min 15 len /\ 1 <= Opcode (finst f) < 1671 /\ McInst.size (finst f) <= 25 /\
       (truth (Cs.mode h .& CS_MODE_64) = true -> not_in_64 (finst f) = false) /\
       (truth (Cs.detail h) = true -> x86_detail (fparts f) <> None)) /\
    (fok f = true -> known (Opcode (finst f))).
Proof.
  intros Hj Ha Hl Hmc Hsz Hd. pose proof (entry_decode junk h m code len addr Hj Ha Hl) as H. cbv zeta in H. unfold wp in H.
  unfold X86_getInstruction. cbv zeta. destruct (decodeInstruction _ _ _ _ _) as [[] i|i| |]; try done.
  2: { eexists. split; [done|]. split; [done|]. split; [apply (wrap_range 16); lia|done]. }
  pose proof (finished_size len addr _ _ H) as Hs.
  destruct (rsafe_Ok _ _ (translateInstruction_safe _ _ _ _ _ H Hmc Hsz)) as ([[failed mc'] i'] & -> & Ho & Hsz' & Hop & Hsame).
  cbn [rbind fst snd] in *.
  assert (1 <= Opcode mc' < 1671 /\ known (Opcode mc')) as [Hop' Hkn].
  { rewrite Hop. destruct H as (id & s & ops & x & [Hid Hk] & _ & _ & _ & Hi & _). destruct (proj1 Hi instructionID) as (_ & -> & _).
    destruct Hk as [? ?]. split; [lia|by split]. }
  destruct failed; [eexists; split; [done|]; split; [done|]; split; [cbn; lia|done]|].
  destruct (truth (Cs.mode h .& CS_MODE_64) && not_in_64 mc') eqn:E64; [eexists; split; [done|]; split; [done|]; split; [cbn; lia|done]|].
  assert (truth (Cs.mode h .& CS_MODE_64) = true -> not_in_64 mc' = false) as H64.
  { intros E. by rewrite E in E64. }
  destruct (truth (Cs.detail h)) eqn:Ed.
  - destruct (x86_detail parts) as [d|]; [|by destruct Hd]. cbn [option_map].
    rewrite (update_same i i') by done.
    destruct (rsafe_Ok _ _ (update_pub_insn_safe _ _ _ _ (reset_x86 d) H)) as (d' & -> & _). cbn [rbind].
    eexists. split; [done|]. cbn [finst fsize fok fparts x86_detail]. split; [done|]. split; [lia|]. split; [|done]. intros _. split_and!; try done; lia.
  - eexists. split; [done|]. cbn [finst fsize fok fparts x86_detail]. split; [done|]. split; [lia|]. split; [|done]. intros _. split_and!; try done; lia.
Qed.

(** ** Theorems *)

(** C14: whatever the bytes, the address and the mode, [X86_getInstruction] ends
    without leaving the arrays of registers, immediates and operands.  An
    instruction it gives has between one and 15 bytes, all of them there, a known
    opcode and at most 25 operands; it is not LES or LDS for a handle of 64 bits,
    and it has details if the handle wants them. *)
Theorem X86_getInstruction_safe junk h m code len mc parts addr :
  typed junk -> 0 <= addr < 2 ^ 64 -> 0 <= len < 2 ^ 63 -> inst_ok mc -> McInst.size mc = 0 ->
  (truth (Cs.detail h) = true -> x86_detail parts <> None) ->
  exists f, X86_getInstruction junk h m code len mc parts addr = Ok f /\ inst_ok (finst f) /\ 0 <= fsize f < 2 ^ 16 /\
    (fok f = true ->
       1 <= fsize f <= Z.min 15 len /\ 1 <= Opcode (finst f) < 1671 /\ McInst.size (finst f) <= 25 /\
       (truth (Cs.mode h .& CS_MODE_64) = true -> not_in_64 (finst f) = false) /\
       (truth (Cs.detail h) = true -> x86_detail (fparts f) <> None)).
Proof.
  intros. destruct (getInstruction_total junk h m code len mc parts addr) as (f & ? & ? & ? & ? & _); [done..|]. by exists f.
Qed.

Definition demo_handle : cs_struct := mk_ud CS_ARCH_X86 CS_MODE_64 0 None true ERR_OK 0 None false 0 None.
Definition blank_mc : MCInst := mk_inst 0 0 false 0 0 (replicate 48 (mk_operand kInvalid 0)) false.
(** [sub rsp, 0x28]. *)
Definition demo_text : mem := fun a => nth (Z.to_nat (a - 100)) [0x48; 0x83; 0xec; 0x28] 0.

Lemma X86_getInstruction_safe_witness :
  exists f, X86_getInstruction blank demo_handle demo_text 100 4 blank_mc (mk_parts 0 [] None) 4096 = Ok f /\
    inst_ok (finst f) /\ 0 <= fsize f < 2 ^ 16 /\
    (fok f = true ->
       1 <= fsize f <= Z.min 15 4 /\ 1 <= Opcode (finst f) < 1671 /\ McInst.size (finst f) <= 25 /\
       (truth (Cs.mode demo_handle .& CS_MODE_64) = true -> not_in_64 (finst f) = false) /\
       (truth (Cs.detail demo_handle) = true -> x86_detail (fparts f) <> None)).
Proof.
  apply (X86_getInstruction_safe blank demo_handle demo_text 100 4 blank_mc (mk_parts 0 [] None) 4096).
  - apply blank_typed.
  - lia.
  - lia.
  - split; [reflexivity|vm_compute; split; discriminate].
  - reflexivity.
  - intros H. discriminate H.
Defined.
