(* ===== verification/X86Cs.v ===== *)
(** Capstone with its X86 back end: the decoder and the translation are an instance
    of the class that the core is verified against, with the real table of public
    ids, so that [cs_disasm] disassembles real code from one end to the other.
    The memory functions clear the blocks they give, as [kern_os_malloc] of the
    kernel does: that is what the search for a public id relies on. *)

From Stdlib Require Import ZArith Lia List Bool.
From stdpp Require Import prelude gmap.
From S2P Require Import Prelude McInst CsUtils Cs CsThm X86Tables X86Dec X86DecThm X86Dis X86DisThm X86Insns.

Open Scope Z_scope.

(** The details of an instruction before anything is known of it. *)
Definition zero_x86 : cs_x86 := mk_x86 [0; 0; 0; 0] [0; 0; 0; 0] 0 0 0 0 0 0 0 0 0 0 0 0 0 [].

Section back_end.
(** The stack below the functions; the printer, and the details that it writes. *)
Context (junk : insn) (junk_typed : typed junk).
Context (print : MCInst -> MCInst) (details : MCInst -> option cs_x86 -> cs_detail).

(** The parts of an instruction that [cs_disasm] passes. *)
Definition fresh_parts (h : cs_struct) : x86_parts :=
  mk_parts 0 [0; 0; 0; 0] (if truth (Cs.detail h) then Some zero_x86 else None).

Definition x86_fetch (h : cs_struct) (m : mem) (code len : Z) (mc : MCInst) (off : Z) : res fetched :=
  X86_getInstruction junk h m code len mc (fresh_parts h) (u64 off).

(** The function behind the handle; no object has [2^63] bytes, and an instruction
    to fill has its 48 operands and is empty. *)
Definition x86_disasm (h : cs_struct) (m : mem) (code len : Z) (mc : MCInst) (off : Z)
    : option (Z * MCInst * cs_detail) :=
  if (0 <=? len) && (len <? 2 ^ 63) && Nat.eqb (length (Operands mc)) 48 && (McInst.size mc =? 0) then
    match x86_fetch h m code len mc off with
    | Ok f => if fok f then Some (fsize f, finst f, details (finst f) (x86_detail (fparts f))) else None
    | _ => None
    end
  else None.

Lemma fetch_total h m code size mc off :
  0 <= size < 2 ^ 63 -> length (Operands mc) = 48%nat -> McInst.size mc = 0 ->
  exists f, x86_fetch h m code size mc off = Ok f /\
    (fok f = true -> 1 <= fsize f <= Z.min 15 size /\ fsize f < 2 ^ 16 /\ 1 <= Opcode (finst f)).
Proof using junk_typed.
  intros Hs Hmc H0.
  destruct (getInstruction_total junk h m code size mc (fresh_parts h) (u64 off)) as (f & E & _ & Hsz & H & _);
    [done|apply (wrap_range 64); lia|done|split; [done|lia]|done| |].
  - intros E. unfold fresh_parts. rewrite E. discriminate.
  - exists f. split; [done|]. intros Hf. destruct (H Hf) as (H1 & H2 & _). split_and!; lia.
Qed.

Lemma x86_disasm_inv h m code len mc off n mc' d :
  x86_disasm h m code len mc off = Some (n, mc', d) -> (0 < n <= len /\ n < 2 ^ 16) /\ 0 <= Opcode mc'.
Proof using junk_typed.
  unfold x86_disasm. destruct (Z.leb_spec 0 len), (Z.ltb_spec len (2 ^ 63)); cbn [andb]; try done.
  destruct (Nat.eqb_spec (length (Operands mc)) 48); cbn [andb]; [|done]. destruct (Z.eqb_spec (McInst.size mc) 0); [|done].
  destruct (fetch_total h m code len mc off) as (f & -> & Hf); [lia|done|done|].
  destruct (fok f); [|done]. intros [= <- <- _]. specialize (Hf eq_refl). lia.
Qed.

#[local] Instance x86_backend : backend := {|
  disasm := x86_disasm; insns := x86_insns; printer := print;
  disasm_size h m code len mc off n mc' d E := proj1 (x86_disasm_inv h m code len mc off n mc' d E);
  disasm_opcode h m code len mc off n mc' d E := proj2 (x86_disasm_inv h m code len mc off n mc' d E);
  insns_ok := x86_insns_ok |}.
#[local] Existing Instances zeroed_memory zeroed_ids.

(** The id that is shown for an instruction: what the printer set, or the entry of
    the table, or 0. *)
Definition x86_public_id (op : Z) : Z :=
  match find_spec x86_insns op with
  | Some k => match x86_insns !! Z.to_nat k with Some e => mapid e | None => 0 end
  | None => 0
  end.
Definition shown_id (mc : MCInst) : Z :=
  if truth (MCInst_getOpcodePub (print mc)) then MCInst_getOpcodePub (print mc) else x86_public_id (Opcode mc).

Lemma x86_public op : 0 <= op -> default uninit_id (public_id op) = x86_public_id op.
Proof using Type.
  intros Ho. unfold x86_public_id. destruct (find_spec x86_insns op) as [k|] eqn:E.
  - destruct (found_public op Ho) as (Hle & _); [by eexists|]. destruct (find_spec_Some _ _ _ E) as (Hk & e & He & _).
    unfold public_id, cache_index, index_of. rewrite (proj2 (Z.ltb_ge _ _)) by done. cbn [insns x86_backend].
    by rewrite E, (proj2 (Z.eqb_neq _ _)), He by lia.
  - unfold public_id, cache_index, index_of. cbn [insns x86_backend]. rewrite E. cbn [heap zeroed_memory].
    rewrite nth_replicate. by destruct (_ <? op).
Qed.

(** A sweep over the code: consecutive instructions, as far as they can be decoded. *)
Inductive sweep (h : cs_struct) (m : mem) (mc : MCInst) : Z -> Z -> Z -> list cs_insn -> Prop :=
  | sweep_end code off : sweep h m mc code 0 off []
  | sweep_stop code size off f :
      0 < size -> x86_fetch h m code size mc off = Ok f -> fok f = false -> sweep h m mc code size off []
  | sweep_insn code size off f x l :
      x86_fetch h m code size mc off = Ok f -> fok f = true -> 1 <= fsize f <= Z.min 15 size ->
      id x = shown_id (finst f) -> address x = off -> isize x = fsize f -> ibytes x = bytes m code (Z.to_nat (fsize f)) ->
      sweep h m mc (code + fsize f) (size - fsize f) (u64 (off + fsize f)) l -> sweep h m mc code size off (x :: l).

(** What a sweep sees of the handle. *)
Lemma sweep_errnum e h m mc code size off l : sweep (with_errnum e h) m mc code size off l -> sweep h m mc code size off l.
Proof using Type. induction 1; [constructor|by eapply sweep_stop|by eapply sweep_insn]. Qed.

Lemma decode_all_sweep stack h m org so oo fuel code size off :
  skipdata h = false -> length (Operands stack) = 48%nat -> 0 <= size < 2 ^ 63 -> size < Z.of_nat fuel ->
  sweep h m (MCInst_Init stack) code size off (fst <$> decode_all stack fuel h m org so oo code size off).
Proof using All.
  intros Hsk Hst. revert code size off. induction fuel as [|fuel IH]; intros code size off Hs Hf; [lia|]. cbn [decode_all].
  destruct (Z.ltb_spec 0 size) as [Hpos|]; [|replace size with 0 by lia; constructor].
  assert (length (Operands (MCInst_Init stack)) = 48%nat) as Hmc by (cbn; by rewrite length_map, length_take, Hst).
  destruct (fetch_total h m code size (MCInst_Init stack) off Hs Hmc eq_refl) as (f & E & Hf').
  unfold decode_one. cbn [disasm x86_backend]. unfold x86_disasm.
  rewrite (proj2 (Z.leb_le _ _)), (proj2 (Z.ltb_lt _ _)), Hmc by lia. cbn [andb Nat.eqb]. change (McInst.size (MCInst_Init stack) =? 0) with true.
  cbv iota. rewrite E. destruct (fok f) eqn:Ef.
  - destruct (Hf' eq_refl) as (H1 & H2 & H3). rewrite fmap_cons. cbn [fst]. rewrite x86_public by lia.
    eapply sweep_insn; [done|done|done|done|done|..].
    + cbn. lia.
    + cbn -[Z.min]. by rewrite Z.min_r, Z.add_simpl_r by lia.
    + apply IH; lia.
  - unfold skip. rewrite Hsk. by eapply sweep_stop.
Qed.

End back_end.

(** [push rbp; mov rbp, rsp; ret]. *)
Definition demo_function : mem := fun a => nth (Z.to_nat (a - 100)) [0x55; 0x48; 0x89; 0xe5; 0xc3] 0.
Definition full_stack : MCInst := mk_inst 0 0 false 0 0 (replicate 48 (mk_operand kInvalid 0)) false.
Definition no_details (_ : MCInst) (_ : option cs_x86) : cs_detail := mk_detail [] [] [] [].
Definition demo_backend : backend := x86_backend blank blank_typed (fun mc => mc) no_details.


(** The three instructions of that function, with the ids of [push], [mov] and
    [ret]. *)
Example demo_decoded :
  map (fun v : view => (id v.1, address v.1, isize v.1))
    (decode_all (Hbe := demo_backend) (Hfm := zeroed_memory) full_stack 6 (run_handle false) demo_function 100 5 0x1000 100 5 0x1000)
  = [(580, 0x1000, 1); (442, 0x1001, 3); (149, 0x1004, 1)].
Proof. vm_compute. reflexivity. Qed.

(** With memory that is not cleared the public id of [cmovs] is read outside of
    the table. *)
Definition demo_cmovs : mem := fun a => nth (Z.to_nat (a - 100)) [0x0f; 0x48; 0xc1] 0.

Theorem prefix_id_outside :
  cs_disasm (Hbe := demo_backend) (Hfm := dead_memory) full_stack 6 1 demo_cmovs 100 3 0x1000 0 (run_world false []) = WStuck.
Proof. vm_compute. reflexivity. Qed.
