(* ===== verification/Mach.v ===== *)
(** The images of Lilu ([src/Lilu/Lilu/Sources/kern_mach.cpp], 64 bits): the
    headers of Mach-O images in memory, their load commands, sections and symbols,
    and where a kernel or a kext runs.  [MachFile.v] reads them from files.

    Memory is read with [ld], which faults outside of what it may read.  The members
    of [MachInfo] are a function from their names, truth values are numbers.
    Addresses are 64 bits wide; an address of an image plus 32 bits does not wrap,
    other sums do. *)

From Stdlib Require Import ZArith List Bool.
From stdpp Require Import prelude.
From S2P Require Import Prelude.

Open Scope Z_scope.
Open Scope c_scope.

(** ** Constants and layouts *)

Definition MH_MAGIC : Z := 0xfeedface.
Definition MH_MAGIC_64 : Z := 0xfeedfacf.
Definition FAT_MAGIC : Z := 0xcafebabe.
Definition FAT_CIGAM : Z := 0xbebafeca.
Definition LC_SEGMENT : Z := 0x1.
Definition LC_SYMTAB : Z := 0x2.
Definition LC_SEGMENT_64 : Z := 0x19.
Definition LC_UUID : Z := 0x1b.
Definition CPU_TYPE_X86_64 : Z := 0x01000007.
Definition N_STAB : Z := 0xe0.
Definition MH_FILESET : Z := 0xC.
(** [PAGE_SIZE]. *)
Definition MACH_PAGE : Z := 4096.
Definition HeaderSize : Z := MACH_PAGE * 2.
Definition KASLRAlignment : Z := 0x100000.
Definition CompressionMagic : Z := 0x706D6F63.

Definition sizeof_mach_header : Z := 28.
Definition sizeof_mach_header_64 : Z := 32.
Definition sizeof_load_command : Z := 8.
Definition sizeof_nlist_64 : Z := 16.
Definition sizeof_fat_header : Z := 8.
Definition sizeof_fat_arch : Z := 20.
Definition sizeof_compression_header : Z := 384.

Definition OSSwapInt32 (v : Z) : Z :=
  ((v .& 0xff) .<< 24) .| (((v .>> 8) .& 0xff) .<< 16) .| (((v .>> 16) .& 0xff) .<< 8) .| ((v .>> 24) .& 0xff).
Definition swapped (swap : bool) (v : Z) : Z := if swap then OSSwapInt32 v else v.

(** [isAligned], for the structures here. *)
Definition aligned (a : Z) : bool := a mod 4 =? 0.

(** The names that the code looks for: [__TEXT] and so on, without the last zero. *)
Definition str_TEXT : list Z := [95; 95; 84; 69; 88; 84].
Definition str_LINKEDIT : list Z := [95; 95; 76; 73; 78; 75; 69; 68; 73; 84].
Definition str_TEXT_EXEC : list Z := [95; 95; 84; 69; 88; 84; 95; 69; 88; 69; 67].

(** ** The state *)

Inductive mfield :=
  | running_text_addr | disk_text_addr | kaslr_slide | prelink_vmaddr | sym_buf | sym_buf_ro | sym_fileoff | sym_size
  | symboltable_fileoff | symboltable_nr_symbols | stringtable_fileoff | stringtable_size | running_mh | address_slots
  | address_slots_end | file_buf | file_buf_size | fat_offset | prelink_addr | memory_size | kaslr_slide_set | prelink_slid | kernel_collection | self_uuid0 | self_uuid1
  (* the static variables of [findKernelBase]: every object keeps them *)
  | m_kernel_base | m_kernel_collection.

#[export] Instance mfield_eq_dec : EqDecision mfield.
Proof. solve_decision. Defined.

Definition MachInfo : Type := mfield -> Z.
Definition mput (i : MachInfo) (f : mfield) (v : Z) : MachInfo := fun g => if decide (g = f) then v else i g.
Notation "i .[ f := v ]" := (mput i f v) (at level 1, left associativity, format "i .[ f := v ]").

(** What is done with a load command: go on, or stop. *)
Inductive verdict (A B : Type) := Next (a : A) | Stop (b : B).
Arguments Next {A B} a.
Arguments Stop {A B} b.
(** The end of a walk: a command said so, all are seen, or one is not valid. *)
Inductive ending (A B : Type) := Stopped (b : B) | Through (a : A) | Invalid (a : A).
Arguments Stopped {A B} b.
Arguments Through {A B} a.
Arguments Invalid {A B} a.

Section mach.
Context (ld : nat -> Z -> res Z).

(** [!strncmp(p, s, n)] with [p] at an address. *)
Fixpoint strneq (n : nat) (p : Z) (s : list Z) : res bool :=
  match n with
  | O => Ok true
  | S n' =>
      let! c := ld 1 p in
      match s with
      | [] => Ok (c =? 0)
      | x :: s' => if c =? x then strneq n' (p + 1) s' else Ok false
      end
  end.

(** ** Load commands *)

(** The loop over [n] load commands that most functions share, with what they do
    with a command. *)
Fixpoint each_command {A B} (n : nat) (endaddr addr : Z) (body : Z -> Z -> A -> res (verdict A B)) (a : A)
    : res (ending A B) :=
  match n with
  | O => Ok (Through a)
  | S n' =>
      if negb (aligned addr) then Ok (Invalid a)
      else if endaddr <? addr + sizeof_load_command then Ok (Invalid a)
      else
        let! cmdsize := ld 4 (addr + 4) in
        if endaddr <? addr + cmdsize then Ok (Invalid a)
        else
          let! cmd := ld 4 addr in
          let! v := body addr cmd a in
          match v with
          | Stop b => Ok (Stopped b)
          | Next a => each_command n' endaddr (addr + cmdsize) body a
          end
  end.

(** [segname] of a segment command. *)
Definition segment_named (addr : Z) (s : list Z) : res bool := strneq 16 (addr + 8) s.

(** What [processMachHeader] takes from a command. *)
Definition note_command (addr cmd : Z) (i : MachInfo) : res MachInfo :=
  if cmd =? LC_SEGMENT_64 then
    let! text := segment_named addr str_TEXT in
    if text : bool then let! v := ld 8 (addr + 24) in Ok (i.[disk_text_addr := v])
    else
      let! linkedit := segment_named addr str_LINKEDIT in
      if linkedit : bool then
        let! fo := ld 8 (addr + 40) in
        let! fs := ld 8 (addr + 48) in
        Ok (i.[sym_fileoff := fo].[sym_size := fs])
      else Ok i
  else if cmd =? LC_SYMTAB then
    let! symoff := ld 4 (addr + 8) in
    let! nsyms := ld 4 (addr + 12) in
    let! stroff := ld 4 (addr + 16) in
    let! strsize := ld 4 (addr + 20) in
    Ok (i.[symboltable_fileoff := symoff].[symboltable_nr_symbols := nsyms]
         .[stringtable_fileoff := stroff].[stringtable_size := strsize])
  else Ok i.

Definition processMachHeader (i : MachInfo) (header : Z) : res MachInfo :=
  let! ncmds := ld 4 (header + 16) in
  let! e := each_command (B := Empty_set) (Z.to_nat ncmds) (header + HeaderSize) (header + sizeof_mach_header_64)
              (fun addr cmd i => let! i := note_command addr cmd i in Ok (Next i)) i in
  match e with
  | Through i | Invalid i => Ok i
  | Stopped b => match b with end
  end.

(** The address of the identifier of an image, or null. *)
Definition getUUID (header : Z) : res Z :=
  if header =? 0 then Ok 0
  else
    let! ncmds := ld 4 (header + 16) in
    let! e := each_command (Z.to_nat ncmds) (header + HeaderSize) (header + sizeof_mach_header_64)
                (fun addr cmd _ => Ok (if cmd =? LC_UUID then Stop (addr + 8) else Next tt)) tt in
    match e with
    | Stopped p => Ok p
    | _ => Ok 0
    end.

(** [leopard]: whether the kernel is of 10.5 or later. *)
Definition loadUUID (leopard : bool) (i : MachInfo) (header : Z) : res (bool * MachInfo) :=
  if negb leopard then Ok (true, i)
  else
    let! p := getUUID header in
    if truth p then
      let! a := ld 8 p in
      let! b := ld 8 (p + 8) in
      Ok (true, i.[self_uuid0 := a].[self_uuid1 := b])
    else Ok (false, i).

(** ** The kernel in memory *)

(** Whether a header at [tmp] has a [__TEXT] segment. *)
Definition has_text (tmp : Z) : res bool :=
  let! ncmds := ld 4 (tmp + 16) in
  let! e := each_command (Z.to_nat ncmds) (tmp + HeaderSize) (tmp + sizeof_mach_header_64)
              (fun addr cmd _ =>
                 if cmd =? LC_SEGMENT_64 then
                   let! text := segment_named addr str_TEXT in
                   Ok (if text : bool then Stop tt else Next tt)
                 else Ok (Next tt)) tt in
  Ok (match e with Stopped _ => true | _ => false end).

(** Whether it is that of a collection. *)
Definition is_fileset (mh : Z) : res bool :=
  let! filetype := ld 4 (mh + 12) in
  if filetype =? MH_FILESET then
    let! flags := ld 4 (mh + 24) in
    if flags =? 0 then let! reserved := ld 4 (mh + 28) in Ok (reserved =? 0) else Ok false
  else Ok false.

(** The search backwards: the base, and whether it is one of a collection.
    [bigsur] and [snowleopard]: the kernel is of that version or later. *)
Fixpoint search_base (fuel : nat) (bigsur snowleopard : bool) (tmp : Z) : res (Z * bool) :=
  match fuel with
  | O => NoFuel
  | S f =>
      let! magic := ld 4 tmp in
      let next := search_base f bigsur snowleopard (u64 (tmp - (if snowleopard then KASLRAlignment else MACH_PAGE))) in
      if magic =? MH_MAGIC_64 then
        let! fileset := (if bigsur then is_fileset tmp else Ok false) in
        if fileset : bool then Ok (tmp, true)
        else
          let! found := has_text tmp in
          if found : bool then Ok (tmp, false) else next
      else next
  end.

(** [IOLog]: its address. *)
Definition findKernelBase (fuel : nat) (bigsur snowleopard : bool) (IOLog : Z) (i : MachInfo) : res (Z * MachInfo) :=
  if truth (i m_kernel_base) then Ok (i m_kernel_base, i.[kernel_collection := i m_kernel_collection])
  else
    let! '(tmp, kc) := search_base fuel bigsur snowleopard (IOLog .& u64 (Z.lnot (KASLRAlignment - 1))) in
    let i := if kc : bool then i.[kernel_collection := 1].[m_kernel_collection := 1] else i in
    Ok (tmp, i.[m_kernel_base := tmp]).

Definition initFromMemory (fuel : nat) (bigsur snowleopard : bool) (IOLog : Z) (i : MachInfo) : res (bool * MachInfo) :=
  if negb bigsur then Ok (false, i)
  else
    let! '(_, i) := findKernelBase fuel bigsur snowleopard IOLog i in
    Ok (truth (i kernel_collection), i).

Definition isCurrentBinary (fuel : nat) (leopard bigsur snowleopard : bool) (IOLog : Z) (i : MachInfo) (base : Z)
    : res (bool * MachInfo) :=
  if truth (i kernel_collection) then Ok (true, i)
  else if negb leopard then Ok (true, i)
  else
    let! '(binaryBase, i) :=
      (if truth base then Ok (base, i) else findKernelBase fuel bigsur snowleopard IOLog i) in
    let! p := (if truth binaryBase then getUUID binaryBase else Ok 0) in
    if truth p then
      let! a := ld 8 p in
      if i self_uuid0 =? a then let! b := ld 8 (p + 8) in Ok (i self_uuid1 =? b, i) else Ok (false, i)
    else Ok (false, i).

(** ** Where an image runs *)

(** The end of the free space behind a header: the mask clears one bit only, so the
    address is not that of a page. *)
Fixpoint skip_zeroes (fuel : nat) (a : Z) : res Z :=
  match fuel with
  | O => NoFuel
  | S f => let! w := ld 4 a in if w =? 0 then skip_zeroes f (u64 (a + MACH_PAGE)) else Ok a
  end.
Definition find_slots (fuel : nat) (i : MachInfo) (mh : Z) : res MachInfo :=
  let! sizeofcmds := ld 4 (mh + 20) in
  let start := u64 (mh + sizeof_mach_header_64 + sizeofcmds) in
  let! e := skip_zeroes fuel (u64 (start + (MACH_PAGE - 1)) .& u64 (Z.lnot MACH_PAGE)) in
  Ok (i.[address_slots := start].[address_slots_end := e]).

(** The loops of [kcGetRunningAddresses] check no bounds. *)
Fixpoint find_inner (n : nat) (addr : Z) : res (option Z) :=
  match n with
  | O => Ok None
  | S n' =>
      let! cmd := ld 4 addr in
      let! found := (if cmd =? LC_SEGMENT_64 then segment_named addr str_TEXT_EXEC else Ok false) in
      if found : bool then let! v := ld 8 (addr + 24) in Ok (Some v)
      else
        let! cmdsize := ld 4 (addr + 4) in
        find_inner n' (addr + cmdsize)
  end.
Definition kc_command (addr cmd : Z) (i : MachInfo) (last_addr : Z) : res (MachInfo * Z) :=
  if cmd =? LC_SEGMENT_64 then
    let! vmaddr := ld 8 (addr + 24) in
    let! vmsize := ld 8 (addr + 32) in
    let! linkedit := (if negb (truth (i sym_buf)) then segment_named addr str_LINKEDIT else Ok false) in
    if linkedit : bool then
      let! fo := ld 8 (addr + 40) in
      Ok (i.[sym_buf := vmaddr].[sym_fileoff := fo].[sym_size := vmsize].[sym_buf_ro := 1], last_addr)
    else Ok (i, if last_addr <? u64 (vmaddr + vmsize) then u64 (vmaddr + vmsize) else last_addr)
  else if negb (truth (i symboltable_fileoff)) && (cmd =? LC_SYMTAB) then
    let! symoff := ld 4 (addr + 8) in
    let! nsyms := ld 4 (addr + 12) in
    let! stroff := ld 4 (addr + 16) in
    Ok (i.[symboltable_fileoff := symoff].[symboltable_nr_symbols := nsyms].[stringtable_fileoff := stroff], last_addr)
  else Ok (i, last_addr).
Fixpoint kc_commands (n : nat) (addr : Z) (i : MachInfo) (last_addr : Z) : res (MachInfo * Z) :=
  match n with
  | O => Ok (i, last_addr)
  | S n' =>
      let! cmd := ld 4 addr in
      let! '(i, last_addr) := kc_command addr cmd i last_addr in
      let! cmdsize := ld 4 (addr + 4) in
      kc_commands n' (addr + cmdsize) i last_addr
  end.

Definition kcGetRunningAddresses (fuel : nat) (bigsur snowleopard isKernel : bool) (IOLog : Z) (i : MachInfo) (slide : Z)
    : res (bool * MachInfo) :=
  let! '(base, i) :=
    (if truth slide then Ok (slide, i) else findKernelBase fuel bigsur snowleopard IOLog i) in
  if base =? 0 then Ok (false, i)
  else
    let! inner :=
      (if isKernel then let! ncmds := ld 4 (base + 16) in find_inner (Z.to_nat ncmds) (base + sizeof_mach_header_64)
       else Ok (Some base)) in
    match inner with
    | None => Ok (false, i)
    | Some 0 => Ok (false, i)
    | Some inner =>
        let! ncmds := ld 4 (inner + 16) in
        let! '(i, last_addr) := kc_commands (Z.to_nat ncmds) (inner + sizeof_mach_header_64) i 0 in
        if negb (truth (i sym_buf)) || negb (truth (i symboltable_fileoff)) then Ok (false, i)
        else if last_addr <? inner then Ok (false, i)
        else
          let i := i.[kaslr_slide_set := 1].[prelink_slid := 1].[running_mh := inner].[memory_size := last_addr - inner] in
          if truth slide || isKernel then let! i := find_slots fuel i inner in Ok (true, i)
          else Ok (true, i)
    end.

(** The search for [__TEXT]; [None] when a command is not valid. *)
Definition running_text (i : MachInfo) (base : Z) : res (option MachInfo) :=
  let! ncmds := ld 4 (base + 16) in
  let! e := each_command (Z.to_nat ncmds) (base + HeaderSize) (base + sizeof_mach_header_64)
              (fun addr cmd _ =>
                 if cmd =? LC_SEGMENT_64 then
                   let! text := segment_named addr str_TEXT in
                   if text : bool then let! v := ld 8 (addr + 24) in Ok (Stop v) else Ok (Next tt)
                 else Ok (Next tt)) tt in
  Ok (match e with
      | Stopped v => Some (i.[running_text_addr := v].[running_mh := base])
      | Through _ => Some i
      | Invalid _ => None
      end).

Definition getRunningAddresses (fuel : nat) (bigsur snowleopard isKernel : bool) (IOLog : Z) (i : MachInfo)
    (slide size : Z) (force : bool) : res (bool * MachInfo) :=
  let i := if force then i.[kaslr_slide_set := 0].[running_mh := 0].[running_text_addr := 0].[memory_size := 0] else i in
  if truth (i kaslr_slide_set) then Ok (true, i)
  else
    let i := if 0 <? size then i.[memory_size := size] else i in
    let! '(base, i) :=
      (if truth slide then Ok (slide, i) else findKernelBase fuel bigsur snowleopard IOLog i) in
    if truth (i kernel_collection) && negb (truth (i sym_buf)) then kcGetRunningAddresses fuel bigsur snowleopard isKernel IOLog i slide
    else
      let! o := (if negb (base =? 0) then running_text i base else Ok (Some i)) in
      match o with
      | None => Ok (false, i)
      | Some i =>
          if truth (i running_text_addr) && truth (i running_mh) then
            let i := i.[kaslr_slide :=
                          if negb (truth slide) then u64 (i running_text_addr - i disk_text_addr)
                          else if truth (i prelink_slid) then i prelink_vmaddr else slide].[kaslr_slide_set := 1] in
            let! i := find_slots fuel i (i running_mh) in
            Ok (true, i)
          else Ok (false, i)
      end.

Definition setRunningAddresses (i : MachInfo) (slide size : Z) : MachInfo :=
  i.[memory_size := size].[kaslr_slide := slide].[kaslr_slide_set := 1].
Definition getRunningPosition (i : MachInfo) : Z * Z :=
  (i running_mh, if 0 <? i memory_size then i memory_size else HeaderSize).

(** ** Sections *)

(** What [findSectionBounds] finds: the addresses of the segment and the section,
    the place and the size of its data. *)
Record bounds_ := mk_bounds { vmsegment : Z; vmsection : Z; sectionptr : Z; sectionSize : Z }.
Definition no_section : bounds_ := mk_bounds 0 0 0 0.

(** The two widths of segments and sections: sizes of the structures, the width of
    an address and the places of members. *)
Record layout := mk_layout {
  sizeof_segment : Z; sizeof_section : Z; word : nat; nsects_at : Z; size_at : Z; offset_at : Z
}.
Definition layout32 : layout := mk_layout 56 68 4 48 36 40.
Definition layout64 : layout := mk_layout 72 80 8 64 40 48.

(** The loop over [n] sections from [sect] on of the segment command at [scmd];
    [ptr] and [endaddr] are the image.  [Some] ends the lookup. *)
Fixpoint find_section (l : layout) (n : nat) (ptr endaddr scmd sect : Z) (name : list Z) : res (option bounds_) :=
  match n with
  | O => Ok None
  | S n' =>
      let! same := strneq 16 sect name in
      if same : bool then
        let! offset := ld 4 (sect + offset_at l) in
        let! size := ld (word l) (sect + size_at l) in
        if endaddr <? u64 (ptr + offset + size) then Ok (Some no_section)
        else
          let! vmaddr := ld (word l) (scmd + 24) in
          let! addr := ld (word l) (sect + 32) in
          Ok (Some (mk_bounds vmaddr addr (ptr + offset) size))
      else find_section l n' ptr endaddr scmd (sect + sizeof_section l) name
  end.

(** A segment command of a layout. *)
Definition in_segment (l : layout) (ptr endaddr scmd : Z) (segmentName sectionName : list Z) : res (verdict unit bounds_) :=
  let! same := segment_named scmd segmentName in
  if same : bool then
    let! nsects := ld 4 (scmd + nsects_at l) in
    if endaddr <? u64 (scmd + sizeof_segment l + sizeof_section l * nsects) then Ok (Stop no_section)
    else
      let! o := find_section l (Z.to_nat nsects) ptr endaddr scmd (scmd + sizeof_segment l) sectionName in
      Ok (match o with Some b => Stop b | None => Next tt end)
  else Ok (Next tt).

(** The lookup behind a header of one architecture. *)
Definition thin_bounds (ptr sourceSize cmd : Z) (segmentName sectionName : list Z) : res bounds_ :=
  let endaddr := ptr + sourceSize in
  let! ncmds := ld 4 (ptr + 16) in
  let! e := each_command (Z.to_nat ncmds) endaddr cmd
              (fun addr cmd _ =>
                 if cmd =? LC_SEGMENT then in_segment layout32 ptr endaddr addr segmentName sectionName
                 else if cmd =? LC_SEGMENT_64 then in_segment layout64 ptr endaddr addr segmentName sectionName
                 else Ok (Next tt)) tt in
  Ok (match e with Stopped b => b | _ => no_section end).

(** The entries of a fat header: the first for the processor, with its offset and
    size. *)
Fixpoint find_arch (n : nat) (swap : bool) (farch cpu : Z) : res (option (Z * Z)) :=
  match n with
  | O => Ok None
  | S n' =>
      let! rcpu := ld 4 farch in
      if swapped swap rcpu =? cpu then
        let! off := ld 4 (farch + 8) in
        let! sz := ld 4 (farch + 12) in
        Ok (Some (swapped swap off, swapped swap sz))
      else find_arch n' swap (farch + sizeof_fat_arch) cpu
  end.

Definition too_many (num : Z) : bool := HeaderSize - sizeof_fat_arch <? num * sizeof_fat_arch.

(** The recursion passes a processor of zero, which ends it. *)
Fixpoint findSectionBounds (depth : nat) (ptr sourceSize : Z) (segmentName sectionName : list Z) (cpu : Z) : res bounds_ :=
  if negb (aligned ptr) || (sourceSize <? HeaderSize) then Ok no_section
  else
    let! magic := ld 4 ptr in
    if magic =? MH_MAGIC_64 then thin_bounds ptr sourceSize (ptr + sizeof_mach_header_64) segmentName sectionName
    else if magic =? MH_MAGIC then thin_bounds ptr sourceSize (ptr + sizeof_mach_header) segmentName sectionName
    else if (magic =? FAT_CIGAM) || (magic =? FAT_MAGIC) then
      if cpu =? 0 then Ok no_section
      else
        let swap := magic =? FAT_CIGAM in
        let! num := ld 4 (ptr + 4) in
        let num := swapped swap num in
        if too_many num then Ok no_section
        else
          let! o := find_arch (Z.to_nat num) swap (ptr + sizeof_fat_header) cpu in
          match o with
          | None => Ok no_section
          | Some (off, sz) =>
              if sourceSize <? off + sz then Ok no_section
              else
                match depth with
                | O => NoFuel
                | S d => findSectionBounds d (ptr + off) (sourceSize - off) segmentName sectionName 0
                end
          end
    else thin_bounds ptr sourceSize ptr segmentName sectionName.

(** ** Symbols *)

(** The loop over [n] symbols at [nlist]. *)
Fixpoint find_symbol (n : nat) (nlist strlist endaddr : Z) (symbol : list Z) : res (option Z) :=
  match n with
  | O => Ok None
  | S n' =>
      if u64 (nlist + sizeof_nlist_64) <=? endaddr then
        let! n_strx := ld 4 nlist in
        let symbolStr := u64 (strlist + n_strx) in
        let symlen := Z.of_nat (length symbol) + 1 in
        let! n_type := ld 1 (nlist + 4) in
        let! same :=
          (if (u64 (symbolStr + symlen) <=? endaddr) && (n_type .& N_STAB =? 0)
           then strneq (Z.to_nat symlen) symbolStr symbol else Ok false) in
        if same : bool then let! v := ld 8 (nlist + 8) in Ok (Some v)
        else find_symbol n' (u64 (nlist + sizeof_nlist_64)) strlist endaddr symbol
      else Ok None
  end.

Definition solveSymbol (i : MachInfo) (symbol : list Z) : res Z :=
  if negb (truth (i sym_buf)) then Ok 0
  else if negb (truth (i symboltable_fileoff)) then Ok 0
  else if negb (truth (i kaslr_slide_set)) then Ok 0
  else
    let nlist := u64 (i sym_buf + (i symboltable_fileoff - i sym_fileoff)) in
    let strlist := u64 (i sym_buf + (i stringtable_fileoff - i sym_fileoff)) in
    let endaddr := u64 (i sym_buf + i sym_size) in
    if (i sym_buf <=? nlist) && (i sym_buf <=? strlist) then
      let! o := find_symbol (Z.to_nat (i symboltable_nr_symbols)) nlist strlist endaddr symbol in
      match o with
      | Some v => Ok (u64 (v + i kaslr_slide))
      | None => Ok 0
      end
    else Ok 0.
End mach.
