(* ===== verification/MachThm.v ===== *)
(** Theorems on the images of Lilu ([Mach.v]): the headers are read as they are
    written, symbols are found where they are, lookups stay near their buffers, and
    what goes wrong with headers that are not as they should be. *)

From Stdlib Require Import ZArith Lia List Bool.
From stdpp Require Import prelude.
From S2P Require Import Prelude Mach.

Open Scope Z_scope.
Open Scope c_scope.

(** Loads from the memory between two addresses. *)
Definition mload (m : mem) (lo hi : Z) (n : nat) (a : Z) : res Z :=
  if (lo <=? a) && (a + Z.of_nat n <=? hi) then Ok (ldn n m a) else Fault.

Lemma mload_ok m lo hi n a : lo <= a -> a + Z.of_nat n <= hi -> mload m lo hi n a = Ok (ldn n m a).
Proof. intros H1 H2. unfold mload. by rewrite (proj2 (Z.leb_le _ _)), (proj2 (Z.leb_le _ _)) by lia. Qed.

Lemma mput_eq i f v : mput i f v f = v.
Proof. unfold mput. by rewrite decide_True. Qed.
Lemma mput_ne i f g v : g <> f -> mput i f v g = i g.
Proof. intros H. unfold mput. by rewrite decide_False. Qed.

(** ** Names *)

(** A name in a field of [n] bytes. *)
Definition is_named (m : mem) (n : nat) (a : Z) (s : list Z) : Prop :=
  Forall (fun c => 0 < c < 256) s /\ (length s <= n)%nat /\
  (forall k c, s !! k = Some c -> ldb m (a + Z.of_nat k) = c) /\
  ((length s < n)%nat -> ldb m (a + Z.of_nat (length s)) = 0).

Lemma ldn_byte1 m a : ldn 1 m a = ldb m a.
Proof. cbn [ldn]. lia. Qed.

Lemma is_named_cons m n a c s : is_named m (S n) a (c :: s) <-> 0 < c < 256 /\ ldb m a = c /\ is_named m n (a + 1) s.
Proof.
  split.
  - intros (H1 & H2 & H3 & H4). inversion H1; subst. cbn [length] in *. split; [done|]. split.
    + rewrite <- (Z.add_0_r a). by apply (H3 0%nat).
    + split; [done|]. split; [lia|]. split.
      * intros k c' Hk. replace (a + 1 + Z.of_nat k) with (a + Z.of_nat (S k)) by lia. by apply H3.
      * intros Hl. replace (a + 1 + Z.of_nat (length s)) with (a + Z.of_nat (S (length s))) by lia. apply H4. lia.
  - intros (H1 & H2 & (H3 & H4 & H5 & H6)). split; [by constructor|]. split; [cbn; lia|]. split.
    + intros [|k] c' Hk; [injection Hk as <-; by rewrite Z.add_0_r|].
      replace (a + Z.of_nat (S k)) with (a + 1 + Z.of_nat k) by lia. by apply H5.
    + cbn [length]. intros Hl. replace (a + Z.of_nat (S (length s))) with (a + 1 + Z.of_nat (length s)) by lia. apply H6. lia.
Qed.

(** The comparison decides whether the name is there, without leaving it. *)
Lemma strneq_spec m lo hi n a s :
  Forall (fun c => 0 < c < 256) s -> (length s <= n)%nat -> lo <= a -> a + Z.of_nat n <= hi ->
  exists b, strneq (mload m lo hi) n a s = Ok b /\ (b = true <-> is_named m n a s).
Proof.
  revert a s. induction n as [|n IH]; intros a s Hs Hl Hlo Hhi; cbn [strneq].
  { destruct s; [|cbn in Hl; lia]. exists true. split; [done|]. split; [|done]. intros _. split_and!; [done|cbn; lia|done|cbn; lia]. }
  rewrite mload_ok by lia. cbn [rbind]. rewrite ldn_byte1. destruct s as [|x s].
  - exists (ldb m a =? 0). split; [done|]. rewrite Z.eqb_eq. split.
    + intros E. split_and!; [done|cbn; lia|done|]. intros _. by rewrite Z.add_0_r.
    + intros (_ & _ & _ & H). rewrite <- (Z.add_0_r a). apply H. cbn. lia.
  - inversion Hs; subst. cbn [length] in Hl. destruct (Z.eqb_spec (ldb m a) x) as [E|E].
    + destruct (IH (a + 1) s) as (b & -> & Hb); [done|lia|lia|lia|]. exists b. split; [done|]. rewrite Hb, is_named_cons. tauto.
    + exists false. split; [done|]. rewrite is_named_cons. split; [done|]. intros (_ & ? & _). done.
Qed.

Lemma is_named_unique m n a s s' : is_named m n a s -> is_named m n a s' -> s = s'.
Proof.
  revert a s s'. induction n as [|n IH]; intros a s s' H H'.
  - destruct H as (_ & H & _), H' as (_ & H' & _). destruct s, s'; cbn in *; done || lia.
  - destruct s as [|c s], s' as [|c' s']; [done|..].
    + apply is_named_cons in H' as (H1 & H2 & _). destruct H as (_ & _ & _ & H). specialize (H ltac:(cbn; lia)).
      cbn [length] in H. rewrite Z.add_0_r in H. lia.
    + apply is_named_cons in H as (H1 & H2 & _). destruct H' as (_ & _ & _ & H). specialize (H ltac:(cbn; lia)).
      cbn [length] in H. rewrite Z.add_0_r in H. lia.
    + apply is_named_cons in H as (H1 & H2 & H3), H' as (H1' & H2' & H3'). f_equal; [congruence|by eapply IH].
Qed.

(** ** Symbols *)

(** Entry [k] of the table at [nlist], with its string from [strlist] on, is that of
    a symbol that is not for debugging: both are before [hi]. *)
Definition is_symbol (m : mem) (nlist strlist hi : Z) (s : list Z) (k : nat) : Prop :=
  let e := nlist + 16 * Z.of_nat k in
  let str := strlist + ldn 4 m e in
  e + 16 <= hi /\ str + Z.of_nat (length s) + 1 <= hi /\ ldb m (e + 4) .& N_STAB = 0 /\ is_named m (S (length s)) str s.

(** The answer of a lookup among [n] entries: the value of the first. *)
Definition first_symbol (m : mem) (nlist strlist hi : Z) (s : list Z) (n : nat) (o : option Z) : Prop :=
  match o with
  | Some v => exists k, (k < n)%nat /\ is_symbol m nlist strlist hi s k /\ v = ldn 8 m (nlist + 16 * Z.of_nat k + 8) /\
                (forall j, (j < k)%nat -> ~ is_symbol m nlist strlist hi s j)
  | None => forall k, (k < n)%nat -> ~ is_symbol m nlist strlist hi s k
  end.

Lemma is_symbol_next m nlist strlist hi s k :
  is_symbol m nlist strlist hi s (S k) <-> is_symbol m (nlist + 16) strlist hi s k.
Proof. unfold is_symbol. by replace (nlist + 16 * Z.of_nat (S k)) with (nlist + 16 + 16 * Z.of_nat k) by lia. Qed.

Lemma first_symbol_next m nlist strlist hi s n o :
  ~ is_symbol m nlist strlist hi s 0 -> first_symbol m (nlist + 16) strlist hi s n o -> first_symbol m nlist strlist hi s (S n) o.
Proof.
  intros H0. destruct o as [v|]; cbn [first_symbol].
  - intros (k & Hk & Hs & -> & Hb). exists (S k). split_and!; [lia|by apply is_symbol_next| |].
    + f_equal. lia.
    + intros [|j] Hj; [done|]. rewrite is_symbol_next. apply Hb. lia.
  - intros H [|k] Hk; [done|]. rewrite is_symbol_next. apply H. lia.
Qed.

Lemma u64_id z : 0 <= z < 2 ^ 64 -> u64 z = z.
Proof. apply wrap_small. Qed.

(** The comparison of one entry. *)
Lemma symbol_test m lo hi strlist a s :
  Forall (fun c => 0 < c < 256) s -> lo <= strlist -> 0 <= strlist -> strlist + 2 ^ 32 + Z.of_nat (length s) < 2 ^ 64 ->
  lo <= a -> a + 16 <= hi ->
  exists b,
    (if (u64 (u64 (strlist + ldn 4 m a) + (Z.of_nat (length s) + 1)) <=? hi) && (ldn 1 m (a + 4) .& N_STAB =? 0)
     then strneq (mload m lo hi) (Z.to_nat (Z.of_nat (length s) + 1)) (u64 (strlist + ldn 4 m a)) s else Ok false) = Ok b /\
    (b = true <-> is_symbol m a strlist hi s 0).
Proof.
  intros Hs Hst Hpos Hwide Ha Hhi. pose proof (ldn_range 4 m a) as Hr. change (256 ^ Z.of_nat 4) with (2 ^ 32) in Hr.
  rewrite !(u64_id (strlist + ldn 4 m a)) by lia. rewrite u64_id by lia. unfold is_symbol. rewrite ldn_byte1, Z.mul_0_r, !Z.add_0_r.
  replace (Z.to_nat (Z.of_nat (length s) + 1)) with (S (length s)) by lia.
  destruct (Z.leb_spec (strlist + ldn 4 m a + (Z.of_nat (length s) + 1)) hi) as [E|E]; cbn [andb].
  2: { exists false. split; [done|]. split; [done|]. intros (_ & ? & _). lia. }
  destruct (Z.eqb_spec (ldb m (a + 4) .& N_STAB) 0) as [E'|E'].
  2: { exists false. split; [done|]. split; [done|]. intros (_ & _ & ? & _). done. }
  destruct (strneq_spec m lo hi (S (length s)) (strlist + ldn 4 m a) s) as (b & -> & Hb); [done|lia|lia|lia|].
  exists b. split; [done|]. rewrite Hb. split; [|tauto]. intros Hn. split_and!; try done; lia.
Qed.

Lemma find_symbol_first m lo hi n a strlist s :
  Forall (fun c => 0 < c < 256) s -> 0 <= lo -> hi + 16 < 2 ^ 64 ->
  lo <= strlist -> strlist + 2 ^ 32 + Z.of_nat (length s) < 2 ^ 64 -> lo <= a -> a + 16 < 2 ^ 64 ->
  exists o, find_symbol (mload m lo hi) n a strlist hi s = Ok o /\ first_symbol m a strlist hi s n o.
Proof.
  intros Hs Hlo Hhi Hst Hw. revert a. induction n as [|n IH]; intros a Ha Ha'; cbn [find_symbol].
  { exists None. split; [done|]. intros k Hk. lia. }
  unfold sizeof_nlist_64. rewrite (u64_id (a + 16)) by lia. destruct (Z.leb_spec (a + 16) hi) as [E|E].
  2: { exists None. split; [done|]. intros k _ (? & _). lia. }
  rewrite !mload_ok by lia. cbn [rbind].
  destruct (symbol_test m lo hi strlist a s) as (b & -> & Hb); [done|lia..|]. destruct b; cbn [rbind].
  - eexists. split; [done|]. exists 0%nat. split_and!; [lia|by apply Hb| |intros; lia].
    f_equal. lia.
  - destruct (IH (a + 16) ltac:(lia) ltac:(lia)) as (o & -> & Ho). exists o. split; [done|]. apply first_symbol_next; [|done].
    intros H. by apply Hb in H.
Qed.

(** Where the code looks for the table and for the strings. *)
Definition table_at (i : MachInfo) : Z := u64 (i sym_buf + (i symboltable_fileoff - i sym_fileoff)).
Definition strings_at (i : MachInfo) : Z := u64 (i sym_buf + (i stringtable_fileoff - i sym_fileoff)).

(** The image has symbols and a slide; the buffer and the tables, which may point
    behind it, are not at the end of the address space. *)
Record has_symbols (i : MachInfo) : Prop := {
  hs_buf : 0 < i sym_buf;
  hs_size : 0 <= i sym_size;
  hs_wide : i sym_buf + i sym_size + 16 < 2 ^ 64;
  hs_table : i symboltable_fileoff <> 0;
  hs_slide : i kaslr_slide_set <> 0;
  hs_symbols : i sym_buf <= table_at i /\ table_at i + 16 < 2 ^ 64;
  hs_strings : i sym_buf <= strings_at i /\ strings_at i + 2 ^ 33 < 2 ^ 64
}.

Lemma truth_true z : z <> 0 -> truth z = true.
Proof. intros H. unfold truth. by destruct (Z.eqb_spec z 0). Qed.

Lemma solveSymbol_first (m : mem) (i : MachInfo) (s : list Z) :
  has_symbols i -> Forall (fun c => 0 < c < 256) s -> Z.of_nat (length s) < 2 ^ 32 ->
  exists o,
    solveSymbol (mload m (i sym_buf) (i sym_buf + i sym_size)) i s =
      Ok (match o with Some v => u64 (v + i kaslr_slide) | None => 0 end) /\
    first_symbol m (table_at i) (strings_at i) (i sym_buf + i sym_size) s (Z.to_nat (i symboltable_nr_symbols)) o.
Proof.
  intros [] Hs Hl. unfold solveSymbol. rewrite !truth_true by lia. cbn [negb].
  fold (table_at i) (strings_at i). rewrite !(proj2 (Z.leb_le _ _)) by lia. cbn [andb].
  rewrite (u64_id (i sym_buf + i sym_size)) by lia.
  destruct (find_symbol_first m (i sym_buf) (i sym_buf + i sym_size) (Z.to_nat (i symboltable_nr_symbols))
              (table_at i) (strings_at i) s) as (o & -> & Ho); [done|lia..|].
  exists o. split; [by destruct o|done].
Qed.

(** C11: With a table of symbols and its strings behind the start of the buffer, [solveSymbol]
    reads nothing outside of the buffer, however many symbols the header claims and
    wherever they say their names are; it returns the value of the first entry that
    is not for debugging and has exactly that name, plus the slide, or zero when
    the part of the table inside of the buffer has none. *)
Theorem solveSymbol_correct (m : mem) (i : MachInfo) (s : list Z) :
  has_symbols i -> Forall (fun c => 0 < c < 256) s -> Z.of_nat (length s) < 2 ^ 32 ->
  exists o,
    solveSymbol (mload m (i sym_buf) (i sym_buf + i sym_size)) i s =
      Ok (match o with Some v => u64 (v + i kaslr_slide) | None => 0 end) /\
    first_symbol m (table_at i) (strings_at i) (i sym_buf + i sym_size) s (Z.to_nat (i symboltable_nr_symbols)) o.
Proof. apply solveSymbol_first. Qed.

(** A buffer of 40 bytes: two entries named "b", the first for debugging, and the
    string behind them; the header claims three. *)
Definition demo_symbols : mem :=
  write_list (fun _ => 0) 4096 ([1;0;0;0; 0x24;0;0;0; 5;0;0;0;0;0;0;0] ++ [1;0;0;0; 0x0f;0;0;0; 7;0;0;0;0;0;0;0] ++ [0; 98; 0; 0]).
Definition demo_mach : MachInfo :=
  (fun _ => 0).[sym_buf := 4096].[sym_size := 36].[sym_fileoff := 512].[symboltable_fileoff := 512]
    .[symboltable_nr_symbols := 3].[stringtable_fileoff := 544].[kaslr_slide := 256].[kaslr_slide_set := 1].

Lemma demo_mach_ok : has_symbols demo_mach.
Proof. split; vm_compute; repeat split; discriminate. Defined.

Lemma solveSymbol_correct_witness :
  solveSymbol (mload demo_symbols 4096 4132) demo_mach [98] = Ok 263 /\
  exists o, first_symbol demo_symbols 4096 4128 4132 [98] 3 o.
Proof.
  split; [reflexivity|].
  destruct (solveSymbol_correct demo_symbols demo_mach [98] demo_mach_ok) as (o & _ & Ho);
    [repeat constructor; lia|reflexivity|]. exists o. exact Ho.
Defined.


(** ** Load commands *)

(** A walk over commands, whatever they are, reads what its body reads and the
    commands themselves. *)
Lemma each_command_ok {A B} (Q : A -> Prop) (R : B -> Prop) m lo hi n endaddr addr body a :
  (forall addr cmd a, lo <= addr -> addr + 8 <= endaddr -> Q a ->
     exists v, body addr cmd a = Ok v /\ match v with Next a' => Q a' | Stop b => R b end) ->
  lo <= addr -> endaddr <= hi -> Q a ->
  exists e, each_command (mload m lo hi) n endaddr addr body a = Ok e /\
    match e with Stopped b => R b | Through a' | Invalid a' => Q a' end.
Proof.
  intros Hbody. revert addr a. induction n as [|n IH]; intros addr a Hlo Hend Ha; cbn [each_command]; [by eexists|].
  destruct (aligned addr); cbn [negb]; [|by eexists].
  unfold sizeof_load_command. destruct (Z.ltb_spec endaddr (addr + 8)); [by eexists|].
  rewrite mload_ok by lia. cbn [rbind]. pose proof (ldn_range 4 m (addr + 4)).
  destruct (Z.ltb_spec endaddr (addr + ldn 4 m (addr + 4))); [by eexists|].
  rewrite mload_ok by lia. cbn [rbind].
  destruct (Hbody addr (ldn 4 m addr) a) as (v & -> & Hv); [lia..|done|]. cbn [rbind].
  destruct v as [a'|b]; [|by eexists]. apply IH; [lia|done|done].
Qed.

(** What a command is, for an image of 64 bits. *)
Inductive command :=
  | Segment (name : list Z) (vmaddr fileoff filesize : Z)
  | Symtab (symoff nsyms stroff strsize : Z)
  | Other (cmd : Z).

(** A command of [size] bytes in memory. *)
Definition command_at (m : mem) (a size : Z) (c : command) : Prop :=
  size mod 4 = 0 /\ ldn 4 m (a + 4) = size /\
  match c with
  | Segment name vmaddr fileoff filesize =>
      72 <= size /\ ldn 4 m a = LC_SEGMENT_64 /\ is_named m 16 (a + 8) name /\
      ldn 8 m (a + 24) = vmaddr /\ ldn 8 m (a + 40) = fileoff /\ ldn 8 m (a + 48) = filesize
  | Symtab symoff nsyms stroff strsize =>
      24 <= size /\ ldn 4 m a = LC_SYMTAB /\
      ldn 4 m (a + 8) = symoff /\ ldn 4 m (a + 12) = nsyms /\ ldn 4 m (a + 16) = stroff /\ ldn 4 m (a + 20) = strsize
  | Other cmd => 8 <= size /\ ldn 4 m a = cmd /\ cmd <> LC_SEGMENT_64 /\ cmd <> LC_SYMTAB
  end.

(** Commands with their sizes, one behind another from [a] to [e]. *)
Fixpoint commands_at (m : mem) (a e : Z) (cs : list (Z * command)) : Prop :=
  match cs with
  | [] => a <= e
  | (size, c) :: cs' => command_at m a size c /\ commands_at m (a + size) e cs'
  end.

(** What a command says of its image. *)
Definition note (i : MachInfo) (c : command) : MachInfo :=
  match c with
  | Segment name vmaddr fileoff filesize =>
      if decide (name = str_TEXT) then i.[disk_text_addr := vmaddr]
      else if decide (name = str_LINKEDIT) then i.[sym_fileoff := fileoff].[sym_size := filesize]
      else i
  | Symtab symoff nsyms stroff strsize =>
      i.[symboltable_fileoff := symoff].[symboltable_nr_symbols := nsyms]
       .[stringtable_fileoff := stroff].[stringtable_size := strsize]
  | Other _ => i
  end.

Lemma commands_at_end m a e cs : commands_at m a e cs -> a <= e.
Proof.
  revert a. induction cs as [|[size c] cs IH]; intros a; cbn [commands_at]; [done|]. intros [(_ & Hs & H) Hc].
  apply IH in Hc. pose proof (ldn_range 4 m (a + 4)). lia.
Qed.

(** A name in memory decides a comparison. *)
Lemma segment_named_at m lo hi a name s :
  is_named m 16 (a + 8) name -> Forall (fun c => 0 < c < 256) s -> (length s <= 16)%nat -> lo <= a -> a + 24 <= hi ->
  segment_named (mload m lo hi) a s = Ok (bool_decide (name = s)).
Proof.
  intros Hn Hs Hl Hlo Hhi. unfold segment_named.
  destruct (strneq_spec m lo hi 16 (a + 8) s) as (b & -> & Hb); [done..|lia|lia|]. f_equal. apply eq_true_iff_eq.
  rewrite Hb, bool_decide_eq_true. split; [intros H; by eapply is_named_unique|by intros <-].
Qed.

Lemma str_TEXT_ok : Forall (fun c => 0 < c < 256) str_TEXT /\ (length str_TEXT <= 16)%nat.
Proof. split; [repeat constructor; lia|vm_compute; lia]. Qed.
Lemma str_LINKEDIT_ok : Forall (fun c => 0 < c < 256) str_LINKEDIT /\ (length str_LINKEDIT <= 16)%nat.
Proof. split; [repeat constructor; lia|vm_compute; lia]. Qed.

Lemma note_command_at m lo hi a size c i :
  command_at m a size c -> lo <= a -> a + size <= hi ->
  note_command (mload m lo hi) a (ldn 4 m a) i = Ok (note i c).
Proof.
  intros (_ & _ & H) Hlo Hhi. destruct str_TEXT_ok, str_LINKEDIT_ok. unfold note_command, note. destruct c as [name v fo fs|so ns sto sts|cmd].
  - destruct H as (Hsz & -> & Hn & <- & <- & <-). change (LC_SEGMENT_64 =? LC_SEGMENT_64) with true. cbv iota.
    rewrite !(segment_named_at _ _ _ _ name) by (done || lia). cbn [rbind].
    destruct (decide (name = str_TEXT)) as [E|E]; [rewrite bool_decide_true by done|rewrite bool_decide_false by done].
    + by rewrite mload_ok by lia.
    + destruct (decide (name = str_LINKEDIT)) as [E'|E']; [rewrite bool_decide_true by done|by rewrite bool_decide_false by done].
      by rewrite !mload_ok by lia.
  - destruct H as (Hsz & -> & <- & <- & <- & <-). change (LC_SYMTAB =? LC_SEGMENT_64) with false.
    change (LC_SYMTAB =? LC_SYMTAB) with true. cbv iota. by rewrite !mload_ok by lia.
  - destruct H as (_ & -> & N1 & N2). by rewrite !(proj2 (Z.eqb_neq _ _)) by done.
Qed.

(** A walk that is a function of what the commands are. *)
Fixpoint walk {A B} (g : A -> command -> verdict A B) (x : A) (cs : list (Z * command)) : ending A B :=
  match cs with
  | [] => Through x
  | (_, c) :: cs' => match g x c with Next x' => walk g x' cs' | Stop b => Stopped b end
  end.

Lemma each_command_at {A B} (g : A -> command -> verdict A B) m lo hi e a cs body x :
  (forall a size c x, command_at m a size c -> lo <= a -> a + size <= hi -> body a (ldn 4 m a) x = Ok (g x c)) ->
  commands_at m a e cs -> lo <= a -> a mod 4 = 0 -> e <= hi ->
  each_command (mload m lo hi) (length cs) e a body x = Ok (walk g x cs).
Proof.
  intros Hbody. revert a x. induction cs as [|[size c] cs IH]; intros a x Hc Hlo Ha Hhi; [done|].
  destruct Hc as [Hc Hcs]. pose proof (commands_at_end _ _ _ _ Hcs). pose proof Hc as (Hm & Hs & Hk).
  assert (8 <= size) by (destruct c; lia).
  cbn [length each_command walk]. unfold aligned, sizeof_load_command. rewrite Ha. cbn [Z.eqb negb].
  rewrite !mload_ok by lia. cbn [rbind]. rewrite Hs.
  rewrite !(proj2 (Z.ltb_ge _ _)) by lia.
  rewrite (Hbody a size c x) by (done || lia). cbn [rbind]. destruct (g x c) as [x'|b]; [|done].
  apply IH; [done|lia| |done]. by rewrite Z.add_mod, Ha, Hm by lia.
Qed.

Lemma walk_note i cs : walk (B := Empty_set) (fun i c => Next (note i c)) i cs = Through (foldl note i (snd <$> cs)).
Proof. revert i. induction cs as [|[size c] cs IH]; intros i; [done|]. apply IH. Qed.

(** The header at [h] of an image with the commands [cs]. *)
Record image_at (m : mem) (h : Z) (cs : list (Z * command)) : Prop := {
  ia_aligned : h mod 4 = 0;
  ia_number : ldn 4 m (h + 16) = Z.of_nat (length cs);
  ia_commands : commands_at m (h + sizeof_mach_header_64) (h + HeaderSize) cs
}.

(** A walk from the header on. *)
Lemma walk_image {A B} (g : A -> command -> verdict A B) m lo hi h cs body x :
  image_at m h cs -> lo <= h -> h + HeaderSize <= hi ->
  (forall a size c x, command_at m a size c -> lo <= a -> a + size <= hi -> body a (ldn 4 m a) x = Ok (g x c)) ->
  (let! ncmds := mload m lo hi 4 (h + 16) in
   each_command (mload m lo hi) (Z.to_nat ncmds) (h + HeaderSize) (h + sizeof_mach_header_64) body x) = Ok (walk g x cs).
Proof.
  intros [Ha Hn Hc] Hlo Hhi Hbody. rewrite mload_ok by (unfold HeaderSize, MACH_PAGE in *; lia). cbn [rbind].
  rewrite Hn, Nat2Z.id. apply each_command_at; [done|done| | |done].
  - unfold sizeof_mach_header_64. lia.
  - unfold sizeof_mach_header_64. by rewrite Z.add_mod, Ha by lia.
Qed.

Lemma rbind_assoc {A B C} (x : res A) (f : A -> res B) (k : B -> res C) :
  rbind x (fun a => rbind (f a) k) = rbind (rbind x f) k.
Proof. by destruct x. Qed.

(** C20: The header of an image whose commands are laid out as they should be, within
    the two pages that are read: [processMachHeader] reads only those and collects
    exactly what the commands say, the address of [__TEXT], the place of
    [__LINKEDIT] and the tables of symbols, the last command of a kind winning. *)
Theorem processMachHeader_correct (m : mem) (header : Z) (cs : list (Z * command)) (i : MachInfo) :
  image_at m header cs ->
  processMachHeader (mload m header (header + HeaderSize)) i header = Ok (foldl note i (snd <$> cs)).
Proof.
  intros H. unfold processMachHeader.
  rewrite rbind_assoc, (walk_image (fun i c => Next (note i c)) _ _ _ _ cs), walk_note; [done|done|lia|lia|].
  intros a size c x Hc Hlo Hhi. by rewrite (note_command_at _ _ _ _ size c).
Qed.

Lemma is_named_by m n a s :
  Forall (fun c => 0 < c < 256) s -> (length s <= n)%nat -> strneq (mload m a (a + Z.of_nat n)) n a s = Ok true ->
  is_named m n a s.
Proof.
  intros Hs Hl H. destruct (strneq_spec m a (a + Z.of_nat n) n a s) as (b & Hb & <-); [done|done|lia|lia|congruence].
Qed.

Definition le_bytes (n : nat) (v : Z) : list Z := (fun k => (v / 256 ^ Z.of_nat k) mod 256) <$> seq 0 n.
Definition padded (n : nat) (s : list Z) : list Z := s ++ replicate (n - length s) 0.
(** A header at 2 MiB and three commands: [__TEXT] at 4096, [__LINKEDIT], symbols. *)
Definition demo_segment (name : list Z) (v fo fs : Z) : list Z :=
  le_bytes 4 LC_SEGMENT_64 ++ le_bytes 4 72 ++ padded 16 name ++ le_bytes 8 v ++ le_bytes 8 0 ++ le_bytes 8 fo ++ le_bytes 8 fs ++
  replicate 16 0.
Definition demo_header : mem :=
  write_list (fun _ => 0) 0x200000
    (le_bytes 4 MH_MAGIC_64 ++ replicate 12 0 ++ le_bytes 4 3 ++ le_bytes 4 168 ++ replicate 8 0 ++
     demo_segment str_TEXT 4096 0 512 ++ demo_segment str_LINKEDIT 65536 512 36 ++
     le_bytes 4 LC_SYMTAB ++ le_bytes 4 24 ++ le_bytes 4 512 ++ le_bytes 4 3 ++ le_bytes 4 544 ++ le_bytes 4 4 ++ [1]).
Definition demo_commands : list (Z * command) :=
  [(72, Segment str_TEXT 4096 0 512); (72, Segment str_LINKEDIT 65536 512 36); (24, Symtab 512 3 544 4)].

Lemma demo_header_ok : image_at demo_header 0x200000 demo_commands.
Proof.
  destruct str_TEXT_ok, str_LINKEDIT_ok. split; [reflexivity|reflexivity|].
  split; [|split; [|split; [|vm_compute; discriminate] ] ].
  - repeat (split; [reflexivity|]). split; [by apply is_named_by|by vm_compute].
  - repeat (split; [reflexivity|]). split; [by apply is_named_by|by vm_compute].
  - by vm_compute.
Defined.

Lemma processMachHeader_correct_witness :
  exists i, processMachHeader (mload demo_header 0x200000 (0x200000 + HeaderSize)) (fun _ => 0) 0x200000 = Ok i /\
    (i disk_text_addr, i sym_fileoff, i sym_size, i symboltable_nr_symbols) = (4096, 512, 36, 3).
Proof.
  eexists. split; [exact (processMachHeader_correct demo_header 0x200000 demo_commands (fun _ => 0) demo_header_ok)|].
  reflexivity.
Defined.

(** ** Any image *)

(** A comparison with any text stays in the field. *)
Lemma strneq_ok m lo hi n a s : lo <= a -> a + Z.of_nat n <= hi -> exists b, strneq (mload m lo hi) n a s = Ok b.
Proof.
  revert a s. induction n as [|n IH]; intros a s Hlo Hhi; cbn [strneq]; [by eexists|].
  rewrite mload_ok by lia. cbn [rbind]. destruct s as [|x s]; [by eexists|].
  case_match; [apply IH; lia|by eexists].
Qed.
Lemma segment_named_ok m lo hi a s : lo <= a -> a + 24 <= hi -> exists b, segment_named (mload m lo hi) a s = Ok b.
Proof. intros. apply strneq_ok; lia. Qed.

(** The outcome of a comparison, and of loads. *)
Ltac compared a s :=
  match goal with |- context [segment_named (mload ?m ?lo ?hi) a s] =>
    let b := fresh "b" in
    destruct (segment_named_ok m lo hi a s) as [b ->]; [lia|lia|cbn [rbind]; destruct b]
  end.
Ltac loads := rewrite !mload_ok by lia; cbn [rbind].

Lemma note_command_ok m lo hi a cmd i : lo <= a -> a + 56 <= hi -> exists i', note_command (mload m lo hi) a cmd i = Ok i'.
Proof.
  intros Hlo Hhi. unfold note_command. destruct (cmd =? LC_SEGMENT_64).
  - compared a str_TEXT; [loads; by eexists|]. compared a str_LINKEDIT; [loads; by eexists|by eexists].
  - destruct (cmd =? LC_SYMTAB); [loads; by eexists|by eexists].
Qed.

Lemma processMachHeader_ok m lo hi i header :
  lo <= header -> header + HeaderSize + 48 <= hi -> exists i', processMachHeader (mload m lo hi) i header = Ok i'.
Proof.
  intros Hlo Hhi. unfold processMachHeader, HeaderSize, MACH_PAGE in *. loads.
  match goal with |- context [each_command _ ?n ?e ?a ?f ?x] =>
    destruct (each_command_ok (fun _ => True) (fun _ => True) m lo hi n e a f x) as (r & -> & _) end.
  - intros a cmd i' H1 H2 _. destruct (note_command_ok m lo hi a cmd i') as [i'' ->]; [lia..|]. by eexists.
  - unfold sizeof_mach_header_64. lia.
  - lia.
  - done.
  - cbn [rbind]. destruct r as [[]|i'|i']; by exists i'.
Qed.

(** A section of the image between [ptr] and [endaddr], or none. *)
Definition section_in (ptr endaddr : Z) (b : bounds_) : Prop :=
  b = no_section \/
  (ptr <= sectionptr b <= ptr + 2 ^ 32 /\ 0 <= sectionSize b < 2 ^ 64 /\ u64 (sectionptr b + sectionSize b) <= endaddr).

(** The members are inside of the structures. *)
Definition layout_ok (l : layout) : Prop :=
  (word l <= 8)%nat /\ 0 <= nsects_at l /\ 32 <= sizeof_segment l <= 72 /\ nsects_at l + 4 <= 68 /\ 52 <= sizeof_section l <= 80 /\
  0 <= size_at l /\ size_at l + 8 <= sizeof_section l /\ 0 <= offset_at l /\ offset_at l + 4 <= sizeof_section l.
Lemma layout32_ok : layout_ok layout32.
Proof. unfold layout_ok. cbn. lia. Qed.
Lemma layout64_ok : layout_ok layout64.
Proof. unfold layout_ok. cbn. lia. Qed.

Lemma find_section_ok m lo hi l n ptr endaddr scmd sect name :
  layout_ok l -> lo <= sect -> lo <= scmd -> scmd + 32 <= hi -> sect + sizeof_section l * Z.of_nat n <= endaddr -> endaddr <= hi ->
  exists o, find_section (mload m lo hi) l n ptr endaddr scmd sect name = Ok o /\
    match o with Some b => section_in ptr endaddr b | None => True end.
Proof.
  intros (L1 & L2 & L3 & L4 & L5 & L6 & L7 & L8 & L9). revert sect.
  induction n as [|n IH]; intros sect Hlo Hs Hs' He Hhi; cbn [find_section]; [by eexists|].
  destruct (strneq_ok m lo hi 16 sect name) as [b ->]; [lia|nia|]. cbn [rbind].
  destruct b; [|apply IH; [lia..|nia|done] ].
  rewrite (mload_ok m lo hi 4), (mload_ok m lo hi (word l)) by nia. cbn [rbind].
  pose proof (ldn_range 4 m (sect + offset_at l)) as R1. pose proof (ldn_range (word l) m (sect + size_at l)) as R2.
  assert (256 ^ Z.of_nat (word l) <= 256 ^ 8) as R3 by (apply Z.pow_le_mono_r; lia).
  change (256 ^ Z.of_nat 4) with (2 ^ 32) in R1. change (256 ^ 8) with (2 ^ 64) in R3.
  destruct (Z.ltb_spec endaddr (u64 (ptr + ldn 4 m (sect + offset_at l) + ldn (word l) m (sect + size_at l)))).
  - eexists. split; [done|]. by left.
  - rewrite !mload_ok by nia. cbn [rbind]. eexists. split; [done|]. right. cbn [sectionptr sectionSize]. split_and!; lia.
Qed.

Lemma in_segment_ok m lo hi l ptr endaddr scmd seg sec :
  layout_ok l -> 0 <= lo -> lo <= scmd -> scmd + 8 <= endaddr -> endaddr + 60 <= hi -> endaddr + 2 ^ 40 < 2 ^ 64 ->
  exists v, in_segment (mload m lo hi) l ptr endaddr scmd seg sec = Ok v /\
    match v with Next _ => True | Stop b => section_in ptr endaddr b end.
Proof.
  intros Hl Hlo Hs He Hhi Hw. pose proof Hl as (L1 & L2 & L3 & L4 & L5 & _). unfold in_segment. compared scmd seg; [|by eexists].
  rewrite mload_ok by lia. cbn [rbind]. pose proof (ldn_range 4 m (scmd + nsects_at l)) as R.
  change (256 ^ Z.of_nat 4) with (2 ^ 32) in R. set (ns := ldn 4 m (scmd + nsects_at l)) in *.
  rewrite u64_id by nia. destruct (Z.ltb_spec endaddr (scmd + sizeof_segment l + sizeof_section l * ns)).
  { eexists. split; [done|]. by left. }
  destruct (find_section_ok m lo hi l (Z.to_nat ns) ptr endaddr scmd (scmd + sizeof_segment l) sec) as (o & -> & Ho);
    [done|lia|lia|lia|rewrite Z2Nat.id by lia; lia|lia|].
  cbn [rbind]. eexists. split; [done|]. by destruct o.
Qed.

Lemma thin_bounds_ok m lo hi ptr size cmd seg sec :
  0 <= lo <= ptr -> ptr <= cmd -> HeaderSize <= size -> ptr + size + 60 <= hi -> ptr + size + 2 ^ 40 < 2 ^ 64 ->
  exists b, thin_bounds (mload m lo hi) ptr size cmd seg sec = Ok b /\ section_in ptr (ptr + size) b.
Proof.
  intros Hlo Hc Hs Hhi Hw. unfold thin_bounds, HeaderSize, MACH_PAGE in *. loads.
  match goal with |- context [each_command _ ?n ?e ?a ?f ?x] =>
    destruct (each_command_ok (fun _ => True) (section_in ptr (ptr + size)) m lo hi n e a f x) as (r & -> & Hr) end.
  - intros a c [] H1 H2 _. destruct (c =? LC_SEGMENT).
    + apply in_segment_ok; [apply layout32_ok|lia..].
    + destruct (c =? LC_SEGMENT_64); [|by eexists]. apply in_segment_ok; [apply layout64_ok|lia..].
  - lia.
  - lia.
  - done.
  - cbn [rbind]. eexists. split; [done|]. destruct r; [done|by left|by left].
Qed.

Lemma OSSwapInt32_range v : 0 <= OSSwapInt32 v < 2 ^ 32.
Proof.
  assert (forall a, 0 <= a .& 0xff < 2 ^ 8) as B by (intros a; change 0xff with (Z.ones 8); rewrite Z.land_ones by lia; apply Z.mod_pos_bound; lia).
  unfold OSSwapInt32. rewrite !Z.shiftl_mul_pow2 by lia.
  pose proof (B v). pose proof (B (v .>> 8)). pose proof (B (v .>> 16)). pose proof (B (v .>> 24)).
  set (b0 := v .& 0xff) in *. set (b1 := (v .>> 8) .& 0xff) in *. set (b2 := (v .>> 16) .& 0xff) in *. set (b3 := (v .>> 24) .& 0xff) in *.
  rewrite (lor_add_low 24) by lia.
  assert ((b0 * 2 ^ 24 + b1 * 2 ^ 16) .| b2 * 2 ^ 8 = b0 * 2 ^ 24 + b1 * 2 ^ 16 + b2 * 2 ^ 8) as ->
    by (replace (b0 * 2 ^ 24 + b1 * 2 ^ 16) with ((b0 * 2 ^ 8 + b1) * 2 ^ 16) by lia; apply (lor_add_low 16); lia).
  assert ((b0 * 2 ^ 24 + b1 * 2 ^ 16 + b2 * 2 ^ 8) .| b3 = b0 * 2 ^ 24 + b1 * 2 ^ 16 + b2 * 2 ^ 8 + b3) as ->
    by (replace (b0 * 2 ^ 24 + b1 * 2 ^ 16 + b2 * 2 ^ 8) with ((b0 * 2 ^ 16 + b1 * 2 ^ 8 + b2) * 2 ^ 8) by lia; apply (lor_add_low 8); lia).
  lia.
Qed.

Lemma find_arch_ok m lo hi n swap a cpu :
  lo <= a -> a + 20 * Z.of_nat n <= hi ->
  exists o, find_arch (mload m lo hi) n swap a cpu = Ok o /\
    match o with Some (off, sz) => 0 <= off < 2 ^ 32 /\ 0 <= sz < 2 ^ 32 | None => True end.
Proof.
  assert (forall v, 0 <= v < 2 ^ 32 -> 0 <= swapped swap v < 2 ^ 32) as Hsw
    by (intros v Hv; destruct swap; [apply OSSwapInt32_range|done]).
  revert a. induction n as [|n IH]; intros a Hlo Hhi; cbn [find_arch]; [by eexists|]. loads.
  case_match; [|apply IH; unfold sizeof_fat_arch; lia].
  eexists. split; [done|]. split; apply Hsw; apply (ldn_range 4).
Qed.

Lemma too_many_ok num : too_many num = false -> 8 + 20 * num <= HeaderSize.
Proof. unfold too_many, HeaderSize, MACH_PAGE, sizeof_fat_arch. intros H. apply Z.ltb_ge in H. lia. Qed.

(** A header without recursion. *)
Lemma findSectionBounds_flat m lo hi d ptr size seg sec :
  0 <= lo <= ptr -> ptr + size + 60 <= hi -> ptr + size + 2 ^ 40 < 2 ^ 64 ->
  exists b, findSectionBounds (mload m lo hi) d ptr size seg sec 0 = Ok b /\ section_in ptr (ptr + size) b.
Proof.
  intros Hlo Hhi Hw. assert (section_in ptr (ptr + size) no_section) by by left.
  destruct d; cbn [findSectionBounds]; destruct (aligned ptr); cbn [negb orb]; try (by eexists);
    (destruct (Z.ltb_spec size HeaderSize) as [E|E]; [by eexists|]);
    unfold HeaderSize, MACH_PAGE in E; loads;
    repeat case_match; try done; try (by eexists); apply thin_bounds_ok; unfold sizeof_mach_header, sizeof_mach_header_64, HeaderSize, MACH_PAGE; lia.
Qed.

(** The result of a lookup in the image at [ptr], from a part of it or from all. *)
Definition found_in (ptr size : Z) (b : bounds_) : Prop :=
  b = no_section \/
  (ptr <= sectionptr b <= ptr + size + 2 ^ 32 /\ 0 <= sectionSize b < 2 ^ 64 /\ u64 (sectionptr b + sectionSize b) <= ptr + size).

Lemma found_in_part ptr size p s b : ptr <= p -> p + s = ptr + size -> 0 <= s -> section_in p (p + s) b -> found_in ptr size b.
Proof. intros ? ? ? [->|(?&?&?)]; [by left|right; lia]. Qed.

(** C26: For any bytes: the lookup of a section with 60 bytes of slack behind the
    image never reads outside, descends at most once, and gives nothing or a
    section that starts in the image or at most 4 GiB behind its end, and whose
    end, wrapped to 64 bits, is not behind that of the image. *)
Theorem findSectionBounds_safe (m : mem) (d : nat) (ptr size : Z) (seg sec : list Z) (cpu : Z) :
  0 <= ptr -> ptr + size + 2 ^ 40 < 2 ^ 64 ->
  exists b, findSectionBounds (mload m ptr (ptr + size + 60)) (S d) ptr size seg sec cpu = Ok b /\ found_in ptr size b.
Proof.
  intros H0 Hw. set (hi := ptr + size + 60). assert (found_in ptr size no_section) by by left.
  cbn [findSectionBounds]. destruct (aligned ptr); cbn [negb orb]; [|by eexists].
  destruct (Z.ltb_spec size HeaderSize) as [E|E]; [by eexists|]. pose proof E as E'. unfold HeaderSize, MACH_PAGE in E'.
  assert (forall c, ptr <= c -> exists b, thin_bounds (mload m ptr hi) ptr size c seg sec = Ok b /\ found_in ptr size b) as Ht.
  { intros c Hc. destruct (thin_bounds_ok m ptr hi ptr size c seg sec) as (b & -> & Hb); [lia..|].
    eexists. split; [done|]. eapply found_in_part; [..|exact Hb]; lia. }
  rewrite !(mload_ok m ptr hi 4) by lia. cbn [rbind].
  destruct (_ =? MH_MAGIC_64); [apply Ht; unfold sizeof_mach_header_64; lia|].
  destruct (_ =? MH_MAGIC); [apply Ht; unfold sizeof_mach_header; lia|].
  destruct (_ || _); [|apply Ht; lia].
  destruct (cpu =? 0); [by eexists|]. destruct (too_many _) eqn:Em; [by eexists|]. apply too_many_ok in Em.
  match goal with |- context [find_arch _ ?n ?sw ?a _] => destruct (find_arch_ok m ptr hi n sw a cpu) as (o & -> & Ho) end; [..|cbn [rbind]].
  - unfold sizeof_fat_header. lia.
  - unfold sizeof_fat_header, hi, HeaderSize, MACH_PAGE in *. lia.
  - destruct o as [[off sz]|]; [|by eexists]. destruct (Z.ltb_spec size (off + sz)); [by eexists|].
    destruct (findSectionBounds_flat m ptr hi d (ptr + off) (size - off) seg sec) as (b & -> & Hb); [lia..|].
    eexists. split; [done|]. eapply found_in_part; [..|exact Hb]; lia.
Qed.

(** A page with a segment "S" and its section "s" of 16 bytes at 4096. *)
Definition demo_sections (size : Z) : mem :=
  write_list (fun _ => 0) 8192
    (le_bytes 4 MH_MAGIC_64 ++ replicate 12 0 ++ le_bytes 4 1 ++ replicate 12 0 ++
     le_bytes 4 LC_SEGMENT_64 ++ le_bytes 4 152 ++ padded 16 [83] ++ le_bytes 8 65536 ++ replicate 32 0 ++ le_bytes 4 1 ++ replicate 4 0 ++
     padded 16 [115] ++ padded 16 [83] ++ le_bytes 8 69632 ++ le_bytes 8 size ++ le_bytes 4 4096 ++ replicate 28 0).

Lemma findSectionBounds_safe_witness :
  findSectionBounds (mload (demo_sections 16) 8192 16444) 1 8192 8192 [83] [115] CPU_TYPE_X86_64 = Ok (mk_bounds 65536 69632 12288 16) /\
  exists b, findSectionBounds (mload (demo_sections 16) 8192 (8192 + 8192 + 60)) 1 8192 8192 [83] [115] CPU_TYPE_X86_64 = Ok b /\
    found_in 8192 8192 b.
Proof. split; [by vm_compute|]. apply (findSectionBounds_safe (demo_sections 16) 0 8192 8192); [discriminate|reflexivity]. Defined.

(** A size close to 2^64 passes the check: the end wraps. *)
Example section_size_wraps :
  findSectionBounds (mload (demo_sections (2 ^ 64 - 1)) 8192 16444) 1 8192 8192 [83] [115] CPU_TYPE_X86_64 =
  Ok (mk_bounds 65536 69632 12288 (2 ^ 64 - 1)).
Proof. by vm_compute. Qed.

(** The slack is needed: a command of eight bytes at the end of the two pages is
    accepted, and its name is read behind them. *)
Definition demo_short_segment : mem :=
  write_list (write_list (fun _ => 0) 8192
    (le_bytes 4 MH_MAGIC_64 ++ replicate 12 0 ++ le_bytes 4 2 ++ replicate 12 0 ++ le_bytes 4 0 ++ le_bytes 4 8152))
    16376 (le_bytes 4 LC_SEGMENT_64 ++ le_bytes 4 8).
Example short_segment_read :
  processMachHeader (mload demo_short_segment 8192 (8192 + HeaderSize)) (fun _ => 0) 8192 = Fault /\
  findSectionBounds (mload demo_short_segment 8192 (8192 + HeaderSize)) 1 8192 8192 [83] [115] CPU_TYPE_X86_64 = Fault.
Proof. by vm_compute. Qed.

(** ** Address slots *)

Lemma clear_bit_12 a : 0 <= a < 2 ^ 64 -> a .& u64 (Z.lnot MACH_PAGE) = if Z.testbit a 12 then a - 4096 else a.
Proof.
  intros Ha. assert (a .& u64 (Z.lnot MACH_PAGE) = Z.ldiff a 4096) as ->.
  { apply Z.bits_inj'. intros n Hn. rewrite Z.land_spec, Z.ldiff_spec. rewrite wrap_testbit by lia.
    change 4096 with MACH_PAGE. rewrite Z.lnot_spec by lia. destruct (Z.ltb_spec n 64); [done|].
    rewrite (Z.bits_above_log2 a n); [done|lia|]. destruct (decide (a = 0)) as [->|]; [cbn; lia|].
    apply Z.log2_lt_pow2; [lia|]. apply (Z.lt_le_trans _ (2 ^ 64)); [lia|]. apply Z.pow_le_mono_r; lia. }
  destruct (Z.testbit a 12) eqn:E.
  - symmetry. apply Z.sub_nocarry_ldiff. apply Z.bits_inj'. intros n Hn. rewrite Z.ldiff_spec, Z.bits_0.
    change 4096 with (2 ^ 12). rewrite Z.pow2_bits_eqb by lia. destruct (Z.eqb_spec 12 n) as [<-|]; [by rewrite E|done].
  - apply Z.bits_inj'. intros n Hn. rewrite Z.ldiff_spec. change 4096 with (2 ^ 12). rewrite Z.pow2_bits_eqb by lia.
    destruct (Z.eqb_spec 12 n) as [<-|]; [by rewrite E|by rewrite andb_true_r].
Qed.

(** The first address that is tried as the end of the slots. *)
Definition first_end (start : Z) : Z := if Z.testbit (start + 4095) 12 then start - 1 else start + 4095.

Lemma find_slots_first (ld : nat -> Z -> res Z) f i mh sizeofcmds w :
  let start := mh + sizeof_mach_header_64 + sizeofcmds in
  0 <= start -> start + 4095 < 2 ^ 64 -> ld 4%nat (mh + 20) = Ok sizeofcmds -> ld 4%nat (first_end start) = Ok w -> w <> 0 ->
  find_slots ld (S f) i mh = Ok (i.[address_slots := start].[address_slots_end := first_end start]).
Proof.
  intros start H0 H1 Hs Hw Hn. unfold find_slots. rewrite Hs. cbn [rbind]. fold start.
  rewrite (u64_id start), (u64_id (start + (MACH_PAGE - 1))) by (unfold MACH_PAGE; lia).
  rewrite clear_bit_12 by (unfold MACH_PAGE; lia). cbn [skip_zeroes].
  assert ((if Z.testbit (start + (MACH_PAGE - 1)) 12 then start + (MACH_PAGE - 1) - 4096 else start + (MACH_PAGE - 1)) = first_end start) as ->
    by (unfold first_end, MACH_PAGE; change (4096 - 1) with 4095; case_match; lia).
  rewrite Hw. cbn [rbind]. by rewrite (proj2 (Z.eqb_neq w 0)).
Qed.

(** The end of the address slots is rounded with a mask that clears one bit, not
    the offset in a page: with the headers in an odd page (bit 12 of the rounded
    address set) and something in the bytes before the first slot, the end is before
    the start and there is no slot at all, though the rest of the page is free. *)
Theorem odd_page_no_slots (m : mem) (lo hi : Z) (f : nat) (i : MachInfo) (mh : Z) :
  let start := mh + sizeof_mach_header_64 + ldn 4 m (mh + 20) in
  0 < lo <= mh -> mh + 24 <= hi -> start + 3 <= hi -> hi + 4096 < 2 ^ 64 ->
  Z.testbit (start + 4095) 12 = true -> ldn 4 m (start - 1) <> 0 ->
  exists i', find_slots (mload m lo hi) (S f) i mh = Ok i' /\ i' address_slots = start /\ i' address_slots_end < i' address_slots.
Proof.
  intros start Hlo Hh Hs Hw Hb Hn. pose proof (ldn_range 4 m (mh + 20)) as R.
  assert (first_end start = start - 1) as E by (unfold first_end; by rewrite Hb).
  unfold start, sizeof_mach_header_64 in *.
  eexists. split; [eapply (find_slots_first _ f i mh (ldn 4 m (mh + 20)) (ldn 4 m (start - 1)))|].
  - unfold sizeof_mach_header_64. lia.
  - unfold sizeof_mach_header_64. lia.
  - apply mload_ok; lia.
  - unfold sizeof_mach_header_64. rewrite E. apply mload_ok; lia.
  - done.
  - unfold sizeof_mach_header_64. rewrite E, mput_eq, mput_ne, mput_eq by done. lia.
Qed.

Lemma odd_page_no_slots_witness :
  let m := stb (stn 4 (fun _ => 0) 8212 8) 8231 7 in
  exists i', find_slots (mload m 8192 16384) 1 (fun _ => 0) 8192 = Ok i' /\ i' address_slots = 8232 /\ i' address_slots_end < i' address_slots.
Proof. apply (odd_page_no_slots (stb (stn 4 (fun _ => 0) 8212 8) 8231 7) 8192 16384 0); (done || lia || vm_compute; discriminate). Defined.

(** ** The running kernel *)

(** The address of the first [__TEXT] segment. *)
Definition text_of_command (c : command) : option Z :=
  match c with Segment name v _ _ => if decide (name = str_TEXT) then Some v else None | _ => None end.
Fixpoint first_text (cs : list (Z * command)) : option Z :=
  match cs with
  | [] => None
  | (_, c) :: cs' => match text_of_command c with Some v => Some v | None => first_text cs' end
  end.

(** What the two searches for [__TEXT] do with a command, from what it is. *)
Lemma text_command_at {B} m lo hi a size c (k : Z -> B) (u : unit) :
  command_at m a size c -> lo <= a -> a + size <= hi ->
  (if ldn 4 m a =? LC_SEGMENT_64 then
     let! text := segment_named (mload m lo hi) a str_TEXT in
     if text : bool then let! v := mload m lo hi 8 (a + 24) in Ok (Stop (k v)) else Ok (Next tt)
   else Ok (Next tt)) =
  Ok (match text_of_command c with Some v => Stop (k v) | None => Next tt end).
Proof.
  intros (_ & _ & H) Hlo Hhi. destruct str_TEXT_ok. unfold text_of_command. destruct c as [name v fo fs|so ns sto sts|cmd].
  - destruct H as (Hsz & -> & Hn & <- & _). change (LC_SEGMENT_64 =? LC_SEGMENT_64) with true. cbv iota.
    rewrite !(segment_named_at _ _ _ _ name) by (done || lia). cbn [rbind].
    destruct (decide (name = str_TEXT)); [rewrite bool_decide_true by done|by rewrite bool_decide_false by done].
    by rewrite mload_ok by lia.
  - by destruct H as (_ & -> & _).
  - destruct H as (_ & -> & N & _). by rewrite (proj2 (Z.eqb_neq _ _)).
Qed.

Lemma walk_text {B} (k : Z -> B) cs :
  walk (fun (_ : unit) c => match text_of_command c with Some v => Stop (k v) | None => Next tt end) tt cs =
  match first_text cs with Some v => Stopped (k v) | None => Through tt end.
Proof. induction cs as [|[size c] cs IH]; cbn [walk first_text]; [done|]. by destruct (text_of_command c). Qed.

Lemma running_text_at m lo hi h cs i :
  image_at m h cs -> lo <= h -> h + HeaderSize <= hi ->
  running_text (mload m lo hi) i h =
  Ok (Some (match first_text cs with Some v => i.[running_text_addr := v].[running_mh := h] | None => i end)).
Proof.
  intros H Hlo Hhi. unfold running_text.
  rewrite rbind_assoc, (walk_image (fun _ c => match text_of_command c with Some v => Stop v | None => Next tt end) _ _ _ _ cs);
    [|done..|intros a size c [] ? ? ?; by apply (text_command_at _ _ _ _ size _ (fun v => v))].
  rewrite (walk_text (fun v => v)). by destruct (first_text cs).
Qed.

Lemma has_text_at m lo hi h cs :
  image_at m h cs -> lo <= h -> h + HeaderSize <= hi -> has_text (mload m lo hi) h = Ok (bool_decide (is_Some (first_text cs))).
Proof.
  intros H Hlo Hhi. unfold has_text.
  rewrite rbind_assoc, (walk_image (fun _ c => match text_of_command c with Some v => Stop tt | None => Next tt end) _ _ _ _ cs); [|done..|].
  - rewrite (walk_text (fun _ => tt)). destruct (first_text cs) eqn:E; cbn [rbind].
    + by rewrite bool_decide_true by eauto.
    + rewrite bool_decide_false; [done|]. by intros [? ?].
  - intros a size c [] Hc H1 H2. rewrite <- (text_command_at m lo hi a size c (fun _ => tt)) by done.
    destruct (_ =? LC_SEGMENT_64) eqn:E; [|done]. assert (a + 32 <= hi) as H3.
    { destruct Hc as (_ & _ & Hc). apply Z.eqb_eq in E. destruct c; destruct Hc as (? & ? & ?); [lia|by rewrite E in *|destruct_and?; congruence]. }
    compared a str_TEXT; [by rewrite mload_ok by lia|done].
Qed.

(** The distance between the addresses that are tried. *)
Definition granularity (snowleopard : bool) : Z := if snowleopard then KASLRAlignment else MACH_PAGE.

(** The header of a kernel that is not in a collection. *)
Record kernel_at (m : mem) (bigsur : bool) (b : Z) (cs : list (Z * command)) : Prop := {
  ka_image : image_at m b cs;
  ka_magic : ldn 4 m b = MH_MAGIC_64;
  ka_text : is_Some (first_text cs);
  ka_thin : bigsur = true -> ldn 4 m (b + 12) <> MH_FILESET
}.

Lemma search_base_finds m lo hi bigsur snowleopard b cs k f :
  kernel_at m bigsur b cs -> 0 <= lo <= b -> b + HeaderSize <= hi -> hi < 2 ^ 64 ->
  b + Z.of_nat k * granularity snowleopard + 4 <= hi ->
  (forall j, (1 <= j <= k)%nat -> ldn 4 m (b + Z.of_nat j * granularity snowleopard) <> MH_MAGIC_64) ->
  search_base (mload m lo hi) (S k + f) bigsur snowleopard (b + Z.of_nat k * granularity snowleopard) = Ok (b, false).
Proof.
  intros [Hi Hm Ht Hf] Hlo Hb Hw. assert (0 < granularity snowleopard) by by destruct snowleopard.
  induction k as [|k IH]; intros Hk Hj; cbn [Nat.add search_base].
  - rewrite Z.add_0_r, mload_ok, Hm by (unfold HeaderSize, MACH_PAGE in *; lia). cbn [rbind].
    change (MH_MAGIC_64 =? MH_MAGIC_64) with true. cbv iota.
    assert ((if bigsur then is_fileset (mload m lo hi) b else Ok false) = Ok false) as ->.
    { destruct bigsur; [|done]. unfold is_fileset. rewrite mload_ok by (unfold HeaderSize, MACH_PAGE in *; lia). cbn [rbind].
      by rewrite (proj2 (Z.eqb_neq _ _)) by auto. }
    cbn [rbind]. rewrite (has_text_at _ _ _ _ cs), bool_decide_true by (done || lia). done.
  - rewrite mload_ok by nia. cbn [rbind]. rewrite (proj2 (Z.eqb_neq _ _)) by (apply Hj; lia).
    fold (granularity snowleopard).
    replace (b + Z.of_nat (S k) * granularity snowleopard - granularity snowleopard)
      with (b + Z.of_nat k * granularity snowleopard) by lia.
    rewrite u64_id by nia. apply IH; [nia|]. intros j ?. apply Hj. lia.
Qed.

(** C18: The search for the base of the kernel ends: when the header of a kernel with
    [__TEXT] is [k] steps below the aligned address of [IOLog] and no other step
    has the magic number, [k + 1] rounds find it and remember it. *)
Theorem findKernelBase_finds (m : mem) (lo hi : Z) (bigsur snowleopard : bool) (b : Z) (cs : list (Z * command)) (k f : nat)
    (IOLog : Z) (i : MachInfo) :
  kernel_at m bigsur b cs -> 0 <= lo <= b -> b + HeaderSize <= hi -> hi < 2 ^ 64 ->
  b + Z.of_nat k * granularity snowleopard + 4 <= hi ->
  (forall j, (1 <= j <= k)%nat -> ldn 4 m (b + Z.of_nat j * granularity snowleopard) <> MH_MAGIC_64) ->
  IOLog .& u64 (Z.lnot (KASLRAlignment - 1)) = b + Z.of_nat k * granularity snowleopard -> i m_kernel_base = 0 ->
  findKernelBase (mload m lo hi) (S k + f) bigsur snowleopard IOLog i = Ok (b, i.[m_kernel_base := b]).
Proof.
  intros Hk Hlo Hb Hw He Hj Ha Hi. unfold findKernelBase. rewrite Hi, Ha. cbn [truth Z.eqb negb].
  by rewrite (search_base_finds _ _ _ _ _ b cs).
Qed.

(** The members for symbols are those before, with the slide. *)
Lemma has_symbols_same (i i' : MachInfo) :
  has_symbols (i.[kaslr_slide_set := 1]) -> i' kaslr_slide_set = 1 ->
  Forall (fun f => i' f = i f) [sym_buf; sym_size; sym_fileoff; symboltable_fileoff; stringtable_fileoff; symboltable_nr_symbols] ->
  has_symbols i' /\ table_at i' = table_at i /\ strings_at i' = strings_at i /\ i' sym_buf = i sym_buf /\ i' sym_size = i sym_size /\
  i' symboltable_nr_symbols = i symboltable_nr_symbols.
Proof.
  intros [] Hs Hf. rewrite !Forall_cons in Hf. destruct Hf as (F1 & F2 & F3 & F4 & F5 & F6 & _).
  unfold table_at, strings_at in *. rewrite !mput_ne in * by done.
  split; [split; unfold table_at, strings_at|]; rewrite ?Hs, ?F1, ?F2, ?F3, ?F4, ?F5, ?F6; done.
Qed.

(** C27: The slide of a kernel whose base is known: [getRunningAddresses] takes the
    address of the first [__TEXT] of the running header, and what [solveSymbol]
    finds afterwards, the value of the first entry with the name, is moved by as
    much as [__TEXT] was. *)
Theorem kernel_slide_symbols (m : mem) (hi : Z) (f : nat) (bigsur snowleopard isKernel : bool) (IOLog : Z) (i : MachInfo)
    (b v w : Z) (cs : list (Z * command)) :
  image_at m b cs -> first_text cs = Some v -> v <> 0 -> 0 < b -> b + HeaderSize <= hi ->
  i m_kernel_base = b -> i m_kernel_collection = 0 -> i kaslr_slide_set = 0 ->
  (let start := b + sizeof_mach_header_64 + ldn 4 m (b + 20) in
   start + 4095 < 2 ^ 64 /\ mload m b hi 4 (first_end start) = Ok w /\ w <> 0) ->
  has_symbols (i.[kaslr_slide_set := 1]) ->
  exists i', getRunningAddresses (mload m b hi) (S f) bigsur snowleopard isKernel IOLog i 0 0 false = Ok (true, i') /\
    forall m' s, Forall (fun c => 0 < c < 256) s -> Z.of_nat (length s) < 2 ^ 32 ->
      exists o, solveSymbol (mload m' (i sym_buf) (i sym_buf + i sym_size)) i' s =
          Ok (match o with Some value => u64 (value + (v - i disk_text_addr)) | None => 0 end) /\
        first_symbol m' (table_at i) (strings_at i) (i sym_buf + i sym_size) s (Z.to_nat (i symboltable_nr_symbols)) o.
Proof.
  intros Hi Ht Hv Hb Hhi Hkb Hkc Hs (Hw & Hl & Hn) Hsym. pose proof (ldn_range 4 m (b + 20)) as R.
  unfold getRunningAddresses. rewrite Hs. cbn [truth Z.eqb negb Z.ltb Z.compare].
  unfold findKernelBase. rewrite Hkb, (truth_true b), Hkc by lia. cbn [rbind].
  rewrite mput_eq. cbn [truth Z.eqb negb andb]. rewrite (proj2 (Z.eqb_neq b 0)) by lia. cbn [negb].
  rewrite (running_text_at _ _ _ _ cs), Ht by (done || lia). cbn [rbind].
  rewrite mput_ne, mput_eq, (truth_true v), mput_eq, (truth_true b) by (done || lia). cbn [andb].
  match goal with |- context [find_slots _ _ ?j _] => set (i1 := j); replace (i1 running_mh) with b by done end.
  rewrite (find_slots_first _ f i1 b (ldn 4 m (b + 20)) w); [|unfold sizeof_mach_header_64; lia|exact Hw| |exact Hl|exact Hn].
  2: { apply mload_ok; unfold HeaderSize, MACH_PAGE in *; lia. }
  cbn [rbind]. eexists. split; [done|]. intros m' s Hc Hlen.
  match goal with |- context [solveSymbol _ ?j _] => set (i2 := j) end.
  destruct (has_symbols_same i i2) as (H1 & <- & <- & <- & <- & <-); [done|done|by repeat constructor|].
  destruct (solveSymbol_first m' i2 s) as (o & -> & Ho); [done..|]. exists o. split; [|done].
  destruct o as [value|]; [|done]. f_equal. change (i2 kaslr_slide) with (u64 (v - i disk_text_addr)). by apply wrap_add_r.
Qed.


Lemma findKernelBase_finds_witness :
  findKernelBase (mload demo_header 0x200000 0x500000) 3 true true 0x401234 (fun _ => 0) =
  Ok (0x200000, (fun _ => 0).[m_kernel_base := 0x200000]).
Proof.
  apply (findKernelBase_finds demo_header 0x200000 0x500000 true true 0x200000 demo_commands 2 0 0x401234 (fun _ => 0)).
  - split; [apply demo_header_ok|reflexivity|eexists; reflexivity|discriminate].
  - lia.
  - by vm_compute.
  - reflexivity.
  - by vm_compute.
  - intros [|[|[|j] ] ] [? ?]; [lia|by vm_compute|by vm_compute|lia].
  - reflexivity.
  - reflexivity.
Defined.

Lemma kernel_slide_symbols_witness :
  let i := demo_mach.[kaslr_slide_set := 0].[m_kernel_base := 0x200000].[disk_text_addr := 1024] in
  exists i', getRunningAddresses (mload demo_header 0x200000 0x300000) 1 true true true 0 i 0 0 false = Ok (true, i') /\
    solveSymbol (mload demo_symbols 4096 4132) i' [98] = Ok (7 + (4096 - 1024)).
Proof.
  destruct (kernel_slide_symbols demo_header 0x300000 0 true true true 0
              (demo_mach.[kaslr_slide_set := 0].[m_kernel_base := 0x200000].[disk_text_addr := 1024])
              0x200000 4096 256 demo_commands demo_header_ok) as (i' & E & H);
    [reflexivity|lia|lia|by vm_compute|reflexivity|reflexivity|reflexivity|by vm_compute| |].
  - split; vm_compute; repeat split; discriminate.
  - exists i'. split; [exact E|]. vm_compute in E. injection E as <-. reflexivity.
Defined.
