(* ===== verification/MachFile.v ===== *)
(** How Lilu loads an image ([src/Lilu/Lilu/Sources/kern_mach.cpp] and
    [src/Lilu/Lilu/Sources/kern_file.cpp], 64 bits): from a file, which may be fat or
    compressed, or out of the prelinked kernel, and what it keeps of it.

    The state is the memory with the blocks that may be read, the file nodes and the
    requests that are held, and the static variables of [findImage].  Every load and
    store outside of the blocks is a fault, and so is the release of what is not
    allocated.  The kernel's own memory is among the blocks.  What the kernel gives
    is an argument: the allocator, files by their paths, the parser of property
    lists, zlib. *)

From Stdlib Require Import ZArith List Bool.
From stdpp Require Import prelude.
From S2P Require Import Prelude KUtil Lzss Compression Mach.

Open Scope Z_scope.
Open Scope c_scope.

(** ** State *)

(** Objects of property lists. *)
#[warnings="-register-all"]
Inductive osobj :=
  | OSDict (l : list (list Z * osobj))
  | OSArr (l : list osobj)
  | OSStr (s : list Z)
  | OSNum (v : Z)
  | OSOther.
Definition dictionary : Type := list (list Z * osobj).
Fixpoint getObject (d : dictionary) (key : list Z) : option osobj :=
  match d with
  | [] => None
  | (k, v) :: d' => if decide (k = key) then Some v else getObject d' key
  end.

(** [vnodes], [contexts] and [uios]: those that are held. *)
Record machine := mk_machine {
  mm : mem; blocks : list (Z * Z); vnodes : Z; contexts : Z; uios : Z; imageArr : option (list osobj); imageNum : Z
}.
Definition with_mm (w : machine) (m : mem) : machine :=
  mk_machine m (blocks w) (vnodes w) (contexts w) (uios w) (imageArr w) (imageNum w).
Definition with_blocks (w : machine) (b : list (Z * Z)) : machine :=
  mk_machine (mm w) b (vnodes w) (contexts w) (uios w) (imageArr w) (imageNum w).
Definition with_files (w : machine) (v c u : Z) : machine :=
  mk_machine (mm w) (blocks w) v c u (imageArr w) (imageNum w).
Definition with_images (w : machine) (a : option (list osobj)) (n : Z) : machine :=
  mk_machine (mm w) (blocks w) (vnodes w) (contexts w) (uios w) a n.

(** Whether [n] bytes at [a] are in a block. *)
Definition in_blocks (bs : list (Z * Z)) (a n : Z) : bool :=
  existsb (fun '(b, size) => (b <=? a) && (a + n <=? b + size)) bs.
Definition hld (w : machine) (n : nat) (a : Z) : res Z :=
  if in_blocks (blocks w) a (Z.of_nat n) then Ok (ldn n (mm w) a) else Fault.
Definition store_list (w : machine) (a : Z) (l : list Z) : res machine :=
  if in_blocks (blocks w) a (Z.of_nat (length l)) then Ok (with_mm w (write_list (mm w) a l)) else Fault.
(** [lilu_os_memcpy]. *)
Definition copy_bytes (w : machine) (dst src n : Z) : res machine :=
  if in_blocks (blocks w) src n then store_list w dst (bytes (mm w) src (Z.to_nat n)) else Fault.

(** An object: its members and its dictionary. *)
Record machobj := mk_obj { info : MachInfo; prelink_dict : option dictionary }.
Definition on_info (f : MachInfo -> MachInfo) (o : machobj) : machobj := mk_obj (f (info o)) (prelink_dict o).

(** A file: its size, and what a read of an offset and a size does: the request is
    not created, not accepted, or transfers bytes with or without an error. *)
Inductive io := NoUio | NoIov | Transfer (error : bool) (l : list Z).
Record vnode := mk_vnode { vsize : Z; vread : Z -> Z -> io }.

Section files.
Context (malloc : machine -> Z -> option Z) (vnode_lookup : list Z -> option vnode)
  (unserialize : list Z -> option osobj)
  (inflateInit : Z) (inflate : mem -> Z -> Z -> Z -> Z -> Z * Z * mem) (junk : arr).

(** [Buffer::create] and [Buffer::deleter] of bytes. *)
Definition buffer_create (w : machine) (size : Z) : option (Z * machine) :=
  match create size (malloc w size) with
  | Some a => Some (a, with_blocks w ((a, size) :: blocks w))
  | None => None
  end.
Fixpoint remove_block (a : Z) (bs : list (Z * Z)) : option (list (Z * Z)) :=
  match bs with
  | [] => None
  | (b, size) :: bs' => if b =? a then Some bs' else (fun l => (b, size) :: l) <$> remove_block a bs'
  end.
Definition buffer_deleter (w : machine) (a : Z) : res machine :=
  if a =? 0 then Ok w
  else match remove_block a (blocks w) with Some bs => Ok (with_blocks w bs) | None => Fault end.

(** ** Files *)

(** A read with [performFileIO]: whether it succeeds. *)
Definition performFileIO (w : machine) (buffer off size : Z) (v : vnode) : res (bool * machine) :=
  match vread v off size with
  | NoUio => Ok (false, w)
  | NoIov => Ok (false, with_files w (vnodes w) (contexts w) (uios w + 1))
  | Transfer error l =>
      let l := take (Z.to_nat size) l in
      let! w := store_list (with_files w (vnodes w) (contexts w) (uios w + 1)) buffer l in
      Ok (negb error && (Z.of_nat (length l) =? size), w)
  end.
Definition readFileData := performFileIO.

Definition vfs_context_create (w : machine) : machine := with_files w (vnodes w) (contexts w + 1) (uios w).
Definition vfs_context_rele (w : machine) : machine := with_files w (vnodes w) (contexts w - 1) (uios w).
Definition vnode_get (w : machine) : machine := with_files w (vnodes w + 1) (contexts w) (uios w).
Definition vnode_put (w : machine) : machine := with_files w (vnodes w - 1) (contexts w) (uios w).

(** The buffer, or null, and the size, which is not written when there is no file. *)
Definition readFileToBuffer (w : machine) (path : list Z) (size : Z) : res (Z * Z * machine) :=
  let w := vfs_context_create w in
  match vnode_lookup path with
  | None => Ok (0, size, vfs_context_rele w)
  | Some v =>
      let w := vnode_get w in
      let size := vsize v in
      let! '(buf, w) :=
        (if 0 <? size then
           match buffer_create w (u64 (size + 1)) with
           | None => Ok (0, w)
           | Some (buf, w) =>
               let! '(ok, w) := readFileData w buf 0 size v in
               if ok : bool then let! w := store_list w (buf + size) [0] in Ok (buf, w)
               else let! w := buffer_deleter w buf in Ok (0, w)
           end
         else Ok (0, w)) in
      Ok (buf, size, vfs_context_rele (vnode_put w))
  end.

(** ** Headers *)

(** The loop of [readMachHeader] over the header at [buffer], at [off] in the file. *)
Fixpoint look_at_header (fuel : nat) (allow_decompress : bool) (w : machine) (i : MachInfo) (buffer : Z) (v : vnode) (off : Z)
    : res (bool * machine * MachInfo) :=
  match fuel with
  | O => NoFuel
  | S f =>
      if negb (aligned buffer) then Ok (false, w, i)
      else
        let! magic := hld w 4 buffer in
        if magic =? MH_MAGIC_64 then Ok (true, w, i.[fat_offset := off])
        else if (magic =? FAT_CIGAM) || (magic =? FAT_MAGIC) then
          if negb (off =? 0) then Ok (false, w, i)
          else
            let swap := magic =? FAT_CIGAM in
            let! num := hld w 4 (buffer + 4) in
            let num := swapped swap num in
            if too_many num then Ok (false, w, i)
            else
              let! a := find_arch (hld w) (Z.to_nat num) swap (buffer + sizeof_fat_header) CPU_TYPE_X86_64 in
              match a with
              | None => Ok (false, w, i)
              | Some (offset, _) =>
                  let! '(ok, w) := readFileData w buffer offset HeaderSize v in
                  if ok : bool then look_at_header f allow_decompress w i buffer v offset else Ok (false, w, i)
              end
        else if magic =? CompressionMagic then
          if negb allow_decompress then Ok (false, w, i)
          else
            let! compression := hld w 4 (buffer + 4) in
            let! decompressed := hld w 4 (buffer + 12) in
            let! compressed := hld w 4 (buffer + 16) in
            let comp := OSSwapInt32 compressed in
            let dec := OSSwapInt32 decompressed in
            match buffer_create w comp with
            | None => Ok (false, w, i)
            | Some (compressedBuf, w) =>
                let! '(ok, w) := readFileData w compressedBuf (off + sizeof_compression_header) comp v in
                if ok && (HeaderSize <? decompressed) then
                  let! w := buffer_deleter w (i file_buf) in
                  let! d := decompress inflateInit inflate junk (mm w) compression dec compressedBuf comp None (malloc w dec) in
                  let w := with_mm w (memory d) in
                  match result d with
                  | Some a =>
                      let w := with_blocks w ((a, dec) :: blocks w) in
                      let! w := copy_bytes w buffer a HeaderSize in
                      let! w := buffer_deleter w compressedBuf in
                      look_at_header f allow_decompress w (i.[file_buf := a].[file_buf_size := dec]) buffer v off
                  | None =>
                      let! w := buffer_deleter w compressedBuf in
                      Ok (false, w, i.[file_buf := 0])
                  end
                else
                  let! w := buffer_deleter w compressedBuf in
                  Ok (false, w, i)
            end
        else Ok (false, w, i)
  end.

Definition readMachHeader (fuel : nat) (allow_decompress : bool) (w : machine) (i : MachInfo) (buffer : Z) (v : vnode) (off : Z)
    : res (bool * machine * MachInfo) :=
  let! '(ok, w) := readFileData w buffer off HeaderSize v in
  if ok : bool then look_at_header fuel allow_decompress w i buffer v off else Ok (false, w, i).

(** ** Symbols *)

Definition readSymbols (w : machine) (i : MachInfo) (v : vnode) : res (bool * machine * MachInfo) :=
  match buffer_create w (i sym_size) with
  | None => Ok (false, w, i.[sym_buf := 0])
  | Some (a, w) =>
      let! '(ok, w) :=
        (if truth (i file_buf) then
           if (i sym_size <=? i file_buf_size) && (i sym_fileoff <=? i file_buf_size - i sym_size) then
             let! w := copy_bytes w a (i file_buf + i sym_fileoff) (i sym_size) in Ok (true, w)
           else Ok (false, w)
         else readFileData w a (i fat_offset + i sym_fileoff) (i sym_size) v) in
      if ok : bool then Ok (true, w, i.[sym_buf := a])
      else let! w := buffer_deleter w a in Ok (false, w, i.[sym_buf := 0])
  end.

Definition freeFileBufferResources (w : machine) (o : machobj) : res (machine * machobj) :=
  let! w := (if truth (info o file_buf) then buffer_deleter w (info o file_buf) else Ok w) in
  Ok (w, mk_obj (info o).[file_buf := 0] None).

Definition deinit (w : machine) (o : machobj) : res (machine * machobj) :=
  let! '(w, o) := freeFileBufferResources w o in
  if truth (info o sym_buf) then
    let! w := (if truth (info o sym_buf_ro) then Ok w else buffer_deleter w (info o sym_buf)) in
    Ok (w, on_info (fun i => i.[sym_buf := 0]) o)
  else Ok (w, o).

(** ** The prelinked kernel *)

(** [__PRELINK_INFO], [__info], [__PRELINK_TEXT], [__text] and the keys. *)
Definition str_PRELINK_INFO : list Z := [95; 95; 80; 82; 69; 76; 73; 78; 75; 95; 73; 78; 70; 79].
Definition str_info : list Z := [95; 95; 105; 110; 102; 111].
Definition str_PRELINK_TEXT : list Z := [95; 95; 80; 82; 69; 76; 73; 78; 75; 95; 84; 69; 88; 84].
Definition str_text : list Z := [95; 95; 116; 101; 120; 116].
(** [_PrelinkLinkKASLROffsets]. *)
Definition key_offsets : list Z :=
  [95; 80; 114; 101; 108; 105; 110; 107; 76; 105; 110; 107; 75; 65; 83; 76; 82; 79; 102; 102; 115; 101; 116; 115].
(** [_PrelinkInfoDictionary]. *)
Definition key_images : list Z :=
  [95; 80; 114; 101; 108; 105; 110; 107; 73; 110; 102; 111; 68; 105; 99; 116; 105; 111; 110; 97; 114; 121].
(** [CFBundleIdentifier]. *)
Definition key_identifier : list Z := [67; 70; 66; 117; 110; 100; 108; 101; 73; 100; 101; 110; 116; 105; 102; 105; 101; 114].
(** [_PrelinkExecutableSourceAddr], [_PrelinkExecutableLoadAddr] and
    [_PrelinkExecutableSize]. *)
Definition key_executable : list Z := [95; 80; 114; 101; 108; 105; 110; 107; 69; 120; 101; 99; 117; 116; 97; 98; 108; 101].
Definition key_source : list Z := key_executable ++ [83; 111; 117; 114; 99; 101; 65; 100; 100; 114].
Definition key_load : list Z := key_executable ++ [76; 111; 97; 100; 65; 100; 100; 114].
Definition key_size : list Z := key_executable ++ [83; 105; 122; 101].

(** The text at the start of bytes. *)
Fixpoint upto_zero (l : list Z) : list Z :=
  match l with
  | [] => []
  | b :: l' => if b =? 0 then [] else b :: upto_zero l'
  end.

(** The dictionary that the [__info] section describes, when it is in the buffer. *)
Definition parse_info (w : machine) (i : MachInfo) : res (option dictionary) :=
  let! b := findSectionBounds (hld w) 1 (i file_buf) (i file_buf_size) str_PRELINK_INFO str_info CPU_TYPE_X86_64 in
  let startoff :=
    if truth (sectionSize b) && (i file_buf <=? sectionptr b) then sectionptr b - i file_buf else i file_buf_size in
  if (0 <? sectionSize b) && (startoff <? i file_buf_size) && (sectionSize b <=? i file_buf_size - startoff) then
    let! last := hld w 1 (sectionptr b + (sectionSize b - 1)) in
    if last =? 0 then
      Ok (match unserialize (upto_zero (bytes (mm w) (sectionptr b) (Z.to_nat (sectionSize b)))) with
          | Some (OSDict d) => Some d
          | _ => None
          end)
    else Ok None
  else Ok None.

Definition updatePrelinkInfo (isKernel : bool) (w : machine) (o : machobj) : res machobj :=
  match prelink_dict o with
  | Some _ => Ok o
  | None =>
      if isKernel && truth (info o file_buf) then
        let! d := parse_info w (info o) in
        match d with
        | None => Ok o
        | Some d =>
            let! b := findSectionBounds (hld w) 1 (info o file_buf) (info o file_buf_size) str_PRELINK_TEXT str_text CPU_TYPE_X86_64 in
            if truth (sectionSize b) then
              let slid := match getObject d key_offsets with Some _ => 1 | None => 0 end in
              Ok (mk_obj (info o).[prelink_addr := sectionptr b].[prelink_vmaddr := vmsection b].[prelink_slid := slid] (Some d))
            else Ok o
        end
      else Ok o
  end.

(** The image, or null, what is written to the size and the slide, and whether the
    identifier is missing. *)
Record located := mk_located { image : Z; image_size : option Z; image_slide : option Z; missing : bool }.
Definition nowhere : located := mk_located 0 None None false.

(** The entry of a dictionary as a number. *)
Definition getNumber (d : dictionary) (key : list Z) : option Z :=
  match getObject d key with Some (OSNum v) => Some v | _ => None end.

(** What an entry of the array with the identifier says. *)
Definition locate (i : MachInfo) (d : dictionary) : located :=
  match getNumber d key_source, getNumber d key_load, getNumber d key_size with
  | Some saddr, Some _, Some size =>
      let imageSize := u32 size in
      let imageaddr := u64 (saddr - i prelink_vmaddr + i prelink_addr) in
      let startoff := if i file_buf <=? imageaddr then sext 64 (imageaddr - i file_buf) else i file_buf_size in
      if (startoff <? i file_buf_size) && (imageSize <=? i file_buf_size - startoff) then
        mk_located imageaddr (Some imageSize) (Some (if truth (i prelink_slid) then 0 else i kaslr_slide)) false
      else mk_located 0 (Some imageSize) None false
  | _, _, _ => nowhere
  end.
Fixpoint find_entry (i : MachInfo) (l : list osobj) (identifier : list Z) : located :=
  match l with
  | [] => mk_located 0 None None true
  | OSDict d :: l' =>
      match getObject d key_identifier with
      | Some (OSStr s) => if decide (s = identifier) then locate i d else find_entry i l' identifier
      | _ => find_entry i l' identifier
      end
  | _ :: l' => find_entry i l' identifier
  end.

Definition findImage (isKernel : bool) (w : machine) (o : machobj) (identifier : list Z) : res (located * machine * machobj) :=
  let! o := updatePrelinkInfo isKernel w o in
  match prelink_dict o with
  | None => Ok (nowhere, w, o)
  | Some d =>
      let arr := match imageArr w with
                 | Some a => Some a
                 | None => match getObject d key_images with Some (OSArr a) => Some a | _ => None end
                 end in
      match arr with
      | None => Ok (nowhere, with_images w arr (imageNum w), o)
      | Some a =>
          let num := if truth (imageNum w) then imageNum w else Z.of_nat (length a) in
          Ok (find_entry (info o) (take (Z.to_nat num) a) identifier, with_images w arr num, o)
      end
  end.

Definition no_vnode : vnode := mk_vnode 0 (fun _ _ => NoUio).

(** The object of the prelinked kernel, when there is one, is changed too. *)
Definition initFromPrelinked (leopard : bool) (objectId : option (list Z)) (w : machine) (o : machobj) (prelink : option (bool * machobj))
    : res (bool * machine * machobj * option (bool * machobj)) :=
  match prelink, objectId with
  | Some (isKernel, p), Some identifier =>
      let! '(l, w, p) := findImage isKernel w p identifier in
      let i := (info o).[file_buf := image l] in
      let i := match image_size l with Some v => i.[file_buf_size := v] | None => i end in
      let i := match image_slide l with Some v => i.[prelink_vmaddr := v] | None => i end in
      let! '(ok, w, i) :=
        (if truth (i file_buf) && (HeaderSize <=? i file_buf_size) then
           let! i := processMachHeader (hld w) i (i file_buf) in
           if truth (i sym_fileoff) && truth (i symboltable_fileoff) then
             let! '(uuid, i) := loadUUID (hld w) leopard i (i file_buf) in
             if uuid : bool then
               let! '(ok, w, i) := readSymbols w i no_vnode in
               Ok (ok, w, if ok : bool then i.[prelink_slid := 1] else i)
             else Ok (false, w, i)
           else Ok (false, w, i)
         else Ok (false, w, i)) in
      Ok (ok, w, mk_obj i.[file_buf := 0] (prelink_dict o), Some (isKernel, p))
  | _, _ => Ok (false, w, o, prelink)
  end.

(** ** The file system *)

Definition PATH_MAX : Z := 1024.

(** The paths that are tried for one: with the suffix behind a dot, behind an
    underscore, and without; none when the path is empty or too long. *)
Definition candidates (kcsuffix : option (list Z)) (path : list Z) : list (list Z) :=
  if (Z.of_nat (length path) =? 0) || (PATH_MAX <=? Z.of_nat (length path)) then []
  else
    match kcsuffix with
    | Some suffix =>
        let with_suffix c := take (Z.to_nat (PATH_MAX - 1)) (path ++ [c] ++ suffix) in
        [with_suffix 46; with_suffix 95; path]
    | None => [path]
    end.

(** What does not change: versions of the kernel, the address of [IOLog], the rounds
    of searches in memory and of a header, and whether decompression is allowed. *)
Context (leopard snowleopard bigsur : bool) (IOLog : Z) (fuel : nat) (allow_decompress : bool).

(** The first of the paths with a header that fits, which stays held. *)
Fixpoint find_file (isKernel : bool) (w : machine) (i : MachInfo) (machHeader : Z) (paths : list (list Z))
    : res (option vnode * machine * MachInfo) :=
  match paths with
  | [] => Ok (None, w, i)
  | path :: paths' =>
      match vnode_lookup path with
      | None => find_file isKernel w i machHeader paths'
      | Some v =>
          let! '(ok, w, i) := readMachHeader fuel allow_decompress (vnode_get w) i machHeader v 0 in
          let! '(ok, i) := (if ok : bool then loadUUID (hld w) leopard i machHeader else Ok (false, i)) in
          let! '(ok, i) :=
            (if ok : bool then
               if negb isKernel then Ok (true, i) else isCurrentBinary (hld w) fuel leopard bigsur snowleopard IOLog i 0
             else Ok (false, i)) in
          if ok : bool then Ok (Some v, w, i) else find_file isKernel (vnode_put w) i machHeader paths'
      end
  end.

Definition initFromFileSystem (isKernel : bool) (kcsuffix : option (list Z)) (w : machine) (i : MachInfo) (paths : list (list Z))
    : res (bool * machine * MachInfo) :=
  match buffer_create w HeaderSize with
  | None => Ok (false, w, i)
  | Some (machHeader, w) =>
      let! '(found, w, i) := find_file isKernel (vfs_context_create w) i machHeader (paths ≫= candidates kcsuffix) in
      match found with
      | None =>
          let! w := buffer_deleter (vfs_context_rele w) machHeader in Ok (false, w, i)
      | Some v =>
          let! i := processMachHeader (hld w) i machHeader in
          let! '(ok, w, i) :=
            (if truth (i sym_fileoff) && truth (i symboltable_fileoff) then readSymbols w i v else Ok (false, w, i)) in
          let! w := buffer_deleter (vfs_context_rele (vnode_put w)) machHeader in
          Ok (ok, w, i)
      end
  end.

(** [credential]: the current thread has one. *)
Definition init (isKernel : bool) (objectId : option (list Z)) (credential : bool) (kcsuffix : option (list Z))
    (w : machine) (o : machobj) (paths : list (list Z)) (prelink : option (bool * machobj))
    : res (bool * machine * machobj * option (bool * machobj)) :=
  let! '(ok, i) := initFromMemory (hld w) fuel bigsur snowleopard IOLog (info o) in
  let o := mk_obj i (prelink_dict o) in
  let! in_memory :=
    (if truth (i kernel_collection) then
       match paths with
       | [] => Fault
       | path :: _ => Ok (negb (bool_decide (strstr path [46; 107; 101; 120; 116] 0 = None)))
       end
     else Ok false) in
  if in_memory || negb credential then Ok (ok, w, o, prelink)
  else
    let! '(ok, w, o) :=
      (if truth (info o sym_buf) then Ok (ok, w, o)
       else
         let! '(ok, w, i) := initFromFileSystem isKernel kcsuffix w (info o) paths in
         Ok (ok, w, mk_obj i (prelink_dict o))) in
    if truth (info o sym_buf) then Ok (ok, w, o, prelink)
    else initFromPrelinked leopard objectId w o prelink.
End files.
