(* ===== verification/MachFileThm.v ===== *)
(** Theorems on loading images ([MachFile.v]): what is held and allocated is given
    back, images of the prelinked kernel are in its buffer, and what goes wrong with
    several files and with fat headers. *)

From Stdlib Require Import ZArith Lia List Bool.
From stdpp Require Import prelude.
From S2P Require Import Prelude KUtil Lzss Compression Mach MachThm MachFile.

Open Scope Z_scope.
Open Scope c_scope.

(** ** What is held *)

(** The addresses of the blocks. *)
Definition addrs (w : machine) : list Z := (blocks w).*1.
(** The files and contexts that are held stay the same. *)
Definition same_files (w w' : machine) : Prop := vnodes w' = vnodes w /\ contexts w' = contexts w.
(** The buffers of an object; null is none. *)
Definition given (a : Z) : list Z := if a =? 0 then [] else [a].
Definition file_addr (i : MachInfo) : list Z := given (i file_buf).
Definition sym_addr (i : MachInfo) : list Z := if truth (i sym_buf_ro) then [] else given (i sym_buf).
Definition same_bufs (i i' : MachInfo) : Prop :=
  i' file_buf = i file_buf /\ i' sym_buf = i sym_buf /\ i' sym_buf_ro = i sym_buf_ro.
(** Blocks and files are the same, up to order. *)
Definition keeps (w w' : machine) : Prop := addrs w' ≡ₚ addrs w /\ same_files w w'.

#[local] Instance keeps_refl : Reflexive keeps.
Proof. by intros w. Qed.
#[local] Instance keeps_trans : Transitive keeps.
Proof. intros w1 w2 w3 [H1 [H2 H3]] [H4 [H5 H6]]. split; [by rewrite H4|split; congruence]. Qed.
#[local] Instance same_files_trans : Transitive same_files.
Proof. intros w1 w2 w3 [H1 H2] [H3 H4]. split; congruence. Qed.
#[local] Instance same_bufs_refl : Reflexive same_bufs.
Proof. by intros i. Qed.
#[local] Instance same_bufs_trans : Transitive same_bufs.
Proof. intros i1 i2 i3 (?&?&?) (?&?&?). split_and!; congruence. Qed.

(** The steps of a computation that succeeds. *)
Lemma rbind_inv {A B} (x : res A) (f : A -> res B) y : rbind x f = Ok y -> exists a, x = Ok a /\ f a = Ok y.
Proof. destruct x; try discriminate. eauto. Qed.
Ltac step H := let a := fresh "a" in let E := fresh "E" in apply rbind_inv in H as (a & E & H).

Lemma remove_block_perm a bs : a ∈ bs.*1 -> exists bs', remove_block a bs = Some bs' /\ bs.*1 ≡ₚ a :: bs'.*1.
Proof.
  induction bs as [|[b size] bs IH]; cbn; [by intros ?%elem_of_nil|]. intros Ha. destruct (Z.eqb_spec b a) as [->|Hne]; [by eexists|].
  apply elem_of_cons in Ha as [->|Ha]; [done|]. destruct (IH Ha) as (bs' & -> & Hp). eexists. split; [done|].
  cbn. rewrite Hp. apply perm_swap.
Qed.
Lemma remove_block_inv a bs bs' : remove_block a bs = Some bs' -> bs.*1 ≡ₚ a :: bs'.*1.
Proof.
  revert bs'. induction bs as [|[b size] bs IH]; intros bs'; cbn; [done|]. destruct (Z.eqb_spec b a) as [->|Hne]; [by intros [= ->]|].
  destruct (remove_block a bs) as [l|] eqn:E; [|done]. intros [= <-]. cbn. rewrite (IH l) by done. apply perm_swap.
Qed.

Lemma store_list_keeps w a l w' : store_list w a l = Ok w' -> keeps w w'.
Proof. unfold store_list. case_match; [|done]. by intros [= <-]. Qed.
Lemma copy_bytes_keeps w d s n w' : copy_bytes w d s n = Ok w' -> keeps w w'.
Proof. unfold copy_bytes. case_match; [|done]. apply store_list_keeps. Qed.
Lemma readFileData_keeps w b off size v ok w' : readFileData w b off size v = Ok (ok, w') -> keeps w w'.
Proof.
  unfold readFileData, performFileIO. case_match; [by intros [= <- <-]|by intros [= <- <-]|].
  intros Hr. step Hr. injection Hr as _ <-. apply store_list_keeps in E as [? [? ?] ]. by repeat split.
Qed.

(** The release of a buffer, or of none. *)
Lemma buffer_deleter_inv w a w' l : buffer_deleter w a = Ok w' -> addrs w ≡ₚ given a ++ l -> addrs w' ≡ₚ l /\ same_files w w'.
Proof.
  unfold buffer_deleter, given. case_match; [by intros [= <-]|]. case_match eqn:E; [|done]. intros [= <-] Hl.
  apply remove_block_inv in E. unfold addrs in Hl. rewrite Hl in E. split; [by apply Permutation_cons_inv in E|done].
Qed.
Lemma buffer_deleter_ok w a l : addrs w ≡ₚ given a ++ l -> exists w', buffer_deleter w a = Ok w' /\ addrs w' ≡ₚ l /\ same_files w w'.
Proof.
  unfold buffer_deleter, given. case_match; [by eexists|]. intros Hp.
  destruct (remove_block_perm a (blocks w)) as (bs' & -> & Hp'); [unfold addrs in Hp; rewrite Hp; set_solver|].
  eexists. repeat split. unfold addrs in *. cbn. rewrite Hp in Hp'. by apply Permutation_cons_inv in Hp'.
Qed.

(** ** What the other functions leave alone *)

Lemma each_command_inv {A B} (Q : A -> Prop) ld n e a (body : Z -> Z -> A -> res (verdict A B)) x r :
  (forall a cmd x v, body a cmd x = Ok v -> Q x -> match v with Next x' => Q x' | Stop _ => True end) ->
  each_command ld n e a body x = Ok r -> Q x -> match r with Through x' | Invalid x' => Q x' | Stopped _ => True end.
Proof.
  intros Hb. revert a x. induction n as [|n IH]; intros a x; cbn [each_command]; [by intros [= <-]|].
  destruct (negb (aligned a)); [by intros [= <-]|]. destruct (e <? _); [by intros [= <-]|]. intros Hr. step Hr.
  destruct (e <? _); [by injection Hr as <-|].
  step Hr. step Hr. specialize (Hb _ _ _ _ E1) as Hq. destruct a2 as [x'|y]; [|by injection Hr as <-]. intros Hx. apply (IH _ _ Hr). by apply Hq.
Qed.

Lemma note_command_bufs ld a cmd i i' : note_command ld a cmd i = Ok i' -> same_bufs i i'.
Proof.
  unfold note_command. intros H. case_match.
  - step H. destruct a0; [step H; by injection H as <-|]. step H. destruct a0; [|by injection H as <-]. do 2 step H. by injection H as <-.
  - case_match; [do 4 step H; by injection H as <-|by injection H as <-].
Qed.
Lemma processMachHeader_bufs ld i h i' : processMachHeader ld i h = Ok i' -> same_bufs i i'.
Proof.
  unfold processMachHeader. intros H. step H. step H.
  eapply (each_command_inv (same_bufs i)) in E0; [|intros b cmd x v Hv Hx|done].
  - destruct a0 as [[]|x|x]; by injection H as <-.
  - step Hv. injection Hv as <-. apply note_command_bufs in E1. by etrans.
Qed.
Lemma loadUUID_bufs ld leopard i h ok i' : loadUUID ld leopard i h = Ok (ok, i') -> same_bufs i i'.
Proof.
  unfold loadUUID. case_match; [by intros [= <- <-]|]. intros Hr. step Hr. case_match; [|by injection Hr as _ <-].
  do 2 step Hr. by injection Hr as _ <-.
Qed.
Lemma findKernelBase_bufs ld fuel bs sl a i b i' : findKernelBase ld fuel bs sl a i = Ok (b, i') -> same_bufs i i'.
Proof.
  unfold findKernelBase. case_match; [by intros [= <- <-]|]. intros Hr. step Hr. destruct a0 as [tmp []]; by injection Hr as _ <-.
Qed.
Lemma isCurrentBinary_bufs ld fuel lp bs sl a i base ok i' : isCurrentBinary ld fuel lp bs sl a i base = Ok (ok, i') -> same_bufs i i'.
Proof.
  unfold isCurrentBinary. case_match; [by intros [= <- <-]|]. case_match; [by intros [= <- <-]|]. intros Hr. step Hr. destruct a0 as [b i1].
  assert (same_bufs i i1) as Hs by (destruct (truth base); [by injection E as _ <-|by eapply findKernelBase_bufs]).
  step Hr. case_match; [|by injection Hr as _ <-]. step Hr. case_match; [step Hr; by injection Hr as _ <-|by injection Hr as _ <-].
Qed.

(** ** Headers of files *)

(** A value of [k] bytes at offset [o] of a list. *)
Definition le_at (k : nat) (l : list Z) (o : Z) : Z := ldn k (fun x => nth (Z.to_nat x) l 0) o.

(** The two pages that a file gives at an offset. *)
Definition reads (v : vnode) (off : Z) (l : list Z) : Prop :=
  exists l0, vread v off HeaderSize = Transfer false l0 /\ l = take (Z.to_nat HeaderSize) l0 /\
    Z.of_nat (length l) = HeaderSize.

Definition thin (l : list Z) : Prop := le_at 4 l 0 = MH_MAGIC_64.
Definition compressed (l : list Z) : Prop := le_at 4 l 0 = CompressionMagic.

(** A fat header and its entries; [entry l j off]: entry [j] is for the processor
    and gives the offset [off]. *)
Definition reversed (l : list Z) : bool := le_at 4 l 0 =? FAT_CIGAM.
Definition fat (l : list Z) : Prop := le_at 4 l 0 = FAT_CIGAM \/ le_at 4 l 0 = FAT_MAGIC.
Definition entry (l : list Z) (j off : Z) : Prop :=
  0 <= j < swapped (reversed l) (le_at 4 l 4) /\
  swapped (reversed l) (le_at 4 l (8 + 20 * j)) = CPU_TYPE_X86_64 /\
  swapped (reversed l) (le_at 4 l (8 + 20 * j + 8)) = off.

(** The header of a file: its first two pages, or, when they are a fat header, the
    ones an entry for the processor points to. *)
Inductive header_of (v : vnode) : list Z -> Prop :=
  | header_whole l : reads v 0 l -> header_of v l
  | header_slice l j off l' : reads v 0 l -> fat l -> entry l j off -> reads v off l' -> header_of v l'.

(** [command_in l n o b]: of the [n] load commands that follow one another from
    offset [o] on, one is at [b]. *)
Inductive command_in (l : list Z) : nat -> Z -> Z -> Prop :=
  | command_here n o : command_in l (S n) o o
  | command_next n o b : command_in l n (o + le_at 4 l (o + 4)) b -> command_in l (S n) o b.

(** No load command starts in the last 55 bytes of the two pages, or what is
    left there is too short for any. *)
Definition uncut (l : list Z) : Prop :=
  forall b, command_in l (Z.to_nat (le_at 4 l 16)) sizeof_mach_header_64 b -> b + 56 <= HeaderSize \/ HeaderSize < b + 8.

(** A file that loading copes with: its header is not compressed (or decompression
    is off), a fat one has no entry for the processor at offset zero, and the load
    commands of a thin one do not end in the middle. *)
Definition tame (allow_decompress : bool) (v : vnode) : Prop :=
  forall l, header_of v l ->
    (allow_decompress = true -> ~ compressed l) /\ (fat l -> forall j, ~ entry l j 0) /\ (thin l -> uncut l).

Lemma in_blocks_part bs a n b k : in_blocks bs a n = true -> a <= b -> b + k <= a + n -> in_blocks bs b k = true.
Proof.
  unfold in_blocks. rewrite !existsb_exists. intros ([c size] & Hin & H) Ha Hb. exists (c, size). split; [done|].
  apply andb_true_iff in H as [H1%Z.leb_le H2%Z.leb_le]. apply andb_true_iff. split; apply Z.leb_le; lia.
Qed.
(** Loads in a block. *)
Lemma hld_in w a n b k : in_blocks (blocks w) a n = true -> a <= b -> b + Z.of_nat k <= a + n -> hld w k b = Ok (ldn k (mm w) b).
Proof. intros Hb H1 H2. unfold hld. by rewrite (in_blocks_part _ _ _ _ _ Hb H1 H2). Qed.

(** [sees ld h l]: the bytes [l] can be read at [h]. *)
Definition sees (ld : nat -> Z -> res Z) (h : Z) (l : list Z) : Prop :=
  forall k o, 0 <= o -> o + Z.of_nat k <= Z.of_nat (length l) -> ld k (h + o) = Ok (le_at k l o).

Lemma ldn_list k m a l o :
  0 <= o -> o + Z.of_nat k <= Z.of_nat (length l) -> ldn k (write_list m a l) (a + o) = le_at k l o.
Proof.
  unfold le_at. revert o. induction k as [|k IH]; intros o Ho Hk; cbn [ldn]; [done|].
  replace (a + o + 1) with (a + (o + 1)) by lia. rewrite IH by lia. f_equal. rewrite ldb_write_list.
  rewrite (proj2 (Z.leb_le a (a + o))) by lia. replace (a + o - a) with o by lia.
  destruct (lookup_lt_is_Some_2 l (Z.to_nat o)) as [x Hx]; [lia|]. rewrite Hx. unfold ldb. by rewrite (nth_lookup_Some _ _ _ _ Hx).
Qed.

Lemma sees_write w m h l :
  in_blocks (blocks w) h (Z.of_nat (length l)) = true -> mm w = write_list m h l -> sees (hld w) h l.
Proof.
  intros Hb Hm k o Ho Hk. rewrite (hld_in w h (Z.of_nat (length l))) by (done || lia). f_equal. rewrite Hm. by apply ldn_list.
Qed.

(** A read into a block ends. *)
Lemma readFileData_ends w b off size v :
  in_blocks (blocks w) b size = true -> 0 <= size ->
  exists ok w', readFileData w b off size v = Ok (ok, w') /\ blocks w' = blocks w /\
    (ok = true -> exists l0, vread v off size = Transfer false l0 /\
       Z.of_nat (length (take (Z.to_nat size) l0)) = size /\ mm w' = write_list (mm w) b (take (Z.to_nat size) l0)).
Proof.
  intros Hb Hs. unfold readFileData, performFileIO. destruct (vread v off size) as [| |e l0]; [by do 2 eexists..|].
  unfold store_list. cbn [blocks with_files].
  rewrite (in_blocks_part _ b size); [|done|lia|rewrite length_take; lia]. cbn [rbind]. do 2 eexists. split; [done|]. split; [done|].
  destruct e; [done|]. intros E%Z.eqb_eq. by exists l0.
Qed.
Lemma readFileData_header w h off v :
  in_blocks (blocks w) h HeaderSize = true ->
  exists ok w', readFileData w h off HeaderSize v = Ok (ok, w') /\ blocks w' = blocks w /\
    (ok = true -> exists l, reads v off l /\ sees (hld w') h l).
Proof.
  intros Hb. destruct (readFileData_ends w h off HeaderSize v Hb) as (ok & w' & E & Eb & Hok); [by unfold HeaderSize, MACH_PAGE|].
  exists ok, w'. split; [done|]. split; [done|]. intros Ho. destruct (Hok Ho) as (l0 & E0 & El & Em).
  exists (take (Z.to_nat HeaderSize) l0). split; [by exists l0|]. eapply sees_write; [by rewrite El, Eb|exact Em].
Qed.

Section seen.
Context (ld : nat -> Z -> res Z) (h : Z) (l : list Z) (Hld : sees ld h l) (Hl : Z.of_nat (length l) = HeaderSize).

(** A walk over the commands of such a header ends, if its body can deal with 56
    bytes of a command. *)
Lemma each_command_uncut {A B} (R : B -> Prop) n o body (x : A) :
  aligned h = true -> 0 <= o ->
  (forall b, command_in l n o b -> b + 56 <= HeaderSize \/ HeaderSize < b + 8) ->
  (forall b cmd x, 0 <= b -> b + 56 <= HeaderSize ->
     exists v, body (h + b) cmd x = Ok v /\ match v with Stop y => R y | Next _ => True end) ->
  exists e, each_command (B := B) ld n (h + HeaderSize) (h + o) body x = Ok e /\ match e with Stopped y => R y | _ => True end.
Proof using Hld Hl.
  intros Ha Ho Hc Hbody. revert o x Ho Hc. induction n as [|n IH]; intros o x Ho Hc; cbn [each_command]; [by eexists|].
  destruct (negb (aligned (h + o))); [by eexists|]. unfold sizeof_load_command.
  destruct (Z.ltb_spec (h + HeaderSize) (h + o + 8)); [by eexists|].
  replace (h + o + 4) with (h + (o + 4)) by lia. rewrite !Hld by lia. cbn [rbind].
  destruct (Z.ltb_spec (h + HeaderSize) (h + o + le_at 4 l (o + 4))); [by eexists|].
  destruct (Hc o (command_here _ _ _)) as [Hc'|]; [|lia].
  destruct (Hbody o (le_at 4 l o) x) as (v & -> & Hv); [lia..|]. cbn [rbind]. destruct v as [x'|y]; [|by eexists].
  pose proof (ldn_range 4 (fun x => nth (Z.to_nat x) l 0) (o + 4)) as Hr. fold (le_at 4 l (o + 4)) in Hr.
  replace (h + o + le_at 4 l (o + 4)) with (h + (o + le_at 4 l (o + 4))) by lia. apply IH; [lia|].
  intros b Hb. apply Hc. by constructor.
Qed.

Lemma strneq_seen n o s : 0 <= o -> o + Z.of_nat n <= HeaderSize -> exists b, strneq ld n (h + o) s = Ok b.
Proof using Hld Hl.
  revert o s. induction n as [|n IH]; intros o s Ho Hn; cbn [strneq]; [by eexists|].
  rewrite Hld by lia. cbn [rbind]. destruct s as [|x s]; [by eexists|].
  replace (h + o + 1) with (h + (o + 1)) by lia. case_match; [apply IH; lia|by eexists].
Qed.

Lemma note_command_seen o cmd i : 0 <= o -> o + 56 <= HeaderSize -> exists i', note_command ld (h + o) cmd i = Ok i'.
Proof using Hld Hl.
  intros Ho Hn. unfold note_command, segment_named. rewrite <- !Z.add_assoc.
  destruct (cmd =? LC_SEGMENT_64); [|destruct (cmd =? LC_SYMTAB); [|by eexists] ].
  - destruct (strneq_seen 16 (o + 8) str_TEXT) as [b ->]; [lia..|]. cbn [rbind]. destruct b; [rewrite Hld by lia; by eexists|].
    destruct (strneq_seen 16 (o + 8) str_LINKEDIT) as [b ->]; [lia..|]. cbn [rbind]. destruct b; [|by eexists].
    rewrite !Hld by lia. by eexists.
  - rewrite !Hld by lia. by eexists.
Qed.

Lemma processMachHeader_seen i : aligned h = true -> uncut l -> exists i', processMachHeader ld i h = Ok i'.
Proof using Hld Hl.
  intros Ha Hu. unfold processMachHeader. rewrite Hld by (rewrite ?Hl; unfold HeaderSize, MACH_PAGE; lia). cbn [rbind].
  match goal with |- context [each_command _ _ _ _ ?f i] =>
    destruct (each_command_uncut (fun _ => True) (Z.to_nat (le_at 4 l 16)) sizeof_mach_header_64 f i Ha) as (e & -> & _) end;
    [unfold sizeof_mach_header_64; lia|done| |].
  - intros b cmd x Hb Hc. destruct (note_command_seen b cmd x Hb Hc) as [i' ->]. by eexists.
  - cbn [rbind]. destruct e as [ [] |i'|i']; by exists i'.
Qed.

Lemma loadUUID_seen leopard i : aligned h = true -> uncut l -> exists r, loadUUID ld leopard i h = Ok r.
Proof using Hld Hl.
  intros Ha Hu. unfold loadUUID, getUUID. destruct (negb leopard); [by eexists|].
  destruct (h =? 0); [by eexists|]. rewrite Hld by (rewrite ?Hl; unfold HeaderSize, MACH_PAGE; lia). cbn [rbind].
  match goal with |- context [each_command _ _ _ _ ?f tt] =>
    destruct (each_command_uncut (fun p => exists b, p = h + b + 8 /\ 0 <= b /\ b + 56 <= HeaderSize)
      (Z.to_nat (le_at 4 l 16)) sizeof_mach_header_64 f tt Ha) as (e & -> & He) end;
    [unfold sizeof_mach_header_64; lia|done| |].
  - intros b cmd x Hb Hc. eexists. split; [done|]. destruct (cmd =? LC_UUID); [|done]. by exists b.
  - cbn [rbind]. destruct e as [p|?|?]; cbn [rbind]; [|by eexists..]. destruct He as (b & -> & Hb & Hc).
    destruct (truth _); [|by eexists]. rewrite <- !Z.add_assoc, !Hld by lia. by eexists.
Qed.

(** The entry that is found is one for the processor. *)
Lemma find_arch_seen swap n k :
  0 <= k -> 8 + 20 * (k + Z.of_nat n) <= HeaderSize ->
  exists r, find_arch ld n swap (h + (8 + 20 * k)) CPU_TYPE_X86_64 = Ok r /\
    forall off sz, r = Some (off, sz) -> exists j, k <= j < k + Z.of_nat n /\
      swapped swap (le_at 4 l (8 + 20 * j)) = CPU_TYPE_X86_64 /\ swapped swap (le_at 4 l (8 + 20 * j + 8)) = off.
Proof using Hld Hl.
  revert k. induction n as [|n IH]; intros k Hk Hn; cbn [find_arch]; [by eexists|].
  rewrite Hld by lia. cbn [rbind]. destruct (Z.eqb_spec (swapped swap (le_at 4 l (8 + 20 * k))) CPU_TYPE_X86_64) as [E|E].
  - rewrite <- !(Z.add_assoc h), !Hld by lia. eexists. split; [done|]. intros off sz [= <- <-]. exists k. split; [lia|done].
  - unfold sizeof_fat_arch. replace (h + (8 + 20 * k) + 20) with (h + (8 + 20 * (k + 1))) by lia.
    destruct (IH (k + 1)) as (r & -> & Hr); [lia..|]. eexists. split; [done|]. intros off sz Hs.
    destruct (Hr off sz Hs) as (j & Hj & Hj'). exists j. split; [lia|done].
Qed.
End seen.

(** ** Everything is given back *)

Section held.
Context (malloc : machine -> Z -> option Z) (vnode_lookup : list Z -> option vnode)
  (inflateInit : Z) (inflate : mem -> Z -> Z -> Z -> Z -> Z * Z * mem) (junk : arr)
  (leopard snowleopard bigsur : bool) (IOLog : Z) (fuel : nat) (allow_decompress : bool).
(** The allocator gives no null. *)
Context (malloc_nonzero : forall w n a, malloc w n = Some a -> a <> 0).

Lemma create_malloc n o a : create n o = Some a -> o = Some a.
Proof. unfold create. by case_match. Qed.

Lemma buffer_create_inv w n a w' : buffer_create malloc w n = Some (a, w') -> a <> 0 /\ addrs w' = a :: addrs w /\ same_files w w'.
Proof using malloc_nonzero.
  unfold buffer_create. case_match eqn:E; [|done]. intros [= <- <-]. apply create_malloc in E. split; [by eapply malloc_nonzero|done].
Qed.

Lemma decompress_address m c n s k o d a : decompress inflateInit inflate junk m c n s k None o = Ok d -> result d = Some a -> o = Some a.
Proof.
  unfold decompress, decompressInternal, pick_buffer. case_match eqn:E; [|by intros [= <-]].
  intros H. step H. destruct a0. case_match; injection H as <-; cbn; [|done]. intros [= <-]. by apply create_malloc in E.
Qed.

(** The header of one file: the buffer of what was decompressed before is given
    back when there is a new one. *)
Lemma look_at_header_held f w i b v off ok w' i' l :
  look_at_header malloc inflateInit inflate junk f allow_decompress w i b v off = Ok (ok, w', i') ->
  addrs w ≡ₚ file_addr i ++ l ->
  addrs w' ≡ₚ file_addr i' ++ l /\ same_files w w' /\ i' sym_buf = i sym_buf /\ i' sym_buf_ro = i sym_buf_ro.
Proof using malloc_nonzero.
  revert w i off. induction f as [|f IH]; intros w i off; cbn [look_at_header]; [done|]. intros H Hl.
  destruct (negb (aligned b)); [by injection H as _ <- <-|]. step H.
  destruct (_ =? MH_MAGIC_64); [by injection H as _ <- <-|].
  destruct (_ || _).
  { destruct (negb (off =? 0)); [by injection H as _ <- <-|]. step H. destruct (too_many _); [by injection H as _ <- <-|]. step H.
    destruct a1 as [[offset sz]|]; [|by injection H as _ <- <-]. step H. destruct a1 as [ok1 w1]. apply readFileData_keeps in E2 as [P1 [F1 F2]].
    destruct ok1; [|injection H as _ <- <-; split; [by rewrite P1|done]].
    apply IH in H as (Q1 & [Q2 Q3] & Q4); [|by rewrite P1]. split; [done|]. split; [split; congruence|done]. }
  destruct (_ =? CompressionMagic); [|by injection H as _ <- <-].
  destruct (negb allow_decompress); [by injection H as _ <- <-|]. step H. step H. step H.
  destruct (buffer_create _ _ _) as [[c w1]|] eqn:Ec; [|by injection H as _ <- <-]. apply buffer_create_inv in Ec as (Nc & Pc & Fc).
  step H. destruct a3 as [ok1 w2]. apply readFileData_keeps in E3 as [P2 F2].
  assert (addrs w2 ≡ₚ given c ++ given (i file_buf) ++ l) as P2' by (unfold given at 1; rewrite (proj2 (Z.eqb_neq c 0)) by done; rewrite P2, Pc; by constructor).
  destruct (ok1 && _).
  2: { step H. injection H as _ <- <-. eapply buffer_deleter_inv in E3 as [P3 F3]; [|done]. split; [done|]. split; [|done].
       by etrans; [|etrans]. }
  step H. rewrite Permutation_app_swap_app in P2'. eapply buffer_deleter_inv in E3 as [P3 F3]; [|done].
  step H. destruct (result a4) as [x|] eqn:Er.
  - apply (decompress_address _ _ _ _ _ _ _ x) in E3; [|done]. apply malloc_nonzero in E3. step H. apply copy_bytes_keeps in E4 as [P4 F4].
    step H. eapply buffer_deleter_inv in E4 as [P5 F5]; cycle 1.
    { rewrite P4. unfold addrs. cbn. fold (addrs a3). rewrite P3. apply Permutation_middle. }
    apply IH in H as (Q1 & Q2 & Q3 & Q4).
    + split; [done|]. split; [|done]. etrans; [apply Fc|]. etrans; [apply F2|]. etrans; [apply F3|]. etrans; [apply F4|]. by etrans.
    + rewrite P5. unfold file_addr, given. rewrite mput_ne, mput_eq, (proj2 (Z.eqb_neq x 0)) by done. done.
  - step H. injection H as _ <- <-. eapply buffer_deleter_inv in E4 as [P4 F4]; [|exact P3]. split; [done|]. split; [|done].
    etrans; [apply Fc|]. etrans; [apply F2|]. by etrans.
Qed.

Lemma readMachHeader_held w i b v off ok w' i' l :
  readMachHeader malloc inflateInit inflate junk fuel allow_decompress w i b v off = Ok (ok, w', i') ->
  addrs w ≡ₚ file_addr i ++ l ->
  addrs w' ≡ₚ file_addr i' ++ l /\ same_files w w' /\ i' sym_buf = i sym_buf /\ i' sym_buf_ro = i sym_buf_ro.
Proof using malloc_nonzero.
  unfold readMachHeader. intros H Hl. step H. destruct a as [ok1 w1]. apply readFileData_keeps in E as [P F].
  destruct ok1; [|injection H as _ <- <-; split; [by rewrite P|done]].
  eapply look_at_header_held in H as (Q1 & Q2 & Q3 & Q4); [|by rewrite P]. split_and!; try done; by etrans.
Qed.

Lemma readSymbols_held w i v ok w' i' :
  readSymbols malloc w i v = Ok (ok, w', i') ->
  addrs w' ≡ₚ given (i' sym_buf) ++ addrs w /\ same_files w w' /\ i' file_buf = i file_buf /\ i' sym_buf_ro = i sym_buf_ro /\
  (ok = true <-> i' sym_buf <> 0).
Proof using malloc_nonzero.
  unfold readSymbols. destruct (buffer_create _ _ _) as [[a w1]|] eqn:Ec.
  2: { intros [= <- <- <-]. repeat (split; [done|]). by rewrite mput_eq. }
  apply buffer_create_inv in Ec as (Na & Pa & Fa). intros H. step H. destruct a0 as [ok1 w2].
  assert (keeps w1 w2) as [P2 F2].
  { destruct (truth (i file_buf)); [|by eapply readFileData_keeps]. destruct (_ && _); [|by injection E as _ <-]. step E. injection E as _ <-. by eapply copy_bytes_keeps. }
  assert (addrs w2 ≡ₚ given a ++ addrs w) as P3 by (unfold given; rewrite (proj2 (Z.eqb_neq a 0)) by done; by rewrite P2, Pa).
  assert (same_files w w2) as F3 by by etrans.
  destruct ok1; [injection H as <- <- <-; by repeat (split; [done|])|]. step H. injection H as <- <- <-.
  eapply buffer_deleter_inv in E0 as [P4 F4]; [|done]. split; [done|]. split; [by etrans|]. by repeat (split; [done|]).
Qed.

(** The header of a file that loading copes with: no block comes or goes, and what is
    accepted is a thin header, in the buffer. *)
Definition in_buffer (v : vnode) (h : Z) (w : machine) : Prop :=
  aligned h = true /\ exists l, header_of v l /\ thin l /\ sees (hld w) h l.

(** What reading a header writes to an object: the offset and the identifier. *)
Definition noted (i i' : MachInfo) : Prop :=
  forall g, g <> fat_offset -> g <> self_uuid0 -> g <> self_uuid1 -> i' g = i g.
#[local] Instance noted_refl : Reflexive noted.
Proof. by intros i g. Qed.
#[local] Instance noted_trans : Transitive noted.
Proof. intros i1 i2 i3 H1 H2 g ???. by rewrite H2, H1. Qed.

Lemma header_length v l : header_of v l -> Z.of_nat (length l) = HeaderSize.
Proof. intros [l0 (? & _ & _ & H)|l0 j off l' _ _ _ (? & _ & _ & H)]; exact H. Qed.

Lemma look_at_header_ends f w i h v off l :
  tame allow_decompress v -> header_of v l -> (off = 0 -> reads v 0 l) -> sees (hld w) h l ->
  in_blocks (blocks w) h HeaderSize = true -> ((if (off =? 0)%Z then 2 else 1) <= f)%nat ->
  exists ok w' i', look_at_header malloc inflateInit inflate junk f allow_decompress w i h v off = Ok (ok, w', i') /\
    blocks w' = blocks w /\ noted i i' /\ (ok = true -> in_buffer v h w').
Proof using Type.
  intros Ht. revert w off l. induction f as [|f IH]; intros w off l Hh Hr Hs Hb Hf; [by destruct (off =? 0); lia|].
  pose proof (header_length v l Hh) as Hl. cbn [look_at_header]. destruct (aligned h) eqn:Ea; cbn [negb]; [|by do 3 eexists].
  pose proof (fun k o => Hs k o) as Hs'. assert (hld w 4 h = Ok (le_at 4 l 0)) as E0.
  { rewrite <- (Z.add_0_r h) at 1. apply Hs; [lia|rewrite Hl; unfold HeaderSize, MACH_PAGE; lia]. }
  rewrite E0. cbn [rbind].
  destruct (Ht l Hh) as (Hc & Hz & _). destruct (Z.eqb_spec (le_at 4 l 0) MH_MAGIC_64) as [Em|Em].
  { do 3 eexists. split; [done|]. split_and!; [done|by intros g ???; rewrite mput_ne|]. intros _. split; [done|]. by exists l. }
  destruct (_ || _) eqn:Ef.
  - destruct (Z.eqb_spec off 0) as [->|]; cbn [negb]; [|by do 3 eexists].
    assert (fat l) as Hfat.
    { apply orb_true_iff in Ef as [Ef%Z.eqb_eq|Ef%Z.eqb_eq]; [by left|by right]. }
    rewrite Hs by (rewrite ?Hl; unfold HeaderSize, MACH_PAGE; lia). cbn [rbind]. fold (reversed l).
    destruct (too_many _) eqn:Etm; [by do 3 eexists|]. apply too_many_ok in Etm.
    assert (0 <= swapped (reversed l) (le_at 4 l 4)) as Hn.
    { destruct (reversed l); [apply OSSwapInt32_range|apply (ldn_range 4)]. }
    unfold sizeof_fat_header. replace (h + 8) with (h + (8 + 20 * 0)) by lia.
    match goal with |- context [find_arch _ ?n _ _ _] =>
      destruct (find_arch_seen _ h l Hs Hl (reversed l) n 0) as (r & -> & Hfind) end; [lia..|]. cbn [rbind].
    destruct r as [ [offset sz] |]; [|by do 3 eexists].
    destruct (Hfind offset sz eq_refl) as (j & Hj & Hcpu & Hoff).
    assert (entry l j offset) as He by (split; [lia|done]).
    assert (offset <> 0) as Hno by (intros ->; by apply (Hz Hfat j)).
    destruct (readFileData_header w h offset v Hb) as (ok & w1 & -> & Eb & Hok). cbn [rbind].
    destruct ok; [|by do 3 eexists]. destruct (Hok eq_refl) as (l' & Hr' & Hs1). rewrite <- Eb in Hb |- *.
    apply (IH w1 offset l'); [by eapply header_slice; [apply Hr|..]|done|done|done|].
    rewrite (proj2 (Z.eqb_neq offset 0)) by done. simpl in Hf. lia.
  - destruct (Z.eqb_spec (le_at 4 l 0) CompressionMagic) as [Eq|]; [|by do 3 eexists].
    destruct allow_decompress; [by destruct (Hc eq_refl)|by do 3 eexists].
Qed.

(** Whether the file has to be compared with the kernel in memory. *)
Definition compares (isKernel : bool) (i : MachInfo) : Prop :=
  isKernel = true /\ leopard = true /\ i kernel_collection = 0.

Lemma loadUUID_noted ld i h ok i' : loadUUID ld leopard i h = Ok (ok, i') -> noted i i'.
Proof using Type.
  unfold loadUUID. case_match; [by intros [= <- <-]|]. intros Hr. step Hr. case_match; [|by injection Hr as _ <-].
  do 2 step Hr. injection Hr as _ <-. intros g ???. by rewrite !mput_ne.
Qed.

Lemma find_file_ends isKernel w i h paths :
  (2 <= fuel)%nat -> ~ compares isKernel i -> in_blocks (blocks w) h HeaderSize = true ->
  (forall path v, path ∈ paths -> vnode_lookup path = Some v -> tame allow_decompress v) ->
  exists found w' i',
    find_file malloc vnode_lookup inflateInit inflate junk leopard snowleopard bigsur IOLog fuel allow_decompress isKernel w i h paths
      = Ok (found, w', i') /\
    blocks w' = blocks w /\ noted i i' /\
    forall v, found = Some v -> tame allow_decompress v /\ in_buffer v h w'.
Proof using malloc_nonzero.
  intros Hfuel. revert w i. induction paths as [|path paths IH]; intros w i Hk Hb Ht; cbn [find_file]; [by do 3 eexists|].
  destruct (vnode_lookup path) as [v|] eqn:Ev; [|apply IH; set_solver].
  assert (tame allow_decompress v) as Hv by (eapply Ht; [left|done]).
  assert (exists ok w1 i1, readMachHeader malloc inflateInit inflate junk fuel allow_decompress (vnode_get w) i h v 0 = Ok (ok, w1, i1) /\
    blocks w1 = blocks w /\ noted i i1 /\ (ok = true -> in_buffer v h w1))
    as (ok1 & w1 & i1 & -> & Eb & Hn & Hok).
  { unfold readMachHeader. destruct (readFileData_header (vnode_get w) h 0 v Hb) as (ok & w1 & -> & Eb & Hr). cbn [rbind].
    destruct ok; [|by do 3 eexists]. destruct (Hr eq_refl) as (l & Hl & Hs). change (blocks w1 = blocks w) in Eb. rewrite <- Eb in Hb.
    destruct (look_at_header_ends fuel w1 i h v 0 l) as (ok & w2 & i2 & -> & Eb2 & Hrest); [done|by constructor|done|done|done|done|].
    do 3 eexists. split; [done|]. split; [|done]. by rewrite Eb2, Eb. }
  cbn [rbind].
  assert (exists ok2 i2, (if ok1 then loadUUID (hld w1) leopard i1 h else Ok (false, i1)) = Ok (ok2, i2) /\
    noted i1 i2 /\ (ok2 = true -> ok1 = true)) as (ok2 & i2 & -> & Hn2 & Hok2).
  { destruct ok1; [|by do 2 eexists]. destruct (Hok eq_refl) as (Ha & l & Hh & Hthin & Hs). destruct (Hv l Hh) as (_ & _ & Hu).
    destruct (loadUUID_seen _ h l Hs (header_length v l Hh) leopard i1 Ha (Hu Hthin)) as ([ok2 i2] & E).
    exists ok2, i2. split; [done|]. by apply loadUUID_noted in E. }
  cbn [rbind]. assert (noted i i2) as Hn3 by by etrans.
  assert (i2 kernel_collection = i kernel_collection) as Ek by by apply Hn3.
  match goal with |- context [if ok2 then ?X else _] => assert (X = Ok (true, i2)) as EX end.
  { destruct isKernel; cbn [negb]; [|done]. unfold isCurrentBinary. rewrite Ek. unfold compares in Hk.
    destruct (truth (i kernel_collection)) eqn:E; [done|]. destruct leopard; [|done]. destruct Hk. split_and!; try done.
    unfold truth in E. apply negb_false_iff, Z.eqb_eq in E. done. }
  rewrite EX. clear EX. destruct ok2; cbn [rbind].
  - do 3 eexists. split; [done|]. split_and!; [done..|]. intros ? [= <-]. split; [done|by apply Hok, Hok2].
  - rewrite <- Eb. destruct (IH (vnode_put w1) i2) as (found & w' & i' & E & Eb' & Hn' & Hrest);
      [unfold compares in *; by rewrite Ek|by rewrite <- Eb in Hb|set_solver|].
    do 3 eexists. split; [done|]. split_and!; [done|by etrans|done].
Qed.

(** The file that is found is held, the others are not. *)
Lemma find_file_held isKernel w i h paths found w' i' l :
  find_file malloc vnode_lookup inflateInit inflate junk leopard snowleopard bigsur IOLog fuel allow_decompress isKernel w i h paths
    = Ok (found, w', i') ->
  addrs w ≡ₚ file_addr i ++ l ->
  addrs w' ≡ₚ file_addr i' ++ l /\ vnodes w' = vnodes w + (if found then 1 else 0) /\ contexts w' = contexts w /\
  i' sym_buf = i sym_buf /\ i' sym_buf_ro = i sym_buf_ro.
Proof using malloc_nonzero.
  revert w i. induction paths as [|path paths IH]; intros w i; cbn [find_file].
  { intros [= <- <- <-] Hl. split_and!; [done|lia|done..]. }
  destruct (vnode_lookup path) as [v|]; [|apply IH]. intros H Hl. step H. destruct a as [[ok1 w1] i1].
  apply (readMachHeader_held _ _ _ _ _ _ _ _ l) in E as (P1 & [V1 C1] & S1 & R1); [|done]. step H. destruct a as [ok2 i2].
  assert (same_bufs i1 i2) as (B1 & B2 & B3) by (destruct ok1; [by eapply loadUUID_bufs|by injection E as _ <-]).
  step H. destruct a as [ok3 i3].
  assert (same_bufs i2 i3) as (B4 & B5 & B6).
  { destruct ok2; [|by injection E0 as _ <-]. destruct isKernel; cbn [negb] in E0; [by eapply isCurrentBinary_bufs|by injection E0 as _ <-]. }
  assert (file_addr i3 = file_addr i1) as Ef by (unfold file_addr; congruence).
  destruct ok3.
  - injection H as <- <- <-. rewrite Ef. split_and!; [done|done|done|congruence..].
  - apply IH in H as (Q1 & Q2 & Q3 & Q4 & Q5); [|by rewrite Ef]. cbn in *. split_and!; [done|lia|congruence..].
Qed.

(** The buffers of an object are the only blocks that loading adds. *)
Lemma initFromFileSystem_held isKernel kcsuffix w i paths ok w' i' :
  i file_buf = 0 -> i sym_buf = 0 -> i sym_buf_ro = 0 ->
  initFromFileSystem malloc vnode_lookup inflateInit inflate junk leopard snowleopard bigsur IOLog fuel allow_decompress
    isKernel kcsuffix w i paths = Ok (ok, w', i') ->
  addrs w' ≡ₚ file_addr i' ++ sym_addr i' ++ addrs w /\ same_files w w' /\ (ok = true <-> i' sym_buf <> 0).
Proof using malloc_nonzero.
  intros Hf Hs Hr. unfold initFromFileSystem. destruct (buffer_create _ _ _) as [[h w1]|] eqn:Ec.
  2: { intros [= <- <- <-]. unfold file_addr, sym_addr. rewrite Hf, Hr, Hs. done. }
  apply buffer_create_inv in Ec as (Nh & Ph & [V1 C1]). intros H. step H. destruct a as [[found w2] i2].
  apply (find_file_held _ _ _ _ _ _ _ _ (given h ++ addrs w)) in E as (P2 & V2 & C2 & S2 & R2); cycle 1.
  { unfold file_addr, given. rewrite Hf, (proj2 (Z.eqb_neq h 0)) by done. unfold addrs in *. cbn. by rewrite Ph. }
  assert (sym_addr i2 = []) as Hsym by (unfold sym_addr; by rewrite R2, S2, Hr, Hs).
  rewrite Permutation_app_swap_app in P2. cbn in V2, C2. destruct found as [v|].
  - step H. apply processMachHeader_bufs in E as (B1 & B2 & B3). step H. destruct a0 as [[ok3 w3] i3].
    assert (addrs w3 ≡ₚ given (i3 sym_buf) ++ addrs w2 /\ same_files w2 w3 /\ i3 file_buf = a file_buf /\ i3 sym_buf_ro = a sym_buf_ro /\
      (ok3 = true <-> i3 sym_buf <> 0)) as (P3 & [V3 C3] & B4 & B5 & B6).
    { destruct (_ && _); [by eapply readSymbols_held|]. injection E as <- <- <-. by rewrite B2, S2, Hs. }
    step H. injection H as <- <- <-. apply (buffer_deleter_inv _ _ _ (given (i3 sym_buf) ++ file_addr i2 ++ addrs w)) in E0 as [P4 [V4 C4]].
    + rewrite P4. unfold sym_addr. rewrite B5, B3, R2, Hr. cbn [truth Z.eqb negb].
      split; [|split; [split; cbn in *; lia|done] ]. unfold file_addr. rewrite B4, B1. apply Permutation_app_swap_app.
    + change (addrs w3 ≡ₚ given h ++ given (i3 sym_buf) ++ file_addr i2 ++ addrs w). rewrite P3, P2. apply Permutation_app_swap_app.
  - step H. injection H as <- <- <-. apply (buffer_deleter_inv _ _ _ (file_addr i2 ++ addrs w)) in E as [P4 [V4 C4]]; [|done].
    rewrite Hsym. split; [done|]. split; [split; cbn in *; lia|]. by rewrite S2, Hs.
Qed.

(** The symbols of a file that is not in memory. *)
Lemma readSymbols_ends w i v : i file_buf = 0 -> 0 <= i sym_size -> exists r, readSymbols malloc w i v = Ok r.
Proof using malloc_nonzero.
  intros Hf Hs. unfold readSymbols, buffer_create. destruct (create _ _) as [a|]; [|by eexists]. rewrite Hf. cbn [truth Z.eqb negb].
  destruct (readFileData_ends (with_blocks w ((a, i sym_size) :: blocks w)) a (i fat_offset + i sym_fileoff) (i sym_size) v)
    as (ok & w' & -> & Eb & _); [|done|].
  { cbn. by rewrite !Z.leb_refl. }
  cbn [rbind]. destruct ok; [by eexists|].
  destruct (buffer_deleter_ok w' a (if a =? 0 then a :: addrs w else addrs w)) as (w2 & -> & _); [|by eexists].
  unfold addrs. rewrite Eb. unfold given. by destruct (a =? 0).
Qed.

Lemma processMachHeader_size w i h i' :
  processMachHeader (hld w) i h = Ok i' -> 0 <= i sym_size -> 0 <= i' sym_size.
Proof.
  intros H Hs. unfold processMachHeader in H. step H. step H.
  eapply (each_command_inv (fun i => 0 <= i sym_size)) in E0; [|intros b cmd x v Hv Hx|done].
  - destruct a0 as [ [] |x|x]; by injection H as <-.
  - step Hv. injection Hv as <-. unfold note_command in E1. case_match; [|case_match; [do 4 step E1; by injection E1 as <-|by injection E1 as <-] ].
    step E1. destruct a2; [step E1; by injection E1 as <-|]. step E1. destruct a2; [|by injection E1 as <-].
    step E1. step E1. injection E1 as <-. rewrite mput_eq. unfold hld in E5. case_match; [|done]. injection E5 as <-. apply (ldn_range 8).
Qed.

(** Loading ends when it copes with every file that it tries. *)
Lemma initFromFileSystem_ends isKernel kcsuffix w i paths :
  i file_buf = 0 -> 0 <= i sym_size -> (2 <= fuel)%nat -> ~ compares isKernel i ->
  (forall path v, path ∈ paths ≫= candidates kcsuffix -> vnode_lookup path = Some v -> tame allow_decompress v) ->
  exists r, initFromFileSystem malloc vnode_lookup inflateInit inflate junk leopard snowleopard bigsur IOLog fuel allow_decompress
    isKernel kcsuffix w i paths = Ok r.
Proof using malloc_nonzero.
  intros Hf Hs Hfuel Hk Ht. unfold initFromFileSystem. destruct (buffer_create _ _ _) as [ [h w1] |] eqn:Ec; [|by eexists].
  pose proof Ec as (Nh & Ph & _)%buffer_create_inv.
  assert (in_blocks (blocks w1) h HeaderSize = true) as Hb.
  { unfold buffer_create in Ec. case_match; [|done]. injection Ec as -> <-. cbn. by rewrite !Z.leb_refl. }
  destruct (find_file_ends isKernel (vfs_context_create w1) i h (paths ≫= candidates kcsuffix) Hfuel Hk Hb Ht)
    as (found & w2 & i2 & -> & Eb & Hn & Hv). cbn [rbind]. change (blocks w2 = blocks w1) in Eb.
  assert (forall w3 l, addrs w3 ≡ₚ given h ++ l -> exists w4, buffer_deleter w3 h = Ok w4) as Hdel.
  { intros w3 l Hl. destruct (buffer_deleter_ok w3 h l Hl) as (w4 & E & _). by exists w4. }
  assert (given h = [h]) as Hg by (unfold given; by rewrite (proj2 (Z.eqb_neq h 0))).
  assert (addrs w2 ≡ₚ given h ++ addrs w) as P2 by (rewrite Hg; unfold addrs in *; by rewrite Eb, Ph).
  destruct found as [v|].
  - destruct (Hv v eq_refl) as (Htv & Ha & l & Hh & Hthin & Hsee). destruct (Htv l Hh) as (_ & _ & Hu).
    destruct (processMachHeader_seen _ h l Hsee (header_length v l Hh) i2 Ha (Hu Hthin)) as (i3 & E3). rewrite E3. cbn [rbind].
    pose proof (processMachHeader_bufs _ _ _ _ E3) as (B1 & _). apply processMachHeader_size in E3; [|by rewrite Hn].
    assert (exists ok w3 i4, (if truth (i3 sym_fileoff) && truth (i3 symboltable_fileoff) then readSymbols malloc w2 i3 v else Ok (false, w2, i3))
              = Ok (ok, w3, i4) /\ exists l, addrs w3 ≡ₚ given h ++ l) as (ok & w3 & i4 & -> & l' & Hl').
    { destruct (_ && _); [|by do 3 eexists; split; [|eexists] ]. destruct (readSymbols_ends w2 i3 v) as ([ [ok w3] i4] & E); [by rewrite B1, Hn|done|].
      rewrite E. do 3 eexists. split; [done|]. apply readSymbols_held in E as (P & _). eexists. rewrite P, P2. apply Permutation_app_swap_app. }
    cbn [rbind]. destruct (Hdel (vfs_context_rele (vnode_put w3)) l' Hl') as [w4 ->]. by eexists.
  - destruct (Hdel (vfs_context_rele w2) (addrs w) P2) as [w4 ->]. by eexists.
Qed.

(** What is left in an object can be given back. *)
Lemma deinit_ok w i d l :
  addrs w ≡ₚ file_addr i ++ sym_addr i ++ l ->
  exists w' o', deinit w (mk_obj i d) = Ok (w', o') /\ addrs w' ≡ₚ l /\ same_files w w' /\
    info o' file_buf = 0 /\ info o' sym_buf = 0 /\ prelink_dict o' = None.
Proof.
  intros Hl. unfold deinit, freeFileBufferResources. cbn [info].
  assert (forall a, (if truth a then buffer_deleter w a else Ok w) = buffer_deleter w a) as Hg
    by (intros a; unfold truth, buffer_deleter; by destruct (a =? 0)).
  rewrite Hg. destruct (buffer_deleter_ok w (i file_buf) (sym_addr i ++ l)) as (w1 & -> & P1 & F1); [done|]. cbn [rbind info].
  rewrite !mput_ne by done. unfold sym_addr in P1. destruct (truth (i sym_buf)) eqn:Es.
  - destruct (truth (i sym_buf_ro)); cbn [rbind].
    + eexists _, _. split; [done|]. cbn. by rewrite mput_ne, !mput_eq by done.
    + destruct (buffer_deleter_ok w1 (i sym_buf) l) as (w2 & -> & P2 & F2); [done|]. cbn [rbind].
      eexists _, _. split; [done|]. cbn. rewrite mput_ne, !mput_eq by done. split; [done|]. split; [by etrans|done].
  - unfold truth in Es. apply negb_false_iff, Z.eqb_eq in Es. eexists _, _. split; [done|]. cbn. rewrite mput_eq, mput_ne by done.
    split_and!; try done. rewrite P1. unfold given. rewrite Es. by destruct (truth _).
Qed.

(** C17: loading an image from the file system into an object without buffers.
    It ends, without a read or write outside of the blocks, when the object is not
    the kernel to be compared with the one in memory and every file that is tried
    is one it copes with: not compressed (or decompression off), no fat entry for
    the processor at offset zero, no load command cut off at the end of the two
    pages that are read.  Whatever the files are, when it ends it has given back
    what it took: every file node and context that it held is released, the buffer
    of the header is freed, and the blocks that stay are the buffers of the object,
    one for symbols exactly when it succeeds; [deinit] then frees these, none
    twice. *)
Theorem load_release_balanced (isKernel : bool) (kcsuffix : option (list Z)) (w : machine) (i : MachInfo) (paths : list (list Z))
    (d : option dictionary) :
  i file_buf = 0 -> i sym_buf = 0 -> i sym_buf_ro = 0 -> 0 <= i sym_size -> (2 <= fuel)%nat ->
  let load := initFromFileSystem malloc vnode_lookup inflateInit inflate junk leopard snowleopard bigsur IOLog fuel allow_decompress
    isKernel kcsuffix w i paths in
  (~ compares isKernel i ->
   (forall path v, path ∈ paths ≫= candidates kcsuffix -> vnode_lookup path = Some v -> tame allow_decompress v) ->
   exists ok w' i', load = Ok (ok, w', i')) /\
  (forall ok w' i', load = Ok (ok, w', i') ->
   (vnodes w' = vnodes w /\ contexts w' = contexts w) /\ (ok = true <-> i' sym_buf <> 0) /\
   addrs w' ≡ₚ file_addr i' ++ sym_addr i' ++ addrs w /\
   exists w2 o2, deinit w' (mk_obj i' d) = Ok (w2, o2) /\ addrs w2 ≡ₚ addrs w).
Proof using malloc_nonzero.
  intros Hf Hs Hr Hz Hfuel load. split.
  - intros Hk Ht. destruct (initFromFileSystem_ends isKernel kcsuffix w i paths Hf Hz Hfuel Hk Ht) as ([ [ok w'] i'] & E). by exists ok, w', i'.
  - intros ok w' i' H. apply initFromFileSystem_held in H as (P & F & Hok); [|done..]. split; [done|]. split; [done|]. split; [done|].
    destruct (deinit_ok w' i' d (addrs w)) as (w2 & o2 & E & P2 & _); [done|]. by eexists _, _.
Qed.
End held.

(** A file of bytes, an allocator and a machine with nothing. *)
Definition file_of (l : list Z) : vnode :=
  mk_vnode (Z.of_nat (length l)) (fun off size => Transfer false (take (Z.to_nat size) (drop (Z.to_nat off) l))).
Definition bump (w : machine) (_ : Z) : option Z := Some (0x100000 * (1 + Z.of_nat (length (blocks w)))).
Lemma bump_nonzero w n a : bump w n = Some a -> a <> 0.
Proof. intros [= <-]. lia. Qed.
Definition idle : machine := mk_machine (fun _ => 0) [] 0 0 0 None 0.

(** Two pages with a header, [__LINKEDIT] behind them, and its 36 bytes. *)
Definition demo_file : list Z :=
  let h := le_bytes 4 MH_MAGIC_64 ++ replicate 12 0 ++ le_bytes 4 2 ++ replicate 12 0 ++ demo_segment str_LINKEDIT 65536 8192 36 ++
           le_bytes 4 LC_SYMTAB ++ le_bytes 4 24 ++ le_bytes 4 8192 ++ le_bytes 4 3 ++ le_bytes 4 8224 ++ le_bytes 4 4 in
  padded (Z.to_nat 8192) h ++ bytes demo_symbols 4096 36.
#[local] Notation demo_load :=
  (initFromFileSystem bump (fun p => if decide (p = [47]) then Some (file_of demo_file) else None) 0 (fun m _ _ _ _ => (0, 0, m)) (fun _ => 0)
    false true true 0 10 true false (Some [100]) idle (fun _ => 0) [[46]; [47]]).

Lemma demo_load_result :
  (let! '(ok, w', i') := demo_load in
   let! v := solveSymbol (hld w') (i'.[kaslr_slide_set := 1].[kaslr_slide := 16]) [98] in Ok (ok, v)) = Ok (true, 23).
Proof. vm_compute. reflexivity. Qed.

(** Its header is thin, and its two commands are at its start. *)
Lemma demo_file_tame allow : tame allow (file_of demo_file).
Proof.
  set (p := take (Z.to_nat HeaderSize) demo_file).
  assert (forall l, reads (file_of demo_file) 0 l -> l = p) as Hp.
  { intros l (l0 & E & -> & _). apply (f_equal (fun x => match x with Transfer _ l => l | _ => [] end)) in E.
    change (take (Z.to_nat HeaderSize) (drop 0 demo_file) = l0) in E. subst l0. unfold p. by rewrite drop_0, take_take, Nat.min_id. }
  assert (le_at 4 p 0 = MH_MAGIC_64) as E0 by (vm_compute; reflexivity).
  assert (~ fat p) as Hfat by (unfold fat; rewrite E0; by intros [|]).
  intros l Hl. assert (l = p) as ->.
  { destruct Hl as [l Hl|l j off l' Hl Hf _ _]; [by apply Hp|]. apply Hp in Hl as ->. done. }
  split; [|split; [done|] ].
  - intros _. unfold compressed. by rewrite E0.
  - intros _ b. assert (Z.to_nat (le_at 4 p 16) = 2%nat) as -> by (vm_compute; reflexivity).
    assert (le_at 4 p 36 = 72) as E1 by (vm_compute; reflexivity). unfold sizeof_mach_header_64. intros Hb. left.
    inversion Hb as [|? ? ? Hb1]; subst; [by vm_compute|]. change (32 + 4) with 36 in Hb1. rewrite E1 in Hb1.
    inversion Hb1 as [|? ? ? Hb2]; subst; [by vm_compute|]. inversion Hb2.
Qed.

Lemma load_release_balanced_witness :
  exists ok w' i', demo_load = Ok (ok, w', i') /\
    solveSymbol (hld w') (i'.[kaslr_slide_set := 1].[kaslr_slide := 16]) [98] = Ok 23 /\
    (vnodes w' = 0 /\ contexts w' = 0) /\ i' sym_buf <> 0 /\ addrs w' ≡ₚ file_addr i' ++ sym_addr i' ++ [] /\
    exists w2 o2, deinit w' (mk_obj i' None) = Ok (w2, o2) /\ addrs w2 ≡ₚ [].
Proof.
  destruct (load_release_balanced bump (fun p => if decide (p = [47]) then Some (file_of demo_file) else None) 0
    (fun m _ _ _ _ => (0, 0, m)) (fun _ => 0) false true true 0 10 true bump_nonzero false (Some [100]) idle (fun _ => 0) [[46]; [47]] None
    eq_refl eq_refl eq_refl ltac:(lia) ltac:(lia)) as [H1 H2].
  destruct H1 as (ok & w' & i' & E).
  - intros [H _]. discriminate H.
  - intros path v _. destruct (decide (path = [47])); [|discriminate]. intros [= <-]. apply demo_file_tame.
  - exists ok, w', i'. split; [exact E|].
    pose proof demo_load_result as R. apply rbind_inv in R as (x & Ex & R). rewrite E in Ex. injection Ex as <-.
    apply rbind_inv in R as (v & Es & R). injection R as -> ->.
    destruct (H2 _ _ _ E) as (F & Hok & Hrest). split; [exact Es|]. split; [exact F|]. split; [by apply Hok|exact Hrest].
Defined.

(** ** The prelinked kernel *)

Section prelinked.
Context (unserialize : list Z -> option osobj).

Lemma sext64_id z : 0 <= z < 2 ^ 63 -> sext 64 z = z.
Proof. intros H. unfold sext. rewrite wrap_small by lia. case_cmp; [done|lia]. Qed.

(** An image is in the buffer of the prelinked kernel. *)
Definition located_in (i : MachInfo) (l : located) : Prop :=
  image l = 0 \/
  (i file_buf <= image l /\ exists n, image_size l = Some n /\ 0 <= n /\ image l + n <= i file_buf + i file_buf_size).

Lemma locate_in i d : 2 ^ 63 <= i file_buf < 2 ^ 64 -> 0 <= i file_buf_size -> located_in i (locate i d).
Proof.
  intros Hf Hs. unfold locate. destruct (getNumber d key_source) as [sa|]; [|by left]. destruct (getNumber d key_load); [|by left].
  destruct (getNumber d key_size) as [n|]; [|by left]. set (a := u64 _). pose proof (wrap_range 64 ltac:(lia) (sa - i prelink_vmaddr + i prelink_addr)) as Ha.
  fold a in Ha. pose proof (u32_range n). destruct (_ && _) eqn:E; [|by left]. apply andb_true_iff in E as [E1%Z.ltb_lt E2%Z.leb_le].
  destruct (Z.leb_spec (i file_buf) a); [|lia]. rewrite sext64_id in E1, E2 by lia. right. split; [done|]. eexists. split; [done|]. cbn. lia.
Qed.

Lemma find_entry_in i l identifier : 2 ^ 63 <= i file_buf < 2 ^ 64 -> 0 <= i file_buf_size -> located_in i (find_entry i l identifier).
Proof.
  intros Hf Hs. induction l as [|x l IH]; cbn [find_entry]; [by left|]. destruct x; try done. repeat case_match; try done. by apply locate_in.
Qed.

Lemma updatePrelinkInfo_bufs isKernel w o o' :
  updatePrelinkInfo unserialize isKernel w o = Ok o' -> info o' file_buf = info o file_buf /\ info o' file_buf_size = info o file_buf_size.
Proof.
  unfold updatePrelinkInfo. destruct (prelink_dict o); [by intros [= <-]|]. destruct (_ && _); [|by intros [= <-]]. intros H. step H.
  destruct a; [|by injection H as <-]. step H. destruct (truth _); by injection H as <-.
Qed.

(** An image that is found in the prelinked kernel is inside of the buffer of the kernel,
    whatever its property list says: the address is not before it and the size that
    is reported does not reach behind it (the buffer being in the upper half of the
    address space, as the kernel's memory is). *)
Theorem findImage_in_buffer (isKernel : bool) (w : machine) (o : machobj) (identifier : list Z) (l : located) (w' : machine) (o' : machobj) :
  2 ^ 63 <= info o file_buf < 2 ^ 64 -> 0 <= info o file_buf_size ->
  findImage unserialize isKernel w o identifier = Ok (l, w', o') -> located_in (info o) l.
Proof.
  intros Hf Hs. unfold findImage. intros H. step H. apply updatePrelinkInfo_bufs in E as [E1 E2].
  destruct (prelink_dict a) as [d|]; [|injection H as <- _ _; by left].
  assert (forall l, located_in (info a) l -> located_in (info o) l) as Hl by (unfold located_in; by rewrite E1, E2).
  destruct (imageArr w) as [arr|] eqn:Ea.
  { injection H as <- _ _. apply Hl, find_entry_in; congruence. }
  destruct (getObject d key_images) as [[]|]; injection H as <- _ _; try (by left). apply Hl, find_entry_in; congruence.
Qed.
End prelinked.

Definition demo_prelink : machobj :=
  mk_obj ((fun _ => 0).[file_buf := 2 ^ 63].[file_buf_size := 65536].[prelink_addr := 2 ^ 63 + 4096].[prelink_vmaddr := 1000].[kaslr_slide := 7])
    (Some [(key_images, OSArr [OSOther; OSDict [(key_identifier, OSStr [98]); (key_source, OSNum 1200); (key_load, OSNum 0); (key_size, OSNum 8192)]])]).
Lemma findImage_in_buffer_witness :
  exists l w' o', findImage (fun _ => None) true idle demo_prelink [98] = Ok (l, w', o') /\
    image l = 2 ^ 63 + 4296 /\ located_in (info demo_prelink) l.
Proof.
  eexists _, _, _. split; [reflexivity|]. split; [reflexivity|].
  eapply (findImage_in_buffer (fun _ => None) true idle demo_prelink [98]); [vm_compute; split; [discriminate|reflexivity]|vm_compute; discriminate|reflexivity].
Defined.

(** ** What goes wrong *)

Section wrong.
Context (malloc : machine -> Z -> option Z) (unserialize : list Z -> option osobj)
  (inflateInit : Z) (inflate : mem -> Z -> Z -> Z -> Z -> Z * Z * mem) (junk : arr).

(** The state after a whole read. *)
Definition after_read (w : machine) (buffer : Z) (l : list Z) : machine :=
  with_mm (with_files w (vnodes w) (contexts w) (uios w + 1)) (write_list (mm w) buffer l).
Lemma readFileData_whole w buffer off size v l :
  vread v off size = Transfer false l -> Z.of_nat (length l) = size -> in_blocks (blocks w) buffer size = true ->
  readFileData w buffer off size v = Ok (true, after_read w buffer l).
Proof.
  intros Hv Hl Hb. unfold readFileData, performFileIO. rewrite Hv, take_ge by lia. unfold store_list. cbn [blocks with_files].
  rewrite Hl, Hb. cbn [rbind]. by rewrite Z.eqb_refl.
Qed.
(** The buffer of a compressed file that did not fit stays when the next file is not
    compressed: the header is read from the new file, but the symbols are copied
    from the old buffer, whatever the new file has. *)
Theorem stale_file_buffer (f : nat) (allow : bool) (w : machine) (i : MachInfo) (buffer : Z) (v : vnode) (l : list Z) :
  i file_buf <> 0 -> aligned buffer = true -> in_blocks (blocks w) buffer HeaderSize = true ->
  vread v 0 HeaderSize = Transfer false l -> Z.of_nat (length l) = HeaderSize ->
  ldn 4 (write_list (mm w) buffer l) buffer = MH_MAGIC_64 ->
  exists i1, readMachHeader malloc inflateInit inflate junk (S f) allow w i buffer v 0 = Ok (true, after_read w buffer l, i1) /\
    i1 file_buf = i file_buf /\
    forall w2 i2, i2 file_buf = i1 file_buf -> forall v', readSymbols malloc w2 i2 v' = readSymbols malloc w2 i2 v.
Proof.
  intros Hf Ha Hb Hv Hl Hm. unfold readMachHeader. rewrite (readFileData_whole _ _ _ _ _ l) by done. cbn [rbind look_at_header].
  rewrite Ha, (hld_in _ buffer HeaderSize); [|done|lia|unfold HeaderSize, MACH_PAGE; lia]. cbn [mm after_read with_mm]. rewrite Hm. cbn [negb rbind].
  eexists. split; [done|]. rewrite mput_ne by done. split; [done|].
  intros w2 i2 E v'. unfold readSymbols. by rewrite E, truth_true.
Qed.

(** The header in [l] is fat, and its entry for the processor starts at zero. *)
Definition fat_zero (l : list Z) (buffer : Z) : Prop :=
  forall m, let m := write_list m buffer l in
    let swap := ldn 4 m buffer =? FAT_CIGAM in
    (ldn 4 m buffer = FAT_CIGAM \/ ldn 4 m buffer = FAT_MAGIC) /\
    too_many (swapped swap (ldn 4 m (buffer + 4))) = false /\
    exists sz, find_arch (mload m buffer (buffer + HeaderSize)) (Z.to_nat (swapped swap (ldn 4 m (buffer + 4)))) swap
                 (buffer + sizeof_fat_header) CPU_TYPE_X86_64 = Ok (Some (0, sz)).

Lemma find_arch_ext ld ld' n swap a cpu r :
  (forall k b x, ld k b = Ok x -> ld' k b = Ok x) -> find_arch ld n swap a cpu = Ok r -> find_arch ld' n swap a cpu = Ok r.
Proof.
  intros Hld. revert a. induction n as [|n IH]; intros a; cbn [find_arch]; [done|]. intros H. step H. rewrite (Hld _ _ _ E). cbn [rbind].
  destruct (_ =? cpu); [|by apply IH]. step H. step H. by rewrite (Hld _ _ _ E0), (Hld _ _ _ E1).
Qed.

(** A fat file whose entry for the processor has the offset zero: the header
    that is read next is the same, the test for a nested one compares the offset
    with zero, and the function calls itself without end. *)
Theorem fat_offset_zero_loops (allow : bool) (w : machine) (i : MachInfo) (buffer : Z) (v : vnode) (l : list Z) :
  aligned buffer = true -> in_blocks (blocks w) buffer HeaderSize = true ->
  vread v 0 HeaderSize = Transfer false l -> Z.of_nat (length l) = HeaderSize -> fat_zero l buffer ->
  forall fuel, readMachHeader malloc inflateInit inflate junk fuel allow w i buffer v 0 = NoFuel.
Proof.
  intros Ha Hb Hv Hl Hz fuel. unfold readMachHeader. rewrite (readFileData_whole _ _ _ _ _ l) by done. cbn [rbind].
  revert w Hb. induction fuel as [|fuel IH]; intros w Hb; cbn [look_at_header]; [done|]. rewrite Ha. cbn [negb].
  destruct (Hz (mm w)) as (Hm & Ht & sz & Hs).
  rewrite !(hld_in (after_read w buffer l) buffer HeaderSize) by (done || unfold HeaderSize, MACH_PAGE; lia).
  cbn [rbind]. change (mm (after_read w buffer l)) with (write_list (mm w) buffer l).
  set (m := write_list (mm w) buffer l) in *.
  assert (ldn 4 m buffer =? MH_MAGIC_64 = false) as -> by (by destruct Hm as [-> | ->]).
  assert ((ldn 4 m buffer =? FAT_CIGAM) || (ldn 4 m buffer =? FAT_MAGIC) = true) as -> by (by destruct Hm as [-> | ->]).
  cbn [Z.eqb negb]. rewrite Ht. erewrite find_arch_ext; [|clear Hs|exact Hs].
  - cbn [rbind]. rewrite (readFileData_whole _ _ _ _ _ l) by done. cbn [rbind]. by apply IH.
  - intros k b x. unfold mload. destruct (_ && _) eqn:E; [|done]. intros [= <-]. apply andb_true_iff in E as [E1%Z.leb_le E2%Z.leb_le].
    by apply (hld_in (after_read w buffer l) buffer HeaderSize).
Qed.

(** The buffer of a compressed file that had no symbols is lost when the object then
    takes its image from the prelinked kernel: no block is freed, and the member is
    null afterwards, so [deinit] does not free it either. *)
Theorem prelinked_leaks (leopard isKernel : bool) (identifier : list Z) (w : machine) (o p : machobj) (ok : bool) (w' : machine) (o' : machobj)
    (p' : option (bool * machobj)) :
  (forall w n a, malloc w n = Some a -> a <> 0) ->
  initFromPrelinked malloc unserialize leopard (Some identifier) w o (Some (isKernel, p)) = Ok (ok, w', o', p') ->
  info o' file_buf = 0 /\ exists l, addrs w' ≡ₚ l ++ addrs w.
Proof.
  intros Hm. cbn [initFromPrelinked]. intros H. step H. destruct a as [[l w1] p1]. step H. destruct a as [[ok1 w2] i2].
  injection H as _ <- <- _. cbn [info]. split; [apply mput_eq|].
  assert (addrs w1 = addrs w) as <-.
  { unfold findImage in E. step E. destruct (prelink_dict a); [|by injection E as _ <- _].
    destruct (imageArr w); [by injection E as _ <- _|]. destruct (getObject _ _) as [[]|]; by injection E as _ <- _. }
  destruct (_ && _); [|injection E0 as _ <- _; by exists []].
  step E0. destruct (_ && _); [|injection E0 as _ <- _; by exists []].
  step E0. destruct a0 as [[] i3]; [|injection E0 as _ <- _; by exists []].
  step E0. destruct a0 as [[ok3 w3] i4]. injection E0 as _ <- _. apply readSymbols_held in E3 as (P & _); [|done]. by eexists.
Qed.

(** Requests are never freed: every read leaves one. *)
Lemma performFileIO_leaks w buffer off size v ok w' :
  performFileIO w buffer off size v = Ok (ok, w') -> vread v off size <> NoUio -> uios w' = uios w + 1.
Proof.
  unfold performFileIO. destruct (vread v off size); [done|by intros [= <- <-]|]. intros H _. step H. injection H as _ <-.
  unfold store_list in E. destruct (in_blocks _ _ _); [|done]. by injection E as <-.
Qed.
End wrong.

Definition one_page : machine := mk_machine (fun _ => 0) [(0x10000, 8192)] 0 0 0 None 0.
Definition no_inflate (m : mem) (_ _ _ _ : Z) : Z * Z * mem := (0, 0, m).

Lemma stale_file_buffer_witness :
  exists i1, readMachHeader bump 0 no_inflate (fun _ => 0) 1 true one_page ((fun _ => 0).[file_buf := 0x50000]) 0x10000 (file_of demo_file) 0 =
      Ok (true, after_read one_page 0x10000 (take (Z.to_nat 8192) demo_file), i1) /\ i1 file_buf = 0x50000 /\
    forall w2 i2, i2 file_buf = i1 file_buf -> forall v', readSymbols bump w2 i2 v' = readSymbols bump w2 i2 (file_of demo_file).
Proof.
  exact (stale_file_buffer bump 0 no_inflate (fun _ => 0) 0 true one_page ((fun _ => 0).[file_buf := 0x50000]) 0x10000
           (file_of demo_file) (take (Z.to_nat 8192) demo_file) ltac:(discriminate) eq_refl eq_refl eq_refl ltac:(vm_compute; reflexivity)
           ltac:(vm_compute; reflexivity)).
Defined.

(** A fat header with one entry, of the processor, at offset zero. *)
Definition demo_fat : list Z :=
  padded (Z.to_nat 8192) [0xca;0xfe;0xba;0xbe; 0;0;0;1; 1;0;0;7; 0;0;0;0; 0;0;0;0; 0;0;1;0; 0;0;0;0].
Lemma ldn_write_list n m a l b :
  a <= b -> b + Z.of_nat n <= a + Z.of_nat (length l) -> ldn n (write_list m a l) b = ldn n (write_list (fun _ => 0) a l) b.
Proof.
  revert b. induction n as [|n IH]; intros b Ha Hb; cbn [ldn]; [done|]. rewrite IH by lia. f_equal. rewrite !ldb_write_list.
  rewrite (proj2 (Z.leb_le a b)) by lia. destruct (lookup_lt_is_Some_2 l (Z.to_nat (b - a))) as [x ->]; [lia|done].
Qed.
Lemma demo_fat_zero : fat_zero demo_fat 0x10000.
Proof.
  intros m. cbv zeta. assert (length demo_fat = Z.to_nat 8192) as Hl by (vm_compute; reflexivity).
  rewrite !(ldn_write_list 4) by (rewrite ?Hl; lia).
  assert (forall n a, mload (write_list m 0x10000 demo_fat) 0x10000 (0x10000 + HeaderSize) n a =
            mload (write_list (fun _ => 0) 0x10000 demo_fat) 0x10000 (0x10000 + HeaderSize) n a) as E.
  { intros n a. unfold mload. destruct (_ && _) eqn:E; [|done]. apply andb_true_iff in E as [E1%Z.leb_le E2%Z.leb_le].
    rewrite ldn_write_list by (rewrite ?Hl; unfold HeaderSize, MACH_PAGE in *; lia). done. }
  split; [by left; vm_compute|]. split; [by vm_compute|]. exists 256.
  apply (find_arch_ext (mload (write_list (fun _ => 0) 0x10000 demo_fat) 0x10000 (0x10000 + HeaderSize)));
    [intros k b x H; by rewrite E|by vm_compute].
Qed.
Lemma fat_offset_zero_loops_witness :
  readMachHeader bump 0 no_inflate (fun _ => 0) 1000 true one_page (fun _ => 0) 0x10000 (file_of demo_fat) 0 = NoFuel.
Proof.
  exact (fat_offset_zero_loops bump 0 no_inflate (fun _ => 0) true one_page (fun _ => 0) 0x10000 (file_of demo_fat)
           (take (Z.to_nat 8192) demo_fat) eq_refl eq_refl eq_refl ltac:(vm_compute; reflexivity)
           ltac:(rewrite take_ge by (vm_compute; lia); exact demo_fat_zero) 1000%nat).
Defined.

Lemma prelinked_leaks_witness :
  let w := mk_machine (fun _ => 0) [(0x50000, 16)] 0 0 0 None 0 in
  exists ok w' o' p',
    initFromPrelinked bump (fun _ => None) true (Some [98]) w (mk_obj ((fun _ => 0).[file_buf := 0x50000]) None) (Some (true, mk_obj (fun _ => 0) None))
      = Ok (ok, w', o', p') /\ info o' file_buf = 0 /\ exists l, addrs w' ≡ₚ l ++ [0x50000].
Proof.
  eexists _, _, _, _. split; [reflexivity|].
  eapply (prelinked_leaks bump (fun _ => None) true true [98] (mk_machine (fun _ => 0) [(0x50000, 16)] 0 0 0 None 0)
            (mk_obj ((fun _ => 0).[file_buf := 0x50000]) None) (mk_obj (fun _ => 0) None)); [exact bump_nonzero|reflexivity].
Defined.

(** The size of the decompressed data is compared as it is stored, with its bytes
    reversed: 256 bytes are taken and the header is copied from behind them; 16
    MiB are refused. *)
Definition demo_compressed (dec : list Z) : list Z :=
  padded (Z.to_nat 8192) (le_bytes 4 CompressionMagic ++ le_bytes 4 ModeZLIB ++ replicate 4 0 ++ dec ++ [0;0;0;1]).
Definition full_inflate (m : mem) (_ n _ _ : Z) : Z * Z * mem := (Z_STREAM_END, n, m).
Definition demo_decompress (dec : list Z) : res (bool * machine * MachInfo) :=
  readMachHeader bump 0 full_inflate (fun _ => 0) 3 true one_page (fun _ => 0) 0x10000 (file_of (demo_compressed dec)) 0.
Example decompressed_size_unswapped :
  demo_decompress [0;0;1;0] = Fault /\ (let! '(ok, _, i) := demo_decompress [1;0;0;0] in Ok (ok, i file_buf)) = Ok (false, 0).
Proof. split; vm_compute; reflexivity. Qed.
