(* ===== verification/NDeckMods.v ===== *)
(** The other modules of NootedDeck: the hot fixes ([Hotfixes/AGDP.cpp],
    [Hotfixes/X6000FB.cpp]), the audio and frame buffer drivers
    ([VanGogh/AppleGFXHDA.cpp], [VanGogh/X6000FB.cpp]) and the debug module
    ([DebugEnabler.cpp]): what they do to a kext when it is loaded, and the wrappers
    around functions of Apple's drivers.

    The original functions, the symbols, registers and the layouts of structures that
    the sources do not have are arguments.  A panic is [Panic] in the monad of the
    patcher. *)

From Stdlib Require Import ZArith Lia List Bool.
From stdpp Require Import prelude.
From S2P Require Import Prelude Disasm KPatch Find Route PatcherPlus NDeck.

Open Scope Z_scope.
Open Scope c_scope.
Open Scope k_scope.

(** A patch without masks and without occurrences to skip. *)
Definition plain_patch (kext : nat) (find replace : list Z) (count : nat) : MaskedLookupPatch :=
  mk_mlp (mk_lookup (Some (Some kext)) find replace count) None None 0.

(** [PANIC_COND] of a failed application; [None] is a loop without end. *)
Definition must_apply (x : K (option bool)) : K (option unit) :=
  let% r := x in
  match r with
  | None => kret None
  | Some true => kret (Some tt)
  | Some false => kpanic
  end.

(** ** AppleGraphicsDevicePolicy *)

Module Agdp.

Definition KAGDPFBCountCheckOriginal : list Z := [0x02; 0x00; 0x00; 0x83; 0xF8; 0x02].
Definition KAGDPFBCountCheckPatched : list Z := [0x02; 0x00; 0x00; 0x83; 0xF8; 0x01].
Definition KAGDPFBCountCheckOriginal13 : list Z := [0x41; 0x83; 0xBE; 0x14; 0x02; 0x00; 0x00; 0x02].
Definition KAGDPFBCountCheckPatched13 : list Z := [0x41; 0x83; 0xBE; 0x14; 0x02; 0x00; 0x00; 0x01].
(** "board-ID" and "applehax" with the zero at their ends. *)
Definition KAGDPBoardIDKeyOriginal : list Z := [98; 111; 97; 114; 100; 45; 73; 68; 0].
Definition KAGDPBoardIDKeyPatched : list Z := [97; 112; 112; 108; 101; 104; 97; 120; 0].

(** A failure is logged only.  [kext]: the number of the kext, once it is loaded. *)
Definition ProcessKext (fuel : nat) (position : nat -> Z * Z) (kext : nat) (attributes : Z) (ID : nat) (Slide Size : Z)
    : K (option unit) :=
  if negb (kext =? ID)%nat then kret (Some tt)
  else
    let% r := Apply position fuel Slide Size (plain_patch kext KAGDPBoardIDKeyOriginal KAGDPBoardIDKeyPatched 1) in
    match r with
    | None => kret None
    | Some _ =>
        let p := if Attr.get attributes Attr.IsVentura
                 then plain_patch kext KAGDPFBCountCheckOriginal13 KAGDPFBCountCheckPatched13 1
                 else plain_patch kext KAGDPFBCountCheckOriginal KAGDPFBCountCheckPatched 1 in
        let% r := Apply position fuel Slide Size p in
        kret (match r with None => None | Some _ => Some tt end)
    end.
End Agdp.

(** ** The hot fixes of the frame buffer driver *)

Module FbFix.

Definition KDpReceiverPowerCtrlPattern : list Z :=
  [0x55; 0x48; 0x89; 0xE5; 0x41; 0x57; 0x41; 0x56; 0x41; 0x54; 0x53; 0x48; 0x83; 0xEC; 0x10; 0x89; 0xF3; 0xB0; 0x02; 0x28; 0xD8].
Definition KDpReceiverPowerCtrlPattern1404 : list Z :=
  [0x55; 0x48; 0x89; 0xE5; 0x41; 0x57; 0x41; 0x56; 0x41; 0x54; 0x53; 0x48; 0x83; 0xEC; 0x10; 0x41; 0x89; 0xF7; 0xB0; 0x02; 0x44; 0x28; 0xF8].
Definition KControllerPowerUpOriginal : list Z := [0x38; 0xC8; 0x0F; 0x42; 0xC8; 0x88; 0x8F; 0xBC; 0x00; 0x00; 0x00; 0x72; 0x00].
Definition KControllerPowerUpOriginalMask : list Z := [0xFF; 0xFF; 0xFF; 0xFF; 0xFF; 0xFF; 0xFF; 0xFF; 0xFF; 0xFF; 0xFF; 0xFF; 0x00].
Definition KControllerPowerUpReplace : list Z := [0x00; 0x00; 0x00; 0x00; 0x00; 0x00; 0x00; 0x00; 0x00; 0x00; 0x00; 0xEB; 0x00].
Definition KControllerPowerUpReplaceMask : list Z := [0x00; 0x00; 0x00; 0x00; 0x00; 0x00; 0x00; 0x00; 0x00; 0x00; 0x00; 0xFF; 0x00].
Definition KValidateDetailedTimingOriginal : list Z := [0x66; 0x0F; 0x2E; 0xC1; 0x76; 0x06; 0xF2; 0x0F; 0x5E; 0xC1].
Definition KValidateDetailedTimingPatched : list Z := [0x66; 0x0F; 0x2E; 0xC1; 0x66; 0x90; 0xF2; 0x0F; 0x5E; 0xC1].

Section process.
Context (d : hde_disasm_t) (T : Z) (lookup : bool -> nat -> Z -> K Z) (position : nat -> Z * Z).

(** The addresses of the wrappers, of the members for the originals, and symbols. *)
Record places := mk_places {
  sym_dp : Z; wrap_dp : Z; org_dp : Z; sym_message : Z; org_message : Z; sym_powerUp : Z; wrap_powerUp : Z; org_powerUp : Z
}.

(** [PANIC_COND] of a request. *)
Definition must (x : K bool) : K unit := let% ok := x in if ok : bool then kret tt else kpanic.

(** [dp_delay]: the argument [-NDeckDPDelay] is given. *)
Definition ProcessKext (fuel : nat) (p : places) (dp_delay : bool) (kext : nat) (attributes : Z) (ID : nat) (Slide Size : Z)
    : K (option unit) :=
  if negb (kext =? ID)%nat then kret (Some tt)
  else
    (if dp_delay then
       let pattern := if Attr.get attributes Attr.IsSonoma1404Plus then KDpReceiverPowerCtrlPattern1404 else KDpReceiverPowerCtrlPattern in
       must (PatternRoute d T lookup ID Slide Size (mk_prr (Some (sym_dp p)) 0 (wrap_dp p) (Some (org_dp p)) (Some pattern) None))
     else kret tt) ;%
    (if Attr.get attributes Attr.IsVenturaPlus then
       must (Solve lookup ID Slide Size (mk_psr (Some (sym_message p)) (Some (org_message p)) None None))
     else kret tt) ;%
    (if Attr.get attributes Attr.IsVenturaPlus then
       must (PatternRoute d T lookup ID Slide Size (mk_prr (Some (sym_powerUp p)) 0 (wrap_powerUp p) (Some (org_powerUp p)) None None))
     else kret tt) ;%
    if Attr.get attributes Attr.IsVenturaPlus then
      must_apply (ApplyAll position fuel Slide Size false
        [mk_mlp (mk_lookup (Some (Some kext)) KControllerPowerUpOriginal KControllerPowerUpReplace 1)
           (Some KControllerPowerUpOriginalMask) (Some KControllerPowerUpReplaceMask) 0;
         plain_patch kext KValidateDetailedTimingOriginal KValidateDetailedTimingPatched 1])
    else kret (Some tt).
End process.

Definition IOFBRequestControllerEnabled : Z := 0x1B.

(** [powerUp]: the original; [messageAccelerator] with a request, both with the
    memory. *)
Definition WrapControllerPowerUp (powerUp : mem -> Z * mem) (messageAccelerator : mem -> Z -> mem) (m : mem) (ThatIGuess : Z) : Z * mem :=
  let flags := ldb m (ThatIGuess + 0x5F18) in
  let send := flags .& 2 =? 0 in
  let '(ret, m) := powerUp (stb m (ThatIGuess + 0x5F18) (flags .| 4)) in
  (ret, if send then messageAccelerator m IOFBRequestControllerEnabled else m).
End FbFix.

(** ** The audio driver *)

Module Hda.

Definition AMDVendorID : Z := 0x1002.
Definition Navi10HDMIDeviceID : Z := 0xAB38.
Definition Navi10HDMIID : Z := (Navi10HDMIDeviceID .<< 16) .| AMDVendorID.
Definition AerithHDMIDeviceID : Z := 0x163F.
Definition AerithHDMIID : Z := (AerithHDMIDeviceID .<< 16) .| AMDVendorID.
Definition SephirothHDMIDeviceID : Z := 0x1640.
Definition SephirothHDMIID : Z := (SephirothHDMIDeviceID .<< 16) .| AMDVendorID.

(** The bytes of a number of 32 bits. *)
Definition bytes32 (v : Z) : list Z := [u8 v; u8 (v .>> 8); u8 (v .>> 16); u8 (v .>> 24)].

(** The patch of the probed identifier. *)
Definition probe_patch (kext : nat) (attributes : Z) : LookupPatch :=
  mk_lookup (Some (Some kext)) (bytes32 Navi10HDMIID)
    (bytes32 (if Attr.get attributes Attr.IsAerith then AerithHDMIID else SephirothHDMIID)) 1.

(** [KernelPatcher::solveMultiple]: symbols with the addresses of variables. *)
Fixpoint solveMultiple (lookup : nat -> Z -> K Z) (ID : nat) (force : bool) (l : list (Z * Z)) : K bool :=
  match l with
  | [] => kret true
  | (sym, address) :: l' =>
      let% a := lookup ID sym in
      if truth a then kstore false 8 address a ;% solveMultiple lookup ID force l'
      else clearError ;% if force then solveMultiple lookup ID force l' else kret false
  end.

Section process.
Context (d : hde_disasm_t) (T : Z) (lookup : bool -> nat -> Z -> K Z) (position : nat -> Z * Z) (InitHWLate : K unit).

(** The symbols with the addresses of the members and of the wrappers. *)
Record places := mk_places {
  sym_tahiti : Z; org_tahiti : Z; sym_widget_class : Z; org_widget_class : Z;
  sym_group : Z; wrap_group : Z; org_group : Z; sym_widget : Z; wrap_widget : Z; org_widget : Z
}.

Definition ProcessKext (fuel : nat) (p : places) (kext : nat) (attributes : Z) (ID : nat) (Slide Size : Z) : K (option unit) :=
  if negb (kext =? ID)%nat then kret (Some tt)
  else
    InitHWLate ;%
    clearError ;%
    let% fin := applyLookupPatch fuel position (Some (probe_patch kext attributes)) 0 0 in
    if negb fin then kret None
    else
      let% e := getError in
      if negb (bool_decide (e = NoError)) then kpanic
      else
        let% ok := solveMultiple (lookup true) ID false
                     [(sym_tahiti p, org_tahiti p); (sym_widget_class p, org_widget_class p)] in
        if negb ok then kpanic
        else
          let% ok := routeMultiple d T lookup ID Slide Size
                       [mk_req (Some (sym_group p)) 0 (wrap_group p) (Some (org_group p));
                        mk_req (Some (sym_widget p)) 0 (wrap_widget p) (Some (org_widget p))] in
          if negb ok then kpanic else kret (Some tt).
End process.

(** The wrapped factories: [alloc_group] and [alloc_widget] make objects of the
    known classes, [create_group] and [create_widget] are the originals. *)
Section wrappers.
Context {A : Type} (alloc_group alloc_widget : A) (create_group create_widget : Z -> A).

Definition known_device (m : mem) (DevID : Z) : bool :=
  let VendorID := ldn 2 m (DevID + 0x2) in
  let DeviceID := ldn 4 m (DevID + 0x8) in
  (VendorID =? AMDVendorID) && ((DeviceID =? AerithHDMIDeviceID) || (DeviceID =? SephirothHDMIDeviceID)).

Definition WrapCreateAppleHDAFunctionGroup (m : mem) (DevID : Z) : A :=
  if known_device m DevID then alloc_group else create_group DevID.
(** The original that is called is that of the function groups. *)
Definition WrapCreateAppleHDAWidget (m : mem) (DevID : Z) : A :=
  if known_device m DevID then alloc_widget else create_group DevID.
End wrappers.
End Hda.

(** ** The frame buffer driver *)

Module Fb.

(** The video memory: the table of the BIOS, if it has one, with its revisions and
    the two versions of its contents. *)
Record IGPSystemInfo := mk_igp { formatRev : Z; contentRev : Z; channelsV11 : Z; typeV11 : Z; channelsV2 : Z; typeV2 : Z }.

(** The number of channels and the type of the memory. *)
Definition vram_info (Table : option IGPSystemInfo) : Z * Z :=
  match Table with
  | None => (1, 0)
  | Some t =>
      if formatRev t =? 1 then
        if (contentRev t =? 11) || (contentRev t =? 12) then (if truth (channelsV11 t) then channelsV11 t else 1, typeV11 t) else (1, 0)
      else if formatRev t =? 2 then
        if (contentRev t =? 1) || (contentRev t =? 2) then (if truth (channelsV2 t) then channelsV2 t else 1, typeV2 t) else (1, 0)
      else (1, 0)
  end.
(** [DDR4]: its number; both cases of the [switch] on the type store it. *)
Definition PopulateVRAMInfo (DDR4 : Z) (Table : option IGPSystemInfo) (m : mem) (FwInfo : Z) : mem :=
  let '(ChannelCount, _) := vram_info Table in
  st32 (st32 m (FwInfo + 0x1C) DDR4) (FwInfo + 0x20) (u32 (ChannelCount * 64)).

(** The layout of the table of display paths: where and how wide its members are. *)
Record obj_layout := mk_obj_layout {
  format_at : Z; content_at : Z; count_at : Z; count_width : nat; paths_at : Z; path_size : Z; tag_at : Z; tag_width : nat
}.

(** The loop over [k] paths from [i] on, [j] of them kept. *)
Fixpoint fix_paths (l : obj_layout) (k : nat) (m : mem) (objInfo i j : Z) : mem :=
  match k with
  | O => m
  | S k' =>
      let path n := objInfo + paths_at l + n * path_size l in
      if truth (ldn (tag_width l) m (path i + tag_at l)) then
        fix_paths l k' (mem_move m (path j) (path i) (path_size l)) objInfo (i + 1) (j + 1)
      else
        let n := ldn (count_width l) m (objInfo + count_at l) in
        fix_paths l k' (stn (count_width l) m (objInfo + count_at l) (n - 1)) objInfo (i + 1) j
  end.

(** [getNumberOfConnectors]: the original.  The first call only looks at the table. *)
Definition WrapGetNumberOfConnectors (l : obj_layout) (getNumberOfConnectors : mem -> Z) (fixedVBIOS : bool) (m : mem) (ThatIGuess : Z)
    : Z * bool * mem :=
  let m :=
    if fixedVBIOS then m
    else
      let objInfo := ldn 8 m (ThatIGuess + 0x28) in
      let content := ldb m (objInfo + content_at l) in
      if (ldb m (objInfo + format_at l) =? 1) && ((content =? 4) || (content =? 5)) then
        fix_paths l (Z.to_nat (ldn (count_width l) m (objInfo + count_at l))) m objInfo 0 0
      else m in
  (getNumberOfConnectors m, true, m).

(** The numbers of registers and bits are arguments. *)
Definition IRQMGR_value (IH_CLK_CTRL DBUS_SHIFT BUFFER_SHIFT : Z) (Index Value : Z) : Z :=
  if Index =? IH_CLK_CTRL then
    if truth (Value .& u32 (1 .<< DBUS_SHIFT)) then Value .| u32 (1 .<< BUFFER_SHIFT) else Value
  else Value.

Definition SMUIO_BASE_0 : Z := 0x16800.
(** What is passed on to the original. *)
Definition WrapCreateRegisterAccess (ROM_INDEX ROM_DATA : Z) (m : mem) (InitData : Z) : mem :=
  st32 (st32 m (InitData + 0x24) (u32 (SMUIO_BASE_0 + ROM_INDEX))) (InitData + 0x28) (u32 (SMUIO_BASE_0 + ROM_DATA)).

(** [AMDReservedMemorySelector], as far as it is used: the whole, cursors, and the
    reserves of PPLIB and DMCUB. *)
Inductive selector := ReserveVRAM | Cursor (n : Z) (bpp : Z) | PPLIBReserved | DMCUBReserved.
Definition selector_number (s : selector) : Z :=
  match s with
  | ReserveVRAM => 0
  | Cursor n bpp => 2 * n - 1 + (if bpp =? 32 then 0 else 1)
  | PPLIBReserved => 13
  | DMCUBReserved => 14
  end.
Definition VramMappingOptions : Z := (4 .<< 8) .| 1.

(** The parts of the reserved memory: selector, offset and size. *)
Definition reserved_ranges : list (selector * Z * Z) :=
  [(Cursor 1 32, 0, 0x40000); (Cursor 1 2, 0x40000, 0x40000); (Cursor 2 32, 0x80000, 0x40000); (Cursor 2 2, 0xC0000, 0x40000);
   (Cursor 3 32, 0x100000, 0x40000); (Cursor 3 2, 0x140000, 0x40000); (Cursor 4 32, 0x180000, 0x40000); (Cursor 4 2, 0x1C0000, 0x40000);
   (Cursor 5 32, 0x200000, 0x40000); (Cursor 5 2, 0x240000, 0x40000); (Cursor 6 32, 0x280000, 0x40000); (Cursor 6 2, 0x2C0000, 0x40000);
   (PPLIBReserved, 0x300000, 0x100000); (DMCUBReserved, 0x400000, 0x100000); (ReserveVRAM, 0, 0x500000)].

Section reserved.
(** [mapMemorySubRange], with the state of the driver; zero is success. *)
Context {S : Type} (mapMemorySubRange : Z -> Z -> Z -> Z -> S -> Z * S).

Fixpoint map_ranges (l : list (selector * Z * Z)) (s : S) : Z * S :=
  match l with
  | [] => (0, s)
  | (sel, off, size) :: l' =>
      let '(r, s) := mapMemorySubRange (selector_number sel) off size VramMappingOptions s in
      if negb (r =? 0) then (r, s) else map_ranges l' s
  end.
Definition InitializeReservedVRAM (s : S) : Z * S := map_ranges reserved_ranges s.
End reserved.
End Fb.

(** ** The debug module *)

Module Debug.

(** [snprintf] gives the text of a message, cut to the buffer; [strnlen] of it. *)
Definition BufferSize : Z := 0x1000.
Definition logged (m : list Z) : list Z := take (Z.to_nat (BufferSize - 1)) m.

Definition NumLogTypes : Z := 33.

(** The end of a line: the last character of the message decides; a message without
    characters is read before its start. *)
Definition epilogue (Message : list Z) : res (list Z) :=
  match last (logged Message) with
  | None => Fault
  | Some c => Ok (if c =? 10 then [] else [10])
  end.
(** What is printed: the number of a known type, the message and the end. *)
Definition DMLoggerWrite (LogType : Z) (Message : list Z) : res (option Z * list Z) :=
  let! e := epilogue Message in
  Ok (if LogType <? NumLogTypes then Some LogType else None, logged Message ++ e).

Definition PRINT_FUNC_ENTRY_EXIT : Z := 0x40.

(** [is_policy]: the name is [GpuDebugPolicy]; [org]: the result of the original and
    the value it stores, if there is a place for it. *)
Definition WrapGetNumericProperty (is_policy : bool) (org : bool) (Value : option Z) : bool * option Z :=
  if negb is_policy then (org, Value)
  else (true, match Value with Some v => Some (if org then v .| PRINT_FUNC_ENTRY_EXIT else PRINT_FUNC_ENTRY_EXIT) | None => None end).

(** What the wrapper of [initWithPciInfo] writes behind the original. *)
Definition WrapSomethingWithPCIInfo (org : mem -> bool * mem) (m : mem) (ThatIGuess : Z) : bool * mem :=
  let '(r, m) := org m in
  (r, st32 (st64 m (ThatIGuess + 0x28) (2 ^ 64 - 1)) (ThatIGuess + 0x30) 0xFF).
End Debug.
