(* ===== verification/NDeckModsThm.v ===== *)
(** Theorems on the other modules of NootedDeck ([NDeckMods.v]). *)

From Stdlib Require Import ZArith Lia List Bool.
From stdpp Require Import prelude.
From S2P Require Import Prelude Disasm KPatch Find Route PatcherPlus NDeck NDeckMods.

Open Scope Z_scope.
Open Scope c_scope.

(** ** Patches *)

(** A patch of one occurrence in an image: at most one place is changed, and the
    result says whether one was. *)
Lemma Apply_plain position fuel kext find repl Slide Size s :
  position kext = (Slide, Size) -> 0 <= Slide -> 0 <= Size -> Slide + Size < 2 ^ 64 -> Z.of_nat (length find) <= Size -> (1 < fuel)%nat ->
  locked (kcpu s) = false -> answers s = [] ->
  exists s' l, Apply position fuel Slide Size (plain_patch kext find repl 1) s = Ret (Some (bool_decide (length l = 1%nat))) s' /\
    rewrites find repl (kmem s) l (kmem s') /\ (length l <= 1)%nat /\
    locked (kcpu s') = false /\ iflag (kcpu s') = iflag (kcpu s) /\ wp (kcpu s') = wp (kcpu s) /\ answers s' = [].
Proof.
  intros Hp Hs Hz Hw Hf Hfu Hl Ha. unfold Apply, plain_patch. cbn [ml_findMask ml_replaceMask ml_skip is_none andb Nat.eqb ml_base].
  set (p := mk_lookup (Some (Some kext)) find repl 1).
  destruct (applyLookupPatch_correct position p Slide Size (set_code NoError s) Slide Size fuel) as
    (s' & l & E & Hr & _ & Hn & Hc & Hk1 & Hk2 & Hk3 & Hk4);
    [done|done|exact Hp|done|done|done|done|done|done| |done|done|done|].
  { unfold lookup_range. cbn. repeat case_match; lia. }
  exists s', l. unfold clearError, kbind, kmod. rewrite E. unfold getError, kget, kret. split; [|done].
  rewrite Hc. change (code (set_code NoError s)) with NoError. change (lcount p) with 1%nat.
  destruct (decide (length l = 1%nat)); [by rewrite !bool_decide_true by done|by rewrite !bool_decide_false by done].
Qed.

(** What the hot fix does to AppleGraphicsDevicePolicy: for another kext nothing; for
    this one it ends without a panic, with at most one key of board identifiers and
    at most one test of the number of frame buffers replaced, the one of the version
    of the system, nothing else written and the protection as before. *)
Theorem agdp_patched (position : nat -> Z * Z) (fuel kext ID : nat) (attributes Slide Size : Z) (s : kp) :
  position kext = (Slide, Size) -> 0 <= Slide -> 9 <= Size -> Slide + Size < 2 ^ 64 -> (1 < fuel)%nat ->
  locked (kcpu s) = false -> answers s = [] ->
  let ventura := Attr.get attributes Attr.IsVentura in
  exists s', Agdp.ProcessKext fuel position kext attributes ID Slide Size s = Ret (Some tt) s' /\
    (ID <> kext -> s' = s) /\
    (ID = kext ->
     exists m1 l1 l2, (length l1 <= 1)%nat /\ (length l2 <= 1)%nat /\
       rewrites Agdp.KAGDPBoardIDKeyOriginal Agdp.KAGDPBoardIDKeyPatched (kmem s) l1 m1 /\
       rewrites (if ventura then Agdp.KAGDPFBCountCheckOriginal13 else Agdp.KAGDPFBCountCheckOriginal)
         (if ventura then Agdp.KAGDPFBCountCheckPatched13 else Agdp.KAGDPFBCountCheckPatched) m1 l2 (kmem s') /\
       locked (kcpu s') = false /\ wp (kcpu s') = wp (kcpu s) /\ iflag (kcpu s') = iflag (kcpu s)).
Proof.
  intros Hp Hs Hz Hw Hf Hl Ha ventura. unfold Agdp.ProcessKext. destruct (Nat.eqb_spec kext ID) as [->|Hne]; cbn [negb].
  2: { exists s. split; [done|]. split; [done|]. congruence. }
  destruct (Apply_plain position fuel ID Agdp.KAGDPBoardIDKeyOriginal Agdp.KAGDPBoardIDKeyPatched Slide Size s) as
    (s1 & l1 & E1 & R1 & N1 & L1 & I1 & W1 & A1); [done|done|lia|done|cbn; lia|done|done|done|].
  rewrite (kbind_Ret _ _ _ _ _ E1).
  set (f := if ventura then Agdp.KAGDPFBCountCheckOriginal13 else Agdp.KAGDPFBCountCheckOriginal).
  set (r := if ventura then Agdp.KAGDPFBCountCheckPatched13 else Agdp.KAGDPFBCountCheckPatched).
  destruct (Apply_plain position fuel ID f r Slide Size s1) as
    (s2 & l2 & E2 & R2 & N2 & L2 & I2 & W2 & A2); [done|done|lia|done|unfold f; destruct ventura; cbn; lia|done|done|done|].
  exists s2. assert ((if Attr.get attributes Attr.IsVentura
    then plain_patch ID Agdp.KAGDPFBCountCheckOriginal13 Agdp.KAGDPFBCountCheckPatched13 1
    else plain_patch ID Agdp.KAGDPFBCountCheckOriginal Agdp.KAGDPFBCountCheckPatched 1) = plain_patch ID f r 1) as ->
    by (unfold f, r, ventura; by destruct (Attr.get _ _)).
  rewrite (kbind_Ret _ _ _ _ _ E2). split; [done|]. split; [done|]. intros _. exists (kmem s1), l1, l2. split_and!; (done || congruence).
Qed.

(** A key of board identifiers in an image of 32 bytes. *)
Lemma agdp_patched_witness :
  exists s', Agdp.ProcessKext 2 (fun _ => (4096, 32)) 3 0 3 4096 32 (calm (bytes_at 4100 Agdp.KAGDPBoardIDKeyOriginal)) = Ret (Some tt) s' /\
    locked (kcpu s') = false.
Proof.
  destruct (agdp_patched (fun _ => (4096, 32)) 2 3 3 0 4096 32 (calm (bytes_at 4100 Agdp.KAGDPBoardIDKeyOriginal)) eq_refl
    ltac:(lia) ltac:(lia) ltac:(lia) ltac:(lia) eq_refl eq_refl) as (s' & E & _ & H).
  destruct (H eq_refl) as (m1 & l1 & l2 & _ & _ & _ & _ & Hl & _). exists s'. split; [exact E|exact Hl].
Defined.

(** ** Display paths *)

Section paths.
Context (l : Fb.obj_layout) (objInfo : Z).
#[local] Notation P := (objInfo + Fb.paths_at l).
#[local] Notation sz := (Fb.path_size l).
#[local] Notation C := (objInfo + Fb.count_at l).
#[local] Notation cw := (Fb.count_width l).

(** The paths and the count are apart, and the tag is a member of a path. *)
Record layout_fits (n : Z) : Prop := {
  lf_size : 0 < sz;
  lf_tag : 0 <= Fb.tag_at l /\ Fb.tag_at l + Z.of_nat (Fb.tag_width l) <= sz;
  lf_apart : C + Z.of_nat cw <= P \/ P + n * sz <= C
}.

Definition tagged (m : mem) (k : Z) : bool := truth (ldn (Fb.tag_width l) m (P + k * sz + Fb.tag_at l)).
(** The numbers of the [k] paths from [i] on that have a tag. *)
Fixpoint kept (m : mem) (k : nat) (i : Z) : list Z :=
  match k with
  | O => []
  | S k' => if tagged m i then i :: kept m k' (i + 1) else kept m k' (i + 1)
  end.

Lemma kept_ext m m' k i : (forall p, i <= p < i + Z.of_nat k -> tagged m' p = tagged m p) -> kept m' k i = kept m k i.
Proof.
  revert i. induction k as [|k IH]; intros i H; [done|]. cbn [kept]. rewrite (H i) by lia. rewrite IH by (intros; apply H; lia). done.
Qed.
Lemma kept_length m k i : (length (kept m k i) <= k)%nat.
Proof. revert i. induction k as [|k IH]; intros i; [done|]. cbn [kept]. specialize (IH (i + 1)). case_match; cbn [length]; lia. Qed.

Lemma kept_ge m k i s : s ∈ kept m k i -> i <= s < i + Z.of_nat k.
Proof.
  revert i. induction k as [|k IH]; intros i; cbn [kept]; [by intros ?%elem_of_nil|]. destruct (tagged m i).
  - intros [->|Hs]%elem_of_cons; [lia|]. apply IH in Hs. lia.
  - intros Hs. apply IH in Hs. lia.
Qed.

(** The memory of a path decides its tag. *)
Lemma tagged_same n m m' p : layout_fits n -> (forall x, 0 <= x < sz -> m' (P + p * sz + x) = m (P + p * sz + x)) -> tagged m' p = tagged m p.
Proof.
  intros [] H. unfold tagged. f_equal. apply ldn_ext. intros x Hx.
  replace x with (P + p * sz + (x - (P + p * sz))) by lia. apply H. lia.
Qed.

(** What the loop does from path [i] on, with [j] paths kept before. *)
Lemma fix_paths_spec n k m i j :
  layout_fits n -> 0 <= j <= i -> i + Z.of_nat k <= n ->
  let m' := Fb.fix_paths l k m objInfo i j in
  (forall p x, 0 <= p < j -> 0 <= x < sz -> m' (P + p * sz + x) = m (P + p * sz + x)) /\
  (forall q s, kept m k i !! q = Some s -> forall x, 0 <= x < sz -> m' (P + (j + Z.of_nat q) * sz + x) = m (P + s * sz + x)) /\
  ldn cw m' C = (ldn cw m C - (Z.of_nat k - Z.of_nat (length (kept m k i)))) mod 256 ^ Z.of_nat cw /\
  (forall x, (x < P \/ P + n * sz <= x) -> (x < C \/ C + Z.of_nat cw <= x) -> m' x = m x).
Proof.
  intros Hf. pose proof Hf as [Hsz Htag Hap]. revert m i j. induction k as [|k IH]; intros m i j Hj Hn; cbn [Fb.fix_paths kept].
  { split; [done|]. split; [intros q s Hq; by rewrite lookup_nil in Hq|]. split; [|done]. rewrite Z.sub_0_r, Z.mod_small; [done|apply ldn_range]. }
  fold (tagged m i). destruct (tagged m i) eqn:Et.
  - set (m1 := mem_move m (P + j * sz) (P + i * sz) sz).
    assert (forall x, x < P + j * sz \/ P + j * sz + sz <= x -> m1 x = m x) as Ho.
    { intros x Hx. unfold m1, mem_move. destruct (Z.leb_spec (P + j * sz) x), (Z.ltb_spec x (P + j * sz + sz)); cbn [andb]; (done || lia). }
    assert (forall p x, j < p -> 0 <= x < sz -> m1 (P + p * sz + x) = m (P + p * sz + x)) as Hp by (intros p x ? ?; apply Ho; nia).
    assert (kept m1 k (i + 1) = kept m k (i + 1)) as Hk
      by (apply kept_ext; intros p ?; apply (tagged_same n); [done|]; intros x ?; apply Hp; lia).
    destruct (IH m1 (i + 1) (j + 1)) as (I1 & I2 & I3 & I4); [lia|lia|]. rewrite Hk in *. split_and!.
    + intros p x ? ?. rewrite I1 by lia. apply Ho. nia.
    + intros [|q] s; cbn [lookup list_lookup].
      * intros [= <-] x Hx. rewrite Z.add_0_r, I1 by lia. unfold m1, mem_move.
        rewrite (proj2 (Z.leb_le _ _)), (proj2 (Z.ltb_lt _ _)) by lia. f_equal. lia.
      * intros Hq x Hx. replace (j + Z.of_nat (S q)) with (j + 1 + Z.of_nat q) by lia. rewrite (I2 q s) by done.
        apply list_elem_of_lookup_2 in Hq as Hin. apply Hp; [|done].
        apply kept_ge in Hin. lia.
    + rewrite I3. replace (ldn cw m1 C) with (ldn cw m C) by (symmetry; apply ldn_ext; intros x Hx; apply Ho; nia).
      cbn [length]. f_equal. lia.
    + intros x Hx Hc. rewrite I4 by lia. apply Ho. nia.
  - set (m1 := stn cw m C (ldn cw m C - 1)).
    assert (forall x, x < C \/ C + Z.of_nat cw <= x -> m1 x = m x) as Ho by (intros x Hx; by apply stn_other).
    assert (forall p x, 0 <= p < n -> 0 <= x < sz -> m1 (P + p * sz + x) = m (P + p * sz + x)) as Hp by (intros p x ? ?; apply Ho; nia).
    assert (kept m1 k (i + 1) = kept m k (i + 1)) as Hk
      by (apply kept_ext; intros p ?; apply (tagged_same n); [done|]; intros x ?; apply Hp; lia).
    destruct (IH m1 (i + 1) j) as (I1 & I2 & I3 & I4); [lia|lia|]. rewrite Hk in *. split_and!.
    + intros p x ? ?. rewrite I1 by lia. apply Hp; lia.
    + intros q s Hq x Hx. rewrite (I2 q s) by done. apply list_elem_of_lookup_2 in Hq as Hin. apply kept_ge in Hin. apply Hp; lia.
    + rewrite I3. unfold m1. rewrite ldn_stn_same, Zminus_mod_idemp_l. f_equal. lia.
    + intros x Hx Hc. rewrite I4 by lia. by apply Ho.
Qed.
End paths.

(** C19: The first call of the wrapper of [getNumberOfConnectors] drops the display paths without a
    device tag: the paths that have one move to the front in their order, the count
    becomes their number, nothing else is written, and later calls change nothing. *)
Theorem WrapGetNumberOfConnectors_fixes (l : Fb.obj_layout) (org : mem -> Z) (m : mem) (ThatIGuess : Z) :
  let objInfo := ldn 8 m (ThatIGuess + 0x28) in
  let n := ldn (Fb.count_width l) m (objInfo + Fb.count_at l) in
  let tags := kept l objInfo m (Z.to_nat n) 0 in
  layout_fits l objInfo n ->
  ldb m (objInfo + Fb.format_at l) = 1 -> 4 <= ldb m (objInfo + Fb.content_at l) <= 5 ->
  exists m', Fb.WrapGetNumberOfConnectors l org false m ThatIGuess = (org m', true, m') /\
    ldn (Fb.count_width l) m' (objInfo + Fb.count_at l) = Z.of_nat (length tags) /\
    (forall q s x, tags !! q = Some s -> 0 <= x < Fb.path_size l ->
       m' (objInfo + Fb.paths_at l + Z.of_nat q * Fb.path_size l + x) = m (objInfo + Fb.paths_at l + s * Fb.path_size l + x)) /\
    (forall x, (x < objInfo + Fb.paths_at l \/ objInfo + Fb.paths_at l + n * Fb.path_size l <= x) ->
       (x < objInfo + Fb.count_at l \/ objInfo + Fb.count_at l + Z.of_nat (Fb.count_width l) <= x) -> m' x = m x) /\
    Fb.WrapGetNumberOfConnectors l org true m' ThatIGuess = (org m', true, m').
Proof.
  intros objInfo n tags Hf Hfmt Hcon. unfold Fb.WrapGetNumberOfConnectors. fold objInfo. rewrite Hfmt. cbn [Z.eqb andb].
  pose proof (ldn_range (Fb.count_width l) m (objInfo + Fb.count_at l)) as Hn. fold n in Hn.
  assert ((ldb m (objInfo + Fb.content_at l) =? 4) || (ldb m (objInfo + Fb.content_at l) =? 5) = true) as ->
    by (apply orb_true_iff; rewrite !Z.eqb_eq; lia).
  change (Pos.eqb 1 1) with true. cbv iota. fold n.
  destruct (fix_paths_spec l objInfo n (Z.to_nat n) m 0 0 Hf) as (_ & I2 & I3 & I4); [lia|lia|]. fold tags in I2, I3.
  exists (Fb.fix_paths l (Z.to_nat n) m objInfo 0 0). split; [done|]. pose proof (kept_length l objInfo m (Z.to_nat n) 0) as Hk. fold tags in Hk. fold n in I3.
  split; [rewrite I3, Z.mod_small; lia|]. split; [intros q s x Hq Hx; by rewrite <- (I2 q s Hq x Hx)|]. split; [exact I4|done].
Qed.

(** A table at 4096: one byte for the count at 2, paths of four bytes from 4 on, the
    tag in their first two; the middle one of three has none. *)
Definition demo_layout : Fb.obj_layout := Fb.mk_obj_layout 0 1 2 1 4 4 0 2.
Definition demo_table : mem := st64 (write_list (fun _ => 0) 4096 [1; 4; 3; 0; 7; 0; 1; 1; 0; 0; 2; 2; 0; 9; 3; 3]) 0x28 4096.
Lemma WrapGetNumberOfConnectors_fixes_witness :
  exists m', Fb.WrapGetNumberOfConnectors demo_layout (fun m => ldb m 4098) false demo_table 0 = (ldb m' 4098, true, m') /\
    ldn 1 m' 4098 = 2 /\ ldb m' 4106 = 3.
Proof.
  destruct (WrapGetNumberOfConnectors_fixes demo_layout (fun m => ldb m 4098) demo_table 0) as (m' & E & Hc & Hp & _).
  - split; [reflexivity|vm_compute; split; discriminate|left; vm_compute; discriminate].
  - reflexivity.
  - vm_compute. split; discriminate.
  - exists m'. split; [exact E|]. split; [exact Hc|].
    unfold ldb. assert (m' 4106 = demo_table 4110) as ->; [|reflexivity].
    exact (Hp 1%nat 2 2 eq_refl ltac:(vm_compute; split; [discriminate|reflexivity])).
Defined.

(** ** Reserved memory *)

(** A driver that notes what is mapped; [answer]: its result for the [n]-th call. *)
Definition noting (answer : nat -> Z) (sel off size opts : Z) (s : list (Z * Z * Z)) : Z * list (Z * Z * Z) :=
  (answer (length s), s ++ [(sel, off, size)]).
Definition numbered (l : list (Fb.selector * Z * Z)) : list (Z * Z * Z) :=
  (fun '(sel, off, size) => (Fb.selector_number sel, off, size)) <$> l.

Lemma map_ranges_noted answer l s :
  exists k, (k <= length l)%nat /\
    (Fb.map_ranges (noting answer) l s).2 = s ++ take k (numbered l) /\
    ((Fb.map_ranges (noting answer) l s).1 = 0 -> k = length l) /\
    (forall j, (j < k)%nat -> (S j < k)%nat \/ (Fb.map_ranges (noting answer) l s).1 = 0 -> answer (length s + j)%nat = 0).
Proof.
  revert s. induction l as [|[[sel off] size] l IH]; intros s; cbn [Fb.map_ranges noting].
  { exists 0%nat. split_and!; [done|by rewrite app_nil_r|done|lia]. }
  destruct (Z.eqb_spec (answer (length s)) 0) as [E|E]; cbn [negb].
  - destruct (IH (s ++ [(Fb.selector_number sel, off, size)])) as (k & H1 & H2 & H3 & H4). exists (S k). cbn [length]. split_and!.
    + lia.
    + rewrite H2, <- app_assoc. done.
    + intros Hz. by rewrite H3.
    + intros [|j] Hj Hc; [by rewrite Nat.add_0_r|]. specialize (H4 j ltac:(lia)). rewrite length_app in H4. cbn [length] in H4.
      replace (length s + S j)%nat with (length s + 1 + j)%nat by lia. apply H4. destruct Hc; [left; lia|by right].
  - exists 1%nat. cbn [length]. split_and!; [lia|done|done|]. intros j Hj [Hc|Hc]; [lia|done].
Qed.

(** The parts follow each other without gaps. *)
Fixpoint adjacent (a : Z) (l : list (Z * Z * Z)) (e : Z) : Prop :=
  match l with
  | [] => a = e
  | (_, off, size) :: l' => off = a /\ 0 < size /\ adjacent (off + size) l' e
  end.

(** Whatever the driver answers, the mappings made are the first ones of the
    fixed list, up to the first failure, whose result is returned; all of them
    when it returns zero: fourteen parts that fill 5 MiB without gaps, then the whole. *)
Theorem reserved_vram_mapped (answer : nat -> Z) :
  let '(r, calls) := Fb.InitializeReservedVRAM (noting answer) [] in
  (exists k, calls = take k (numbered Fb.reserved_ranges)) /\
  (r = 0 -> calls = numbered Fb.reserved_ranges) /\
  adjacent 0 (take 14 (numbered Fb.reserved_ranges)) 0x500000 /\
  drop 14 (numbered Fb.reserved_ranges) = [(0, 0, 0x500000)].
Proof.
  unfold Fb.InitializeReservedVRAM. destruct (map_ranges_noted answer Fb.reserved_ranges []) as (k & Hk & Hc & H0 & _).
  destruct (Fb.map_ranges _ _ _) as [r calls]. cbn [fst snd app] in *. subst calls. split; [by eexists|]. split.
  - intros ->. rewrite H0 by done. done.
  - split; [by vm_compute|done].
Qed.

(** ** Defects *)

(** For a device it does not know the wrapper of the widget factory calls the original of
    the function groups. *)
Lemma widget_of_other_device {A} (ag aw : A) (cg cw : Z -> A) m DevID :
  Hda.known_device m DevID = false -> Hda.WrapCreateAppleHDAWidget aw cg m DevID = cg DevID.
Proof. intros H. unfold Hda.WrapCreateAppleHDAWidget. by rewrite H. Qed.

(** An empty message is read before its start; any other is printed with one line end. *)
Lemma DMLoggerWrite_lines LogType Message :
  match Debug.DMLoggerWrite LogType Message with
  | Ok (_, text) => Message <> [] /\ last text = Some 10 /\ text `prefix_of` Debug.logged Message ++ [10]
  | _ => Message = []
  end.
Proof.
  unfold Debug.DMLoggerWrite, Debug.epilogue. destruct (last (Debug.logged Message)) as [c|] eqn:E; cbn [rbind].
  - split; [by intros ->|]. destruct (Z.eqb_spec c 10) as [->|].
    + rewrite app_nil_r. split; [done|by apply prefix_app_r].
    + by rewrite last_snoc.
  - apply last_None in E. unfold Debug.logged in E. destruct Message; [done|]. by change (Z.to_nat (Debug.BufferSize - 1)) with (S (Z.to_nat 4094)) in E.
Qed.
